(* ===== verification/_CoqProject ===== *)
-Q . S2P
Prelude.v
DList.v
Systimer.v
OsStats.v
Kernel.v
Memory.v
Scheduler.v
Events.v
Semaphore.v
Mutex.v
Condvar.v
Task.v
Fifo.v
OsTime.v
SchedInv.v
SchedCore.v
SchedTime.v
SchedSleep.v
SchedWake.v
WakeAll.v
Alloc.v
SemProofs.v
FifoProofs.v
EventProofs.v
MutexProofs.v
MutexOwner.v
Detached.v
SuspendProofs.v
UnlockAll.v
TaskProofs.v
Join.v
KillProofs.v
TaskLife.v
CondvarProofs.v
KernelInv.v
KernelTasks.v
KernelRun.v
Idle.v
Switch.v
Mempool.v
Checker.v
Vtimers.v
VtimerProofs.v
Seqfit.v
SeqfitProofs.v
Tlsf.v
TlsfMap.v
TlsfLists.v
TlsfProofs.v
TlsfUsed.v
TlsfRealloc.v
TlsfClient.v
TlsfInit.v
Printf.v
PrintfProofs.v
Utils.v
Mpu.v
Irq.v
TinyAlloc.v
Locking.v
SysArch.v
Lz.v
LzProofs.v
Cache.v
Port.v
Crt.v
Examples.v
RunExamples.v
SwitchExamples.v
