(* ===== verification/Prelude.v ===== *)
(** * ISIX RTOS: a verification development

    ISIX is a small real time kernel for Cortex-M microcontrollers.  Tasks with fixed
    priorities share one processor; the kernel switches between them, keeps their timeouts
    and offers semaphores, mutexes, events, condition variables, message queues, memory
    pools, software timers and a heap.  This library is a model of the kernel in C
    (src/libisix) with its port to the Cortex-M, of the C routines of its base library
    (src/libfoundation), of the layer below the TCP/IP stack (src/libtcpip/port), of the
    image compression of the graphics library (src/libgfx/host-tools) and of the start-up
    code (src/libperiph), translated function by function, with the theorems that say what
    the parts do.

    ** How the parts interact

    Everything rests on the intrusive lists (list.h) and on the scheduler (scheduler.c).  The
    interrupt of the system timer (systimer.c) announces ticks to the scheduler, which wakes
    the tasks whose time has come; a task that blocks (semaphore.c, mutex.c, events.c,
    condvar.c, fifo.c, task.c, ostime.c) leaves the ready list, joins the wait list of an
    object ordered by priority and possibly a list of deadlines, and asks for a context
    switch; a task or an interrupt that signals the object wakes the first waiter.  Fifos are
    built from two semaphores, software timers (softtimers.c) from a worker task that reads
    commands from a fifo.  The idle task asks the scheduler and the software timers for the
    next deadline and programs the system timer to sleep that long (tickless idle).  Objects
    are allocated from the heap, which is one of two allocators (seqfit.c or tlsf.c).  Above
    the kernel, the locks of the C library (locking.c) are mutexes, and the TCP/IP port
    (sys_arch.c) makes its semaphores, mailboxes and protection from semaphores, fifos and a
    mutex.  Below it, critical sections mask the interrupts that may call the kernel
    (irq_platform.c), and the context switch moves a fence region below the stack of the
    task that runs (memprot.c, mpu.c).

    ** Model

    Code that changes state is a function in the monad [M] of this file: it reads and writes
    one state and ends in [Ok], in [Panic] (isix_bug) or in [Fault] (what C code must never do:
    a null or dangling pointer, an index out of range, a node linked twice, a division by
    zero).  [wp] is total correctness: the code returns, and the result satisfies the
    postcondition.  Integers are [Z] values kept in the range of their C type with the
    wrapping functions below, pointers are addresses in [Z].  Code that only reads and writes
    registers is a function on the state of the hardware, which is an interface (a class of
    reads and writes, and a class of its laws: [MpuHw] and [MpuLaws], [IrqHw] and [IrqLaws])
    with an instance; a shift or an index without a value in C is [None].

    A call that blocks is split at the point where the caller gives up the processor: the
    first part ends with [Blocked], the [_resume] or [_finish] part is what the caller does
    when it runs again.  What other tasks and interrupts do in between is any sequence of the
    other operations, so interleavings are sequences of operations; the critical sections and
    the scheduler lock are modelled by their counters.

    The configuration is that of the STM32 boards of the repository: 16 priorities, 1000 ticks
    a second, 32-bit words, CONFIG_ISIX_TICKLESS and CONFIG_ISIX_CPU_USAGE_API on, event
    notification of semaphores and fifos on; the shutdown, logging and memory protection off
    (so [_isixp_schedule] does not move the stack fence; the code that does is in Mpu).

    ** Files

    Common:
    - Prelude: integers, the monad, lists ordered by a key, tactics.
    - DList: list.h on pointers, and the view of the other files (sequences).
    - Kernel: the data of the kernel headers as records, the state and its accessors, the
      interface [Allocator] between the kernel and its heap.  Memory: bytes and words of memory.

    The code of the kernel, a file for each C file:
    - Scheduler, Events, Semaphore, Mutex, Condvar, Task, Fifo, OsTime, Mempool, Vtimers
      (softtimers.c); Systimer (systimer.c, systick.c, systimer_upcounter.h); OsStats
      (osstats.c); Seqfit and Tlsf (the two heaps of kernel/mm/malloc).

    Its proofs:
    - SchedInv: the invariant of the scheduler lists.  SchedCore: the ready list and the
      context switch.  SchedTime: tick processing.  SchedSleep: going to sleep, tickless idle,
      the scheduler lock.  SchedWake: waking a task.  WakeAll: waking the tasks of a list.
      Alloc: calls of the allocator.
    - SemProofs, EventProofs, FifoProofs, VtimerProofs, SeqfitProofs: the theorems about the
      components; those about Mempool, Systimer and OsStats are at the end of these files.
    - MutexProofs: inheritance of priority and blocking.  MutexOwner: the invariant of
      ownership, locking and unlocking on every branch.  UnlockAll: releasing every mutex of a
      task.  CondvarProofs: condition variables.
    - Detached, SuspendProofs: a task is taken off all lists.  TaskProofs: suspending,
      resuming, changing the priority.  Join: waiting for the end of a task.  KillProofs:
      killing a task.  TaskLife: creating a task, its references, and the memory of the dead.
    - TlsfMap (size classes and bitmaps), TlsfLists (free lists), TlsfProofs (the row of
      blocks, allocation and release), TlsfUsed (the blocks in use), TlsfRealloc
      (reallocation), TlsfClient (the abstract heap and its clients), TlsfInit
      (initialisation and the theorems).
    - KernelInv: the invariant of the whole kernel.  KernelTasks: it holds when tasks come and
      go.  KernelRun: the kernel as a transition system.  Idle: the idle task and its tickless sleep.

    Around the kernel, each file with its theorems unless said otherwise:
    - Printf and PrintfProofs (libfoundation/src/sys/tiny_printf.c), Utils
      (libfoundation/src/algo/utils.c), TinyAlloc (libfoundation/src/sys/tiny_alloc.c, the heap
      of builds without the kernel), Locking (libfoundation/src/newlib/locking.c).
    - Mpu (mpu.c, mpu.h, memprot.c), Irq (irq_platform.c, irq_platform.h), Cache (cache.c), Port
      (hwarch.c and scheduler.c of the port, irq_global.c), Switch (the assembly of m3/scheduler.c
      and m4f/scheduler.c): the port to the Cortex-M in libisix/arch.
    - SysArch (libtcpip/port/sys_arch.c), Lz and LzProofs (libgfx/host-tools/lz.c), Crt
      (libperiph/periph/src/boot/crt/crt0.c).

    Checker, Examples, RunExamples, SwitchExamples: a decision procedure for the invariant, and
    a concrete boot with a run and a context switch, which supply the states for the witnesses.

    ** Theorems

    - Well-formedness: every run of tick interrupts, context switches, sleeps, calls on
      semaphores, mutexes, events, condition variables and tasks, the creation of tasks and the
      clean-up of dead ones included, and what these calls do after the wake-up keeps all lists,
      counters, owners and deadlines consistent, and no step of it faults (KernelRun).
    - Scheduling: the context switch runs the first task of the highest ready priority,
      round robin is fair, ticks wake exactly the tasks that are due also across the wrap of
      the tick counter and when they are counted in batches or under the scheduler lock, a
      sleep lasts exactly as long as asked for; a round of the idle task keeps the kernel well formed
      whatever interrupts wake it, and never plans to sleep past a deadline.
    - Objects: semaphores, mutexes with priority inheritance, events, condition variables and
      memory pools do what they promise on every branch; a fifo refines a bounded queue, and
      so does a mailbox of the TCP/IP port; the timer worker fires every due timer the right
      number of times, as long as no deadline passes the wrap of the tick counter.
    - Tasks: a task that is suspended or killed leaves every list, gives back its claims and
      its mutexes and wakes those that wait for its end, and no other task or object changes; a task that
      is created starts at its function with its parameter, or nothing is left of it when there
      is no memory; the memory of a dead task is given back, its control block with the last
      reference.
    - Context switch: whichever task the scheduler chooses, the handlers of both ports leave the
      context of every task as it was.
    - Lists: the pointer code refines operations on sequences.
    - Heaps: allocation and release refine abstract heaps (first fit; good fit by size
      class), blocks in use are disjoint and keep their contents, releasing restores what was
      allocated, a reallocation keeps the contents; the self check of the first fit heap
      accepts every consistent heap; the heap of builds without the kernel simulates the first
      fit heap.
    - Hardware: the restart of the tick counter keeps the tick grid, or slips by less than its
      skew next to a boundary; the subregions of
      a protected region are those the memory touches, the fence lies where the stack ends and
      only its region is written; priorities are encoded so that the mask of the kernel hides
      exactly the interrupts it must hide; the operations on the caches reach every line.
    - Compression: the decoder restores the input of either coder, the output is bounded, the
      fast coder writes what the exhaustive one writes.
    - Start: the loops of the reset handler end with the memory initialised, destructors run
      in reverse order.
    - Text: printing ends for every format, never writes outside its buffer and agrees with
      the unbounded output; numbers survive printing and reading.
    - Boundary behaviour that deviates from what the code means to do is stated by theorems
      of its own (wrapping requests, the catch-up of cyclic timers at the wrap, statistics of
      a full heap, control bits of events, the last line of a range of the cache, a timeout of
      zero milliseconds).

    ** Fuel

    Loops over lists take the length of the list plus one as fuel (expiry, draining of wait
    lists, the free list of the first fit heap) and the theorems show that the fault of
    exhausted fuel is not reached.  [advance_loop] needs two rounds because a batch of less
    than 2^32 ticks crosses the wrap at most once.  The catch-up loop of a cyclic timer has the
    number of missed periods as a measure.  Loops over the format string of the printer take
    its length, those over the digits of a number the number of bits of its type.  The loops
    over the areas and blocks of the segregated fit heap take the number of words of the pool.
    The coders take the length of the input, the search of the fast one the position, as
    every step of it goes to an earlier one; the decoder takes the length of its input.  The
    loops of the reset handler take the number of words of the range.

    ** Not modelled

    The vendored libraries (lwIP but for its port, mbed TLS, the headers of the vendor), the
    C++ code (wrappers, graphics, drivers, digital signal processing), the font converter of
    the host, the dump of registers after a fault, the tables of interrupt vectors,
    what the processor does itself when an exception begins and ends (Switch says what lies on
    the stacks before and after), the shutdown of the scheduler, logging, and the state of C++ exceptions for each task
    (eh_globals.c), which is off by default. *)

From stdpp Require Import base gmap list sorting strings.
From Stdlib Require Import ZArith Lia.

Declare Scope isix_scope.
Delimit Scope isix_scope with isix.

Global Open Scope bool_scope.
Global Open Scope Z_scope.

(** ** Machine integers

    A w-bit C integer is a [Z] in its range; arithmetic that can leave the
    range is wrapped explicitly with the functions below. *)

Definition u8 (x : Z) : Z := x mod 2 ^ 8.
Definition u16 (x : Z) : Z := x mod 2 ^ 16.
Definition u32 (x : Z) : Z := x mod 2 ^ 32.
Definition u64 (x : Z) : Z := x mod 2 ^ 64.

(** Two's complement reading of a 32-bit word. *)
Definition i32 (x : Z) : Z := (x + 2 ^ 31) mod 2 ^ 32 - 2 ^ 31.

Definition in_u8 (x : Z) : Prop := 0 <= x < 2 ^ 8.
Definition in_u32 (x : Z) : Prop := 0 <= x < 2 ^ 32.
Definition in_i32 (x : Z) : Prop := - 2 ^ 31 <= x < 2 ^ 31.

#[global] Hint Unfold in_u8 in_u32 in_i32 : core.

Lemma u32_range x : 0 <= u32 x < 2 ^ 32.
Proof. apply Z.mod_pos_bound. lia. Qed.

Lemma u32_id x : in_u32 x -> u32 x = x.
Proof. apply Z.mod_small. Qed.

Lemma i32_range x : in_i32 (i32 x).
Proof. unfold in_i32, i32. pose proof (Z.mod_pos_bound (x + 2 ^ 31) (2 ^ 32)). lia. Qed.

Lemma i32_id x : in_i32 x -> i32 x = x.
Proof. unfold in_i32, i32. intros. rewrite Z.mod_small; lia. Qed.

(** Storing an [int] in a 32-bit word and reading it back. *)
Lemma i32_u32 x : i32 (u32 x) = i32 x.
Proof. unfold i32, u32. f_equal. rewrite Zplus_mod_idemp_l. reflexivity. Qed.

(** Unsigned addition either stays in range or wraps exactly once. *)
Lemma u32_add_cases a b :
  in_u32 a -> in_u32 b ->
  (a + b < 2 ^ 32 /\ u32 (a + b) = a + b) \/
  (2 ^ 32 <= a + b /\ u32 (a + b) = a + b - 2 ^ 32).
Proof.
  unfold in_u32, u32. intros.
  destruct (Z_lt_dec (a + b) (2 ^ 32)).
  - left. rewrite Z.mod_small; lia.
  - right. split; [lia|]. symmetry. apply (Z.mod_unique _ _ 1); lia.
Qed.

Lemma u32_sub_cases a b :
  in_u32 a -> in_u32 b ->
  (b <= a /\ u32 (a - b) = a - b) \/
  (a < b /\ u32 (a - b) = a - b + 2 ^ 32).
Proof.
  unfold in_u32, u32. intros.
  destruct (Z_le_dec b a).
  - left. rewrite Z.mod_small; lia.
  - right. split; [lia|]. symmetry. apply (Z.mod_unique _ _ (-1)); lia.
Qed.

(** The ranges of the machine integers, for [auto with isix]. *)
Create HintDb isix discriminated.
#[export] Hint Resolve u32_range i32_range : isix.

(** ** Outcomes of kernel code

    Kernel code reads and writes one state.  It returns normally ([Ok]),
    stops the machine through [isix_bug] ([Panic], with the message of the
    source) or does something the C code must never do: follow a null or
    dangling pointer, or link a list node that is already on a list
    ([Fault]). *)

Inductive outcome (S A : Type) : Type :=
| Ok (a : A) (s : S)
| Panic (msg : string)
| Fault.
Arguments Ok {S A} a s.
Arguments Panic {S A} msg.
Arguments Fault {S A}.

Definition M (S A : Type) : Type := S -> outcome S A.

Definition ret {S A} (a : A) : M S A := fun s => Ok a s.
Definition bind {S A B} (m : M S A) (k : A -> M S B) : M S B := fun s =>
  match m s with
  | Ok a s' => k a s'
  | Panic msg => Panic msg
  | Fault => Fault
  end.
Definition gets {S A} (f : S -> A) : M S A := fun s => Ok (f s) s.
Definition modify {S} (f : S -> S) : M S unit := fun s => Ok tt (f s).
Definition panic {S A} (msg : string) : M S A := fun _ => Panic msg.
Definition fault {S A} : M S A := fun _ => Fault.
Definition of_option {S A} (o : option A) : M S A :=
  match o with Some a => ret a | None => fault end.
(** [if( c ) m;] *)
Definition when {S} (c : bool) (m : M S unit) : M S unit := if c then m else ret tt.

Notation "x <- m ;; k" := (bind m (fun x => k))
  (at level 100, m at next level, right associativity) : isix_scope.
Notation "m ;;; k" := (bind m (fun _ => k))
  (at level 100, right associativity) : isix_scope.
Global Open Scope isix_scope.

(** Total correctness: [m] started in [s] returns normally and its result and
    final state satisfy [Q]. *)
Definition wp {S A} (m : M S A) (Q : A -> S -> Prop) (s : S) : Prop :=
  match m s with Ok a s' => Q a s' | _ => False end.

Section WP.
Context {S : Type}.
Implicit Types s : S.

Lemma wp_ret {A} (a : A) (Q : A -> S -> Prop) s : Q a s -> wp (ret a) Q s.
Proof. done. Qed.

Lemma wp_bind {A B} (m : M S A) (k : A -> M S B) (Q : B -> S -> Prop) s :
  wp m (fun a s' => wp (k a) Q s') s -> wp (bind m k) Q s.
Proof. unfold wp, bind. by destruct (m s). Qed.

Lemma wp_assoc {A B C} (m : M S A) (f : A -> M S B) (g : B -> M S C) (Q : C -> S -> Prop) s :
  wp (bind (bind m f) g) Q s -> wp (bind m (fun a => bind (f a) g)) Q s.
Proof. unfold wp, bind. by destruct (m s). Qed.

Lemma wp_gets {A} (f : S -> A) (Q : A -> S -> Prop) s : Q (f s) s -> wp (gets f) Q s.
Proof. done. Qed.

Lemma wp_modify (f : S -> S) (Q : unit -> S -> Prop) s : Q tt (f s) -> wp (modify f) Q s.
Proof. done. Qed.

Lemma wp_of_option {A} (o : option A) a (Q : A -> S -> Prop) s :
  o = Some a -> Q a s -> wp (of_option o) Q s.
Proof. by intros ->. Qed.

Lemma wp_mono {A} (m : M S A) (P Q : A -> S -> Prop) s :
  wp m P s -> (forall a s', P a s' -> Q a s') -> wp m Q s.
Proof. unfold wp. destruct (m s); naive_solver. Qed.

Lemma wp_and {A} (m : M S A) (P Q : A -> S -> Prop) s :
  wp m P s -> wp m Q s -> wp m (fun a s' => P a s' /\ Q a s') s.
Proof. unfold wp. destruct (m s); naive_solver. Qed.

(** What a run of a computation with a known outcome satisfies. *)
Lemma wp_elim {A} (m : M S A) (Q : A -> S -> Prop) s a s' : m s = Ok a s' -> wp m Q s -> Q a s'.
Proof. unfold wp. by intros ->. Qed.

Lemma wp_ok {A} (m : M S A) (Q : A -> S -> Prop) s :
  wp m Q s <-> exists a s', m s = Ok a s' /\ Q a s'.
Proof. unfold wp. destruct (m s); naive_solver. Qed.
End WP.

(** One step of symbolic execution of a computation. *)
Ltac wp_step :=
  lazymatch goal with
  | |- wp (bind _ _) _ _ => apply wp_bind
  | |- wp (ret _) _ _ => apply wp_ret
  | |- wp (gets _) _ _ => apply wp_gets
  | |- wp (modify _) _ _ => apply wp_modify
  | |- wp (of_option _) _ _ => eapply wp_of_option
  | |- wp (when ?c _) _ _ => unfold when
  end.

(** ** Insertion before the first element that satisfies a test

    The kernel keeps its queues ordered with one idiom: walk the list, break
    at the first element that satisfies a test, [list_insert_before] it (the
    list head when the walk ran through). *)

Fixpoint insert_before_first {A} (P : A -> bool) (x : A) (l : list A) : list A :=
  match l with
  | [] => [x]
  | y :: l' => if P y then x :: l else y :: insert_before_first P x l'
  end.

(** A list ordered by a key; equal keys are allowed. *)
Definition sorted_by {A} (f : A -> Z) : list A -> Prop :=
  StronglySorted (fun a b => f a <= f b).

Lemma insert_before_first_perm {A} (P : A -> bool) x l :
  insert_before_first P x l ≡ₚ x :: l.
Proof.
  induction l as [|y l IH]; simpl; [done|].
  destruct (P y); [done|]. rewrite IH. constructor.
Qed.

Lemma insert_before_first_ext {A} (P Q : A -> bool) x l :
  (forall y, y ∈ l -> P y = Q y) ->
  insert_before_first P x l = insert_before_first Q x l.
Proof.
  induction l as [|y l IH]; simpl; intros HPQ; [done|].
  rewrite HPQ, IH; [done|set_solver|set_solver].
Qed.

Lemma elem_of_insert_before_first {A} (P : A -> bool) x y l :
  y ∈ insert_before_first P x l <-> y = x \/ y ∈ l.
Proof. rewrite insert_before_first_perm. set_solver. Qed.

Lemma sorted_by_cons {A} (f : A -> Z) x l :
  sorted_by f (x :: l) <-> sorted_by f l /\ forall y, y ∈ l -> f x <= f y.
Proof.
  unfold sorted_by. split.
  - intros Hs. apply StronglySorted_inv in Hs as [? Hall]. split; [done|].
    intros y Hy. rewrite Forall_forall in Hall. by apply Hall.
  - intros [? Hall]. constructor; [done|]. by apply Forall_forall.
Qed.

Lemma sorted_by_app {A} (f : A -> Z) l1 l2 :
  sorted_by f (l1 ++ l2) <->
  sorted_by f l1 /\ sorted_by f l2 /\ forall x y, x ∈ l1 -> y ∈ l2 -> f x <= f y.
Proof.
  induction l1 as [|a l1 IH]; simpl.
  - split; [intros; repeat split; try done; [constructor|set_solver]|naive_solver].
  - rewrite !sorted_by_cons, IH. set_solver.
Qed.

Lemma sorted_by_ext {A} (f g : A -> Z) l :
  (forall x, x ∈ l -> f x = g x) -> sorted_by f l -> sorted_by g l.
Proof.
  induction l as [|a l IH]; intros Hfg; [constructor|].
  rewrite !sorted_by_cons. intros [Hs Ha].
  split; [apply IH; set_solver|].
  intros y Hy. rewrite <- !Hfg by set_solver. auto.
Qed.

(** Inserting before the first strictly larger key keeps the order and puts the
    new element after every element with an equal key: equal keys stay in
    arrival order. *)
Lemma insert_before_first_split {A} (f : A -> Z) k x l :
  sorted_by f l ->
  exists l1 l2, l = l1 ++ l2 /\
    insert_before_first (fun y => k <? f y) x l = l1 ++ x :: l2 /\
    (forall y, y ∈ l1 -> f y <= k) /\ (forall y, y ∈ l2 -> k < f y).
Proof.
  induction l as [|a l IH]; intros Hs.
  - exists [], []. set_solver.
  - apply sorted_by_cons in Hs as [Hs Ha]. simpl.
    destruct (Z.ltb_spec k (f a)) as [Hlt|Hge].
    + exists [], (a :: l). repeat split; [set_solver|].
      intros y [->|Hy]%elem_of_cons; [done|]. specialize (Ha y Hy). lia.
    + destruct (IH Hs) as (l1 & l2 & -> & -> & H1 & H2).
      exists (a :: l1), l2. set_solver.
Qed.

Lemma insert_before_first_sorted {A} (f : A -> Z) k x l :
  f x = k -> sorted_by f l ->
  sorted_by f (insert_before_first (fun y => k <? f y) x l).
Proof.
  intros <- Hs.
  destruct (insert_before_first_split f (f x) x l Hs) as (l1 & l2 & -> & -> & H1 & H2).
  apply sorted_by_app in Hs as (Hs1 & Hs2 & H12).
  apply sorted_by_app. rewrite sorted_by_cons. split_and!; [done|done| |].
  - intros y Hy. specialize (H2 y Hy). lia.
  - intros a b Ha [->|Hb]%elem_of_cons; auto.
Qed.
