(* ===== verification/DList.v ===== *)
(** * Intrusive doubly linked lists (libisix/include/isix/prv/list.h)

    Every kernel queue is a circular list threaded through [list_t] nodes
    embedded in the queued objects.  The first part of this file is the header
    at the level of pointers: a memory of [next]/[prev] pairs and one function
    per inline function of the header.  The second part is the view the rest of
    the development takes: a store that maps each list head to the sequence of
    its nodes.  The theorems show that the pointer code implements the
    sequence operations. *)

From S2P Require Import Prelude.
From stdpp Require Import base gmap list sorting.

Section DList.
Context {H N : Type} `{Countable H} `{Countable N}.

(** Address of a [list_t]: the head of a list or a node inside an object. *)
Inductive laddr :=
| LHead (h : H)
| LNode (n : N).

#[global] Instance laddr_eq_dec : EqDecision laddr.
Proof. solve_decision. Defined.
#[global] Instance laddr_countable : Countable laddr.
Proof.
  refine (inj_countable'
    (fun a => match a with LHead h => inl h | LNode n => inr n end)
    (fun s => match s with inl h => LHead h | inr n => LNode n end) _).
  by intros [].
Defined.

(** [struct list]; [None] is the null pointer. *)
Record link := Link { next : option laddr; prev : option laddr }.

Implicit Types m : gmap laddr link.

Definition set_next m (a : laddr) (v : option laddr) : option (gmap laddr link) :=
  match m !! a with
  | Some l => Some (<[a := Link v (prev l)]> m)
  | None => None
  end.

Definition set_prev m (a : laddr) (v : option laddr) : option (gmap laddr link) :=
  match m !! a with
  | Some l => Some (<[a := Link (next l) v]> m)
  | None => None
  end.

Definition next_of m (a : laddr) : option laddr := m !! a ≫= next.
Definition prev_of m (a : laddr) : option laddr := m !! a ≫= prev.

Definition list_init m (h : H) : gmap laddr link :=
  <[LHead h := Link (Some (LHead h)) (Some (LHead h))]> m.

Definition list_insert_between m (a b elem : laddr) : option (gmap laddr link) :=
  m1 ← set_prev m b (Some elem);
  m2 ← set_next m1 a (Some elem);
  m3 ← set_prev m2 elem (Some a);
  set_next m3 elem (Some b).

Definition list_insert_before m (before elem : laddr) : option (gmap laddr link) :=
  p ← prev_of m before; list_insert_between m p before elem.

Definition list_insert_after m (after elem : laddr) : option (gmap laddr link) :=
  n ← next_of m after; list_insert_between m after n elem.

Definition list_insert_end m (h : H) (elem : laddr) : option (gmap laddr link) :=
  p ← prev_of m (LHead h); list_insert_after m p elem.

(** The header passes [list->head.next] to [list_insert_after]. *)
Definition list_insert_first m (h : H) (elem : laddr) : option (gmap laddr link) :=
  n ← next_of m (LHead h); list_insert_after m n elem.

Definition list_isempty m (h : H) : option bool :=
  n ← next_of m (LHead h); Some (bool_decide (n = LHead h)).

Definition list_first_entry m (h : H) : option laddr := next_of m (LHead h).

Definition list_delete m (elem : laddr) : option (gmap laddr link) :=
  p ← prev_of m elem;
  n ← next_of m elem;
  m1 ← set_next m p (Some n);
  n' ← next_of m1 elem;
  p' ← prev_of m1 elem;
  m2 ← set_prev m1 n' (Some p');
  m3 ← set_next m2 elem None;
  set_prev m3 elem None.

Definition list_is_elem_assigned m (elem : laddr) : option bool :=
  l ← m !! elem; Some (bool_decide (next l ≠ None /\ prev l ≠ None)).

(** The loop of [list_for_each_entry] with a [break]: walk from [it] and stop
    at the first node that satisfies [P], or at the head.  The fuel bounds the
    number of nodes visited. *)
Fixpoint list_for_each_break (fuel : nat) m (h : H) (P : N -> bool) (it : laddr)
  : option laddr :=
  match fuel with
  | O => None
  | S fuel =>
      if decide (it = LHead h) then Some it
      else match it with
      | LHead _ => None
      | LNode n =>
          if P n then Some it
          else it' ← next_of m it; list_for_each_break fuel m h P it'
      end
  end.

(** ** The sequence view *)

(** Each initialised list head with the nodes on its list, in order. *)
Implicit Types σ : gmap H (list N).

Definition unlinked (n : N) σ : Prop := forall h l, σ !! h = Some l -> n ∉ l.

Definition store_wf σ : Prop :=
  (forall h l, σ !! h = Some l -> NoDup l) /\
  (forall h1 h2 l1 l2 n, σ !! h1 = Some l1 -> σ !! h2 = Some l2 ->
     n ∈ l1 -> n ∈ l2 -> h1 = h2).

(** The list operations on the sequence view.  [None] stands for code that
    would follow a null pointer or corrupt a list: the head is not
    initialised, the node to insert is already linked, the node to delete is
    not linked. *)
Definition seq_linked (n : N) σ : bool := bool_decide (map_Exists (fun _ l => n ∈ l) σ).

Definition seq_insert_with (f : list N -> list N) (h : H) (n : N) σ : option (gmap H (list N)) :=
  if seq_linked n σ then None else l ← σ !! h; Some (<[h := f l]> σ).

Definition seq_insert_end (h : H) (n : N) σ := seq_insert_with (fun l => l ++ [n]) h n σ.

Definition seq_insert_before_first (P : N -> bool) (h : H) (n : N) σ :=
  seq_insert_with (insert_before_first P n) h n σ.

Definition insert_second (n : N) (l : list N) : list N :=
  match l with [] => [n] | x :: l' => x :: n :: l' end.

Definition seq_insert_first (h : H) (n : N) σ := seq_insert_with (insert_second n) h n σ.

Definition remove_node (n : N) (l : list N) : list N := filter (fun x => x ≠ n) l.

Definition seq_delete (n : N) σ : option (gmap H (list N)) :=
  if seq_linked n σ then Some (remove_node n <$> σ) else None.

Definition links m (a b : laddr) : Prop := next_of m a = Some b /\ prev_of m b = Some a.

(** Addresses met from the head of a list, and the successor of each. *)
Definition sources (h : H) (l : list N) : list laddr := LHead h :: (LNode <$> l).
Definition targets (h : H) (l : list N) : list laddr := (LNode <$> l) ++ [LHead h].

(** Memory [m] represents store [σ]: every list is linked in both directions,
    no node is on two lists, and a node on no list has null pointers. *)
Record rep m σ : Prop := {
  rep_wf : store_wf σ;
  rep_linked : forall h l, σ !! h = Some l ->
    Forall2 (links m) (sources h l) (targets h l);
  rep_free : forall n, unlinked n σ -> is_Some (m !! LNode n) ->
    m !! LNode n = Some (Link None None)
}.

(** ** Effect of the primitives on the two pointer fields *)

Lemma set_next_spec m a v :
  is_Some (m !! a) ->
  exists m', set_next m a v = Some m' /\ dom m' = dom m /\
    (forall x, next_of m' x = if decide (x = a) then v else next_of m x) /\
    (forall x, prev_of m' x = prev_of m x).
Proof.
  intros [l Hl]. unfold set_next, next_of, prev_of. rewrite Hl.
  eexists. split_and!; [done| | |].
  - apply dom_insert_lookup_L. by eexists.
  - intros x. case_decide; simplify_map_eq; done.
  - intros x. destruct (decide (x = a)); simplify_map_eq; done.
Qed.

Lemma set_prev_spec m a v :
  is_Some (m !! a) ->
  exists m', set_prev m a v = Some m' /\ dom m' = dom m /\
    (forall x, next_of m' x = next_of m x) /\
    (forall x, prev_of m' x = if decide (x = a) then v else prev_of m x).
Proof.
  intros [l Hl]. unfold set_prev, next_of, prev_of. rewrite Hl.
  eexists. split_and!; [done| | |].
  - apply dom_insert_lookup_L. by eexists.
  - intros x. destruct (decide (x = a)); simplify_map_eq; done.
  - intros x. case_decide; simplify_map_eq; done.
Qed.

Lemma next_of_is_Some m a b : next_of m a = Some b -> a ∈ dom m.
Proof. unfold next_of. intros (l & Hl & _)%bind_Some. by eapply elem_of_dom_2. Qed.

Lemma prev_of_is_Some m a b : prev_of m a = Some b -> a ∈ dom m.
Proof. unfold prev_of. intros (l & Hl & _)%bind_Some. by eapply elem_of_dom_2. Qed.

(** Run one [set_next]/[set_prev] of a pointer function. *)
Ltac run_set :=
  match goal with
  | |- context [set_next ?m ?a ?v] =>
      let Hd := fresh in
      assert (is_Some (m !! a)) as Hd
        by (apply elem_of_dom; repeat match goal with E : dom _ = _ |- _ => rewrite E end; done);
      destruct (set_next_spec m a v Hd) as (? & -> & ? & ? & ?); clear Hd; simpl
  | |- context [set_prev ?m ?a ?v] =>
      let Hd := fresh in
      assert (is_Some (m !! a)) as Hd
        by (apply elem_of_dom; repeat match goal with E : dom _ = _ |- _ => rewrite E end; done);
      destruct (set_prev_spec m a v Hd) as (? & -> & ? & ? & ?); clear Hd; simpl
  end.

(** Express a field of the final memory through the initial one. *)
Ltac rewrite_fields :=
  repeat match goal with
  | E : forall x, next_of ?m x = _ |- context [next_of ?m _] => rewrite E
  | E : forall x, prev_of ?m x = _ |- context [prev_of ?m _] => rewrite E
  end.

Lemma list_insert_between_spec m a b e :
  a ∈ dom m -> b ∈ dom m -> e ∈ dom m ->
  exists m', list_insert_between m a b e = Some m' /\ dom m' = dom m /\
    (forall x, next_of m' x =
       if decide (x = e) then Some b else if decide (x = a) then Some e else next_of m x) /\
    (forall x, prev_of m' x =
       if decide (x = e) then Some a else if decide (x = b) then Some e else prev_of m x).
Proof.
  intros. unfold list_insert_between. do 4 run_set.
  eexists. split_and!; [done|congruence| |]; intros y; by rewrite_fields.
Qed.

Lemma list_delete_spec m e p n :
  prev_of m e = Some p -> next_of m e = Some n -> p ≠ e -> n ≠ e ->
  p ∈ dom m -> n ∈ dom m ->
  exists m', list_delete m e = Some m' /\ dom m' = dom m /\
    (forall x, next_of m' x =
       if decide (x = e) then None else if decide (x = p) then Some n else next_of m x) /\
    (forall x, prev_of m' x =
       if decide (x = e) then None else if decide (x = n) then Some p else prev_of m x).
Proof.
  intros Hp Hn Hpe Hne Hdp Hdn. pose proof (next_of_is_Some _ _ _ Hn) as He.
  unfold list_delete. rewrite Hp, Hn. simpl. run_set.
  rewrite_fields. rewrite Hp, Hn, decide_False by done. simpl. do 3 run_set.
  eexists. split_and!; [done|congruence| |]; intros y; by rewrite_fields.
Qed.

(** ** Address sequences of a list *)

(** Address of the last element of [l], the head when there is none; likewise
    for the first. *)
Definition last_addr (h : H) (l : list N) : laddr := default (LHead h) (LNode <$> last l).
Definition first_addr (h : H) (l : list N) : laddr := default (LHead h) (LNode <$> head l).

(** How the address sequences split at a gap, and with a node in the gap. *)
Lemma addr_split h l1 l2 :
  exists L1 R2, length L1 = length (LNode <$> l1) /\
    sources h (l1 ++ l2) = L1 ++ last_addr h l1 :: (LNode <$> l2) /\
    targets h (l1 ++ l2) = (LNode <$> l1) ++ first_addr h l2 :: R2 /\
    (forall n, sources h (l1 ++ n :: l2) = L1 ++ last_addr h l1 :: LNode n :: (LNode <$> l2)) /\
    (forall n, targets h (l1 ++ n :: l2) = (LNode <$> l1) ++ LNode n :: first_addr h l2 :: R2).
Proof.
  assert (exists L1, LHead h :: (LNode <$> l1) = L1 ++ [last_addr h l1]) as [L1 HL1].
  { induction l1 as [|x l _] using rev_ind; [by exists []|].
    exists (LHead h :: (LNode <$> l)). unfold last_addr. by rewrite last_snoc, fmap_app. }
  assert (exists R2, (LNode <$> l2) ++ [LHead h] = first_addr h l2 :: R2) as [R2 HR2].
  { destruct l2; by eexists. }
  exists L1, R2. unfold sources, targets. split_and!.
  - apply (f_equal length) in HL1. rewrite length_app in HL1. simpl in *. lia.
  - rewrite fmap_app, app_comm_cons, HL1, <- app_assoc. done.
  - by rewrite fmap_app, <- app_assoc, HR2.
  - intros n. by rewrite fmap_app, fmap_cons, app_comm_cons, HL1, <- app_assoc.
  - intros n. rewrite fmap_app, fmap_cons, <- app_assoc. simpl. by rewrite HR2.
Qed.

Lemma head_not_node h (l : list N) : LHead h ∉ LNode <$> l.
Proof. intros (? & ? & _)%list_elem_of_fmap. done. Qed.

Lemma fmap_LNode_NoDup (l : list N) : NoDup l -> NoDup (LNode <$> l).
Proof. apply NoDup_fmap_2. by intros ?? [= ->]. Qed.

Lemma sources_NoDup h (l : list N) : NoDup l -> NoDup (sources h l).
Proof. intros. constructor; [apply head_not_node|by apply fmap_LNode_NoDup]. Qed.

Lemma targets_NoDup h (l : list N) : NoDup l -> NoDup (targets h l).
Proof.
  intros. apply NoDup_app. split_and!; [by apply fmap_LNode_NoDup| |apply NoDup_singleton].
  intros x Hx ->%list_elem_of_singleton. by eapply head_not_node.
Qed.

Lemma targets_sources h l a : a ∈ targets h l <-> a ∈ sources h l.
Proof. unfold targets, sources. set_solver. Qed.

Lemma sources_node h l n : LNode n ∈ sources h l <-> n ∈ l.
Proof.
  unfold sources. rewrite elem_of_cons, list_elem_of_fmap. split.
  - intros [?|(? & [= <-] & ?)]; done.
  - intros. right. by exists n.
Qed.

Lemma sources_head h h' l : LHead h' ∈ sources h l <-> h' = h.
Proof.
  unfold sources. rewrite elem_of_cons. split; [|by intros ->; left].
  intros [[= ->]|Hx]; [done|]. by apply head_not_node in Hx.
Qed.

Lemma Forall2_links_frame m m' L R :
  (forall x y, x ∈ L -> y ∈ R -> links m x y -> links m' x y) ->
  Forall2 (links m) L R -> Forall2 (links m') L R.
Proof.
  intros Hf Hl. induction Hl as [|x y L R Hxy Hl IH]; [constructor|].
  constructor; [apply Hf; set_solver|]. apply IH. intros. apply Hf; set_solver.
Qed.

Lemma Forall2_links_dom m L R :
  Forall2 (links m) L R -> (forall x, x ∈ L -> x ∈ dom m) /\ (forall x, x ∈ R -> x ∈ dom m).
Proof.
  induction 1 as [|x y L R [Hx Hy] Hl [IH1 IH2]]; [set_solver|].
  apply next_of_is_Some in Hx. apply prev_of_is_Some in Hy. set_solver.
Qed.

Lemma rep_dom m σ h l a : rep m σ -> σ !! h = Some l -> a ∈ sources h l -> a ∈ dom m.
Proof. intros Hr Hl Ha. destruct (Forall2_links_dom _ _ _ (rep_linked _ _ Hr h l Hl)). auto. Qed.

(** Addresses of different lists are different. *)
Lemma sources_disjoint σ h h' l l' a :
  store_wf σ -> σ !! h = Some l -> σ !! h' = Some l' -> h ≠ h' ->
  a ∈ sources h l -> a ∈ sources h' l' -> False.
Proof.
  intros [_ Hdis] Hl Hl' Hne. destruct a as [x|n].
  - rewrite !sources_head. congruence.
  - rewrite !sources_node. intros. by apply Hne, (Hdis h h' l l' n).
Qed.

Lemma store_wf_upd σ h l l' :
  store_wf σ -> σ !! h = Some l -> NoDup l' ->
  (forall x, x ∈ l' -> x ∈ l \/ unlinked x σ) ->
  store_wf (<[h := l']> σ).
Proof.
  intros [Hnd Hdis] Hl Hnd' Hin. split.
  - intros h1 l1. rewrite lookup_insert_Some. naive_solver.
  - intros h1 h2 l1 l2 x [[-> ->]|[Hne1 E1]]%lookup_insert_Some
      [[-> ->]|[Hne2 E2]]%lookup_insert_Some Hx1 Hx2; [done| | |by eauto].
    + destruct (Hin x Hx1) as [Hx|Hx]; [eauto|]. by destruct (Hx h2 l2 E2).
    + destruct (Hin x Hx2) as [Hx|Hx]; [eauto|]. by destruct (Hx h1 l1 E1).
Qed.

Lemma last_addr_in h l1 l2 : last_addr h l1 ∈ sources h (l1 ++ l2).
Proof. destruct (addr_split h l1 l2) as (L1 & R2 & _ & -> & _). set_solver. Qed.

Lemma first_addr_in h l1 l2 : first_addr h l2 ∈ sources h (l1 ++ l2).
Proof.
  apply targets_sources. destruct (addr_split h l1 l2) as (L1 & R2 & _ & _ & -> & _). set_solver.
Qed.

(** A memory change that leaves the successors of [A] and the predecessors of
    [B] apart keeps every other link. *)
Definition changes_only m m' (A B E : laddr) : Prop :=
  forall x y, x ≠ A -> y ≠ B -> x ≠ E -> y ≠ E -> links m x y -> links m' x y.

Lemma rep_other_lists m m' σ h l A B n :
  rep m σ -> σ !! h = Some l -> changes_only m m' A B (LNode n) ->
  A ∈ sources h l -> B ∈ sources h l -> (n ∈ l \/ unlinked n σ) ->
  forall h' l', h' ≠ h -> σ !! h' = Some l' -> Forall2 (links m') (sources h' l') (targets h' l').
Proof.
  intros Hr Hl Hch HA HB Hn h' l' Hne Hl'.
  pose proof (rep_wf _ _ Hr) as Hwf.
  assert (forall a, a ∈ sources h' l' -> a ≠ A /\ a ≠ B /\ a ≠ LNode n) as Hx.
  { intros a Ha. split_and!; intros ->;
      [by apply (sources_disjoint σ h h' l l' _ Hwf Hl Hl' (not_eq_sym Hne)) in Ha..|].
    apply sources_node in Ha. destruct Hn as [Hn|Hn]; [|by eapply Hn].
    by apply Hne, (proj2 Hwf h' h l' l n). }
  eapply Forall2_links_frame; [|by apply (rep_linked _ _ Hr)].
  intros x y Hxs Hys. apply targets_sources in Hys.
  destruct (Hx x Hxs) as (? & ? & ?), (Hx y Hys) as (? & ? & ?). by apply Hch.
Qed.

(** A node on no list whose fields were not changed still has null pointers. *)
Lemma rep_free_kept m m' σ x :
  rep m σ -> unlinked x σ -> is_Some (m' !! LNode x) -> is_Some (m !! LNode x) ->
  next_of m' (LNode x) = next_of m (LNode x) ->
  prev_of m' (LNode x) = prev_of m (LNode x) ->
  m' !! LNode x = Some (Link None None).
Proof.
  intros Hr Hx [[nx pv] E] Hs. unfold next_of, prev_of.
  rewrite (rep_free _ _ Hr x Hx Hs), E. simpl. by intros -> ->.
Qed.

(** ** The pointer functions implement the sequence operations *)

Ltac in_list := rewrite ?elem_of_app, ?elem_of_cons; tauto.

Lemma rep_insert_between m σ h l1 l2 n :
  rep m σ -> σ !! h = Some (l1 ++ l2) -> unlinked n σ -> is_Some (m !! LNode n) ->
  links m (last_addr h l1) (first_addr h l2) /\
  exists m', list_insert_between m (last_addr h l1) (first_addr h l2) (LNode n) = Some m' /\
    rep m' (<[h := l1 ++ n :: l2]> σ) /\ dom m' = dom m.
Proof.
  intros Hr Hl Hn Hdn. pose proof (rep_wf _ _ Hr) as Hwf.
  assert (NoDup (l1 ++ l2)) as Hnd by (by eapply Hwf).
  pose proof (rep_linked _ _ Hr h _ Hl) as Hlk.
  pose proof (sources_NoDup h _ Hnd) as HndL. pose proof (targets_NoDup h _ Hnd) as HndR.
  pose proof (last_addr_in h l1 l2) as HA. pose proof (first_addr_in h l1 l2) as HB.
  assert (forall x, x ∈ sources h (l1 ++ l2) -> x ≠ LNode n) as Hxn.
  { intros x Hx ->. apply sources_node in Hx. by eapply Hn. }
  destruct (addr_split h l1 l2) as (L1 & R2 & Hlen & HL & HR & HL' & HR').
  assert (forall y, y ∈ targets h (l1 ++ l2) -> y ≠ LNode n) as Hyn.
  { intros y Hy. apply Hxn. by apply targets_sources. }
  destruct (list_insert_between_spec m (last_addr h l1) (first_addr h l2) (LNode n))
    as (m' & Hm' & Hdom & Hnx & Hpv);
    [by eapply rep_dom|by eapply rep_dom|by apply elem_of_dom|].
  assert (changes_only m m' (last_addr h l1) (first_addr h l2) (LNode n)) as Hch.
  { intros x y ???? [Hx Hy]. split; [rewrite Hnx|rewrite Hpv]; by rewrite !decide_False. }
  pose proof (rep_other_lists m m' σ h _ _ _ n Hr Hl Hch HA HB (or_intror Hn)) as Hoth.
  rewrite HL, HR in Hlk. apply Forall2_app_inv in Hlk as [Hlk1 Hlk2]; [|done].
  apply Forall2_cons in Hlk2 as [Hab Hlk2].
  split; [done|]. exists m'. split_and!; [done| |done]. split.
  - eapply store_wf_upd; [done|done| |].
    + rewrite <- Permutation_middle. constructor; [by eapply Hn|done].
    + intros x. rewrite !elem_of_app, elem_of_cons. intros [?|[->|?]]; auto.
  - intros h' l' [[<- <-]|[Hne E]]%lookup_insert_Some; [|by apply Hoth].
    rewrite HL', HR'. rewrite HL in HndL, HA, HB, Hxn. rewrite HR in HndR, Hyn.
    apply NoDup_app in HndL as (_ & HdL & HndL). apply NoDup_app in HndR as (_ & HdR & HndR).
    apply NoDup_cons in HndL as [HaL _]. apply NoDup_cons in HndR as [HbR _].
    apply Forall2_app; [|apply Forall2_cons; split; [|apply Forall2_cons; split]].
    + eapply Forall2_links_frame; [|exact Hlk1]. intros x y Hx Hy. apply Hch.
      * intros ->. eapply HdL; [done|in_list].
      * intros ->. eapply HdR; [done|in_list].
      * apply Hxn. in_list.
      * apply Hyn. in_list.
    + split; [rewrite Hnx, decide_False, decide_True; [done|done|apply Hxn; in_list]|].
      by rewrite Hpv, decide_True.
    + split; [by rewrite Hnx, decide_True|].
      rewrite Hpv, decide_False, decide_True; [done|done|apply Hyn; in_list].
    + eapply Forall2_links_frame; [|exact Hlk2]. intros x y Hx Hy. apply Hch.
      * by intros ->.
      * by intros ->.
      * apply Hxn. in_list.
      * apply Hyn. in_list.
  - intros x Hx Hsx.
    assert (x ≠ n) as Hxne.
    { intros ->. apply (Hx h (l1 ++ n :: l2)); [apply lookup_insert_eq|in_list]. }
    assert (unlinked x σ) as Hxu.
    { intros h' l' E. destruct (decide (h' = h)) as [->|].
      - simplify_eq. specialize (Hx h (l1 ++ n :: l2)). rewrite lookup_insert_eq in Hx.
        specialize (Hx eq_refl). revert Hx. rewrite !elem_of_app, ?elem_of_cons. tauto.
      - apply (Hx h'). by rewrite lookup_insert_ne. }
    eapply rep_free_kept; [exact Hr|done|done|..].
    + by rewrite <- elem_of_dom, <- Hdom, elem_of_dom.
    + rewrite Hnx, !decide_False; [done| |congruence].
      intros E. rewrite <- E in HA. apply sources_node in HA. by eapply Hxu.
    + rewrite Hpv, !decide_False; [done| |congruence].
      intros E. rewrite <- E in HB. apply sources_node in HB. by eapply Hxu.
Qed.

Lemma rep_delete m σ h l1 l2 n :
  rep m σ -> σ !! h = Some (l1 ++ n :: l2) ->
  exists m', list_delete m (LNode n) = Some m' /\
    rep m' (<[h := l1 ++ l2]> σ) /\ m' !! LNode n = Some (Link None None) /\ dom m' = dom m.
Proof.
  intros Hr Hl. pose proof (rep_wf _ _ Hr) as Hwf.
  assert (NoDup (l1 ++ n :: l2)) as Hnd by (by eapply Hwf).
  pose proof (rep_linked _ _ Hr h _ Hl) as Hlk.
  pose proof (sources_NoDup h _ Hnd) as HndL. pose proof (targets_NoDup h _ Hnd) as HndR.
  destruct (addr_split h l1 l2) as (L1 & R2 & Hlen & HL & HR & HL' & HR').
  assert (n ∉ l1 ++ l2) as Hnl.
  { rewrite <- Permutation_middle in Hnd. by apply NoDup_cons in Hnd as [? _]. }
  assert (forall x, x ∈ sources h (l1 ++ l2) -> x ≠ LNode n) as Hxn.
  { intros x Hx ->. by apply sources_node in Hx. }
  assert (forall y, y ∈ targets h (l1 ++ l2) -> y ≠ LNode n) as Hyn.
  { intros y Hy. apply Hxn. by apply targets_sources. }
  pose proof (last_addr_in h l1 l2) as HA. pose proof (first_addr_in h l1 l2) as HB.
  assert (forall x, x ∈ sources h (l1 ++ l2) -> x ∈ sources h (l1 ++ n :: l2)) as Hsub.
  { intros [x|x]; rewrite ?sources_head, ?sources_node, ?elem_of_app, ?elem_of_cons; tauto. }
  rewrite HL', HR' in Hlk. apply Forall2_app_inv in Hlk as [Hlk1 Hlk2]; [|done].
  apply Forall2_cons in Hlk2 as [[_ Hpn] Hlk2]. apply Forall2_cons in Hlk2 as [[Hnn _] Hlk2].
  destruct (list_delete_spec m (LNode n) (last_addr h l1) (first_addr h l2))
    as (m' & Hm' & Hdom & Hnx & Hpv);
    [done|done|by apply Hxn|by apply Hxn|by eapply rep_dom; eauto|by eapply rep_dom; eauto|].
  assert (changes_only m m' (last_addr h l1) (first_addr h l2) (LNode n)) as Hch.
  { intros x y ???? [Hx Hy]. split; [rewrite Hnx|rewrite Hpv]; by rewrite !decide_False. }
  assert (n ∈ l1 ++ n :: l2) as Hin by in_list.
  pose proof (rep_other_lists m m' σ h _ _ _ n Hr Hl Hch (Hsub _ HA) (Hsub _ HB)
    (or_introl Hin)) as Hoth.
  assert (m' !! LNode n = Some (Link None None)) as Hnull.
  { assert (is_Some (m' !! LNode n)) as [[nx pv] E].
    { apply elem_of_dom. rewrite Hdom. by eapply next_of_is_Some. }
    specialize (Hnx (LNode n)). specialize (Hpv (LNode n)).
    unfold next_of, prev_of in Hnx, Hpv. rewrite E, decide_True in Hnx, Hpv by done.
    simpl in *. by subst. }
  exists m'. split_and!; [done| |done|done]. split.
  - eapply store_wf_upd; [done|done| |].
    + rewrite <- Permutation_middle in Hnd. by apply NoDup_cons in Hnd as [_ ?].
    + intros x. rewrite !elem_of_app, elem_of_cons. tauto.
  - intros h' l' [[<- <-]|[Hne E]]%lookup_insert_Some; [|by apply Hoth].
    rewrite HL, HR. rewrite HL' in HndL. rewrite HR' in HndR.
    rewrite HL in Hxn. rewrite HR in Hyn.
    apply NoDup_app in HndL as (_ & HdL & HndL). apply NoDup_app in HndR as (_ & HdR & HndR).
    apply NoDup_cons in HndL as [HaL _].
    apply NoDup_cons in HndR as [_ HndR]. apply NoDup_cons in HndR as [HbR _].
    apply Forall2_app; [|apply Forall2_cons; split].
    + eapply Forall2_links_frame; [|exact Hlk1]. intros x y Hx Hy. apply Hch.
      * intros ->. eapply HdL; [done|in_list].
      * intros ->. eapply HdR; [done|in_list].
      * apply Hxn. in_list.
      * apply Hyn. in_list.
    + split; [rewrite Hnx, decide_False, decide_True; [done|done|apply Hxn; in_list]|].
      rewrite Hpv, decide_False, decide_True; [done|done|apply Hyn; in_list].
    + eapply Forall2_links_frame; [|exact Hlk2]. intros x y Hx Hy. apply Hch.
      * intros ->. apply HaL. in_list.
      * by intros ->.
      * apply Hxn. in_list.
      * apply Hyn. in_list.
  - intros x Hx Hsx. destruct (decide (x = n)) as [->|Hxne]; [done|].
    assert (unlinked x σ) as Hxu.
    { intros h' l' E. destruct (decide (h' = h)) as [->|].
      - simplify_eq. specialize (Hx h (l1 ++ l2)). rewrite lookup_insert_eq in Hx.
        specialize (Hx eq_refl). revert Hx. rewrite !elem_of_app, ?elem_of_cons. tauto.
      - apply (Hx h'). by rewrite lookup_insert_ne. }
    eapply rep_free_kept; [exact Hr|done|done|..].
    + by rewrite <- elem_of_dom, <- Hdom, elem_of_dom.
    + rewrite Hnx, !decide_False; [done| |congruence].
      intros E. rewrite <- E in HA. apply Hsub, sources_node in HA. by eapply Hxu.
    + rewrite Hpv, !decide_False; [done| |congruence].
      intros E. rewrite <- E in HB. apply Hsub, sources_node in HB. by eapply Hxu.
Qed.

Lemma seq_linked_false n σ : seq_linked n σ = false <-> unlinked n σ.
Proof.
  unfold seq_linked, unlinked. rewrite bool_decide_eq_false. split.
  - intros Hn h l E Hin. apply Hn. by exists h, l.
  - intros Hn (h & l & E & Hin). by eapply Hn.
Qed.

Lemma seq_linked_true n σ :
  seq_linked n σ = true <-> exists h l1 l2, σ !! h = Some (l1 ++ n :: l2).
Proof.
  unfold seq_linked. rewrite bool_decide_eq_true. split.
  - intros (h & l & E & (l1 & l2 & ->)%list_elem_of_split). by exists h, l1, l2.
  - intros (h & l1 & l2 & E). exists h, (l1 ++ n :: l2). split; [done|in_list].
Qed.

Lemma seq_insert_with_inv f h n σ σ' :
  seq_insert_with f h n σ = Some σ' ->
  unlinked n σ /\ exists l, σ !! h = Some l /\ σ' = <[h := f l]> σ.
Proof.
  unfold seq_insert_with. destruct (seq_linked n σ) eqn:E; [done|].
  apply seq_linked_false in E. intros (l & Hl & [= <-])%bind_Some. eauto.
Qed.

Lemma remove_node_notin n (l : list N) : n ∉ l -> remove_node n l = l.
Proof.
  unfold remove_node. induction l as [|x l IH]; [done|]. intros Hn.
  rewrite filter_cons_True by set_solver. by rewrite IH by set_solver.
Qed.

Lemma remove_node_split n (l1 l2 : list N) :
  NoDup (l1 ++ n :: l2) -> remove_node n (l1 ++ n :: l2) = l1 ++ l2.
Proof.
  intros Hnd. rewrite <- Permutation_middle in Hnd. apply NoDup_cons in Hnd as [Hn _].
  rewrite elem_of_app in Hn. unfold remove_node. rewrite filter_app, filter_cons_False by tauto.
  f_equal; by apply remove_node_notin; tauto.
Qed.

Lemma seq_delete_eq n σ h l1 l2 :
  store_wf σ -> σ !! h = Some (l1 ++ n :: l2) ->
  remove_node n <$> σ = <[h := l1 ++ l2]> σ.
Proof.
  intros [Hnd Hdis] E. apply map_eq. intros h'. rewrite lookup_fmap, lookup_insert.
  case_decide as Hh; [subst; rewrite E; simpl; by rewrite remove_node_split by eauto|].
  destruct (σ !! h') as [l'|] eqn:E'; [|done]. simpl. f_equal. apply remove_node_notin.
  intros Hin. apply Hh, (Hdis h h' _ _ n E E'); [in_list|done].
Qed.

Lemma elem_of_remove_node x n (l : list N) : x ∈ remove_node n l <-> x ∈ l /\ x ≠ n.
Proof. unfold remove_node. rewrite list_elem_of_filter. tauto. Qed.

Lemma remove_node_NoDup n (l : list N) : NoDup l -> NoDup (remove_node n l).
Proof. apply NoDup_filter. Qed.

Lemma remove_node_sublist n (l : list N) : remove_node n l `sublist_of` l.
Proof. apply sublist_filter. Qed.

Lemma remove_node_head n (l : list N) : NoDup (n :: l) -> remove_node n (n :: l) = l.
Proof. apply (remove_node_split n []). Qed.

Lemma unlinked_lookup n σ h l : unlinked n σ -> σ !! h = Some l -> n ∉ l.
Proof. intros Hn. apply Hn. Qed.

(** Deleting a node that is on the list of [h]. *)
Lemma seq_delete_in n σ h l :
  store_wf σ -> σ !! h = Some l -> n ∈ l ->
  seq_delete n σ = Some (<[h := remove_node n l]> σ) /\
  store_wf (<[h := remove_node n l]> σ) /\ unlinked n (<[h := remove_node n l]> σ).
Proof.
  intros Hwf Hl Hin. pose proof Hwf as [Hnd Hdis].
  assert (seq_linked n σ = true) as Hlk.
  { unfold seq_linked. apply bool_decide_eq_true. by exists h, l. }
  apply list_elem_of_split in Hin as (l1 & l2 & ->).
  assert (remove_node n (l1 ++ n :: l2) = l1 ++ l2) as Hrm by (apply remove_node_split; eauto).
  split_and!.
  - unfold seq_delete. rewrite Hlk, Hrm. f_equal. by apply seq_delete_eq.
  - eapply store_wf_upd; [done|done|by apply remove_node_NoDup; eauto|].
    intros x [? _]%elem_of_remove_node. by left.
  - intros h' l' [[<- <-]|[Hne E]]%lookup_insert_Some; [by rewrite elem_of_remove_node; intros []|].
    intros Hin. by apply Hne, (Hdis h h' _ _ n Hl E); [in_list|].
Qed.

(** Inserting a free node into the list of [h]. *)
Lemma seq_insert_with_ok f n σ h l :
  store_wf σ -> unlinked n σ -> σ !! h = Some l -> f l ≡ₚ n :: l ->
  seq_insert_with f h n σ = Some (<[h := f l]> σ) /\ store_wf (<[h := f l]> σ).
Proof.
  intros Hwf Hn Hl Hp. pose proof Hn as Hn'. apply seq_linked_false in Hn'.
  unfold seq_insert_with. rewrite Hn', Hl. split; [done|].
  eapply store_wf_upd; [done|done| |].
  - rewrite Hp. constructor; [by eapply Hn|]. by eapply Hwf.
  - intros x. rewrite Hp, elem_of_cons. intros [->|]; auto.
Qed.

(** Walking a list with a [break] stops where the sequence splits. *)
Lemma for_each_break_spec m h P l1 l2 :
  Forall2 (links m) (sources h (l1 ++ l2)) (targets h (l1 ++ l2)) ->
  forall fuel, (length l2 < fuel)%nat ->
  exists k1 k2, l2 = k1 ++ k2 /\
    list_for_each_break fuel m h P (first_addr h l2) = Some (first_addr h k2) /\
    forall n, insert_before_first P n l2 = k1 ++ n :: k2.
Proof.
  revert l1. induction l2 as [|x l2 IH]; intros l1 Hlk [|fuel] Hf; simpl in Hf; try lia;
    cbn [list_for_each_break].
  - change (first_addr h []) with (LHead h). rewrite decide_True by done. by exists [], [].
  - change (first_addr h (x :: l2)) with (LNode x). rewrite decide_False by done.
    cbn [insert_before_first]. destruct (P x) eqn:HP; [by exists [], (x :: l2)|].
    destruct (addr_split h (l1 ++ [x]) l2) as (L1 & R2 & Hlen & HL & HR & _ & _).
    rewrite <- app_assoc in HL, HR. simpl in HL, HR.
    assert (links m (LNode x) (first_addr h l2)) as [Hnx _].
    { rewrite HL, HR in Hlk. apply Forall2_app_inv in Hlk as [_ Hlk]; [|done].
      apply Forall2_cons in Hlk as [Hlk _]. unfold last_addr in Hlk. by rewrite last_snoc in Hlk. }
    rewrite Hnx. simpl.
    destruct (IH (l1 ++ [x])) with (fuel := fuel) as (k1 & k2 & -> & Hrun & Hins);
      [by rewrite <- app_assoc|lia|].
    exists (x :: k1), k2. split_and!; [done|done|]. intros n. by rewrite Hins.
Qed.

Lemma rep_gap m σ h l1 l2 :
  rep m σ -> σ !! h = Some (l1 ++ l2) -> links m (last_addr h l1) (first_addr h l2).
Proof.
  intros Hr Hl. pose proof (rep_linked _ _ Hr h _ Hl) as Hlk.
  destruct (addr_split h l1 l2) as (L1 & R2 & Hlen & HL & HR & _ & _).
  rewrite HL, HR in Hlk. apply Forall2_app_inv in Hlk as [_ Hlk]; [|done].
  by apply Forall2_cons in Hlk as [? _].
Qed.

(** Appending to a list. *)
Theorem list_insert_end_refines m σ σ' h n :
  rep m σ -> is_Some (m !! LNode n) -> seq_insert_end h n σ = Some σ' ->
  exists m', list_insert_end m h (LNode n) = Some m' /\ rep m' σ' /\ dom m' = dom m.
Proof.
  intros Hr Hd (Hn & l & Hl & ->)%seq_insert_with_inv.
  assert (σ !! h = Some (l ++ [])) as Hl' by by rewrite app_nil_r.
  destruct (rep_gap _ _ _ _ _ Hr Hl') as [Hnx Hpv].
  destruct (rep_insert_between _ _ _ _ _ _ Hr Hl' Hn Hd) as (_ & m' & Hm' & Hr' & Hdom).
  exists m'. split_and!; [|done|done].
  unfold list_insert_end. change (first_addr h []) with (LHead h) in Hpv.
  rewrite Hpv. simpl. unfold list_insert_after. by rewrite Hnx.
Qed.

(** The ordered insertion idiom of the kernel ([list_for_each_entry] with a
    [break], then [list_insert_before] on the iterator) terminates and implements
    insertion before the first element that satisfies the test: the other lists, the
    links in both directions and the null pointers of unlinked nodes are kept. *)
Theorem list_insert_ordered_refines m σ σ' h n P fuel :
  rep m σ -> is_Some (m !! LNode n) -> seq_insert_before_first P h n σ = Some σ' ->
  (forall l, σ !! h = Some l -> (length l < fuel)%nat) ->
  exists it m', (f ← list_first_entry m h; list_for_each_break fuel m h P f) = Some it /\
    list_insert_before m it (LNode n) = Some m' /\ rep m' σ' /\ dom m' = dom m.
Proof.
  intros Hr Hd (Hn & l & Hl & ->)%seq_insert_with_inv Hf.
  destruct (rep_gap m σ h [] l Hr Hl) as [Hfirst _].
  destruct (for_each_break_spec m h P [] l (rep_linked _ _ Hr h l Hl) fuel (Hf l Hl))
    as (k1 & k2 & -> & Hrun & Hins).
  destruct (rep_gap _ _ _ _ _ Hr Hl) as [_ Hpv].
  destruct (rep_insert_between _ _ _ _ _ _ Hr Hl Hn Hd) as (_ & m' & Hm' & Hr' & Hdom).
  exists (first_addr h k2), m'. unfold list_first_entry.
  change (last_addr h []) with (LHead h) in Hfirst. rewrite Hfirst. simpl.
  split_and!; [done| |by rewrite Hins|done].
  unfold list_insert_before. by rewrite Hpv.
Qed.

(** [list_insert_first] links the new element behind the present first element:
    on a non-empty list it becomes the second one. *)
Theorem list_insert_first_refines m σ σ' h n :
  rep m σ -> is_Some (m !! LNode n) -> seq_insert_first h n σ = Some σ' ->
  exists m', list_insert_first m h (LNode n) = Some m' /\ rep m' σ' /\ dom m' = dom m.
Proof.
  intros Hr Hd (Hn & l & Hl & ->)%seq_insert_with_inv.
  destruct (rep_gap m σ h [] l Hr Hl) as [Hfirst _].
  change (last_addr h []) with (LHead h) in Hfirst.
  unfold list_insert_first. rewrite Hfirst. simpl. unfold list_insert_after.
  destruct l as [|x l].
  - change (first_addr h []) with (LHead h) in *. rewrite Hfirst. simpl.
    destruct (rep_insert_between m σ h [] [] n Hr Hl Hn Hd) as (_ & m' & Hm' & Hr' & Hdom).
    by exists m'.
  - destruct (rep_gap m σ h [x] l Hr Hl) as [Hnx _].
    change (last_addr h [x]) with (LNode x) in Hnx.
    change (first_addr h (x :: l)) with (LNode x). rewrite Hnx. simpl.
    destruct (rep_insert_between m σ h [x] l n Hr Hl Hn Hd) as (_ & m' & Hm' & Hr' & Hdom).
    by exists m'.
Qed.

(** [list_delete] of a linked node removes it from the one list it is on, keeps
    every other list, and leaves the node with null pointers, so that
    [list_is_elem_assigned] tells linked nodes from unlinked ones. *)
Theorem list_delete_refines m σ σ' n :
  rep m σ -> seq_delete n σ = Some σ' ->
  exists m', list_delete m (LNode n) = Some m' /\ rep m' σ' /\
    list_is_elem_assigned m (LNode n) = Some true /\
    list_is_elem_assigned m' (LNode n) = Some false /\ dom m' = dom m.
Proof.
  intros Hr. unfold seq_delete. destruct (seq_linked n σ) eqn:E; [|done]. intros [= <-].
  apply seq_linked_true in E as (h & l1 & l2 & Hl).
  destruct (rep_delete _ _ _ _ _ _ Hr Hl) as (m' & Hm' & Hr' & Hnull & Hdom).
  exists m'. rewrite (seq_delete_eq n σ h l1 l2 (rep_wf _ _ Hr) Hl).
  unfold list_is_elem_assigned. rewrite Hnull. simpl. split_and!; [done|done| |done|done].
  destruct (rep_gap m σ h l1 (n :: l2) Hr Hl) as [_ Hpv].
  assert (σ !! h = Some ((l1 ++ [n]) ++ l2)) as Hl' by by rewrite <- app_assoc.
  destruct (rep_gap m σ h (l1 ++ [n]) l2 Hr Hl') as [Hnx _].
  unfold last_addr in Hnx. rewrite last_snoc in Hnx. simpl in Hnx, Hpv.
  unfold next_of, prev_of in Hnx, Hpv.
  change (first_addr h (n :: l2)) with (LNode n) in Hpv.
  destruct (m !! LNode n) as [[nx pv]|]; [|done]. simpl in *. by subst.
Qed.

(** Emptiness test and first entry. *)
Theorem list_isempty_refines m σ h l :
  rep m σ -> σ !! h = Some l ->
  list_isempty m h = Some (bool_decide (l = [])) /\
  list_first_entry m h = Some (first_addr h l).
Proof.
  intros Hr Hl. destruct (rep_gap m σ h [] l Hr Hl) as [Hfirst _].
  change (last_addr h []) with (LHead h) in Hfirst.
  unfold list_isempty, list_first_entry. rewrite Hfirst. simpl. split; [|done].
  f_equal. apply bool_decide_ext. by destruct l.
Qed.

(** Initialising a new head. *)
Lemma list_init_rep m σ h :
  rep m σ -> σ !! h = None -> rep (list_init m h) (<[h := []]> σ).
Proof.
  intros Hr Hh. pose proof (rep_wf _ _ Hr) as [Hnd Hdis]. unfold list_init. split.
  - split.
    + intros h1 l1 [[<- <-]|[? ?]]%lookup_insert_Some; [constructor|eauto].
    + intros h1 h2 l1 l2 x [[<- <-]|[? ?]]%lookup_insert_Some
        [[<- <-]|[? ?]]%lookup_insert_Some; [done|set_solver|set_solver|eauto].
  - intros h1 l1 [[<- <-]|[Hne E]]%lookup_insert_Some.
    + constructor; [|constructor]. split; unfold next_of, prev_of; by rewrite lookup_insert_eq.
    + eapply Forall2_links_frame; [|by apply (rep_linked _ _ Hr)].
      intros x y Hx Hy [Hnx Hpv]. apply targets_sources in Hy.
      assert (forall a, a ∈ sources h1 l1 -> LHead h ≠ a) as Hd.
      { intros a Ha <-. apply sources_head in Ha. by subst. }
      split; unfold next_of, prev_of; rewrite lookup_insert_ne; auto.
  - intros n Hn Hs. rewrite lookup_insert_ne in Hs by done.
    rewrite lookup_insert_ne by done. apply (rep_free _ _ Hr); [|done].
    intros h' l' E. destruct (decide (h' = h)); [congruence|].
    apply (Hn h'). by rewrite lookup_insert_ne.
Qed.

(** Nodes on no list. *)
Lemma rep_empty m :
  (forall n, is_Some (m !! LNode n) -> m !! LNode n = Some (Link None None)) -> rep m ∅.
Proof.
  intros Hm. split; [split; intros; simplify_map_eq|intros; simplify_map_eq|auto].
Qed.

End DList.

(** ** The properties at a concrete memory *)

Local Open Scope Z_scope.

(** One list head, two free nodes; then with the first node linked. *)
Definition free_nodes : gmap (@laddr bool Z) (@link bool Z) :=
  <[LNode 1 := Link None None]> {[LNode 2 := Link None None]}.
Definition mem0 : gmap (@laddr bool Z) (@link bool Z) := list_init free_nodes true.
Definition mem1 : gmap (@laddr bool Z) (@link bool Z) := default ∅ (list_insert_end mem0 true (LNode 1)).

Lemma mem0_rep : rep mem0 {[ true := [] ]}.
Proof.
  apply (list_init_rep _ ∅); [|done]. apply rep_empty. intros n [l Hl]. rewrite Hl.
  unfold free_nodes in Hl.
  apply lookup_insert_Some in Hl as [[_ <-]|[_ [_ <-]%lookup_singleton_Some]]; done.
Qed.

Lemma mem1_rep : rep mem1 {[ true := [1] ]}.
Proof.
  destruct (list_insert_end_refines mem0 {[ true := [] ]} {[ true := [1] ]} true 1)
    as (m' & Hm' & Hr & _); [apply mem0_rep|by eexists|reflexivity|].
  unfold mem1. by rewrite Hm'.
Qed.

Lemma list_insert_ordered_refines_witness :
  exists it m', (f ← list_first_entry mem1 true;
      list_for_each_break 2 mem1 true (fun x => 2 <? x) f) = Some it /\
    list_insert_before mem1 it (LNode 2) = Some m' /\ rep m' {[ true := [1; 2] ]} /\
    dom m' = dom mem1.
Proof.
  apply (list_insert_ordered_refines mem1 {[ true := [1] ]} {[ true := [1; 2] ]} true 2).
  - apply mem1_rep.
  - by eexists.
  - reflexivity.
  - intros l E. assert (l = [1]) as -> by (injection E; auto). simpl. lia.
Defined.

Lemma list_insert_first_refines_witness :
  exists m', list_insert_first mem1 true (LNode 2) = Some m' /\ rep m' {[ true := [1; 2] ]} /\
    dom m' = dom mem1.
Proof.
  apply (list_insert_first_refines mem1 {[ true := [1] ]} {[ true := [1; 2] ]} true 2).
  - apply mem1_rep.
  - by eexists.
  - reflexivity.
Defined.

Lemma list_delete_refines_witness :
  exists m', list_delete mem1 (LNode 1) = Some m' /\ rep m' {[ true := [] ]} /\
    list_is_elem_assigned mem1 (LNode 1) = Some true /\
    list_is_elem_assigned m' (LNode 1) = Some false /\ dom m' = dom mem1.
Proof.
  apply (list_delete_refines mem1 {[ true := [1] ]} {[ true := [] ]} 1); [apply mem1_rep|reflexivity].
Defined.
