(* ===== verification/Systimer.v ===== *)
(** * The system timer of the Cortex-M port

    [libisix/arch/arm/cortexm/kernel/systimer.c] (the tickless state machine
    over SysTick), [systick.c] (the register driver) and
    [libisix/include/isix/prv/systimer_upcounter.h] (arithmetic shared by ports
    with a free running counter).

    The record [systimer] holds the static variables of [systimer.c] and the
    registers the code reads and writes.  The hardware moves the counter and
    raises the flags between two calls; during one call the registers keep the
    value they were sampled with.  A write to [STK_CVR] clears the counter and
    COUNTFLAG, and the counter then reloads from [STK_RVR] (ARMv7-M, SysTick). *)

From S2P Require Import Prelude.
From stdpp Require Import base tactics.
From Stdlib Require Import ZArith Lia.
Local Open Scope Z_scope.

Inductive tl_state := st_off | st_armed | st_sleeping.

Record systimer := SysTimer {
  g_tick_cycles : Z;     (* timer cycles in one tick *)
  g_wrap_latched : bool; (* wrap seen by a reader, not yet accounted *)
  g_state : tl_state;
  g_expected : Z;        (* length of the long period in ticks *)
  stk_rvr : Z;           (* STK_RVR, 24 bit *)
  stk_cvr : Z;           (* STK_CVR, 24 bit *)
  stk_countflag : bool;  (* STK_CSR.COUNTFLAG, cleared by a read of STK_CSR *)
  stk_ahb : bool;        (* STK_CSR.CLKSOURCE: AHB, or AHB/8 *)
  stk_tickint : bool;    (* STK_CSR.TICKINT *)
  stk_enable : bool;     (* STK_CSR.ENABLE *)
  pendst : bool;         (* SCB_ICSR.PENDSTSET *)
  systickact : bool      (* SCB_SHCSR.SYSTICKACT *)
}.

Definition SYSTIMER_RANGE : Z := 0x1000000.
Definition SYSTIMER_MIN_FIRST_CYCLES : Z := 64.
Definition SYSTIMER_RESTART_SKEW : Z := 59.
Definition TICKLESS_COMPENSATION : Z := 0.

Definition with_latched (b : bool) (t : systimer) : systimer :=
  SysTimer (g_tick_cycles t) b (g_state t) (g_expected t) (stk_rvr t) (stk_cvr t)
    (stk_countflag t) (stk_ahb t) (stk_tickint t) (stk_enable t) (pendst t) (systickact t).
Definition with_countflag (b : bool) (t : systimer) : systimer :=
  SysTimer (g_tick_cycles t) (g_wrap_latched t) (g_state t) (g_expected t) (stk_rvr t) (stk_cvr t)
    b (stk_ahb t) (stk_tickint t) (stk_enable t) (pendst t) (systickact t).
Definition with_state (x : tl_state) (t : systimer) : systimer :=
  SysTimer (g_tick_cycles t) (g_wrap_latched t) x (g_expected t) (stk_rvr t) (stk_cvr t)
    (stk_countflag t) (stk_ahb t) (stk_tickint t) (stk_enable t) (pendst t) (systickact t).
Definition with_expected (x : Z) (t : systimer) : systimer :=
  SysTimer (g_tick_cycles t) (g_wrap_latched t) (g_state t) x (stk_rvr t) (stk_cvr t)
    (stk_countflag t) (stk_ahb t) (stk_tickint t) (stk_enable t) (pendst t) (systickact t).
Definition with_rvr (x : Z) (t : systimer) : systimer :=
  SysTimer (g_tick_cycles t) (g_wrap_latched t) (g_state t) (g_expected t) x (stk_cvr t)
    (stk_countflag t) (stk_ahb t) (stk_tickint t) (stk_enable t) (pendst t) (systickact t).
Definition with_cvr (x : Z) (t : systimer) : systimer :=
  SysTimer (g_tick_cycles t) (g_wrap_latched t) (g_state t) (g_expected t) (stk_rvr t) x
    (stk_countflag t) (stk_ahb t) (stk_tickint t) (stk_enable t) (pendst t) (systickact t).
Definition with_pendst (b : bool) (t : systimer) : systimer :=
  SysTimer (g_tick_cycles t) (g_wrap_latched t) (g_state t) (g_expected t) (stk_rvr t) (stk_cvr t)
    (stk_countflag t) (stk_ahb t) (stk_tickint t) (stk_enable t) b (systickact t).
Definition with_clock (ahb : bool) (t : systimer) : systimer :=
  SysTimer (g_tick_cycles t) (g_wrap_latched t) (g_state t) (g_expected t) (stk_rvr t) (stk_cvr t)
    (stk_countflag t) ahb (stk_tickint t) (stk_enable t) (pendst t) (systickact t).
Definition with_run (tickint enable : bool) (t : systimer) : systimer :=
  SysTimer (g_tick_cycles t) (g_wrap_latched t) (g_state t) (g_expected t) (stk_rvr t) (stk_cvr t)
    (stk_countflag t) (stk_ahb t) tickint enable (pendst t) (systickact t).
Definition with_tick_cycles (x : Z) (t : systimer) : systimer :=
  SysTimer x (g_wrap_latched t) (g_state t) (g_expected t) (stk_rvr t) (stk_cvr t)
    (stk_countflag t) (stk_ahb t) (stk_tickint t) (stk_enable t) (pendst t) (systickact t).

(** ** Pending tick and counter wrap *)

Definition tick_pending (t : systimer) : bool := pendst t.

Definition wrap_latch (t : systimer) : systimer :=
  if stk_countflag t then with_latched true (with_countflag false t) else t.

Definition wrap_unannounced (t : systimer) : bool * systimer :=
  let t := wrap_latch t in
  (g_wrap_latched t || tick_pending t, t).

Definition wrap_clear (t : systimer) : systimer := with_latched false (wrap_latch t).

Definition tick_clear_pending (t : systimer) : systimer := wrap_clear (with_pendst false t).

Definition tick_handler_active (t : systimer) : bool := systickact t.

(** ** The split of an interrupted long period *)

(** [struct split_res] is the pair [(n, first)]. *)
Definition systimer_split (long_cycles cvr tpp skew : Z) : Z * Z :=
  let ran := if cvr <? long_cycles then u32 (long_cycles - 1 - cvr) else 0 in
  let n := ran / tpp in
  let first := u32 (tpp - ran mod tpp) in
  let first := if skew <? first then u32 (first - skew) else 0 in
  if (u32 (2 * SYSTIMER_MIN_FIRST_CYCLES) <=? tpp) && (first <? SYSTIMER_MIN_FIRST_CYCLES)
  then (u32 (n + 1), u32 (first + tpp))
  else (n, first).

(** [STK_CVR = 0U; while( STK_CVR == 0U ) {}]: the write clears the counter and
    COUNTFLAG, the loop ends when the counter has reloaded. *)
Definition stk_restart (t : systimer) : systimer :=
  with_cvr (stk_rvr t) (with_countflag false t).

Definition systimer_restart (long_cycles cvr tpp : Z) (t : systimer) : Z * systimer :=
  let '(n, first) := systimer_split long_cycles cvr tpp SYSTIMER_RESTART_SKEW in
  let t := with_rvr (u32 ((if first <? 2 then 2 else first) - 1)) t in
  let t := stk_restart t in
  let t := with_rvr (u32 (tpp - 1)) t in
  let t := tick_clear_pending t in
  (n, with_state st_off t).

(** ** The tickless interface *)

Definition _isix_port_systimer_max_ticks (t : systimer) : Z :=
  let max_ticks := SYSTIMER_RANGE / g_tick_cycles t in
  if max_ticks <? 2 then 1 else u32 (max_ticks + 1).

Definition _isix_port_systimer_set_timeout (timeout : Z) (t : systimer) : Z * systimer :=
  let tpp := g_tick_cycles t in
  if negb (match g_state t with st_off => true | _ => false end) || (timeout <? 2)
  then (1, t)
  else
    let ticks := u32 (timeout - 1) in
    let ticks := if TICKLESS_COMPENSATION <? ticks
                 then u32 (ticks - TICKLESS_COMPENSATION) else ticks in
    let max_ticks := u32 (_isix_port_systimer_max_ticks t - 1) in
    let ticks := if max_ticks <? ticks then max_ticks else ticks in
    if ticks <? 2 then (1, t)
    else
      let t := with_expected ticks t in
      let t := with_rvr (u32 (ticks * tpp - 1)) t in
      if tick_pending t && (stk_cvr t <? tpp)
      then (1, with_rvr (u32 (tpp - 1)) t)
      else (u32 (ticks + 1), with_state st_armed t).

Definition _isix_port_systimer_is_sleeping (t : systimer) : bool :=
  match g_state t with st_off => false | _ => true end.

Definition _isix_port_systimer_resync (t : systimer) : Z * systimer :=
  if negb (_isix_port_systimer_is_sleeping t) || tick_handler_active t then (0, t)
  else
    let tpp := g_tick_cycles t in
    let long_cycles := u32 (g_expected t * tpp) in
    match g_state t with
    | st_armed =>
        let t := with_rvr (u32 (tpp - 1)) t in
        let cvr := stk_cvr t in
        if cvr <? tpp then (0, with_state st_off t)
        else
          let t := tick_clear_pending t in
          let '(n, t) := systimer_restart long_cycles cvr tpp t in
          (u32 (1 + n), t)
    | _ =>
        let cvr := stk_cvr t in
        if tick_pending t then (0, t)
        else systimer_restart long_cycles cvr tpp t
    end.

(** The part of [_isix_port_systimer_isr] between entering the critical section
    and [_isixp_systimer_announce]; the result is the number of ticks to
    announce. *)
Definition systimer_isr_ticks (t : systimer) : Z * systimer :=
  let t := wrap_clear t in
  match g_state t with
  | st_armed => (1, with_state st_sleeping (with_rvr (u32 (g_tick_cycles t - 1)) t))
  | st_sleeping => (g_expected t, with_state st_off t)
  | st_off => (1, t)
  end.

(** Cycles since the last announced tick, and cycles per tick.  The loop of the
    source repeats while the wrap state changes between the two reads; with
    sampled registers the second read agrees with the first. *)
Definition _isix_port_systimer_subtick (t : systimer) : (Z * Z) * systimer :=
  let tpp := g_tick_cycles t in
  let '(pending, t) := wrap_unannounced t in
  let cvr := stk_cvr t in
  let before := if pending then tpp else 0 in
  let long_cycles := u32 (g_expected t * tpp) in
  let '(before, period) :=
    match g_state t with
    | st_armed => (before, if pending then long_cycles else tpp)
    | st_sleeping => (if pending then long_cycles else 0, if pending then tpp else long_cycles)
    | st_off => (before, tpp)
    end in
  ((u32 (before + if cvr <? period then u32 (period - 1 - cvr) else 0), tpp), t).

(** ** The register driver (systick.c) *)

Definition STK_RVR_RELOAD : Z := 0x00FFFFFF.

Definition systick_set_reload (value : Z) (t : systimer) : systimer :=
  with_rvr (Z.land value STK_RVR_RELOAD) t.

Definition systick_get_reload (t : systimer) : Z := Z.land (stk_rvr t) STK_RVR_RELOAD.

Definition systick_set_frequency (freq ahb : Z) (t : systimer) : bool * systimer :=
  let ratio := ahb / freq in
  if STK_RVR_RELOAD * 8 <=? ratio then (false, t)
  else if STK_RVR_RELOAD <=? ratio then
    (true, systick_set_reload (u32 (ratio / 8 - 1)) (with_clock false t))
  else (true, systick_set_reload (u32 (ratio - 1)) (with_clock true t)).

Definition systick_interrupt_enable (t : systimer) : systimer := with_run true (stk_enable t) t.
Definition systick_interrupt_disable (t : systimer) : systimer := with_run false (stk_enable t) t.
Definition systick_counter_enable (t : systimer) : systimer := with_run (stk_tickint t) true t.
Definition systick_counter_disable (t : systimer) : systimer := with_run (stk_tickint t) false t.
Definition systick_get_value (t : systimer) : Z := Z.land (stk_cvr t) STK_RVR_RELOAD.
Definition systick_get_countflag (t : systimer) : bool * systimer :=
  (stk_countflag t, with_countflag false t).
Definition systick_clear (t : systimer) : systimer := with_cvr 0 (with_countflag false t).

(** [None] is the panic "Unable to configure frequency for systick". *)
Definition _isix_port_systimer_init (hz core_freq : Z) (t : systimer) : option systimer :=
  let '(ok, t) := systick_set_frequency hz core_freq t in
  if ok then
    let t := with_tick_cycles (u32 (stk_rvr t + 1)) t in
    Some (systick_counter_enable (systick_interrupt_enable t))
  else None.

(** ** Ports with a free running up counter (systimer_upcounter.h) *)

Definition _isixp_upcounter_elapsed (now last mask : Z) : Z := Z.land (u64 (now - last)) mask.

(** The result is the pair of the ticks and the new carry. *)
Definition _isixp_upcounter_ticks (elapsed freq hz carry : Z) : Z * Z :=
  let total := u64 (u64 (elapsed * hz) + carry) in
  (u32 (total / freq), total mod freq).

Definition UINT64_MAX : Z := 2 ^ 64 - 1.
Definition UINT32_MAX : Z := 2 ^ 32 - 1.

Definition _isixp_upcounter_max_ticks (mask freq hz : Z) : Z :=
  let half := mask / 2 in
  let half := if UINT64_MAX / hz <? half then UINT64_MAX / hz else half in
  let ticks := u64 (u64 (half / freq * hz) + u64 (half mod freq * hz) / freq) in
  let limit := UINT32_MAX / 2 in
  u32 (if limit <? ticks then limit else ticks).

(** ** Properties *)

Lemma split_ran_small long_cycles cvr :
  0 <= cvr < long_cycles -> long_cycles < 2 ^ 32 ->
  u32 (long_cycles - 1 - cvr) = long_cycles - 1 - cvr.
Proof. intros. apply u32_id. unfold in_u32. lia. Qed.

(** Closed form of [systimer_split] on a running long period, in unbounded
    arithmetic. *)
Lemma systimer_split_eq long_cycles cvr tpp skew :
  0 <= cvr < long_cycles -> long_cycles < 2 ^ 31 -> 0 < tpp < 2 ^ 31 -> 0 <= skew ->
  let ran := long_cycles - 1 - cvr in
  let rest := tpp - ran mod tpp in
  systimer_split long_cycles cvr tpp skew =
    let first := Z.max 0 (rest - skew) in
    if (128 <=? tpp) && (first <? 64) then (ran / tpp + 1, first + tpp)
    else (ran / tpp, first).
Proof.
  intros Hcvr Hlong Htpp Hskew ran rest. unfold systimer_split.
  rewrite (proj2 (Z.ltb_lt cvr long_cycles)) by lia.
  rewrite split_ran_small by lia. fold ran.
  pose proof (Z.mod_pos_bound ran tpp). fold rest.
  assert (0 <= ran / tpp <= ran) as Hdiv
    by (split; [apply Z.div_pos; lia|apply Z.div_le_upper_bound; nia]).
  rewrite (u32_id rest) by (unfold in_u32; lia).
  replace (if skew <? rest then u32 (rest - skew) else 0) with (Z.max 0 (rest - skew)).
  2: { destruct (Z.ltb_spec skew rest); [rewrite u32_id by (unfold in_u32; lia)|]; lia. }
  change (u32 (2 * SYSTIMER_MIN_FIRST_CYCLES)) with 128.
  change SYSTIMER_MIN_FIRST_CYCLES with 64. cbv zeta.
  destruct (_ && _); [|done].
  rewrite !u32_id by (unfold in_u32; lia). done.
Qed.

(** C37: Interrupting the long period: the ticks that are announced and the first period make up
    the cycles that have run and the skew of the restart, so that the boundary the counter reaches
    next lies on the tick grid of the interrupted period - unless the sample was taken closer than
    [skew] to a boundary: then the grid slips by what is missing, less than [skew] cycles.  The
    first period is never shorter than the minimum, when a tick has at least twice that. *)
Theorem systimer_split_keeps_phase long_cycles cvr tpp skew n first :
  0 <= cvr < long_cycles -> long_cycles < 2 ^ 31 -> 0 < tpp < 2 ^ 31 -> 0 <= skew ->
  systimer_split long_cycles cvr tpp skew = (n, first) ->
  let ran := long_cycles - 1 - cvr in
  ran + skew + first = (n + 1) * tpp + Z.max 0 (skew - (tpp - ran mod tpp)) /\
  (2 * SYSTIMER_MIN_FIRST_CYCLES <= tpp -> SYSTIMER_MIN_FIRST_CYCLES <= first).
Proof.
  intros Hcvr Hlong Htpp Hskew Hs ran.
  rewrite systimer_split_eq in Hs by lia. fold ran in Hs. cbv zeta in Hs.
  pose proof (Z.div_mod ran tpp ltac:(lia)) as Hdm.
  pose proof (Z.mod_pos_bound ran tpp ltac:(lia)).
  unfold SYSTIMER_MIN_FIRST_CYCLES.
  destruct (Z.leb_spec 128 tpp), (Z.ltb_spec (Z.max 0 (tpp - ran mod tpp - skew)) 64);
    simpl in Hs; injection Hs as <- <-; split; nia.
Qed.

(** One cycle before a boundary the restart takes longer than what is left: two ticks end 58
    cycles later than on the grid of the interrupted period. *)
Theorem split_slips :
  let '(n, first) := systimer_split 336000 168000 168000 SYSTIMER_RESTART_SKEW in
  n = 1 /\ (336000 - 1 - 168000) + SYSTIMER_RESTART_SKEW + first = (n + 1) * 168000 + 58.
Proof. vm_compute. split; reflexivity. Qed.

(** State of a timer programmed with [systick_set_frequency]. *)
Definition timer_ok (t : systimer) : Prop :=
  0 < g_tick_cycles t <= SYSTIMER_RANGE /\
  (g_state t <> st_off ->
     2 <= g_expected t /\ g_expected t * g_tick_cycles t <= SYSTIMER_RANGE) /\
  0 <= stk_cvr t < SYSTIMER_RANGE.

Lemma max_ticks_spec t :
  timer_ok t ->
  let m := _isix_port_systimer_max_ticks t - 1 in
  0 <= m < 2 ^ 25 /\ (2 <= m -> m * g_tick_cycles t <= SYSTIMER_RANGE).
Proof.
  intros [Hc _]. unfold _isix_port_systimer_max_ticks, SYSTIMER_RANGE in *. cbv zeta.
  assert (0 <= 0x1000000 / g_tick_cycles t <= 0x1000000) as Hq
    by (split; [apply Z.div_pos; lia|apply Z.div_le_upper_bound; nia]).
  pose proof (Z.mul_div_le 0x1000000 (g_tick_cycles t)).
  destruct (Z.ltb_spec (0x1000000 / g_tick_cycles t) 2); [lia|].
  rewrite u32_id by (unfold in_u32; lia). split; [lia|]. nia.
Qed.

(** Arming the long period never sleeps past the requested timeout, and the
    period that is loaded fits the 24-bit counter. *)
Lemma set_timeout_bounds timeout t r t' :
  timer_ok t -> 2 <= timeout < 2 ^ 32 ->
  _isix_port_systimer_set_timeout timeout t = (r, t') ->
  1 <= r <= timeout /\ timer_ok t' /\
  (2 <= r -> g_state t' = st_armed /\ g_expected t' = r - 1 /\
     stk_rvr t' = (r - 1) * g_tick_cycles t - 1 /\ stk_rvr t' < SYSTIMER_RANGE).
Proof.
  intros Hok Htm. pose proof (max_ticks_spec t Hok) as Hm. destruct Hok as (Hc & Hst & Hcv).
  unfold _isix_port_systimer_set_timeout.
  destruct (g_state t) eqn:Es; simpl negb; cbv iota;
    [|intros [= <- <-]; split; [lia|]; split; [|lia]; unfold timer_ok; rewrite Es; auto..].
  destruct (Z.ltb_spec timeout 2); [lia|]. simpl orb. cbv iota.
  change TICKLESS_COMPENSATION with 0.
  rewrite (u32_id (timeout - 1)) by (unfold in_u32; lia).
  rewrite (u32_id (timeout - 1 - 0)) by (unfold in_u32; lia).
  cbv zeta in *. set (m := _isix_port_systimer_max_ticks t - 1) in *.
  rewrite (u32_id m) by (unfold in_u32; lia).
  destruct (Z.ltb_spec 0 (timeout - 1)); [|lia].
  rewrite Z.sub_0_r.
  set (ticks := if m <? timeout - 1 then m else timeout - 1).
  assert (ticks <= m /\ ticks <= timeout - 1) as [Htm1 Htm2]
    by (unfold ticks; destruct (Z.ltb_spec m (timeout - 1)); lia).
  destruct (Z.ltb_spec ticks 2).
  - intros [= <- <-]. split; [lia|]. split; [|lia].
    unfold timer_ok. rewrite Es. split_and!; [lia|lia|done|lia|lia].
  - assert (ticks * g_tick_cycles t <= SYSTIMER_RANGE) as Hr by nia.
    assert (0 < ticks * g_tick_cycles t) by nia.
    rewrite (u32_id (ticks * g_tick_cycles t - 1)) by (unfold in_u32, SYSTIMER_RANGE in *; lia).
    simpl. destruct (pendst t && _).
    + intros [= <- <-]. split; [lia|]. split; [|lia]. unfold timer_ok; simpl. rewrite Es.
      split_and!; try lia; done.
    + rewrite u32_id by (unfold in_u32; lia). intros [= <- <-]. unfold timer_ok. simpl.
      split_and!; try lia. intros. split_and!; try lia. done.
Qed.

(** A tickless sleep never runs past the requested timeout, the long period it
    loads fits the 24-bit counter, and a sleep that runs to its end announces exactly
    the number of ticks the arming returned: one at the first boundary and the long
    period at the second, after which the periodic tick is back. *)
Theorem systimer_full_sleep timeout t r t' :
  timer_ok t -> 2 <= timeout < 2 ^ 32 ->
  _isix_port_systimer_set_timeout timeout t = (r, t') -> 2 <= r ->
  r <= timeout /\ stk_rvr t' = (r - 1) * g_tick_cycles t - 1 /\ stk_rvr t' < SYSTIMER_RANGE /\
  let '(n1, t1) := systimer_isr_ticks t' in
  let '(n2, t2) := systimer_isr_ticks t1 in
  n1 + n2 = r /\ g_state t1 = st_sleeping /\ g_state t2 = st_off /\
  stk_rvr t2 = g_tick_cycles t - 1.
Proof.
  intros Hok Htm Hset Hr.
  destruct (set_timeout_bounds _ _ _ _ Hok Htm Hset) as (Hle & Hok' & Harm).
  destruct (Harm Hr) as (Hs & He & Hrv & Hfit).
  assert (g_tick_cycles t' = g_tick_cycles t) as Hc.
  { unfold _isix_port_systimer_set_timeout in Hset.
    repeat match type of Hset with
    | context [if ?b then _ else _] => destruct b
    end; by injection Hset as <- <-. }
  destruct Hok as [[Hc0 Hc1] _]. split; [lia|]. split; [done|]. split; [done|].
  clear Hrv Hfit. unfold SYSTIMER_RANGE in *.
  destruct t' as [tc lat st ex rvr cvr cf ahb ti en pe act]. simpl in *. subst.
  unfold systimer_isr_ticks, wrap_clear, wrap_latch.
  destruct cf; simpl; rewrite u32_id by (unfold in_u32; lia); split_and!; lia || done.
Qed.

Lemma systimer_split_count e cvr tpp skew n first :
  1 <= e -> 0 < tpp -> e * tpp < 2 ^ 31 -> 0 <= cvr -> 0 <= skew ->
  systimer_split (e * tpp) cvr tpp skew = (n, first) -> 0 <= n <= e.
Proof.
  intros He Htpp Hr Hcvr Hskew. destruct (Z_lt_dec cvr (e * tpp)).
  - rewrite systimer_split_eq by nia. cbv zeta.
    set (ran := e * tpp - 1 - cvr).
    assert (0 <= ran / tpp <= e - 1) as Hq.
    { split; [apply Z.div_pos; lia|]. enough (ran / tpp < e) by lia.
      apply Z.div_lt_upper_bound; lia. }
    destruct (_ && _); intros [= <- _]; lia.
  - unfold systimer_split. rewrite (proj2 (Z.ltb_ge cvr (e * tpp))) by lia.
    rewrite Z.div_0_l by lia. destruct (_ && _); intros [= <- _]; [change (u32 (0 + 1)) with 1|]; lia.
Qed.

(** Waking early never counts more ticks than the sleep was armed for: at most the
    long period, and one more for the boundary before it when the wake-up comes
    between that boundary and its interrupt. *)
Theorem systimer_resync_bounds t n t' :
  timer_ok t -> g_state t <> st_off -> _isix_port_systimer_resync t = (n, t') ->
  0 <= n <= g_expected t + (match g_state t with st_armed => 1 | _ => 0 end).
Proof.
  intros (Hc & Hst & Hcv) Hoff Hr. destruct (Hst Hoff) as [He HR].
  unfold SYSTIMER_RANGE, _isix_port_systimer_resync in *.
  rewrite (u32_id (g_expected t * g_tick_cycles t)) in Hr by (unfold in_u32; nia).
  unfold systimer_restart, SYSTIMER_RESTART_SKEW in Hr.
  assert (g_expected t <= 0x1000000) by nia.
  assert (forall k f, systimer_split (g_expected t * g_tick_cycles t) (stk_cvr t)
      (g_tick_cycles t) 59 = (k, f) -> 0 <= k <= g_expected t) as Hsp.
  { intros k f E. eapply systimer_split_count; [..|exact E]; lia. }
  destruct (g_state t) eqn:Es; [done|..]; unfold _isix_port_systimer_is_sleeping in Hr;
    rewrite Es in Hr; simpl in Hr; destruct (tick_handler_active t);
    try (injection Hr as <- <-; lia).
  - destruct (Z.ltb_spec (stk_cvr t) (g_tick_cycles t)); [injection Hr as <- <-; lia|].
    destruct (systimer_split _ _ _ _) as [k f] eqn:Esp. injection Hr as <- <-.
    specialize (Hsp _ _ eq_refl). rewrite u32_id by (unfold in_u32; lia). lia.
  - destruct (tick_pending t); [injection Hr as <- <-; lia|].
    destruct (systimer_split _ _ _ _) as [k f] eqn:Esp. injection Hr as <- <-.
    specialize (Hsp _ _ eq_refl). lia.
Qed.

(** No counter cycle is lost by the conversion to ticks: the ticks and the carry
    account for every elapsed cycle, whatever the sequence of conversions. *)
Theorem upcounter_ticks_exact elapsed freq hz carry ticks carry' :
  0 < freq -> 0 < hz -> 0 <= elapsed -> 0 <= carry < freq ->
  elapsed * hz + carry < 2 ^ 64 -> (elapsed * hz + carry) / freq < 2 ^ 32 ->
  _isixp_upcounter_ticks elapsed freq hz carry = (ticks, carry') ->
  ticks * freq + carry' = elapsed * hz + carry /\ 0 <= carry' < freq.
Proof.
  intros Hf Hh He Hca Hb Hq. unfold _isixp_upcounter_ticks.
  assert (0 <= elapsed * hz) by nia.
  unfold u64. rewrite (Z.mod_small (elapsed * hz)), (Z.mod_small (elapsed * hz + carry)) by lia.
  rewrite u32_id by (unfold in_u32; split; [apply Z.div_pos; lia|lia]).
  intros [= <- <-]. split; [|apply Z.mod_pos_bound; lia].
  pose proof (Z.div_mod (elapsed * hz + carry) freq). lia.
Qed.

(** A timeout the port accepts ends before half of the counter range has elapsed,
    so the wrap of the counter cannot go unnoticed. *)
Theorem upcounter_max_ticks_no_wrap mask freq hz :
  0 < freq < 2 ^ 32 -> 0 < hz < 2 ^ 32 -> 0 <= mask < 2 ^ 64 ->
  _isixp_upcounter_max_ticks mask freq hz * freq <= mask / 2 * hz.
Proof.
  intros Hf Hh Hm. unfold _isixp_upcounter_max_ticks. cbv zeta.
  set (half := if UINT64_MAX / hz <? mask / 2 then UINT64_MAX / hz else mask / 2).
  assert (0 <= UINT64_MAX / hz) by (apply Z.div_pos; unfold UINT64_MAX; lia).
  assert (0 <= mask / 2) by (apply Z.div_pos; lia).
  pose proof (Z.mul_div_le UINT64_MAX hz ltac:(lia)) as Hmax.
  assert (0 <= half <= mask / 2 /\ half * hz <= UINT64_MAX) as (Hhalf & Hov).
  { unfold half. destruct (Z.ltb_spec (UINT64_MAX / hz) (mask / 2)); [lia|nia]. }
  clearbody half. unfold UINT64_MAX in Hov.
  pose proof (Z.div_mod half freq ltac:(lia)) as Hdm.
  pose proof (Z.mod_pos_bound half freq ltac:(lia)).
  assert (0 <= half / freq) by (apply Z.div_pos; lia).
  assert (half mod freq * hz / freq * freq <= half mod freq * hz) as Hd2
    by (rewrite Z.mul_comm; apply Z.mul_div_le; lia).
  assert (0 <= half mod freq * hz / freq) by (apply Z.div_pos; nia).
  unfold u64. rewrite (Z.mod_small (half / freq * hz)) by nia.
  rewrite (Z.mod_small (half mod freq * hz)) by nia.
  rewrite Z.mod_small by nia.
  set (ticks := half / freq * hz + half mod freq * hz / freq) in *.
  assert (ticks * freq <= half * hz) as Hfin by (unfold ticks; nia).
  assert (0 <= ticks) by (unfold ticks; nia).
  change (UINT32_MAX / 2) with 0x7fffffff.
  destruct (Z.ltb_spec 0x7fffffff ticks); rewrite u32_id by (unfold in_u32; lia); nia.
Qed.

(** ** The properties at concrete inputs *)

(** A 16 MHz SysTick with a 1 kHz tick, in the middle of a tick. *)
Definition timer16 : systimer :=
  SysTimer 16000 false st_off 0 15999 8000 false true true true false false.

Lemma timer16_ok : timer_ok timer16.
Proof. unfold timer_ok, timer16, SYSTIMER_RANGE. simpl. split_and!; lia || done. Qed.

(** A long period of 100 ticks interrupted 20000 cycles before its end. *)
Lemma systimer_split_keeps_phase_witness :
  let ran := 1600000 - 1 - 20000 in
  ran + 59 + 3942 = (98 + 1) * 16000 + Z.max 0 (59 - (16000 - ran mod 16000)) /\
  (2 * SYSTIMER_MIN_FIRST_CYCLES <= 16000 -> SYSTIMER_MIN_FIRST_CYCLES <= 3942).
Proof. apply (systimer_split_keeps_phase 1600000 20000 16000 59 98 3942); [lia..|reflexivity]. Defined.

Lemma systimer_full_sleep_witness :
  let t' := with_state st_armed (with_rvr 1583999 (with_expected 99 timer16)) in
  100 <= 100 /\ stk_rvr t' = (100 - 1) * g_tick_cycles timer16 - 1 /\
  stk_rvr t' < SYSTIMER_RANGE /\
  let '(n1, t1) := systimer_isr_ticks t' in
  let '(n2, t2) := systimer_isr_ticks t1 in
  n1 + n2 = 100 /\ g_state t1 = st_sleeping /\ g_state t2 = st_off /\
  stk_rvr t2 = g_tick_cycles timer16 - 1.
Proof. apply (systimer_full_sleep 100 timer16 100); [apply timer16_ok|lia|reflexivity|lia]. Defined.

Lemma systimer_resync_bounds_witness :
  let t := with_cvr 20000 (with_state st_sleeping (with_expected 99 timer16)) in
  0 <= fst (_isix_port_systimer_resync t) <= g_expected t + 0.
Proof.
  cbv zeta. set (t := with_cvr _ _).
  apply (systimer_resync_bounds t _ (snd (_isix_port_systimer_resync t))); [|done|reflexivity].
  unfold timer_ok, SYSTIMER_RANGE. simpl. split_and!; intros; lia.
Defined.

Lemma upcounter_ticks_exact_witness :
  32 * 32768 + 24 = 1048600 * 1 + 0 /\ 0 <= 24 < 32768.
Proof. apply (upcounter_ticks_exact 1048600 32768 1 0); [lia..|reflexivity|reflexivity|reflexivity]. Defined.

(** A 16 bit counter at 32768 Hz. *)
Lemma upcounter_max_ticks_no_wrap_witness :
  _isixp_upcounter_max_ticks 0xffff 32768 1000 * 32768 <= 0xffff / 2 * 1000.
Proof. apply (upcounter_max_ticks_no_wrap 0xffff 32768 1000); lia. Defined.
