(* ===== verification/OsStats.v ===== *)
(** * CPU load statistics (libisix/kernel/osstats.c)

    The scheduler reports every context switch with its time stamp; ticks are
    attributed to the idle task or to the others, and the load in tenths of a
    percent is published when the accumulation window has elapsed. *)

From S2P Require Import Prelude.
From stdpp Require Import base tactics.
From Stdlib Require Import ZArith Lia.
Local Open Scope Z_scope.

Definition CONFIG_ISIX_HZ : Z := 1000.

(** [_LOG2B] .. [_LOG2F]: binary logarithm of a 32-bit constant by bisection. *)
Definition _LOG2F (s : Z) : Z := if Z.eqb (Z.land s 0x2) 0 then 0 else 1.
Definition _LOG2E (s : Z) : Z :=
  if Z.eqb (Z.land s 0xc) 0 then _LOG2F s else 2 + _LOG2F (Z.shiftr s 2).
Definition _LOG2D (s : Z) : Z :=
  if Z.eqb (Z.land s 0xf0) 0 then _LOG2E s else 4 + _LOG2E (Z.shiftr s 4).
Definition _LOG2C (s : Z) : Z :=
  if Z.eqb (Z.land s 0xff00) 0 then _LOG2D s else 8 + _LOG2D (Z.shiftr s 8).
Definition _LOG2B (s : Z) : Z :=
  if Z.eqb (Z.land s 0xffff0000) 0 then _LOG2C s else 16 + _LOG2C (Z.shiftr s 16).
Definition _LOG2A (s : Z) : Z :=
  if Z.eqb (Z.land s 0xffffffff00000000) 0 then _LOG2B s else 32 + _LOG2B (Z.shiftr s 32).

Definition CYCLES_RST_COUNT : Z := Z.shiftl 1 (_LOG2A (CONFIG_ISIX_HZ - 1) + 1).
Definition CPULOAD_MAX : Z := 1000.

Record cpu_stats := CpuStats {
  state_t : Z;     (* time stamp of the last update *)
  win_t : Z;       (* time stamp of the last published window *)
  busy_sum : Z;    (* ticks spent outside of idle in the window *)
  idle_sum : Z;    (* ticks spent in idle in the window *)
  rload : Z;       (* final load *)
  old_idle : bool  (* idle was scheduled at the last update *)
}.

Definition isix_cpuload (c : cpu_stats) : Z := rload c.

Definition _isixp_schedule_update_statistics (t : Z) (idle_scheduled : bool) (c : cpu_stats)
  : cpu_stats :=
  let delta := u32 (t - state_t c) in
  let idle := if old_idle c then u32 (idle_sum c + delta) else idle_sum c in
  let busy := if old_idle c then busy_sum c else u32 (busy_sum c + delta) in
  if CYCLES_RST_COUNT <=? u32 (t - win_t c) then
    let den := u32 (busy + idle) in
    let load := if Z.eqb den 0 then rload c else i32 (u64 (CPULOAD_MAX * busy) / den) in
    CpuStats t t 0 0 load idle_scheduled
  else
    CpuStats t (win_t c) busy idle (rload c) idle_scheduled.

(** The ticks of the open window are all attributed, and no sum has wrapped. *)
Definition stats_ok (c : cpu_stats) : Prop :=
  in_u32 (state_t c) /\ in_u32 (win_t c) /\ 0 <= busy_sum c /\ 0 <= idle_sum c /\
  busy_sum c + idle_sum c = u32 (state_t c - win_t c) /\
  0 <= rload c <= CPULOAD_MAX.

(** Ticks the statistics have seen since the window opened, plus those of the next
    report, fit the counter. *)
Definition window_fits (t : Z) (c : cpu_stats) : Prop :=
  in_u32 t /\ u32 (state_t c - win_t c) + u32 (t - state_t c) < 2 ^ 32.

Lemma window_extends t c :
  stats_ok c -> window_fits t c ->
  u32 (state_t c - win_t c) + u32 (t - state_t c) = u32 (t - win_t c).
Proof.
  intros (Hs & Hw & _) [Ht Hsum].
  pose proof (u32_range (state_t c - win_t c)). pose proof (u32_range (t - state_t c)).
  rewrite <- (u32_id (u32 (state_t c - win_t c) + u32 (t - state_t c))) by (unfold in_u32; lia).
  unfold u32 at 1 2 3. rewrite <- Zplus_mod. unfold u32. f_equal. lia.
Qed.

(** Every report keeps the accounting exact: the published load is the busy share of
    the window rounded down, between 0 and 1000, and within an open window the busy
    and idle ticks add up to the time since the window opened. *)
Theorem update_statistics_accounts t idle c :
  stats_ok c -> window_fits t c ->
  let c' := _isixp_schedule_update_statistics t idle c in
  stats_ok c' /\
  (CYCLES_RST_COUNT <= u32 (t - win_t c) ->
     exists busy, busy = busy_sum c + (if old_idle c then 0 else u32 (t - state_t c)) /\
       rload c' * u32 (t - win_t c) <= CPULOAD_MAX * busy < (rload c' + 1) * u32 (t - win_t c)) /\
  (u32 (t - win_t c) < CYCLES_RST_COUNT -> rload c' = rload c).
Proof.
  intros Hok Hfit c'. pose proof (window_extends _ _ Hok Hfit) as Hext.
  destruct Hok as (Hs & Hw & Hb & Hi & Hsum & Hl). destruct Hfit as [Ht Hfit].
  pose proof (u32_range (t - state_t c)) as Hd. pose proof (u32_range (t - win_t c)) as Hwin.
  set (d := u32 (t - state_t c)) in *. set (w := u32 (t - win_t c)) in *.
  set (busy := busy_sum c + (if old_idle c then 0 else d)).
  set (idl := idle_sum c + (if old_idle c then d else 0)).
  assert (busy + idl = w /\ 0 <= busy /\ 0 <= idl) as (Hbi & Hb0 & Hi0)
    by (unfold busy, idl; destruct (old_idle c); lia).
  assert (c' = if CYCLES_RST_COUNT <=? w
    then CpuStats t t 0 0 (if Z.eqb w 0 then rload c else CPULOAD_MAX * busy / w) idle
    else CpuStats t (win_t c) busy idl (rload c) idle) as ->.
  { unfold c', _isixp_schedule_update_statistics. fold d w.
    replace (if old_idle c then u32 (idle_sum c + d) else idle_sum c) with idl
      by (unfold idl; destruct (old_idle c); [rewrite u32_id by (unfold in_u32; lia)|]; lia).
    replace (if old_idle c then busy_sum c else u32 (busy_sum c + d)) with busy
      by (unfold busy; destruct (old_idle c); [|rewrite u32_id by (unfold in_u32; lia)]; lia).
    rewrite Hbi, (u32_id w) by (unfold in_u32; lia).
    destruct (CYCLES_RST_COUNT <=? w); [|done]. cbv zeta.
    destruct (Z.eqb_spec w 0); [done|].
    unfold u64, CPULOAD_MAX. rewrite Z.mod_small by lia. rewrite i32_id; [done|].
    unfold in_i32. assert (0 <= 1000 * busy / w <= 1000); [|lia].
    split; [apply Z.div_pos; lia|apply Z.div_le_upper_bound; nia]. }
  change CYCLES_RST_COUNT with 1024. unfold stats_ok, CPULOAD_MAX in *.
  destruct (Z.leb_spec 1024 w) as [Hge|Hlt]; simpl.
  - destruct (Z.eqb_spec w 0); [lia|].
    rewrite Z.sub_diag. change (u32 0) with 0.
    assert (0 <= 1000 * busy / w <= 1000)
      by (split; [apply Z.div_pos; lia|apply Z.div_le_upper_bound; nia]).
    pose proof (Z.div_mod (1000 * busy) w) as Hdm. pose proof (Z.mod_pos_bound (1000 * busy) w).
    split_and!; try done; try lia. intros _. exists busy. split; [done|nia].
  - fold w. split_and!; try done; lia.
Qed.

(** A window of 1100 ticks of which 300 were spent in the idle task. *)
Lemma update_statistics_accounts_witness :
  let c := CpuStats 1000 0 800 200 0 true in
  let c' := _isixp_schedule_update_statistics 1100 false c in
  stats_ok c' /\
  (CYCLES_RST_COUNT <= u32 (1100 - 0) ->
     exists busy, busy = 800 + 0 /\
       rload c' * u32 (1100 - 0) <= CPULOAD_MAX * busy < (rload c' + 1) * u32 (1100 - 0)) /\
  (u32 (1100 - 0) < CYCLES_RST_COUNT -> rload c' = 0).
Proof.
  apply (update_statistics_accounts 1100 false (CpuStats 1000 0 800 200 0 true)).
  - unfold stats_ok, in_u32, CPULOAD_MAX. simpl. split_and!; lia || reflexivity.
  - unfold window_fits, in_u32. simpl. split; [lia|reflexivity].
Defined.
