(* ===== verification/Kernel.v ===== *)
(** * The kernel state

    The data of [libisix/include/isix/prv/*.h] and the static variables of the
    kernel, and the accessors the operations of the other files are written with.

    A pointer is a [Z] address and 0 is NULL; every object lives in a finite map
    keyed by its address.  The lists of the kernel are kept as sequences (see
    [DList] for the pointers below them), one store per kind of node. *)

From S2P Require Import Prelude.
From S2P Require Import DList.
From S2P Require Import Systimer.
From S2P Require Import OsStats.
From stdpp Require Import base gmap list strings.
From Stdlib Require Import ZArith Lia.
Local Open Scope Z_scope.

(** ** Constants *)

Definition CONFIG_ISIX_NUMBER_OF_PRIORITIES : Z := 16.

(** [enum isix_error] *)
Definition ISIX_EOK : Z := 0.
Definition ISIX_ENOMEM : Z := -2.
Definition ISIX_ETIMEOUT : Z := -3.
Definition ISIX_EINVARG : Z := -4.
Definition ISIX_EFIFOFULL : Z := -5.
Definition ISIX_EBUSY : Z := -6.
Definition ISIX_ENOPRIO : Z := -7.
Definition ISIX_ERESET : Z := -9.
Definition ISIX_EDESTROY : Z := -10.
Definition ISIX_ESTATE : Z := -11.
Definition ISIX_EPERM : Z := -12.
Definition ISIX_ENOTLOCKED : Z := -14.
Definition ISIX_ENOREF : Z := -15.
Definition ISIX_EFIFOEMPTY : Z := -16.
Definition ISIX_EINVADDR : Z := -17.
Definition ISIX_EBADF : Z := -18.

Definition ISIX_TIME_INFINITE : Z := 0.
Definition ISIX_TIME_DONTWAIT : Z := 0xFFFFFFFF.
Definition ISIX_TIME_MAX_TICK : Z := 0xFFFFFFFF.

Definition NULL : Z := 0.

(** ** Data *)

Inductive osthr_state :=
| OSTHR_STATE_READY | OSTHR_STATE_RUNNING | OSTHR_STATE_CREATED | OSTHR_STATE_SLEEPING
| OSTHR_STATE_WTSEM | OSTHR_STATE_ZOMBIE | OSTHR_STATE_SCHEDULE | OSTHR_STATE_WTEVT
| OSTHR_STATE_SUSPEND | OSTHR_STATE_WTMTX | OSTHR_STATE_WTCOND | OSTHR_STATE_WTEXIT
| OSTHR_STATE_EXITED.

#[global] Instance osthr_state_eq_dec : EqDecision osthr_state.
Proof. solve_decision. Defined.

(** [struct isix_task]; the list heads [owned_mutexes] and [waiting_tasks] and the
    nodes [inode] and [inode_time] are in the list stores. *)
Record task : Type := Task {
  t_top_stack : Z;  (* task stack pointer *)
  t_init_stack : Z;  (* initial value of the stack, for isix_free *)
  t_prio : Z;  (* priority, uint8_t *)
  t_real_prio : Z;  (* priority without inheritance, uint8_t *)
  t_refcnt : Z;  (* uint16_t *)
  t_state : osthr_state;
  t_wait_aborted : bool;  (* the wait was cut by suspend *)
  t_jiffies : Z;  (* tick at which the task wakes up *)
  t_prio_elem : Z;  (* own priority list element *)
  t_obj : Z;  (* the 32-bit word of the union obj *)
  t_impure : Z  (* newlib per thread data *)
}.

Definition set_t_top_stack (x : Z) (o : task) : task :=
  Task x (t_init_stack o) (t_prio o) (t_real_prio o) (t_refcnt o) (t_state o) (t_wait_aborted o) (t_jiffies o) (t_prio_elem o) (t_obj o) (t_impure o).
Definition set_t_init_stack (x : Z) (o : task) : task :=
  Task (t_top_stack o) x (t_prio o) (t_real_prio o) (t_refcnt o) (t_state o) (t_wait_aborted o) (t_jiffies o) (t_prio_elem o) (t_obj o) (t_impure o).
Definition set_t_prio (x : Z) (o : task) : task :=
  Task (t_top_stack o) (t_init_stack o) x (t_real_prio o) (t_refcnt o) (t_state o) (t_wait_aborted o) (t_jiffies o) (t_prio_elem o) (t_obj o) (t_impure o).
Definition set_t_real_prio (x : Z) (o : task) : task :=
  Task (t_top_stack o) (t_init_stack o) (t_prio o) x (t_refcnt o) (t_state o) (t_wait_aborted o) (t_jiffies o) (t_prio_elem o) (t_obj o) (t_impure o).
Definition set_t_refcnt (x : Z) (o : task) : task :=
  Task (t_top_stack o) (t_init_stack o) (t_prio o) (t_real_prio o) x (t_state o) (t_wait_aborted o) (t_jiffies o) (t_prio_elem o) (t_obj o) (t_impure o).
Definition set_t_state (x : osthr_state) (o : task) : task :=
  Task (t_top_stack o) (t_init_stack o) (t_prio o) (t_real_prio o) (t_refcnt o) x (t_wait_aborted o) (t_jiffies o) (t_prio_elem o) (t_obj o) (t_impure o).
Definition set_t_wait_aborted (x : bool) (o : task) : task :=
  Task (t_top_stack o) (t_init_stack o) (t_prio o) (t_real_prio o) (t_refcnt o) (t_state o) x (t_jiffies o) (t_prio_elem o) (t_obj o) (t_impure o).
Definition set_t_jiffies (x : Z) (o : task) : task :=
  Task (t_top_stack o) (t_init_stack o) (t_prio o) (t_real_prio o) (t_refcnt o) (t_state o) (t_wait_aborted o) x (t_prio_elem o) (t_obj o) (t_impure o).
Definition set_t_prio_elem (x : Z) (o : task) : task :=
  Task (t_top_stack o) (t_init_stack o) (t_prio o) (t_real_prio o) (t_refcnt o) (t_state o) (t_wait_aborted o) (t_jiffies o) x (t_obj o) (t_impure o).
Definition set_t_obj (x : Z) (o : task) : task :=
  Task (t_top_stack o) (t_init_stack o) (t_prio o) (t_real_prio o) (t_refcnt o) (t_state o) (t_wait_aborted o) (t_jiffies o) (t_prio_elem o) x (t_impure o).
Definition set_t_impure (x : Z) (o : task) : task :=
  Task (t_top_stack o) (t_init_stack o) (t_prio o) (t_real_prio o) (t_refcnt o) (t_state o) (t_wait_aborted o) (t_jiffies o) (t_prio_elem o) (t_obj o) x.

(** [struct isix_semaphore] without the wait list. *)
Record sem : Type := Sem {
  s_value : Z;  (* value.value, int32_t *)
  s_limit : Z;  (* value.limit, 0 is unlimited *)
  s_static : bool;
  s_evt : Z;  (* connected event, 0 when none *)
  s_bitno : Z  (* uint8_t *)
}.

Definition set_s_value (x : Z) (o : sem) : sem :=
  Sem x (s_limit o) (s_static o) (s_evt o) (s_bitno o).
Definition set_s_limit (x : Z) (o : sem) : sem :=
  Sem (s_value o) x (s_static o) (s_evt o) (s_bitno o).
Definition set_s_static (x : bool) (o : sem) : sem :=
  Sem (s_value o) (s_limit o) x (s_evt o) (s_bitno o).
Definition set_s_evt (x : Z) (o : sem) : sem :=
  Sem (s_value o) (s_limit o) (s_static o) x (s_bitno o).
Definition set_s_bitno (x : Z) (o : sem) : sem :=
  Sem (s_value o) (s_limit o) (s_static o) (s_evt o) x.

(** [struct isix_mutex] without the wait list and the node. *)
Record mtx : Type := Mtx {
  m_count : Z;  (* lock count *)
  m_owner : Z;  (* owner task, 0 when none *)
  m_static : bool
}.

Definition set_m_count (x : Z) (o : mtx) : mtx :=
  Mtx x (m_owner o) (m_static o).
Definition set_m_owner (x : Z) (o : mtx) : mtx :=
  Mtx (m_count o) x (m_static o).
Definition set_m_static (x : bool) (o : mtx) : mtx :=
  Mtx (m_count o) (m_owner o) x.

(** [struct isix_fifo]; the two semaphores have addresses of their own. *)
Record fifo : Type := Fifo {
  f_rx_p : Z;
  f_tx_p : Z;
  f_mem_p : Z;
  f_size : Z;
  f_elem_size : Z;
  f_flags : Z;
  f_evt : Z;
  f_bitno : Z
}.

Definition set_f_rx_p (x : Z) (o : fifo) : fifo :=
  Fifo x (f_tx_p o) (f_mem_p o) (f_size o) (f_elem_size o) (f_flags o) (f_evt o) (f_bitno o).
Definition set_f_tx_p (x : Z) (o : fifo) : fifo :=
  Fifo (f_rx_p o) x (f_mem_p o) (f_size o) (f_elem_size o) (f_flags o) (f_evt o) (f_bitno o).
Definition set_f_mem_p (x : Z) (o : fifo) : fifo :=
  Fifo (f_rx_p o) (f_tx_p o) x (f_size o) (f_elem_size o) (f_flags o) (f_evt o) (f_bitno o).
Definition set_f_size (x : Z) (o : fifo) : fifo :=
  Fifo (f_rx_p o) (f_tx_p o) (f_mem_p o) x (f_elem_size o) (f_flags o) (f_evt o) (f_bitno o).
Definition set_f_elem_size (x : Z) (o : fifo) : fifo :=
  Fifo (f_rx_p o) (f_tx_p o) (f_mem_p o) (f_size o) x (f_flags o) (f_evt o) (f_bitno o).
Definition set_f_flags (x : Z) (o : fifo) : fifo :=
  Fifo (f_rx_p o) (f_tx_p o) (f_mem_p o) (f_size o) (f_elem_size o) x (f_evt o) (f_bitno o).
Definition set_f_evt (x : Z) (o : fifo) : fifo :=
  Fifo (f_rx_p o) (f_tx_p o) (f_mem_p o) (f_size o) (f_elem_size o) (f_flags o) x (f_bitno o).
Definition set_f_bitno (x : Z) (o : fifo) : fifo :=
  Fifo (f_rx_p o) (f_tx_p o) (f_mem_p o) (f_size o) (f_elem_size o) (f_flags o) (f_evt o) x.

(** [struct isix_vtimer] without the node. *)
Record vtimer : Type := VTimer {
  v_jiffies : Z;  (* next timeout *)
  v_timeout : Z;
  v_callback : Z;  (* function address, 0 is NULL *)
  v_arg : Z;
  v_cyclic : bool;
  v_active : bool
}.

Definition set_v_jiffies (x : Z) (o : vtimer) : vtimer :=
  VTimer x (v_timeout o) (v_callback o) (v_arg o) (v_cyclic o) (v_active o).
Definition set_v_timeout (x : Z) (o : vtimer) : vtimer :=
  VTimer (v_jiffies o) x (v_callback o) (v_arg o) (v_cyclic o) (v_active o).
Definition set_v_callback (x : Z) (o : vtimer) : vtimer :=
  VTimer (v_jiffies o) (v_timeout o) x (v_arg o) (v_cyclic o) (v_active o).
Definition set_v_arg (x : Z) (o : vtimer) : vtimer :=
  VTimer (v_jiffies o) (v_timeout o) (v_callback o) x (v_cyclic o) (v_active o).
Definition set_v_cyclic (x : bool) (o : vtimer) : vtimer :=
  VTimer (v_jiffies o) (v_timeout o) (v_callback o) (v_arg o) x (v_active o).
Definition set_v_active (x : bool) (o : vtimer) : vtimer :=
  VTimer (v_jiffies o) (v_timeout o) (v_callback o) (v_arg o) (v_cyclic o) x.

(** [struct vtimer_context] *)
Record vtimers : Type := VTimers {
  vt_lists : gmap bool (list Z);  (* _vtimer_list_, threaded through isix_vtimer.inode *)
  vt_sel : bool;  (* index of the list p_vtimer_list points to *)
  vt_worker : Z;  (* worker_thread_id *)
  vt_queue : Z;  (* worker_queue *)
  vt_map : gmap Z vtimer  (* timers by address *)
}.

Definition set_vt_lists (x : gmap bool (list Z)) (o : vtimers) : vtimers :=
  VTimers x (vt_sel o) (vt_worker o) (vt_queue o) (vt_map o).
Definition set_vt_sel (x : bool) (o : vtimers) : vtimers :=
  VTimers (vt_lists o) x (vt_worker o) (vt_queue o) (vt_map o).
Definition set_vt_worker (x : Z) (o : vtimers) : vtimers :=
  VTimers (vt_lists o) (vt_sel o) x (vt_queue o) (vt_map o).
Definition set_vt_queue (x : Z) (o : vtimers) : vtimers :=
  VTimers (vt_lists o) (vt_sel o) (vt_worker o) x (vt_map o).
Definition set_vt_map (x : gmap Z vtimer) (o : vtimers) : vtimers :=
  VTimers (vt_lists o) (vt_sel o) (vt_worker o) (vt_queue o) x.

(** Heads of the lists threaded through [isix_task.inode]. *)
Inductive qhead :=
| QPrio (p : Z)   (* task_list of a task_ready_t *)
| QSem (s : Z)    (* wait_list of a semaphore *)
| QMtx (m : Z)    (* wait_list of a mutex *)
| QEvt (e : Z)    (* wait_list of an event *)
| QCond (c : Z)   (* wait_list of a condition variable *)
| QExit (t : Z)   (* waiting_tasks of a task *)
| QZombie.        (* zombie_list *)

#[global] Instance qhead_eq_dec : EqDecision qhead.
Proof. solve_decision. Defined.
#[global] Instance qhead_countable : Countable qhead.
Proof.
  refine (inj_countable'
    (fun h => match h with
      | QPrio p => (0%nat, p) | QSem s => (1%nat, s) | QMtx m => (2%nat, m)
      | QEvt e => (3%nat, e) | QCond c => (4%nat, c) | QExit t => (5%nat, t)
      | QZombie => (6%nat, 0) end)
    (fun x => match x with
      | (0%nat, p) => QPrio p | (1%nat, s) => QSem s | (2%nat, m) => QMtx m
      | (3%nat, e) => QEvt e | (4%nat, c) => QCond c | (5%nat, t) => QExit t
      | _ => QZombie end) _).
  by intros [].
Defined.

(** Heads of the lists threaded through [task_ready_t.inode]. *)
Inductive phead := PReady | PFree.

#[global] Instance phead_eq_dec : EqDecision phead.
Proof. solve_decision. Defined.
#[global] Instance phead_countable : Countable phead.
Proof.
  refine (inj_countable' (fun h => match h with PReady => true | PFree => false end)
    (fun b => if b then PReady else PFree) _).
  by intros [].
Defined.

(** The allocator as the kernel uses it: [alloc] returns NULL when there is no
    memory. *)
Class Allocator (HS : Type) := {
  heap_alloc : Z -> HS -> Z * HS;
  heap_free : Z -> HS -> HS
}.

(** The whole kernel:
    - [k_heap]: heap of the allocator;
    - [k_tasks]: task control blocks by address;
    - [k_prios]: [prio] of each [task_ready_t] by address;
    - [k_q]: lists threaded through [isix_task.inode];
    - [k_pl]: lists threaded through [task_ready_t.inode];
    - [k_tl]: [wait_lists], threaded through [isix_task.inode_time];
    - [k_ml]: [owned_mutexes] of each task, threaded through [isix_mutex.inode];
    - [k_sems]: semaphores by address;
    - [k_mtxs]: mutexes by address;
    - [k_evs]: [bitset] of each event by address;
    - [k_conds]: addresses of the condition variables;
    - [k_fifos]: fifo objects by address;
    - [k_mem]: bytes of the fifo buffers and of the task stacks;
    - [k_sched_lock]: [csys.sched_lock.value], the limit is unlimited;
    - [k_critical_count]: [csys.critical_count];
    - [k_pwait]: index of the list [csys.p_wait_list] points to;
    - [k_jiffies]: [csys.jiffies];
    - [k_jiffies_skipped]: [csys.jiffies_skipped];
    - [k_ndeleted]: [csys.number_of_task_deleted];
    - [k_yield_pending]: [csys.yield_pending];
    - [k_currp]: [_isix_current_task];
    - [k_schrun]: [_isix_scheduler_running];
    - [k_pendsv]: PendSV is pending: a context switch was requested;
    - [k_masked]: BASEPRI masks the kernel interrupts;
    - [k_in_isr]: IPSR is not zero: an interrupt handler runs;
    - [k_timer]: system timer and its registers;
    - [k_cstats]: CPU load statistics;
    - [k_reent]: newlib [_REENT], 0 for the global one;
    - [k_vt]: virtual timer context; *)
Record kstate (HS : Type) : Type := KState {
  k_heap : HS;
  k_tasks : gmap Z task;
  k_prios : gmap Z Z;
  k_q : gmap qhead (list Z);
  k_pl : gmap phead (list Z);
  k_tl : gmap bool (list Z);
  k_ml : gmap Z (list Z);
  k_sems : gmap Z sem;
  k_mtxs : gmap Z mtx;
  k_evs : gmap Z Z;
  k_conds : gset Z;
  k_fifos : gmap Z fifo;
  k_mem : gmap Z Z;
  k_sched_lock : Z;
  k_critical_count : Z;
  k_pwait : bool;
  k_jiffies : Z;
  k_jiffies_skipped : Z;
  k_ndeleted : Z;
  k_yield_pending : bool;
  k_currp : Z;
  k_schrun : bool;
  k_pendsv : bool;
  k_masked : bool;
  k_in_isr : bool;
  k_timer : systimer;
  k_cstats : cpu_stats;
  k_reent : Z;
  k_vt : vtimers
}.
Arguments KState {HS}.
Arguments k_heap {HS} _.
Arguments k_tasks {HS} _.
Arguments k_prios {HS} _.
Arguments k_q {HS} _.
Arguments k_pl {HS} _.
Arguments k_tl {HS} _.
Arguments k_ml {HS} _.
Arguments k_sems {HS} _.
Arguments k_mtxs {HS} _.
Arguments k_evs {HS} _.
Arguments k_conds {HS} _.
Arguments k_fifos {HS} _.
Arguments k_mem {HS} _.
Arguments k_sched_lock {HS} _.
Arguments k_critical_count {HS} _.
Arguments k_pwait {HS} _.
Arguments k_jiffies {HS} _.
Arguments k_jiffies_skipped {HS} _.
Arguments k_ndeleted {HS} _.
Arguments k_yield_pending {HS} _.
Arguments k_currp {HS} _.
Arguments k_schrun {HS} _.
Arguments k_pendsv {HS} _.
Arguments k_masked {HS} _.
Arguments k_in_isr {HS} _.
Arguments k_timer {HS} _.
Arguments k_cstats {HS} _.
Arguments k_reent {HS} _.
Arguments k_vt {HS} _.

Definition upd_heap {HS} (f : HS -> HS) (s : kstate HS) : kstate HS :=
  KState (f (k_heap s)) (k_tasks s) (k_prios s) (k_q s) (k_pl s) (k_tl s) (k_ml s) (k_sems s) (k_mtxs s) (k_evs s) (k_conds s) (k_fifos s) (k_mem s) (k_sched_lock s) (k_critical_count s) (k_pwait s) (k_jiffies s) (k_jiffies_skipped s) (k_ndeleted s) (k_yield_pending s) (k_currp s) (k_schrun s) (k_pendsv s) (k_masked s) (k_in_isr s) (k_timer s) (k_cstats s) (k_reent s) (k_vt s).
Definition upd_tasks {HS} (f : gmap Z task -> gmap Z task) (s : kstate HS) : kstate HS :=
  KState (k_heap s) (f (k_tasks s)) (k_prios s) (k_q s) (k_pl s) (k_tl s) (k_ml s) (k_sems s) (k_mtxs s) (k_evs s) (k_conds s) (k_fifos s) (k_mem s) (k_sched_lock s) (k_critical_count s) (k_pwait s) (k_jiffies s) (k_jiffies_skipped s) (k_ndeleted s) (k_yield_pending s) (k_currp s) (k_schrun s) (k_pendsv s) (k_masked s) (k_in_isr s) (k_timer s) (k_cstats s) (k_reent s) (k_vt s).
Definition upd_prios {HS} (f : gmap Z Z -> gmap Z Z) (s : kstate HS) : kstate HS :=
  KState (k_heap s) (k_tasks s) (f (k_prios s)) (k_q s) (k_pl s) (k_tl s) (k_ml s) (k_sems s) (k_mtxs s) (k_evs s) (k_conds s) (k_fifos s) (k_mem s) (k_sched_lock s) (k_critical_count s) (k_pwait s) (k_jiffies s) (k_jiffies_skipped s) (k_ndeleted s) (k_yield_pending s) (k_currp s) (k_schrun s) (k_pendsv s) (k_masked s) (k_in_isr s) (k_timer s) (k_cstats s) (k_reent s) (k_vt s).
Definition upd_q {HS} (f : gmap qhead (list Z) -> gmap qhead (list Z)) (s : kstate HS) : kstate HS :=
  KState (k_heap s) (k_tasks s) (k_prios s) (f (k_q s)) (k_pl s) (k_tl s) (k_ml s) (k_sems s) (k_mtxs s) (k_evs s) (k_conds s) (k_fifos s) (k_mem s) (k_sched_lock s) (k_critical_count s) (k_pwait s) (k_jiffies s) (k_jiffies_skipped s) (k_ndeleted s) (k_yield_pending s) (k_currp s) (k_schrun s) (k_pendsv s) (k_masked s) (k_in_isr s) (k_timer s) (k_cstats s) (k_reent s) (k_vt s).
Definition upd_pl {HS} (f : gmap phead (list Z) -> gmap phead (list Z)) (s : kstate HS) : kstate HS :=
  KState (k_heap s) (k_tasks s) (k_prios s) (k_q s) (f (k_pl s)) (k_tl s) (k_ml s) (k_sems s) (k_mtxs s) (k_evs s) (k_conds s) (k_fifos s) (k_mem s) (k_sched_lock s) (k_critical_count s) (k_pwait s) (k_jiffies s) (k_jiffies_skipped s) (k_ndeleted s) (k_yield_pending s) (k_currp s) (k_schrun s) (k_pendsv s) (k_masked s) (k_in_isr s) (k_timer s) (k_cstats s) (k_reent s) (k_vt s).
Definition upd_tl {HS} (f : gmap bool (list Z) -> gmap bool (list Z)) (s : kstate HS) : kstate HS :=
  KState (k_heap s) (k_tasks s) (k_prios s) (k_q s) (k_pl s) (f (k_tl s)) (k_ml s) (k_sems s) (k_mtxs s) (k_evs s) (k_conds s) (k_fifos s) (k_mem s) (k_sched_lock s) (k_critical_count s) (k_pwait s) (k_jiffies s) (k_jiffies_skipped s) (k_ndeleted s) (k_yield_pending s) (k_currp s) (k_schrun s) (k_pendsv s) (k_masked s) (k_in_isr s) (k_timer s) (k_cstats s) (k_reent s) (k_vt s).
Definition upd_ml {HS} (f : gmap Z (list Z) -> gmap Z (list Z)) (s : kstate HS) : kstate HS :=
  KState (k_heap s) (k_tasks s) (k_prios s) (k_q s) (k_pl s) (k_tl s) (f (k_ml s)) (k_sems s) (k_mtxs s) (k_evs s) (k_conds s) (k_fifos s) (k_mem s) (k_sched_lock s) (k_critical_count s) (k_pwait s) (k_jiffies s) (k_jiffies_skipped s) (k_ndeleted s) (k_yield_pending s) (k_currp s) (k_schrun s) (k_pendsv s) (k_masked s) (k_in_isr s) (k_timer s) (k_cstats s) (k_reent s) (k_vt s).
Definition upd_sems {HS} (f : gmap Z sem -> gmap Z sem) (s : kstate HS) : kstate HS :=
  KState (k_heap s) (k_tasks s) (k_prios s) (k_q s) (k_pl s) (k_tl s) (k_ml s) (f (k_sems s)) (k_mtxs s) (k_evs s) (k_conds s) (k_fifos s) (k_mem s) (k_sched_lock s) (k_critical_count s) (k_pwait s) (k_jiffies s) (k_jiffies_skipped s) (k_ndeleted s) (k_yield_pending s) (k_currp s) (k_schrun s) (k_pendsv s) (k_masked s) (k_in_isr s) (k_timer s) (k_cstats s) (k_reent s) (k_vt s).
Definition upd_mtxs {HS} (f : gmap Z mtx -> gmap Z mtx) (s : kstate HS) : kstate HS :=
  KState (k_heap s) (k_tasks s) (k_prios s) (k_q s) (k_pl s) (k_tl s) (k_ml s) (k_sems s) (f (k_mtxs s)) (k_evs s) (k_conds s) (k_fifos s) (k_mem s) (k_sched_lock s) (k_critical_count s) (k_pwait s) (k_jiffies s) (k_jiffies_skipped s) (k_ndeleted s) (k_yield_pending s) (k_currp s) (k_schrun s) (k_pendsv s) (k_masked s) (k_in_isr s) (k_timer s) (k_cstats s) (k_reent s) (k_vt s).
Definition upd_evs {HS} (f : gmap Z Z -> gmap Z Z) (s : kstate HS) : kstate HS :=
  KState (k_heap s) (k_tasks s) (k_prios s) (k_q s) (k_pl s) (k_tl s) (k_ml s) (k_sems s) (k_mtxs s) (f (k_evs s)) (k_conds s) (k_fifos s) (k_mem s) (k_sched_lock s) (k_critical_count s) (k_pwait s) (k_jiffies s) (k_jiffies_skipped s) (k_ndeleted s) (k_yield_pending s) (k_currp s) (k_schrun s) (k_pendsv s) (k_masked s) (k_in_isr s) (k_timer s) (k_cstats s) (k_reent s) (k_vt s).
Definition upd_conds {HS} (f : gset Z -> gset Z) (s : kstate HS) : kstate HS :=
  KState (k_heap s) (k_tasks s) (k_prios s) (k_q s) (k_pl s) (k_tl s) (k_ml s) (k_sems s) (k_mtxs s) (k_evs s) (f (k_conds s)) (k_fifos s) (k_mem s) (k_sched_lock s) (k_critical_count s) (k_pwait s) (k_jiffies s) (k_jiffies_skipped s) (k_ndeleted s) (k_yield_pending s) (k_currp s) (k_schrun s) (k_pendsv s) (k_masked s) (k_in_isr s) (k_timer s) (k_cstats s) (k_reent s) (k_vt s).
Definition upd_fifos {HS} (f : gmap Z fifo -> gmap Z fifo) (s : kstate HS) : kstate HS :=
  KState (k_heap s) (k_tasks s) (k_prios s) (k_q s) (k_pl s) (k_tl s) (k_ml s) (k_sems s) (k_mtxs s) (k_evs s) (k_conds s) (f (k_fifos s)) (k_mem s) (k_sched_lock s) (k_critical_count s) (k_pwait s) (k_jiffies s) (k_jiffies_skipped s) (k_ndeleted s) (k_yield_pending s) (k_currp s) (k_schrun s) (k_pendsv s) (k_masked s) (k_in_isr s) (k_timer s) (k_cstats s) (k_reent s) (k_vt s).
Definition upd_mem {HS} (f : gmap Z Z -> gmap Z Z) (s : kstate HS) : kstate HS :=
  KState (k_heap s) (k_tasks s) (k_prios s) (k_q s) (k_pl s) (k_tl s) (k_ml s) (k_sems s) (k_mtxs s) (k_evs s) (k_conds s) (k_fifos s) (f (k_mem s)) (k_sched_lock s) (k_critical_count s) (k_pwait s) (k_jiffies s) (k_jiffies_skipped s) (k_ndeleted s) (k_yield_pending s) (k_currp s) (k_schrun s) (k_pendsv s) (k_masked s) (k_in_isr s) (k_timer s) (k_cstats s) (k_reent s) (k_vt s).
Definition upd_sched_lock {HS} (f : Z -> Z) (s : kstate HS) : kstate HS :=
  KState (k_heap s) (k_tasks s) (k_prios s) (k_q s) (k_pl s) (k_tl s) (k_ml s) (k_sems s) (k_mtxs s) (k_evs s) (k_conds s) (k_fifos s) (k_mem s) (f (k_sched_lock s)) (k_critical_count s) (k_pwait s) (k_jiffies s) (k_jiffies_skipped s) (k_ndeleted s) (k_yield_pending s) (k_currp s) (k_schrun s) (k_pendsv s) (k_masked s) (k_in_isr s) (k_timer s) (k_cstats s) (k_reent s) (k_vt s).
Definition upd_critical_count {HS} (f : Z -> Z) (s : kstate HS) : kstate HS :=
  KState (k_heap s) (k_tasks s) (k_prios s) (k_q s) (k_pl s) (k_tl s) (k_ml s) (k_sems s) (k_mtxs s) (k_evs s) (k_conds s) (k_fifos s) (k_mem s) (k_sched_lock s) (f (k_critical_count s)) (k_pwait s) (k_jiffies s) (k_jiffies_skipped s) (k_ndeleted s) (k_yield_pending s) (k_currp s) (k_schrun s) (k_pendsv s) (k_masked s) (k_in_isr s) (k_timer s) (k_cstats s) (k_reent s) (k_vt s).
Definition upd_pwait {HS} (f : bool -> bool) (s : kstate HS) : kstate HS :=
  KState (k_heap s) (k_tasks s) (k_prios s) (k_q s) (k_pl s) (k_tl s) (k_ml s) (k_sems s) (k_mtxs s) (k_evs s) (k_conds s) (k_fifos s) (k_mem s) (k_sched_lock s) (k_critical_count s) (f (k_pwait s)) (k_jiffies s) (k_jiffies_skipped s) (k_ndeleted s) (k_yield_pending s) (k_currp s) (k_schrun s) (k_pendsv s) (k_masked s) (k_in_isr s) (k_timer s) (k_cstats s) (k_reent s) (k_vt s).
Definition upd_jiffies {HS} (f : Z -> Z) (s : kstate HS) : kstate HS :=
  KState (k_heap s) (k_tasks s) (k_prios s) (k_q s) (k_pl s) (k_tl s) (k_ml s) (k_sems s) (k_mtxs s) (k_evs s) (k_conds s) (k_fifos s) (k_mem s) (k_sched_lock s) (k_critical_count s) (k_pwait s) (f (k_jiffies s)) (k_jiffies_skipped s) (k_ndeleted s) (k_yield_pending s) (k_currp s) (k_schrun s) (k_pendsv s) (k_masked s) (k_in_isr s) (k_timer s) (k_cstats s) (k_reent s) (k_vt s).
Definition upd_jiffies_skipped {HS} (f : Z -> Z) (s : kstate HS) : kstate HS :=
  KState (k_heap s) (k_tasks s) (k_prios s) (k_q s) (k_pl s) (k_tl s) (k_ml s) (k_sems s) (k_mtxs s) (k_evs s) (k_conds s) (k_fifos s) (k_mem s) (k_sched_lock s) (k_critical_count s) (k_pwait s) (k_jiffies s) (f (k_jiffies_skipped s)) (k_ndeleted s) (k_yield_pending s) (k_currp s) (k_schrun s) (k_pendsv s) (k_masked s) (k_in_isr s) (k_timer s) (k_cstats s) (k_reent s) (k_vt s).
Definition upd_ndeleted {HS} (f : Z -> Z) (s : kstate HS) : kstate HS :=
  KState (k_heap s) (k_tasks s) (k_prios s) (k_q s) (k_pl s) (k_tl s) (k_ml s) (k_sems s) (k_mtxs s) (k_evs s) (k_conds s) (k_fifos s) (k_mem s) (k_sched_lock s) (k_critical_count s) (k_pwait s) (k_jiffies s) (k_jiffies_skipped s) (f (k_ndeleted s)) (k_yield_pending s) (k_currp s) (k_schrun s) (k_pendsv s) (k_masked s) (k_in_isr s) (k_timer s) (k_cstats s) (k_reent s) (k_vt s).
Definition upd_yield_pending {HS} (f : bool -> bool) (s : kstate HS) : kstate HS :=
  KState (k_heap s) (k_tasks s) (k_prios s) (k_q s) (k_pl s) (k_tl s) (k_ml s) (k_sems s) (k_mtxs s) (k_evs s) (k_conds s) (k_fifos s) (k_mem s) (k_sched_lock s) (k_critical_count s) (k_pwait s) (k_jiffies s) (k_jiffies_skipped s) (k_ndeleted s) (f (k_yield_pending s)) (k_currp s) (k_schrun s) (k_pendsv s) (k_masked s) (k_in_isr s) (k_timer s) (k_cstats s) (k_reent s) (k_vt s).
Definition upd_currp {HS} (f : Z -> Z) (s : kstate HS) : kstate HS :=
  KState (k_heap s) (k_tasks s) (k_prios s) (k_q s) (k_pl s) (k_tl s) (k_ml s) (k_sems s) (k_mtxs s) (k_evs s) (k_conds s) (k_fifos s) (k_mem s) (k_sched_lock s) (k_critical_count s) (k_pwait s) (k_jiffies s) (k_jiffies_skipped s) (k_ndeleted s) (k_yield_pending s) (f (k_currp s)) (k_schrun s) (k_pendsv s) (k_masked s) (k_in_isr s) (k_timer s) (k_cstats s) (k_reent s) (k_vt s).
Definition upd_schrun {HS} (f : bool -> bool) (s : kstate HS) : kstate HS :=
  KState (k_heap s) (k_tasks s) (k_prios s) (k_q s) (k_pl s) (k_tl s) (k_ml s) (k_sems s) (k_mtxs s) (k_evs s) (k_conds s) (k_fifos s) (k_mem s) (k_sched_lock s) (k_critical_count s) (k_pwait s) (k_jiffies s) (k_jiffies_skipped s) (k_ndeleted s) (k_yield_pending s) (k_currp s) (f (k_schrun s)) (k_pendsv s) (k_masked s) (k_in_isr s) (k_timer s) (k_cstats s) (k_reent s) (k_vt s).
Definition upd_pendsv {HS} (f : bool -> bool) (s : kstate HS) : kstate HS :=
  KState (k_heap s) (k_tasks s) (k_prios s) (k_q s) (k_pl s) (k_tl s) (k_ml s) (k_sems s) (k_mtxs s) (k_evs s) (k_conds s) (k_fifos s) (k_mem s) (k_sched_lock s) (k_critical_count s) (k_pwait s) (k_jiffies s) (k_jiffies_skipped s) (k_ndeleted s) (k_yield_pending s) (k_currp s) (k_schrun s) (f (k_pendsv s)) (k_masked s) (k_in_isr s) (k_timer s) (k_cstats s) (k_reent s) (k_vt s).
Definition upd_masked {HS} (f : bool -> bool) (s : kstate HS) : kstate HS :=
  KState (k_heap s) (k_tasks s) (k_prios s) (k_q s) (k_pl s) (k_tl s) (k_ml s) (k_sems s) (k_mtxs s) (k_evs s) (k_conds s) (k_fifos s) (k_mem s) (k_sched_lock s) (k_critical_count s) (k_pwait s) (k_jiffies s) (k_jiffies_skipped s) (k_ndeleted s) (k_yield_pending s) (k_currp s) (k_schrun s) (k_pendsv s) (f (k_masked s)) (k_in_isr s) (k_timer s) (k_cstats s) (k_reent s) (k_vt s).
Definition upd_in_isr {HS} (f : bool -> bool) (s : kstate HS) : kstate HS :=
  KState (k_heap s) (k_tasks s) (k_prios s) (k_q s) (k_pl s) (k_tl s) (k_ml s) (k_sems s) (k_mtxs s) (k_evs s) (k_conds s) (k_fifos s) (k_mem s) (k_sched_lock s) (k_critical_count s) (k_pwait s) (k_jiffies s) (k_jiffies_skipped s) (k_ndeleted s) (k_yield_pending s) (k_currp s) (k_schrun s) (k_pendsv s) (k_masked s) (f (k_in_isr s)) (k_timer s) (k_cstats s) (k_reent s) (k_vt s).
Definition upd_timer {HS} (f : systimer -> systimer) (s : kstate HS) : kstate HS :=
  KState (k_heap s) (k_tasks s) (k_prios s) (k_q s) (k_pl s) (k_tl s) (k_ml s) (k_sems s) (k_mtxs s) (k_evs s) (k_conds s) (k_fifos s) (k_mem s) (k_sched_lock s) (k_critical_count s) (k_pwait s) (k_jiffies s) (k_jiffies_skipped s) (k_ndeleted s) (k_yield_pending s) (k_currp s) (k_schrun s) (k_pendsv s) (k_masked s) (k_in_isr s) (f (k_timer s)) (k_cstats s) (k_reent s) (k_vt s).
Definition upd_cstats {HS} (f : cpu_stats -> cpu_stats) (s : kstate HS) : kstate HS :=
  KState (k_heap s) (k_tasks s) (k_prios s) (k_q s) (k_pl s) (k_tl s) (k_ml s) (k_sems s) (k_mtxs s) (k_evs s) (k_conds s) (k_fifos s) (k_mem s) (k_sched_lock s) (k_critical_count s) (k_pwait s) (k_jiffies s) (k_jiffies_skipped s) (k_ndeleted s) (k_yield_pending s) (k_currp s) (k_schrun s) (k_pendsv s) (k_masked s) (k_in_isr s) (k_timer s) (f (k_cstats s)) (k_reent s) (k_vt s).
Definition upd_reent {HS} (f : Z -> Z) (s : kstate HS) : kstate HS :=
  KState (k_heap s) (k_tasks s) (k_prios s) (k_q s) (k_pl s) (k_tl s) (k_ml s) (k_sems s) (k_mtxs s) (k_evs s) (k_conds s) (k_fifos s) (k_mem s) (k_sched_lock s) (k_critical_count s) (k_pwait s) (k_jiffies s) (k_jiffies_skipped s) (k_ndeleted s) (k_yield_pending s) (k_currp s) (k_schrun s) (k_pendsv s) (k_masked s) (k_in_isr s) (k_timer s) (k_cstats s) (f (k_reent s)) (k_vt s).
Definition upd_vt {HS} (f : vtimers -> vtimers) (s : kstate HS) : kstate HS :=
  KState (k_heap s) (k_tasks s) (k_prios s) (k_q s) (k_pl s) (k_tl s) (k_ml s) (k_sems s) (k_mtxs s) (k_evs s) (k_conds s) (k_fifos s) (k_mem s) (k_sched_lock s) (k_critical_count s) (k_pwait s) (k_jiffies s) (k_jiffies_skipped s) (k_ndeleted s) (k_yield_pending s) (k_currp s) (k_schrun s) (k_pendsv s) (k_masked s) (k_in_isr s) (k_timer s) (k_cstats s) (k_reent s) (f (k_vt s)).

(** ** Accessors

    Reading or writing an object that is not at the address is a [Fault]. *)

Abbreviation K HS := (M (kstate HS)).

Section Access.
Context {HS : Type}.

Definition task_get (t : Z) : K HS task := ts <- gets k_tasks;; of_option (ts !! t).
Definition task_upd (t : Z) (f : task -> task) : K HS unit :=
  o <- task_get t;; modify (upd_tasks (insert t (f o))).

Definition sem_get (a : Z) : K HS sem := m <- gets k_sems;; of_option (m !! a).
Definition sem_upd (a : Z) (f : sem -> sem) : K HS unit :=
  o <- sem_get a;; modify (upd_sems (insert a (f o))).

Definition mtx_get (a : Z) : K HS mtx := m <- gets k_mtxs;; of_option (m !! a).
Definition mtx_upd (a : Z) (f : mtx -> mtx) : K HS unit :=
  o <- mtx_get a;; modify (upd_mtxs (insert a (f o))).

Definition ev_get (a : Z) : K HS Z := m <- gets k_evs;; of_option (m !! a).
Definition ev_set (a bits : Z) : K HS unit :=
  _ <- ev_get a;; modify (upd_evs (insert a bits)).

Definition fifo_get (a : Z) : K HS fifo := m <- gets k_fifos;; of_option (m !! a).
Definition fifo_upd (a : Z) (f : fifo -> fifo) : K HS unit :=
  o <- fifo_get a;; modify (upd_fifos (insert a (f o))).

Definition prio_get (p : Z) : K HS Z := m <- gets k_prios;; of_option (m !! p).
Definition prio_set (p v : Z) : K HS unit := _ <- prio_get p;; modify (upd_prios (insert p v)).

(** Lists of tasks, through [inode]. *)
Definition q_list (h : qhead) : K HS (list Z) := q <- gets k_q;; of_option (q !! h).
Definition q_store (f : gmap qhead (list Z) -> option (gmap qhead (list Z))) : K HS unit :=
  q <- gets k_q;; q' <- of_option (f q);; modify (upd_q (fun _ => q')).
Definition q_init (h : qhead) : K HS unit := modify (upd_q (insert h [])).
Definition q_delete (t : Z) : K HS unit := q_store (seq_delete t).
Definition q_insert_end (h : qhead) (t : Z) : K HS unit := q_store (seq_insert_end h t).

(** Lists of priority elements, through [task_ready_t.inode]. *)
Definition pl_list (h : phead) : K HS (list Z) := q <- gets k_pl;; of_option (q !! h).
Definition pl_store (f : gmap phead (list Z) -> option (gmap phead (list Z))) : K HS unit :=
  q <- gets k_pl;; q' <- of_option (f q);; modify (upd_pl (fun _ => q')).
Definition pl_init (h : phead) : K HS unit := modify (upd_pl (insert h [])).
Definition pl_delete (p : Z) : K HS unit := pl_store (seq_delete p).
Definition pl_insert_end (h : phead) (p : Z) : K HS unit := pl_store (seq_insert_end h p).

(** The two time lists, through [inode_time]. *)
Definition tl_list (i : bool) : K HS (list Z) := q <- gets k_tl;; of_option (q !! i).
Definition tl_store (f : gmap bool (list Z) -> option (gmap bool (list Z))) : K HS unit :=
  q <- gets k_tl;; q' <- of_option (f q);; modify (upd_tl (fun _ => q')).
Definition tl_init (i : bool) : K HS unit := modify (upd_tl (insert i [])).
Definition tl_delete (t : Z) : K HS unit := tl_store (seq_delete t).
Definition tl_assigned (t : Z) : K HS bool := gets (fun s => seq_linked t (k_tl s)).

(** Lists of owned mutexes, through [isix_mutex.inode]. *)
Definition ml_list (t : Z) : K HS (list Z) := q <- gets k_ml;; of_option (q !! t).
Definition ml_store (f : gmap Z (list Z) -> option (gmap Z (list Z))) : K HS unit :=
  q <- gets k_ml;; q' <- of_option (f q);; modify (upd_ml (fun _ => q')).
Definition ml_init (t : Z) : K HS unit := modify (upd_ml (insert t [])).
Definition ml_delete (m : Z) : K HS unit := ml_store (seq_delete m).
Definition ml_assigned (m : Z) : K HS bool := gets (fun s => seq_linked m (k_ml s)).
Definition ml_insert_first (t m : Z) : K HS unit := ml_store (seq_insert_first t m).

(** The union [obj]: a message is stored as the 32-bit word of an [int]. *)
Definition set_dmsg (msg : Z) : task -> task := set_t_obj (u32 msg).
Definition t_dmsg (o : task) : Z := i32 (t_obj o).

(** [for( x : l ) m( x )] *)
Fixpoint for_each {A} (l : list A) (m : A -> K HS unit) : K HS unit :=
  match l with
  | [] => ret tt
  | x :: l' => m x;;; for_each l' m
  end.
End Access.

(** ** Bytes of memory *)

Fixpoint mem_write (a : Z) (bs : list Z) (m : gmap Z Z) : gmap Z Z :=
  match bs with
  | [] => m
  | b :: bs => mem_write (a + 1) bs (<[a := b]> m)
  end.

(** [None] when a byte of the range has never been written. *)
Fixpoint mem_read (a : Z) (n : nat) (m : gmap Z Z) : option (list Z) :=
  match n with
  | O => Some []
  | S n => b ← m !! a; bs ← mem_read (a + 1) n m; Some (b :: bs)
  end.

(** A 32-bit word in memory order (little endian). *)
Definition word_bytes (w : Z) : list Z :=
  [w mod 256; w / 256 mod 256; w / 65536 mod 256; w / 16777216 mod 256].

(** The 32-bit word at offset [o]. *)
Definition word_at (o : nat) (bs : list Z) : Z :=
  nth o bs 0 + 256 * nth (o + 1) bs 0 + 65536 * nth (o + 2) bs 0 + 16777216 * nth (o + 3) bs 0.

(** [memset] *)
Definition mem_fill (a b : Z) (n : nat) (m : gmap Z Z) : gmap Z Z := mem_write a (replicate n b) m.

(** ** Sizes ([_isixp_align_size] of prv/common.h) *)

Definition ISIX_BYTE_ALIGNMENT_SIZE : Z := 8.

Definition _isixp_align_size (len : Z) : Z :=
  let r := Z.land len (ISIX_BYTE_ALIGNMENT_SIZE - 1) in
  if negb (r =? 0) then u32 (len + ISIX_BYTE_ALIGNMENT_SIZE - r) else len.

(** ** Counting semaphore word (libisix/arch/arm/include/isix/arch/sem_atomic.h) *)

Definition atomic_sem_dec (v : Z) : Z := i32 (v - 1).

(** New value and result of [_isix_port_atomic_sem_trydec]. *)
Definition atomic_sem_trydec (v : Z) : Z * Z :=
  let val := i32 (v - 1) in
  ((if val <? 0 then i32 (val + 1) else val), v).

Definition atomic_sem_inc (limit v : Z) : Z :=
  let val := i32 (v + 1) in
  if (0 <? limit) && (limit <? val) then limit else val.

Definition atomic_sem_write_val (limit val : Z) : Z :=
  let val := if 0 <? limit then (if limit <? val then limit else val) else val in
  if val <? 0 then 0 else val.
