(* ===== verification/Memory.v ===== *)
(** * Bytes and words of memory

    Reading what has been written, and what has not been touched. *)

From S2P Require Import Prelude.
From S2P Require Import Kernel.
From stdpp Require Import base numbers gmap list.
From Stdlib Require Import ZArith Lia.
Local Open Scope Z_scope.

Lemma mem_write_other bs : forall a m x,
  x < a \/ a + Z.of_nat (length bs) <= x -> mem_write a bs m !! x = m !! x.
Proof.
  induction bs as [|b bs IH]; intros a m x Hx; simpl in *; [done|].
  rewrite IH by lia. by rewrite lookup_insert_ne by lia.
Qed.

Lemma mem_read_ext n : forall a m m',
  (forall x, a <= x < a + Z.of_nat n -> m' !! x = m !! x) -> mem_read a n m' = mem_read a n m.
Proof.
  induction n as [|n IH]; intros a m m' H; simpl; [done|].
  rewrite H by lia. rewrite (IH (a + 1) m m') by (intros; apply H; lia). done.
Qed.

Lemma mem_read_write bs : forall a m, mem_read a (length bs) (mem_write a bs m) = Some bs.
Proof.
  induction bs as [|b bs IH]; intros a m; simpl; [done|].
  rewrite mem_write_other by lia. rewrite lookup_insert_eq. simpl. by rewrite IH.
Qed.

Lemma mem_read_write_other a n c bs m :
  a + Z.of_nat n <= c \/ c + Z.of_nat (length bs) <= a ->
  mem_read a n (mem_write c bs m) = mem_read a n m.
Proof. intros H. apply mem_read_ext. intros x Hx. apply mem_write_other. lia. Qed.

Lemma word_at_bytes w o l1 l2 :
  in_u32 w -> length l1 = o -> word_at o (l1 ++ word_bytes w ++ l2) = w.
Proof.
  intros Hw <-. unfold word_at, word_bytes, in_u32 in *.
  rewrite !app_nth2_plus. rewrite <- (Nat.add_0_r (length l1)) at 1. rewrite app_nth2_plus. simpl.
  pose proof (Z.div_mod w 256 ltac:(lia)). pose proof (Z.div_mod (w / 256) 256 ltac:(lia)).
  pose proof (Z.div_mod (w / 256 / 256) 256 ltac:(lia)).
  assert (w / 65536 = w / 256 / 256) as -> by (by rewrite Z.div_div).
  assert (w / 16777216 = w / 256 / 256 / 256) as -> by (by rewrite !Z.div_div).
  rewrite (Z.mod_small (w / 256 / 256 / 256)); [lia|].
  split; [repeat apply Z.div_pos; lia|]. rewrite !Z.div_div by lia. apply Z.div_lt_upper_bound; lia.
Qed.

Lemma word_at_word w : in_u32 w -> word_at 0 (word_bytes w) = w.
Proof. intros Hw. pose proof (word_at_bytes w 0 [] [] Hw eq_refl) as H. by rewrite app_nil_r in H. Qed.

(** ** Words one after the other *)

Definition words_bytes (ws : list Z) : list Z := ws ≫= word_bytes.

Fixpoint load_words (a : Z) (n : nat) (m : gmap Z Z) : option (list Z) :=
  match n with
  | O => Some []
  | S n => bs ← mem_read a 4 m; ws ← load_words (a + 4) n m; Some (word_at 0 bs :: ws)
  end.

Definition store_words (a : Z) (ws : list Z) (m : gmap Z Z) : gmap Z Z := mem_write a (words_bytes ws) m.

Lemma words_bytes_length ws : length (words_bytes ws) = (4 * length ws)%nat.
Proof. unfold words_bytes. induction ws as [|w ws IH]; [done|]. cbn [mbind list_bind]. rewrite length_app, IH. simpl. lia. Qed.

Lemma store_words_other a ws m x : x < a \/ a + 4 * Z.of_nat (length ws) <= x -> store_words a ws m !! x = m !! x.
Proof. intros Hx. apply mem_write_other. rewrite words_bytes_length. lia. Qed.

Lemma load_words_ext n : forall a m m',
  (forall x, a <= x < a + 4 * Z.of_nat n -> m' !! x = m !! x) -> load_words a n m' = load_words a n m.
Proof.
  induction n as [|n IH]; intros a m m' H; [done|]. cbn [load_words]. rewrite (mem_read_ext 4 a m m') by (intros; apply H; lia).
  rewrite (IH (a + 4) m m') by (intros; apply H; lia). done.
Qed.

Lemma mem_write_app bs1 bs2 : forall a m,
  mem_write a (bs1 ++ bs2) m = mem_write (a + Z.of_nat (length bs1)) bs2 (mem_write a bs1 m).
Proof.
  induction bs1 as [|b bs1 IH]; intros a m; simpl; [by rewrite Z.add_0_r|].
  rewrite IH. f_equal. lia.
Qed.

Lemma load_words_store ws : forall a m, Forall in_u32 ws -> load_words a (length ws) (store_words a ws m) = Some ws.
Proof.
  induction ws as [|w ws IH]; intros a m Hw; [done|]. apply Forall_cons in Hw as [Hw Hws].
  assert (store_words a (w :: ws) m = store_words (a + 4) ws (mem_write a (word_bytes w) m)) as -> by (apply (mem_write_app (word_bytes w) (words_bytes ws))).
  cbn [load_words length]. rewrite (mem_read_ext 4 a (mem_write a (word_bytes w) m)) by (intros x Hx; apply store_words_other; lia).
  change 4%nat with (length (word_bytes w)). rewrite mem_read_write. cbn [mbind option_bind].
  rewrite IH by done. simpl. by rewrite word_at_word.
Qed.

Lemma load_words_store_other a n c ws m :
  a + 4 * Z.of_nat n <= c \/ c + 4 * Z.of_nat (length ws) <= a -> load_words a n (store_words c ws m) = load_words a n m.
Proof. intros H. apply load_words_ext. intros x Hx. apply store_words_other. lia. Qed.

Lemma load_words_length n : forall a m ws, load_words a n m = Some ws -> length ws = n.
Proof.
  induction n as [|n IH]; intros a m ws; simpl; [by intros [= <-]|].
  intros (bs & _ & (ws' & Hws & [= <-])%bind_Some)%bind_Some. simpl. f_equal. by eapply IH.
Qed.

Lemma load_words_cons a n w m ws :
  in_u32 w -> mem_read a 4 m = Some (word_bytes w) -> load_words (a + 4) n m = Some ws -> load_words a (S n) m = Some (w :: ws).
Proof. intros Hw Hr Hl. cbn [load_words]. rewrite Hr. cbn [mbind option_bind]. rewrite Hl. simpl. by rewrite word_at_word. Qed.

Lemma load_words_app n1 n2 m ws2 : forall a ws1,
  load_words a n1 m = Some ws1 -> load_words (a + 4 * Z.of_nat n1) n2 m = Some ws2 -> load_words a (n1 + n2) m = Some (ws1 ++ ws2).
Proof.
  induction n1 as [|n1 IH]; intros a ws1 H1 H2.
  - injection H1 as <-. by rewrite Z.add_0_r in H2.
  - apply bind_Some in H1 as (bs & Hb & (ws & Hws & [= <-])%bind_Some). cbn [Nat.add load_words]. rewrite Hb. cbn [mbind option_bind].
    rewrite (IH (a + 4) ws Hws); [done|]. rewrite <- H2. f_equal. lia.
Qed.

(** ** Memory filled with one byte *)

Lemma mem_read_replicate b n : forall a m,
  (forall x, a <= x < a + Z.of_nat n -> m !! x = Some b) -> mem_read a n m = Some (replicate n b).
Proof.
  induction n as [|n IH]; intros a m H; [done|]. simpl. rewrite H by lia. simpl. rewrite IH by (intros; apply H; lia). done.
Qed.

Lemma mem_fill_inside b n : forall a m x, a <= x < a + Z.of_nat n -> mem_fill a b n m !! x = Some b.
Proof.
  unfold mem_fill. induction n as [|n IH]; intros a m x Hx; [lia|]. simpl. destruct (decide (x = a)) as [->|Hne]; [|apply IH; lia].
  rewrite mem_write_other by lia. apply lookup_insert_eq.
Qed.

Lemma mem_read_fill a b n c k m : c <= a -> a + Z.of_nat k <= c + Z.of_nat n -> mem_read a k (mem_fill c b n m) = Some (replicate k b).
Proof. intros H1 H2. apply mem_read_replicate. intros x Hx. apply mem_fill_inside. lia. Qed.
