(* ===== verification/Scheduler.v ===== *)
(** * The scheduler (libisix/kernel/scheduler.c)

    Ready lists, time lists, context switch, tick processing, tickless idle and
    the wake-up and sleep primitives the IPC objects are built on.  The model
    follows the build with CONFIG_ISIX_TICKLESS and CONFIG_ISIX_CPU_USAGE_API,
    without the shutdown API and the test hooks; with the tickless timer in
    [st_off] the tickless branches do nothing. *)

From S2P Require Import Prelude.
From S2P Require Import DList.
From S2P Require Import Systimer.
From S2P Require Import OsStats.
From S2P Require Import Kernel.
From stdpp Require Import base gmap list strings.
From Stdlib Require Import ZArith Lia.
Local Open Scope Z_scope.

Section Scheduler.
Context {HS : Type} {AL : Allocator HS}.

Local Abbreviation KM := (K HS).

(** ** Priorities *)

Definition isix_get_min_priority : Z := CONFIG_ISIX_NUMBER_OF_PRIORITIES - 1.

Definition _isixp_prio_gt (p1 p2 : Z) : bool := p1 <? p2.

Definition _isixp_is_idle_prio (p : Z) : bool := p =? CONFIG_ISIX_NUMBER_OF_PRIORITIES.

(** The task with the higher priority, [t1] when they are equal. *)
Definition _isixp_max_prio (t1 t2 : Z) : KM Z :=
  o1 <- task_get t1;; o2 <- task_get t2;;
  ret (if t_prio o2 <? t_prio o1 then t2 else t1).

(** ** Critical section and context switch request *)

Definition isix_get_jiffies : KM Z := gets k_jiffies.

Definition _isix_port_yield : KM unit := modify (upd_pendsv (fun _ => true)).

Definition isix_yield : KM unit := run <- gets k_schrun;; when run _isix_port_yield.

Definition isix_enter_critical : KM unit :=
  modify (upd_masked (fun _ => true));;;
  res <- gets k_critical_count;;
  modify (upd_critical_count (fun c => c + 1));;;
  if res <? 0 then panic "Invalid lock count" else ret tt.

Definition isix_exit_critical : KM unit :=
  res <- gets k_critical_count;;
  modify (upd_critical_count (fun c => c - 1));;;
  if res <=? 0 then panic "Invalid lock count"
  else when (res =? 1) (modify (upd_masked (fun _ => false))).

(** ** Ready list *)

Definition alloc_task_ready_t : KM Z :=
  l <- pl_list PFree;;
  match l with
  | [] => panic "Priority list not available"
  | prio :: _ => pl_delete prio;;; prio_set prio 0;;; ret prio
  end.

Definition free_task_ready_t (prio : Z) : KM unit := pl_insert_end PFree prio.

(** The walk along the ready list: the element of priority [p], if the walk meets
    it before an element of lower priority. *)
Fixpoint find_ready_prio (prio_of : Z -> option Z) (p : Z) (l : list Z) : option Z :=
  match l with
  | [] => None
  | e :: l' =>
      match prio_of e with
      | Some pe => if pe =? p then Some e
                   else if _isixp_prio_gt p pe then None
                   else find_ready_prio prio_of p l'
      | None => None
      end
  end.

Definition prio_lower (prios : gmap Z Z) (p e : Z) : bool :=
  match prios !! e with Some pe => _isixp_prio_gt p pe | None => false end.

(** The task joins the list of an element that is in use. *)
Definition add_to_prio_elem (t prio_i : Z) : KM unit :=
  task_upd t (set_t_prio_elem prio_i);;;
  q_insert_end (QPrio prio_i) t.

(** The task starts the list of a new element, which is linked before the first
    element of lower priority. *)
Definition add_new_prio_elem (t p : Z) : KM unit :=
  prio_n <- alloc_task_ready_t;;
  prio_set prio_n p;;;
  task_upd t (set_t_prio_elem prio_n);;;
  q_init (QPrio prio_n);;;
  q_insert_end (QPrio prio_n) t;;;
  prios <- gets k_prios;;
  pl_store (seq_insert_before_first (prio_lower prios p) PReady prio_n).

Definition add_ready_list (t : Z) : KM unit :=
  o <- task_get t;;
  if CONFIG_ISIX_NUMBER_OF_PRIORITIES <? t_prio o then panic "Invalid task priority" else
  if bool_decide (t_state o = OSTHR_STATE_READY \/ t_state o = OSTHR_STATE_ZOMBIE)
  then panic "add: in READY or ZOMBIE state" else
  task_upd t (set_t_state OSTHR_STATE_READY);;;
  ready <- pl_list PReady;;
  prios <- gets k_prios;;
  match find_ready_prio (fun e => prios !! e) (t_prio o) ready with
  | Some prio_i => add_to_prio_elem t prio_i
  | None => add_new_prio_elem t (t_prio o)
  end.

Definition delete_from_ready_list (t : Z) : KM unit :=
  q_delete t;;;
  o <- task_get t;;
  l <- q_list (QPrio (t_prio_elem o));;
  match l with
  | [] => pl_delete (t_prio_elem o);;; free_task_ready_t (t_prio_elem o)
  | _ :: _ => ret tt
  end.

(** ** Time lists *)

Definition task_later (tasks : gmap Z task) (j t : Z) : bool :=
  match tasks !! t with Some o => j <? t_jiffies o | None => false end.

Definition add_task_to_waiting_list (t timeout : Z) : KM unit :=
  jiffies <- gets k_jiffies;;
  let deadline := u32 (jiffies + timeout) in
  task_upd t (set_t_jiffies deadline);;;
  tasks <- gets k_tasks;;
  pw <- gets k_pwait;;
  tl_store (seq_insert_before_first (task_later tasks deadline)
              (if deadline <? jiffies then negb pw else pw) t).

(** ** Priority queues of the IPC objects *)

Definition task_lower (tasks : gmap Z task) (p t : Z) : bool :=
  match tasks !! t with Some o => _isixp_prio_gt p (t_prio o) | None => false end.

Definition _isixp_add_to_prio_queue (h : qhead) (t : Z) : KM unit :=
  o <- task_get t;;
  tasks <- gets k_tasks;;
  q_store (seq_insert_before_first (task_lower tasks (t_prio o)) h t).

(** NULL when the queue is empty. *)
Definition _isixp_remove_from_prio_queue (h : qhead) : KM Z :=
  l <- q_list h;;
  match l with
  | [] => ret NULL
  | t :: _ => q_delete t;;; ret t
  end.

Definition _isixp_sem_fast_signal (s : Z) : KM unit :=
  sem_upd s (fun o => set_s_value (atomic_sem_inc (s_limit o) (s_value o)) o).

(** ** Tick processing *)

(** Body of the loop of [expire_waiting_tasks] for the first task of the list. *)
Definition expire_task (t : Z) : KM unit :=
  tl_delete t;;;
  o <- task_get t;;
  (match t_state o with
   | OSTHR_STATE_WTSEM =>
       q_delete t;;;
       _isixp_sem_fast_signal (t_obj o);;;
       task_upd t (set_dmsg ISIX_ETIMEOUT)
   | OSTHR_STATE_WTEVT | OSTHR_STATE_WTCOND =>
       q_delete t;;;
       task_upd t (set_dmsg ISIX_ETIMEOUT)
   | _ => ret tt
   end);;;
  add_ready_list t.

(** Each round takes one task off the list, so the length of the list bounds the
    number of rounds. *)
Fixpoint expire_loop (fuel : nat) (jiffies : Z) : KM unit :=
  match fuel with
  | O => fault
  | S fuel =>
      pw <- gets k_pwait;;
      l <- tl_list pw;;
      match l with
      | [] => ret tt
      | t :: _ =>
          o <- task_get t;;
          if t_jiffies o <=? jiffies
          then expire_task t;;; expire_loop fuel jiffies
          else ret tt
      end
  end.

Definition expire_waiting_tasks (jiffies : Z) : KM unit :=
  pw <- gets k_pwait;;
  l <- tl_list pw;;
  expire_loop (S (length l)) jiffies.

Definition expire_if_running (jiffies : Z) : KM unit :=
  run <- gets k_schrun;; when run (expire_waiting_tasks jiffies).

(** One round of the loop of [advance_jiffies]; the result is the number of ticks
    left for the next round. *)
Definition advance_round (ticks : Z) : KM Z :=
  now <- gets k_jiffies;;
  let to_wrap := ISIX_TIME_MAX_TICK - now + 1 in
  if ticks <? to_wrap then
    modify (upd_jiffies (fun j => u32 (j + ticks)));;;
    expire_if_running (u32 (now + ticks));;;
    ret 0
  else
    when (1 <? to_wrap)
      (modify (upd_jiffies (fun j => u32 (j + (to_wrap - 1))));;;
       expire_if_running ISIX_TIME_MAX_TICK);;;
    modify (upd_jiffies (fun j => u32 (j + 1)));;;
    run <- gets k_schrun;;
    when run (modify (upd_pwait negb);;; expire_waiting_tasks 0);;;
    ret (u32 (ticks - u32 to_wrap)).

(** The tick count is below 2^32, so the counter wraps at most once and two rounds
    are enough. *)
Fixpoint advance_loop (fuel : nat) (ticks : Z) : KM unit :=
  if 0 <? ticks then
    match fuel with
    | O => fault
    | S fuel => ticks <- advance_round ticks;; advance_loop fuel ticks
    end
  else ret tt.

Definition advance_jiffies (ticks : Z) : KM unit := advance_loop 2 ticks.

(** ** Scheduler lock *)

Definition _isixp_lock_scheduler : KM unit :=
  modify (upd_sched_lock (atomic_sem_inc 0)).

Definition _isixp_unlock_scheduler : KM unit :=
  modify (upd_sched_lock atomic_sem_dec);;;
  lock_count <- gets k_sched_lock;;
  if lock_count <? 0 then panic "Scheduler unlock without lock"
  else when (lock_count =? 0)
    (isix_enter_critical;;;
     skipped <- gets k_jiffies_skipped;;
     modify (upd_jiffies_skipped (fun _ => 0));;;
     when (0 <? skipped) (advance_jiffies (u32 skipped));;;
     pending <- gets k_yield_pending;;
     when pending (_isix_port_yield;;; modify (upd_yield_pending (fun _ => false)));;;
     isix_exit_critical).

(** ** Heap access under the scheduler lock (kernel/mm/malloc/memlock.h) *)

Definition mm_lock_lock : KM unit :=
  isr <- gets k_in_isr;;
  if isr then panic "memory allocator called from interrupt context" else
  run <- gets k_schrun;;
  when run _isixp_lock_scheduler.

Definition mm_lock_unlock : KM unit :=
  isr <- gets k_in_isr;;
  if isr then panic "memory allocator called from interrupt context" else
  run <- gets k_schrun;;
  when run _isixp_unlock_scheduler.

Definition isix_alloc (size : Z) : KM Z :=
  mm_lock_lock;;;
  h <- gets k_heap;;
  let '(p, h') := heap_alloc size h in
  modify (upd_heap (fun _ => h'));;;
  mm_lock_unlock;;;
  ret p.

Definition isix_free (p : Z) : KM unit :=
  mm_lock_lock;;;
  modify (upd_heap (heap_free p));;;
  mm_lock_unlock.

(** The block of a task control block goes back to the heap; the object and the
    list heads in it are gone. *)
Definition free_task (t : Z) : KM unit :=
  isix_free t;;;
  modify (upd_tasks (delete t));;;
  modify (upd_q (delete (QExit t)));;;
  modify (upd_ml (delete t)).

(** ** Context switch *)

Definition reschedule_current : KM unit :=
  cur <- gets k_currp;;
  o <- task_get cur;;
  when (bool_decide (t_state o = OSTHR_STATE_RUNNING))
    (linked <- gets (fun s => seq_linked cur (k_q s));;
     if negb linked then panic "RUNNING task inode is not linked" else
     q_delete cur;;;
     q_insert_end (QPrio (t_prio_elem o)) cur;;;
     task_upd cur (set_t_state OSTHR_STATE_READY)).

Definition select_first_ready : KM unit :=
  ready <- pl_list PReady;;
  match ready with
  | [] => fault
  | curr_prio :: _ =>
      l <- q_list (QPrio curr_prio);;
      match l with
      | [] => fault
      | t :: _ =>
          modify (upd_currp (fun _ => t));;;
          o <- task_get t;;
          if bool_decide (t_state o = OSTHR_STATE_READY) then
            task_upd t (set_t_state OSTHR_STATE_RUNNING);;;
            now <- gets k_jiffies;;
            modify (upd_cstats
              (_isixp_schedule_update_statistics now (_isixp_is_idle_prio (t_prio o))));;;
            modify (upd_reent (fun _ => t_impure o));;;
            prio <- prio_get curr_prio;;
            if t_prio o =? prio then ret tt
            else panic "Task priority doesn't match to element priority"
          else panic "Not in READY state. Mem corrupted?"
      end
  end.

Definition _isixp_schedule : KM unit :=
  count <- gets k_critical_count;;
  if count <? 0 then panic "Critical count fail" else
  lock <- gets k_sched_lock;;
  if negb (lock =? 0) then modify (upd_yield_pending (fun _ => true)) else
  reschedule_current;;;
  select_first_ready.

(** ** Tickless idle *)

Definition systimer_resync : KM Z :=
  t <- gets k_timer;;
  let '(n, t') := _isix_port_systimer_resync t in
  modify (upd_timer (fun _ => t'));;; ret n.

Definition systimer_set_timeout (timeout : Z) : KM Z :=
  t <- gets k_timer;;
  let '(n, t') := _isix_port_systimer_set_timeout timeout t in
  modify (upd_timer (fun _ => t'));;; ret n.

Definition catch_up_missed_ticks (elapsed : Z) : KM unit :=
  run <- gets k_schrun;;
  if (elapsed =? 0) || negb run then ret tt else
  lock <- gets k_sched_lock;;
  if negb (lock =? 0)
  then modify (upd_jiffies_skipped (fun j => i32 (j + elapsed)))
  else advance_jiffies elapsed.

Definition can_enter_tickless_sleep : KM bool :=
  lock <- gets k_sched_lock;;
  if negb (lock =? 0) then ret false else
  ready <- pl_list PReady;;
  busy <- (match ready with
           | [] => ret false
           | e :: _ => p <- prio_get e;; ret (p <? CONFIG_ISIX_NUMBER_OF_PRIORITIES)
           end);;
  if busy : bool then ret false else
  pending <- gets k_yield_pending;;
  if pending : bool then ret false else
  skipped <- gets k_jiffies_skipped;;
  if 0 <? skipped then ret false else
  del <- gets k_ndeleted;;
  ret (del =? 0).

(** [_isixp_vtimers_next_timeout_delta] of softtimers.c *)
Definition _isixp_vtimers_next_timeout_delta (now : Z) : KM Z :=
  v <- gets k_vt;;
  if vt_worker v =? NULL then ret ISIX_TIME_MAX_TICK else
  l <- of_option (vt_lists v !! vt_sel v);;
  match l with
  | [] => ret ISIX_TIME_MAX_TICK
  | first :: _ =>
      o <- of_option (vt_map v !! first);;
      ret (if now <=? v_jiffies o then v_jiffies o - now else 0)
  end.

Definition calculate_next_timeout : KM Z :=
  current <- gets k_jiffies;;
  let tw64 := ISIX_TIME_MAX_TICK - current + 1 in
  let to_wraparound := if ISIX_TIME_MAX_TICK <? tw64 then ISIX_TIME_MAX_TICK else tw64 in
  pw <- gets k_pwait;;
  l <- tl_list pw;;
  until_timeout <- (match l with
    | [] => ret ISIX_TIME_MAX_TICK
    | first :: _ =>
        o <- task_get first;;
        ret (if current <=? t_jiffies o then t_jiffies o - current else ISIX_TIME_MAX_TICK)
    end);;
  vtd <- _isixp_vtimers_next_timeout_delta current;;
  let until_timeout := if vtd <? until_timeout then vtd else until_timeout in
  let until_timeout :=
    if to_wraparound <? until_timeout then u32 (to_wraparound - 1) else until_timeout in
  ret (if until_timeout =? 0 then 1 else until_timeout).

Definition CONFIG_ISIX_TICKLESS_MIN_SLEEP_TICKS : Z := 2.

(** The sleep loop: [wakes] lists what the interrupts that end each wait for
    interrupt do.  The result tells whether the loop ended before the list did. *)
Fixpoint tickless_sleep_loop (wakes : list (KM unit)) : KM bool :=
  match wakes with
  | [] => ret false
  | irq :: wakes =>
      isix_exit_critical;;;
      irq;;;
      isix_enter_critical;;;
      t <- gets k_timer;;
      again <- (if _isix_port_systimer_is_sleeping t then can_enter_tickless_sleep else ret false);;
      if again : bool then tickless_sleep_loop wakes else ret true
  end.

(** The result is false when the idle task still sleeps at the end of [wakes]. *)
Definition enter_tickless_idle (wakes : list (KM unit)) : KM bool :=
  isix_enter_critical;;;
  t <- gets k_timer;;
  can <- (if _isix_port_systimer_is_sleeping t then ret false else can_enter_tickless_sleep);;
  if negb can then isix_exit_critical;;; ret true else
  next <- calculate_next_timeout;;
  timeout <- (if next <? CONFIG_ISIX_TICKLESS_MIN_SLEEP_TICKS then ret 1
              else systimer_set_timeout next);;
  if timeout <? 2 then isix_exit_critical;;; ret true else
  awake <- tickless_sleep_loop wakes;;
  if negb awake then ret false else
  n <- systimer_resync;;
  catch_up_missed_ticks n;;;
  isix_exit_critical;;;
  ret true.

(** ** Timer interrupt *)

Definition _isixp_systimer_announce (ticks : Z) : KM unit :=
  lock <- gets k_sched_lock;;
  if negb (lock =? 0)
  then modify (upd_jiffies_skipped (fun j => i32 (j + ticks)))
  else advance_jiffies ticks.

Definition _isix_port_systimer_isr : KM unit :=
  isix_enter_critical;;;
  t <- gets k_timer;;
  let '(ticks, t') := systimer_isr_ticks t in
  modify (upd_timer (fun _ => t'));;;
  _isixp_systimer_announce ticks;;;
  isix_exit_critical.

Definition systick_isr_vector : KM unit :=
  _isix_port_systimer_isr;;;
  run <- gets k_schrun;;
  when run (modify (upd_pendsv (fun _ => true))).

(** ** Wake-up and sleep *)

Definition _isixp_do_reschedule (t : Z) : KM unit :=
  if t =? NULL then panic "Unable to resched itself" else
  run <- gets k_schrun;;
  cur <- gets k_currp;;
  yield <-
    (if negb run then
       (if cur =? NULL then modify (upd_currp (fun _ => t))
        else
          o <- task_get t;; c <- task_get cur;;
          when (_isixp_prio_gt (t_prio o) (t_prio c)) (modify (upd_currp (fun _ => t))));;;
       ret false
     else
       o <- task_get t;; c <- task_get cur;;
       ret (_isixp_prio_gt (t_prio o) (t_prio c)));;
  isix_exit_critical;;;
  when yield _isix_port_yield.

Definition wakeup_task (t msg : Z) : KM unit :=
  task_upd t (set_dmsg msg);;;
  timed <- tl_assigned t;;
  when timed (tl_delete t);;;
  add_ready_list t.

Definition _isixp_wakeup_task (t msg : Z) : KM unit :=
  wakeup_task t msg;;; _isixp_do_reschedule t.

(** [woken] is NULL when no task was woken. *)
Definition _isixp_exit_critical_isr (woken : Z) : KM unit :=
  when (negb (woken =? NULL)) (n <- systimer_resync;; catch_up_missed_ticks n);;;
  isix_exit_critical;;;
  run <- gets k_schrun;;
  cur <- gets k_currp;;
  if negb (woken =? NULL) && run && negb (cur =? NULL) then
    o <- task_get woken;; c <- task_get cur;;
    when (_isixp_prio_gt (t_prio o) (t_prio c)) _isix_port_yield
  else ret tt.

Definition _isixp_wakeup_task_i (t msg : Z) : KM unit :=
  wakeup_task t msg;;; _isixp_exit_critical_isr t.

Definition _isixp_wakeup_task_l (t msg : Z) : KM unit := wakeup_task t msg.

Definition _isixp_set_sleep (newstate : osthr_state) : KM unit :=
  cur <- gets k_currp;;
  delete_from_ready_list cur;;;
  task_upd cur (set_t_state newstate).

Definition _isixp_set_sleep_timeout (newstate : osthr_state) (timeout : Z) : KM unit :=
  _isixp_set_sleep newstate;;;
  when (negb (timeout =? ISIX_TIME_INFINITE))
    (cur <- gets k_currp;; add_task_to_waiting_list cur timeout).

Definition _isixp_reallocate_priority (t newprio : Z) : KM unit :=
  o <- task_get t;;
  match t_state o with
  | OSTHR_STATE_READY | OSTHR_STATE_RUNNING =>
      delete_from_ready_list t;;;
      task_upd t (set_t_prio (u8 newprio));;;
      task_upd t (set_t_state OSTHR_STATE_SCHEDULE);;;
      add_ready_list t
  | OSTHR_STATE_WTSEM =>
      q_delete t;;; task_upd t (set_t_prio (u8 newprio));;;
      _isixp_add_to_prio_queue (QSem (t_obj o)) t
  | OSTHR_STATE_WTMTX =>
      q_delete t;;; task_upd t (set_t_prio (u8 newprio));;;
      _isixp_add_to_prio_queue (QMtx (t_obj o)) t
  | OSTHR_STATE_WTCOND =>
      q_delete t;;; task_upd t (set_t_prio (u8 newprio));;;
      _isixp_add_to_prio_queue (QCond (t_obj o)) t
  | _ => task_upd t (set_t_prio (u8 newprio))
  end.

(** ** Priority inheritance helpers of mutex.c used when a waiter is removed *)

(** The loop of [calc_inherited_priority] over the owned mutexes. *)
Fixpoint inherited_loop (mtxs : list Z) (newprio : Z) : KM Z :=
  match mtxs with
  | [] => ret newprio
  | m :: mtxs =>
      l <- q_list (QMtx m);;
      match l with
      | [] => inherited_loop mtxs newprio
      | t :: _ =>
          o <- task_get t;;
          inherited_loop mtxs (if _isixp_prio_gt (t_prio o) newprio then t_prio o else newprio)
      end
  end.

Definition calc_inherited_priority (owner : Z) : KM Z :=
  o <- task_get owner;;
  l <- ml_list owner;;
  inherited_loop l (t_real_prio o).

(** [if( newprio != owner->prio ) _isixp_reallocate_priority( owner, newprio )] *)
Definition restore_priority (owner : Z) : KM unit :=
  newprio <- calc_inherited_priority owner;;
  o <- task_get owner;;
  when (negb (newprio =? t_prio o)) (_isixp_reallocate_priority owner newprio).

Definition _isixp_mutex_waiter_removed (mutex : Z) : KM unit :=
  o <- mtx_get mutex;;
  when (negb (m_owner o =? NULL)) (restore_priority (m_owner o)).

(** ** Killing and suspending *)

(** The task leaves the list its state asks for; a waiting task gives up its claim. *)
Definition leave_state_list (t : Z) (suspend : bool) : KM unit :=
  o <- task_get t;;
  match t_state o with
  | OSTHR_STATE_READY | OSTHR_STATE_RUNNING => delete_from_ready_list t
  | OSTHR_STATE_WTEVT =>
      q_delete t;;; task_upd t (set_t_wait_aborted suspend)
  | OSTHR_STATE_WTSEM =>
      _isixp_sem_fast_signal (t_obj o);;;
      q_delete t;;; task_upd t (set_t_wait_aborted suspend)
  | OSTHR_STATE_WTCOND => q_delete t
  | OSTHR_STATE_WTMTX =>
      q_delete t;;;
      _isixp_mutex_waiter_removed (t_obj o);;;
      task_upd t (set_t_wait_aborted suspend)
  | OSTHR_STATE_WTEXIT =>
      q_delete t;;; task_upd t (set_t_wait_aborted suspend)
  | _ => ret tt
  end.

Definition _isixp_add_kill_or_set_suspend (t : Z) (suspend : bool) : KM unit :=
  timed <- tl_assigned t;;
  when timed (tl_delete t);;;
  leave_state_list t suspend;;;
  if suspend then task_upd t (set_t_state OSTHR_STATE_SUSPEND)
  else
    task_upd t (set_t_state OSTHR_STATE_ZOMBIE);;;
    q_insert_end QZombie t;;;
    modify (upd_ndeleted (fun n => u32 (n + 1))).

(** One call of the idle task reclaims one dead task. *)
Definition cleanup_tasks : KM unit :=
  deleted <- gets k_ndeleted;;
  if 0 <? deleted then
    isix_enter_critical;;;
    l <- q_list QZombie;;
    match l with
    | [] => isix_exit_critical
    | t :: _ =>
        q_delete t;;;
        o <- task_get t;;
        task_upd t (set_t_init_stack NULL);;;
        task_upd t (set_t_impure NULL);;;
        task_upd t (set_t_state OSTHR_STATE_EXITED);;;
        modify (upd_ndeleted (fun n => u32 (n - 1)));;;
        isix_exit_critical;;;
        isix_free (t_init_stack o);;;
        when (negb (t_impure o =? NULL)) (isix_free (t_impure o));;;
        when (t_refcnt o =? 0) (free_task t)
    end
  else ret tt.

(** The SVC handler marks the scheduler as running when the first task is
    entered. *)
Definition isix_start_scheduler : KM unit :=
  modify (upd_jiffies (fun _ => 0));;;
  modify (upd_critical_count (fun _ => 0));;;
  cur <- gets k_currp;;
  task_upd cur (set_t_state OSTHR_STATE_RUNNING);;;
  modify (upd_schrun (fun _ => true)).

End Scheduler.
