(* ===== verification/Events.v ===== *)
(** * Event groups (libisix/kernel/events.c)

    An event is a set of bits with a list of tasks, each waiting for any or for
    all of some bits.  A blocking call is split at [isix_yield]: the part before
    it answers [Done] with the result or [Blocked] when the caller now sleeps, and
    the [_resume] part is what the caller runs when it is scheduled again. *)

From S2P Require Import Prelude.
From S2P Require Import DList.
From S2P Require Import Kernel.
From S2P Require Import Scheduler.
From stdpp Require Import base gmap list strings.
From Stdlib Require Import ZArith Lia.
Local Open Scope Z_scope.

Definition ISIX_EVENT_CTRL_ALL_MATCH_FLAG : Z := 0x80000000.
Definition ISIX_EVENT_CTRL_CLEAR_EXIT_FLAG : Z := 0x40000000.
Definition ISIX_EVENT_CTRL_BITS : Z :=
  Z.lor ISIX_EVENT_CTRL_ALL_MATCH_FLAG ISIX_EVENT_CTRL_CLEAR_EXIT_FLAG.
Definition ISIX_EVENT_EVBITS : Z := Z.ldiff 0xFFFFFFFF ISIX_EVENT_CTRL_BITS.

(** [x & y] as a condition. *)
Definition has_bits (x y : Z) : bool := negb (Z.land x y =? 0).

Definition check_cond (curr wait_for : Z) (all : bool) : bool :=
  if negb all then has_bits curr wait_for
  else Z.land curr wait_for =? wait_for.

Definition check_cond2 (curr wait_for : Z) : bool :=
  check_cond curr (Z.land wait_for ISIX_EVENT_EVBITS)
    (has_bits wait_for ISIX_EVENT_CTRL_ALL_MATCH_FLAG).

(** Where a blocking call stands: finished with a result, or asleep. *)
Inductive wait_step := Done (r : Z) | Blocked.

Section Events.
Context {HS : Type} {AL : Allocator HS}.

Local Abbreviation KM := (K HS).

(** [memset] and [list_init] of a new object. *)
Definition isix_event_create : KM Z :=
  ev <- isix_alloc 12;;
  if ev =? NULL then ret NULL else
  modify (upd_evs (insert ev 0));;;
  q_init (QEvt ev);;;
  ret ev.

(** [while( (t=_isixp_remove_from_prio_queue(list)) ) body( t )]: each round takes
    the first task of the list. *)
Fixpoint drain_queue (fuel : nat) (h : qhead) (body : Z -> Z -> KM Z) (acc : Z) : KM Z :=
  match fuel with
  | O => fault
  | S fuel =>
      t <- _isixp_remove_from_prio_queue h;;
      if t =? NULL then ret acc
      else acc <- body acc t;; drain_queue fuel h body acc
  end.

Definition drain (h : qhead) (body : Z -> Z -> KM Z) (acc : Z) : KM Z :=
  l <- q_list h;; drain_queue (S (length l)) h body acc.

Definition isix_event_destroy (evh : Z) : KM Z :=
  if evh =? NULL then ret ISIX_EINVARG else
  isix_enter_critical;;;
  cur <- gets k_currp;;
  wkup_task <- drain (QEvt evh)
    (fun wkup_task t => _isixp_wakeup_task_l t ISIX_EDESTROY;;; _isixp_max_prio wkup_task t) cur;;
  _isixp_do_reschedule wkup_task;;;
  isix_free evh;;;
  modify (upd_evs (delete evh));;;
  modify (upd_q (delete (QEvt evh)));;;
  ret ISIX_EOK.

(** The loop of [isix_event_wait] up to [isix_yield]. *)
Definition event_wait_round (evth bits_to_wait : Z) (clear_on_exit wait_for_all : bool)
    (timeout start : Z) : KM wait_step :=
  isix_enter_critical;;;
  bitset <- ev_get evth;;
  if check_cond bitset bits_to_wait wait_for_all then
    when clear_on_exit (ev_set evth (Z.ldiff bitset bits_to_wait));;;
    isix_exit_critical;;;
    ret (Done bitset)
  else if timeout =? ISIX_TIME_DONTWAIT then
    isix_exit_critical;;;
    ret (Done bitset)
  else
  now <- gets k_jiffies;;
  let elapsed := u32 (now - start) in
  if negb (timeout =? ISIX_TIME_INFINITE) && (timeout <=? elapsed) then
    isix_exit_critical;;;
    ret (Done ISIX_ETIMEOUT)
  else
    let tout := if timeout =? ISIX_TIME_INFINITE then timeout else u32 (timeout - elapsed) in
    cur <- gets k_currp;;
    task_upd cur (set_t_wait_aborted false);;;
    _isixp_set_sleep_timeout OSTHR_STATE_WTEVT tout;;;
    q_insert_end (QEvt evth) cur;;;
    task_upd cur (set_t_obj
      (Z.lor (Z.lor bits_to_wait (if wait_for_all then ISIX_EVENT_CTRL_ALL_MATCH_FLAG else 0))
         (if clear_on_exit then ISIX_EVENT_CTRL_CLEAR_EXIT_FLAG else 0)));;;
    isix_exit_critical;;;
    isix_yield;;;
    ret Blocked.

(** The wake-up message is a set of user bits or an error code. *)
Definition event_wakeup_result (o : task) : Z :=
  if Z.land (t_obj o) ISIX_EVENT_CTRL_BITS =? 0 then t_obj o else t_dmsg o.

(** The call up to [isix_yield], with the start time of the wait. *)
Definition isix_event_wait (evth bits_to_wait : Z) (clear_on_exit wait_for_all : bool)
    (timeout : Z) : KM (wait_step * Z) :=
  if evth =? NULL then ret (Done ISIX_EINVARG, 0) else
  if (bits_to_wait =? 0) || has_bits bits_to_wait ISIX_EVENT_CTRL_BITS
  then ret (Done ISIX_EINVARG, 0) else
  start <- isix_get_jiffies;;
  r <- event_wait_round evth bits_to_wait clear_on_exit wait_for_all timeout start;;
  ret (r, start).

Definition event_wait_resume (evth bits_to_wait : Z) (clear_on_exit wait_for_all : bool)
    (timeout start : Z) : KM wait_step :=
  cur <- gets k_currp;;
  o <- task_get cur;;
  if t_wait_aborted o
  then event_wait_round evth bits_to_wait clear_on_exit wait_for_all timeout start
  else ret (Done (event_wakeup_result o)).

Definition _isixp_event_clear (evth bits_to_clear : Z) : KM Z :=
  if evth =? NULL then ret ISIX_EINVARG else
  if has_bits bits_to_clear ISIX_EVENT_CTRL_BITS then ret ISIX_EINVARG else
  isix_enter_critical;;;
  bitset <- ev_get evth;;
  ev_set evth (Z.ldiff bitset bits_to_clear);;;
  isix_exit_critical;;;
  ret bitset.

(** The loop of [event_set] over the waiting tasks: bits to clear and task to
    reschedule. *)
Fixpoint event_set_loop (bitset : Z) (l : list Z) (clr_bits wkup_task : Z) : KM (Z * Z) :=
  match l with
  | [] => ret (clr_bits, wkup_task)
  | t :: l =>
      o <- task_get t;;
      if check_cond2 bitset (t_obj o) then
        let clr_bits :=
          if has_bits (t_obj o) ISIX_EVENT_CTRL_CLEAR_EXIT_FLAG
          then Z.lor clr_bits (Z.land (t_obj o) ISIX_EVENT_EVBITS) else clr_bits in
        q_delete t;;;
        _isixp_wakeup_task_l t bitset;;;
        wkup_task <- _isixp_max_prio wkup_task t;;
        event_set_loop bitset l clr_bits wkup_task
      else event_set_loop bitset l clr_bits wkup_task
  end.

Definition event_set (evth bits_to_set : Z) : KM Z :=
  b <- ev_get evth;;
  let bitset := Z.lor b bits_to_set in
  ev_set evth bitset;;;
  cur <- gets k_currp;;
  l <- q_list (QEvt evth);;
  r <- event_set_loop bitset l 0 cur;;
  ev_set evth (Z.ldiff bitset (fst r));;;
  ret (snd r).

Definition _isixp_event_set (evth bits_to_set : Z) (isr : bool) : KM Z :=
  if evth =? NULL then ret ISIX_EINVARG else
  if has_bits bits_to_set ISIX_EVENT_CTRL_BITS then ret ISIX_EINVARG else
  isix_enter_critical;;;
  wkup_task <- event_set evth bits_to_set;;
  retval <- ev_get evth;;
  (if negb isr then _isixp_do_reschedule wkup_task else _isixp_exit_critical_isr wkup_task);;;
  ret retval.

Definition isix_event_get_isr (evth : Z) : KM Z :=
  if evth =? NULL then ret ISIX_EINVARG else
  isix_enter_critical;;;
  retval <- ev_get evth;;
  isix_exit_critical;;;
  ret retval.

(** The call up to [isix_yield], with the start time of the wait. *)
Definition isix_event_sync (evth bits_to_set bits_to_wait timeout : Z) : KM (wait_step * Z) :=
  if evth =? NULL then ret (Done ISIX_EINVARG, 0) else
  if has_bits bits_to_set ISIX_EVENT_CTRL_BITS then ret (Done ISIX_EINVARG, 0) else
  if (bits_to_wait =? 0) || has_bits bits_to_wait ISIX_EVENT_CTRL_BITS
  then ret (Done ISIX_EINVARG, 0) else
  start <- isix_get_jiffies;;
  isix_enter_critical;;;
  orgbits <- ev_get evth;;
  wkup_task <- event_set evth bits_to_set;;
  if Z.land (Z.lor orgbits bits_to_set) bits_to_wait =? bits_to_wait then
    b <- ev_get evth;;
    ev_set evth (Z.ldiff b bits_to_wait);;;
    _isixp_do_reschedule wkup_task;;;
    ret (Done (Z.lor orgbits bits_to_set), start)
  else if timeout =? ISIX_TIME_DONTWAIT then
    retval <- ev_get evth;;
    _isixp_do_reschedule wkup_task;;;
    ret (Done retval, start)
  else
    cur <- gets k_currp;;
    task_upd cur (set_t_wait_aborted false);;;
    _isixp_set_sleep_timeout OSTHR_STATE_WTEVT timeout;;;
    q_insert_end (QEvt evth) cur;;;
    task_upd cur (set_t_obj
      (Z.lor (Z.lor bits_to_wait ISIX_EVENT_CTRL_ALL_MATCH_FLAG) ISIX_EVENT_CTRL_CLEAR_EXIT_FLAG));;;
    (if negb (wkup_task =? cur) then _isixp_do_reschedule wkup_task
     else isix_exit_critical;;; isix_yield);;;
    ret (Blocked, start).

(** After a suspend the caller goes on with [isix_event_wait]; the second component
    tells the timeout and the start of that wait when it blocks again. *)
Definition event_sync_resume (evth bits_to_wait timeout start : Z)
  : KM (wait_step * option (Z * Z)) :=
  cur <- gets k_currp;;
  o <- task_get cur;;
  if t_wait_aborted o then
    now <- gets k_jiffies;;
    let elapsed := u32 (now - start) in
    if negb (timeout =? ISIX_TIME_INFINITE) && (timeout <=? elapsed)
    then ret (Done ISIX_ETIMEOUT, None)
    else
      let tout := if timeout =? ISIX_TIME_INFINITE then timeout else u32 (timeout - elapsed) in
      r <- isix_event_wait evth bits_to_wait true true tout;;
      ret (fst r, Some (tout, snd r))
  else ret (Done (event_wakeup_result o), None).

End Events.
