(* ===== verification/Semaphore.v ===== *)
(** * Counting semaphores (libisix/kernel/semaphore.c)

    The value counts the free tokens; when it is negative its magnitude is the
    number of tasks on the wait list. *)

From S2P Require Import Prelude.
From S2P Require Import DList.
From S2P Require Import Kernel.
From S2P Require Import Scheduler.
From S2P Require Import Events.
From stdpp Require Import base gmap list strings.
From Stdlib Require Import ZArith Lia.
Local Open Scope Z_scope.

Definition ISIX_SEM_EVENT_INVALID_BITS : Z := 0xff.

Section Semaphore.
Context {HS : Type} {AL : Allocator HS}.

Local Abbreviation KM := (K HS).

Definition isix_sem_create_limited (sem val limit_val : Z) : KM Z :=
  let static_mem := negb (sem =? NULL) in
  if limit_val <? 0 then ret NULL else
  a <- (if sem =? NULL then isix_alloc 28 else ret sem);;
  if a =? NULL then ret NULL else
  modify (upd_sems (insert a (Sem val limit_val static_mem NULL 0)));;;
  q_init (QSem a);;;
  ret a.

(** [isix_sem_create] *)
Definition isix_sem_create (sem val : Z) : KM Z := isix_sem_create_limited sem val 0.

(** The loop of [isix_sem_wait] up to [isix_yield]. *)
Definition sem_wait_round (sem timeout start : Z) : KM wait_step :=
  isix_enter_critical;;;
  sem_upd sem (fun o => set_s_value (atomic_sem_dec (s_value o)) o);;;
  o <- sem_get sem;;
  if 0 <=? s_value o then
    isix_exit_critical;;;
    ret (Done ISIX_EOK)
  else
  now <- gets k_jiffies;;
  let elapsed := u32 (now - start) in
  if negb (timeout =? ISIX_TIME_INFINITE) && (timeout <=? elapsed) then
    _isixp_sem_fast_signal sem;;;
    isix_exit_critical;;;
    ret (Done ISIX_ETIMEOUT)
  else
    let tout := if timeout =? ISIX_TIME_INFINITE then timeout else u32 (timeout - elapsed) in
    cur <- gets k_currp;;
    task_upd cur (set_t_obj sem);;;
    task_upd cur (set_t_wait_aborted false);;;
    _isixp_set_sleep_timeout OSTHR_STATE_WTSEM tout;;;
    _isixp_add_to_prio_queue (QSem sem) cur;;;
    isix_exit_critical;;;
    isix_yield;;;
    ret Blocked.

(** [_isix_port_atomic_sem_trydec] on a semaphore object. *)
Definition sem_trydec (sem : Z) : KM Z :=
  o <- sem_get sem;;
  let '(v, r) := atomic_sem_trydec (s_value o) in
  sem_upd sem (set_s_value v);;;
  ret r.

(** The call up to [isix_yield], with the start time of the wait. *)
Definition isix_sem_wait (sem timeout : Z) : KM (wait_step * Z) :=
  if sem =? NULL then ret (Done ISIX_EINVARG, 0) else
  if timeout =? ISIX_TIME_DONTWAIT then
    r <- sem_trydec sem;;
    ret (Done (if 0 <? r then ISIX_EOK else ISIX_ETIMEOUT), 0)
  else
  start <- isix_get_jiffies;;
  r <- sem_wait_round sem timeout start;;
  ret (r, start).

Definition sem_wait_resume (sem timeout start : Z) : KM wait_step :=
  cur <- gets k_currp;;
  o <- task_get cur;;
  if t_wait_aborted o then sem_wait_round sem timeout start
  else ret (Done (t_dmsg o)).

Definition _isixp_sem_signal (sem : Z) (isr : bool) : KM Z :=
  if sem =? NULL then ret ISIX_EINVARG else
  isix_enter_critical;;;
  _isixp_sem_fast_signal sem;;;
  o <- sem_get sem;;
  if s_value o <=? 0 then
    task <- _isixp_remove_from_prio_queue (QSem sem);;
    (if negb (task =? NULL) then
       ot <- task_get task;;
       if bool_decide (t_state ot = OSTHR_STATE_WTSEM) then
         if negb isr then _isixp_wakeup_task task ISIX_EOK
         else _isixp_wakeup_task_i task ISIX_EOK
       else isix_exit_critical
     else isix_exit_critical);;;
    ret ISIX_EOK
  else
    isix_exit_critical;;;
    (if negb (s_evt o =? NULL) && (s_bitno o <=? 31)
     then _ <- _isixp_event_set (s_evt o) (Z.shiftl 1 (s_bitno o)) isr;; ret tt
     else ret tt);;;
    ret ISIX_EOK.

Definition isix_sem_signal (sem : Z) : KM Z := _isixp_sem_signal sem false.
Definition isix_sem_signal_isr (sem : Z) : KM Z := _isixp_sem_signal sem true.

Definition isix_sem_trywait (sem : Z) : KM Z :=
  if sem =? NULL then ret ISIX_EINVARG else
  r <- sem_trydec sem;;
  ret (if 0 <? r then ISIX_EOK else ISIX_EBUSY).

(** Wake every task of a queue; the first one is the one to reschedule for.  The
    loop of [sem_wakeup_all] and of [condvar_broadcast_msg]. *)
Definition wakeup_queue (h : qhead) (msg : Z) (isr : bool) : KM unit :=
  wkup_task <- drain h
    (fun wkup_task t =>
       _isixp_wakeup_task_l t msg;;; ret (if wkup_task =? NULL then t else wkup_task)) NULL;;
  if negb (wkup_task =? NULL) && negb isr then _isixp_do_reschedule wkup_task
  else _isixp_exit_critical_isr wkup_task.

Definition sem_wakeup_all (sem msg : Z) (isr : bool) : KM unit := wakeup_queue (QSem sem) msg isr.

Definition _isixp_sem_reset (sem val : Z) (isr : bool) : KM Z :=
  if sem =? NULL then ret ISIX_EINVARG else
  isix_enter_critical;;;
  sem_upd sem (fun o => set_s_value (atomic_sem_write_val (s_limit o) val) o);;;
  sem_wakeup_all sem ISIX_ERESET isr;;;
  ret ISIX_EOK.

Definition isix_sem_getval (sem : Z) : KM Z :=
  if sem =? NULL then ret ISIX_EINVARG else
  o <- sem_get sem;; ret (s_value o).

Definition isix_sem_destroy (sem : Z) : KM Z :=
  if sem =? NULL then ret ISIX_EINVARG else
  isix_enter_critical;;;
  sem_wakeup_all sem ISIX_EDESTROY false;;;
  o <- sem_get sem;;
  when (negb (s_static o))
    (isix_free sem;;;
     modify (upd_sems (delete sem));;;
     modify (upd_q (delete (QSem sem))));;;
  ret ISIX_EOK.

Definition isix_sem_event_connect (sem evt bit : Z) : KM Z :=
  if (sem =? NULL) || (evt =? NULL) || (bit <? 0) || (31 <? bit) then ret ISIX_EINVARG else
  o <- sem_get sem;;
  if negb (s_evt o =? 0) then ret ISIX_EBUSY else
  sem_upd sem (set_s_evt evt);;;
  sem_upd sem (set_s_bitno bit);;;
  ret ISIX_EOK.

Definition isix_sem_event_disconnect (sem evt : Z) : KM Z :=
  if (sem =? NULL) || (evt =? NULL) then ret ISIX_EINVARG else
  o <- sem_get sem;;
  if negb (s_evt o =? evt) then ret ISIX_EBUSY else
  sem_upd sem (set_s_evt NULL);;;
  sem_upd sem (set_s_bitno ISIX_SEM_EVENT_INVALID_BITS);;;
  ret ISIX_EOK.

End Semaphore.
