(* ===== verification/Mutex.v ===== *)
(** * Recursive mutexes with priority inheritance (libisix/kernel/mutex.c)

    The helpers [calc_inherited_priority] and [_isixp_mutex_waiter_removed] are in
    [Scheduler], whose kill and suspend path uses them. *)

From S2P Require Import Prelude.
From S2P Require Import DList.
From S2P Require Import Kernel.
From S2P Require Import Scheduler.
From S2P Require Import Events.
From stdpp Require Import base gmap list strings.
From Stdlib Require Import ZArith Lia.
Local Open Scope Z_scope.

Section Mutex.
Context {HS : Type} {AL : Allocator HS}.

Local Abbreviation KM := (K HS).

Definition transfer_mtx_ownership_to_next_waiting_task (mutex : Z) : KM Z :=
  mtx_upd mutex (set_m_count 1);;;
  l <- q_list (QMtx mutex);;
  match l with
  | [] => fault
  | next_tsk :: _ =>
      mtx_upd mutex (set_m_owner next_tsk);;;
      q_delete next_tsk;;;
      assigned <- ml_assigned mutex;;
      when assigned (ml_delete mutex);;;
      ml_insert_first next_tsk mutex;;;
      ret next_tsk
  end.

Definition set_ownership_to_current (mutex : Z) : KM unit :=
  o <- mtx_get mutex;;
  if negb (m_count o =? 0) then panic "Mutex counter is not zero" else
  mtx_upd mutex (set_m_count (m_count o + 1));;;
  cur <- gets k_currp;;
  mtx_upd mutex (set_m_owner cur);;;
  ml_insert_first cur mutex.

Definition isix_mutex_create (mutex : Z) : KM Z :=
  let static_mem := negb (mutex =? NULL) in
  a <- (if mutex =? NULL then isix_alloc 28 else ret mutex);;
  if a =? NULL then ret NULL else
  modify (upd_mtxs (insert a (Mtx 0 NULL static_mem)));;;
  q_init (QMtx a);;;
  ret a.

(** The loop of [isix_mutex_lock] up to [isix_yield]. *)
Definition mutex_lock_round (mutex : Z) : KM wait_step :=
  isix_enter_critical;;;
  o <- mtx_get mutex;;
  cur <- gets k_currp;;
  if negb (m_owner o =? NULL) then
    if m_count o <? 1 then panic "mutex counter is not positive" else
    if m_owner o =? cur then
      mtx_upd mutex (set_m_count (i32 (m_count o + 1)));;;
      isix_exit_critical;;;
      ret (Done ISIX_EOK)
    else
      tc <- task_get cur;;
      tow <- task_get (m_owner o);;
      when (_isixp_prio_gt (t_prio tc) (t_prio tow))
        (_isixp_reallocate_priority (m_owner o) (t_prio tc));;;
      task_upd cur (set_t_wait_aborted false);;;
      _isixp_set_sleep OSTHR_STATE_WTMTX;;;
      _isixp_add_to_prio_queue (QMtx mutex) cur;;;
      task_upd cur (set_t_obj mutex);;;
      isix_exit_critical;;;
      isix_yield;;;
      ret Blocked
  else
    set_ownership_to_current mutex;;;
    isix_exit_critical;;;
    ret (Done ISIX_EOK).

Definition isix_mutex_lock (mutex : Z) : KM wait_step :=
  if mutex =? NULL then ret (Done ISIX_EINVARG) else mutex_lock_round mutex.

Definition mutex_lock_resume (mutex : Z) : KM wait_step :=
  cur <- gets k_currp;;
  o <- task_get cur;;
  if t_wait_aborted o then mutex_lock_round mutex else ret (Done (t_dmsg o)).

Definition isix_mutex_trylock (mutex : Z) : KM Z :=
  if mutex =? NULL then ret ISIX_EINVARG else
  isix_enter_critical;;;
  o <- mtx_get mutex;;
  cur <- gets k_currp;;
  r <- (if negb (m_owner o =? NULL) then
          if m_count o <? 1 then panic "Invalid mtx lock count" else
          if m_owner o =? cur then
            mtx_upd mutex (set_m_count (i32 (m_count o + 1)));;; ret ISIX_EOK
          else ret ISIX_EPERM
        else set_ownership_to_current mutex;;; ret ISIX_EOK);;
  isix_exit_critical;;;
  ret r.

Definition isix_mutex_unlock (mutex : Z) : KM Z :=
  if mutex =? NULL then ret ISIX_EINVARG else
  isix_enter_critical;;;
  o <- mtx_get mutex;;
  if m_owner o =? NULL then isix_exit_critical;;; ret ISIX_ENOTLOCKED else
  if m_count o <? 1 then panic "Mutex not positive" else
  cur <- gets k_currp;;
  if negb (m_owner o =? cur) then isix_exit_critical;;; ret ISIX_EPERM else
  mtx_upd mutex (set_m_count (m_count o - 1));;;
  if m_count o - 1 =? 0 then
    owned <- ml_list cur;;
    if negb (bool_decide (mutex ∈ owned)) then panic "Not in mutex ownership list" else
    ml_delete mutex;;;
    l <- q_list (QMtx mutex);;
    match l with
    | _ :: _ =>
        newprio <- calc_inherited_priority cur;;
        _isixp_reallocate_priority cur newprio;;;
        next <- transfer_mtx_ownership_to_next_waiting_task mutex;;
        _isixp_wakeup_task next ISIX_EOK;;;
        ret ISIX_EOK
    | [] =>
        mtx_upd mutex (set_m_owner NULL);;;
        isix_exit_critical;;;
        ret ISIX_EOK
    end
  else
    isix_exit_critical;;;
    ret ISIX_EOK.

(** The loop of [_isixp_mutex_unlock_all_in_task] over the owned mutexes. *)
Fixpoint unlock_all_loop (mtxs : list Z) (wkup_task : Z) : KM Z :=
  match mtxs with
  | [] => ret wkup_task
  | m :: mtxs =>
      l <- q_list (QMtx m);;
      match l with
      | _ :: _ =>
          t <- transfer_mtx_ownership_to_next_waiting_task m;;
          _isixp_wakeup_task_l t ISIX_EOK;;;
          unlock_all_loop mtxs (if wkup_task =? NULL then t else wkup_task)
      | [] =>
          ml_delete m;;;
          mtx_upd m (set_m_count 0);;;
          mtx_upd m (set_m_owner NULL);;;
          unlock_all_loop mtxs wkup_task
      end
  end.

Definition _isixp_mutex_unlock_all_in_task (utask : Z) : KM unit :=
  isix_enter_critical;;;
  l <- ml_list utask;;
  wkup_task <- unlock_all_loop l NULL;;
  cur <- gets k_currp;;
  when (utask =? cur) (restore_priority utask);;;
  if negb (wkup_task =? NULL) then _isixp_do_reschedule wkup_task else isix_exit_critical.

Definition isix_mutex_unlock_all : KM unit :=
  cur <- gets k_currp;; _isixp_mutex_unlock_all_in_task cur.

(** The loop of [isix_mutex_destroy] over the waiting tasks. *)
Fixpoint mutex_destroy_loop (l : list Z) (wkup_task : Z) : KM Z :=
  match l with
  | [] => ret wkup_task
  | tsk :: l =>
      q_delete tsk;;;
      p <- calc_inherited_priority tsk;;
      task_upd tsk (set_t_prio p);;;
      _isixp_wakeup_task_l tsk ISIX_EDESTROY;;;
      mutex_destroy_loop l (if wkup_task =? NULL then tsk else wkup_task)
  end.

Definition isix_mutex_destroy (mutex : Z) : KM Z :=
  if mutex =? NULL then ret ISIX_EINVARG else
  isix_enter_critical;;;
  o <- mtx_get mutex;;
  let owner := m_owner o in
  when (negb (owner =? NULL))
    (ml_delete mutex;;;
     mtx_upd mutex (set_m_owner NULL);;;
     mtx_upd mutex (set_m_count 0));;;
  l <- q_list (QMtx mutex);;
  wkup_task <- mutex_destroy_loop l NULL;;
  when (negb (owner =? NULL)) (restore_priority owner);;;
  (if negb (wkup_task =? NULL) then _isixp_do_reschedule wkup_task else isix_exit_critical);;;
  when (negb (m_static o))
    (isix_free mutex;;;
     modify (upd_mtxs (delete mutex));;;
     modify (upd_q (delete (QMtx mutex))));;;
  ret ISIX_EOK.

Definition _isixp_get_top_currt_mutex : KM Z :=
  cur <- gets k_currp;;
  l <- ml_list cur;;
  ret (match l with [] => NULL | m :: _ => m end).

End Mutex.
