(* ===== verification/Condvar.v ===== *)
(** * Condition variables (libisix/kernel/condvar.c) *)

From S2P Require Import Prelude.
From S2P Require Import DList.
From S2P Require Import Kernel.
From S2P Require Import Scheduler.
From S2P Require Import Events.
From S2P Require Import Semaphore.
From S2P Require Import Mutex.
From stdpp Require Import base gmap list strings.
From Stdlib Require Import ZArith Lia.
Local Open Scope Z_scope.

Section Condvar.
Context {HS : Type} {AL : Allocator HS}.

Local Abbreviation KM := (K HS).

Definition isix_condvar_create : KM Z :=
  cv <- isix_alloc 8;;
  when (negb (cv =? NULL))
    (modify (upd_conds (fun s => {[cv]} ∪ s));;; q_init (QCond cv));;;
  ret cv.

Definition _isixp_condvar_signal (cv : Z) (isr : bool) : KM Z :=
  if cv =? NULL then ret ISIX_EINVARG else
  isix_enter_critical;;;
  l <- q_list (QCond cv);;
  (match l with
   | [] => isix_exit_critical
   | _ :: _ =>
       task <- _isixp_remove_from_prio_queue (QCond cv);;
       o <- task_get task;;
       if bool_decide (t_state o = OSTHR_STATE_WTCOND) then
         if negb isr then _isixp_wakeup_task task ISIX_EOK
         else _isixp_wakeup_task_i task ISIX_EOK
       else panic "Invalid state task->state != OSTHR_STATE_WTCOND"
   end);;;
  ret ISIX_EOK.

Definition condvar_broadcast_msg (cv msg : Z) (isr : bool) : KM unit :=
  isix_enter_critical;;; wakeup_queue (QCond cv) msg isr.

Definition _isixp_condvar_broadcast (cv : Z) (isr : bool) : KM Z :=
  if cv =? NULL then ret ISIX_EINVARG else
  condvar_broadcast_msg cv ISIX_EOK isr;;;
  ret ISIX_EOK.

(** The call up to [isix_yield], with the mutex it has unlocked. *)
Definition isix_condvar_wait (cv timeout : Z) : KM (wait_step * Z) :=
  if cv =? NULL then ret (Done ISIX_EINVARG, NULL) else
  if timeout =? ISIX_TIME_DONTWAIT then ret (Done ISIX_EINVARG, NULL) else
  isix_enter_critical;;;
  mtx <- _isixp_get_top_currt_mutex;;
  r <- isix_mutex_unlock mtx;;
  if negb (r =? 0) then isix_exit_critical;;; ret (Done r, mtx) else
  _isixp_set_sleep_timeout OSTHR_STATE_WTCOND timeout;;;
  cur <- gets k_currp;;
  _isixp_add_to_prio_queue (QCond cv) cur;;;
  task_upd cur (set_t_obj cv);;;
  isix_exit_critical;;;
  isix_yield;;;
  ret (Blocked, mtx).

(** After the wake-up the mutex is locked again, which may block in
    [isix_mutex_lock]. *)
Definition condvar_wait_resume (mtx : Z) : KM wait_step :=
  cur <- gets k_currp;;
  o <- task_get cur;;
  if t_dmsg o =? ISIX_EOK then isix_mutex_lock mtx else ret (Done (t_dmsg o)).

Definition isix_condvar_destroy (cv : Z) : KM Z :=
  if cv =? NULL then ret ISIX_EINVARG else
  condvar_broadcast_msg cv ISIX_EDESTROY false;;;
  isix_free cv;;;
  modify (upd_conds (fun s => s ∖ {[cv]}));;;
  modify (upd_q (delete (QCond cv)));;;
  ret ISIX_EOK.

End Condvar.
