(* ===== verification/Task.v ===== *)
(** * Tasks (libisix/kernel/task.c) and the kernel start (isix_init) *)

From S2P Require Import Prelude.
From S2P Require Import DList.
From S2P Require Import Kernel.
From S2P Require Import Scheduler.
From S2P Require Import Events.
From S2P Require Import Mutex.
From stdpp Require Import base gmap list strings.
From Stdlib Require Import ZArith Lia.
Local Open Scope Z_scope.

Definition MAGIC_FILL_VALUE : Z := 0x55.
Definition ISIX_PORT_SCHED_MIN_STACK_DEPTH : Z := 160.
Definition OSREF_T_MAX : Z := 0xffff.

Definition isix_task_flag_newlib : Z := 1.
Definition isix_task_flag_suspended : Z := 2.
Definition isix_task_flag_ref : Z := 8.

Definition INITIAL_XPSR : Z := 0x01000000.

(** [_isixp_task_init_stack] of the Cortex-M3 port: the stack pointer and the stack
    contents after the exception frame was built. *)
Definition _isixp_task_init_stack (terminator sp pfun param : Z) (m : gmap Z Z) : Z * gmap Z Z :=
  let sp := sp - 4 in
  let m := mem_write sp (word_bytes INITIAL_XPSR) m in
  let sp := sp - 4 in
  let m := mem_write sp (word_bytes pfun) m in
  let sp := sp - 4 in
  let m := mem_write sp (word_bytes terminator) m in
  let sp := sp - 5 * 4 in
  let m := mem_write sp (word_bytes param) m in
  (sp - 8 * 4, m).

(** The loop of [isix_free_stack_space]; [None] when it leaves the [n] bytes known to
    the model. *)
Fixpoint count_fill (n : nat) (a : Z) (m : gmap Z Z) : option Z :=
  match n with
  | O => None
  | S n => b ← m !! a;
      if b =? MAGIC_FILL_VALUE then k ← count_fill n (a + 1) m; Some (k + 1) else Some 0
  end.

Section Task.
Context {HS : Type} {AL : Allocator HS}.

(** Address of [_isixp_task_terminator] and size of the newlib [struct _reent]. *)
Context (terminator reent_size : Z).

Local Abbreviation KM := (K HS).

Definition isix_task_create (task_func func_param stack_depth priority flags : Z) : KM Z :=
  if (isix_get_min_priority <? priority) && negb (_isixp_is_idle_prio priority) then ret NULL else
  if stack_depth <? ISIX_PORT_SCHED_MIN_STACK_DEPTH then ret NULL else
  let stack_depth := _isixp_align_size stack_depth in
  task <- isix_alloc 64;;
  if task =? NULL then ret NULL else
  init_stack <- isix_alloc stack_depth;;
  if init_stack =? NULL then isix_free task;;; ret NULL else
  impure <- (if has_bits flags isix_task_flag_newlib then isix_alloc reent_size else ret NULL);;
  if has_bits flags isix_task_flag_newlib && (impure =? NULL)
  then isix_free init_stack;;; isix_free task;;; ret NULL else
  let top_stack := init_stack + stack_depth in
  modify (upd_mem (mem_fill init_stack MAGIC_FILL_VALUE (Z.to_nat stack_depth)));;;
  q_init (QExit task);;;
  ml_init task;;;
  mem <- gets k_mem;;
  let '(top_stack, mem) := _isixp_task_init_stack terminator top_stack task_func func_param mem in
  modify (upd_mem (fun _ => mem));;;
  let suspended := has_bits flags isix_task_flag_suspended in
  modify (upd_tasks (insert task
    (Task top_stack init_stack priority priority
       (if has_bits flags isix_task_flag_ref then 1 else 0)
       (if suspended then OSTHR_STATE_SUSPEND else OSTHR_STATE_CREATED)
       false 0 NULL 0 impure)));;;
  when (negb suspended)
    (isix_enter_critical;;; _isixp_wakeup_task task ISIX_EOK);;;
  ret task.

(** [task?task:currp] *)
Definition task_or_current (task : Z) : KM Z :=
  cur <- gets k_currp;; ret (if task =? NULL then cur else task).

Definition isix_task_change_prio (task new_prio : Z) : KM Z :=
  run <- gets k_schrun;;
  if negb run then ret ISIX_ESTATE else
  if isix_get_min_priority <? new_prio then ret ISIX_ENOPRIO else
  isix_enter_critical;;;
  taskc <- task_or_current task;;
  o <- task_get taskc;;
  let real_prio := t_real_prio o in
  if real_prio =? new_prio then isix_exit_critical;;; ret ISIX_EOK else
  task_upd taskc (set_t_real_prio new_prio);;;
  when ((t_prio o =? real_prio) || _isixp_prio_gt new_prio (t_prio o))
    (_isixp_reallocate_priority taskc new_prio;;; _isix_port_yield);;;
  isix_exit_critical;;;
  ret real_prio.

(** The loop of [wake_exit_waiters]. *)
Fixpoint exit_waiters_loop (l : list Z) (msg woken : Z) : KM Z :=
  match l with
  | [] => ret woken
  | tsk :: l =>
      q_delete tsk;;;
      _isixp_wakeup_task_l tsk msg;;;
      higher <- (if woken =? NULL then ret true
                 else o <- task_get tsk;; w <- task_get woken;;
                      ret (_isixp_prio_gt (t_prio o) (t_prio w)));;
      exit_waiters_loop l msg (if higher : bool then tsk else woken)
  end.

Definition wake_exit_waiters (task msg : Z) : KM Z :=
  l <- q_list (QExit task);; exit_waiters_loop l msg NULL.

Definition isix_task_kill (task : Z) : KM unit :=
  taskd <- task_or_current task;;
  isix_enter_critical;;;
  o <- task_get taskd;;
  if bool_decide (t_state o = OSTHR_STATE_ZOMBIE \/ t_state o = OSTHR_STATE_EXITED)
  then isix_exit_critical else
  _isixp_mutex_unlock_all_in_task taskd;;;
  cur <- gets k_currp;;
  woken <- wake_exit_waiters taskd (if taskd =? cur then ISIX_EOK else ISIX_EDESTROY);;
  _isixp_add_kill_or_set_suspend taskd false;;;
  if taskd =? cur then isix_exit_critical;;; isix_yield
  else if negb (woken =? NULL) then _isixp_do_reschedule woken
  else isix_exit_critical.

Definition isix_task_self : KM Z := gets k_currp.

(** The stack size bounds the walk. *)
Definition isix_free_stack_space (task size : Z) : KM Z :=
  taskd <- task_or_current task;;
  isix_enter_critical;;;
  o <- task_get taskd;;
  if t_init_stack o =? NULL then isix_exit_critical;;; ret ISIX_EBADF else
  m <- gets k_mem;;
  n <- of_option (count_fill (Z.to_nat size) (t_init_stack o) m);;
  isix_exit_critical;;;
  ret n.

Definition isix_get_task_priority (task : Z) : KM Z :=
  taskd <- task_or_current task;; o <- task_get taskd;; ret (t_real_prio o).

Definition isix_get_task_inherited_priority (task : Z) : KM Z :=
  taskd <- task_or_current task;; o <- task_get taskd;; ret (t_prio o).

Definition isix_get_task_state (task : Z) : KM osthr_state :=
  taskd <- task_or_current task;; o <- task_get taskd;; ret (t_state o).

Definition isix_task_suspend (task : Z) : KM unit :=
  isix_enter_critical;;;
  taskd <- task_or_current task;;
  o <- task_get taskd;;
  if bool_decide (t_state o = OSTHR_STATE_ZOMBIE \/ t_state o = OSTHR_STATE_EXITED \/
                  t_state o = OSTHR_STATE_SUSPEND)
  then isix_exit_critical else
  _isixp_add_kill_or_set_suspend taskd true;;;
  cur <- gets k_currp;;
  if taskd =? cur then isix_exit_critical;;; isix_yield else isix_exit_critical.

Definition isix_task_resume (task : Z) : KM Z :=
  cur <- gets k_currp;;
  if (task =? cur) || (task =? NULL) then ret ISIX_EINVARG else
  isix_enter_critical;;;
  o <- task_get task;;
  if bool_decide (t_state o = OSTHR_STATE_SUSPEND) then
    _isixp_wakeup_task task ISIX_EOK;;; ret ISIX_EOK
  else isix_exit_critical;;; ret ISIX_ESTATE.

Definition isix_task_ref (task : Z) : KM Z :=
  taskd <- task_or_current task;;
  isix_enter_critical;;;
  o <- task_get taskd;;
  r <- (if OSREF_T_MAX <=? t_refcnt o then ret ISIX_EINVARG
        else task_upd taskd (set_t_refcnt (t_refcnt o + 1));;; ret ISIX_EOK);;
  isix_exit_critical;;;
  ret r.

Definition isix_task_unref (task : Z) : KM Z :=
  taskd <- task_or_current task;;
  isix_enter_critical;;;
  o <- task_get taskd;;
  if t_refcnt o <? 1 then isix_exit_critical;;; ret ISIX_EINVARG else
  task_upd taskd (set_t_refcnt (t_refcnt o - 1));;;
  let do_clean := (t_refcnt o - 1 =? 0) && bool_decide (t_state o = OSTHR_STATE_EXITED) in
  isix_exit_critical;;;
  when do_clean (free_task taskd);;;
  ret ISIX_EOK.

(** The loop of [isix_task_wait_for] up to [isix_yield]. *)
Definition task_wait_round (task : Z) : KM wait_step :=
  isix_enter_critical;;;
  o <- task_get task;;
  if t_refcnt o =? 0 then isix_exit_critical;;; ret (Done ISIX_ENOREF) else
  if bool_decide (t_state o = OSTHR_STATE_ZOMBIE \/ t_state o = OSTHR_STATE_EXITED)
  then isix_exit_critical;;; ret (Done ISIX_EOK) else
  cur <- gets k_currp;;
  task_upd cur (set_t_wait_aborted false);;;
  _isixp_set_sleep OSTHR_STATE_WTEXIT;;;
  q_insert_end (QExit task) cur;;;
  isix_exit_critical;;;
  isix_yield;;;
  ret Blocked.

Definition isix_task_wait_for (task : Z) : KM wait_step :=
  cur <- gets k_currp;;
  if (task =? cur) || (task =? NULL) then ret (Done ISIX_EINVARG) else task_wait_round task.

Definition task_wait_resume (task : Z) : KM wait_step :=
  cur <- gets k_currp;;
  o <- task_get cur;;
  if t_wait_aborted o then task_wait_round task else ret (Done (t_dmsg o)).

(** ** Kernel start *)

(** [sizeof(task_ready_t)] *)
Definition task_ready_size : Z := 20.

(** Addresses of the elements of the array of priority elements. *)
Definition prio_elems (base : Z) : list Z :=
  (fun i => base + task_ready_size * Z.of_nat i) <$>
    seq 0 (Z.to_nat (CONFIG_ISIX_NUMBER_OF_PRIORITIES + 1)).

(** [isix_init] up to [_isix_port_conf_hardware]; [_isixp_alloc_init] sets the heap up
    before.  [idle] is the address of the function of the idle task. *)
Definition isix_init (idle : Z) : KM unit :=
  modify (upd_sched_lock (fun _ => 0));;;
  modify (upd_critical_count (fun _ => 0));;;
  pl_init PReady;;;
  tl_init false;;;
  tl_init true;;;
  modify (upd_pwait (fun _ => false));;;
  q_init QZombie;;;
  pl_init PFree;;;
  prio <- isix_alloc (task_ready_size * (CONFIG_ISIX_NUMBER_OF_PRIORITIES + 1));;
  if prio =? NULL then panic "Insufficient memory alloc priority list" else
  for_each (prio_elems prio)
    (fun e => modify (upd_prios (insert e 0));;; pl_insert_end PFree e);;;
  t <- isix_task_create idle NULL ISIX_PORT_SCHED_MIN_STACK_DEPTH
         CONFIG_ISIX_NUMBER_OF_PRIORITIES 0;;
  if t =? NULL then panic "Insufficient memory idle task" else ret tt.

End Task.
