(* ===== verification/Fifo.v ===== *)
(** * Message queues (libisix/kernel/fifo.c, fifo_event.c)

    A fifo is a ring buffer of fixed size items between two semaphores: the tokens
    of [tx_sem] are the free slots, those of [rx_sem] the stored items. *)

From S2P Require Import Prelude.
From S2P Require Import DList.
From S2P Require Import Kernel.
From S2P Require Import Scheduler.
From S2P Require Import Events.
From S2P Require Import Semaphore.
From stdpp Require Import base gmap list strings.
From Stdlib Require Import ZArith Lia.
Local Open Scope Z_scope.

Definition isix_fifo_f_noirq : Z := 1.
Definition ISIX_FIFO_EVENT_INVALID_BITS : Z := 0xff.

(** [&fifo->rx_sem] and [&fifo->tx_sem] *)
Definition f_rx_sem (fifo : Z) : Z := fifo + 20.
Definition f_tx_sem (fifo : Z) : Z := fifo + 48.

(** [p += elem_size; if( p >= mem_p + size ) p = mem_p;] *)
Definition fifo_advance (f : fifo) (p : Z) : Z :=
  let p := p + f_elem_size f in
  if f_mem_p f + f_size f <=? p then f_mem_p f else p.

(** The item is copied to [tx_p] and [tx_p] advances. *)
Definition fifo_put (item : list Z) (f : fifo) (m : gmap Z Z) : fifo * gmap Z Z :=
  let m := mem_write (f_tx_p f) (take (Z.to_nat (f_elem_size f)) item) m in
  (set_f_tx_p (fifo_advance f (f_tx_p f)) f, m).

(** The item is copied from [rx_p] and [rx_p] advances. *)
Definition fifo_get_item (f : fifo) (m : gmap Z Z) : option (list Z * fifo) :=
  item ← mem_read (f_rx_p f) (Z.to_nat (f_elem_size f)) m;
  Some (item, set_f_rx_p (fifo_advance f (f_rx_p f)) f).

Section Fifo.
Context {HS : Type} {AL : Allocator HS}.

Local Abbreviation KM := (K HS).

Definition isix_fifo_create_ex (n_elem elem_size flags : Z) : KM Z :=
  fifo <- isix_alloc 88;;
  if fifo =? NULL then ret NULL else
  let size := i32 (n_elem * elem_size) in
  mem_p <- isix_alloc (u32 size);;
  if mem_p =? NULL then isix_free fifo;;; ret NULL else
  modify (upd_fifos (insert fifo (Fifo mem_p mem_p mem_p size elem_size flags NULL 0)));;;
  _ <- isix_sem_create (f_rx_sem fifo) 0;;
  _ <- isix_sem_create (f_tx_sem fifo) n_elem;;
  ret fifo.

Definition _fifo_lock (fifo : Z) : KM unit :=
  f <- fifo_get fifo;;
  if has_bits (f_flags f) isix_fifo_f_noirq then _isixp_lock_scheduler else isix_enter_critical.

Definition _fifo_unlock (fifo : Z) : KM unit :=
  f <- fifo_get fifo;;
  if has_bits (f_flags f) isix_fifo_f_noirq then _isixp_unlock_scheduler else isix_exit_critical.

Definition _isixp_fifo_rxavail_event_raise (fifo : Z) (isr : bool) : KM unit :=
  f <- fifo_get fifo;;
  if negb (f_evt f =? NULL) && (f_bitno f <=? 31)
  then _ <- _isixp_event_set (f_evt f) (Z.shiftl 1 (f_bitno f)) isr;; ret tt
  else ret tt.

(** The copy into the ring between lock and unlock. *)
Definition fifo_store (fifo : Z) (item : list Z) : KM unit :=
  _fifo_lock fifo;;;
  f <- fifo_get fifo;;
  m <- gets k_mem;;
  if (length item <? Z.to_nat (f_elem_size f))%nat then fault else
  let '(f', m') := fifo_put item f m in
  modify (upd_mem (fun _ => m'));;;
  fifo_upd fifo (fun _ => f');;;
  _fifo_unlock fifo.

(** The copy out of the ring between lock and unlock. *)
Definition fifo_fetch (fifo : Z) : KM (list Z) :=
  _fifo_lock fifo;;;
  f <- fifo_get fifo;;
  m <- gets k_mem;;
  r <- of_option (fifo_get_item f m);;
  fifo_upd fifo (fun _ => snd r);;;
  _fifo_unlock fifo;;;
  ret (fst r).

(** [isix_fifo_write] up to the yield of [isix_sem_wait], which may be the whole
    call. *)
Definition isix_fifo_write_wait (fifo timeout : Z) : KM (wait_step * Z) :=
  if fifo =? NULL then ret (Done ISIX_EINVARG, 0) else isix_sem_wait (f_tx_sem fifo) timeout.

(** [isix_fifo_write] after [isix_sem_wait] has returned [wrc]. *)
Definition isix_fifo_write_finish (fifo : Z) (item : list Z) (wrc : Z) : KM Z :=
  if wrc <? 0 then ret wrc else
  fifo_store fifo item;;;
  _isixp_lock_scheduler;;;
  rc <- isix_sem_signal (f_rx_sem fifo);;
  _isixp_fifo_rxavail_event_raise fifo false;;;
  _isixp_unlock_scheduler;;;
  ret rc.

Definition isix_fifo_write_isr (fifo : Z) (item : list Z) : KM Z :=
  if fifo =? NULL then ret ISIX_EINVARG else
  f <- fifo_get fifo;;
  if has_bits (f_flags f) isix_fifo_f_noirq then ret ISIX_EINVARG else
  r <- isix_sem_trywait (f_tx_sem fifo);;
  if r <? 0 then ret ISIX_EFIFOFULL else
  fifo_store fifo item;;;
  rc <- isix_sem_signal_isr (f_rx_sem fifo);;
  _isixp_fifo_rxavail_event_raise fifo true;;;
  ret rc.

Definition isix_fifo_read_wait (fifo timeout : Z) : KM (wait_step * Z) :=
  if fifo =? NULL then ret (Done ISIX_EINVARG, 0) else isix_sem_wait (f_rx_sem fifo) timeout.

(** [isix_fifo_read] after [isix_sem_wait] has returned [rrc]: the result and the item
    stored through the caller's pointer. *)
Definition isix_fifo_read_finish (fifo rrc : Z) : KM (Z * option (list Z)) :=
  if rrc <? 0 then ret (rrc, None) else
  item <- fifo_fetch fifo;;
  rc <- isix_sem_signal (f_tx_sem fifo);;
  ret (rc, Some item).

Definition isix_fifo_read_isr (fifo : Z) : KM (Z * option (list Z)) :=
  if fifo =? NULL then ret (ISIX_EINVARG, None) else
  f <- fifo_get fifo;;
  if has_bits (f_flags f) isix_fifo_f_noirq then ret (ISIX_EINVARG, None) else
  r <- isix_sem_trywait (f_rx_sem fifo);;
  if r <? 0 then ret (ISIX_EFIFOEMPTY, None) else
  item <- fifo_fetch fifo;;
  rc <- isix_sem_signal_isr (f_tx_sem fifo);;
  ret (rc, Some item).

(** The embedded semaphores live in the block of the fifo. *)
Definition isix_fifo_destroy (fifo : Z) : KM Z :=
  if fifo =? NULL then ret ISIX_EINVARG else
  _fifo_lock fifo;;;
  _ <- isix_sem_destroy (f_rx_sem fifo);;
  _ <- isix_sem_destroy (f_tx_sem fifo);;
  _fifo_unlock fifo;;;
  f <- fifo_get fifo;;
  isix_free (f_mem_p f);;;
  isix_free fifo;;;
  modify (upd_fifos (delete fifo));;;
  modify (upd_sems (fun m => delete (f_rx_sem fifo) (delete (f_tx_sem fifo) m)));;;
  modify (upd_q (fun q => delete (QSem (f_rx_sem fifo)) (delete (QSem (f_tx_sem fifo)) q)));;;
  ret ISIX_EOK.

Definition isix_fifo_count (fifo : Z) : KM Z :=
  if fifo =? NULL then ret ISIX_EINVARG else
  val <- isix_sem_getval (f_rx_sem fifo);;
  ret (if 0 <? val then val else 0).

Definition isix_fifo_event_connect (fifo evt inbit : Z) : KM Z :=
  if (fifo =? NULL) || (evt =? NULL) then ret ISIX_EINVARG else
  if (inbit <? 0) || (31 <? inbit) then ret ISIX_EINVARG else
  f <- fifo_get fifo;;
  if negb (f_evt f =? 0) then ret ISIX_EBUSY else
  fifo_upd fifo (set_f_evt evt);;;
  fifo_upd fifo (set_f_bitno inbit);;;
  ret ISIX_EOK.

Definition isix_fifo_event_disconnect (fifo evt : Z) : KM Z :=
  if (fifo =? NULL) || (evt =? NULL) then ret ISIX_EINVARG else
  f <- fifo_get fifo;;
  if negb (f_evt f =? evt) then ret ISIX_EBUSY else
  fifo_upd fifo (set_f_evt NULL);;;
  fifo_upd fifo (set_f_bitno ISIX_FIFO_EVENT_INVALID_BITS);;;
  ret ISIX_EOK.

End Fifo.
