(* ===== verification/OsTime.v ===== *)
(** * Time services (libisix/kernel/ostime.c) and error texts (error.c) *)

From S2P Require Import Prelude.
From S2P Require Import Systimer.
From S2P Require Import OsStats.
From S2P Require Import Kernel.
From S2P Require Import Scheduler.
From S2P Require Import Events.
From stdpp Require Import base gmap list strings.
From Stdlib Require Import ZArith Lia.
Local Open Scope Z_scope.

Definition us_per_tick : Z := 1000000 / CONFIG_ISIX_HZ.

(** The value [isix_get_ujiffies] computes from its three readings. *)
Definition ujiffies (jiffies cycles cycles_per_tick : Z) : Z :=
  u64 (u64 (jiffies * us_per_tick) + u64 (cycles * us_per_tick) / cycles_per_tick).

(** Loop condition of [isix_wait_us]: true when the wait is over. *)
Definition wait_us_over (t1 t2 timeout : Z) : bool :=
  if t1 <=? t2 then timeout <? t2 - t1 else timeout <? t1 - t2.

Definition isix_ms2tick (ms : Z) : Z :=
  let ticks := u32 (CONFIG_ISIX_HZ * ms) / 1000 in
  if ticks =? 0 then ticks + 1 else ticks.

(** Busy wait of [isix_wait] before the scheduler runs: the test of the loop that was
    chosen at time [t1], at time [now]. *)
Definition wait_busy (t1 timeout now : Z) : bool :=
  let t := u32 (t1 + timeout) in
  if t1 <? t then now <? t else t <? now.

Section OsTime.
Context {HS : Type} {AL : Allocator HS}.

Local Abbreviation KM := (K HS).

Definition isix_get_ujiffies : KM Z :=
  isix_enter_critical;;;
  jiffies <- isix_get_jiffies;;
  t <- gets k_timer;;
  let '((cycles, cycles_per_tick), t') := _isix_port_systimer_subtick t in
  modify (upd_timer (fun _ => t'));;;
  isix_exit_critical;;;
  ret (ujiffies jiffies cycles cycles_per_tick).

(** [isix_wait]: the caller sleeps ([None]) when the scheduler runs, and busy waits
    from the returned time when it does not. *)
Definition isix_wait (timeout : Z) : KM (option Z) :=
  run <- gets k_schrun;;
  if run : bool then
    isix_enter_critical;;;
    _isixp_set_sleep_timeout OSTHR_STATE_SLEEPING timeout;;;
    isix_exit_critical;;;
    _isix_port_yield;;;
    ret None
  else t1 <- isix_get_jiffies;; ret (Some t1).

End OsTime.

(** ** Error texts *)

Definition error_string_table : list string :=
  ["No error"; "Unknown error code"; "Cannot allocate memory"; "Syscall timeout";
   "Invalid argument"; "Fifo is full"; "Resource already used"; "Invalid system priority";
   "Operation not supported"; "IPC object has been reset"; "IPC object has been destroyed";
   "Invalid state"; "Permission denied"; "Operation canceled"; "Object not locked";
   "Task is not referenced"; "Fifo queue is empty"; "Invalid address"; "Invalid data"]%string.

Definition _ISIX_ERROR_EOF : Z := -19.

(** [None] is an access outside of the table. *)
Definition isix_strerror (error : Z) : option string :=
  let error := if 0 <? error then 1 else i32 (- error) in
  let error := if - _ISIX_ERROR_EOF <=? error then 1 else error in
  if error <? 0 then None else error_string_table !! Z.to_nat error.

(** Every error code of the kernel has a text, and every other [int] above the least
    one is reported as unknown. *)
Lemma strerror_total e :
  - 2 ^ 31 < e < 2 ^ 31 ->
  exists s, isix_strerror e = Some s /\ (e < -18 \/ 0 < e -> s = "Unknown error code"%string).
Proof.
  intros He. unfold isix_strerror, _ISIX_ERROR_EOF.
  destruct (Z.ltb_spec 0 e) as [Hp|Hn]; [by eexists|].
  rewrite i32_id by (unfold in_i32; lia).
  destruct (Z.leb_spec (- (-19)) (- e)); [by eexists|].
  rewrite (proj2 (Z.ltb_ge _ _)) by lia.
  destruct (lookup_lt_is_Some_2 error_string_table (Z.to_nat (- e))) as [s Hs].
  { change (length error_string_table) with 19%nat. lia. }
  exists s. split; [done|lia].
Qed.
