(* ===== verification/SchedInv.v ===== *)
(** * Invariant of the scheduler lists

    Where a task is queued is determined by its state: a ready or running task is
    on the list of the element of its priority, a task that waits is on the list of
    the object it waits for, a dead one on the zombie list.  The ready list is
    strictly ordered by priority, its elements are not empty, and every priority
    element is on the ready or on the free list.  The file states this invariant
    and shows how it behaves under the elementary list changes of the kernel. *)

From S2P Require Import Prelude.
From S2P Require Import DList.
From S2P Require Import Kernel.
From S2P Require Import Scheduler.
From stdpp Require Import base numbers gmap list sorting.
From Stdlib Require Import ZArith Lia.
Local Open Scope Z_scope.

Implicit Types (ts : gmap Z task) (ps : gmap Z Z) (q : gmap qhead (list Z))
  (pl : gmap phead (list Z)).

Definition active (st : osthr_state) : bool :=
  match st with OSTHR_STATE_READY | OSTHR_STATE_RUNNING => true | _ => false end.

(** States in which the task is on a list. *)
Definition queued_state (st : osthr_state) : bool :=
  match st with
  | OSTHR_STATE_READY | OSTHR_STATE_RUNNING | OSTHR_STATE_WTSEM | OSTHR_STATE_WTMTX
  | OSTHR_STATE_WTCOND | OSTHR_STATE_WTEVT | OSTHR_STATE_WTEXIT | OSTHR_STATE_ZOMBIE => true
  | _ => false
  end.

(** The states of a task that has ended. *)
Definition ended_state (st : osthr_state) : bool :=
  match st with OSTHR_STATE_ZOMBIE | OSTHR_STATE_EXITED => true | _ => false end.

(** A change of state that neither starts nor ends a task. *)
Definition tame (st st' : osthr_state) : bool :=
  match st' with
  | OSTHR_STATE_RUNNING => bool_decide (st = OSTHR_STATE_RUNNING)
  | OSTHR_STATE_ZOMBIE | OSTHR_STATE_EXITED => ended_state st
  | _ => true
  end.

Lemma tame_refl st : tame st st = true.
Proof. by destruct st. Qed.

Lemma tame_eq st st' : st' = st -> tame st st' = true.
Proof. intros ->. apply tame_refl. Qed.

Lemma tame_trans st1 st2 st3 : tame st1 st2 = true -> tame st2 st3 = true -> tame st1 st3 = true.
Proof. by destruct st1, st2, st3. Qed.

Lemma tame_running st st' : tame st st' = true -> st' = OSTHR_STATE_RUNNING -> st = OSTHR_STATE_RUNNING.
Proof. intros H ->. by apply bool_decide_eq_true in H. Qed.

Lemma tame_ended st st' : tame st st' = true -> ended_state st' = true -> ended_state st = true.
Proof. by destruct st'. Qed.

#[export] Hint Resolve tame_refl : core.

(** List [h] is the one the state of the task asks for. *)
Definition at_queue (o : task) (h : qhead) : Prop :=
  match h with
  | QPrio e => active (t_state o) = true /\ t_prio_elem o = e
  | QSem a => t_state o = OSTHR_STATE_WTSEM /\ t_obj o = a
  | QMtx a => t_state o = OSTHR_STATE_WTMTX /\ t_obj o = a
  | QCond a => t_state o = OSTHR_STATE_WTCOND /\ t_obj o = a
  | QEvt _ => t_state o = OSTHR_STATE_WTEVT
  | QExit _ => t_state o = OSTHR_STATE_WTEXIT
  | QZombie => t_state o = OSTHR_STATE_ZOMBIE
  end.

(** Wait lists ordered by priority; the others are in order of arrival. *)
Definition prio_queue (h : qhead) : bool :=
  match h with QSem _ | QMtx _ | QCond _ => true | _ => false end.

Definition prio_of ts (t : Z) : Z := match ts !! t with Some o => t_prio o | None => 0 end.
Definition elem_prio ps (e : Z) : Z := default 0 (ps !! e).

(** The ready list and the free list of priority elements. *)
Record prio_lists ts ps q pl (ready free : list Z) : Prop := {
  p_ready : pl !! PReady = Some ready;
  p_free : pl !! PFree = Some free;
  p_nodup : NoDup (ready ++ free);
  p_len : Z.of_nat (length (ready ++ free)) = CONFIG_ISIX_NUMBER_OF_PRIORITIES + 1;
  p_elem : forall e, e ∈ ready ++ free -> is_Some (ps !! e);
  p_sorted : sorted_by (elem_prio ps) ready;
  p_inj : NoDup (elem_prio ps <$> ready);
  p_full : forall e, e ∈ ready -> exists t l, q !! QPrio e = Some (t :: l);
  p_member : forall e l t, q !! QPrio e = Some l -> t ∈ l ->
    e ∈ ready /\ prio_of ts t = elem_prio ps e
}.

(** The invariant; [d] is a task an operation has taken off its list. *)
Record ready_ok (d : option Z) ts ps q pl : Prop := {
  r_qwf : store_wf q;
  r_at : forall h l t, q !! h = Some l -> t ∈ l -> exists o, ts !! t = Some o /\ at_queue o h;
  r_queued : forall t o, ts !! t = Some o -> d <> Some t -> queued_state (t_state o) = true ->
    exists h l, q !! h = Some l /\ t ∈ l;
  r_detached : forall t, d = Some t -> unlinked t q;
  r_sorted : forall h l, prio_queue h = true -> q !! h = Some l -> sorted_by (prio_of ts) l;
  r_range : forall t o, ts !! t = Some o -> 0 <= t_prio o <= CONFIG_ISIX_NUMBER_OF_PRIORITIES;
  r_null : ts !! NULL = None;
  r_lists : exists ready free, prio_lists ts ps q pl ready free
}.

(** ** Consequences *)

Lemma at_queue_queued o h : at_queue o h -> queued_state (t_state o) = true.
Proof.
  unfold at_queue. destruct h; intros H; destruct_and?;
    match goal with
    | E : t_state o = _ |- _ => by rewrite E
    | E : active _ = true |- _ => by destruct (t_state o)
    end.
Qed.

(** A task is on the list its state asks for and on no other. *)
Lemma not_queued_unlinked d ts ps q pl t o :
  ready_ok d ts ps q pl -> ts !! t = Some o -> queued_state (t_state o) = false -> unlinked t q.
Proof.
  intros Hok Ho Hs h l Hl Hin. destruct (r_at _ _ _ _ _ Hok h l t Hl Hin) as (o' & Ho' & Hat).
  simplify_eq. apply at_queue_queued in Hat. congruence.
Qed.

Lemma queued_at d ts ps q pl t o :
  ready_ok d ts ps q pl -> ts !! t = Some o -> d <> Some t -> queued_state (t_state o) = true ->
  exists h l, q !! h = Some l /\ t ∈ l /\ at_queue o h.
Proof.
  intros Hok Ho Hd Hs. destruct (r_queued _ _ _ _ _ Hok t o Ho Hd Hs) as (h & l & Hl & Hin).
  destruct (r_at _ _ _ _ _ Hok h l t Hl Hin) as (o' & Ho' & Hat). simplify_eq. eauto.
Qed.

(** An active task is on the list of its own priority element. *)
Lemma active_at d ts ps q pl t o :
  ready_ok d ts ps q pl -> ts !! t = Some o -> d <> Some t -> active (t_state o) = true ->
  exists l, q !! QPrio (t_prio_elem o) = Some l /\ t ∈ l.
Proof.
  intros Hok Ho Hd Ha.
  destruct (queued_at _ _ _ _ _ t o Hok Ho Hd) as (h & l & Hl & Hin & Hat);
    [by destruct (t_state o)|].
  destruct h; simpl in Hat; destruct_and?; subst; eauto;
    rewrite ?Hat in Ha; try done; match goal with E : t_state o = _ |- _ => by rewrite E in Ha end.
Qed.

Lemma pl_wf ts ps q pl ready free : prio_lists ts ps q pl ready free -> store_wf pl.
Proof.
  intros Hp. pose proof (p_nodup _ _ _ _ _ _ Hp) as (Hn1 & Hd & Hn2)%NoDup_app.
  pose proof (p_ready _ _ _ _ _ _ Hp) as Hr. pose proof (p_free _ _ _ _ _ _ Hp) as Hf. split.
  - intros [] l E; by simplify_eq.
  - intros [] [] l1 l2 n E1 E2; simplify_eq; try done; intros H1 H2; destruct (Hd n); done.
Qed.

(** ** The search along the ready list *)

Lemma find_ready_prio_Some ps p l e :
  find_ready_prio (fun e => ps !! e) p l = Some e -> e ∈ l /\ ps !! e = Some p.
Proof.
  induction l as [|x l IH]; simpl; [done|].
  destruct (ps !! x) as [px|] eqn:E; [|done].
  destruct (Z.eqb_spec px p) as [->|].
  - intros [= <-]. split; [left|done].
  - destruct (_isixp_prio_gt p px); [done|]. intros [? ?]%IH. split; [by right|done].
Qed.

Lemma find_ready_prio_None ps p l :
  (forall e, e ∈ l -> is_Some (ps !! e)) -> sorted_by (elem_prio ps) l ->
  find_ready_prio (fun e => ps !! e) p l = None -> forall e, e ∈ l -> elem_prio ps e <> p.
Proof.
  induction l as [|x l IH]; simpl; intros Hs Hso Hf e He; [by apply elem_of_nil in He|].
  apply sorted_by_cons in Hso as [Hso Hx].
  destruct (Hs x) as [px Epx]; [by left|]. rewrite Epx in Hf.
  destruct (Z.eqb_spec px p) as [Heq|Hne]; [done|].
  assert (elem_prio ps x = px) as Exp by (unfold elem_prio; by rewrite Epx).
  apply elem_of_cons in He as [->|He]; [by rewrite Exp|].
  unfold _isixp_prio_gt in Hf. destruct (Z.ltb_spec p px).
  - specialize (Hx e He). lia.
  - apply IH; [|done|done|done]. intros. apply Hs. by right.
Qed.

(** Distinct values of a small range. *)
Lemma NoDup_range_length (l : list Z) n :
  NoDup l -> (forall x, x ∈ l -> 0 <= x <= n) -> Z.of_nat (length l) <= n + 1 \/ l = [].
Proof.
  intros Hnd Hr. destruct l as [|y l']; [by right|]. left.
  assert (0 <= n) as Hn by (specialize (Hr y); rewrite elem_of_cons in Hr; lia).
  revert Hnd Hr. generalize (y :: l'). intros l Hnd Hr.
  assert (l ⊆+ seqZ 0 (n + 1)) as Hsub.
  { apply NoDup_submseteq; [done|]. intros x Hx. apply elem_of_seqZ. specialize (Hr x Hx). lia. }
  apply submseteq_length in Hsub. rewrite length_seqZ in Hsub. lia.
Qed.

(** Priorities on the ready list are priorities of tasks. *)
Lemma ready_elem_range d ts ps q pl ready free e :
  ready_ok d ts ps q pl -> prio_lists ts ps q pl ready free -> e ∈ ready ->
  0 <= elem_prio ps e <= CONFIG_ISIX_NUMBER_OF_PRIORITIES.
Proof.
  intros Hok Hp He. destruct (p_full _ _ _ _ _ _ Hp e He) as (t & l & Hl).
  destruct (p_member _ _ _ _ _ _ Hp e _ t Hl) as [_ <-]; [by left|].
  destruct (r_at _ _ _ _ _ Hok _ _ t Hl) as (o & Ho & _); [by left|].
  unfold prio_of. rewrite Ho. by eapply r_range.
Qed.

(** With a priority that is not on the ready list there is a free element. *)
Lemma free_elem_available d ts ps q pl ready free p :
  ready_ok d ts ps q pl -> prio_lists ts ps q pl ready free ->
  0 <= p <= CONFIG_ISIX_NUMBER_OF_PRIORITIES ->
  (forall e, e ∈ ready -> elem_prio ps e <> p) -> exists e f, free = e :: f.
Proof.
  intros Hok Hp Hr Hno. destruct free as [|e f]; [exfalso|by eauto].
  pose proof (p_len _ _ _ _ _ _ Hp) as Hlen. rewrite app_nil_r in Hlen.
  destruct (NoDup_range_length (p :: (elem_prio ps <$> ready)) CONFIG_ISIX_NUMBER_OF_PRIORITIES)
    as [Hl|]; [| |simpl in Hl; rewrite length_fmap in Hl; lia|done].
  - constructor; [|by eapply p_inj]. intros (e & He & Hin)%list_elem_of_fmap. by eapply Hno.
  - intros x [->|(e & -> & Hin)%list_elem_of_fmap]%elem_of_cons; [done|].
    by eapply ready_elem_range.
Qed.

(** ** Elementary changes *)

Definition is_ready_head (h : qhead) : bool := match h with QPrio _ => true | _ => false end.

Lemma prio_of_insert ts t o x :
  prio_of (<[t := o]> ts) x = if decide (x = t) then t_prio o else prio_of ts x.
Proof. unfold prio_of. rewrite lookup_insert. repeat case_decide; subst; done. Qed.

Lemma prio_lists_frame ts ts' ps q q' pl ready free :
  prio_lists ts ps q pl ready free ->
  (forall e, q' !! QPrio e = q !! QPrio e) ->
  (forall e l t, q !! QPrio e = Some l -> t ∈ l -> prio_of ts' t = prio_of ts t) ->
  prio_lists ts' ps q' pl ready free.
Proof.
  intros [] Hq Ht. split; try done.
  - intros e He. rewrite Hq. auto.
  - intros e l t Hl Hin. rewrite Hq in Hl. rewrite (Ht e l t) by done. eauto.
Qed.

(** A task that is on no list may be called detached, and back. *)
Lemma ready_ok_detach ts ps q pl t o :
  ready_ok None ts ps q pl -> ts !! t = Some o -> queued_state (t_state o) = false ->
  ready_ok (Some t) ts ps q pl.
Proof.
  intros Hok Ho Hs. pose proof (not_queued_unlinked _ _ _ _ _ _ _ Hok Ho Hs) as Hu.
  destruct Hok. split; try done.
  - intros t' o' Ho' _. eauto.
  - intros ? [= <-]. done.
Qed.

Lemma ready_ok_attach ts ps q pl t :
  ready_ok (Some t) ts ps q pl ->
  (forall o, ts !! t = Some o -> queued_state (t_state o) = false) ->
  ready_ok None ts ps q pl.
Proof.
  intros [] Hs. split; try done. intros t' o' Ho' _ Hq.
  destruct (decide (t' = t)) as [->|]; [by rewrite (Hs o') in Hq|]. eauto with congruence.
Qed.

(** Any change of a detached task. *)
Lemma ready_ok_upd_detached ts ps q pl t o' :
  ready_ok (Some t) ts ps q pl -> t <> NULL ->
  0 <= t_prio o' <= CONFIG_ISIX_NUMBER_OF_PRIORITIES ->
  ready_ok (Some t) (<[t := o']> ts) ps q pl.
Proof.
  intros Hok Hn Hr. pose proof (r_detached _ _ _ _ _ Hok t eq_refl) as Hu.
  assert (forall h l x, q !! h = Some l -> x ∈ l -> x <> t) as Hne by (intros h l x Hl Hx ->; by eapply Hu).
  destruct Hok. split; try done.
  - intros h l x Hl Hx. rewrite lookup_insert_ne by (symmetry; eauto). eauto.
  - intros x o Hx Hd. rewrite lookup_insert_ne in Hx by congruence. eauto.
  - intros h l Hh Hl. eapply sorted_by_ext; [|by eauto]. intros x Hx.
    rewrite prio_of_insert, decide_False; eauto.
  - intros x o. rewrite lookup_insert. case_decide; [intros [= <-]; done|eauto].
  - by rewrite lookup_insert_ne.
  - destruct r_lists0 as (ready & free & Hp). exists ready, free.
    eapply prio_lists_frame; [done|done|]. intros e l x Hl Hx.
    rewrite prio_of_insert, decide_False; eauto.
Qed.

(** A change of a queued task that its list and its priority do not depend on. *)
Lemma ready_ok_upd_same d ts ps q pl t o o' :
  ready_ok d ts ps q pl -> ts !! t = Some o -> t_prio o' = t_prio o ->
  (forall h, at_queue o h -> at_queue o' h) ->
  (queued_state (t_state o') = true -> queued_state (t_state o) = true) ->
  ready_ok d (<[t := o']> ts) ps q pl.
Proof.
  intros Hok Ho Hp Hat Hq.
  assert (forall x, prio_of (<[t := o']> ts) x = prio_of ts x) as Hprio.
  { intros x. rewrite prio_of_insert. case_decide; [subst|done]. unfold prio_of. by rewrite Ho. }
  destruct Hok. split; try done.
  - intros h l x Hl Hx. destruct (r_at0 h l x Hl Hx) as (ox & Hox & Hatx).
    rewrite lookup_insert. case_decide; [|by eauto]. simplify_eq. eauto.
  - intros x ox. rewrite lookup_insert. case_decide; [|by eauto]. intros [= <-]. subst. eauto.
  - intros h l Hh Hl. eapply sorted_by_ext; [|by eauto]. intros x _. by rewrite Hprio.
  - intros x ox. rewrite lookup_insert. case_decide; [|by eauto]. intros [= <-]. rewrite Hp. eauto.
  - rewrite lookup_insert_ne; [done|]. intros ->. congruence.
  - destruct r_lists0 as (ready & free & Hpl). exists ready, free.
    eapply prio_lists_frame; [done|done|done].
Qed.

Lemma sorted_by_sublist {A} (f : A -> Z) l l' : l' `sublist_of` l -> sorted_by f l -> sorted_by f l'.
Proof.
  induction 1 as [|x l1 l2 Hs IH|x l1 l2 Hs IH]; [done| |].
  - rewrite !sorted_by_cons. intros [Hso Hx]. split; [auto|].
    intros y Hy. apply Hx. by eapply sublist_subseteq.
  - rewrite sorted_by_cons. intros [Hso _]. auto.
Qed.

(** A waiting task leaves its wait list. *)
Lemma ready_ok_q_delete ts ps q pl h l t :
  ready_ok None ts ps q pl -> q !! h = Some l -> t ∈ l -> is_ready_head h = false ->
  ready_ok (Some t) ts ps (<[h := remove_node t l]> q) pl.
Proof.
  intros Hok Hl Hin Hh.
  destruct (seq_delete_in t q h l (r_qwf _ _ _ _ _ Hok) Hl Hin) as (_ & Hwf & Hu).
  destruct Hok. split; try done.
  - intros h' l' x [[<- <-]|[Hne E]]%lookup_insert_Some Hx; [|by eauto].
    apply elem_of_remove_node in Hx as [Hx _]. eauto.
  - intros x o Ho Hd Hq. destruct (r_queued0 x o Ho) as (h' & l' & E & Hx); [done|done|].
    destruct (decide (h' = h)) as [->|]; [|exists h', l'; by rewrite lookup_insert_ne].
    exists h, (remove_node t l). rewrite lookup_insert_eq. split; [done|].
    simplify_eq. apply elem_of_remove_node. split; [done|]. congruence.
  - intros x [= <-]. done.
  - intros h' l' Hh' [[<- <-]|[Hne E]]%lookup_insert_Some; [|by eauto].
    eapply sorted_by_sublist; [apply remove_node_sublist|]. eauto.
  - destruct r_lists0 as (ready & free & Hpl). exists ready, free.
    eapply prio_lists_frame; [done| |done]. intros e. apply lookup_insert_ne. by intros ->.
Qed.

(** A detached task enters the wait list its state asks for. *)
Lemma ready_ok_q_insert ts ps q pl h l l' t o :
  ready_ok (Some t) ts ps q pl -> q !! h = Some l -> ts !! t = Some o -> at_queue o h ->
  is_ready_head h = false -> l' ≡ₚ t :: l ->
  (prio_queue h = true -> sorted_by (prio_of ts) l') ->
  ready_ok None ts ps (<[h := l']> q) pl.
Proof.
  intros Hok Hl Ho Hat Hh Hp Hso.
  destruct (seq_insert_with_ok (fun _ => l') t q h l (r_qwf _ _ _ _ _ Hok)
    (r_detached _ _ _ _ _ Hok t eq_refl) Hl Hp) as [_ Hwf].
  destruct Hok. split; try done.
  - intros h' k x [[<- <-]|[Hne E]]%lookup_insert_Some Hx; [|by eauto].
    rewrite Hp, elem_of_cons in Hx. destruct Hx as [->|Hx]; eauto.
  - intros x ox Hox _ Hq. destruct (decide (x = t)) as [->|Hxt].
    { exists h, l'. rewrite lookup_insert_eq. split; [done|]. rewrite Hp. by left. }
    destruct (r_queued0 x ox Hox) as (h' & k & E & Hx); [congruence|done|].
    destruct (decide (h' = h)) as [->|]; [|exists h', k; by rewrite lookup_insert_ne].
    exists h, l'. rewrite lookup_insert_eq. simplify_eq. split; [done|]. rewrite Hp. by right.
  - intros h' k Hh' [[<- <-]|[Hne E]]%lookup_insert_Some; [auto|eauto].
  - destruct r_lists0 as (ready & free & Hpl). exists ready, free.
    eapply prio_lists_frame; [done| |done]. intros e. apply lookup_insert_ne. by intros ->.
Qed.

(** A list head without tasks is initialised. *)
Lemma ready_ok_q_init d ts ps q pl h :
  ready_ok d ts ps q pl -> (forall l, q !! h = Some l -> l = []) ->
  ready_ok d ts ps (<[h := []]> q) pl.
Proof.
  intros Hok He.
  assert (forall h' l x, <[h := []]> q !! h' = Some l -> x ∈ l -> q !! h' = Some l) as Hl.
  { intros h' l x [[<- <-]|[_ E]]%lookup_insert_Some Hx; [by apply elem_of_nil in Hx|done]. }
  assert (forall h' l x, q !! h' = Some l -> x ∈ l -> <[h := []]> q !! h' = Some l) as Hl'.
  { intros h' l x E Hx. rewrite lookup_insert_ne; [done|].
    intros ->. rewrite (He l E) in Hx. by apply elem_of_nil in Hx. }
  destruct Hok. split; try done.
  - destruct r_qwf0 as [Hnd Hdis]. split.
    + intros h' l [[<- <-]|[_ E]]%lookup_insert_Some; [constructor|eauto].
    + intros h1 h2 l1 l2 x E1 E2 Hx1 Hx2. eauto.
  - intros h' l x E Hx. eauto.
  - intros x o Ho Hd Hq. destruct (r_queued0 x o Ho Hd Hq) as (h' & l & E & Hx). eauto.
  - intros x Hd h' l E Hx. by eapply (r_detached0 x Hd); eauto.
  - intros h' l Hh [[<- <-]|[_ E]]%lookup_insert_Some; [constructor|eauto].
  - destruct r_lists0 as (ready & free & []). exists ready, free. split; try done.
    + intros e Hr. destruct (p_full0 e Hr) as (t & l & E). exists t, l. eapply Hl'; [done|by left].
    + intros e l x E Hx. eauto.
Qed.

(** A detached active task enters the list of its priority element. *)
Lemma ready_ok_link ts ps ps' q pl pl' ready' free' t o e l :
  ready_ok (Some t) ts ps q pl -> ts !! t = Some o -> at_queue o (QPrio e) ->
  q !! QPrio e = Some l ->
  prio_lists ts ps' (<[QPrio e := l ++ [t]]> q) pl' ready' free' ->
  ready_ok None ts ps' (<[QPrio e := l ++ [t]]> q) pl'.
Proof.
  intros Hok Ho Hat Hl Hp.
  assert (l ++ [t] ≡ₚ t :: l) as Hperm by (symmetry; apply Permutation_cons_append).
  destruct (seq_insert_with_ok (fun _ => l ++ [t]) t q (QPrio e) l (r_qwf _ _ _ _ _ Hok)
    (r_detached _ _ _ _ _ Hok t eq_refl) Hl Hperm) as [_ Hwf].
  destruct Hok. split; try done.
  - intros h' k x [[<- <-]|[Hne E]]%lookup_insert_Some Hx; [|by eauto].
    rewrite Hperm, elem_of_cons in Hx. destruct Hx as [->|Hx]; eauto.
  - intros x ox Hox _ Hq. destruct (decide (x = t)) as [->|Hxt].
    { exists (QPrio e), (l ++ [t]). rewrite lookup_insert_eq. split; [done|]. rewrite Hperm. by left. }
    destruct (r_queued0 x ox Hox) as (h' & k & E & Hx); [congruence|done|].
    destruct (decide (h' = QPrio e)) as [->|]; [|exists h', k; by rewrite lookup_insert_ne].
    exists (QPrio e), (l ++ [t]). rewrite lookup_insert_eq. simplify_eq.
    split; [done|]. rewrite Hperm. by right.
  - intros h' k Hh' [[<- <-]|[Hne E]]%lookup_insert_Some; [done|eauto].
  - eauto.
Qed.

Lemma prio_lists_add ts ps q pl ready free t e l :
  prio_lists ts ps q pl ready free -> e ∈ ready -> prio_of ts t = elem_prio ps e ->
  q !! QPrio e = Some l -> prio_lists ts ps (<[QPrio e := l ++ [t]]> q) pl ready free.
Proof.
  intros Hp He Ht Hl. pose proof Hp as []. split; try done.
  - intros e' He'. destruct (decide (e' = e)) as [->|].
    + rewrite lookup_insert_eq. destruct l; simpl; eauto.
    + rewrite lookup_insert_ne by congruence. eauto.
  - intros e' l' x [[Eh <-]|[_ E]]%lookup_insert_Some Hx; [simplify_eq|by eauto].
    apply elem_of_app in Hx as [Hx|Hx%list_elem_of_singleton]; [|subst x]; eauto.
Qed.

Lemma elem_prio_insert_ne ps e p x : x <> e -> elem_prio (<[e := p]> ps) x = elem_prio ps x.
Proof. intros. unfold elem_prio. by rewrite lookup_insert_ne. Qed.

Lemma elem_prio_insert_eq ps e p : elem_prio (<[e := p]> ps) e = p.
Proof. unfold elem_prio. by rewrite lookup_insert_eq. Qed.

(** A new priority element is linked into the ready list. *)
Lemma prio_lists_new ts ps q pl ready e f t p :
  prio_lists ts ps q pl ready (e :: f) -> (forall x, x ∈ ready -> elem_prio ps x <> p) ->
  prio_of ts t = p ->
  prio_lists ts (<[e := p]> ps) (<[QPrio e := [t]]> q)
    (<[PReady := insert_before_first (prio_lower (<[e := p]> ps) p) e ready]> (<[PFree := f]> pl))
    (insert_before_first (prio_lower (<[e := p]> ps) p) e ready) f.
Proof.
  intros Hp Hno Ht. pose proof Hp as [].
  assert (e ∉ ready /\ e ∉ f /\ NoDup (ready ++ f)) as (Her & Hef & Hnd).
  { rewrite <- Permutation_middle in p_nodup0. apply NoDup_cons in p_nodup0 as [Hn ?].
    rewrite elem_of_app in Hn. tauto. }
  set (ps' := <[e := p]> ps).
  assert (forall x, x ∈ ready -> elem_prio ps' x = elem_prio ps x) as Hps.
  { intros x Hx. apply elem_prio_insert_ne. congruence. }
  assert (forall x, x ∈ ready -> prio_lower ps' p x = (p <? elem_prio ps' x)) as Hlow.
  { intros x Hx. unfold prio_lower, elem_prio, ps'. rewrite lookup_insert_ne by congruence.
    destruct (p_elem0 x) as [px Epx]; [apply elem_of_app; by left|]. by rewrite Epx. }
  assert (elem_prio ps' e = p) as Hpe by apply elem_prio_insert_eq.
  rewrite (insert_before_first_ext _ _ e ready Hlow).
  set (ready' := insert_before_first _ e ready).
  assert (ready' ≡ₚ e :: ready) as Hperm by apply insert_before_first_perm.
  split; try done.
  - by rewrite lookup_insert_eq.
  - by rewrite lookup_insert_ne, lookup_insert_eq.
  - rewrite Hperm. simpl. constructor; [|done]. rewrite elem_of_app. tauto.
  - rewrite Hperm. rewrite <- p_len0, <- Permutation_middle. done.
  - intros x. rewrite Hperm. simpl. rewrite elem_of_cons. intros Hx. unfold ps'.
    destruct (decide (x = e)) as [->|]; [rewrite lookup_insert_eq; eauto|].
    rewrite lookup_insert_ne by done. apply p_elem0. rewrite <- Permutation_middle, elem_of_cons.
    done.
  - apply insert_before_first_sorted; [apply elem_prio_insert_eq|].
    eapply sorted_by_ext; [|done]. intros x Hx. symmetry. auto.
  - rewrite Hperm, fmap_cons, Hpe.
    assert (elem_prio ps' <$> ready = elem_prio ps <$> ready) as ->
      by (apply list_fmap_ext; intros i x Hx; apply Hps; by eapply list_elem_of_lookup_2).
    constructor; [|done]. intros (x & Hx & Hin)%list_elem_of_fmap. by eapply Hno.
  - intros x. rewrite Hperm, elem_of_cons. intros [->|Hx]; [rewrite lookup_insert_eq; eauto|].
    rewrite lookup_insert_ne by congruence. eauto.
  - intros e' l x [[Eh <-]|[Hne E]]%lookup_insert_Some Hx.
    + simplify_eq. apply list_elem_of_singleton in Hx as ->. rewrite Hperm. split; [by left|]. by rewrite Hpe.
    + destruct (p_member0 e' l x E Hx) as [Hin Hpr]. rewrite Hperm.
      split; [by right|]. by rewrite Hps.
Qed.

(** An active task leaves the list of its priority element. *)
Lemma ready_ok_unlink ts ps q pl pl' ready' free' t e l :
  ready_ok None ts ps q pl -> q !! QPrio e = Some l -> t ∈ l ->
  prio_lists ts ps (<[QPrio e := remove_node t l]> q) pl' ready' free' ->
  ready_ok (Some t) ts ps (<[QPrio e := remove_node t l]> q) pl'.
Proof.
  intros Hok Hl Hin Hp.
  destruct (seq_delete_in t q (QPrio e) l (r_qwf _ _ _ _ _ Hok) Hl Hin) as (_ & Hwf & Hu).
  destruct Hok. split; try done.
  - intros h' l' x [[<- <-]|[Hne E]]%lookup_insert_Some Hx; [|by eauto].
    apply elem_of_remove_node in Hx as [Hx _]. eauto.
  - intros x o Ho Hd Hq. destruct (r_queued0 x o Ho) as (h' & l' & E & Hx); [done|done|].
    destruct (decide (h' = QPrio e)) as [->|]; [|exists h', l'; by rewrite lookup_insert_ne].
    exists (QPrio e), (remove_node t l). rewrite lookup_insert_eq. split; [done|].
    simplify_eq. apply elem_of_remove_node. split; [done|]. congruence.
  - intros x [= <-]. done.
  - intros h' l' Hh' [[<- <-]|[Hne E]]%lookup_insert_Some; [done|eauto].
  - eauto.
Qed.

(** The list of the element keeps other tasks. *)
Lemma prio_lists_remove ts ps q pl ready free t e l :
  prio_lists ts ps q pl ready free -> q !! QPrio e = Some l -> remove_node t l <> [] ->
  prio_lists ts ps (<[QPrio e := remove_node t l]> q) pl ready free.
Proof.
  intros Hp Hl Hne. pose proof Hp as []. split; try done.
  - intros e' He'. destruct (decide (e' = e)) as [->|].
    + rewrite lookup_insert_eq. destruct (remove_node t l); eauto. done.
    + rewrite lookup_insert_ne by congruence. eauto.
  - intros e' l' x [[Eh <-]|[_ E]]%lookup_insert_Some Hx; [|by eauto]. simplify_eq.
    apply elem_of_remove_node in Hx as [Hx _]. eauto.
Qed.

(** The last task leaves: the element goes back to the free list. *)
Lemma prio_lists_last ts ps q pl ready free e :
  prio_lists ts ps q pl ready free -> e ∈ ready ->
  prio_lists ts ps (<[QPrio e := []]> q)
    (<[PFree := free ++ [e]]> (<[PReady := remove_node e ready]> pl))
    (remove_node e ready) (free ++ [e]).
Proof.
  intros Hp He. pose proof Hp as [].
  apply list_elem_of_split in He as (r1 & r2 & ->).
  assert (remove_node e (r1 ++ e :: r2) = r1 ++ r2) as ->.
  { apply remove_node_split. by apply NoDup_app in p_nodup0 as [? _]. }
  assert ((r1 ++ r2) ++ free ++ [e] ≡ₚ (r1 ++ e :: r2) ++ free) as Hperm.
  { rewrite app_assoc, <- Permutation_cons_append, <- Permutation_middle. done. }
  assert (e ∉ r1 ++ r2) as Hn.
  { rewrite <- Permutation_middle in p_nodup0. simpl in p_nodup0.
    apply NoDup_cons in p_nodup0 as [Hn _]. rewrite elem_of_app in Hn. tauto. }
  assert (r1 ++ r2 `sublist_of` r1 ++ e :: r2) as Hsub
    by (apply sublist_app; [done|by apply sublist_cons]).
  split; try done.
  - by rewrite lookup_insert_ne, lookup_insert_eq.
  - by rewrite lookup_insert_eq.
  - by rewrite Hperm.
  - by rewrite Hperm.
  - intros x. rewrite Hperm. auto.
  - eapply sorted_by_sublist; done.
  - eapply sublist_NoDup; [exact p_inj0|by apply fmap_sublist].
  - intros x Hx. rewrite lookup_insert_ne by congruence. apply p_full0.
    by eapply sublist_subseteq.
  - intros e' l x [[Eh <-]|[Hne E]]%lookup_insert_Some Hx; [by apply elem_of_nil in Hx|].
    destruct (p_member0 e' l x E Hx) as [Hin Hpr]. split; [|done].
    rewrite elem_of_app, elem_of_cons in Hin. rewrite elem_of_app.
    destruct Hin as [|[->|]]; [by left|by destruct Hne|by right].
Qed.

(** The list of an element is permuted. *)
Lemma ready_ok_permute ts ps q pl e l l' :
  ready_ok None ts ps q pl -> q !! QPrio e = Some l -> l' ≡ₚ l ->
  ready_ok None ts ps (<[QPrio e := l']> q) pl.
Proof.
  intros Hok Hl Hperm.
  assert (forall h k x, <[QPrio e := l']> q !! h = Some k -> x ∈ k ->
    exists k', q !! h = Some k' /\ x ∈ k') as Hin.
  { intros h k x [[<- <-]|[Hne E]]%lookup_insert_Some Hx; [|by eauto]. rewrite Hperm in Hx. eauto. }
  destruct Hok. split; try done.
  - eapply store_wf_upd; [done|exact Hl|rewrite Hperm; by eapply r_qwf0|].
    intros x. rewrite Hperm. by left.
  - intros h k x E Hx. destruct (Hin h k x E Hx) as (k' & E' & Hx'). eauto.
  - intros x o Ho Hd Hq. destruct (r_queued0 x o Ho Hd Hq) as (h & k & E & Hx).
    destruct (decide (h = QPrio e)) as [->|]; [|exists h, k; by rewrite lookup_insert_ne].
    exists (QPrio e), l'. rewrite lookup_insert_eq. split; [done|]. rewrite Hperm. by simplify_eq.
  - intros h k Hh [[<- <-]|[Hne E]]%lookup_insert_Some; [done|eauto].
  - destruct r_lists0 as (ready & free & []). exists ready, free. split; try done.
    + intros e' He'. destruct (p_full0 e' He') as (t & k & E).
      destruct (decide (e' = e)) as [->|]; [|exists t, k; rewrite lookup_insert_ne; congruence].
      rewrite lookup_insert_eq. destruct l' as [|t' k']; [|by eauto].
      apply Permutation_nil_l in Hperm. congruence.
    + intros e' k x E Hx. destruct (Hin _ _ _ E Hx) as (k' & E' & Hx'). eauto.
Qed.

Lemma rotate_perm (t : Z) l : t ∈ l -> NoDup l -> remove_node t l ++ [t] ≡ₚ l.
Proof.
  intros (l1 & l2 & ->)%list_elem_of_split Hnd. rewrite remove_node_split by done.
  by rewrite <- Permutation_cons_append, Permutation_middle.
Qed.

(** ** The ready tasks of a priority, in the order they will run *)

Definition ready_queue ps q pl (p : Z) : list Z :=
  default [] (ready ← pl !! PReady;
    e ← head (filter (fun e => elem_prio ps e = p) ready); q !! QPrio e).

Lemma fmap_NoDup_inj {A B} (f : A -> B) l x y :
  NoDup (f <$> l) -> x ∈ l -> y ∈ l -> f x = f y -> x = y.
Proof.
  intros Hnd (i & Hi)%list_elem_of_lookup (j & Hj)%list_elem_of_lookup E.
  assert (i = j) as ->; [|congruence].
  eapply NoDup_lookup; [exact Hnd| |]; rewrite list_lookup_fmap; [by rewrite Hi|by rewrite Hj, E].
Qed.

Lemma ready_queue_elem ts ps q pl ready free e :
  prio_lists ts ps q pl ready free -> e ∈ ready ->
  ready_queue ps q pl (elem_prio ps e) = default [] (q !! QPrio e).
Proof.
  intros Hp He. unfold ready_queue. rewrite (p_ready _ _ _ _ _ _ Hp). simpl.
  destruct (filter _ ready) as [|e' r] eqn:Ef.
  - assert (e ∈ filter (fun x => elem_prio ps x = elem_prio ps e) ready) as Hin
      by by apply list_elem_of_filter.
    rewrite Ef in Hin. by apply elem_of_nil in Hin.
  - assert (e' ∈ filter (fun x => elem_prio ps x = elem_prio ps e) ready) as [Hpe Hin]%list_elem_of_filter
      by (rewrite Ef; by left).
    simpl. by rewrite (fmap_NoDup_inj _ _ _ _ (p_inj _ _ _ _ _ _ Hp) Hin He Hpe).
Qed.

Lemma ready_queue_none ts ps q pl ready free p :
  prio_lists ts ps q pl ready free -> (forall e, e ∈ ready -> elem_prio ps e <> p) ->
  ready_queue ps q pl p = [].
Proof.
  intros Hp Hno. unfold ready_queue. rewrite (p_ready _ _ _ _ _ _ Hp). simpl.
  destruct (filter _ ready) as [|e' r] eqn:Ef; [done|].
  assert (e' ∈ filter (fun x => elem_prio ps x = p) ready) as [Hpe Hin]%list_elem_of_filter
    by (rewrite Ef; by left).
  by destruct (Hno e').
Qed.

(** Membership: exactly the active tasks of that priority. *)
Lemma ready_queue_active ts ps q pl p t :
  ready_ok None ts ps q pl ->
  t ∈ ready_queue ps q pl p <->
  exists o, ts !! t = Some o /\ active (t_state o) = true /\ t_prio o = p.
Proof.
  intros Hok. destruct (r_lists _ _ _ _ _ Hok) as (ready & free & Hp). split.
  - intros Ht. destruct (decide (Exists (fun e => elem_prio ps e = p) ready)) as [Hex|Hno].
    + apply list.Exists_exists in Hex as (e & He & <-).
      rewrite (ready_queue_elem _ _ _ _ _ _ _ Hp He) in Ht.
      destruct (q !! QPrio e) as [l|] eqn:Hl; [|by apply elem_of_nil in Ht].
      destruct (r_at _ _ _ _ _ Hok _ _ _ Hl Ht) as (o & Ho & Ha & _).
      destruct (p_member _ _ _ _ _ _ Hp _ _ _ Hl Ht) as [_ Hpr].
      unfold prio_of in Hpr. rewrite Ho in Hpr. eauto.
    + rewrite (ready_queue_none _ _ _ _ _ _ _ Hp) in Ht; [by apply elem_of_nil in Ht|].
      intros e He E. apply Hno, list.Exists_exists. eauto.
  - intros (o & Ho & Ha & <-).
    destruct (active_at _ _ _ _ _ _ _ Hok Ho) as (l & Hl & Hin); [done|done|].
    destruct (p_member _ _ _ _ _ _ Hp _ _ _ Hl Hin) as [He Hpr].
    unfold prio_of in Hpr. rewrite Ho in Hpr. rewrite Hpr, (ready_queue_elem _ _ _ _ _ _ _ Hp He).
    by rewrite Hl.
Qed.
