(* ===== verification/SchedCore.v ===== *)
(** * Correctness of the ready list and of the context switch

    Total correctness of the list operations of scheduler.c: under the invariant of
    [SchedInv] they neither panic nor follow a bad pointer, they keep the invariant,
    and their effect on the queue of each priority is stated exactly. *)

From S2P Require Import Prelude.
From S2P Require Import DList.
From S2P Require Import OsStats.
From S2P Require Import Kernel.
From S2P Require Import Scheduler.
From S2P Require Import SchedInv.
From stdpp Require Import base numbers gmap list sorting.
From Stdlib Require Import ZArith Lia.
Local Open Scope Z_scope.

Section Core.
Context {HS : Type} {AL : Allocator HS}.
Implicit Types s : kstate HS.

(** ** Reading and writing the kernel state *)

Lemma wp_task_get t o (Q : task -> kstate HS -> Prop) s :
  k_tasks s !! t = Some o -> Q o s -> wp (task_get t) Q s.
Proof. intros E HQ. unfold task_get. wp_step. wp_step. wp_step; [exact E|done]. Qed.

Lemma wp_task_upd t o f (Q : unit -> kstate HS -> Prop) s :
  k_tasks s !! t = Some o -> Q tt (upd_tasks (insert t (f o)) s) -> wp (task_upd t f) Q s.
Proof. intros E HQ. unfold task_upd. wp_step. eapply wp_task_get; [exact E|]. by wp_step. Qed.

Lemma wp_prio_get p v (Q : Z -> kstate HS -> Prop) s :
  k_prios s !! p = Some v -> Q v s -> wp (prio_get p) Q s.
Proof. intros E HQ. unfold prio_get. wp_step. wp_step. wp_step; [exact E|done]. Qed.

Lemma wp_prio_set p v w (Q : unit -> kstate HS -> Prop) s :
  k_prios s !! p = Some v -> Q tt (upd_prios (insert p w) s) -> wp (prio_set p w) Q s.
Proof. intros E HQ. unfold prio_set. wp_step. eapply wp_prio_get; [exact E|]. by wp_step. Qed.

Lemma wp_q_list h l (Q : list Z -> kstate HS -> Prop) s :
  k_q s !! h = Some l -> Q l s -> wp (q_list h) Q s.
Proof. intros E HQ. unfold q_list. wp_step. wp_step. wp_step; [exact E|done]. Qed.

Lemma wp_q_store f q' (Q : unit -> kstate HS -> Prop) s :
  f (k_q s) = Some q' -> Q tt (upd_q (fun _ => q') s) -> wp (q_store f) Q s.
Proof. intros E HQ. unfold q_store. do 3 wp_step. wp_step; [exact E|]. by wp_step. Qed.

Lemma wp_pl_list h l (Q : list Z -> kstate HS -> Prop) s :
  k_pl s !! h = Some l -> Q l s -> wp (pl_list h) Q s.
Proof. intros E HQ. unfold pl_list. wp_step. wp_step. wp_step; [exact E|done]. Qed.

Lemma wp_pl_store f q' (Q : unit -> kstate HS -> Prop) s :
  f (k_pl s) = Some q' -> Q tt (upd_pl (fun _ => q') s) -> wp (pl_store f) Q s.
Proof. intros E HQ. unfold pl_store. do 3 wp_step. wp_step; [exact E|]. by wp_step. Qed.

(** ** Invariant, queues and frame of a kernel state *)

Definition ready_inv (d : option Z) s : Prop :=
  ready_ok d (k_tasks s) (k_prios s) (k_q s) (k_pl s).

(** The ready tasks of priority [p] in the order they run. *)
Definition rq s (p : Z) : list Z := ready_queue (k_prios s) (k_q s) (k_pl s) p.

(** The state without what the ready list operations change. *)
Definition erase_ready s : kstate HS :=
  upd_tasks (fun _ => ∅) (upd_prios (fun _ => ∅) (upd_q (fun _ => ∅) (upd_pl (fun _ => ∅) s))).

Definition frame_ready s s' : Prop := erase_ready s = erase_ready s'.

(** The lists other than those of the ready tasks are the same. *)
Definition same_waiting s s' : Prop :=
  forall h, is_ready_head h = false -> k_q s' !! h = k_q s !! h.

(** [t] became ready at the end of the queue of its priority. *)
Record readied (t : Z) (o : task) s s' : Prop := {
  rd_inv : ready_inv None s';
  rd_frame : frame_ready s s';
  rd_task : exists e, k_tasks s' =
    <[t := set_t_prio_elem e (set_t_state OSTHR_STATE_READY o)]> (k_tasks s);
  rd_rq : forall p, rq s' p = if decide (p = t_prio o) then rq s p ++ [t] else rq s p;
  rd_waiting : same_waiting s s'
}.

(** [t] left the queue of its priority. *)
Record unreadied (t : Z) (o : task) s s' : Prop := {
  ur_inv : ready_inv (Some t) s';
  ur_frame : frame_ready s s';
  ur_task : k_tasks s' = k_tasks s;
  ur_rq : forall p, rq s' p = if decide (p = t_prio o) then remove_node t (rq s p) else rq s p;
  ur_waiting : same_waiting s s'
}.

Lemma waiting_insert (q : gmap qhead (list Z)) h l h' :
  is_ready_head h = true -> is_ready_head h' = false -> <[h := l]> q !! h' = q !! h'.
Proof. intros. apply lookup_insert_ne. congruence. Qed.

(** The queue of one priority changes with the list of its element. *)
Lemma ready_queue_upd ts ts' ps q pl ready free e l :
  prio_lists ts ps q pl ready free -> e ∈ ready ->
  prio_lists ts' ps (<[QPrio e := l]> q) pl ready free ->
  forall p, ready_queue ps (<[QPrio e := l]> q) pl p =
    if decide (p = elem_prio ps e) then l else ready_queue ps q pl p.
Proof.
  intros Hp He Hp' p. case_decide as Hd.
  - subst p. rewrite (ready_queue_elem _ _ _ _ _ _ _ Hp' He). by rewrite lookup_insert_eq.
  - destruct (decide (Exists (fun e => elem_prio ps e = p) ready)) as [Hex|Hno].
    + apply list.Exists_exists in Hex as (e' & He' & <-).
      rewrite (ready_queue_elem _ _ _ _ _ _ _ Hp' He'), (ready_queue_elem _ _ _ _ _ _ _ Hp He').
      rewrite lookup_insert_ne; [done|]. congruence.
    + assert (forall e', e' ∈ ready -> elem_prio ps e' <> p) as Hne.
      { intros e' He' E. apply Hno, list.Exists_exists. eauto. }
      by rewrite (ready_queue_none _ _ _ _ _ _ _ Hp Hne), (ready_queue_none _ _ _ _ _ _ _ Hp' Hne).
Qed.

Lemma ready_queue_new ts ts' ps q pl pl' ready ready' free free' e p0 l :
  prio_lists ts ps q pl ready free -> (forall x, x ∈ ready -> elem_prio ps x <> p0) -> e ∉ ready ->
  ready' ≡ₚ e :: ready ->
  prio_lists ts' (<[e := p0]> ps) (<[QPrio e := l]> q) pl' ready' free' ->
  forall p, ready_queue (<[e := p0]> ps) (<[QPrio e := l]> q) pl' p =
    if decide (p = p0) then l else ready_queue ps q pl p.
Proof.
  intros Hp Hno Her Hperm Hp' p.
  assert (forall x, x ∈ ready -> elem_prio (<[e := p0]> ps) x = elem_prio ps x) as Hps.
  { intros x Hx. apply elem_prio_insert_ne. congruence. }
  case_decide as Hd.
  - subst p. assert (e ∈ ready') as He by (rewrite Hperm; by left).
    pose proof (ready_queue_elem _ _ _ _ _ _ _ Hp' He) as Hq.
    rewrite elem_prio_insert_eq, lookup_insert_eq in Hq. done.
  - destruct (decide (Exists (fun e => elem_prio ps e = p) ready)) as [Hex|Hn].
    + apply list.Exists_exists in Hex as (e' & He' & <-).
      assert (e' ∈ ready') as He by (rewrite Hperm; by right).
      rewrite (ready_queue_elem _ _ _ _ _ _ _ Hp He'), <- (Hps e' He').
      rewrite (ready_queue_elem _ _ _ _ _ _ _ Hp' He), lookup_insert_ne; [done|]. congruence.
    + assert (forall e', e' ∈ ready -> elem_prio ps e' <> p) as Hne.
      { intros e' He' E. apply Hn, list.Exists_exists. eauto. }
      rewrite (ready_queue_none _ _ _ _ _ _ _ Hp Hne), (ready_queue_none _ _ _ _ _ _ _ Hp'); [done|].
      intros x. rewrite Hperm, elem_of_cons. intros [->|Hx]; [by rewrite elem_prio_insert_eq|].
      rewrite Hps by done. auto.
Qed.

Lemma ready_queue_last ts ps q pl pl' ready ready' free free' e :
  prio_lists ts ps q pl ready free -> e ∈ ready ->
  (forall x, x ∈ ready' <-> x ∈ ready /\ x <> e) ->
  prio_lists ts ps (<[QPrio e := []]> q) pl' ready' free' ->
  forall p, ready_queue ps (<[QPrio e := []]> q) pl' p =
    if decide (p = elem_prio ps e) then [] else ready_queue ps q pl p.
Proof.
  intros Hp He Hr Hp' p.
  assert (forall x, x ∈ ready -> elem_prio ps x = elem_prio ps e -> x = e) as Hinj.
  { intros x Hx. by apply (fmap_NoDup_inj _ _ _ _ (p_inj _ _ _ _ _ _ Hp)). }
  case_decide as Hd.
  - subst p. apply (ready_queue_none _ _ _ _ _ _ _ Hp'). intros x [Hx Hne]%Hr E. auto.
  - destruct (decide (Exists (fun e => elem_prio ps e = p) ready)) as [Hex|Hn].
    + apply list.Exists_exists in Hex as (e' & He' & <-).
      assert (e' <> e) as Hne by congruence.
      rewrite (ready_queue_elem _ _ _ _ _ _ _ Hp He').
      rewrite (ready_queue_elem _ _ _ _ _ _ _ Hp'), lookup_insert_ne by (congruence || by apply Hr).
      done.
    + assert (forall e', e' ∈ ready -> elem_prio ps e' <> p) as Hne.
      { intros e' He' E. apply Hn, list.Exists_exists. eauto. }
      rewrite (ready_queue_none _ _ _ _ _ _ _ Hp Hne), (ready_queue_none _ _ _ _ _ _ _ Hp'); [done|].
      intros x [Hx _]%Hr. auto.
Qed.

(** ** Adding to the ready list *)

Lemma ready_task_at_queue e o :
  at_queue (set_t_prio_elem e (set_t_state OSTHR_STATE_READY o)) (QPrio e).
Proof. done. Qed.

(** The state in which the list of a priority element is chosen. *)
Definition marked_ready (t : Z) (o : task) s : kstate HS :=
  upd_tasks (insert t (set_t_state OSTHR_STATE_READY o)) s.

Lemma detached_upd_lists ts ps q pl ready free t o' :
  ready_ok (Some t) ts ps q pl -> prio_lists ts ps q pl ready free ->
  prio_lists (<[t := o']> ts) ps q pl ready free.
Proof.
  intros Hok Hp. eapply prio_lists_frame; [exact Hp|done|]. intros e l x Hl Hx.
  rewrite prio_of_insert, decide_False; [done|]. intros ->.
  by eapply (r_detached _ _ _ _ _ Hok t eq_refl).
Qed.

Lemma add_to_prio_elem_spec t o s ready free e :
  ready_inv (Some t) s -> k_tasks s !! t = Some o -> t <> NULL ->
  prio_lists (k_tasks s) (k_prios s) (k_q s) (k_pl s) ready free ->
  e ∈ ready -> k_prios s !! e = Some (t_prio o) ->
  wp (add_to_prio_elem t e) (fun _ s' => readied t o s s') (marked_ready t o s).
Proof.
  intros Hok Ho Hnull Hp He Hpe. unfold add_to_prio_elem, marked_ready.
  destruct (p_full _ _ _ _ _ _ Hp e He) as (t0 & l & Hl).
  set (o' := set_t_prio_elem e (set_t_state OSTHR_STATE_READY o)).
  assert (ready_ok (Some t) (<[t := o']> (k_tasks s)) (k_prios s) (k_q s) (k_pl s)) as Hok'
    by (apply ready_ok_upd_detached; [done|done|by eapply (r_range _ _ _ _ _ Hok t o)]).
  pose proof (detached_upd_lists _ _ _ _ _ _ _ o' Hok Hp) as Hp'.
  assert (elem_prio (k_prios s) e = t_prio o) as Hep by (unfold elem_prio; by rewrite Hpe).
  assert (prio_of (<[t := o']> (k_tasks s)) t = elem_prio (k_prios s) e) as Hpr
    by (by rewrite prio_of_insert, decide_True).
  pose proof (prio_lists_add _ _ _ _ _ _ _ _ _ Hp' He Hpr Hl) as Hp2.
  destruct (seq_insert_with_ok (fun l => l ++ [t]) t (k_q s) (QPrio e) (t0 :: l)
    (r_qwf _ _ _ _ _ Hok) (r_detached _ _ _ _ _ Hok t eq_refl) Hl) as [Hins _];
    [symmetry; apply Permutation_cons_append|].
  wp_step. eapply wp_task_upd; [apply lookup_insert_eq|].
  eapply wp_q_store; [exact Hins|].
  match goal with |- readied _ _ _ ?x => set (s' := x) end.
  assert (k_tasks s' = <[t := o']> (k_tasks s)) as Hts by apply insert_insert_eq.
  split; [|done|by exists e| |].
  - unfold ready_inv. rewrite Hts.
    exact (ready_ok_link _ _ _ _ _ _ _ _ t o' e _ Hok' (lookup_insert_eq _ _ _)
      (ready_task_at_queue e o) Hl Hp2).
  - intros p. unfold rq.
    etransitivity; [exact (ready_queue_upd _ _ _ _ _ _ _ _ _ Hp He Hp2 p)|].
    rewrite Hep. case_decide; [|done]. subst p.
    by rewrite <- Hep, (ready_queue_elem _ _ _ _ _ _ _ Hp He), Hl.
  - intros h Hh. by apply waiting_insert.
Qed.

(** The first free element is taken and cleared. *)
Lemma alloc_task_ready_t_spec s ready e f (Q : Z -> kstate HS -> Prop) :
  prio_lists (k_tasks s) (k_prios s) (k_q s) (k_pl s) ready (e :: f) ->
  Q e (upd_prios (insert e 0) (upd_pl (fun _ => <[PFree := f]> (k_pl s)) s)) ->
  wp alloc_task_ready_t Q s.
Proof.
  intros Hp HQ. unfold alloc_task_ready_t.
  destruct (p_elem _ _ _ _ _ _ Hp e) as [pe Hpe]; [apply elem_of_app; right; by left|].
  destruct (seq_delete_in e (k_pl s) PFree (e :: f) (pl_wf _ _ _ _ _ _ Hp)
    (p_free _ _ _ _ _ _ Hp)) as (Hdel & _ & _); [by left|].
  rewrite remove_node_head in Hdel.
  2: { pose proof (p_nodup _ _ _ _ _ _ Hp) as Hnd. by apply NoDup_app in Hnd as (_ & _ & ?). }
  wp_step. eapply wp_pl_list; [exact (p_free _ _ _ _ _ _ Hp)|]. cbv iota beta.
  wp_step. eapply wp_pl_store; [exact Hdel|].
  wp_step. eapply wp_prio_set; [exact Hpe|]. by wp_step.
Qed.

(** An element taken from the free list is linked into the ready list. *)
Lemma link_new_elem ts ps q pl ready e f P :
  prio_lists ts ps q pl ready (e :: f) ->
  seq_insert_before_first P PReady e (<[PFree := f]> pl) =
    Some (<[PReady := insert_before_first P e ready]> (<[PFree := f]> pl)).
Proof.
  intros Hp.
  destruct (seq_delete_in e pl PFree (e :: f) (pl_wf _ _ _ _ _ _ Hp)
    (p_free _ _ _ _ _ _ Hp)) as (_ & Hwf & Hu); [by left|].
  rewrite remove_node_head in Hwf, Hu
    by (pose proof (p_nodup _ _ _ _ _ _ Hp) as Hnd; by apply NoDup_app in Hnd as (_ & _ & ?)).
  assert (<[PFree := f]> pl !! PReady = Some ready) as Hr.
  { rewrite lookup_insert_ne by done. by eapply p_ready. }
  destruct (seq_insert_with_ok (insert_before_first P e) e _ PReady ready Hwf Hu Hr) as [E _];
    [apply insert_before_first_perm|exact E].
Qed.

Lemma add_new_prio_elem_spec t o s ready free :
  ready_inv (Some t) s -> k_tasks s !! t = Some o -> t <> NULL ->
  prio_lists (k_tasks s) (k_prios s) (k_q s) (k_pl s) ready free ->
  (forall e, e ∈ ready -> elem_prio (k_prios s) e <> t_prio o) ->
  wp (add_new_prio_elem t (t_prio o)) (fun _ s' => readied t o s s') (marked_ready t o s).
Proof.
  intros Hok Ho Hnull Hp Hno. unfold add_new_prio_elem.
  pose proof (r_range _ _ _ _ _ Hok t o Ho) as Hrange.
  destruct (free_elem_available _ _ _ _ _ _ _ _ Hok Hp Hrange Hno) as (e & f & ->).
  set (o' := set_t_prio_elem e (set_t_state OSTHR_STATE_READY o)).
  set (ps' := <[e := t_prio o]> (k_prios s)).
  assert (e ∉ ready) as Her.
  { pose proof (p_nodup _ _ _ _ _ _ Hp) as Hnd. rewrite <- Permutation_middle in Hnd.
    apply NoDup_cons in Hnd as [Hn _]. rewrite elem_of_app in Hn. tauto. }
  assert (forall l, k_q s !! QPrio e = Some l -> l = []) as Hempty.
  { intros [|x l] Hl; [done|].
    destruct (p_member _ _ _ _ _ _ Hp e _ x Hl) as [? _]; [by left|done]. }
  assert (ready_ok (Some t) (<[t := o']> (k_tasks s)) (k_prios s)
    (<[QPrio e := []]> (k_q s)) (k_pl s)) as Hok'
    by (apply ready_ok_q_init; [by apply ready_ok_upd_detached|done]).
  pose proof (detached_upd_lists _ _ _ _ _ _ _ o' Hok Hp) as Hp'.
  assert (prio_of (<[t := o']> (k_tasks s)) t = t_prio o) as Hpr
    by (by rewrite prio_of_insert, decide_True).
  pose proof (prio_lists_new _ _ _ _ _ _ _ t (t_prio o) Hp' Hno Hpr) as Hp2. fold ps' in Hp2.
  set (ready' := insert_before_first (prio_lower ps' (t_prio o)) e ready) in *.
  destruct (seq_insert_with_ok (fun l => l ++ [t]) t (<[QPrio e := []]> (k_q s)) (QPrio e) []
    (r_qwf _ _ _ _ _ Hok') (r_detached _ _ _ _ _ Hok' t eq_refl) (lookup_insert_eq _ _ _)) as [Hins _];
    [done|]. rewrite insert_insert_eq in Hins.
  assert (seq_insert_before_first (prio_lower (<[e := t_prio o]> (<[e := 0]> (k_prios s))) (t_prio o))
    PReady e (<[PFree := f]> (k_pl s)) =
    Some (<[PReady := ready']> (<[PFree := f]> (k_pl s)))) as Hpins.
  { rewrite insert_insert_eq. by eapply link_new_elem. }
  wp_step. eapply alloc_task_ready_t_spec; [exact (detached_upd_lists _ _ _ _ _ _ _ _ Hok Hp)|].
  wp_step. eapply wp_prio_set; [apply lookup_insert_eq|].
  wp_step. eapply wp_task_upd; [apply lookup_insert_eq|].
  wp_step. unfold q_init. wp_step. wp_step.
  eapply wp_q_store; [exact Hins|]. wp_step. wp_step.
  eapply wp_pl_store; [exact Hpins|].
  match goal with |- readied _ _ _ ?x => set (s' := x) end.
  assert (k_tasks s' = <[t := o']> (k_tasks s)) as Hts by apply insert_insert_eq.
  assert (k_prios s' = ps') as Hps by apply insert_insert_eq.
  split; [|done|by exists e| |].
  - unfold ready_inv. rewrite Hts, Hps.
    change ([t]) with ([] ++ [t]) in Hp2. rewrite <- (insert_insert_eq (k_q s) (QPrio e) ([] ++ [t]) []) in Hp2.
    pose proof (ready_ok_link _ _ ps' _ _ _ _ _ t o' e [] Hok' (lookup_insert_eq _ _ _)
      (ready_task_at_queue e o) (lookup_insert_eq _ _ _) Hp2) as HL.
    rewrite insert_insert_eq in HL. exact HL.
  - intros p. unfold rq. rewrite Hps.
    etransitivity; [eapply (ready_queue_new _ _ _ _ _ _ _ _ _ _ _ _ _ Hp Hno Her);
      [apply insert_before_first_perm|exact Hp2]|].
    case_decide; [|done]. subst p. by rewrite (ready_queue_none _ _ _ _ _ _ _ Hp Hno).
  - intros h Hh. by apply waiting_insert.
Qed.
(** Adding a task that is on no list never fails: the element it needs is in use or
    a free one is left. *)
Lemma add_ready_list_spec t o s :
  ready_inv (Some t) s -> k_tasks s !! t = Some o ->
  t_state o <> OSTHR_STATE_READY -> t_state o <> OSTHR_STATE_ZOMBIE ->
  wp (add_ready_list t) (fun _ s' => readied t o s s') s.
Proof.
  intros Hok Ho Hs1 Hs2. unfold add_ready_list.
  pose proof (r_range _ _ _ _ _ Hok t o Ho) as Hrange.
  assert (t <> NULL) as Hnull by (intros ->; rewrite (r_null _ _ _ _ _ Hok) in Ho; done).
  destruct (r_lists _ _ _ _ _ Hok) as (ready & free & Hp).
  wp_step. eapply wp_task_get; [exact Ho|].
  rewrite (proj2 (Z.ltb_ge _ _)) by lia. rewrite bool_decide_eq_false_2 by naive_solver.
  wp_step. eapply wp_task_upd; [exact Ho|].
  wp_step. eapply wp_pl_list; [exact (p_ready _ _ _ _ _ _ Hp)|]. wp_step. wp_step.
  change (k_prios (upd_tasks _ s)) with (k_prios s).
  destruct (find_ready_prio _ _ ready) as [e|] eqn:Hf.
  - apply find_ready_prio_Some in Hf as [He Hpe]. by eapply add_to_prio_elem_spec.
  - eapply add_new_prio_elem_spec; [done|done|done|exact Hp|].
    apply find_ready_prio_None; [|by eapply p_sorted|done].
    intros e He. eapply p_elem; [exact Hp|]. apply elem_of_app. by left.
Qed.

(** ** Removing from the ready list *)

Lemma delete_from_ready_list_spec t o s :
  ready_inv None s -> k_tasks s !! t = Some o -> active (t_state o) = true ->
  wp (delete_from_ready_list t) (fun _ s' => unreadied t o s s') s.
Proof.
  intros Hok Ho Ha. unfold delete_from_ready_list.
  destruct (r_lists _ _ _ _ _ Hok) as (ready & free & Hp).
  destruct (active_at _ _ _ _ _ _ _ Hok Ho) as (l & Hl & Hin); [done|done|].
  set (e := t_prio_elem o) in *.
  destruct (p_member _ _ _ _ _ _ Hp _ _ _ Hl Hin) as [He Hpr].
  unfold prio_of in Hpr. rewrite Ho in Hpr.
  destruct (seq_delete_in t (k_q s) (QPrio e) l (r_qwf _ _ _ _ _ Hok) Hl Hin) as (Hdel & Hwf & Hu).
  wp_step. eapply wp_q_store; [exact Hdel|].
  wp_step. eapply wp_task_get; [exact Ho|].
  wp_step. eapply wp_q_list; [apply lookup_insert_eq|].
  assert (forall (pl' : gmap phead (list Z)) h, is_ready_head h = false ->
    <[QPrio e := remove_node t l]> (k_q s) !! h = k_q s !! h) as Hw
    by (intros; by apply waiting_insert).
  assert (rq s (t_prio o) = l) as Hrq.
  { unfold rq. by rewrite Hpr, (ready_queue_elem _ _ _ _ _ _ _ Hp He), Hl. }
  destruct (remove_node t l) as [|x k] eqn:Erm.
  - set (pl1 := <[PReady := remove_node e ready]> (k_pl s)).
    pose proof (prio_lists_last _ _ _ _ _ _ _ Hp He) as Hp2. rewrite <- Erm in Hp2.
    pose proof (ready_ok_unlink _ _ _ _ _ _ _ _ _ _ Hok Hl Hin Hp2) as Hok2.
    rewrite Erm in Hp2, Hok2.
    destruct (seq_delete_in e (k_pl s) PReady ready (pl_wf _ _ _ _ _ _ Hp)
      (p_ready _ _ _ _ _ _ Hp) He) as (Hd & Hwf1 & Hu1).
    assert (pl1 !! PFree = Some free) as Hf1
      by (unfold pl1; rewrite lookup_insert_ne by done; by eapply p_free).
    destruct (seq_insert_with_ok (fun l => l ++ [e]) e pl1 PFree free Hwf1 Hu1 Hf1) as [Hi _];
      [symmetry; apply Permutation_cons_append|].
    wp_step. eapply wp_pl_store; [exact Hd|]. eapply wp_pl_store; [exact Hi|].
    split; [exact Hok2|done|done| |exact (Hw ∅)].
    intros p. etransitivity;
      [exact (ready_queue_last _ _ _ _ _ _ _ _ _ _ Hp He (fun x => elem_of_remove_node x e _) Hp2 p)|].
    rewrite <- Hpr. case_decide; [|done]. subst p. by rewrite Hrq, Erm.
  - wp_step.
    assert (remove_node t l <> []) as Hne by (by rewrite Erm).
    pose proof (prio_lists_remove _ _ _ _ _ _ t _ _ Hp Hl Hne) as Hp2. 
    pose proof (ready_ok_unlink _ _ _ _ _ _ _ _ _ _ Hok Hl Hin Hp2) as Hok2.
    rewrite Erm in Hp2, Hok2.
    split; [exact Hok2|done|done| |exact (Hw ∅)].
    intros p. etransitivity; [exact (ready_queue_upd _ _ _ _ _ _ _ _ _ Hp He Hp2 p)|].
    rewrite <- Hpr. case_decide; [|done]. subst p. by rewrite Hrq, Erm.
Qed.

(** ** The context switch *)

(** No task but the current one is marked as running. *)
Definition run_inv s : Prop :=
  forall t o, k_tasks s !! t = Some o -> t_state o = OSTHR_STATE_RUNNING -> t = k_currp s.

(** No task changes but for a switch between ready and running. *)
Definition retagged (ts ts' : gmap Z task) : Prop :=
  forall t, match ts !! t with
  | None => ts' !! t = None
  | Some o => if active (t_state o) then exists st, active st = true /\ ts' !! t = Some (set_t_state st o)
              else ts' !! t = Some o
  end.

Lemma set_t_state_id o : set_t_state (t_state o) o = o.
Proof. by destruct o. Qed.

Lemma retagged_refl ts : retagged ts ts.
Proof.
  intros t. destruct (ts !! t) as [o|]; [|done]. destruct (active (t_state o)) eqn:E; [|done].
  exists (t_state o). by rewrite set_t_state_id.
Qed.

Lemma retagged_trans ts1 ts2 ts3 : retagged ts1 ts2 -> retagged ts2 ts3 -> retagged ts1 ts3.
Proof.
  intros H1 H2 t. specialize (H1 t). specialize (H2 t). destruct (ts1 !! t) as [o|]; [|by rewrite H1 in H2].
  destruct (active (t_state o)) eqn:E; [|rewrite H1, E in H2; done].
  destruct H1 as (st & Hst & E2). rewrite E2 in H2. simpl in H2. rewrite Hst in H2.
  destruct H2 as (st' & Hst' & E3). exists st'. by rewrite E3.
Qed.

Lemma retagged_insert ts t o st :
  ts !! t = Some o -> active (t_state o) = true -> active st = true -> retagged ts (<[t := set_t_state st o]> ts).
Proof.
  intros Ho Ha Hst x. rewrite lookup_insert. case_decide as Hd; [subst x; rewrite Ho, Ha; by exists st|].
  exact (retagged_refl ts x).
Qed.

(** The queue of a running task is rotated, the others are kept. *)
Definition rotated s (p : Z) : list Z :=
  match k_tasks s !! k_currp s with
  | Some o =>
      if decide (t_state o = OSTHR_STATE_RUNNING /\ p = t_prio o)
      then remove_node (k_currp s) (rq s p) ++ [k_currp s] else rq s p
  | None => rq s p
  end.

Lemma reschedule_current_spec s oc :
  ready_inv None s -> run_inv s -> k_tasks s !! k_currp s = Some oc ->
  wp reschedule_current (fun _ s' => ready_inv None s' /\ frame_ready s s' /\ same_waiting s s' /\
    (forall p, rq s' p = rotated s p) /\
    (forall t, prio_of (k_tasks s') t = prio_of (k_tasks s) t) /\
    (forall t o, k_tasks s' !! t = Some o -> t_state o <> OSTHR_STATE_RUNNING) /\
    retagged (k_tasks s) (k_tasks s')) s.
Proof.
  intros Hok Hrun Hoc. unfold reschedule_current, rotated. rewrite Hoc.
  wp_step. wp_step. wp_step. eapply wp_task_get; [exact Hoc|]. unfold when.
  case_bool_decide as Hst.
  2: { wp_step. split_and!; [done|done|by intros ?|..].
       - intros p. rewrite decide_False by tauto. done.
       - done.
       - intros t o Ho E. apply Hst. rewrite (Hrun t o Ho E) in Ho. congruence.
       - apply retagged_refl. }
  destruct (active_at _ _ _ _ _ _ _ Hok Hoc) as (l & Hl & Hin); [done|by rewrite Hst|].
  set (cur := k_currp s) in *. set (e := t_prio_elem oc) in *.
  destruct (seq_delete_in cur (k_q s) (QPrio e) l (r_qwf _ _ _ _ _ Hok) Hl Hin) as (Hdel & Hwf & Hu).
  assert (NoDup l) as Hnd by (by eapply (r_qwf _ _ _ _ _ Hok)).
  destruct (seq_insert_with_ok (fun l => l ++ [cur]) cur _ (QPrio e) _ Hwf Hu (lookup_insert_eq _ _ _))
    as [Hins _]; [symmetry; apply Permutation_cons_append|]. rewrite insert_insert_eq in Hins.
  wp_step. wp_step.
  assert (seq_linked cur (k_q s) = true) as ->.
  { unfold seq_linked. apply bool_decide_eq_true. by exists (QPrio e), l. }
  cbv iota beta. change (negb true) with false. cbv iota.
  wp_step. eapply wp_q_store; [exact Hdel|].
  wp_step. eapply wp_q_store; [exact Hins|].
  eapply wp_task_upd; [exact Hoc|].
  pose proof (ready_ok_permute _ _ _ _ _ _ _ Hok Hl (rotate_perm cur l Hin Hnd)) as Hok1.
  destruct (r_lists _ _ _ _ _ Hok) as (ready & free & Hp).
  destruct (p_member _ _ _ _ _ _ Hp _ _ _ Hl Hin) as [He Hpr].
  unfold prio_of in Hpr. rewrite Hoc in Hpr.
  split_and!.
  - eapply (ready_ok_upd_same _ _ _ _ _ cur oc); [exact Hok1|exact Hoc|done| |].
    + intros []; simpl; rewrite ?Hst; try (intros [? ?]; done); done.
    + by rewrite Hst.
  - done.
  - intros h Hh. by apply waiting_insert.
  - intros p. destruct (r_lists _ _ _ _ _ Hok1) as (ready1 & free1 & Hp1).
    pose proof (p_ready _ _ _ _ _ _ Hp1) as Er. pose proof (p_free _ _ _ _ _ _ Hp1) as Ef.
    rewrite (p_ready _ _ _ _ _ _ Hp) in Er. rewrite (p_free _ _ _ _ _ _ Hp) in Ef.
    injection Er as <-. injection Ef as <-.
    etransitivity; [exact (ready_queue_upd _ _ _ _ _ _ _ _ _ Hp He Hp1 p)|].
    rewrite <- Hpr. unfold rq. destruct (decide (p = t_prio oc)) as [->|Hne].
    + rewrite decide_True by done. by rewrite Hpr, (ready_queue_elem _ _ _ _ _ _ _ Hp He), Hl.
    + by rewrite decide_False by tauto.
  - intros t. simpl. rewrite prio_of_insert. case_decide; [subst|done]. unfold prio_of. by rewrite Hoc.
  - intros t o. simpl. rewrite lookup_insert. case_decide as Ht; [intros [= <-]; done|].
    intros Ho E. apply Ht. symmetry. by eapply Hrun.
  - apply retagged_insert; [done|by rewrite Hst|done].
Qed.

(** What the context switch leaves alone besides the ready lists. *)
Definition erase_switch s : kstate HS :=
  upd_currp (fun _ => 0) (upd_cstats (fun _ => CpuStats 0 0 0 0 0 false)
    (upd_reent (fun _ => 0) (erase_ready s))).

Definition frame_switch s s' : Prop := erase_switch s = erase_switch s'.

(** [t] runs: it is the first task of the highest non-empty priority. *)
Record dispatched (t : Z) s : Prop := {
  dp_curr : k_currp s = t;
  dp_task : exists o, k_tasks s !! t = Some o /\ t_state o = OSTHR_STATE_RUNNING /\
    (exists l, rq s (t_prio o) = t :: l) /\
    (forall t' o', k_tasks s !! t' = Some o' -> active (t_state o') = true -> t_prio o <= t_prio o') /\
    k_reent s = t_impure o
}.

(** The first element of the ready list has the highest priority of all active
    tasks. *)
Lemma ready_list_top ts ps q pl ready free t o :
  ready_ok None ts ps q pl -> prio_lists ts ps q pl ready free ->
  ts !! t = Some o -> active (t_state o) = true ->
  exists e r, ready = e :: r /\ forall t' o', ts !! t' = Some o' -> active (t_state o') = true ->
    elem_prio ps e <= t_prio o'.
Proof.
  intros Hok Hp Ho Ha.
  assert (forall t' o', ts !! t' = Some o' -> active (t_state o') = true ->
    exists e', e' ∈ ready /\ t_prio o' = elem_prio ps e') as Hm.
  { intros t' o' Ho' Ha'. destruct (active_at _ _ _ _ _ _ _ Hok Ho') as (l & Hl & Hin); [done|done|].
    destruct (p_member _ _ _ _ _ _ Hp _ _ _ Hl Hin) as [He Hpr].
    unfold prio_of in Hpr. rewrite Ho' in Hpr. eauto. }
  destruct (Hm t o Ho Ha) as (e0 & He0 & _).
  destruct ready as [|e r]; [by apply elem_of_nil in He0|]. exists e, r. split; [done|].
  intros t' o' Ho' Ha'. destruct (Hm t' o' Ho' Ha') as (e' & He' & ->).
  pose proof (p_sorted _ _ _ _ _ _ Hp) as [_ Hs]%sorted_by_cons.
  apply elem_of_cons in He' as [->|He']; [done|auto].
Qed.

Lemma select_first_ready_spec s t0 o0 :
  ready_inv None s -> k_tasks s !! t0 = Some o0 -> active (t_state o0) = true ->
  (forall t o, k_tasks s !! t = Some o -> t_state o <> OSTHR_STATE_RUNNING) ->
  wp select_first_ready (fun _ s' => ready_inv None s' /\ run_inv s' /\ frame_switch s s' /\
    same_waiting s s' /\ (forall p, rq s' p = rq s p) /\
    (forall t, prio_of (k_tasks s') t = prio_of (k_tasks s) t) /\
    dispatched (k_currp s') s' /\ retagged (k_tasks s) (k_tasks s')) s.
Proof.
  intros Hok Ho0 Ha0 Hno. unfold select_first_ready.
  destruct (r_lists _ _ _ _ _ Hok) as (ready & free & Hp).
  destruct (ready_list_top _ _ _ _ _ _ _ _ Hok Hp Ho0 Ha0) as (e & r & -> & Htop).
  destruct (p_full _ _ _ _ _ _ Hp e) as (t & l & Hl); [by left|].
  destruct (p_member _ _ _ _ _ _ Hp e _ t Hl) as [He Hpr]; [by left|].
  destruct (r_at _ _ _ _ _ Hok _ _ t Hl) as (o & Ho & Ha & Hel); [by left|].
  destruct (p_elem _ _ _ _ _ _ Hp e) as [pe Hpe]; [by left|].
  unfold prio_of in Hpr. rewrite Ho in Hpr. unfold elem_prio in Hpr at 1. rewrite Hpe in Hpr.
  simpl in Hpr. subst pe.
  assert (t_state o = OSTHR_STATE_READY) as Hst.
  { specialize (Hno t o Ho). by destruct (t_state o). }
  wp_step. eapply wp_pl_list; [exact (p_ready _ _ _ _ _ _ Hp)|]. cbv iota beta.
  wp_step. eapply wp_q_list; [exact Hl|]. cbv iota beta.
  wp_step. wp_step. wp_step. eapply wp_task_get; [exact Ho|].
  rewrite bool_decide_eq_true_2 by done.
  wp_step. eapply wp_task_upd; [exact Ho|]. do 6 wp_step.
  wp_step. eapply wp_prio_get; [exact Hpe|]. rewrite Z.eqb_refl. wp_step.
  set (o' := set_t_state OSTHR_STATE_RUNNING o).
  assert (ready_ok None (<[t := o']> (k_tasks s)) (k_prios s) (k_q s) (k_pl s)) as Hok'.
  { eapply ready_ok_upd_same; [exact Hok|exact Ho|done| |by rewrite Hst].
    intros []; simpl; rewrite ?Hst; naive_solver. }
  split_and!; [exact Hok'| |done|by intros ?|done| | |].
  - intros t' ot' Ht' Hr. simpl in *. apply lookup_insert_Some in Ht' as [[-> _]|[_ Ht']]; [done|].
    by destruct (Hno _ _ Ht').
  - intros x. simpl. rewrite prio_of_insert. case_decide; [subst|done]. unfold prio_of. by rewrite Ho.
  - split; [done|]. exists o'. simpl. rewrite lookup_insert_eq. split_and!; [done|done| | |done].
    + exists l. assert (t_prio o = elem_prio (k_prios s) e) as -> by (unfold elem_prio; by rewrite Hpe).
      unfold rq. simpl. by rewrite (ready_queue_elem _ _ _ _ _ _ _ Hp He), Hl.
    + intros t' ot' Ht' Hact.
      assert (elem_prio (k_prios s) e = t_prio o) as Hep by (unfold elem_prio; by rewrite Hpe).
      rewrite <- Hep. apply lookup_insert_Some in Ht' as [[_ <-]|[_ Ht']]; [simpl; lia|by eapply Htop].
  - by apply retagged_insert.
Qed.

Lemma rotated_in s t p o :
  k_tasks s !! k_currp s = Some o -> (t ∈ rotated s p <-> t ∈ rq s p) \/
    (t_state o = OSTHR_STATE_RUNNING /\ p = t_prio o).
Proof. intros Ho. unfold rotated. rewrite Ho. case_decide; [by right|by left]. Qed.

(** A context switch is possible: interrupts are balanced, the scheduler is not
    locked and some task (the idle task, if no other) is ready. *)
Record switchable s : Prop := {
  sw_ready : ready_inv None s;
  sw_run : run_inv s;
  sw_curr : is_Some (k_tasks s !! k_currp s);
  sw_count : 0 <= k_critical_count s;
  sw_lock : k_sched_lock s = 0;
  sw_some : exists t o, k_tasks s !! t = Some o /\ active (t_state o) = true
}.

Lemma schedule_spec s :
  switchable s ->
  wp _isixp_schedule (fun _ s' => switchable s' /\ dispatched (k_currp s') s' /\
    (forall p, rq s' p = rotated s p) /\
    (forall t, prio_of (k_tasks s') t = prio_of (k_tasks s) t) /\
    same_waiting s s' /\ frame_switch s s' /\ retagged (k_tasks s) (k_tasks s')) s.
Proof.
  intros [Hok Hrun [oc Hoc] Hcount Hlock (t0 & o0 & Ho0 & Ha0)]. unfold _isixp_schedule.
  wp_step. wp_step. rewrite (proj2 (Z.ltb_ge _ _)) by lia.
  wp_step. wp_step. rewrite Hlock. change (negb (0 =? 0)) with false. cbv iota.
  wp_step. eapply wp_mono; [by eapply reschedule_current_spec|].
  intros [] s1 (Hok1 & Hf1 & Hw1 & Hrq1 & Hp1 & Hno1 & Htag1).
  assert (exists t o, k_tasks s1 !! t = Some o /\ active (t_state o) = true) as (t1 & o1 & Ho1 & Ha1).
  { destruct (ready_queue_active _ _ _ _ (t_prio o0) t0 Hok) as [_ Hin].
    assert (exists t, t ∈ rq s1 (t_prio o0)) as [t Ht].
    { rewrite Hrq1. unfold rotated. rewrite Hoc. case_decide; [|exists t0; apply Hin; eauto].
      exists (k_currp s). apply elem_of_app. right. by left. }
    apply (ready_queue_active _ _ _ _ _ _ Hok1) in Ht as (o & ? & ? & _). eauto. }
  eapply wp_mono; [by eapply select_first_ready_spec|].
  intros [] s2 (Hok2 & Hrun2 & Hf2 & Hw2 & Hrq2 & Hp2 & Hd2 & Htag2).
  assert (frame_switch s s2) as Hf.
  { unfold frame_switch in *. rewrite <- Hf2. unfold erase_switch. by rewrite Hf1. }
  split_and!; [split| | | | | |]; try done.
  - destruct (dp_task _ _ Hd2) as (o & Ho & _). by exists o.
  - by rewrite <- (f_equal k_critical_count Hf : k_critical_count s = k_critical_count s2).
  - by rewrite <- (f_equal k_sched_lock Hf : k_sched_lock s = k_sched_lock s2).
  - destruct (dp_task _ _ Hd2) as (o & Ho & Hst & _). exists (k_currp s2), o. by rewrite Hst.
  - intros p. by rewrite Hrq2.
  - intros t. by rewrite Hp2.
  - intros h Hh. by rewrite Hw2, Hw1.
  - by eapply retagged_trans.
Qed.

(** C2: The context switch of an unlocked scheduler never panics and follows no bad
    pointer.  The task it leaves running is the first one of the highest priority
    that has a ready task; a task that was running goes to the end of the queue of
    its priority, every other queue is kept, and the list invariant holds again. *)
Theorem schedule_dispatches_highest s :
  switchable s ->
  wp _isixp_schedule (fun _ s' => switchable s' /\ dispatched (k_currp s') s' /\
    (forall p, rq s' p = rotated s p) /\ same_waiting s s' /\ frame_switch s s') s.
Proof.
  intros Hs. eapply wp_mono; [by apply schedule_spec|]. intros [] s'. tauto.
Qed.

(** While the scheduler is locked a context switch changes nothing but the note
    that a switch is pending. *)
Theorem schedule_locked s :
  0 <= k_critical_count s -> k_sched_lock s <> 0 ->
  _isixp_schedule s = Ok tt (upd_yield_pending (fun _ => true) s).
Proof.
  intros Hc Hl. unfold _isixp_schedule, bind, gets.
  rewrite (proj2 (Z.ltb_ge _ _)) by lia. by rewrite (proj2 (Z.eqb_neq _ _)).
Qed.

(** ** Round robin *)

Fixpoint schedule_times (n : nat) : K HS unit :=
  match n with O => ret tt | S n => _isixp_schedule;;; schedule_times n end.

Definition rot (l : list Z) : list Z := match l with [] => [] | x :: l => l ++ [x] end.

Lemma rot_lookup i l : (i < length l)%nat -> head (Nat.iter i rot l) = l !! i.
Proof.
  intros Hi. assert (Nat.iter i rot l = drop i l ++ take i l) as ->.
  { assert (i <= length l)%nat as Hle by lia. clear Hi. induction i as [|i IH]; [by rewrite app_nil_r|].
    simpl. rewrite IH by lia. destruct (lookup_lt_is_Some_2 l i) as [x Hx]; [lia|].
    rewrite (drop_S l x i), (take_S_r l i x) by done. simpl. by rewrite <- app_assoc. }
  destruct (lookup_lt_is_Some_2 l i Hi) as [x Hx]. by rewrite (drop_S l x i), Hx.
Qed.

(** [l] are the ready tasks of the highest priority [p]; the first one runs. *)
Definition running_queue s (p : Z) (l : list Z) : Prop :=
  switchable s /\ rq s p = l /\ head l = Some (k_currp s) /\
  dispatched (k_currp s) s /\ prio_of (k_tasks s) (k_currp s) = p.

Lemma running_queue_step s p l :
  running_queue s p l -> wp _isixp_schedule (fun _ s' => running_queue s' p (rot l)) s.
Proof.
  intros (Hsw & Hrq & Hh & Hd & Hp). destruct (dp_task _ _ Hd) as (o & Ho & Hst & _ & Hmin & _).
  assert (t_prio o = p) as Hpo by (unfold prio_of in Hp; by rewrite Ho in Hp).
  eapply wp_mono; [by apply schedule_spec|]. intros [] s' (Hsw' & Hd' & Hrq' & Hpr' & _).
  destruct (dp_task _ _ Hd') as (o' & Ho' & Hst' & (l' & Hl') & Hmin' & _).
  destruct l as [|c l]; [done|]. injection Hh as ->.
  assert (rq s' p = rot (k_currp s :: l)) as Hrot.
  { rewrite Hrq'. unfold rotated. rewrite Ho, decide_True by done. simpl. f_equal.
    rewrite Hrq. apply remove_node_head. rewrite <- Hrq.
    destruct (r_lists _ _ _ _ _ (sw_ready _ Hsw)) as (ready & free & Hpl).
    destruct (active_at _ _ _ _ _ _ _ (sw_ready _ Hsw) Ho) as (k & Hk & Hin); [done|by rewrite Hst|].
    destruct (p_member _ _ _ _ _ _ Hpl _ _ _ Hk Hin) as [He Hpe].
    rewrite Hp in Hpe. unfold rq. rewrite Hpe, (ready_queue_elem _ _ _ _ _ _ _ Hpl He), Hk.
    by eapply (r_qwf _ _ _ _ _ (sw_ready _ Hsw)). }
  assert (t_prio o' = p) as Hpo'.
  { apply Z.le_antisymm.
    - assert (exists x, x ∈ rq s' p) as [x Hx].
      { rewrite Hrot. exists (k_currp s). simpl. apply elem_of_app. right. by left. }
      apply (ready_queue_active _ _ _ _ _ _ (sw_ready _ Hsw')) in Hx as (ox & Hox & Hax & <-).
      by eapply Hmin'.
    - assert (k_currp s' ∈ rotated s (t_prio o')) as Hin by (rewrite <- Hrq', Hl'; by left).
      destruct (rotated_in s (k_currp s') (t_prio o') o Ho) as [E|[_ E]]; [|lia].
      apply E, (ready_queue_active _ _ _ _ _ _ (sw_ready _ Hsw)) in Hin as (ox & Hox & Hax & <-).
      rewrite <- Hpo. by eapply Hmin. }
  split_and!; [done|done| |done|].
  - rewrite <- Hrot, <- Hpo', Hl'. done.
  - unfold prio_of. by rewrite Ho'.
Qed.

(** C33: Round robin: with [n] tasks ready at the highest priority and no other event,
    each of them runs within [n] context switches, in queue order. *)
Theorem round_robin_fair s p l i :
  running_queue s p l -> (i < length l)%nat ->
  wp (schedule_times i) (fun _ s' => Some (k_currp s') = l !! i) s.
Proof.
  intros Hr Hi. rewrite <- (rot_lookup i l Hi). clear Hi.
  revert s l Hr. induction i as [|i IH]; intros s l Hr; simpl.
  - destruct Hr as (_ & _ & Hh & _). wp_step. by rewrite Hh.
  - wp_step. eapply wp_mono; [by eapply running_queue_step|]. intros [] s' Hr'.
    eapply wp_mono; [by eapply IH|]. intros [] s'' ->. by rewrite <- Nat.iter_succ_r.
Qed.

End Core.
