(* ===== verification/SchedTime.v ===== *)
(** * Correctness of the time lists and of tick processing

    A sleeping task is on one of two lists ordered by deadline: the current one for
    deadlines in this round of the tick counter, the overflow one for deadlines
    after its next wrap.  The abstract view is the number of ticks each task still
    has to sleep; the theorems show that advancing the time wakes exactly the tasks
    whose rest has run out, whatever the number of ticks and across the wrap. *)

From S2P Require Import Prelude.
From S2P Require Import DList.
From S2P Require Import Systimer.
From S2P Require Import OsStats.
From S2P Require Import Kernel.
From S2P Require Import Scheduler.
From S2P Require Import SchedInv.
From S2P Require Import SchedCore.
From stdpp Require Import base numbers gmap list sorting.
From Stdlib Require Import ZArith Lia.
Local Open Scope Z_scope.

(** Deadline of a task. *)
Definition dl (ts : gmap Z task) (t : Z) : Z :=
  match ts !! t with Some o => t_jiffies o | None => 0 end.

(** States in which a task may be on a time list. *)
Definition timed_state (st : osthr_state) : bool :=
  match st with
  | OSTHR_STATE_SLEEPING | OSTHR_STATE_WTSEM | OSTHR_STATE_WTEVT | OSTHR_STATE_WTCOND => true
  | _ => false
  end.

(** The two lists, ordered by deadline. *)
Record time_lists (ts : gmap Z task) (tl : gmap bool (list Z)) (pw : bool)
    (cur ov : list Z) : Prop := {
  tm_cur : tl !! pw = Some cur;
  tm_ov : tl !! negb pw = Some ov;
  tm_nodup : NoDup (cur ++ ov);
  tm_sorted : sorted_by (dl ts) cur;
  tm_sorted_ov : sorted_by (dl ts) ov;
  tm_state : forall t, t ∈ cur ++ ov -> exists o, ts !! t = Some o /\ timed_state (t_state o) = true;
  tm_range : forall t, t ∈ cur ++ ov -> in_u32 (dl ts t)
}.

(** At rest: no deadline of the current list has passed, those of the overflow list
    are reached after the wrap only. *)
Record time_ok (ts : gmap Z task) (tl : gmap bool (list Z)) (pw : bool) (j : Z)
    (cur ov : list Z) : Prop := {
  to_lists : time_lists ts tl pw cur ov;
  to_now : in_u32 j;
  to_cur : forall t, t ∈ cur -> j < dl ts t;
  to_ov : forall t, t ∈ ov -> dl ts t < j
}.

Lemma tl_wf ts tl pw cur ov : time_lists ts tl pw cur ov -> store_wf tl.
Proof.
  intros []. apply NoDup_app in tm_nodup0 as (Hn1 & Hd & Hn2). split.
  - intros b l E. destruct (decide (b = pw)) as [->|]; [by simplify_eq|].
    assert (b = negb pw) as -> by (by destruct b, pw). by simplify_eq.
  - intros b1 b2 l1 l2 n E1 E2 H1 H2. destruct (decide (b1 = b2)) as [|Hne]; [done|exfalso].
    assert (b2 = negb b1) as -> by (by destruct b1, b2).
    destruct (decide (b1 = pw)) as [->|]; simplify_eq; [by destruct (Hd n)|].
    assert (b1 = negb pw) as -> by (by destruct b1, pw). rewrite negb_involutive in E2.
    simplify_eq. by destruct (Hd n).
Qed.

(** The deadline and the timed state of [t] are the same in both task maps. *)
Definition same_deadline (ts ts' : gmap Z task) (t : Z) : Prop :=
  forall o, ts !! t = Some o -> exists o', ts' !! t = Some o' /\ t_jiffies o' = t_jiffies o /\
    timed_state (t_state o') = timed_state (t_state o).

Lemma same_deadline_eq ts ts' t : ts' !! t = ts !! t -> same_deadline ts ts' t.
Proof. intros E o Ho. exists o. by rewrite E. Qed.

Lemma time_lists_same ts ts' tl pw cur ov :
  time_lists ts tl pw cur ov -> (forall t, t ∈ cur ++ ov -> same_deadline ts ts' t) ->
  time_lists ts' tl pw cur ov /\ forall t, t ∈ cur ++ ov -> dl ts' t = dl ts t.
Proof.
  intros [] He.
  assert (forall t, t ∈ cur ++ ov -> dl ts' t = dl ts t) as Hdl.
  { intros t Ht. destruct (tm_state0 t Ht) as (o & Ho & _). destruct (He t Ht o Ho) as (o' & Ho' & Hj & _).
    unfold dl. by rewrite Ho, Ho'. }
  split; [|done]. split; try done.
  - eapply sorted_by_ext; [|done]. intros t Ht. symmetry. apply Hdl, elem_of_app. by left.
  - eapply sorted_by_ext; [|done]. intros t Ht. symmetry. apply Hdl, elem_of_app. by right.
  - intros t Ht. destruct (tm_state0 t Ht) as (o & Ho & Hst). destruct (He t Ht o Ho) as (o' & Ho' & _ & Hst').
    exists o'. by rewrite Hst'.
  - intros t Ht. rewrite Hdl by done. auto.
Qed.

(** Tasks that do not change. *)
Lemma time_lists_ext ts ts' tl pw cur ov :
  time_lists ts tl pw cur ov ->
  (forall t, t ∈ cur ++ ov -> ts' !! t = ts !! t) -> time_lists ts' tl pw cur ov.
Proof. intros Hl He. apply (time_lists_same ts ts'); [done|]. intros t Ht. by apply same_deadline_eq, He. Qed.

Section Time.
Context {HS : Type} {AL : Allocator HS}.
Implicit Types s : kstate HS.

Lemma wp_tl_list i l (Q : list Z -> kstate HS -> Prop) s :
  k_tl s !! i = Some l -> Q l s -> wp (tl_list i) Q s.
Proof. intros E HQ. unfold tl_list. wp_step. wp_step. wp_step; [exact E|done]. Qed.

Lemma wp_tl_store f q' (Q : unit -> kstate HS -> Prop) s :
  f (k_tl s) = Some q' -> Q tt (upd_tl (fun _ => q') s) -> wp (tl_store f) Q s.
Proof. intros E HQ. unfold tl_store. do 3 wp_step. wp_step; [exact E|]. by wp_step. Qed.

Lemma wp_sem_get a o (Q : sem -> kstate HS -> Prop) s :
  k_sems s !! a = Some o -> Q o s -> wp (sem_get a) Q s.
Proof. intros E HQ. unfold sem_get. wp_step. wp_step. wp_step; [exact E|done]. Qed.

Lemma wp_sem_upd a o f (Q : unit -> kstate HS -> Prop) s :
  k_sems s !! a = Some o -> Q tt (upd_sems (insert a (f o)) s) -> wp (sem_upd a f) Q s.
Proof. intros E HQ. unfold sem_upd. wp_step. eapply wp_sem_get; [exact E|]. by wp_step. Qed.

(** Every semaphore with a wait list is an object, and a negative value counts the
    waiting tasks. *)
Definition sem_counts (sems : gmap Z sem) (q : gmap qhead (list Z)) : Prop :=
  forall a l, q !! QSem a = Some l -> exists o, sems !! a = Some o /\
    Z.of_nat (length l) = Z.max 0 (- s_value o) /\ in_i32 (s_value o).

Definition sems_ok s : Prop := sem_counts (k_sems s) (k_q s).

Lemma sem_counts_frame sems q q' :
  sem_counts sems q -> (forall a, q' !! QSem a = q !! QSem a) -> sem_counts sems q'.
Proof. intros Hs Hq a l. rewrite Hq. apply Hs. Qed.

(** The list of one semaphore and its value change together. *)
Lemma sem_counts_upd sems q a l' o' :
  sem_counts sems q -> Z.of_nat (length l') = Z.max 0 (- s_value o') -> in_i32 (s_value o') ->
  sem_counts (<[a := o']> sems) (<[QSem a := l']> q).
Proof.
  intros Hs Hl Hr b k. rewrite lookup_insert. case_decide as E.
  - injection E as <-. intros [= <-]. exists o'. by rewrite lookup_insert_eq.
  - intros Hk. rewrite lookup_insert_ne by congruence. eauto.
Qed.

Lemma length_remove_node (t : Z) l : NoDup l -> t ∈ l -> length l = S (length (remove_node t l)).
Proof.
  intros Hnd (l1 & l2 & ->)%list_elem_of_split. rewrite remove_node_split by done.
  rewrite !length_app. simpl. lia.
Qed.

Definition erase_time s : kstate HS :=
  upd_tl (fun _ => ∅) (upd_sems (fun _ => ∅) (erase_ready s)).

Definition frame_time s s' : Prop := erase_time s = erase_time s'.

(** The tasks [due] have been woken, in this order, and nothing else happened. *)
Record woken (due : list Z) (tl' : gmap bool (list Z)) s s' : Prop := {
  wk_inv : ready_inv None s';
  wk_sems : sems_ok s';
  wk_frame : frame_time s s';
  wk_tl : k_tl s' = tl';
  wk_others : forall t, t ∉ due -> k_tasks s' !! t = k_tasks s !! t;
  wk_due : forall t, t ∈ due -> exists o o', k_tasks s !! t = Some o /\ k_tasks s' !! t = Some o' /\
    t_state o' = OSTHR_STATE_READY /\ t_prio o' = t_prio o /\ t_real_prio o' = t_real_prio o /\
    t_jiffies o' = t_jiffies o /\
    (t_state o <> OSTHR_STATE_SLEEPING -> t_dmsg o' = ISIX_ETIMEOUT);
  wk_rq : forall p, rq s' p = rq s p ++ filter (fun t => prio_of (k_tasks s) t = p) due;
  wk_waiting : forall h, is_ready_head h = false ->
    k_q s' !! h = filter (fun t => t ∉ due) <$> k_q s !! h
}.

(** [t] has been taken off its wait list and its time list; its control block is now
    [o1]. *)
Record dequeued (t : Z) (o1 : task) (tl' : gmap bool (list Z)) s s1 : Prop := {
  dq_inv : ready_inv (Some t) s1;
  dq_sems : sems_ok s1;
  dq_frame : frame_time s s1;
  dq_tl : k_tl s1 = tl';
  dq_tasks : k_tasks s1 = <[t := o1]> (k_tasks s);
  dq_rq : forall p, rq s1 p = rq s p;
  dq_waiting : forall h, is_ready_head h = false ->
    k_q s1 !! h = filter (fun x => x ∉ [t]) <$> k_q s !! h
}.

Lemma filter_remove (t : Z) (l : list Z) : filter (fun x => x ∉ [t]) l = remove_node t l.
Proof.
  unfold remove_node. apply list_filter_iff. intros x. rewrite list_elem_of_singleton. done.
Qed.

Lemma filter_notin (t : Z) (l : list Z) : t ∉ l -> filter (fun x => x ∉ [t]) l = l.
Proof. intros Hn. rewrite filter_remove. by apply remove_node_notin. Qed.

(** The ready queues do not depend on the wait lists. *)
Lemma ready_queue_waiting ps (q : gmap qhead (list Z)) pl h l p :
  is_ready_head h = false -> ready_queue ps (<[h := l]> q) pl p = ready_queue ps q pl p.
Proof.
  intros Hh. unfold ready_queue. destruct (pl !! PReady) as [ready|]; [|done]. simpl.
  destruct (head _) as [e|]; [|done]. simpl. by rewrite lookup_insert_ne by (intros ->; done).
Qed.

(** The dequeued task becomes ready. *)
Lemma wake_dequeued t o o1 tl' s s1 :
  k_tasks s !! t = Some o -> dequeued t o1 tl' s s1 ->
  t_state o1 <> OSTHR_STATE_READY -> t_state o1 <> OSTHR_STATE_ZOMBIE ->
  t_prio o1 = t_prio o -> t_real_prio o1 = t_real_prio o -> t_jiffies o1 = t_jiffies o ->
  (t_state o <> OSTHR_STATE_SLEEPING -> t_dmsg o1 = ISIX_ETIMEOUT) ->
  wp (add_ready_list t) (fun _ s' => woken [t] tl' s s') s1.
Proof.
  intros Ho [] H1 H2 Hp Hrp Hj Hm.
  eapply wp_mono; [eapply (add_ready_list_spec t o1); [done| |done|done]|].
  { rewrite dq_tasks0. apply lookup_insert_eq. }
  intros [] s' []. destruct rd_task as (e & Hts).
  set (o' := set_t_prio_elem e (set_t_state OSTHR_STATE_READY o1)) in *.
  split.
  - done.
  - unfold sems_ok. rewrite <- (f_equal k_sems rd_frame : k_sems s1 = k_sems s').
    eapply sem_counts_frame; [done|]. intros a. by apply rd_waiting.
  - unfold frame_time in *. rewrite dq_frame0. unfold erase_time. by rewrite rd_frame.
  - by rewrite <- (f_equal k_tl rd_frame : k_tl s1 = k_tl s').
  - intros x Hx. rewrite Hts, dq_tasks0, insert_insert_eq, lookup_insert_ne; [done|].
    intros ->. apply Hx. by left.
  - intros x ->%list_elem_of_singleton. exists o, o'.
    rewrite Hts, lookup_insert_eq. split_and!; done.
  - intros p. rewrite rd_rq, dq_rq0. unfold prio_of. rewrite filter_cons, Ho, Hp. simpl.
    repeat case_decide; subst; try done. by rewrite app_nil_r.
  - intros h Hh. rewrite rd_waiting by done. auto.
Qed.

(** Taking a task off the wait list its state asks for. *)
Lemma dequeue_waiting t o o1 h l tl' s s1 :
  ready_inv None s -> sems_ok s -> k_tasks s !! t = Some o ->
  k_q s !! h = Some l -> t ∈ l -> is_ready_head h = false -> t_prio o1 = t_prio o ->
  k_tasks s1 = <[t := o1]> (k_tasks s) -> k_q s1 = <[h := remove_node t l]> (k_q s) ->
  k_prios s1 = k_prios s -> k_pl s1 = k_pl s -> k_tl s1 = tl' -> frame_time s s1 -> sems_ok s1 ->
  dequeued t o1 tl' s s1.
Proof.
  intros Hok Hsem Ho Hl Hin Hh Hp Ets Eq Eps Epl Etl Hf Hs.
  assert (t <> NULL) as Hnull by (intros ->; rewrite (r_null _ _ _ _ _ Hok) in Ho; done).
  split; try done.
  - unfold ready_inv. rewrite Ets, Eq, Eps, Epl.
    apply ready_ok_upd_detached; [by apply ready_ok_q_delete|done|].
    rewrite Hp. by eapply (r_range _ _ _ _ _ Hok).
  - intros p. unfold rq. rewrite Eps, Eq, Epl. by apply ready_queue_waiting.
  - intros h' Hh'. rewrite Eq, lookup_insert. case_decide as E.
    + subst h'. by rewrite Hl, <- filter_remove.
    + destruct (k_q s !! h') as [k|] eqn:Ek; [|done]. simpl. f_equal. symmetry. apply filter_notin.
      intros Hx. destruct (r_qwf _ _ _ _ _ Hok) as [_ Hdis]. by apply E, (Hdis h h' l k t).
Qed.

(** A sleeping task is on no wait list. *)
Lemma dequeue_sleeping t o tl' s :
  ready_inv None s -> sems_ok s -> k_tasks s !! t = Some o ->
  queued_state (t_state o) = false ->
  dequeued t o tl' s (upd_tl (fun _ => tl') s).
Proof.
  intros Hok Hsem Ho Hq. pose proof (not_queued_unlinked _ _ _ _ _ _ _ Hok Ho Hq) as Hu.
  split; try done.
  - by eapply ready_ok_detach.
  - simpl. by rewrite insert_id.
  - intros h Hh. simpl. destruct (k_q s !! h) as [k|] eqn:Ek; [|done]. simpl. f_equal. symmetry.
    apply filter_notin. eauto.
Qed.

Lemma q_delete_waiting t o s (Q : unit -> kstate HS -> Prop) :
  ready_inv None s -> k_tasks s !! t = Some o -> queued_state (t_state o) = true ->
  (forall h l, k_q s !! h = Some l -> t ∈ l -> at_queue o h ->
     Q tt (upd_q (fun _ => <[h := remove_node t l]> (k_q s)) s)) ->
  wp (q_delete t) Q s.
Proof.
  intros Hok Ho Hq HQ. destruct (queued_at _ _ _ _ _ _ _ Hok Ho) as (h & l & Hl & Hin & Hat); [done|done|].
  destruct (seq_delete_in t (k_q s) h l (r_qwf _ _ _ _ _ Hok) Hl Hin) as (Hdel & _).
  eapply wp_q_store; [exact Hdel|]. by eapply HQ.
Qed.

Lemma dmsg_set msg o : in_i32 msg -> t_dmsg (set_dmsg msg o) = msg.
Proof. intros. unfold t_dmsg, set_dmsg. simpl. rewrite i32_u32. by apply i32_id. Qed.

Lemma at_queue_waiting o h :
  at_queue o h -> active (t_state o) = false -> is_ready_head h = false.
Proof. destruct h; simpl; try done. intros [Ha _]. by rewrite Ha. Qed.

(** Expiry of one task: it leaves the time list and its wait list and is ready. *)
Lemma expire_task_spec t o tl' s :
  ready_inv None s -> sems_ok s -> k_tasks s !! t = Some o -> timed_state (t_state o) = true ->
  seq_delete t (k_tl s) = Some tl' ->
  wp (expire_task t) (fun _ s' => woken [t] tl' s s') s.
Proof.
  intros Hok Hsem Ho Hts Htl. unfold expire_task.
  wp_step. eapply wp_tl_store; [exact Htl|]. wp_step. eapply wp_task_get; [exact Ho|].
  wp_step.
  assert (forall (Q : unit -> kstate HS -> Prop) s1, dequeued t (set_dmsg ISIX_ETIMEOUT o) tl' s s1 ->
    t_state o <> OSTHR_STATE_READY -> t_state o <> OSTHR_STATE_ZOMBIE ->
    (forall s', woken [t] tl' s s' -> Q tt s') -> wp (add_ready_list t) Q s1) as Hfin.
  { intros Q s1 Hd H1 H2 HQ. eapply wp_mono; [by eapply wake_dequeued|intros []; auto]. }
  destruct (t_state o) eqn:Est; try done.
  - wp_step. eapply wp_mono; [eapply wake_dequeued; [exact Ho|by eapply dequeue_sleeping; [..|exact Ho|rewrite Est]|
      by rewrite Est|by rewrite Est|done|done|done|by rewrite Est]|auto].
  - wp_step. eapply q_delete_waiting; [exact Hok|exact Ho|by rewrite Est|].
    intros h l Hl Hin Hat. pose proof (at_queue_waiting _ _ Hat) as Hw. rewrite Est in Hw.
    destruct h; simpl in Hat; rewrite Est in Hat; destruct_and?; try done. subst s0.
    destruct (Hsem _ _ Hl) as (so & Hso & Hlen & Hrange).
    wp_step. eapply wp_sem_upd; [exact Hso|]. eapply wp_task_upd; [exact Ho|].
    eapply Hfin; [|done|done|done].
    eapply (dequeue_waiting t o _ _ l); try done.
    apply sem_counts_upd; [done|..]; simpl; unfold atomic_sem_inc, in_i32 in *;
      pose proof (length_remove_node t l ltac:(by eapply (r_qwf _ _ _ _ _ Hok)) Hin);
      rewrite (i32_id (s_value so + 1)) by (unfold in_i32; lia);
      destruct (Z.ltb_spec 0 (s_limit so)), (Z.ltb_spec (s_limit so) (s_value so + 1)); simpl; lia.
  - wp_step. eapply q_delete_waiting; [exact Hok|exact Ho|by rewrite Est|].
    intros h l Hl Hin Hat. pose proof (at_queue_waiting _ _ Hat) as Hw. rewrite Est in Hw.
    eapply wp_task_upd; [exact Ho|]. eapply Hfin; [|done|done|done].
    specialize (Hw eq_refl). eapply (dequeue_waiting t o _ h l); try done.
    eapply sem_counts_frame; [exact Hsem|]. intros a. apply lookup_insert_ne. intros ->.
    simpl in Hat. rewrite Est in Hat. by destruct Hat.
  - wp_step. eapply q_delete_waiting; [exact Hok|exact Ho|by rewrite Est|].
    intros h l Hl Hin Hat. pose proof (at_queue_waiting _ _ Hat) as Hw. rewrite Est in Hw.
    eapply wp_task_upd; [exact Ho|]. eapply Hfin; [|done|done|done].
    specialize (Hw eq_refl). eapply (dequeue_waiting t o _ h l); try done.
    eapply sem_counts_frame; [exact Hsem|]. intros a. apply lookup_insert_ne. intros ->.
    simpl in Hat. rewrite Est in Hat. by destruct Hat.
Qed.

Lemma filter_ext_in (P Q : Z -> Prop) `{!forall x, Decision (P x), !forall x, Decision (Q x)}
    (l : list Z) : (forall x, x ∈ l -> (P x <-> Q x)) -> filter P l = filter Q l.
Proof.
  induction l as [|a l IH]; intros HPQ; [done|].
  rewrite !filter_cons, IH by (intros; apply HPQ; by right).
  pose proof (HPQ a (list_elem_of_here _ _)). repeat case_decide; tauto.
Qed.

(** Waking two groups of tasks one after the other. *)
Lemma woken_app d1 d2 tl1 tl2 s s1 s2 :
  woken d1 tl1 s s1 -> woken d2 tl2 s1 s2 -> (forall t, t ∈ d1 -> t ∉ d2) ->
  woken (d1 ++ d2) tl2 s s2.
Proof.
  intros W1 W2 Hd. pose proof W1 as []. 
  assert (forall t, t ∈ d2 -> k_tasks s1 !! t = k_tasks s !! t) as Hs1.
  { intros t Ht. apply wk_others0. intros Ht'. by eapply Hd. }
  split.
  - by eapply wk_inv.
  - by eapply wk_sems.
  - unfold frame_time in *. rewrite wk_frame0. by eapply wk_frame.
  - by eapply wk_tl.
  - intros t Ht. rewrite elem_of_app in Ht. rewrite (wk_others _ _ _ _ W2), wk_others0; tauto.
  - intros t [Ht|Ht]%elem_of_app.
    + destruct (wk_due0 t Ht) as (o & o' & Ho & Ho' & ?). exists o, o'.
      rewrite (wk_others _ _ _ _ W2) by auto. done.
    + destruct (wk_due _ _ _ _ W2 t Ht) as (o & o' & Ho & Ho' & ?). exists o, o'.
      by rewrite Hs1 in Ho.
  - intros p. rewrite (wk_rq _ _ _ _ W2), wk_rq0, <- app_assoc, filter_app. do 2 f_equal.
    apply filter_ext_in. intros t Ht. unfold prio_of. by rewrite Hs1.
  - intros h Hh. rewrite (wk_waiting _ _ _ _ W2), wk_waiting0 by done.
    destruct (k_q s !! h) as [l|]; [|done]. simpl. f_equal. rewrite list_filter_filter.
    apply list_filter_iff. intros t. rewrite elem_of_app. tauto.
Qed.

Lemma filter_all (P : Z -> Prop) `{!forall x, Decision (P x)} (l : list Z) :
  (forall x, x ∈ l -> P x) -> filter P l = l.
Proof.
  induction l as [|a l IH]; intros HP; [done|]. rewrite filter_cons_True by (apply HP; by left).
  f_equal. apply IH. intros x Hx. apply HP. by right.
Qed.

Lemma woken_nil tl' s : ready_inv None s -> sems_ok s -> k_tl s = tl' -> woken [] tl' s s.
Proof.
  intros Hok Hsem Htl. split; try done.
  - intros t Ht. by apply elem_of_nil in Ht.
  - intros p. by rewrite app_nil_r.
  - intros h _. destruct (k_q s !! h) as [l|]; [|done]. simpl. f_equal.
    symmetry. apply filter_all. intros x _. apply not_elem_of_nil.
Qed.

(** ** The expiry loop *)

Lemma time_lists_drop ts ts' tl pw due rest ov :
  time_lists ts tl pw (due ++ rest) ov -> (forall x, x ∈ rest ++ ov -> ts' !! x = ts !! x) ->
  time_lists ts' (<[pw := rest]> tl) pw rest ov.
Proof.
  intros Hl He. apply (time_lists_ext ts); [|done].
  destruct Hl. rewrite <- app_assoc in tm_nodup0, tm_state0, tm_range0.
  apply sorted_by_app in tm_sorted0 as (_ & Hs & _). split; try done.
  - by rewrite lookup_insert_eq.
  - by rewrite lookup_insert_ne by (by destruct pw).
  - by apply NoDup_app in tm_nodup0 as (_ & _ & ?).
  - intros x Hx. apply tm_state0. apply elem_of_app. by right.
  - intros x Hx. apply tm_range0. apply elem_of_app. by right.
Qed.

Lemma expire_loop_spec jiffies due rest ov s fuel :
  ready_inv None s -> sems_ok s ->
  time_lists (k_tasks s) (k_tl s) (k_pwait s) (due ++ rest) ov ->
  (forall t, t ∈ due -> dl (k_tasks s) t <= jiffies) ->
  (forall t, t ∈ rest -> jiffies < dl (k_tasks s) t) ->
  (length due < fuel)%nat ->
  wp (expire_loop fuel jiffies) (fun _ s' => woken due (<[k_pwait s := rest]> (k_tl s)) s s') s.
Proof.
  revert s fuel. induction due as [|t due IH]; intros s [|fuel] Hok Hsem Htl Hdue Hrest Hf;
    simpl in Hf; try lia; cbn [expire_loop]; wp_step; wp_step; wp_step;
    (eapply wp_tl_list; [exact (tm_cur _ _ _ _ _ Htl)|]).
  - assert (woken [] (<[k_pwait s := rest]> (k_tl s)) s s) as Hw.
    { apply woken_nil; [done|done|]. symmetry. apply insert_id. by eapply tm_cur. }
    simpl. destruct rest as [|x rest]; [by wp_step|].
    destruct (tm_state _ _ _ _ _ Htl x) as (o & Ho & _); [by left|].
    wp_step. eapply wp_task_get; [exact Ho|].
    specialize (Hrest x (list_elem_of_here _ _)). unfold dl in Hrest. rewrite Ho in Hrest.
    rewrite (proj2 (Z.leb_gt _ _)) by lia. by wp_step.
  - rewrite <- app_comm_cons in Htl.
    simpl. destruct (tm_state _ _ _ _ _ Htl t) as (o & Ho & Hst); [by left|].
    pose proof (tm_nodup _ _ _ _ _ Htl) as Hnd. simpl in Hnd.
    apply NoDup_cons in Hnd as [Hn Hnd]. rewrite !elem_of_app in Hn.
    assert (NoDup (t :: due ++ rest)) as Hnd1.
    { pose proof (tm_nodup _ _ _ _ _ Htl) as Hnd'. by apply NoDup_app in Hnd' as [? _]. }
    wp_step. eapply wp_task_get; [exact Ho|].
    pose proof (Hdue t (list_elem_of_here _ _)) as Hd. unfold dl in Hd. rewrite Ho in Hd.
    rewrite (proj2 (Z.leb_le _ _)) by lia.
    destruct (seq_delete_in t (k_tl s) (k_pwait s) _ (tl_wf _ _ _ _ _ Htl)
      (tm_cur _ _ _ _ _ Htl) (list_elem_of_here _ _)) as (Hdel & _).
    rewrite remove_node_head in Hdel by done.
    wp_step. eapply wp_mono; [by eapply expire_task_spec|]. intros [] s1 W1.
    pose proof (f_equal k_pwait (wk_frame _ _ _ _ W1) : k_pwait s = k_pwait s1) as Epw.
    pose proof (wk_tl _ _ _ _ W1) as Etl.
    assert (forall x, x <> t -> k_tasks s1 !! x = k_tasks s !! x) as Hsame.
    { intros x Hx. apply (wk_others _ _ _ _ W1). by rewrite list_elem_of_singleton. }
    assert (forall x, x ∈ due ++ rest -> dl (k_tasks s1) x = dl (k_tasks s) x) as Hdl.
    { intros x Hx. unfold dl. rewrite Hsame; [done|]. intros ->. apply elem_of_app in Hx. tauto. }
    eapply wp_mono; [apply (IH s1 fuel); [by eapply wk_inv|by eapply wk_sems| | | |lia]|].
    + rewrite Etl, <- Epw. apply (time_lists_drop (k_tasks s) _ _ _ [t]); [done|]. intros x Hx. apply Hsame.
      intros ->. rewrite !elem_of_app in Hx. tauto.
    + intros x Hx. rewrite Hdl by (apply elem_of_app; by left). apply Hdue. by right.
    + intros x Hx. rewrite Hdl by (apply elem_of_app; by right). auto.
    + intros [] s2 W2. rewrite Etl, <- Epw, insert_insert_eq in W2.
      apply (woken_app [t] due _ _ _ _ _ W1 W2). intros x ->%list_elem_of_singleton. tauto.
Qed.

(** One pass over the current list. *)
Lemma expire_waiting_tasks_spec jiffies cur ov s :
  ready_inv None s -> sems_ok s ->
  time_lists (k_tasks s) (k_tl s) (k_pwait s) cur ov ->
  exists due rest, cur = due ++ rest /\
    (forall t, t ∈ due -> dl (k_tasks s) t <= jiffies) /\
    (forall t, t ∈ rest -> jiffies < dl (k_tasks s) t) /\
    wp (expire_waiting_tasks jiffies)
      (fun _ s' => woken due (<[k_pwait s := rest]> (k_tl s)) s s' /\
         time_lists (k_tasks s') (k_tl s') (k_pwait s') rest ov) s.
Proof.
  intros Hok Hsem Htl.
  destruct (insert_before_first_split (dl (k_tasks s)) jiffies 0 cur (tm_sorted _ _ _ _ _ Htl))
    as (due & rest & -> & _ & Hdue & Hrest).
  exists due, rest. split_and!; [done|done|done|]. unfold expire_waiting_tasks.
  wp_step. wp_step. wp_step. eapply wp_tl_list; [exact (tm_cur _ _ _ _ _ Htl)|].
  eapply wp_mono; [apply (expire_loop_spec jiffies due rest ov); try done|].
  { rewrite length_app. lia. }
  intros [] s' W. split; [done|].
  rewrite (wk_tl _ _ _ _ W), <- (f_equal k_pwait (wk_frame _ _ _ _ W) : k_pwait s = k_pwait s').
  eapply time_lists_drop; [exact Htl|]. intros t Ht. apply (wk_others _ _ _ _ W). intros Hd.
  pose proof (tm_nodup _ _ _ _ _ Htl) as Hnd. rewrite <- app_assoc in Hnd.
  apply NoDup_app in Hnd as (_ & Hdis & _). by eapply Hdis.
Qed.

(** ** Ticks a task still has to sleep *)

Definition cur_list s : list Z := default [] (k_tl s !! k_pwait s).
Definition ov_list s : list Z := default [] (k_tl s !! negb (k_pwait s)).

Definition remaining s (t : Z) : option Z :=
  if decide (t ∈ cur_list s) then Some (dl (k_tasks s) t - k_jiffies s)
  else if decide (t ∈ ov_list s) then Some (dl (k_tasks s) t + 2 ^ 32 - k_jiffies s)
  else None.

(** What is left after [n] ticks. *)
Definition rest_after (n : Z) (r : option Z) : option Z :=
  match r with Some r => if r <=? n then None else Some (r - n) | None => None end.

Definition time_inv s : Prop :=
  time_ok (k_tasks s) (k_tl s) (k_pwait s) (k_jiffies s) (cur_list s) (ov_list s).

Definition sched_inv s : Prop := ready_inv None s /\ sems_ok s /\ time_inv s.

(** The rest of the task runs out within [n] ticks. *)
Definition expired (n : Z) s (t : Z) : bool :=
  match remaining s t with Some r => r <=? n | None => false end.

Definition frame_advance s s' : Prop :=
  upd_jiffies (fun _ => 0) (upd_pwait (fun _ => false) (erase_time s)) =
  upd_jiffies (fun _ => 0) (upd_pwait (fun _ => false) (erase_time s')).

(** [n] ticks have passed. *)
Record advanced (n : Z) s s' : Prop := {
  ad_inv : sched_inv s';
  ad_frame : frame_advance s s';
  ad_now : k_jiffies s' = u32 (k_jiffies s + n);
  ad_rest : forall t, remaining s' t = rest_after n (remaining s t);
  ad_asleep : forall t, (forall r, remaining s t = Some r -> n < r) -> k_tasks s' !! t = k_tasks s !! t;
  ad_woken : forall t r, remaining s t = Some r -> r <= n ->
    exists o o', k_tasks s !! t = Some o /\ k_tasks s' !! t = Some o' /\
      t_state o' = OSTHR_STATE_READY /\ t_prio o' = t_prio o /\ t_real_prio o' = t_real_prio o /\
      (t_state o <> OSTHR_STATE_SLEEPING -> t_dmsg o' = ISIX_ETIMEOUT);
  ad_waiting : forall h, is_ready_head h = false ->
    k_q s' !! h = filter (fun t => expired n s t = false) <$> k_q s !! h
}.

Lemma time_ok_lists ts tl pw j cur ov s :
  time_ok ts tl pw j cur ov -> k_tasks s = ts -> k_tl s = tl -> k_pwait s = pw -> k_jiffies s = j ->
  time_inv s /\ cur_list s = cur /\ ov_list s = ov.
Proof.
  intros Hok <- <- <- <-.
  assert (cur_list s = cur) as E1 by (unfold cur_list; by rewrite (tm_cur _ _ _ _ _ (to_lists _ _ _ _ _ _ Hok))).
  assert (ov_list s = ov) as E2 by (unfold ov_list; by rewrite (tm_ov _ _ _ _ _ (to_lists _ _ _ _ _ _ Hok))).
  unfold time_inv. by rewrite E1, E2.
Qed.

(** A rest is positive, and below two rounds of the counter. *)
Lemma remaining_pos s t r : time_inv s -> remaining s t = Some r -> 0 < r.
Proof.
  intros [Hl Hj Hc Ho]. unfold remaining, in_u32 in *. case_decide as Hd; [|case_decide as Hd'; [|done]]; intros [= <-].
  - specialize (Hc t Hd). lia.
  - pose proof (tm_range _ _ _ _ _ Hl t ltac:(apply elem_of_app; by right)) as Hr.
    unfold in_u32 in Hr. lia.
Qed.

Lemma rest_after_add a b r :
  0 <= a -> 0 <= b -> rest_after b (rest_after a r) = rest_after (a + b) r.
Proof.
  intros Ha Hb. destruct r as [r|]; [|done]. simpl.
  destruct (Z.leb_spec r a); simpl; [rewrite (proj2 (Z.leb_le _ _)) by lia; done|].
  destruct (Z.leb_spec (r - a) b), (Z.leb_spec r (a + b)); try lia; f_equal; lia.
Qed.

Lemma advanced_0 s : sched_inv s -> advanced 0 s s.
Proof.
  intros Hi. pose proof Hi as (_ & _ & Ht). split; try done.
  - rewrite Z.add_0_r. symmetry. apply u32_id. by destruct Ht.
  - intros t. destruct (remaining s t) as [r|] eqn:E; [|done]. simpl.
    pose proof (remaining_pos _ _ _ Ht E). rewrite (proj2 (Z.leb_gt _ _)) by lia. f_equal. lia.
  - intros t r E Hr. pose proof (remaining_pos _ _ _ Ht E). lia.
  - intros h _. destruct (k_q s !! h) as [l|]; [|done]. simpl. f_equal. symmetry. apply filter_all.
    intros t _. unfold expired. destruct (remaining s t) as [r|] eqn:E; [|done].
    pose proof (remaining_pos _ _ _ Ht E). by rewrite (proj2 (Z.leb_gt _ _)) by lia.
Qed.

Lemma advanced_trans a b s s1 s2 :
  0 <= a -> 0 <= b -> advanced a s s1 -> advanced b s1 s2 -> advanced (a + b) s s2.
Proof.
  intros Ha Hb A1 A2. pose proof (ad_rest _ _ _ A1) as Hrest.
  assert (forall t r, remaining s t = Some r -> a < r -> remaining s1 t = Some (r - a)) as Hlong.
  { intros t r E Hr. rewrite Hrest, E. simpl. by rewrite (proj2 (Z.leb_gt _ _)). }
  split.
  - by eapply ad_inv.
  - unfold frame_advance. rewrite (ad_frame _ _ _ A1). by eapply ad_frame.
  - rewrite (ad_now _ _ _ A2), (ad_now _ _ _ A1). unfold u32. rewrite Zplus_mod_idemp_l. f_equal. lia.
  - intros t. rewrite (ad_rest _ _ _ A2), Hrest. by apply rest_after_add.
  - intros t Ht. rewrite (ad_asleep _ _ _ A2), (ad_asleep _ _ _ A1); [done| |].
    + intros r E. specialize (Ht r E). lia.
    + intros r E. rewrite Hrest in E. destruct (remaining s t) as [r0|] eqn:E0; [|done]. simpl in E.
      specialize (Ht r0 eq_refl). rewrite (proj2 (Z.leb_gt _ _)) in E by lia. injection E as <-. lia.
  - intros t r E Hr. destruct (Z_le_dec r a) as [Hle|Hgt].
    + rewrite (ad_asleep _ _ _ A2); [by apply (ad_woken _ _ _ A1 t r)|].
      intros r1 E1. rewrite Hrest, E in E1. simpl in E1. by rewrite (proj2 (Z.leb_le _ _)) in E1.
    + destruct (ad_woken _ _ _ A2 t (r - a)) as (o & o' & Ho & Ho' & ?); [apply Hlong; [done|lia]|lia|].
      exists o, o'. rewrite (ad_asleep _ _ _ A1) in Ho; [done|]. intros r1 E1. simplify_eq. lia.
  - intros h Hh. rewrite (ad_waiting _ _ _ A2), (ad_waiting _ _ _ A1) by done.
    destruct (k_q s !! h) as [l|]; [|done]. simpl. f_equal. rewrite list_filter_filter.
    apply list_filter_iff. intros t. unfold expired. rewrite Hrest.
    destruct (remaining s t) as [r|]; [|done]. simpl.
    destruct (Z.leb_spec r a); [rewrite (proj2 (Z.leb_le _ _)) by lia; by split; [intros []|]|].
    destruct (Z.leb_spec (r - a) b), (Z.leb_spec r (a + b)); try lia; tauto.
Qed.

(** ** Advancing the time *)

Lemma advanced_of_woken n due tl' s s0 s' :
  k_tasks s0 = k_tasks s -> k_q s0 = k_q s -> frame_advance s s0 -> woken due tl' s0 s' ->
  (forall t, t ∈ due <-> exists r, remaining s t = Some r /\ r <= n) ->
  time_inv s' -> k_jiffies s' = u32 (k_jiffies s + n) ->
  (forall t, remaining s' t = rest_after n (remaining s t)) ->
  advanced n s s'.
Proof.
  intros Ets Eq Hf W Hdue Ht Hj Hr. split; [|  |done|done| | |].
  - split; [by eapply wk_inv|]. split; [by eapply wk_sems|done].
  - unfold frame_advance in *. rewrite Hf. by rewrite (wk_frame _ _ _ _ W).
  - intros t Hs. rewrite (wk_others _ _ _ _ W), Ets; [done|].
    intros (r & E & Hle)%Hdue. specialize (Hs r E). lia.
  - intros t r E Hle. destruct (wk_due _ _ _ _ W t) as (o & o' & ? & ? & ? & ? & ? & ? & ?);
      [apply Hdue; eauto|]. exists o, o'. rewrite <- Ets. done.
  - intros h Hh. rewrite (wk_waiting _ _ _ _ W), Eq by done. destruct (k_q s !! h) as [l|]; [|done]. simpl. f_equal.
    apply list_filter_iff. intros t. rewrite Hdue. unfold expired. destruct (remaining s t) as [r|]; [|naive_solver].
    destruct (Z.leb_spec r n); [|naive_solver lia]. split; [|done]. intros Hn. destruct Hn. eauto.
Qed.

(** The counter does not wrap. *)
Lemma advance_in_round n s :
  sched_inv s -> k_schrun s = true -> 0 <= n -> k_jiffies s + n < 2 ^ 32 ->
  wp (expire_if_running (u32 (k_jiffies s + n))) (fun _ s' => advanced n s s')
    (upd_jiffies (fun j => u32 (j + n)) s).
Proof.
  intros (Hok & Hsem & Ht) Hrun Hn Hw. unfold expire_if_running.
  set (s0 := upd_jiffies _ s). set (J := k_jiffies s + n).
  pose proof Ht as [Htl Hj Hc Ho]. unfold in_u32 in Hj.
  assert (u32 J = J) as EJ by (apply u32_id; unfold in_u32, J; lia). fold J. rewrite EJ.
  destruct (expire_waiting_tasks_spec J (cur_list s) (ov_list s) s0)
    as (due & rest & Ecur & Hdue & Hrest & Hwp); [done|done|done|].
  wp_step. wp_step. wp_step. change (k_schrun s0) with (k_schrun s). rewrite Hrun.
  eapply wp_mono; [exact Hwp|]. intros [] s' [W Htl']. clear Hwp.
  change (k_tasks s0) with (k_tasks s) in *. change (k_tl s0) with (k_tl s) in *.
  pose proof (f_equal k_jiffies (wk_frame _ _ _ _ W) : u32 J = k_jiffies s') as Ej'.
  rewrite EJ in Ej'. symmetry in Ej'.
  pose proof (tm_nodup _ _ _ _ _ Htl) as Hnd. rewrite Ecur, <- app_assoc in Hnd.
  apply NoDup_app in Hnd as (_ & Hdis & Hnd).
  assert (forall t, t ∈ rest ++ ov_list s -> dl (k_tasks s') t = dl (k_tasks s) t) as Hdl.
  { intros t Hin. unfold dl. rewrite (wk_others _ _ _ _ W); [done|]. intros ?. by eapply Hdis. }
  destruct (time_ok_lists (k_tasks s') (k_tl s') (k_pwait s') J rest (ov_list s) s') as (Hti & Ec & Eo);
    [|done|done|done|done|].
  { split; [done|unfold in_u32, J; lia| |]; intros t Hin.
    - rewrite Hdl by (apply elem_of_app; by left). auto.
    - rewrite Hdl by (apply elem_of_app; by right). specialize (Ho t Hin). lia. }
  eapply (advanced_of_woken n due _ s s0); [done|done|done|exact W| |done|by rewrite Ej', <- EJ|].
  - intros t. unfold remaining. rewrite Ecur. split.
    + intros Hin. rewrite decide_True by (apply elem_of_app; by left).
      eexists. split; [done|]. specialize (Hdue t Hin). lia.
    + intros (r & E & Hle). case_decide as Hd.
      * injection E as <-. apply elem_of_app in Hd as [|Hd]; [done|]. specialize (Hrest t Hd). lia.
      * case_decide as Hd'; [|done]. injection E as <-.
        pose proof (tm_range _ _ _ _ _ Htl t ltac:(apply elem_of_app; by right)) as Hr.
        unfold in_u32 in Hr. lia.
  - intros t. unfold remaining. rewrite Ec, Eo, Ecur, Ej'.
    destruct (decide (t ∈ rest)) as [Hin|Hin].
    + rewrite (decide_True (P := t ∈ due ++ rest)) by (apply elem_of_app; by right).
      rewrite Hdl by (apply elem_of_app; by left). specialize (Hrest t Hin). simpl.
      rewrite (proj2 (Z.leb_gt _ _)) by lia. f_equal. lia.
    + destruct (decide (t ∈ ov_list s)) as [Hin'|Hin'].
      * rewrite (decide_False (P := t ∈ due ++ rest)).
        2: { intros [Hd|]%elem_of_app; [|done]. eapply (Hdis t Hd), elem_of_app. by right. }
        rewrite Hdl by (apply elem_of_app; by right). specialize (Ho t Hin').
        pose proof (tm_range _ _ _ _ _ Htl t ltac:(apply elem_of_app; by right)) as Hr.
        unfold in_u32 in Hr. simpl. rewrite (proj2 (Z.leb_gt _ _)) by lia. f_equal. lia.
      * destruct (decide (t ∈ due ++ rest)) as [[Hd|Hd]%elem_of_app|]; [|done|done].
        specialize (Hdue t Hd). simpl. by rewrite (proj2 (Z.leb_le _ _)) by lia.
Qed.

Definition wrapped s : kstate HS := upd_pwait negb (upd_jiffies (fun j => u32 (j + 1)) s).

(** The tick on which the counter wraps: the lists change roles. *)
Lemma advance_wrap s :
  sched_inv s -> k_jiffies s = ISIX_TIME_MAX_TICK ->
  wp (expire_waiting_tasks 0) (fun _ s' => advanced 1 s s') (wrapped s).
Proof.
  intros (Hok & Hsem & Ht) HJ. pose proof Ht as [Htl Hj Hc Ho].
  unfold ISIX_TIME_MAX_TICK in HJ.
  assert (cur_list s = []) as Ecur.
  { destruct (cur_list s) as [|x l] eqn:E; [done|exfalso].
    specialize (Hc x (list_elem_of_here _ _)).
    pose proof (tm_range _ _ _ _ _ Htl x (list_elem_of_here _ _)) as Hr. unfold in_u32 in Hr. lia. }
  assert (time_lists (k_tasks s) (k_tl s) (negb (k_pwait s)) (ov_list s) []) as Htl0.
  { destruct Htl. rewrite Ecur in *. simpl in *. split; try done.
    - by rewrite negb_involutive.
    - by rewrite app_nil_r.
    - intros t. rewrite app_nil_r. auto.
    - intros t. rewrite app_nil_r. auto. }
  destruct (expire_waiting_tasks_spec 0 (ov_list s) [] (wrapped s))
    as (due & rest & Eov & Hdue & Hrest & Hwp); [done|done|done|].
  eapply wp_mono; [exact Hwp|]. intros [] s' [W Htl']. clear Hwp.
  change (k_tasks (wrapped s)) with (k_tasks s) in *.
  pose proof (f_equal k_jiffies (wk_frame _ _ _ _ W) : u32 (k_jiffies s + 1) = k_jiffies s') as Ej'.
  assert (u32 (k_jiffies s + 1) = 0) as E0 by (rewrite HJ; reflexivity).
  pose proof (tm_nodup _ _ _ _ _ Htl0) as Hnd. rewrite Eov, app_nil_r in Hnd.
  apply NoDup_app in Hnd as (_ & Hdis & Hnd).
  assert (forall t, t ∈ rest -> dl (k_tasks s') t = dl (k_tasks s) t) as Hdl.
  { intros t Hin. unfold dl. rewrite (wk_others _ _ _ _ W); [done|]. intros ?. by eapply Hdis. }
  assert (forall t, t ∈ due ++ rest -> 0 <= dl (k_tasks s) t) as Hpos.
  { intros t Hin. pose proof (tm_range _ _ _ _ _ Htl0 t) as Hr. unfold in_u32 in Hr.
    rewrite app_nil_r, Eov in Hr. specialize (Hr Hin). lia. }
  destruct (time_ok_lists (k_tasks s') (k_tl s') (k_pwait s') 0 rest [] s') as (Hti & Ec & Eo);
    [|done|done|done|congruence|].
  { split; [done|unfold in_u32; lia| |]; intros t Hin; [|by apply elem_of_nil in Hin].
    rewrite Hdl by done. auto. }
  eapply (advanced_of_woken 1 due _ s (wrapped s)); [done|done|done|exact W| |done|congruence|].
  - intros t. unfold remaining. rewrite Ecur, Eov, decide_False by apply not_elem_of_nil. split.
    + intros Hin. rewrite decide_True by (apply elem_of_app; by left).
      eexists. split; [done|]. specialize (Hdue t Hin). lia.
    + intros (r & E & Hle). case_decide as Hd; [|done]. injection E as <-.
      apply elem_of_app in Hd as [|Hd]; [done|]. specialize (Hrest t Hd). lia.
  - intros t. unfold remaining. rewrite Ec, Eo, Ecur, Eov, <- Ej', E0.
    rewrite !(decide_False (P := t ∈ [])) by apply not_elem_of_nil.
    destruct (decide (t ∈ rest)) as [Hin|Hin].
    + rewrite (decide_True (P := t ∈ due ++ rest)) by (apply elem_of_app; by right).
      rewrite Hdl by done. specialize (Hrest t Hin). simpl.
      rewrite (proj2 (Z.leb_gt _ _)) by lia. f_equal. lia.
    + destruct (decide (t ∈ due ++ rest)) as [[Hd|Hd]%elem_of_app|]; [|done|done].
      specialize (Hdue t Hd). simpl. by rewrite (proj2 (Z.leb_le _ _)) by lia.
Qed.

Lemma advanced_schrun n s s' : advanced n s s' -> k_schrun s' = k_schrun s.
Proof. intros A. symmetry. exact (f_equal k_schrun (ad_frame _ _ _ A)). Qed.

(** One round of the loop of [advance_jiffies]. *)
Lemma advance_round_spec n s :
  sched_inv s -> k_schrun s = true -> 0 < n < 2 ^ 32 ->
  wp (advance_round n) (fun k s' => 0 <= k < n /\ advanced (n - k) s s' /\
    (k <> 0 -> k_jiffies s' = 0) /\ (k_jiffies s + n < 2 ^ 32 -> k = 0)) s.
Proof.
  intros Hi Hrun Hn. pose proof Hi as (_ & _ & Ht). pose proof (to_now _ _ _ _ _ _ Ht) as Hj.
  unfold in_u32 in Hj. unfold advance_round. wp_step. wp_step. unfold ISIX_TIME_MAX_TICK.
  destruct (Z.ltb_spec n (0xFFFFFFFF - k_jiffies s + 1)) as [Hlt|Hge].
  - wp_step. wp_step. wp_step. eapply wp_mono; [apply (advance_in_round n s); try done; lia|].
    intros [] s' A. wp_step. split_and!; [lia|lia|by rewrite Z.sub_0_r|done|done].
  - set (w := 0xFFFFFFFF - k_jiffies s + 1) in *.
    assert (u32 w = w) as -> by (apply u32_id; unfold in_u32, w; lia).
    assert (u32 (n - w) = n - w) as -> by (apply u32_id; unfold in_u32, w in *; lia).
    assert (wp (when (1 <? w) (modify (upd_jiffies (fun j => u32 (j + (w - 1))));;;
      expire_if_running 0xFFFFFFFF)) (fun _ s' => advanced (w - 1) s s') s) as H1.
    { unfold when. destruct (Z.ltb_spec 1 w).
      - wp_step. wp_step.
        replace 0xFFFFFFFF with (u32 (k_jiffies s + (w - 1))) at 1
          by (rewrite u32_id; unfold in_u32, w; lia).
        apply (advance_in_round (w - 1) s); try done; unfold w in *; lia.
      - wp_step. replace (w - 1) with 0 by (unfold w in *; lia). by apply advanced_0. }
    wp_step. eapply wp_mono; [exact H1|]. intros [] s1 A1. clear H1.
    assert (k_jiffies s1 = ISIX_TIME_MAX_TICK) as E1.
    { rewrite (ad_now _ _ _ A1), u32_id; unfold in_u32, w, ISIX_TIME_MAX_TICK in *; lia. }
    wp_step. wp_step. wp_step. wp_step.
    change (k_schrun (upd_jiffies _ s1)) with (k_schrun s1).
    rewrite (advanced_schrun _ _ _ A1), Hrun. wp_step. wp_step. wp_step. wp_step.
    eapply wp_mono; [apply (advance_wrap s1); [by eapply ad_inv|done]|].
    intros [] s2 A2. wp_step. split_and!; [unfold w in *; lia|unfold w in *; lia| | |unfold w in *; lia].
    + replace (n - (n - w)) with (w - 1 + 1) by lia.
      eapply advanced_trans; [unfold w in *; lia|lia|exact A1|exact A2].
    + intros _. rewrite (ad_now _ _ _ A2), E1. reflexivity.
Qed.

Lemma advance_jiffies_spec n s :
  sched_inv s -> k_schrun s = true -> 0 <= n < 2 ^ 32 ->
  wp (advance_jiffies n) (fun _ s' => advanced n s s') s.
Proof.
  intros Hi Hrun Hn. unfold advance_jiffies. cbn [advance_loop].
  destruct (Z.ltb_spec 0 n) as [Hpos|].
  2: { wp_step. replace n with 0 by lia. by apply advanced_0. }
  wp_step. eapply wp_mono; [apply advance_round_spec; [done|done|lia]|].
  intros k s1 (Hk & A1 & Hz & _). destruct (Z.ltb_spec 0 k) as [Hk0|].
  2: { wp_step. by replace n with (n - k) by lia. }
  assert (k_schrun s1 = true) as Hrun1 by (by rewrite (advanced_schrun _ _ _ A1)).
  wp_step. eapply wp_mono; [apply advance_round_spec; [by eapply ad_inv|done|lia]|].
  intros k' s2 (Hk' & A2 & _ & Hlast). rewrite Hz in Hlast by lia.
  rewrite (Hlast ltac:(lia)) in *. simpl. wp_step.
  replace n with (n - k + (k - 0)) by lia. eapply advanced_trans; [lia|lia|exact A1|exact A2].
Qed.

(** C4: Tick processing refines the abstract clock: for any number of ticks, also
    across the wrap of the 32-bit tick counter, [advance_jiffies] terminates without
    a panic, the counter moves by that number modulo 2^32, exactly the tasks whose
    rest has run out become ready (with [ISIX_ETIMEOUT] when they waited for an
    object), the rest of every other sleeping task shrinks by that number, and no
    other task is touched. *)
Theorem advance_jiffies_wakes_exactly_due n s :
  sched_inv s -> k_schrun s = true -> 0 <= n < 2 ^ 32 ->
  wp (advance_jiffies n) (fun _ s' => advanced n s s') s.
Proof. apply advance_jiffies_spec. Qed.

(** Counting ticks in one batch, as the tickless idle and the scheduler lock do,
    gives the same clock, the same rests and the same sleeping tasks as counting them
    one announcement after the other. *)
Theorem advance_jiffies_batch a b s :
  sched_inv s -> k_schrun s = true -> 0 <= a -> 0 <= b -> a + b < 2 ^ 32 ->
  wp (advance_jiffies (a + b)) (fun _ s1 =>
    wp (advance_jiffies a;;; advance_jiffies b) (fun _ s2 =>
      k_jiffies s1 = k_jiffies s2 /\ (forall t, remaining s1 t = remaining s2 t) /\
      (forall t, is_Some (remaining s1 t) -> k_tasks s1 !! t = k_tasks s2 !! t)) s) s.
Proof.
  intros Hi Hrun Ha Hb Hab.
  eapply wp_mono; [apply (advance_jiffies_spec (a + b)); [done|done|lia]|]. intros [] s1 A.
  wp_step. eapply wp_mono; [apply (advance_jiffies_spec a); [done|done|lia]|]. intros [] s2 A1.
  eapply wp_mono; [apply (advance_jiffies_spec b); [by eapply ad_inv| |lia]|].
  { by rewrite (advanced_schrun _ _ _ A1). }
  intros [] s3 A2. pose proof (advanced_trans _ _ _ _ _ Ha Hb A1 A2) as A3.
  split_and!.
  - by rewrite (ad_now _ _ _ A), (ad_now _ _ _ A3).
  - intros t. by rewrite (ad_rest _ _ _ A), (ad_rest _ _ _ A3).
  - intros t [r Hr]. rewrite (ad_rest _ _ _ A) in Hr.
    assert (forall r0, remaining s t = Some r0 -> a + b < r0) as Hlong.
    { intros r0 E. rewrite E in Hr. simpl in Hr. destruct (Z.leb_spec r0 (a + b)); [done|lia]. }
    by rewrite (ad_asleep _ _ _ A), (ad_asleep _ _ _ A3).
Qed.

End Time.
