(* ===== verification/SchedSleep.v ===== *)
(** * Going to sleep, the next wake-up and the scheduler lock *)

From S2P Require Import Prelude.
From S2P Require Import DList.
From S2P Require Import Systimer.
From S2P Require Import OsStats.
From S2P Require Import Kernel.
From S2P Require Import Scheduler.
From S2P Require Import SchedInv.
From S2P Require Import SchedCore.
From S2P Require Import SchedTime.
From S2P Require Import Events.
From S2P Require Import OsTime.
From stdpp Require Import base numbers gmap list sorting.
From Stdlib Require Import ZArith Lia.
Local Open Scope Z_scope.

Section Sleep.
Context {HS : Type} {AL : Allocator HS}.
Implicit Types s : kstate HS.

(** ** Entering a time list *)

Lemma dl_insert (ts : gmap Z task) t o x :
  dl (<[t := o]> ts) x = if decide (x = t) then t_jiffies o else dl ts x.
Proof. unfold dl. rewrite lookup_insert. repeat case_decide; subst; done. Qed.

(** Inserting a task into one of the two lists. *)
Lemma time_lists_insert ts tl pw cur ov t o i :
  time_lists ts tl pw cur ov -> timed_state (t_state o) = true -> in_u32 (t_jiffies o) ->
  t ∉ cur ++ ov ->
  let ts' := <[t := o]> ts in
  let ins := insert_before_first (fun y => t_jiffies o <? dl ts' y) t in
  let l := if decide (i = pw) then cur else ov in
  time_lists ts' (<[i := ins l]> tl) pw
    (if decide (i = pw) then ins cur else cur) (if decide (i = pw) then ov else ins ov).
Proof.
  intros Htl Hst Hr Hn ts' ins l.
  assert (time_lists ts' tl pw cur ov) as Htl'.
  { eapply time_lists_ext; [exact Htl|]. intros x Hx. unfold ts'. rewrite lookup_insert_ne; congruence. }
  assert (dl ts' t = t_jiffies o) as Edl by (unfold ts'; by rewrite dl_insert, decide_True).
  assert (forall k, ins k ≡ₚ t :: k) as Hperm by (intros; apply insert_before_first_perm).
  assert (forall x, x ∈ t :: (cur ++ ov) -> exists o, ts' !! x = Some o /\ timed_state (t_state o) = true) as Hs1.
  { intros x [->|Hx]%elem_of_cons; [exists o; unfold ts'; by rewrite lookup_insert_eq|].
    by apply (tm_state _ _ _ _ _ Htl'). }
  assert (forall x, x ∈ t :: (cur ++ ov) -> in_u32 (dl ts' x)) as Hr1.
  { intros x [->|Hx]%elem_of_cons; [by rewrite Edl|]. by apply (tm_range _ _ _ _ _ Htl'). }
  assert (NoDup (t :: (cur ++ ov))) as Hnd by (constructor; [done|by eapply tm_nodup]).
  destruct Htl'. unfold l. destruct (decide (i = pw)) as [->|Hi].
  - split; try done.
    + by rewrite lookup_insert_eq.
    + by rewrite lookup_insert_ne by (by destruct pw).
    + by rewrite Hperm.
    + by apply insert_before_first_sorted.
    + intros x. rewrite Hperm. apply Hs1.
    + intros x. rewrite Hperm. apply Hr1.
  - assert (i = negb pw) as -> by (by destruct i, pw).
    assert (cur ++ ins ov ≡ₚ t :: (cur ++ ov)) as Hp2 by (by rewrite Hperm, <- Permutation_middle).
    split; try done.
    + rewrite lookup_insert_ne; [done|by destruct pw].
    + by rewrite lookup_insert_eq.
    + by rewrite Hp2.
    + by apply insert_before_first_sorted.
    + intros x. rewrite Hp2. apply Hs1.
    + intros x. rewrite Hp2. apply Hr1.
Qed.

Definition on_time_list s (t : Z) : Prop := t ∈ cur_list s ++ ov_list s.

Lemma remaining_None s t : ~ on_time_list s t -> remaining s t = None.
Proof.
  intros Hn. unfold on_time_list in Hn. rewrite elem_of_app in Hn.
  unfold remaining. by rewrite !decide_False by tauto.
Qed.

(** The list is chosen by whether the deadline lies behind the wrap of the counter. *)
Lemma slept_lists s s' t timeout :
  time_inv s -> (t ∉ cur_list s ++ ov_list s) /\ 0 < timeout < 2 ^ 32 ->
  let d := u32 (k_jiffies s + timeout) in
  let i := if d <? k_jiffies s then negb (k_pwait s) else k_pwait s in
  let ins := insert_before_first (fun y => d <? dl (k_tasks s') y) t in
  k_pwait s' = k_pwait s -> k_jiffies s' = k_jiffies s ->
  k_tl s' = <[i := ins (if decide (i = k_pwait s) then cur_list s else ov_list s)]> (k_tl s) ->
  time_lists (k_tasks s') (<[i := ins (if decide (i = k_pwait s) then cur_list s else ov_list s)]> (k_tl s))
    (k_pwait s) (if decide (i = k_pwait s) then ins (cur_list s) else cur_list s)
    (if decide (i = k_pwait s) then ov_list s else ins (ov_list s)) ->
  (forall x, x ∈ cur_list s ++ ov_list s -> dl (k_tasks s') x = dl (k_tasks s) x) ->
  dl (k_tasks s') t = d ->
  time_inv s' /\
  forall x, remaining s' x = if decide (x = t) then Some timeout else remaining s x.
Proof.
  intros Ht [Hn Htm] d i ins Epw Ej Etl Htl' Hdl Edt. pose proof Ht as [Htl Hj Hc Hov].
  rewrite elem_of_app in Hn. unfold in_u32 in Hj.
  assert (forall x k, x ∈ ins k <-> x = t \/ x ∈ k) as Hin by (intros; apply elem_of_insert_before_first).
  assert (forall x, x ∈ cur_list s -> dl (k_tasks s') x = dl (k_tasks s) x) as Hdc
    by (intros; apply Hdl, elem_of_app; by left).
  assert (forall x, x ∈ ov_list s -> dl (k_tasks s') x = dl (k_tasks s) x) as Hdo
    by (intros; apply Hdl, elem_of_app; by right).
  destruct (u32_add_cases (k_jiffies s) timeout) as [[Hlt Ed]|[Hge Ed]]; [done|unfold in_u32; lia| |];
    fold d in Ed.
  - assert (i = k_pwait s) as Ei by (unfold i; by rewrite (proj2 (Z.ltb_ge _ _)) by lia).
    rewrite !(decide_True (P := i = k_pwait s)) in * by done.
    destruct (time_ok_lists (k_tasks s') (k_tl s') (k_pwait s) (k_jiffies s) (ins (cur_list s))
      (ov_list s) s') as (Hti & Ec & Eo); [|done|done|done|done|].
    { rewrite Etl. split; [done|done| |]; intros x.
      - rewrite Hin. intros [->|Hx]; [lia|rewrite Hdc by done; auto].
      - intros Hx. rewrite Hdo by done. auto. }
    split; [done|]. intros x. unfold remaining. rewrite Ec, Eo, Ej.
    destruct (decide (x = t)) as [->|Hx].
    + rewrite decide_True by (apply Hin; by left). f_equal. lia.
    + destruct (decide (x ∈ cur_list s)) as [Hxc|Hxc].
      * rewrite decide_True by (apply Hin; by right). by rewrite Hdc.
      * rewrite decide_False by (rewrite Hin; tauto). case_decide; [by rewrite Hdo|done].
  - assert (i = negb (k_pwait s)) as Ei by (unfold i; by rewrite (proj2 (Z.ltb_lt _ _)) by lia).
    assert (i <> k_pwait s) as Hine by (rewrite Ei; by destruct (k_pwait s)).
    rewrite !(decide_False (P := i = k_pwait s)) in * by done.
    destruct (time_ok_lists (k_tasks s') (k_tl s') (k_pwait s) (k_jiffies s) (cur_list s)
      (ins (ov_list s)) s') as (Hti & Ec & Eo); [|done|done|done|done|].
    { rewrite Etl. split; [done|done| |]; intros x.
      - intros Hx. rewrite Hdc by done. auto.
      - rewrite Hin. intros [->|Hx]; [lia|rewrite Hdo by done; auto]. }
    split; [done|]. intros x. unfold remaining. rewrite Ec, Eo, Ej.
    destruct (decide (x = t)) as [->|Hx].
    + rewrite decide_False by tauto. rewrite decide_True by (apply Hin; by left). f_equal. lia.
    + case_decide; [by rewrite Hdc|].
      destruct (decide (x ∈ ov_list s)) as [Hxo|Hxo].
      * rewrite decide_True by (apply Hin; by right). by rewrite Hdo.
      * by rewrite decide_False by (rewrite Hin; tauto).
Qed.

(** The task sleeps for [timeout] ticks from now; the other sleeping tasks keep their
    rest. *)
Lemma add_task_to_waiting_list_spec t o timeout s :
  time_inv s -> k_tasks s !! t = Some o -> timed_state (t_state o) = true ->
  ~ on_time_list s t -> 0 < timeout < 2 ^ 32 ->
  wp (add_task_to_waiting_list t timeout)
    (fun _ s' => time_inv s' /\
       (forall x, remaining s' x = if decide (x = t) then Some timeout else remaining s x) /\
       exists tl', s' = upd_tl (fun _ => tl')
         (upd_tasks (insert t (set_t_jiffies (u32 (k_jiffies s + timeout)) o)) s)) s.
Proof.
  intros Ht Ho Hst Hn Htm. unfold add_task_to_waiting_list.
  pose proof Ht as [Htl Hj Hc Hov]. unfold on_time_list in Hn.
  set (d := u32 (k_jiffies s + timeout)). set (o' := set_t_jiffies d o).
  set (ts' := <[t := o']> (k_tasks s)).
  set (i := if d <? k_jiffies s then negb (k_pwait s) else k_pwait s).
  assert (in_u32 d) as Hd by apply u32_range.
  pose proof (time_lists_insert _ _ _ _ _ t o' i Htl Hst Hd Hn) as Htl'. cbv zeta in Htl'. fold ts' in Htl'.
  change (t_jiffies o') with d in Htl'.
  set (l := if decide (i = k_pwait s) then cur_list s else ov_list s) in *.
  assert (k_tl s !! i = Some l) as Hl.
  { unfold l, i in *. destruct (d <? k_jiffies s).
    - rewrite decide_False by (by destruct (k_pwait s)). by eapply tm_ov.
    - rewrite decide_True by done. by eapply tm_cur. }
  assert (forall y, y ∈ l -> task_later ts' d y = (d <? dl ts' y)) as Hext.
  { intros y Hy. assert (y ∈ cur_list s ++ ov_list s) as Hy'
      by (unfold l in Hy; apply elem_of_app; case_decide; [by left|by right]).
    destruct (tm_state _ _ _ _ _ Htl y Hy') as (oy & Hoy & _).
    unfold task_later, dl, ts'. rewrite lookup_insert_ne by congruence. by rewrite Hoy. }
  assert (unlinked t (k_tl s)) as Hu.
  { intros b k Hk Hin. apply Hn, elem_of_app. unfold cur_list, ov_list.
    destruct (decide (b = k_pwait s)) as [->|]; [left; by rewrite Hk|right].
    assert (negb (k_pwait s) = b) as -> by (by destruct b, (k_pwait s)). by rewrite Hk. }
  destruct (seq_insert_with_ok (insert_before_first (task_later ts' d) t) t (k_tl s) i l
    (tl_wf _ _ _ _ _ Htl) Hu Hl) as [Hins _]; [apply insert_before_first_perm|].
  rewrite (insert_before_first_ext _ _ t l Hext) in Hins.
  wp_step. wp_step. wp_step. eapply wp_task_upd; [exact Ho|]. do 4 wp_step.
  eapply wp_tl_store; [exact Hins|]. fold d o'.
  match goal with |- time_inv ?x /\ _ => set (s' := x) end.
  assert (forall x, x ∈ cur_list s ++ ov_list s -> dl ts' x = dl (k_tasks s) x) as Hdl.
  { intros x Hx. unfold ts'. rewrite dl_insert, decide_False; congruence. }
  assert (dl ts' t = d) as Edt by (unfold ts'; by rewrite dl_insert, decide_True).
  pose proof (slept_lists s s' t timeout Ht (conj Hn Htm) eq_refl eq_refl eq_refl Htl' Hdl Edt) as Hfin.
  split; [apply Hfin|]. split; [apply Hfin|]. by eexists.
Qed.

(** ** Critical section *)

Lemma wp_enter_critical (Q : unit -> kstate HS -> Prop) s :
  0 <= k_critical_count s ->
  Q tt (upd_critical_count (fun c => c + 1) (upd_masked (fun _ => true) s)) ->
  wp isix_enter_critical Q s.
Proof.
  intros Hc HQ. unfold isix_enter_critical. do 6 wp_step.
  change (k_critical_count (upd_masked _ s)) with (k_critical_count s).
  rewrite (proj2 (Z.ltb_ge _ _)) by lia. by wp_step.
Qed.

(** Leaving: interrupts are unmasked by the outermost level only. *)
Lemma wp_exit_critical (Q : unit -> kstate HS -> Prop) s :
  0 < k_critical_count s ->
  Q tt (upd_masked (fun m => if k_critical_count s =? 1 then false else m)
          (upd_critical_count (fun c => c - 1) s)) ->
  wp isix_exit_critical Q s.
Proof.
  intros Hc HQ. unfold isix_exit_critical. do 4 wp_step.
  rewrite (proj2 (Z.leb_gt _ _)) by lia. unfold when.
  destruct (k_critical_count s =? 1); wp_step; [done|by destruct s].
Qed.

(** ** Going to sleep *)

(** Time lists of a state whose sleeping tasks have the deadlines of another one. *)
Lemma time_inv_same s s' :
  time_inv s -> k_tl s' = k_tl s -> k_pwait s' = k_pwait s -> k_jiffies s' = k_jiffies s ->
  (forall t, on_time_list s t -> same_deadline (k_tasks s) (k_tasks s') t) ->
  time_inv s' /\ cur_list s' = cur_list s /\ ov_list s' = ov_list s /\
  forall t, remaining s' t = remaining s t.
Proof.
  intros Ht Etl Epw Ej Hts. pose proof Ht as [Htl Hj Hc Ho].
  destruct (time_lists_same _ _ _ _ _ _ Htl Hts) as [Htl' Hdl].
  destruct (time_ok_lists (k_tasks s') (k_tl s') (k_pwait s') (k_jiffies s') (cur_list s) (ov_list s) s')
    as (Hti & Ec & Eo); [|done|done|done|done|].
  { rewrite Etl, Epw, Ej. split; [done|done| |]; intros t Hx.
    - rewrite Hdl; [auto|]. apply elem_of_app. by left.
    - rewrite Hdl; [auto|]. apply elem_of_app. by right. }
  split_and!; try done. intros t. unfold remaining. rewrite Ec, Eo, Ej.
  case_decide; [rewrite Hdl; [done|apply elem_of_app; by left]|].
  case_decide; [rewrite Hdl; [done|apply elem_of_app; by right]|done].
Qed.

Lemma time_inv_frame s s' :
  time_inv s -> k_tl s' = k_tl s -> k_pwait s' = k_pwait s -> k_jiffies s' = k_jiffies s ->
  (forall t, on_time_list s t -> k_tasks s' !! t = k_tasks s !! t) ->
  time_inv s' /\ cur_list s' = cur_list s /\ ov_list s' = ov_list s /\
  forall t, remaining s' t = remaining s t.
Proof. intros Ht Etl Epw Ej Hts. apply time_inv_same; try done. intros t Hx. by apply same_deadline_eq, Hts. Qed.

(** A task that is not in a timed state is on no time list. *)
Lemma untimed s t o :
  time_inv s -> k_tasks s !! t = Some o -> timed_state (t_state o) = false -> ~ on_time_list s t.
Proof.
  intros [Htl _ _ _] Ho Hst Hin. destruct (tm_state _ _ _ _ _ Htl t Hin) as (o' & Ho' & ?).
  simplify_eq. congruence.
Qed.

Lemma remove_node_unready t o s s' st :
  unreadied t o s s' -> k_tasks s !! t = Some o ->
  ready_inv (Some t) (upd_tasks (insert t (set_t_state st o)) s').
Proof.
  intros [] Ho. apply ready_ok_upd_detached; [done| |].
  - intros ->. pose proof (r_null _ _ _ _ _ ur_inv) as Hnull. by rewrite ur_task, Ho in Hnull.
  - eapply (r_range _ _ _ _ _ ur_inv t o). by rewrite ur_task.
Qed.

(** The current task has left the ready list in state [st]. *)
Record asleep (st : osthr_state) (oc o' : task) s s' : Prop := {
  sl_inv : ready_inv (Some (k_currp s)) s';
  sl_frame : frame_time s s';
  sl_tasks : k_tasks s' = <[k_currp s := o']> (k_tasks s);
  sl_task : exists j, o' = set_t_jiffies j (set_t_state st oc);
  sl_rq : forall p, rq s' p =
    if decide (p = t_prio oc) then remove_node (k_currp s) (rq s p) else rq s p;
  sl_waiting : same_waiting s s';
  sl_sems : k_sems s' = k_sems s
}.

Lemma set_sleep_spec st oc s :
  ready_inv None s -> k_tasks s !! k_currp s = Some oc -> active (t_state oc) = true ->
  wp (_isixp_set_sleep st)
    (fun _ s' => asleep st oc (set_t_state st oc) s s' /\ k_tl s' = k_tl s) s.
Proof.
  intros Hok Hoc Ha. unfold _isixp_set_sleep. wp_step. wp_step. wp_step.
  eapply wp_mono; [by eapply delete_from_ready_list_spec|]. intros [] s1 U.
  eapply wp_task_upd; [by rewrite (ur_task _ _ _ _ U)|].
  pose proof (remove_node_unready _ _ _ _ st U Hoc) as Hok1. destruct U.
  split; [split|].
  - done.
  - unfold frame_time, erase_time. by rewrite ur_frame.
  - simpl. by rewrite ur_task.
  - exists (t_jiffies oc). by destruct oc.
  - done.
  - done.
  - symmetry. exact (f_equal k_sems ur_frame).
  - symmetry. exact (f_equal k_tl ur_frame).
Qed.

Lemma set_sleep_timeout_spec st timeout oc s :
  ready_inv None s -> time_inv s -> k_tasks s !! k_currp s = Some oc -> active (t_state oc) = true ->
  timed_state st = true -> 0 <= timeout < 2 ^ 32 ->
  wp (_isixp_set_sleep_timeout st timeout)
    (fun _ s' => time_inv s' /\ (exists o', asleep st oc o' s s') /\
       forall x, remaining s' x =
         if decide (x = k_currp s /\ timeout <> ISIX_TIME_INFINITE) then Some timeout
         else remaining s x) s.
Proof.
  intros Hok Ht Hoc Ha Hst Htm. unfold _isixp_set_sleep_timeout.
  assert (timed_state (t_state oc) = false) as Hun by (by destruct (t_state oc)).
  pose proof (untimed _ _ _ Ht Hoc Hun) as Hnot.
  wp_step. eapply wp_mono; [by eapply set_sleep_spec|]. intros [] s1 [A Etl].
  pose proof (sl_tasks _ _ _ _ _ A) as Ets.
  destruct (time_inv_frame s s1 Ht Etl) as (Ht1 & Ec & Eo & Hrem).
  { symmetry. exact (f_equal k_pwait (sl_frame _ _ _ _ _ A)). }
  { symmetry. exact (f_equal k_jiffies (sl_frame _ _ _ _ _ A)). }
  { intros t Hin. rewrite Ets, lookup_insert_ne; [done|]. intros <-. done. }
  unfold when, ISIX_TIME_INFINITE. destruct (Z.eqb_spec timeout 0) as [->|Hne]; cbv [negb].
  - wp_step. split_and!; [done|by eexists|]. intros x. rewrite decide_False by tauto. auto.
  - wp_step. wp_step.
    pose proof (f_equal k_currp (sl_frame _ _ _ _ _ A) : k_currp s = k_currp s1) as Ecur.
    rewrite <- Ecur.
    eapply wp_mono; [eapply (add_task_to_waiting_list_spec (k_currp s) (set_t_state st oc) timeout);
      [done|by rewrite Ets, lookup_insert_eq|done| |lia]|].
    { unfold on_time_list. by rewrite Ec, Eo. }
    intros [] s2 (Ht2 & Hrem2 & tl' & ->). split_and!; [done| |].
    + exists (set_t_jiffies (u32 (k_jiffies s1 + timeout)) (set_t_state st oc)).
      destruct A. split; try done.
      * apply ready_ok_upd_detached; [done| |].
        -- intros En. pose proof (r_null _ _ _ _ _ Hok) as Hnull. by rewrite <- En, Hoc in Hnull.
        -- eapply (r_range _ _ _ _ _ Hok _ _ Hoc).
      * simpl. rewrite sl_tasks0. apply insert_insert_eq.
      * by eexists.
    + intros x. rewrite Hrem2. destruct (decide (x = k_currp s)) as [->|].
      * by rewrite decide_True.
      * rewrite decide_False by tauto. auto.
Qed.

(** ** isix_wait *)

Lemma ready_inv_asleep st oc o' s s' :
  asleep st oc o' s s' -> queued_state st = false -> ready_inv None s'.
Proof.
  intros [] Hq. destruct sl_task0 as [j ->]. eapply ready_ok_attach; [done|].
  intros o. rewrite sl_tasks0, lookup_insert_eq. intros [= <-]. done.
Qed.

(** What the kernel has put off: dead tasks to reclaim, ticks and a switch held back by the
    scheduler lock; and whether an interrupt is served. *)
Definition debt s := (k_ndeleted s, k_jiffies_skipped s, k_yield_pending s, k_in_isr s).

(** The heap and the objects that are not lists of tasks, memory, clock and hardware timer. *)
Definition bystanders s :=
  (k_heap s, k_conds s, k_fifos s, k_mem s, k_jiffies s, k_timer s, k_cstats s, k_reent s, k_vt s).

(** What an operation on one object leaves alone: what is put off, the caller, the running of
    the scheduler and its lock, the owners of the mutexes and the bits of the events. *)
Definition ctl s :=
  (debt s, k_currp s, k_schrun s, k_sched_lock s, k_mtxs s, k_ml s, k_evs s, bystanders s).

Definition same_ctl s s' : Prop := ctl s' = ctl s.

Lemma same_ctl_elim s s' : same_ctl s s' ->
  k_currp s' = k_currp s /\ k_schrun s' = k_schrun s /\ k_sched_lock s' = k_sched_lock s /\
  k_mtxs s' = k_mtxs s /\ k_ml s' = k_ml s /\ k_evs s' = k_evs s.
Proof. unfold same_ctl, ctl. intros E. injection E. intros. split_and!; congruence. Qed.

Lemma same_ctl_debt s s' : same_ctl s s' -> debt s' = debt s.
Proof. intros H. exact (f_equal (fun '(d, _, _, _, _, _, _, _) => d) H). Qed.

Lemma same_ctl_bystanders s s' : same_ctl s s' -> bystanders s' = bystanders s.
Proof. intros H. exact (f_equal (fun '(_, _, _, _, _, _, _, b) => b) H). Qed.

Lemma same_ctl_dead s s' : same_ctl s s' -> k_ndeleted s' = k_ndeleted s.
Proof. intros H%same_ctl_debt. exact (f_equal (fun '(n, _, _, _) => n) H). Qed.

(** The wait lists of the other objects are the same. *)
Definition same_waiting_but (h0 : qhead) s s' : Prop :=
  forall h, h <> h0 -> is_ready_head h = false -> k_q s' !! h = k_q s !! h.

(** The kernel in the middle of normal operation: the current task runs, the
    scheduler is not locked and no critical section is open. *)
Record task_context (oc : task) s : Prop := {
  tc_inv : sched_inv s;
  tc_run : k_schrun s = true;
  tc_count : 0 <= k_critical_count s;
  tc_curr : k_tasks s !! k_currp s = Some oc;
  tc_active : active (t_state oc) = true
}.

(** The end of a call that blocks. *)
Lemma wp_yield_blocked {R} (r : R) Q s :
  k_schrun s = true -> Q r (upd_pendsv (fun _ => true) s) -> wp (isix_yield;;; ret r) Q s.
Proof. intros Hrun HQ. unfold isix_yield, _isix_port_yield. do 3 wp_step. rewrite Hrun. by do 3 wp_step. Qed.

(** A call that runs again before its timeout waits for the rest of the time. *)
Definition wait_goes_on (timeout start now : Z) : Prop :=
  timeout = ISIX_TIME_INFINITE \/ u32 (now - start) < timeout.

Lemma wait_goes_on_start timeout now : 0 <= timeout -> wait_goes_on timeout now now.
Proof. unfold wait_goes_on, ISIX_TIME_INFINITE. rewrite Z.sub_diag. change (u32 0) with 0. lia. Qed.

Lemma wait_goes_on_test timeout start now :
  wait_goes_on timeout start now ->
  negb (timeout =? ISIX_TIME_INFINITE) && (timeout <=? u32 (now - start)) = false.
Proof. intros [->|H]; [done|]. by rewrite (proj2 (Z.leb_gt _ _) H), andb_false_r. Qed.

Lemma wait_goes_on_time timeout start now :
  wait_goes_on timeout start now -> 0 <= timeout < ISIX_TIME_DONTWAIT ->
  exists tout, (if timeout =? ISIX_TIME_INFINITE then timeout else u32 (timeout - u32 (now - start))) = tout /\
    0 <= tout < 2 ^ 32 /\
    forall (c x : Z) (r : option Z), (if decide (x = c /\ tout <> ISIX_TIME_INFINITE) then Some tout else r) =
      if decide (x = c /\ timeout <> ISIX_TIME_INFINITE) then Some (timeout - u32 (now - start)) else r.
Proof.
  unfold wait_goes_on, ISIX_TIME_INFINITE, ISIX_TIME_DONTWAIT. intros Hgo Htm. eexists. split; [done|].
  pose proof (u32_range (now - start)) as Hr.
  destruct (Z.eqb_spec timeout 0) as [->|Hne]; [split; [lia|]; intros c x r; by repeat case_decide; try tauto|].
  rewrite u32_id by (unfold in_u32; lia). split; [lia|]. intros c x r.
  repeat case_decide; try done; destruct_and?; exfalso; tauto || lia.
Qed.

Lemma isix_wait_spec timeout oc s :
  sched_inv s -> k_schrun s = true -> 0 <= k_critical_count s ->
  k_tasks s !! k_currp s = Some oc -> active (t_state oc) = true -> 0 < timeout < 2 ^ 32 ->
  wp (isix_wait timeout) (fun r s' => r = None /\ sched_inv s' /\ same_ctl s s' /\ k_pendsv s' = true /\
    k_critical_count s' = k_critical_count s /\
    (exists o', k_tasks s' = <[k_currp s := o']> (k_tasks s) /\ t_state o' = OSTHR_STATE_SLEEPING /\
       t_real_prio o' = t_real_prio oc) /\
    (forall x, remaining s' x = if decide (x = k_currp s) then Some timeout else remaining s x) /\
    same_waiting s s') s.
Proof.
  intros (Hok & Hsem & Ht) Hrun Hcc Hoc Ha Htm. unfold isix_wait.
  wp_step. wp_step. rewrite Hrun. wp_step. apply wp_enter_critical; [done|].
  wp_step. eapply wp_mono; [eapply (set_sleep_timeout_spec OSTHR_STATE_SLEEPING timeout oc); done || lia|].
  intros [] s1 (Ht1 & [o' A] & Hrem).
  change (k_currp (upd_critical_count _ _)) with (k_currp s) in Hrem.
  pose proof (ready_inv_asleep _ _ _ _ _ A eq_refl) as Hok1.
  pose proof (sl_frame _ _ _ _ _ A) as Hf.
  pose proof (f_equal k_critical_count Hf : k_critical_count s + 1 = k_critical_count s1) as Ecc.
  wp_step. apply wp_exit_critical; [lia|]. unfold _isix_port_yield. wp_step. wp_step. wp_step.
  match goal with |- _ /\ sched_inv ?x /\ _ => set (s2 := x) end.
  split_and!; [done| |exact (eq_sym (f_equal ctl Hf))|done| | | |exact (sl_waiting _ _ _ _ _ A)].
  - split; [exact Hok1|]. split; [|exact Ht1].
    change (sem_counts (k_sems s1) (k_q s1)). rewrite (sl_sems _ _ _ _ _ A).
    eapply sem_counts_frame; [exact Hsem|]. intros a. by apply (sl_waiting _ _ _ _ _ A).
  - change (k_critical_count s1 - 1 = k_critical_count s). lia.
  - exists o'. split; [exact (sl_tasks _ _ _ _ _ A)|]. by destruct (sl_task _ _ _ _ _ A) as [j ->].
  - intros x. etransitivity; [exact (Hrem x)|]. unfold ISIX_TIME_INFINITE.
    destruct (decide (x = k_currp s)); [rewrite decide_True|rewrite decide_False]; done || lia || tauto.
Qed.

(** C6: [isix_wait( timeout )] puts the calling task to sleep for exactly [timeout]
    ticks: it leaves the ready list, a context switch is requested, no other sleeping
    task is affected, and of the ticks that follow, the one numbered [timeout] and no
    earlier one makes it ready again. *)
Theorem isix_wait_wakes_on_time timeout oc s :
  sched_inv s -> k_schrun s = true -> 0 <= k_critical_count s ->
  k_tasks s !! k_currp s = Some oc -> active (t_state oc) = true -> 0 < timeout < 2 ^ 32 ->
  wp (isix_wait timeout) (fun r s' => r = None /\ sched_inv s' /\ k_pendsv s' = true /\
    k_critical_count s' = k_critical_count s /\
    (forall x, x <> k_currp s -> remaining s' x = remaining s x /\ k_tasks s' !! x = k_tasks s !! x) /\
    (forall p, k_currp s ∉ rq s' p) /\
    (forall n, 0 <= n < 2 ^ 32 ->
       wp (advance_jiffies n) (fun _ s'' => exists o, k_tasks s'' !! k_currp s = Some o /\
         t_state o = (if timeout <=? n then OSTHR_STATE_READY else OSTHR_STATE_SLEEPING)) s')) s.
Proof.
  intros Hi Hrun Hcc Hoc Ha Htm. eapply wp_mono; [by eapply isix_wait_spec|].
  intros r s2 (-> & Hi2 & (Ec & Er & _)%same_ctl_elim & Hy & Ecc & (o' & Ets & Est & _) & Hrem & _).
  split_and!; [done|done|done|done| | |].
  - intros x Hx. by rewrite Hrem, Ets, decide_False, lookup_insert_ne.
  - intros p Hin. apply (ready_queue_active _ _ _ _ _ _ (proj1 Hi2)) in Hin as (o & Ho & Hact & _).
    rewrite Ets, lookup_insert_eq in Ho. injection Ho as <-. by rewrite Est in Hact.
  - intros n Hn. eapply wp_mono; [apply (advance_jiffies_spec n); [done|by rewrite Er|done]|].
    pose proof (Hrem (k_currp s)) as Hr. rewrite decide_True in Hr by done.
    intros [] s3 Ad. destruct (Z.leb_spec timeout n) as [Hle|Hgt].
    + destruct (ad_woken _ _ _ Ad _ _ Hr Hle) as (o1 & o2 & _ & Ho2 & Hst2 & _). eauto.
    + exists o'. rewrite (ad_asleep _ _ _ Ad), Ets, lookup_insert_eq; [done|].
      intros r E. rewrite Hr in E. injection E as <-. lia.
Qed.

(** ** How long the idle task may sleep *)

(** First software timer of the selected list. *)
Definition first_vtimer (v : vtimers) : option vtimer :=
  l ← vt_lists v !! vt_sel v; first ← head l; vt_map v !! first.

(** The worker runs only after the timer lists have been set up. *)
Definition vt_ok (v : vtimers) : Prop :=
  vt_worker v <> NULL -> exists l, vt_lists v !! vt_sel v = Some l /\
    forall x l', l = x :: l' -> exists o, vt_map v !! x = Some o /\ in_u32 (v_jiffies o).

Lemma vtimers_delta_spec now s :
  vt_ok (k_vt s) -> in_u32 now ->
  wp (_isixp_vtimers_next_timeout_delta now) (fun r s' => s' = s /\ 0 <= r < 2 ^ 32 /\
    (vt_worker (k_vt s) <> NULL -> forall o, first_vtimer (k_vt s) = Some o ->
       r = Z.max 0 (v_jiffies o - now))) s.
Proof.
  intros Hv Hnow. unfold in_u32 in Hnow. unfold _isixp_vtimers_next_timeout_delta. wp_step. wp_step.
  destruct (Z.eqb_spec (vt_worker (k_vt s)) NULL) as [|Hw].
  { wp_step. split_and!; [done|unfold ISIX_TIME_MAX_TICK; lia..|done]. }
  destruct (Hv Hw) as (l & Hl & Hm). wp_step. wp_step; [exact Hl|].
  unfold first_vtimer. rewrite Hl. simpl. destruct l as [|x l'].
  { wp_step. split_and!; [done|unfold ISIX_TIME_MAX_TICK; lia..|done]. }
  destruct (Hm x l' eq_refl) as (o & Ho & Hr). unfold in_u32 in Hr. simpl. rewrite Ho.
  wp_step. wp_step; [reflexivity|]. wp_step.
  destruct (Z.leb_spec now (v_jiffies o)); (split_and!; [done|lia|lia|]); intros _ o' [= <-]; lia.
Qed.

Lemma next_timeout_spec s :
  time_inv s -> vt_ok (k_vt s) ->
  wp calculate_next_timeout (fun r s' => s' = s /\ 1 <= r < 2 ^ 32 /\
    (forall t rest, remaining s t = Some rest -> r <= rest) /\
    (vt_worker (k_vt s) <> NULL -> forall o, first_vtimer (k_vt s) = Some o ->
       r <= Z.max 1 (v_jiffies o - k_jiffies s))) s.
Proof.
  intros Ht Hv. pose proof Ht as [Htl Hj Hc Ho]. unfold calculate_next_timeout.
  pose proof Hj as Hj'. unfold in_u32 in Hj'.
  set (until := match cur_list s with [] => ISIX_TIME_MAX_TICK | x :: _ => dl (k_tasks s) x - k_jiffies s end).
  assert (0 <= until < 2 ^ 32) as Hu.
  { unfold until, ISIX_TIME_MAX_TICK. destruct (cur_list s) as [|x l]; [lia|].
    specialize (Hc x (list_elem_of_here _ _)).
    pose proof (tm_range _ _ _ _ _ Htl x (list_elem_of_here _ _)) as Hr. unfold in_u32 in Hr. lia. }
  assert (forall t rest, remaining s t = Some rest -> (t ∈ cur_list s /\ until <= rest) \/ 2 ^ 32 - k_jiffies s <= rest) as Hmin.
  { intros t rest. unfold remaining. case_decide as Hd; [|case_decide as Hd'; [|done]]; intros [= <-].
    - left. split; [done|]. unfold until. pose proof (tm_sorted _ _ _ _ _ Htl) as Hs.
      destruct (cur_list s) as [|x l]; [by apply elem_of_nil in Hd|].
      apply sorted_by_cons in Hs as [_ Hx]. apply elem_of_cons in Hd as [->|Hd]; [lia|].
      specialize (Hx t Hd). lia.
    - right. pose proof (tm_range _ _ _ _ _ Htl t ltac:(apply elem_of_app; by right)) as Hr.
      unfold in_u32 in Hr. lia. }
  wp_step. wp_step. wp_step. wp_step. wp_step.
  eapply wp_tl_list; [exact (tm_cur _ _ _ _ _ Htl)|]. wp_step.
  assert (forall Q : Z -> kstate HS -> Prop, Q until s ->
    wp (match cur_list s with [] => ret ISIX_TIME_MAX_TICK | first :: _ =>
      o <- task_get first;; ret (if k_jiffies s <=? t_jiffies o then t_jiffies o - k_jiffies s
        else ISIX_TIME_MAX_TICK) end) Q s) as Hu2.
  { intros Q HQ. unfold until in HQ. destruct (cur_list s) as [|x l]; [by wp_step|].
    destruct (tm_state _ _ _ _ _ Htl x (list_elem_of_here _ _)) as (o & Hox & _).
    specialize (Hc x (list_elem_of_here _ _)). unfold dl in Hc, HQ. rewrite Hox in Hc, HQ.
    wp_step. eapply wp_task_get; [exact Hox|]. wp_step. by rewrite (proj2 (Z.leb_le _ _)) by lia. }
  apply Hu2. wp_step. eapply wp_mono; [by apply vtimers_delta_spec|].
  intros vtd s' (-> & Hvr & Hvt). wp_step. unfold ISIX_TIME_MAX_TICK.
  set (w := if 0xFFFFFFFF <? 0xFFFFFFFF - k_jiffies s + 1 then 0xFFFFFFFF else 0xFFFFFFFF - k_jiffies s + 1).
  assert (1 <= w <= 2 ^ 32 - k_jiffies s) as Hw
    by (unfold w; destruct (Z.ltb_spec 0xFFFFFFFF (0xFFFFFFFF - k_jiffies s + 1)); lia).
  set (u := if vtd <? until then vtd else until).
  assert (u <= until /\ u <= vtd /\ 0 <= u) as Hu3 by (unfold u; destruct (Z.ltb_spec vtd until); lia).
  set (r := if w <? u then u32 (w - 1) else u).
  assert (0 <= r <= u /\ r <= w) as Hr.
  { unfold r. destruct (Z.ltb_spec w u); [rewrite u32_id by (unfold in_u32; lia)|]; lia. }
  assert (1 <= (if r =? 0 then 1 else r) <= Z.max 1 u /\ (if r =? 0 then 1 else r) <= w) as Hr1
    by (destruct (Z.eqb_spec r 0); lia).
  split_and!; [done|lia|lia| |].
  - intros t rest E. pose proof (remaining_pos _ _ _ Ht E). destruct (Hmin t rest E) as [[_ ?]|?]; lia.
  - intros Hwk o E. specialize (Hvt Hwk o E). lia.
Qed.

(** C28: The tickless idle never plans to sleep past an event: the timeout it computes
    is at least one tick, at most the rest of every sleeping task, and at most the
    time left to the first software timer. *)
Theorem next_timeout_not_late s :
  time_inv s -> vt_ok (k_vt s) ->
  wp calculate_next_timeout (fun r s' => s' = s /\ 1 <= r < 2 ^ 32 /\
    (forall t rest, remaining s t = Some rest -> r <= rest) /\
    (vt_worker (k_vt s) <> NULL -> forall o, first_vtimer (k_vt s) = Some o ->
       r <= Z.max 1 (v_jiffies o - k_jiffies s))) s.
Proof. apply next_timeout_spec. Qed.

(** ** The scheduler lock *)

(** Parts of the state the clock depends on are unchanged. *)
Definition same_clock s s' : Prop :=
  k_tasks s' = k_tasks s /\ k_prios s' = k_prios s /\ k_q s' = k_q s /\ k_pl s' = k_pl s /\
  k_tl s' = k_tl s /\ k_sems s' = k_sems s /\ k_pwait s' = k_pwait s /\
  k_jiffies s' = k_jiffies s /\ k_schrun s' = k_schrun s.

Lemma same_clock_inv s s' :
  same_clock s s' -> sched_inv s -> sched_inv s' /\ forall t, remaining s' t = remaining s t.
Proof.
  intros (Ets & Eps & Eq & Epl & Etl & Esem & Epw & Ej & _) (Hok & Hsem & Ht).
  destruct (time_inv_frame s s' Ht Etl Epw Ej) as (Ht' & _ & _ & Hrem); [by rewrite Ets|].
  split; [|done]. split; [|split; [|done]].
  - unfold ready_inv. by rewrite Ets, Eps, Eq, Epl.
  - unfold sems_ok. by rewrite Eq, Esem.
Qed.

Lemma unlock_scheduler_spec s :
  sched_inv s -> k_schrun s = true -> k_sched_lock s = 1 -> 0 <= k_jiffies_skipped s < 2 ^ 31 ->
  0 <= k_critical_count s ->
  wp _isixp_unlock_scheduler (fun _ s' => sched_inv s' /\ k_sched_lock s' = 0 /\
    k_jiffies_skipped s' = 0 /\ k_critical_count s' = k_critical_count s /\
    k_jiffies s' = u32 (k_jiffies s + k_jiffies_skipped s) /\
    (forall t, remaining s' t = rest_after (k_jiffies_skipped s) (remaining s t)) /\
    (k_yield_pending s = true -> k_pendsv s' = true) /\ k_yield_pending s' = false) s.
Proof.
  intros Hi Hrun Hlock Hsk Hcc. unfold _isixp_unlock_scheduler.
  wp_step. wp_step. wp_step. wp_step.
  change (k_sched_lock (upd_sched_lock _ s)) with (atomic_sem_dec (k_sched_lock s)).
  rewrite Hlock. change (atomic_sem_dec 1) with 0. cbv [Z.ltb Z.compare Z.eqb]. unfold when.
  wp_step. apply wp_enter_critical; [done|]. do 4 wp_step.
  set (n := k_jiffies_skipped s).
  match goal with |- wp _ _ ?x => set (s0 := x) end.
  assert (same_clock s s0) as Hsc by (by repeat split).
  destruct (same_clock_inv s s0 Hsc Hi) as [Hi0 Hrem0].
  wp_step.
  assert (wp (if 0 <? n then advance_jiffies (u32 n) else ret tt) (fun _ s1 => advanced n s0 s1) s0) as Hadv.
  { destruct (Z.ltb_spec 0 n).
    - rewrite u32_id by (unfold in_u32; lia). apply advance_jiffies_spec; [done|done|lia].
    - wp_step. replace n with 0 by lia. by apply advanced_0. }
  eapply wp_mono; [exact Hadv|]. intros [] s1 A.
  pose proof (ad_frame _ _ _ A) as Hf.
  wp_step. wp_step.
  pose proof (f_equal k_yield_pending Hf : k_yield_pending s = k_yield_pending s1) as Eyp.
  pose proof (f_equal k_critical_count Hf : k_critical_count s + 1 = k_critical_count s1) as Ecc.
  pose proof (f_equal k_sched_lock Hf : atomic_sem_dec (k_sched_lock s) = k_sched_lock s1) as Elk.
  rewrite Hlock in Elk. change (atomic_sem_dec 1) with 0 in Elk.
  pose proof (f_equal k_jiffies_skipped Hf : 0 = k_jiffies_skipped s1) as Esk.
  assert (forall s2, same_clock s1 s2 -> sched_inv s2 /\
    k_jiffies s2 = u32 (k_jiffies s + n) /\
    forall t, remaining s2 t = rest_after n (remaining s t)) as Hfin.
  { intros s2 Hs2. destruct (same_clock_inv s1 s2 Hs2 (ad_inv _ _ _ A)) as [Hi2 Hrem2].
    split_and!; [done| |].
    - destruct Hs2 as (_ & _ & _ & _ & _ & _ & _ & -> & _). by rewrite (ad_now _ _ _ A).
    - intros t. by rewrite Hrem2, (ad_rest _ _ _ A), Hrem0. }
  rewrite <- Eyp. destruct (k_yield_pending s) eqn:Ey.
  - wp_step. wp_step. unfold _isix_port_yield. wp_step. wp_step.
    apply wp_exit_critical; [simpl; lia|].
    match goal with |- sched_inv ?x /\ _ => destruct (Hfin x) as (? & ? & ?); [by repeat split|] end.
    split_and!; try done. simpl. lia.
  - wp_step. wp_step. apply wp_exit_critical; [lia|].
    match goal with |- sched_inv ?x /\ _ => destruct (Hfin x) as (? & ? & ?); [by repeat split|] end.
    split_and!; try done. simpl. lia.
Qed.

(** Sum of the announced ticks. *)
Definition sum_ticks (ns : list Z) : Z := foldr Z.add 0 ns.

Lemma announce_locked ns s :
  0 < k_sched_lock s -> 0 <= k_jiffies_skipped s -> Forall (Z.le 0) ns ->
  k_jiffies_skipped s + sum_ticks ns < 2 ^ 31 ->
  wp (for_each ns _isixp_systimer_announce)
    (fun _ s' => s' = upd_jiffies_skipped (fun _ => k_jiffies_skipped s + sum_ticks ns) s) s.
Proof.
  revert s. induction ns as [|n ns IH]; intros s Hl Hs Hall Hsum; simpl in *.
  - wp_step. rewrite Z.add_0_r. by destruct s.
  - apply Forall_cons in Hall as [Hn Hall].
    assert (0 <= sum_ticks ns) as Hnn.
    { clear -Hall. induction Hall; simpl; lia. }
    wp_step. unfold _isixp_systimer_announce. wp_step. wp_step.
    rewrite (proj2 (Z.eqb_neq _ _)) by lia. simpl negb. cbv iota. wp_step.
    assert (i32 (k_jiffies_skipped s + n) = k_jiffies_skipped s + n) as E
      by (apply i32_id; unfold in_i32; lia).
    eapply wp_mono; [apply IH; simpl; rewrite ?E; done || lia|].
    intros [] s' ->. simpl. rewrite E.
    destruct s. unfold upd_jiffies_skipped. simpl in *. f_equal. lia.
Qed.

(** C27: Ticks announced while the scheduler is locked are not lost: whatever their
    number and grouping, unlocking brings the clock and the rest of every sleeping
    task to the value they would have without the lock, and performs the context
    switch that was asked for meanwhile. *)
Theorem locked_ticks_not_lost ns s :
  sched_inv s -> k_schrun s = true -> k_sched_lock s = 1 -> k_jiffies_skipped s = 0 ->
  0 <= k_critical_count s -> Forall (Z.le 0) ns -> sum_ticks ns < 2 ^ 31 ->
  wp (for_each ns _isixp_systimer_announce;;; _isixp_unlock_scheduler)
    (fun _ s' => sched_inv s' /\ k_sched_lock s' = 0 /\ k_jiffies_skipped s' = 0 /\
       k_jiffies s' = u32 (k_jiffies s + sum_ticks ns) /\
       (forall t, remaining s' t = rest_after (sum_ticks ns) (remaining s t)) /\
       (k_yield_pending s = true -> k_pendsv s' = true)) s.
Proof.
  intros Hi Hrun Hlock Hsk Hcc Hall Hsum. wp_step.
  eapply wp_mono; [apply announce_locked; [lia|lia|done|lia]|]. intros [] s1 ->.
  rewrite Hsk. assert (0 <= sum_ticks ns) as Hnn by (clear -Hall; induction Hall; simpl; lia).
  set (s1 := upd_jiffies_skipped _ s).
  destruct (same_clock_inv s s1) as [Hi1 Hrem1]; [by repeat split|done|].
  eapply wp_mono; [apply unlock_scheduler_spec; try done; simpl; lia|].
  intros [] s2 (H1 & H2 & H3 & _ & H4 & H5 & H6 & _). simpl in *.
  by split_and!.
Qed.

End Sleep.
