(* ===== verification/SchedWake.v ===== *)
(** * Waking a task

    The wake-up path of the IPC objects: the task leaves the time list, takes the
    message of the waker and is ready; then the waker gives up the processor when
    the woken task has the higher priority. *)

From S2P Require Import Prelude.
From S2P Require Import DList.
From S2P Require Import Systimer.
From S2P Require Import OsStats.
From S2P Require Import Kernel.
From S2P Require Import Scheduler.
From S2P Require Import SchedInv.
From S2P Require Import SchedCore.
From S2P Require Import SchedTime.
From S2P Require Import SchedSleep.
From stdpp Require Import base numbers gmap list sorting.
From Stdlib Require Import ZArith Lia.
Local Open Scope Z_scope.

Section Wake.
Context {HS : Type} {AL : Allocator HS}.
Implicit Types s : kstate HS.

(** ** Leaving a time list *)

Lemma time_lists_remove ts tl pw cur ov t tl' :
  time_lists ts tl pw cur ov -> seq_delete t tl = Some tl' ->
  time_lists ts tl' pw (remove_node t cur) (remove_node t ov).
Proof.
  intros Htl Hdel. unfold seq_delete in Hdel. destruct (seq_linked t tl); [|done].
  injection Hdel as <-. pose proof (tl_wf _ _ _ _ _ Htl). destruct Htl.
  assert (forall x, x ∈ remove_node t cur ++ remove_node t ov -> x ∈ cur ++ ov) as Hsub.
  { intros x. rewrite !elem_of_app, !elem_of_remove_node. tauto. }
  split; auto.
  - by rewrite lookup_fmap, tm_cur.
  - by rewrite lookup_fmap, tm_ov.
  - eapply sublist_NoDup; [exact tm_nodup|]. apply sublist_app; apply remove_node_sublist.
  - eapply sorted_by_sublist; [apply remove_node_sublist|done].
  - eapply sorted_by_sublist; [apply remove_node_sublist|done].
Qed.

Lemma time_inv_delete t tl' s :
  time_inv s -> seq_delete t (k_tl s) = Some tl' ->
  time_inv (upd_tl (fun _ => tl') s) /\
  forall x, remaining (upd_tl (fun _ => tl') s) x = if decide (x = t) then None else remaining s x.
Proof.
  intros Ht Hdel. pose proof Ht as [Htl Hj Hc Ho].
  pose proof (time_lists_remove _ _ _ _ _ _ _ Htl Hdel) as Htl'.
  destruct (time_ok_lists (k_tasks s) tl' (k_pwait s) (k_jiffies s) (remove_node t (cur_list s))
    (remove_node t (ov_list s)) (upd_tl (fun _ => tl') s)) as (Hti & Ec & Eo); [|done|done|done|done|].
  { split; [done|done| |]; intros x [Hx _]%elem_of_remove_node; auto. }
  split; [done|]. intros x. unfold remaining. rewrite Ec, Eo. simpl.
  destruct (decide (x = t)) as [->|Hx].
  - by rewrite !decide_False by (rewrite elem_of_remove_node; tauto).
  - destruct (decide (x ∈ cur_list s)).
    + by rewrite decide_True by (by apply elem_of_remove_node).
    + rewrite decide_False by (rewrite elem_of_remove_node; tauto).
      destruct (decide (x ∈ ov_list s)).
      * by rewrite decide_True by (by apply elem_of_remove_node).
      * by rewrite decide_False by (rewrite elem_of_remove_node; tauto).
Qed.

Lemma linked_on_time_list s t :
  time_inv s -> seq_linked t (k_tl s) = false -> ~ on_time_list s t.
Proof.
  intros [Htl _ _ _] Hn%seq_linked_false. unfold on_time_list. rewrite elem_of_app.
  intros [Hin|Hin]; (eapply Hn; [|exact Hin]); [by eapply tm_cur|by eapply tm_ov].
Qed.

(** [if( list_is_elem_assigned( &t->inode_time ) ) list_delete( &t->inode_time )] *)
Lemma leave_time_list t s (Q : unit -> kstate HS -> Prop) :
  time_inv s ->
  (forall tl', time_inv (upd_tl (fun _ => tl') s) ->
     ~ on_time_list (upd_tl (fun _ => tl') s) t ->
     (forall x, remaining (upd_tl (fun _ => tl') s) x = if decide (x = t) then None else remaining s x) ->
     Q tt (upd_tl (fun _ => tl') s)) ->
  wp (timed <- tl_assigned t;; when timed (tl_delete t)) Q s.
Proof.
  intros Ht HQ. unfold tl_assigned. wp_step. wp_step. unfold when.
  destruct (seq_linked t (k_tl s)) eqn:El.
  - destruct (seq_delete t (k_tl s)) as [tl'|] eqn:Ed; [|unfold seq_delete in Ed; by rewrite El in Ed].
    eapply wp_tl_store; [exact Ed|].
    destruct (time_inv_delete _ _ _ Ht Ed) as [Ht' Hrem]. apply HQ; [done| |done].
    apply linked_on_time_list; [done|]. apply seq_linked_false. intros b l Hl. simpl in Hl.
    unfold seq_delete in Ed. rewrite El in Ed. injection Ed as <-.
    rewrite lookup_fmap in Hl. destruct (k_tl s !! b); [|done]. injection Hl as <-.
    rewrite elem_of_remove_node. tauto.
  - wp_step. specialize (HQ (k_tl s)). destruct s. apply HQ; [done|by apply linked_on_time_list|].
    intros x. case_decide as Hx; [subst x|done]. by apply remaining_None, linked_on_time_list.
Qed.

(** ** The wake-up *)

Definition frame_wake s s' : Prop :=
  upd_tl (fun _ => ∅) (erase_ready s) = upd_tl (fun _ => ∅) (erase_ready s').

(** [t], whose control block was [o], has been woken with [msg]. *)
Record waked (t : Z) (o : task) (msg : Z) s s' : Prop := {
  wd_inv : sched_inv s';
  wd_frame : frame_wake s s';
  wd_task : exists e, k_tasks s' =
    <[t := set_t_prio_elem e (set_t_state OSTHR_STATE_READY (set_dmsg msg o))]> (k_tasks s);
  wd_rest : forall x, remaining s' x = if decide (x = t) then None else remaining s x;
  wd_rq : forall p, rq s' p = if decide (p = t_prio o) then rq s p ++ [t] else rq s p;
  wd_waiting : same_waiting s s'
}.

Lemma wakeup_task_spec t o msg s :
  ready_inv (Some t) s -> sems_ok s -> time_inv s -> k_tasks s !! t = Some o ->
  t_state o <> OSTHR_STATE_READY -> t_state o <> OSTHR_STATE_ZOMBIE ->
  wp (wakeup_task t msg) (fun _ s' => waked t o msg s s') s.
Proof.
  intros Hok Hsem Ht Ho H1 H2. unfold wakeup_task.
  assert (t <> NULL) as Hnull by (intros ->; rewrite (r_null _ _ _ _ _ Hok) in Ho; done).
  set (o1 := set_dmsg msg o). wp_step. eapply wp_task_upd; [exact Ho|]. fold o1.
  set (s1 := upd_tasks (insert t o1) s).
  destruct (time_inv_same s s1 Ht) as (Ht1 & _ & _ & Hrem1); [done|done|done| |].
  { intros x _ ox Hox. simpl. rewrite lookup_insert. case_decide as E; [subst x|by exists ox].
    exists o1. by simplify_eq. }
  assert (ready_inv (Some t) s1) as Hok1
    by (apply ready_ok_upd_detached; [done|done|exact (r_range _ _ _ _ _ Hok t o Ho)]).
  apply wp_assoc. wp_step. apply leave_time_list; [done|]. intros tl' Ht2 Hnot Hrem2.
  eapply wp_mono; [apply (add_ready_list_spec t o1); [done|apply lookup_insert_eq|done|done]|].
  intros [] s3 []. destruct rd_task as (e & Hts).
  destruct (time_inv_frame (upd_tl (fun _ => tl') s1) s3 Ht2) as (Ht3 & _ & _ & Hrem3).
  { symmetry. exact (f_equal k_tl rd_frame). }
  { symmetry. exact (f_equal k_pwait rd_frame). }
  { symmetry. exact (f_equal k_jiffies rd_frame). }
  { intros x Hx. rewrite Hts, lookup_insert_ne; [done|]. intros <-. done. }
  split.
  - split; [done|]. split; [|done]. unfold sems_ok.
    rewrite <- (f_equal k_sems rd_frame : k_sems s = k_sems s3).
    eapply sem_counts_frame; [exact Hsem|]. intros a. by apply rd_waiting.
  - exact (f_equal (upd_tl (fun _ => ∅)) rd_frame).
  - exists e. rewrite Hts. simpl. by rewrite insert_insert_eq.
  - intros x. rewrite Hrem3, Hrem2. case_decide; [done|]. apply Hrem1.
  - exact rd_rq.
  - exact rd_waiting.
Qed.


(** ** Giving up the processor *)

(** The state after leaving the outermost or an inner critical section. *)
Definition left_critical s : kstate HS :=
  upd_masked (fun m => if k_critical_count s =? 1 then false else m)
    (upd_critical_count (fun c => c - 1) s).

(** A context switch is requested when [higher] holds. *)
Definition yielded (higher : bool) s : kstate HS :=
  upd_pendsv (fun p => if higher then true else p) s.

Lemma do_reschedule_spec t o oc s (Q : unit -> kstate HS -> Prop) :
  t <> NULL -> k_schrun s = true -> 0 < k_critical_count s ->
  k_tasks s !! t = Some o -> k_tasks s !! k_currp s = Some oc ->
  Q tt (yielded (t_prio o <? t_prio oc) (left_critical s)) ->
  wp (_isixp_do_reschedule t) Q s.
Proof.
  intros Hn Hrun Hcc Ho Hoc HQ. unfold _isixp_do_reschedule.
  rewrite (proj2 (Z.eqb_neq _ _)) by done. wp_step. wp_step. wp_step. wp_step. rewrite Hrun.
  cbv [negb]. wp_step. wp_step. eapply wp_task_get; [exact Ho|]. wp_step.
  eapply wp_task_get; [exact Hoc|]. wp_step. wp_step. apply wp_exit_critical; [done|].
  unfold when, yielded, left_critical, _isixp_prio_gt in *.
  destruct (t_prio o <? t_prio oc); [unfold _isix_port_yield|]; wp_step; [done|by destruct s].
Qed.

Lemma same_clock_yielded b s : same_clock s (yielded b (left_critical s)).
Proof. by repeat split. Qed.

(** [_isixp_wakeup_task] inside the critical section of the caller. *)
Lemma isixp_wakeup_task_spec t o oc msg s :
  ready_inv (Some t) s -> sems_ok s -> time_inv s -> k_tasks s !! t = Some o ->
  t_state o <> OSTHR_STATE_READY -> t_state o <> OSTHR_STATE_ZOMBIE ->
  k_schrun s = true -> 0 < k_critical_count s -> t <> k_currp s ->
  k_tasks s !! k_currp s = Some oc ->
  wp (_isixp_wakeup_task t msg) (fun _ s' => exists s2, waked t o msg s s2 /\
    s' = yielded (t_prio o <? t_prio oc) (left_critical s2)) s.
Proof.
  intros Hok Hsem Ht Ho H1 H2 Hrun Hcc Hne Hoc. unfold _isixp_wakeup_task. wp_step.
  assert (t <> NULL) as Hnull by (intros ->; rewrite (r_null _ _ _ _ _ Hok) in Ho; done).
  eapply wp_mono; [by apply (wakeup_task_spec t o)|]. intros [] s2 W.
  destruct (wd_task _ _ _ _ _ W) as (e & Hts). pose proof (wd_frame _ _ _ _ _ W) as Hf.
  pose proof (f_equal k_currp Hf : k_currp s = k_currp s2) as Ecur.
  eapply do_reschedule_spec; [done| | | | |].
  - by rewrite <- (f_equal k_schrun Hf : k_schrun s = k_schrun s2).
  - by rewrite <- (f_equal k_critical_count Hf : k_critical_count s = k_critical_count s2).
  - rewrite Hts. apply lookup_insert_eq.
  - rewrite Hts, <- Ecur, lookup_insert_ne by done. exact Hoc.
  - by exists s2.
Qed.

(** First task of a wait list. *)
Lemma remove_from_prio_queue_spec h t l s (Q : Z -> kstate HS -> Prop) :
  ready_inv None s -> k_q s !! h = Some (t :: l) -> is_ready_head h = false ->
  (ready_inv (Some t) (upd_q (fun _ => <[h := l]> (k_q s)) s) ->
   Q t (upd_q (fun _ => <[h := l]> (k_q s)) s)) ->
  wp (_isixp_remove_from_prio_queue h) Q s.
Proof.
  intros Hok Hl Hh HQ. unfold _isixp_remove_from_prio_queue.
  assert (t ∈ t :: l) as Hin by left.
  assert (NoDup (t :: l)) as Hnd by (by eapply (r_qwf _ _ _ _ _ Hok)).
  destruct (seq_delete_in t (k_q s) h _ (r_qwf _ _ _ _ _ Hok) Hl Hin) as (Hdel & _).
  pose proof (ready_ok_q_delete _ _ _ _ _ _ _ Hok Hl Hin Hh) as Hok'.
  rewrite remove_node_head in Hdel, Hok' by done.
  wp_step. eapply wp_q_list; [exact Hl|]. cbv iota beta.
  wp_step. eapply wp_q_store; [exact Hdel|]. wp_step.
  by apply HQ.
Qed.

Lemma remove_from_empty_queue h s (Q : Z -> kstate HS -> Prop) :
  k_q s !! h = Some [] -> Q NULL s -> wp (_isixp_remove_from_prio_queue h) Q s.
Proof.
  intros Hl HQ. unfold _isixp_remove_from_prio_queue. wp_step. eapply wp_q_list; [exact Hl|].
  cbv iota beta. by wp_step.
Qed.

(** The waiting tasks of an object ordered by priority: the first has the highest. *)
Lemma first_waiter_highest h t l s x :
  ready_inv None s -> prio_queue h = true -> k_q s !! h = Some (t :: l) -> x ∈ l ->
  prio_of (k_tasks s) t <= prio_of (k_tasks s) x.
Proof.
  intros Hok Hh Hl Hx. pose proof (r_sorted _ _ _ _ _ Hok h _ Hh Hl) as [_ Hs]%sorted_by_cons. auto.
Qed.

(** ** Entering a wait list *)

(** Position of a task with priority [p] in a wait list: behind every task of the
    same or a higher priority. *)
Definition prio_insert (ts : gmap Z task) (p t : Z) (l : list Z) : list Z :=
  insert_before_first (fun y => p <? prio_of ts y) t l.

Lemma add_to_prio_queue_spec h t o l s (Q : unit -> kstate HS -> Prop) :
  ready_inv (Some t) s -> k_tasks s !! t = Some o -> k_q s !! h = Some l ->
  at_queue o h -> prio_queue h = true ->
  (ready_inv None (upd_q (fun _ => <[h := prio_insert (k_tasks s) (t_prio o) t l]> (k_q s)) s) ->
   Q tt (upd_q (fun _ => <[h := prio_insert (k_tasks s) (t_prio o) t l]> (k_q s)) s)) ->
  wp (_isixp_add_to_prio_queue h t) Q s.
Proof.
  intros Hok Ho Hl Hat Hh HQ. unfold _isixp_add_to_prio_queue.
  assert (forall y, y ∈ l -> task_lower (k_tasks s) (t_prio o) y = (t_prio o <? prio_of (k_tasks s) y)) as Hext.
  { intros y Hy. destruct (r_at _ _ _ _ _ Hok h l y Hl Hy) as (oy & Hoy & _).
    unfold task_lower, prio_of. by rewrite Hoy. }
  destruct (seq_insert_with_ok (insert_before_first (task_lower (k_tasks s) (t_prio o)) t) t (k_q s) h l
    (r_qwf _ _ _ _ _ Hok) (r_detached _ _ _ _ _ Hok t eq_refl) Hl) as [Hins _];
    [apply insert_before_first_perm|].
  rewrite (insert_before_first_ext _ _ t l Hext) in Hins.
  wp_step. eapply wp_task_get; [exact Ho|]. wp_step. wp_step.
  eapply wp_q_store; [exact Hins|]. apply HQ.
  eapply ready_ok_q_insert; [exact Hok|exact Hl|exact Ho|exact Hat|by destruct h|
    apply insert_before_first_perm|].
  intros _. apply insert_before_first_sorted; [unfold prio_of; by rewrite Ho|].
  by eapply (r_sorted _ _ _ _ _ Hok h).
Qed.

End Wake.
