(* ===== verification/WakeAll.v ===== *)
(** * Waking the tasks of a wait list, one after the other

    The loops that wake waiters - of an event, of a condition variable, of a task that ends -
    take one task off a list and make it ready ([wake_waiter]); what a whole walk did is the
    record [woken_from]. *)

From S2P Require Import Prelude.
From S2P Require Import DList.
From S2P Require Import Kernel.
From S2P Require Import Scheduler.
From S2P Require Import SchedInv.
From S2P Require Import SchedCore.
From S2P Require Import SchedTime.
From S2P Require Import SchedSleep.
From S2P Require Import SchedWake.
From stdpp Require Import base numbers gmap list sorting.
From Stdlib Require Import ZArith Lia.
Local Open Scope Z_scope.

Section WakeAll.
Context {HS : Type} {AL : Allocator HS}.
Implicit Types s : kstate HS.

(** The lists of the tasks that wait for an object other than a semaphore. *)
Definition waiters_head (h : qhead) : bool :=
  match h with QMtx _ | QCond _ | QEvt _ | QExit _ => true | _ => false end.

(** What a wake-up leaves alone. *)
Definition same_objects s s' : Prop :=
  same_ctl s s' /\ k_critical_count s' = k_critical_count s /\ k_sems s' = k_sems s.

Lemma same_objects_trans s1 s2 s3 : same_objects s1 s2 -> same_objects s2 s3 -> same_objects s1 s3.
Proof. intros (A1 & A2 & A3) (B1 & B2 & B3). split_and!; [exact (eq_trans B1 A1)|congruence|congruence]. Qed.

(** [t], whose control block was [o], was taken off the list [h] and woken with [msg]. *)
Record released (h : qhead) (t : Z) (l' : list Z) (o : task) (msg : Z) s s' : Prop := {
  rl_inv : sched_inv s';
  rl_objects : same_objects s s';
  rl_task : exists e, k_tasks s' =
    <[t := set_t_prio_elem e (set_t_state OSTHR_STATE_READY (set_dmsg msg o))]> (k_tasks s);
  rl_rest : forall x, remaining s' x = if decide (x = t) then None else remaining s x;
  rl_list : k_q s' !! h = Some l';
  rl_waiting : same_waiting_but h s s'
}.

Lemma released_prio h t l' o msg s s' x :
  k_tasks s !! t = Some o -> released h t l' o msg s s' -> prio_of (k_tasks s') x = prio_of (k_tasks s) x.
Proof.
  intros Ho R. destruct (rl_task _ _ _ _ _ _ _ R) as [e ->]. rewrite prio_of_insert. case_decide as E; [subst x|done].
  unfold prio_of. by rewrite Ho.
Qed.

(** The detached task is made ready. *)
Lemma released_waked h t l' o msg s s1 s' :
  waiters_head h = true -> sched_inv s -> upd_q (fun _ => k_q s) s1 = s -> k_q s1 !! h = Some l' ->
  same_waiting_but h s s1 -> waked t o msg s1 s' -> released h t l' o msg s s'.
Proof.
  intros Hh (_ & _ & Ht) E1 Hl Hw1 W. pose proof (wd_frame _ _ _ _ _ W) as Hf.
  assert (is_ready_head h = false) as Hr by (by destruct h).
  destruct (time_inv_frame s s1 Ht) as (_ & _ & _ & Hrem1);
    [by rewrite <- E1|by rewrite <- E1|by rewrite <- E1|by rewrite <- E1|].
  split.
  - by eapply wd_inv.
  - rewrite <- E1. split_and!; [exact (eq_sym (f_equal ctl Hf))|exact (eq_sym (f_equal k_critical_count Hf))|
      exact (eq_sym (f_equal k_sems Hf))].
  - rewrite <- E1. exact (wd_task _ _ _ _ _ W).
  - intros x. by rewrite (wd_rest _ _ _ _ _ W), Hrem1.
  - by rewrite (wd_waiting _ _ _ _ _ W).
  - intros h' Hne Hr'. by rewrite (wd_waiting _ _ _ _ _ W), Hw1.
Qed.

(** [list_delete( &tsk->inode ); _isixp_wakeup_task_l( tsk, msg );] *)
Lemma wake_waiter {R} (k : K HS R) Q h l t msg s :
  sched_inv s -> k_q s !! h = Some l -> t ∈ l -> waiters_head h = true ->
  (forall o s', k_tasks s !! t = Some o -> at_queue o h -> t <> NULL ->
     released h t (remove_node t l) o msg s s' -> wp k Q s') ->
  wp (q_delete t;;; _isixp_wakeup_task_l t msg;;; k) Q s.
Proof.
  intros Hi Hl Hin Hh HQ. pose proof Hi as (Hok & Hsem & Ht).
  assert (is_ready_head h = false) as Hr by (by destruct h).
  destruct (r_at _ _ _ _ _ Hok _ _ t Hl Hin) as (o & Ho & Hat).
  assert (t <> NULL) as Hnull by (intros ->; rewrite (r_null _ _ _ _ _ Hok) in Ho; done).
  assert (queued_state (t_state o) = true /\ active (t_state o) = false /\ t_state o <> OSTHR_STATE_ZOMBIE) as (_ & Ha & Hz).
  { destruct h; try done; simpl in Hat; destruct_and?; by rewrite Hat || match goal with E : t_state o = _ |- _ => rewrite E end. }
  destruct (seq_delete_in t _ _ _ (r_qwf _ _ _ _ _ Hok) Hl Hin) as (Hd & _ & _).
  pose proof (ready_ok_q_delete _ _ _ _ _ _ t Hok Hl Hin Hr) as Hok1.
  wp_step. unfold q_delete. eapply wp_q_store; [exact Hd|]. set (s1 := upd_q _ s).
  destruct (time_inv_frame s s1 Ht) as (Ht1 & _ & _ & _); try done.
  assert (sems_ok s1) as Hsem1.
  { eapply sem_counts_frame; [exact Hsem|]. intros a. simpl. rewrite lookup_insert_ne; [done|]. by intros ->. }
  unfold _isixp_wakeup_task_l. wp_step.
  eapply wp_mono; [apply (wakeup_task_spec t o msg s1 Hok1 Hsem1 Ht1 Ho)|].
  - intros E. by rewrite E in Ha.
  - done.
  - intros [] s' W. apply (HQ o s' Ho Hat Hnull). eapply (released_waked h t _ o msg s s1); try done.
    + by destruct s.
    + apply lookup_insert_eq.
    + intros h' Hne _. simpl. by rewrite lookup_insert_ne.
Qed.

(** The tasks [ws] of the list [h], which is [l'] now, have been woken with [msg]. *)
Record woken_from (h : qhead) (msg : Z) (ws l' : list Z) s s' : Prop := {
  ew_inv : sched_inv s';
  ew_frame : same_objects s s';
  ew_list : k_q s' !! h = Some l';
  ew_woken : forall t, t ∈ ws -> exists o0 o, k_tasks s !! t = Some o0 /\ k_tasks s' !! t = Some o /\
    t_state o = OSTHR_STATE_READY /\ t_obj o = u32 msg /\ t_real_prio o = t_real_prio o0 /\
    t_prio o = t_prio o0 /\ remaining s' t = None;
  ew_other : forall t, t ∉ ws -> k_tasks s' !! t = k_tasks s !! t /\ remaining s' t = remaining s t;
  ew_waiting : same_waiting_but h s s'
}.

Lemma woken_from_nil h msg l s : sched_inv s -> k_q s !! h = Some l -> woken_from h msg [] l s s.
Proof. intros Hi Hl. split; [done|done|done|by intros t ?%not_elem_of_nil|done|by intros ?]. Qed.

(** One task is taken off the list and woken before the rest of the walk. *)
Lemma woken_from_cons h msg t l1 o ws l' s s1 s' :
  t ∉ ws -> k_tasks s !! t = Some o -> released h t l1 o msg s s1 ->
  woken_from h msg ws l' s1 s' -> woken_from h msg (t :: ws) l' s s'.
Proof.
  intros Ht Ho [_ F (e & Ets) Hrem _ Hq] [Hi G Hl Hw Hot Hq'].
  assert (forall x, x <> t -> k_tasks s1 !! x = k_tasks s !! x) as Hts by (intros x Hx; by rewrite Ets, lookup_insert_ne).
  destruct (Hot t Ht) as [Htt Htr]. split; [done|by eapply same_objects_trans|done| | |].
  - intros x [->|Hx]%elem_of_cons.
    + exists o. eexists. rewrite Htt, Htr, Hrem, decide_True by done. rewrite Ets. by rewrite lookup_insert_eq.
    + destruct (decide (x = t)) as [->|Hne]; [done|].
      destruct (Hw x Hx) as (ox0 & ox & Hox0 & ?). exists ox0, ox. by rewrite <- Hts.
  - intros x [Hxt Hx]%not_elem_of_cons. destruct (Hot x Hx) as [-> ->]. rewrite Hrem, decide_False by done. auto.
  - intros h' Hh Hr. by rewrite Hq', Hq.
Qed.

(** Priorities do not change. *)
Lemma woken_from_prio h msg ws l' s s' x : woken_from h msg ws l' s s' -> prio_of (k_tasks s') x = prio_of (k_tasks s) x.
Proof.
  intros W. destruct (decide (x ∈ ws)) as [Hx|Hx].
  - destruct (ew_woken _ _ _ _ _ _ W x Hx) as (o0 & o & E0 & E & _ & _ & _ & Hp & _). unfold prio_of. by rewrite E0, E.
  - destruct (ew_other _ _ _ _ _ _ W x Hx) as [E _]. unfold prio_of. by rewrite E.
Qed.

End WakeAll.
