(* ===== verification/Alloc.v ===== *)
(** * Calling the heap

    The kernel calls its allocator under the scheduler lock ([memlock.h]).  When nothing has to be
    caught up with at the end of the lock, a call changes the heap and nothing else. *)

From S2P Require Import Prelude.
From S2P Require Import DList.
From S2P Require Import Kernel.
From S2P Require Import Scheduler.
From S2P Require Import SchedSleep.
From stdpp Require Import base numbers gmap list.
From Stdlib Require Import ZArith Lia.
Local Open Scope Z_scope.
Local Open Scope isix_scope.

Section Alloc.
Context {HS : Type} {AL : Allocator HS}.
Implicit Types s : kstate HS.

(** The allocator may be called: not from an interrupt, and giving the scheduler lock back has
    nothing to catch up with. *)
Definition may_allocate s : Prop :=
  k_in_isr s = false /\ 0 <= k_critical_count s /\ 0 <= k_sched_lock s < 2 ^ 31 - 1 /\
  (k_sched_lock s = 0 -> k_jiffies_skipped s = 0 /\ k_yield_pending s = false).

(** The state with another heap; the interrupt mask follows the critical sections. *)
Definition with_heap (h : HS) (m : bool) s : kstate HS := upd_masked (fun _ => m) (upd_heap (fun _ => h) s).

Lemma may_allocate_with_heap h m s : may_allocate s -> may_allocate (with_heap h m s).
Proof. done. Qed.

(** Between [mm_lock_lock] and [mm_lock_unlock]. *)
Definition locked s : kstate HS := if k_schrun s then upd_sched_lock (fun n => n + 1) s else s.

Lemma mm_lock_lock_spec (Q : unit -> kstate HS -> Prop) s :
  may_allocate s -> Q tt (locked s) -> wp mm_lock_lock Q s.
Proof.
  intros (Hi & Hc & Hl & _) HQ. unfold mm_lock_lock. wp_step. wp_step. rewrite Hi. wp_step. wp_step.
  unfold locked in HQ. destruct (k_schrun s); cbv [when]; [|by wp_step].
  unfold _isixp_lock_scheduler. wp_step. unfold atomic_sem_inc, upd_sched_lock in *. change (0 <? 0) with false. cbn [andb].
  by rewrite i32_id by (unfold in_i32; lia).
Qed.

(** The fields but for the counters, which are back where they were. *)
Lemma unlocked_eq h m (c l sk : Z) (y : bool) s s' :
  s' = upd_yield_pending (fun _ => y) (upd_jiffies_skipped (fun _ => sk) (upd_critical_count (fun _ => c)
    (upd_sched_lock (fun _ => l) (with_heap h m s)))) ->
  c = k_critical_count s -> l = k_sched_lock s -> sk = k_jiffies_skipped s -> y = k_yield_pending s -> s' = with_heap h m s.
Proof. intros -> -> -> -> ->. by destruct s. Qed.

Lemma mm_lock_unlock_spec h (Q : unit -> kstate HS -> Prop) s :
  may_allocate s -> (forall m, Q tt (with_heap h m s)) -> wp mm_lock_unlock Q (upd_heap (fun _ => h) (locked s)).
Proof.
  intros (Hi & Hc & Hl & Hz) HQ. unfold mm_lock_unlock, locked. destruct (k_schrun s) eqn:Hrun.
  2: { do 2 wp_step. cbn [k_in_isr upd_heap]. rewrite Hi. do 2 wp_step. cbn [k_schrun upd_heap]. rewrite Hrun. cbv [when].
       wp_step. specialize (HQ (k_masked s)). by destruct s. }
  do 2 wp_step. cbn [k_in_isr upd_heap upd_sched_lock]. rewrite Hi. do 2 wp_step. cbn [k_schrun upd_heap upd_sched_lock].
  rewrite Hrun. cbv [when]. unfold _isixp_unlock_scheduler, atomic_sem_dec. do 4 wp_step.
  cbn [k_sched_lock upd_sched_lock upd_heap]. rewrite Z.add_simpl_r, i32_id by (unfold in_i32; lia).
  rewrite (proj2 (Z.ltb_ge _ _)) by lia. destruct (Z.eqb_spec (k_sched_lock s) 0) as [E|E]; cbv [when].
  2: { wp_step. rewrite (unlocked_eq h (k_masked s) (k_critical_count s) (i32 (k_sched_lock s + 1 - 1)) (k_jiffies_skipped s)
         (k_yield_pending s) s); [apply HQ|by destruct s|done| |done|done].
       rewrite Z.add_simpl_r. apply i32_id. unfold in_i32. lia. }
  destruct (Hz E) as [Hsk Hy]. wp_step. apply wp_enter_critical; [done|]. do 4 wp_step.
  cbn [k_jiffies_skipped upd_critical_count upd_masked upd_sched_lock upd_heap]. rewrite Hsk. change (0 <? 0) with false.
  cbv [when]. do 4 wp_step. cbn [k_yield_pending upd_jiffies_skipped upd_critical_count upd_masked upd_sched_lock upd_heap].
  rewrite Hy. cbv [when]. wp_step. wp_step. apply wp_exit_critical; [simpl; lia|].
  rewrite (unlocked_eq h (if k_critical_count s + 1 =? 1 then false else true) (k_critical_count s + 1 - 1)
    (i32 (k_sched_lock s + 1 - 1)) 0 (k_yield_pending s) s); [apply HQ|by destruct s|lia| |done|done].
  rewrite Z.add_simpl_r. apply i32_id. unfold in_i32. lia.
Qed.

Lemma isix_alloc_spec n (Q : Z -> kstate HS -> Prop) s :
  may_allocate s ->
  (forall m, Q (fst (heap_alloc n (k_heap s))) (with_heap (snd (heap_alloc n (k_heap s))) m s)) -> wp (isix_alloc n) Q s.
Proof.
  intros Hm HQ. unfold isix_alloc. wp_step. apply mm_lock_lock_spec; [done|]. do 2 wp_step.
  assert (k_heap (locked s) = k_heap s) as -> by (unfold locked; by destruct (k_schrun s)).
  destruct (heap_alloc n (k_heap s)) as [p h']. do 3 wp_step. apply mm_lock_unlock_spec; [done|]. intros m. wp_step. apply HQ.
Qed.

Lemma isix_free_spec p (Q : unit -> kstate HS -> Prop) s :
  may_allocate s -> (forall m, Q tt (with_heap (heap_free p (k_heap s)) m s)) -> wp (isix_free p) Q s.
Proof.
  intros Hm HQ. unfold isix_free. wp_step. apply mm_lock_lock_spec; [done|]. do 2 wp_step.
  assert (upd_heap (heap_free p) (locked s) = upd_heap (fun _ => heap_free p (k_heap s)) (locked s)) as ->.
  { unfold locked. by destruct (k_schrun s), s. }
  by apply mm_lock_unlock_spec.
Qed.

End Alloc.
