(* ===== verification/SemProofs.v ===== *)
(** * Correctness of the semaphores

    The abstract view of a semaphore is its number of free tokens and the list of
    its waiting tasks, ordered by priority and, within a priority, by arrival. *)

From S2P Require Import Prelude.
From S2P Require Import DList.
From S2P Require Import Kernel.
From S2P Require Import Scheduler.
From S2P Require Import Events.
From S2P Require Import Semaphore.
From S2P Require Import SchedInv.
From S2P Require Import SchedCore.
From S2P Require Import SchedTime.
From S2P Require Import SchedSleep.
From S2P Require Import SchedWake.
From stdpp Require Import base numbers gmap list sorting.
From Stdlib Require Import ZArith Lia.
Local Open Scope Z_scope.

Section SemProofs.
Context {HS : Type} {AL : Allocator HS}.
Implicit Types s : kstate HS.

(** Free tokens and waiting tasks. *)
Definition sem_view s (a : Z) : option (Z * list Z) :=
  o ← k_sems s !! a; l ← k_q s !! QSem a; Some (Z.max 0 (s_value o), l).

Lemma sem_view_Some s a n l :
  sem_view s a = Some (n, l) <->
  exists o, k_sems s !! a = Some o /\ k_q s !! QSem a = Some l /\ n = Z.max 0 (s_value o).
Proof.
  unfold sem_view. rewrite bind_Some. split.
  - intros (o & Ho & (k & Hk & [= <- <-])%bind_Some). eauto.
  - intros (o & Ho & Hl & ->). exists o. split; [done|]. rewrite Hl. done.
Qed.

(** Value of the counter after an increment that stays in range. *)
Lemma atomic_sem_inc_small limit v :
  in_i32 v -> v < 2 ^ 31 - 1 -> v < 0 \/ limit = 0 \/ v < limit -> 
  atomic_sem_inc limit v = if (0 <? limit) && (limit <? v + 1) then limit else v + 1.
Proof. intros Hr Hv Hl. unfold atomic_sem_inc. by rewrite i32_id by (unfold in_i32 in *; lia). Qed.

(** The token goes to the first waiter. *)
Lemma sem_signal_wakes_spec oc a t l s :
  task_context oc s -> a <> NULL -> sem_view s a = Some (0, t :: l) ->
  wp (isix_sem_signal a) (fun r s' => r = ISIX_EOK /\ sched_inv s' /\
    sem_view s' a = Some (0, l) /\
    (exists o o', k_tasks s !! t = Some o /\ k_tasks s' !! t = Some o' /\
       t_state o' = OSTHR_STATE_READY /\ t_dmsg o' = ISIX_EOK /\
       (forall x, x ∈ l -> t_prio o <= prio_of (k_tasks s) x) /\
       (t_prio o < t_prio oc -> k_pendsv s' = true) /\
       (forall p, rq s' p = if decide (p = t_prio o) then rq s p ++ [t] else rq s p) /\
       t_real_prio o' = t_real_prio o) /\
    (forall x, remaining s' x = if decide (x = t) then None else remaining s x) /\
    (forall x, x <> t -> k_tasks s' !! x = k_tasks s !! x) /\
    k_critical_count s' = k_critical_count s /\ same_ctl s s' /\ same_waiting_but (QSem a) s s') s.
Proof.
  intros [Hi Hrun Hcc Hoc Hac] Ha Hv. pose proof Hi as (Hok & Hsem & Ht).
  apply sem_view_Some in Hv as (so & Hso & Hl & Hz).
  destruct (Hsem a _ Hl) as (so' & Hso' & Hlen & Hrange). simplify_eq. simpl in Hlen.
  unfold in_i32 in Hrange.
  destruct (r_at _ _ _ _ _ Hok _ _ t Hl) as (o & Ho & Hst & Hobj); [by left|].
  set (v' := atomic_sem_inc (s_limit so) (s_value so)).
  assert (v' <= 0 /\ Z.of_nat (length l) = Z.max 0 (- v') /\ in_i32 v') as (Hv0 & Hv1 & Hv2).
  { unfold v', atomic_sem_inc, in_i32. rewrite i32_id by (unfold in_i32; lia).
    destruct (Z.ltb_spec 0 (s_limit so)), (Z.ltb_spec (s_limit so) (s_value so + 1)); simpl; lia. }
  unfold isix_sem_signal, _isixp_sem_signal. rewrite (proj2 (Z.eqb_neq _ _)) by done.
  wp_step. apply wp_enter_critical; [done|].
  wp_step. unfold _isixp_sem_fast_signal. eapply wp_sem_upd; [exact Hso|]. fold v'.
  wp_step. eapply wp_sem_get; [apply lookup_insert_eq|].
  change (s_value (set_s_value v' so)) with v'. rewrite (proj2 (Z.leb_le _ _)) by lia.
  wp_step. eapply remove_from_prio_queue_spec; [exact Hok|exact Hl|done|]. intros Hok1.
  match type of Hok1 with ready_inv _ ?x => set (s1 := x) in * end.
  assert (sems_ok s1) as Hsem1 by (by apply sem_counts_upd).
  assert (t <> NULL) as Hnull by (intros ->; rewrite (r_null _ _ _ _ _ Hok) in Ho; done).
  wp_step. rewrite (proj2 (Z.eqb_neq _ _)) by done. cbv [negb].
  wp_step. eapply wp_task_get; [exact Ho|]. rewrite bool_decide_eq_true_2 by done.
  assert (t <> k_currp s) as Hne by (intros ->; rewrite Hoc in Ho; simplify_eq; by rewrite Hst in Hac).
  eapply wp_mono; [apply (isixp_wakeup_task_spec t o oc); try done; [by rewrite Hst..|simpl; lia]|].
  intros [] s' (s2 & W & ->). wp_step. destruct (wd_task _ _ _ _ _ W) as (e & Hts2).
  destruct (same_clock_inv s2 _ (same_clock_yielded (t_prio o <? t_prio oc) s2) (wd_inv _ _ _ _ _ W))
    as [Hi' Hrem'].
  pose proof (wd_frame _ _ _ _ _ W) as Hf.
  split_and!; [done|done| | | | | |exact (eq_sym (f_equal ctl Hf))|].
  - apply sem_view_Some. exists (set_s_value v' so). split_and!; [| |simpl; lia].
    + change (k_sems s2 !! a = Some (set_s_value v' so)).
      rewrite <- (f_equal k_sems Hf : k_sems s1 = k_sems s2). apply lookup_insert_eq.
    + change (k_q s2 !! QSem a = Some l). rewrite (wd_waiting _ _ _ _ _ W) by done.
      apply lookup_insert_eq.
  - exists o. eexists. split_and!; [done|etransitivity; [exact (f_equal (lookup t) Hts2)|apply lookup_insert_eq]|
      done|done| | | |done].
    + intros x Hx. pose proof (first_waiter_highest (QSem a) t l s x Hok eq_refl Hl Hx) as Hle.
      unfold prio_of at 1 in Hle. by rewrite Ho in Hle.
    + intros Hlt. simpl. by rewrite (proj2 (Z.ltb_lt _ _)).
    + intros p. etransitivity; [exact (wd_rq _ _ _ _ _ W p)|].
      assert (rq s1 p = rq s p) as -> by (by apply ready_queue_waiting). done.
  - intros x. rewrite Hrem'. exact (wd_rest _ _ _ _ _ W x).
  - intros x Hx. etransitivity; [exact (f_equal (lookup x) Hts2)|]. by rewrite lookup_insert_ne.
  - simpl. rewrite <- (f_equal k_critical_count Hf : k_critical_count s + 1 = k_critical_count s2). lia.
  - intros h Hh Hr. etransitivity; [exact (wd_waiting _ _ _ _ _ W h Hr)|]. simpl. by rewrite lookup_insert_ne.
Qed.

(** C7: Signalling a semaphore that tasks wait for hands the token to the first
    waiter, which has the highest priority: it leaves the wait list and any time
    list, is ready with the result [ISIX_EOK], and the caller gives up the processor
    when the woken task has the higher priority.  The number of free tokens stays
    zero and the other waiters keep their order. *)
Theorem sem_signal_wakes_highest oc a t l s :
  task_context oc s -> a <> NULL -> sem_view s a = Some (0, t :: l) ->
  wp (isix_sem_signal a) (fun r s' => r = ISIX_EOK /\ sched_inv s' /\
    sem_view s' a = Some (0, l) /\
    (exists o o', k_tasks s !! t = Some o /\ k_tasks s' !! t = Some o' /\
       t_state o' = OSTHR_STATE_READY /\ t_dmsg o' = ISIX_EOK /\
       (forall x, x ∈ l -> t_prio o <= prio_of (k_tasks s) x) /\
       (t_prio o < t_prio oc -> k_pendsv s' = true) /\
       (forall p, rq s' p = if decide (p = t_prio o) then rq s p ++ [t] else rq s p)) /\
    (forall x, remaining s' x = if decide (x = t) then None else remaining s x) /\
    (forall x, x <> t -> k_tasks s' !! x = k_tasks s !! x) /\
    k_critical_count s' = k_critical_count s) s.
Proof.
  intros Hc Ha Hv. eapply wp_mono; [by eapply sem_signal_wakes_spec|].
  intros r s' (? & ? & ? & (o & o' & ? & ? & ? & ? & ? & ? & ? & _) & ? & ? & ? & _).
  split_and!; try done. exists o, o'. by split_and!.
Qed.

(** The caller has taken a token of a semaphore nobody waits for. *)
Definition token_taken a o s s' : Prop :=
  k_sems s' = <[a := set_s_value (s_value o - 1) o]> (k_sems s) /\
  k_tasks s' = k_tasks s /\ k_prios s' = k_prios s /\ k_q s' = k_q s /\ k_pl s' = k_pl s /\
  k_tl s' = k_tl s /\ k_pwait s' = k_pwait s /\ k_jiffies s' = k_jiffies s /\
  k_critical_count s' = k_critical_count s /\ same_ctl s s'.

(** A free token is taken at once. *)
Lemma sem_wait_round_takes a timeout start o s :
  0 <= k_critical_count s -> k_sems s !! a = Some o -> 0 < s_value o -> in_i32 (s_value o) ->
  wp (sem_wait_round a timeout start) (fun r s' => r = Done ISIX_EOK /\ token_taken a o s s') s.
Proof.
  intros Hcc Ho Hv Hr. unfold in_i32 in Hr. unfold sem_wait_round.
  wp_step. apply wp_enter_critical; [done|]. wp_step. eapply wp_sem_upd; [exact Ho|].
  wp_step. eapply wp_sem_get; [apply lookup_insert_eq|].
  unfold atomic_sem_dec. rewrite i32_id by (unfold in_i32; lia).
  change (s_value (set_s_value (s_value o - 1) o)) with (s_value o - 1).
  rewrite (proj2 (Z.leb_le _ _)) by lia. wp_step. apply wp_exit_critical; [simpl; lia|]. wp_step.
  split; [done|]. unfold token_taken. split_and!; try done. simpl. lia.
Qed.

(** The counters stay right when the value of a semaphore without waiters changes. *)
Lemma sems_ok_value a o v l s :
  sems_ok s -> k_sems s !! a = Some o -> k_q s !! QSem a = Some l -> l = [] -> 0 <= v -> in_i32 v ->
  sem_counts (<[a := set_s_value v o]> (k_sems s)) (k_q s).
Proof.
  intros Hs Ho Hl -> Hv Hr. rewrite <- (insert_id (k_q s) (QSem a) [] Hl).
  apply sem_counts_upd; [done|simpl; lia|done].
Qed.

Lemma token_taken_inv a o s s' :
  sched_inv s -> k_sems s !! a = Some o -> k_q s !! QSem a = Some [] -> 0 < s_value o ->
  token_taken a o s s' -> sched_inv s' /\ sem_view s' a = Some (Z.max 0 (s_value o) - 1, []).
Proof.
  intros (Hok & Hsem & Ht) Ho Hl Hv (Es & Ets & Eps & Eq & Epl & Etl & Epw & Ej & _).
  destruct (Hsem a _ Hl) as (o' & Ho' & _ & Hr). simplify_eq. unfold in_i32 in Hr. split; [split; [|split]|].
  - unfold ready_inv. by rewrite Ets, Eps, Eq, Epl.
  - unfold sems_ok. rewrite Es, Eq. eapply sems_ok_value; try done; [lia|unfold in_i32; lia].
  - destruct (time_inv_frame s s' Ht Etl Epw Ej) as [? _]; [by rewrite Ets|done].
  - apply sem_view_Some. exists (set_s_value (s_value o - 1) o).
    rewrite Es, Eq, lookup_insert_eq. split_and!; [done|done|simpl; lia].
Qed.

(** [isix_sem_wait] on a semaphore with free tokens takes one and returns
    [ISIX_EOK] at once, whatever the timeout: no task is put to sleep or woken and
    nothing but the token count changes. *)
Theorem sem_wait_takes_token a timeout n s :
  sched_inv s -> 0 <= k_critical_count s -> a <> NULL -> 0 < n -> sem_view s a = Some (n, []) ->
  wp (isix_sem_wait a timeout) (fun r s' => fst r = Done ISIX_EOK /\ sched_inv s' /\
    sem_view s' a = Some (n - 1, []) /\ k_tasks s' = k_tasks s /\ k_q s' = k_q s /\ k_pl s' = k_pl s /\
    k_tl s' = k_tl s /\ k_critical_count s' = k_critical_count s /\ same_ctl s s' /\
    forall b, b <> a -> k_sems s' !! b = k_sems s !! b) s.
Proof.
  intros Hi Hcc Ha Hn Hv. pose proof Hi as (Hok & Hsem & Ht).
  apply sem_view_Some in Hv as (o & Ho & Hl & Hz).
  destruct (Hsem a _ Hl) as (o' & Ho' & _ & Hr). simplify_eq. unfold in_i32 in Hr.
  unfold isix_sem_wait. rewrite (proj2 (Z.eqb_neq _ _)) by done.
  destruct (timeout =? ISIX_TIME_DONTWAIT).
  - unfold sem_trydec. wp_step. wp_step. eapply wp_sem_get; [exact Ho|].
    unfold atomic_sem_trydec. rewrite i32_id by (unfold in_i32; lia).
    rewrite (proj2 (Z.ltb_ge _ _)) by lia. wp_step. eapply wp_sem_upd; [exact Ho|]. wp_step. wp_step.
    rewrite (proj2 (Z.ltb_lt _ _)) by lia.
    destruct (token_taken_inv a o s (upd_sems (insert a (set_s_value (s_value o - 1) o)) s)) as [H1 H2]; try done; [lia|].
    split_and!; try done. intros b Hb. simpl. by rewrite lookup_insert_ne.
  - wp_step. unfold isix_get_jiffies. wp_step. wp_step.
    eapply wp_mono; [apply (sem_wait_round_takes a timeout (k_jiffies s) o s); try done; lia|].
    intros r s' (-> & Htk). wp_step. destruct (token_taken_inv a o s s') as [H1 H2]; try done; [lia|].
    destruct Htk as (Es & Ets & Eps & Eq & Epl & Etl & Epw & Ej & Ec & Hctl).
    split_and!; try done. intros b Hb. by rewrite Es, lookup_insert_ne.
Qed.

(** [isix_sem_signal] on a semaphore nobody waits for adds a token, up to the
    limit of the semaphore: at the limit the token is dropped. *)
Theorem sem_signal_stores_token a n o s :
  sched_inv s -> 0 <= k_critical_count s -> a <> NULL -> sem_view s a = Some (n, []) ->
  k_sems s !! a = Some o -> s_evt o = NULL -> 0 <= s_value o < 2 ^ 31 - 1 ->
  wp (isix_sem_signal a) (fun r s' => r = ISIX_EOK /\ sched_inv s' /\
    sem_view s' a = Some ((if 0 <? s_limit o then Z.min (n + 1) (s_limit o) else n + 1), []) /\
    k_tasks s' = k_tasks s /\ k_q s' = k_q s /\ k_critical_count s' = k_critical_count s /\ same_ctl s s') s.
Proof.
  intros Hi Hcc Ha Hv Ho He Hvr. pose proof Hi as (Hok & Hsem & Ht).
  apply sem_view_Some in Hv as (o' & Ho' & Hl & ->). assert (o' = o) as -> by congruence. clear Ho'.
  set (v := atomic_sem_inc (s_limit o) (s_value o)).
  assert (v = (if 0 <? s_limit o then Z.min (s_value o + 1) (s_limit o) else s_value o + 1) /\ 0 < v /\ in_i32 v)
    as (Ev & Hv0 & Hvi).
  { unfold v, atomic_sem_inc. rewrite i32_id by (unfold in_i32; lia). unfold in_i32.
    destruct (Z.ltb_spec 0 (s_limit o)), (Z.ltb_spec (s_limit o) (s_value o + 1)); simpl; split_and!; lia. }
  unfold isix_sem_signal, _isixp_sem_signal. rewrite (proj2 (Z.eqb_neq a _)) by done.
  wp_step. apply wp_enter_critical; [done|].
  wp_step. unfold _isixp_sem_fast_signal. eapply wp_sem_upd; [exact Ho|]. fold v.
  wp_step. eapply wp_sem_get; [apply lookup_insert_eq|].
  change (s_value (set_s_value v o)) with v. rewrite (proj2 (Z.leb_gt _ _)) by lia.
  wp_step. apply wp_exit_critical; [simpl; lia|].
  change (s_evt (set_s_value v o)) with (s_evt o). rewrite He, Z.eqb_refl. cbn [negb andb].
  wp_step. wp_step. wp_step. split_and!; [done| | |done|done|simpl; lia|done].
  - match goal with |- sched_inv ?x => destruct (time_inv_frame s x Ht) as [Ht' _]; try done end.
    split; [exact Hok|]. split; [|exact Ht'].
    change (sem_counts (<[a := set_s_value v o]> (k_sems s)) (k_q s)).
    eapply sems_ok_value; try done; lia.
  - apply sem_view_Some. exists (set_s_value v o). split_and!; [apply lookup_insert_eq|done|].
    simpl. rewrite Z.max_r by lia. rewrite Z.max_r by lia. by rewrite Ev.
Qed.

(** Changing what the running task waits for does not move it. *)
Lemma ready_inv_running oc o' s :
  ready_inv None s -> k_tasks s !! k_currp s = Some oc -> active (t_state oc) = true ->
  t_prio o' = t_prio oc -> t_state o' = t_state oc -> t_prio_elem o' = t_prio_elem oc ->
  ready_inv None (upd_tasks (insert (k_currp s) o') s).
Proof.
  intros Hok Hoc Ha Hp Hst He. unfold ready_inv. simpl. eapply ready_ok_upd_same; [exact Hok|exact Hoc|done| |by rewrite Hst].
  intros h Hat. destruct h; simpl in *; rewrite ?Hst, ?He; try done;
    destruct Hat as [E _]; rewrite E in Ha; done.
Qed.

(** The blocking part of [isix_sem_wait]. *)
Lemma sem_block_spec {R} (k : K HS R) Q a l tout oc s :
  ready_inv None s -> time_inv s -> k_tasks s !! k_currp s = Some oc -> active (t_state oc) = true ->
  k_q s !! QSem a = Some l -> 0 <= tout < 2 ^ 32 ->
  (forall s', ready_inv None s' /\ time_inv s' /\
       k_q s' !! QSem a = Some (prio_insert (k_tasks s) (t_prio oc) (k_currp s) l) /\
       (forall h, h <> QSem a -> is_ready_head h = false -> k_q s' !! h = k_q s !! h) /\
       (exists o', k_tasks s' = <[k_currp s := o']> (k_tasks s) /\ t_state o' = OSTHR_STATE_WTSEM /\
          t_obj o' = a /\ t_prio o' = t_prio oc /\ t_real_prio o' = t_real_prio oc) /\
       (forall x, remaining s' x =
          if decide (x = k_currp s /\ tout <> ISIX_TIME_INFINITE) then Some tout else remaining s x) /\
       k_sems s' = k_sems s /\ k_critical_count s' = k_critical_count s /\ same_ctl s s' ->
     wp k Q s') ->
  wp (task_upd (k_currp s) (set_t_obj a);;;
      task_upd (k_currp s) (set_t_wait_aborted false);;;
      _isixp_set_sleep_timeout OSTHR_STATE_WTSEM tout;;;
      _isixp_add_to_prio_queue (QSem a) (k_currp s);;; k) Q s.
Proof.
  intros Hok Ht Hoc Ha Hl Htm HQ. set (o1 := set_t_wait_aborted false (set_t_obj a oc)).
  set (s1 := upd_tasks (insert (k_currp s) o1) s).
  wp_step. eapply wp_task_upd; [exact Hoc|]. wp_step. eapply wp_task_upd; [apply lookup_insert_eq|].
  match goal with |- wp _ _ ?x => assert (x = s1) as -> end.
  { unfold s1, upd_tasks. simpl. by rewrite insert_insert_eq. }
  assert (ready_inv None s1) as Hok1 by (by eapply ready_inv_running).
  assert (k_tasks s1 !! k_currp s1 = Some o1) as Ho1 by apply lookup_insert_eq.
  assert (timed_state (t_state oc) = false) as Hun by (by destruct (t_state oc)).
  destruct (time_inv_frame s s1 Ht) as (Ht1 & _ & _ & Hrem1); [done|done|done| |].
  { intros t Hon. simpl. rewrite lookup_insert_ne; [done|]. intros <-.
    by apply (untimed _ _ _ Ht Hoc Hun) in Hon. }
  wp_step. eapply wp_mono; [apply (set_sleep_timeout_spec OSTHR_STATE_WTSEM tout o1 s1); done|].
  intros [] s2 (Ht2 & (o2 & A) & Hrem2). change (k_currp s1) with (k_currp s) in *.
  destruct (sl_task _ _ _ _ _ A) as [j ->]. set (o2 := set_t_jiffies j _) in *.
  pose proof (sl_tasks _ _ _ _ _ A) as Ets. simpl in Ets. rewrite insert_insert_eq in Ets.
  assert (k_tasks s2 !! k_currp s = Some o2) as Ho2 by (by rewrite Ets, lookup_insert_eq).
  wp_step. eapply (add_to_prio_queue_spec (QSem a) (k_currp s) o2 l s2).
  - exact (sl_inv _ _ _ _ _ A).
  - exact Ho2.
  - by rewrite (sl_waiting _ _ _ _ _ A).
  - done.
  - done.
  - assert (prio_insert (k_tasks s2) (t_prio o2) (k_currp s) l =
            prio_insert (k_tasks s) (t_prio oc) (k_currp s) l) as ->.
    { unfold prio_insert. apply insert_before_first_ext. intros y Hy. change (t_prio o2) with (t_prio oc).
      unfold prio_of. rewrite Ets, lookup_insert_ne; [done|]. intros <-.
      destruct (r_at _ _ _ _ _ Hok _ _ _ Hl Hy) as (oy & Hoy & Hst & _). simplify_eq. by rewrite Hst in Ha. }
    intros Hok3. apply HQ. match goal with |- ready_inv None ?x /\ _ => set (s3 := x) in * end.
    destruct (time_inv_frame s2 s3 Ht2) as (Ht3 & _ & _ & Hrem3); try done.
    split_and!; [done|done|apply lookup_insert_eq| |exists o2; done| | | |exact (eq_sym (f_equal ctl (sl_frame _ _ _ _ _ A)))].
    + intros h Hh Hr. change (k_q s3) with (<[QSem a := prio_insert (k_tasks s) (t_prio oc) (k_currp s) l]> (k_q s2)).
      rewrite lookup_insert_ne by congruence. by rewrite (sl_waiting _ _ _ _ _ A).
    + intros x. rewrite Hrem3, Hrem2, Hrem1. done.
    + exact (sl_sems _ _ _ _ _ A).
    + symmetry. exact (f_equal k_critical_count (sl_frame _ _ _ _ _ A)).
Qed.

(** The caller blocks. *)
Lemma sem_wait_round_blocks a timeout start l oc s :
  task_context oc s -> sem_view s a = Some (0, l) -> 0 <= timeout < ISIX_TIME_DONTWAIT ->
  Z.of_nat (length l) < 2 ^ 31 -> wait_goes_on timeout start (k_jiffies s) ->
  wp (sem_wait_round a timeout start) (fun r s' => r = Blocked /\ sched_inv s' /\
    sem_view s' a = Some (0, prio_insert (k_tasks s) (t_prio oc) (k_currp s) l) /\
    (exists o', k_tasks s' = <[k_currp s := o']> (k_tasks s) /\ t_state o' = OSTHR_STATE_WTSEM /\
       t_real_prio o' = t_real_prio oc) /\
    (forall x, remaining s' x = if decide (x = k_currp s /\ timeout <> ISIX_TIME_INFINITE)
       then Some (timeout - u32 (k_jiffies s - start)) else remaining s x) /\
    k_pendsv s' = true /\ k_critical_count s' = k_critical_count s /\ same_ctl s s' /\
    same_waiting_but (QSem a) s s') s.
Proof.
  intros [Hi Hrun Hcc Hoc Hac] Hv Htm Hlen Hgo. pose proof Hi as (Hok & Hsem & Ht).
  apply sem_view_Some in Hv as (so & Hso & Hl & Hz).
  destruct (Hsem a _ Hl) as (so' & Hso' & Hll & Hr). assert (so' = so) as -> by congruence. unfold in_i32 in Hr.
  unfold sem_wait_round. wp_step. apply wp_enter_critical; [done|].
  wp_step. eapply wp_sem_upd; [exact Hso|]. unfold atomic_sem_dec. rewrite i32_id by (unfold in_i32; lia).
  set (so1 := set_s_value (s_value so - 1) so).
  wp_step. eapply wp_sem_get; [apply lookup_insert_eq|].
  change (s_value so1) with (s_value so - 1). rewrite (proj2 (Z.leb_gt 0 _)) by lia.
  wp_step. wp_step. cbv zeta. set (s1 := upd_sems _ _). change (k_jiffies s1) with (k_jiffies s).
  rewrite (wait_goes_on_test _ _ _ Hgo). destruct (wait_goes_on_time _ _ _ Hgo) as (tout & -> & Htout & Hrest); [exact Htm|].
  wp_step. wp_step. change (k_currp s1) with (k_currp s).
  destruct (time_inv_frame s s1 Ht) as (Ht1 & _ & _ & Hrem1); try done.
  eapply (sem_block_spec _ _ a l tout oc s1); try done.
  intros s' (Hok' & Ht' & Hq' & Hw' & (o' & Ets' & Hst' & _ & _ & Hrp') & Hrem' & Es' & Ec' & Hctl).
  pose proof (same_ctl_elim _ _ Hctl) as (_ & Er' & _).
  wp_step. apply wp_exit_critical; [rewrite Ec'; simpl; lia|].
  apply wp_yield_blocked; [by change (k_schrun s' = true); rewrite Er'|].
  match goal with |- _ /\ sched_inv ?x /\ _ => set (s2 := x) end.
  destruct (same_clock_inv s' s2) as [Hi2 Hrem2]; [done| |].
  { split; [done|]. split; [|done]. unfold sems_ok. rewrite Es'. intros b lb.
    destruct (decide (b = a)) as [->|Hb].
    - rewrite Hq'. intros [= <-]. exists so1. split; [apply lookup_insert_eq|].
      unfold prio_insert. rewrite insert_before_first_perm. simpl. unfold in_i32. lia.
    - rewrite Hw' by (done || congruence). intros Hlb. destruct (Hsem b lb Hlb) as (ob & Hob & Hob').
      exists ob. split; [|done]. simpl. by rewrite lookup_insert_ne. }
  split_and!; [done|done| | | |done| |exact Hctl|exact Hw'].
  - apply sem_view_Some. exists so1. split_and!; [|exact Hq'|simpl; lia].
    change (k_sems s2) with (k_sems s'). rewrite Es'. apply lookup_insert_eq.
  - exists o'. split; [exact Ets'|by split].
  - intros x. rewrite Hrem2, Hrem', Hrem1. change (k_currp s1) with (k_currp s). by apply Hrest.
  - simpl. rewrite Ec'. simpl. lia.
Qed.

(** When the time is over the claim is given back and the call returns. *)
Lemma sem_wait_round_over a timeout start l s :
  sems_ok s -> 0 <= k_critical_count s -> sem_view s a = Some (0, l) -> Z.of_nat (length l) < 2 ^ 31 ->
  timeout <> ISIX_TIME_INFINITE -> timeout <= u32 (k_jiffies s - start) ->
  wp (sem_wait_round a timeout start) (fun r s' => r = Done ISIX_ETIMEOUT /\ same_clock s s' /\ same_ctl s s' /\
    k_critical_count s' = k_critical_count s) s.
Proof.
  intros Hsem Hcc (o & Ho & Hl & Hz)%sem_view_Some Hlen Hinf Hover.
  destruct (Hsem a l Hl) as (o' & Ho' & Hn & Hr). assert (o' = o) as -> by congruence. unfold in_i32 in Hr.
  unfold sem_wait_round. wp_step. apply wp_enter_critical; [done|].
  wp_step. eapply wp_sem_upd; [exact Ho|]. unfold atomic_sem_dec. rewrite i32_id by (unfold in_i32; lia).
  wp_step. eapply wp_sem_get; [apply lookup_insert_eq|].
  change (s_value (set_s_value (s_value o - 1) o)) with (s_value o - 1). rewrite (proj2 (Z.leb_gt 0 _)) by lia.
  wp_step. wp_step. cbv zeta. set (s1 := upd_sems _ _). change (k_jiffies s1) with (k_jiffies s).
  rewrite (proj2 (Z.eqb_neq timeout _)), (proj2 (Z.leb_le timeout _)) by done. cbn [negb andb].
  wp_step. unfold _isixp_sem_fast_signal. eapply wp_sem_upd; [apply lookup_insert_eq|].
  wp_step. apply wp_exit_critical; [simpl; lia|]. wp_step.
  split_and!; [done| |done|simpl; lia].
  assert (E : atomic_sem_inc (s_limit o) (s_value o - 1) = s_value o).
  { unfold atomic_sem_inc. rewrite i32_id by (unfold in_i32; lia).
    destruct (Z.ltb_spec 0 (s_limit o)), (Z.ltb_spec (s_limit o) (s_value o - 1 + 1)); simpl; lia. }
  unfold same_clock. simpl. rewrite E, insert_insert_eq. rewrite insert_id; [by split_and!|].
  rewrite Ho. by destruct o.
Qed.

Lemma sem_wait_blocks_spec a timeout l oc s :
  task_context oc s -> a <> NULL -> sem_view s a = Some (0, l) -> 0 <= timeout < ISIX_TIME_DONTWAIT ->
  Z.of_nat (length l) < 2 ^ 31 ->
  wp (isix_sem_wait a timeout) (fun r s' => r = (Blocked, k_jiffies s) /\ sched_inv s' /\
    sem_view s' a = Some (0, prio_insert (k_tasks s) (t_prio oc) (k_currp s) l) /\
    (exists o', k_tasks s' = <[k_currp s := o']> (k_tasks s) /\ t_state o' = OSTHR_STATE_WTSEM /\
       t_real_prio o' = t_real_prio oc) /\
    (forall x, remaining s' x =
       if decide (x = k_currp s /\ timeout <> ISIX_TIME_INFINITE) then Some timeout else remaining s x) /\
    k_pendsv s' = true /\ k_critical_count s' = k_critical_count s /\ same_ctl s s' /\
    same_waiting_but (QSem a) s s') s.
Proof.
  intros Hc Ha Hv Htm Hlen. unfold isix_sem_wait. rewrite (proj2 (Z.eqb_neq a _)) by done.
  unfold ISIX_TIME_DONTWAIT in *. rewrite (proj2 (Z.eqb_neq timeout _)) by lia.
  wp_step. unfold isix_get_jiffies. wp_step. wp_step.
  eapply wp_mono; [apply (sem_wait_round_blocks a timeout (k_jiffies s) l oc s); try done; apply wait_goes_on_start; lia|].
  intros r s' (-> & ? & ? & ? & Hrem & ?). wp_step. split_and!; try done; try tauto.
  intros x. rewrite Hrem, Z.sub_diag. change (u32 0) with 0. by rewrite Z.sub_0_r.
Qed.

(** C8: [isix_sem_wait] without a free token blocks the caller: it leaves the ready
    list, joins the waiters of the semaphore behind those of its priority and before
    those of lower priority, will be woken by the clock after exactly [timeout] ticks
    unless the timeout is infinite, and a context switch is requested. *)
Theorem sem_wait_blocks a timeout l oc s :
  task_context oc s -> a <> NULL -> sem_view s a = Some (0, l) -> 0 <= timeout < ISIX_TIME_DONTWAIT ->
  Z.of_nat (length l) < 2 ^ 31 ->
  wp (isix_sem_wait a timeout) (fun r s' => r = (Blocked, k_jiffies s) /\ sched_inv s' /\
    sem_view s' a = Some (0, prio_insert (k_tasks s) (t_prio oc) (k_currp s) l) /\
    (exists o', k_tasks s' = <[k_currp s := o']> (k_tasks s) /\ t_state o' = OSTHR_STATE_WTSEM) /\
    (forall x, remaining s' x =
       if decide (x = k_currp s /\ timeout <> ISIX_TIME_INFINITE) then Some timeout else remaining s x) /\
    k_pendsv s' = true /\ k_critical_count s' = k_critical_count s) s.
Proof.
  intros Hc Ha Hv Ht Hl. eapply wp_mono; [by eapply sem_wait_blocks_spec|].
  intros r s' (? & ? & ? & (o' & ? & ? & _) & ? & ? & ? & _). split_and!; try done. by exists o'.
Qed.

(** Without a token a wait that must not block fails and changes nothing. *)
Lemma sem_trywait_fails a l s :
  sems_ok s -> a <> NULL -> sem_view s a = Some (0, l) -> Z.of_nat (length l) < 2 ^ 31 ->
  wp (isix_sem_wait a ISIX_TIME_DONTWAIT) (fun r s' => r = (Done ISIX_ETIMEOUT, 0) /\ same_clock s s' /\
    same_ctl s s' /\ k_critical_count s' = k_critical_count s) s.
Proof.
  intros Hsem Ha (o & Ho & Hl & Hz)%sem_view_Some Hlen.
  destruct (Hsem a l Hl) as (o' & Ho' & Hn & Hr). assert (o' = o) as -> by congruence. unfold in_i32 in Hr.
  unfold isix_sem_wait, sem_trydec. rewrite (proj2 (Z.eqb_neq a _)) by done. rewrite Z.eqb_refl.
  wp_step. wp_step. eapply wp_sem_get; [exact Ho|]. unfold atomic_sem_trydec.
  rewrite (i32_id (s_value o - 1)) by (unfold in_i32; lia). rewrite (proj2 (Z.ltb_lt _ _)) by lia.
  rewrite i32_id by (unfold in_i32; lia). replace (s_value o - 1 + 1) with (s_value o) by lia.
  wp_step. eapply wp_sem_upd; [exact Ho|]. wp_step. wp_step. rewrite (proj2 (Z.ltb_ge _ _)) by lia.
  assert (set_s_value (s_value o) o = o) as -> by (by destruct o).
  split_and!; [done| |done|done]. unfold same_clock. simpl. rewrite (insert_id _ _ _ Ho). by split_and!.
Qed.

End SemProofs.
