(* ===== verification/FifoProofs.v ===== *)
(** * The fifo is a bounded queue

    The ring buffer between the two semaphores holds the items in order of arrival;
    the tokens of [rx_sem] count the items, those of [tx_sem] the free slots. *)

From S2P Require Import Prelude.
From S2P Require Import DList.
From S2P Require Import Kernel.
From S2P Require Import Memory.
From S2P Require Import Scheduler.
From S2P Require Import Events.
From S2P Require Import Semaphore.
From S2P Require Import Fifo.
From S2P Require Import SchedInv.
From S2P Require Import SchedCore.
From S2P Require Import SchedTime.
From S2P Require Import SchedSleep.
From S2P Require Import SchedWake.
From S2P Require Import Alloc.
From S2P Require Import SemProofs.
From stdpp Require Import base numbers gmap list sorting.
From Stdlib Require Import ZArith Lia.
Local Open Scope Z_scope.

(** ** The ring *)

(** Slot [i] of [n] slots of [e] bytes, counted from slot [r]. *)
Definition slot (base e n r i : Z) : Z := base + ((r + i) mod n) * e.

(** The ring holds [xs], the first item in slot [r]. *)
Record ring (f : fifo) (m : gmap Z Z) (n r : Z) (xs : list (list Z)) : Prop := {
  rg_elem : 0 < f_elem_size f;
  rg_size : f_size f = n * f_elem_size f;
  rg_r : 0 <= r < n;
  rg_len : Z.of_nat (length xs) <= n;
  rg_rx : f_rx_p f = slot (f_mem_p f) (f_elem_size f) n r 0;
  rg_tx : f_tx_p f = slot (f_mem_p f) (f_elem_size f) n r (Z.of_nat (length xs));
  rg_items : forall i x, xs !! i = Some x ->
    mem_read (slot (f_mem_p f) (f_elem_size f) n r (Z.of_nat i)) (Z.to_nat (f_elem_size f)) m = Some x
}.

Lemma slot_range base e n r i : 0 < n -> 0 < e -> base <= slot base e n r i <= base + n * e - e.
Proof. intros Hn He. unfold slot. pose proof (Z.mod_pos_bound (r + i) n Hn). nia. Qed.

(** Different positions of the ring are different slots. *)
Lemma slot_apart base e n r i j :
  0 < n -> 0 < e -> 0 <= i < n -> 0 <= j < n -> i <> j ->
  slot base e n r i + e <= slot base e n r j \/ slot base e n r j + e <= slot base e n r i.
Proof.
  intros Hn He Hi Hj Hne. unfold slot.
  pose proof (Z.mod_pos_bound (r + i) n Hn). pose proof (Z.mod_pos_bound (r + j) n Hn).
  assert ((r + i) mod n <> (r + j) mod n) as Hd.
  { intros E. apply Hne. pose proof (Z.div_mod (r + i) n ltac:(lia)). pose proof (Z.div_mod (r + j) n ltac:(lia)).
    assert ((r + i) / n = (r + j) / n) by nia. lia. }
  destruct (Z.lt_ge_cases ((r + i) mod n) ((r + j) mod n)); [left|right]; nia.
Qed.

(** Advancing a pointer of the ring goes to the next slot. *)
Lemma fifo_advance_slot f n r i :
  0 < n -> 0 < f_elem_size f -> f_size f = n * f_elem_size f ->
  fifo_advance f (slot (f_mem_p f) (f_elem_size f) n r i) = slot (f_mem_p f) (f_elem_size f) n r (i + 1).
Proof.
  intros Hn He Hs. unfold fifo_advance, slot. rewrite Hs. set (e := f_elem_size f) in *.
  pose proof (Z.mod_pos_bound (r + i) n Hn) as Hm. set (k := (r + i) mod n) in *.
  assert ((r + (i + 1)) mod n = if k =? n - 1 then 0 else k + 1) as ->.
  { unfold k. pose proof (Z.div_mod (r + i) n ltac:(lia)) as Hd.
    destruct (Z.eqb_spec ((r + i) mod n) (n - 1)) as [E|E]; symmetry.
    - apply (Z.mod_unique _ _ ((r + i) / n + 1)); lia.
    - apply (Z.mod_unique _ _ ((r + i) / n)); lia. }
  destruct (Z.eqb_spec k (n - 1)) as [->|Hk].
  - rewrite (proj2 (Z.leb_le _ _)) by nia. lia.
  - rewrite (proj2 (Z.leb_gt _ _)) by nia. lia.
Qed.

Lemma slot_shift base e n r i : slot base e n ((r + 1) mod n) i = slot base e n r (1 + i).
Proof. unfold slot. rewrite Zplus_mod_idemp_l. do 3 f_equal. lia. Qed.

(** Storing an item in a ring that is not full appends it to the queue. *)
Lemma fifo_put_appends f m n r xs item :
  ring f m n r xs -> Z.of_nat (length xs) < n -> Z.of_nat (length item) = f_elem_size f ->
  let '(f', m') := fifo_put item f m in
  ring f' m' n r (xs ++ [item]) /\
  forall x, x < f_mem_p f \/ f_mem_p f + f_size f <= x -> m' !! x = m !! x.
Proof.
  intros [He Hs Hr Hl Hrx Htx Hit] Hfull Hlen. unfold fifo_put.
  rewrite take_ge by lia. split.
  - split; simpl; try done.
    + rewrite length_app. simpl. lia.
    + rewrite Htx, length_app, Nat2Z.inj_add. by apply fifo_advance_slot; [lia| |].
    + intros i x Hi. apply lookup_app_Some in Hi as [Hi|[Hge Hi]].
      * rewrite Htx. rewrite mem_read_write_other; [by apply Hit|].
        pose proof (lookup_lt_Some _ _ _ Hi). rewrite Z2Nat.id, Hlen by lia.
        apply slot_apart; lia.
      * apply list_lookup_singleton_Some in Hi as [Hi0 <-].
        replace (Z.of_nat i) with (Z.of_nat (length xs)) by lia. rewrite <- Htx.
        replace (Z.to_nat (f_elem_size f)) with (length item) by lia. apply mem_read_write.
  - intros x Hx. apply mem_write_other. rewrite Htx.
    pose proof (slot_range (f_mem_p f) (f_elem_size f) n r (Z.of_nat (length xs)) ltac:(lia) He). nia.
Qed.

(** Fetching from a ring that is not empty returns the oldest item and removes it. *)
Lemma fifo_get_removes f m n r x xs :
  ring f m n r (x :: xs) ->
  exists f', fifo_get_item f m = Some (x, f') /\ ring f' m n ((r + 1) mod n) xs.
Proof.
  intros [He Hs Hr Hl Hrx Htx Hit]. unfold fifo_get_item.
  rewrite Hrx. rewrite (Hit 0%nat x eq_refl : mem_read (slot _ _ _ _ 0) _ _ = _). simpl.
  eexists. split; [done|]. simpl in Hl. split; simpl; try done.
  - apply Z.mod_pos_bound. lia.
  - lia.
  - rewrite fifo_advance_slot by (done || lia). by rewrite slot_shift.
  - rewrite Htx, slot_shift. f_equal. simpl. lia.
  - intros i y Hi. rewrite slot_shift. specialize (Hit (S i) y Hi). rewrite <- Hit. do 2 f_equal. lia.
Qed.

Section FifoProofs.
Context {HS : Type} {AL : Allocator HS}.
Implicit Types s : kstate HS.

(** A semaphore without limit and event, with [v] tokens and no waiting task. *)
Definition sem_idle s (b v : Z) : Prop :=
  exists o, k_sems s !! b = Some o /\ s_value o = v /\ s_limit o = 0 /\ s_evt o = NULL /\
    k_q s !! QSem b = Some [].

(** A fifo for use from interrupts, without an event, of items of [e] bytes. *)
Record plain_fifo (e : Z) (f : fifo) : Prop := {
  pf_flags : has_bits (f_flags f) isix_fifo_f_noirq = false;
  pf_evt : f_evt f = NULL;
  pf_elem : f_elem_size f = e
}.

(** The fifo at [a] has [n] slots of [e] bytes and holds the items [xs]. *)
Record fifo_ok (a n e : Z) (xs : list (list Z)) s : Prop := {
  fo_ring : exists f r, k_fifos s !! a = Some f /\ ring f (k_mem s) n r xs /\ plain_fifo e f;
  fo_range : n < 2 ^ 31 - 1;
  fo_rx : sem_idle s (f_rx_sem a) (Z.of_nat (length xs));
  fo_tx : sem_idle s (f_tx_sem a) (n - Z.of_nat (length xs));
  fo_critical : 0 <= k_critical_count s
}.

(** What an operation on the semaphore [b] leaves alone. *)
Definition same_but_sem (b : Z) s s' : Prop :=
  k_fifos s' = k_fifos s /\ k_mem s' = k_mem s /\ k_q s' = k_q s /\ k_critical_count s' = k_critical_count s /\
  forall c, c <> b -> k_sems s' !! c = k_sems s !! c.

Lemma sem_idle_other b c v s s' : b <> c -> same_but_sem b s s' -> sem_idle s c v -> sem_idle s' c v.
Proof.
  intros Hne (_ & _ & Eq & _ & Es) (o & Ho & Hr). exists o. rewrite Es by done. rewrite Eq. tauto.
Qed.

Lemma sem_trywait_idle b v s :
  b <> NULL -> sem_idle s b v -> 0 <= v < 2 ^ 31 ->
  wp (isix_sem_trywait b) (fun r s' => same_but_sem b s s' /\
    if v =? 0 then r = ISIX_EBUSY /\ sem_idle s' b v else r = ISIX_EOK /\ sem_idle s' b (v - 1)) s.
Proof.
  intros Hb (o & Ho & Hv & Hlim & He & Hq) Hr. unfold isix_sem_trywait, sem_trydec.
  rewrite (proj2 (Z.eqb_neq b _)) by done. wp_step. wp_step. eapply wp_sem_get; [exact Ho|].
  unfold atomic_sem_trydec. rewrite Hv, (i32_id (v - 1)) by (unfold in_i32; lia).
  destruct (Z.eqb_spec v 0) as [E|Hne].
  - rewrite E. change (0 - 1 <? 0) with true. cbv iota. wp_step.
    eapply wp_sem_upd; [exact Ho|]. wp_step. wp_step. split; [|split; [done|]].
    + split_and!; try done. intros c Hc. simpl. by rewrite lookup_insert_ne.
    + eexists. split; [apply lookup_insert_eq|]. done.
  - rewrite (proj2 (Z.ltb_ge (v - 1) 0)) by lia. wp_step.
    eapply wp_sem_upd; [exact Ho|]. wp_step. wp_step. rewrite (proj2 (Z.ltb_lt 0 v)) by lia.
    split; [|split; [done|]].
    + split_and!; try done. intros c Hc. simpl. by rewrite lookup_insert_ne.
    + eexists. split; [apply lookup_insert_eq|]. done.
Qed.

Lemma sem_signal_idle b v isr s :
  b <> NULL -> sem_idle s b v -> 0 <= v < 2 ^ 31 - 1 -> 0 <= k_critical_count s ->
  wp (_isixp_sem_signal b isr) (fun r s' => r = ISIX_EOK /\ same_but_sem b s s' /\ sem_idle s' b (v + 1)) s.
Proof.
  intros Hb (o & Ho & Hv & Hlim & He & Hq) Hr Hc. unfold _isixp_sem_signal.
  rewrite (proj2 (Z.eqb_neq b _)) by done. wp_step. apply wp_enter_critical; [done|].
  wp_step. unfold _isixp_sem_fast_signal. eapply wp_sem_upd; [exact Ho|].
  wp_step. eapply wp_sem_get; [apply lookup_insert_eq|].
  assert (atomic_sem_inc (s_limit o) (s_value o) = v + 1) as ->.
  { unfold atomic_sem_inc. rewrite Hv, Hlim. apply i32_id. unfold in_i32. lia. }
  cbn [s_value set_s_value]. rewrite (proj2 (Z.leb_gt _ _)) by lia.
  wp_step. apply wp_exit_critical; [simpl; lia|].
  cbn [s_evt set_s_value]. rewrite He, Z.eqb_refl. cbn [negb andb].
  wp_step. wp_step. wp_step. split; [done|]. split.
  - split_and!; try done; [simpl; lia|]. intros c Hc'. simpl. by rewrite lookup_insert_ne.
  - eexists. split; [apply lookup_insert_eq|]. done.
Qed.

Lemma sem_addrs a : 0 < a -> f_rx_sem a <> NULL /\ f_tx_sem a <> NULL /\ f_rx_sem a <> f_tx_sem a.
Proof. unfold f_rx_sem, f_tx_sem, NULL. lia. Qed.

Lemma wp_fifo_get a f (Q : fifo -> kstate HS -> Prop) s :
  k_fifos s !! a = Some f -> Q f s -> wp (fifo_get a) Q s.
Proof. intros E HQ. unfold fifo_get. wp_step. wp_step. by eapply wp_of_option. Qed.

Lemma wp_fifo_upd a f g (Q : unit -> kstate HS -> Prop) s :
  k_fifos s !! a = Some f -> Q tt (upd_fifos (insert a (g f)) s) -> wp (fifo_upd a g) Q s.
Proof. intros E HQ. unfold fifo_upd. wp_step. eapply wp_fifo_get; [exact E|]. by wp_step. Qed.

(** Locking an interrupt safe fifo is a critical section. *)
Lemma wp_fifo_lock a f (Q : unit -> kstate HS -> Prop) s :
  k_fifos s !! a = Some f -> has_bits (f_flags f) isix_fifo_f_noirq = false -> 0 <= k_critical_count s ->
  Q tt (upd_critical_count (fun c => c + 1) (upd_masked (fun _ => true) s)) -> wp (_fifo_lock a) Q s.
Proof.
  intros E Hf Hc HQ. unfold _fifo_lock. wp_step. eapply wp_fifo_get; [exact E|]. rewrite Hf.
  by apply wp_enter_critical.
Qed.

Lemma wp_fifo_unlock a f (Q : unit -> kstate HS -> Prop) s :
  k_fifos s !! a = Some f -> has_bits (f_flags f) isix_fifo_f_noirq = false -> 0 < k_critical_count s ->
  Q tt (upd_masked (fun m => if k_critical_count s =? 1 then false else m)
          (upd_critical_count (fun c => c - 1) s)) -> wp (_fifo_unlock a) Q s.
Proof.
  intros E Hf Hc HQ. unfold _fifo_unlock. wp_step. eapply wp_fifo_get; [exact E|]. rewrite Hf.
  by apply wp_exit_critical.
Qed.

(** The copy into the ring changes the fifo and its buffer only. *)
Lemma fifo_store_spec a n e r f xs item s :
  k_fifos s !! a = Some f -> ring f (k_mem s) n r xs -> plain_fifo e f ->
  0 <= k_critical_count s -> Z.of_nat (length xs) < n -> Z.of_nat (length item) = e ->
  wp (fifo_store a item) (fun _ s' => k_sems s' = k_sems s /\ k_q s' = k_q s /\
    k_critical_count s' = k_critical_count s /\
    exists f', k_fifos s' !! a = Some f' /\ ring f' (k_mem s') n r (xs ++ [item]) /\ plain_fifo e f') s.
Proof.
  intros Hf Hring [Hfl He Hel] Hc Hlt Hlen. rewrite <- Hel in Hlen.
  pose proof (fifo_put_appends f (k_mem s) n r xs item Hring Hlt Hlen) as Hput.
  destruct (fifo_put item f (k_mem s)) as [f' m'] eqn:E. destruct Hput as [Hput _].
  assert (f_flags f' = f_flags f /\ f_evt f' = f_evt f /\ f_elem_size f' = f_elem_size f) as (Ef & Ee & Es)
    by (unfold fifo_put in E; by injection E as <- _).
  unfold fifo_store. wp_step. eapply wp_fifo_lock; [exact Hf|exact Hfl|done|].
  wp_step. eapply wp_fifo_get; [exact Hf|]. wp_step. wp_step. rewrite (proj2 (Nat.ltb_ge _ _)) by lia.
  match goal with |- context [fifo_put item f ?m] => change m with (k_mem s) end. rewrite E.
  wp_step. wp_step. wp_step. eapply wp_fifo_upd; [exact Hf|].
  eapply wp_fifo_unlock; [apply lookup_insert_eq|by rewrite Ef|simpl; lia|].
  split_and!; [done|done|simpl; lia|]. exists f'.
  split_and!; [apply lookup_insert_eq|done|split; congruence].
Qed.

Lemma fifo_fetch_spec a n e r f x xs s :
  k_fifos s !! a = Some f -> ring f (k_mem s) n r (x :: xs) -> plain_fifo e f -> 0 <= k_critical_count s ->
  wp (fifo_fetch a) (fun y s' => y = x /\ k_sems s' = k_sems s /\ k_q s' = k_q s /\
    k_critical_count s' = k_critical_count s /\
    exists f' r', k_fifos s' !! a = Some f' /\ ring f' (k_mem s') n r' xs /\ plain_fifo e f') s.
Proof.
  intros Hf Hring [Hfl He Hel] Hc.
  destruct (fifo_get_removes f (k_mem s) n r x xs Hring) as (f' & E & Hring').
  assert (f_flags f' = f_flags f /\ f_evt f' = f_evt f /\ f_elem_size f' = f_elem_size f) as (Ef & Ee & Es).
  { unfold fifo_get_item in E. by apply bind_Some in E as (y & _ & [= _ <-]). }
  unfold fifo_fetch. wp_step. eapply wp_fifo_lock; [exact Hf|exact Hfl|done|].
  wp_step. eapply wp_fifo_get; [exact Hf|]. wp_step. wp_step. wp_step. eapply wp_of_option; [exact E|].
  wp_step. eapply wp_fifo_upd; [exact Hf|]. cbn [snd].
  wp_step. eapply wp_fifo_unlock; [apply lookup_insert_eq|by rewrite Ef|simpl; lia|].
  wp_step. split_and!; [done|done|done|simpl; lia|]. exists f', ((r + 1) mod n).
  split_and!; [apply lookup_insert_eq|done|split; congruence].
Qed.

Lemma sem_idle_eq b v w s s' :
  k_sems s' = k_sems s -> k_q s' = k_q s -> v = w -> sem_idle s b v -> sem_idle s' b w.
Proof. intros Es Eq <- (o & Ho). exists o. by rewrite Es, Eq. Qed.

Lemma fifo_write_isr_spec a n e xs item s :
  0 < a -> fifo_ok a n e xs s -> Z.of_nat (length item) = e ->
  wp (isix_fifo_write_isr a item) (fun r s' =>
    if Z.of_nat (length xs) <? n then r = ISIX_EOK /\ fifo_ok a n e (xs ++ [item]) s'
    else r = ISIX_EFIFOFULL /\ fifo_ok a n e xs s') s.
Proof.
  intros Ha [(f & r & Hf & Hring & Hpf) Hn Hrx Htx Hc] Hlen. pose proof (pf_flags _ _ Hpf) as Hfl.
  destruct (sem_addrs a Ha) as (Hr0 & Ht0 & Hrt). pose proof (rg_len _ _ _ _ _ Hring) as Hle.
  unfold isix_fifo_write_isr. rewrite (proj2 (Z.eqb_neq a _)) by (unfold NULL; lia).
  wp_step. eapply wp_fifo_get; [exact Hf|]. rewrite Hfl.
  wp_step. eapply wp_mono; [apply (sem_trywait_idle _ _ s Ht0 Htx); lia|].
  intros rc s1 [Hs1 Hrc]. pose proof Hs1 as (E1 & E2 & E3 & E4 & E5).
  pose proof (sem_idle_other _ _ _ _ _ (not_eq_sym Hrt) Hs1 Hrx) as Hrx1.
  destruct (Z.eqb_spec (n - Z.of_nat (length xs)) 0) as [Hz|Hz].
  - destruct Hrc as [-> Htx1]. rewrite (proj2 (Z.ltb_ge (Z.of_nat (length xs)) n)) by lia.
    change (ISIX_EBUSY <? 0) with true. cbv iota. wp_step. split; [done|].
    split; try done; [|by rewrite E4]. exists f, r. by rewrite E1, E2.
  - destruct Hrc as [-> Htx1]. rewrite (proj2 (Z.ltb_lt (Z.of_nat (length xs)) n)) by lia.
    change (ISIX_EOK <? 0) with false. cbv iota.
    wp_step. eapply wp_mono; [apply (fifo_store_spec a n e r f xs item s1); rewrite ?E1, ?E2, ?E4; done || lia|].
    intros [] s2 (Es2 & Eq2 & Ec2 & (f2 & Hf2 & Hring2 & Hpf2)).
    pose proof (sem_idle_eq _ _ _ _ s2 Es2 Eq2 eq_refl Hrx1) as Hrx2.
    pose proof (sem_idle_eq _ _ _ _ s2 Es2 Eq2 eq_refl Htx1) as Htx2.
    wp_step. unfold isix_sem_signal_isr.
    eapply wp_mono; [apply (sem_signal_idle _ _ true s2 Hr0 Hrx2); lia|].
    intros rc s3 (-> & Hs3 & Hrx3). pose proof Hs3 as (F1 & F2 & F3 & F4 & F5).
    wp_step. unfold _isixp_fifo_rxavail_event_raise. wp_step.
    eapply wp_fifo_get; [rewrite F1; exact Hf2|]. rewrite (pf_evt _ _ Hpf2), Z.eqb_refl. cbn [negb andb]. wp_step. wp_step.
    split; [done|]. split; [|done| | |lia].
    + exists f2, r. by rewrite F1, F2.
    + eapply sem_idle_eq; [done|done| |exact Hrx3]. rewrite length_app. simpl. lia.
    + eapply sem_idle_eq; [done|done| |exact (sem_idle_other _ _ _ _ _ Hrt Hs3 Htx2)].
      rewrite length_app. simpl. lia.
Qed.

Lemma fifo_read_isr_spec a n e xs s :
  0 < a -> fifo_ok a n e xs s ->
  wp (isix_fifo_read_isr a) (fun r s' =>
    match xs with
    | [] => r = (ISIX_EFIFOEMPTY, None) /\ fifo_ok a n e [] s'
    | x :: xs => r = (ISIX_EOK, Some x) /\ fifo_ok a n e xs s'
    end) s.
Proof.
  intros Ha [(f & r & Hf & Hring & Hpf) Hn Hrx Htx Hc]. pose proof (pf_flags _ _ Hpf) as Hfl.
  destruct (sem_addrs a Ha) as (Hr0 & Ht0 & Hrt). pose proof (rg_len _ _ _ _ _ Hring) as Hle.
  unfold isix_fifo_read_isr. rewrite (proj2 (Z.eqb_neq a _)) by (unfold NULL; lia).
  wp_step. eapply wp_fifo_get; [exact Hf|]. rewrite Hfl.
  wp_step. eapply wp_mono; [apply (sem_trywait_idle _ _ s Hr0 Hrx); lia|].
  intros rc s1 [Hs1 Hrc]. pose proof Hs1 as (E1 & E2 & E3 & E4 & E5).
  pose proof (sem_idle_other _ _ _ _ _ Hrt Hs1 Htx) as Htx1.
  destruct xs as [|x xs].
  - destruct Hrc as [-> Hrx1]. change (ISIX_EBUSY <? 0) with true. cbv iota. wp_step. split; [done|].
    split; try done; [|by rewrite E4]. exists f, r. by rewrite E1, E2.
  - rewrite (proj2 (Z.eqb_neq (Z.of_nat (length (x :: xs))) 0)) in Hrc by (simpl; lia).
    destruct Hrc as [-> Hrx1]. change (ISIX_EOK <? 0) with false. cbv iota. simpl in Hle.
    wp_step. eapply wp_mono; [apply (fifo_fetch_spec a n e r f x xs s1); rewrite ?E1, ?E2, ?E4; done|].
    intros y s2 (-> & Es2 & Eq2 & Ec2 & (f2 & r2 & Hf2 & Hring2 & Hpf2)).
    pose proof (sem_idle_eq _ _ _ _ s2 Es2 Eq2 eq_refl Hrx1) as Hrx2.
    pose proof (sem_idle_eq _ _ _ _ s2 Es2 Eq2 eq_refl Htx1) as Htx2.
    wp_step. unfold isix_sem_signal_isr.
    eapply wp_mono; [apply (sem_signal_idle _ _ true s2 Ht0 Htx2); simpl; lia|].
    intros rc s3 (-> & Hs3 & Htx3). pose proof Hs3 as (F1 & F2 & F3 & F4 & F5).
    wp_step. split; [done|]. split; [|done| | |lia].
    + exists f2, r2. by rewrite F1, F2.
    + eapply sem_idle_eq; [done|done| |exact (sem_idle_other _ _ _ _ _ (not_eq_sym Hrt) Hs3 Hrx2)]. simpl. lia.
    + eapply sem_idle_eq; [done|done| |exact Htx3]. simpl. lia.
Qed.

(** ** Creation *)

(** Objects, lists and memory are the same. *)
Definition same_store s s' : Prop :=
  k_fifos s' = k_fifos s /\ k_sems s' = k_sems s /\ k_q s' = k_q s /\ k_mem s' = k_mem s /\
  k_critical_count s' = k_critical_count s.

(** A new fifo is empty; without memory nothing is created. *)
Lemma fifo_create_spec n e s :
  may_allocate s -> 0 < n < 2 ^ 31 - 1 -> 0 < e -> n * e < 2 ^ 31 -> 0 <= fst (heap_alloc 88 (k_heap s)) ->
  wp (isix_fifo_create_ex n e 0) (fun a s' =>
    (a = NULL /\ same_store s s') \/ (0 < a /\ fifo_ok a n e [] s')) s.
Proof.
  intros Hm Hn He Hne Ha. unfold isix_fifo_create_ex. wp_step. apply isix_alloc_spec; [done|]. intros m1.
  set (s1 := with_heap _ m1 s). assert (may_allocate s1) as Hm1 by done.
  set (a := fst _) in *. destruct (Z.eqb_spec a NULL) as [->|Hnull]; [wp_step; by left|].
  cbv zeta. wp_step. apply isix_alloc_spec; [done|]. intros m2. set (p := fst _). set (s2 := with_heap _ m2 s1).
  assert (may_allocate s2) as Hm2 by done.
  destruct (Z.eqb_spec p NULL) as [Ep|Hp].
  { wp_step. apply isix_free_spec; [done|]. intros m3. wp_step. by left. }
  assert (0 < a) as Hpos by (unfold NULL in Hnull; lia). destruct (sem_addrs a Hpos) as (Hr0 & Ht0 & Hrt).
  wp_step. wp_step. unfold isix_sem_create, isix_sem_create_limited, q_init. change (0 <? 0) with false.
  rewrite (proj2 (Z.eqb_neq (f_rx_sem a) NULL)), (proj2 (Z.eqb_neq (f_tx_sem a) NULL)) by done. cbn [negb].
  repeat first [rewrite (proj2 (Z.eqb_neq (f_rx_sem a) NULL)) by done | rewrite (proj2 (Z.eqb_neq (f_tx_sem a) NULL)) by done | wp_step].
  right. split; [done|]. destruct Hm2 as (_ & Hc2 & _). rewrite i32_id by (unfold in_i32; nia).
  split; [|lia| | |exact Hc2].
  - eexists _, 0. split; [apply lookup_insert_eq|]. split; [|by split]. split; simpl; try done; try lia.
    + unfold slot. rewrite Z.mod_0_l by lia. lia.
    + unfold slot. rewrite Z.mod_0_l by lia. lia.
  - exists (Sem 0 0 true NULL 0). split.
    + simpl. rewrite lookup_insert_ne by done. apply lookup_insert_eq.
    + split_and!; try done. simpl. rewrite lookup_insert_ne by (intros [=]; congruence). apply lookup_insert_eq.
  - eexists. split; [apply lookup_insert_eq|]. split_and!; [simpl; lia|done|done|apply lookup_insert_eq].
Qed.

(** C24: [isix_fifo_write_isr] implements the enqueue operation of a bounded queue: the
    item is appended when the fifo is not full; a full fifo is left unchanged and
    [ISIX_EFIFOFULL] is returned.  The number of items and the number of free slots
    stay the token counts of the two semaphores. *)
Theorem fifo_write_isr_enqueues a n e xs item s :
  0 < a -> fifo_ok a n e xs s -> Z.of_nat (length item) = e ->
  wp (isix_fifo_write_isr a item) (fun r s' =>
    if Z.of_nat (length xs) <? n then r = ISIX_EOK /\ fifo_ok a n e (xs ++ [item]) s'
    else r = ISIX_EFIFOFULL /\ fifo_ok a n e xs s') s.
Proof. apply fifo_write_isr_spec. Qed.

(** C25: [isix_fifo_read_isr] implements the dequeue operation: the oldest item is
    returned and removed; an empty fifo is left unchanged and [ISIX_EFIFOEMPTY] is
    returned. *)
Theorem fifo_read_isr_dequeues a n e xs s :
  0 < a -> fifo_ok a n e xs s ->
  wp (isix_fifo_read_isr a) (fun r s' =>
    match xs with
    | [] => r = (ISIX_EFIFOEMPTY, None) /\ fifo_ok a n e [] s'
    | x :: xs => r = (ISIX_EOK, Some x) /\ fifo_ok a n e xs s'
    end) s.
Proof. apply fifo_read_isr_spec. Qed.

End FifoProofs.
