(* ===== verification/EventProofs.v ===== *)
(** * Correctness of the event flags

    Setting event bits wakes exactly the waiting tasks whose condition holds. *)

From S2P Require Import Prelude.
From S2P Require Import DList.
From S2P Require Import Kernel.
From S2P Require Import Scheduler.
From S2P Require Import Events.
From S2P Require Import Semaphore.
From S2P Require Import SchedInv.
From S2P Require Import SchedCore.
From S2P Require Import SchedTime.
From S2P Require Import SchedSleep.
From S2P Require Import SchedWake.
From S2P Require Import WakeAll.
From stdpp Require Import base numbers gmap list sorting.
From Stdlib Require Import ZArith Lia.
Local Open Scope Z_scope.

(** The condition task [t] waits for holds for the event bits [bits]. *)
Definition matched (ts : gmap Z task) (bits t : Z) : bool :=
  match ts !! t with Some o => check_cond2 bits (t_obj o) | None => false end.

(** Bits task [t] wants to have cleared when it is woken. *)
Definition clears (ts : gmap Z task) (t : Z) : Z :=
  match ts !! t with
  | Some o => if has_bits (t_obj o) ISIX_EVENT_CTRL_CLEAR_EXIT_FLAG
              then Z.land (t_obj o) ISIX_EVENT_EVBITS else 0
  | None => 0
  end.

Definition woken_of (ts : gmap Z task) (bits : Z) (l : list Z) : list Z :=
  filter (fun t => matched ts bits t = true) l.
Definition kept_of (ts : gmap Z task) (bits : Z) (l : list Z) : list Z :=
  filter (fun t => matched ts bits t = false) l.

Lemma matched_frame ts ts' bits l :
  (forall t, t ∈ l -> ts' !! t = ts !! t) ->
  woken_of ts' bits l = woken_of ts bits l /\ kept_of ts' bits l = kept_of ts bits l /\
  forall c, foldl (fun c t => Z.lor c (clears ts' t)) c (woken_of ts bits l) =
            foldl (fun c t => Z.lor c (clears ts t)) c (woken_of ts bits l).
Proof.
  intros H. unfold woken_of, kept_of. induction l as [|x l IH]; [done|].
  destruct IH as (I1 & I2 & I3); [intros t Ht; apply H; by right|].
  assert (matched ts' bits x = matched ts bits x) as E by (unfold matched; by rewrite H by left).
  rewrite !filter_cons, E, I1, I2. split_and!; [done|done|].
  intros c. destruct (decide (matched ts bits x = true)); [|apply I3]. simpl.
  unfold clears at 2 4. rewrite (H x) by left. apply I3.
Qed.

(** The word a waiting task leaves for the setter of the bits. *)
Definition wait_word (bits : Z) (clear all : bool) : Z :=
  Z.lor (Z.lor bits (if all then ISIX_EVENT_CTRL_ALL_MATCH_FLAG else 0))
    (if clear then ISIX_EVENT_CTRL_CLEAR_EXIT_FLAG else 0).

(** It encodes the condition exactly. *)
Lemma wait_word_cond b bits clear all :
  in_u32 bits -> has_bits bits ISIX_EVENT_CTRL_BITS = false ->
  check_cond2 b (wait_word bits clear all) = check_cond b bits all.
Proof.
  intros Hb Hc. unfold has_bits in Hc. apply negb_false_iff, Z.eqb_eq in Hc.
  assert (Z.land bits ISIX_EVENT_EVBITS = bits) as Hev.
  { rewrite <- (Z.mod_small bits (2 ^ 32)) at 2 by exact Hb. rewrite <- Z.land_ones by lia.
    change (Z.ones 32) with (Z.lor ISIX_EVENT_EVBITS ISIX_EVENT_CTRL_BITS).
    by rewrite Z.land_lor_distr_r, Hc, Z.lor_0_r. }
  assert (Z.land bits ISIX_EVENT_CTRL_ALL_MATCH_FLAG = 0) as Hall.
  { change ISIX_EVENT_CTRL_ALL_MATCH_FLAG with (Z.land ISIX_EVENT_CTRL_BITS ISIX_EVENT_CTRL_ALL_MATCH_FLAG).
    by rewrite Z.land_assoc, Hc. }
  unfold check_cond2, wait_word, has_bits. rewrite !Z.land_lor_distr_l, Hev, Hall.
  by destruct all, clear; simpl; rewrite ?Z.lor_0_r.
Qed.

Section EventProofs.
Context {HS : Type} {AL : Allocator HS}.
Implicit Types s : kstate HS.

Lemma wp_ev_get e b (Q : Z -> kstate HS -> Prop) s : k_evs s !! e = Some b -> Q b s -> wp (ev_get e) Q s.
Proof. intros E HQ. unfold ev_get. wp_step. wp_step. by eapply wp_of_option. Qed.

Lemma wp_ev_set e b b' (Q : unit -> kstate HS -> Prop) s :
  k_evs s !! e = Some b -> Q tt (upd_evs (insert e b') s) -> wp (ev_set e b') Q s.
Proof. intros E HQ. unfold ev_set. wp_step. eapply wp_ev_get; [exact E|]. by wp_step. Qed.

Lemma event_set_loop_spec e bits : forall rest pre clr w s,
  sched_inv s -> k_q s !! QEvt e = Some (pre ++ rest) -> is_Some (k_tasks s !! w) -> w <> NULL ->
  wp (event_set_loop bits rest clr w) (fun r s' =>
    woken_from (QEvt e) bits (woken_of (k_tasks s) bits rest) (pre ++ kept_of (k_tasks s) bits rest) s s' /\
    fst r = foldl (fun c t => Z.lor c (clears (k_tasks s) t)) clr (woken_of (k_tasks s) bits rest) /\
    (snd r = w \/ snd r ∈ woken_of (k_tasks s) bits rest) /\
    (forall x, x = w \/ x ∈ woken_of (k_tasks s) bits rest -> prio_of (k_tasks s) (snd r) <= prio_of (k_tasks s) x)) s.
Proof.
  induction rest as [|t rest IH]; intros pre clr w s Hi Hl [ow How] Hw0; simpl.
  { wp_step. split_and!; [by apply woken_from_nil|done|by left|intros x [->|?%not_elem_of_nil]; done]. }
  pose proof Hi as (Hok & Hsem & Ht).
  destruct (r_at _ _ _ _ _ Hok _ _ t Hl) as (o & Ho & Hst); [set_solver|]. simpl in Hst.
  wp_step. eapply wp_task_get; [exact Ho|].
  pose proof (proj1 (r_qwf _ _ _ _ _ Hok) _ _ Hl) as Hnd.
  assert (matched (k_tasks s) bits t = check_cond2 bits (t_obj o)) as Em by (unfold matched; by rewrite Ho).
  unfold woken_of, kept_of. rewrite !filter_cons, Em.
  fold (woken_of (k_tasks s) bits rest). fold (kept_of (k_tasks s) bits rest).
  destruct (check_cond2 bits (t_obj o)) eqn:Ec; simpl.
  - assert (t ∉ pre ++ rest) as Hnt.
    { rewrite <- Permutation_middle in Hnd. by apply NoDup_cons in Hnd as [? _]. }
    eapply (wake_waiter _ _ (QEvt e) _ t); [done|exact Hl|set_solver|done|]. intros o1 s2 Ho1 _ Hnull R.
    assert (o1 = o) as -> by congruence. rewrite remove_node_split in R by done.
    destruct (rl_task _ _ _ _ _ _ _ R) as [pe Hts2].
    assert (k_tasks s2 !! t = Some (set_t_prio_elem pe (set_t_state OSTHR_STATE_READY (set_dmsg bits o)))) as Ht2
      by (by rewrite Hts2, lookup_insert_eq).
    destruct (matched_frame (k_tasks s) (k_tasks s2) bits rest) as (M1 & M2 & M3).
    { intros x Hx. rewrite Hts2, lookup_insert_ne; [done|]. intros ->. set_solver. }
    assert (t ∉ woken_of (k_tasks s) bits rest) as Htw by (unfold woken_of; rewrite list_elem_of_filter; set_solver).
    assert (is_Some (k_tasks s2 !! w)) as [ow2 How2].
    { rewrite Hts2, lookup_insert. case_decide; [by eexists|by exists ow]. }
    unfold _isixp_max_prio. wp_step. wp_step. eapply wp_task_get; [exact How2|]. wp_step.
    eapply wp_task_get; [exact Ht2|]. wp_step.
    match goal with |- wp (event_set_loop _ _ ?c ?v) _ _ => set (clr' := c); set (w' := v) end.
    assert (clr' = Z.lor clr (clears (k_tasks s) t)) as Eclr.
    { unfold clr', clears. rewrite Ho. destruct (has_bits _ _); [done|]. by rewrite Z.lor_0_r. }
    assert (w' = w \/ w' = t) as Hw' by (unfold w'; destruct (_ <? _); tauto).
    assert (forall x, prio_of (k_tasks s2) x = prio_of (k_tasks s) x) as Hp2 by (intros x; by eapply released_prio).
    assert (prio_of (k_tasks s) w' <= prio_of (k_tasks s) w /\ prio_of (k_tasks s) w' <= prio_of (k_tasks s) t) as Hwp.
    { rewrite <- !Hp2. unfold w', prio_of. rewrite How2, Ht2.
      destruct (Z.ltb_spec (t_prio (set_t_prio_elem pe (set_t_state OSTHR_STATE_READY (set_dmsg bits o)))) (t_prio ow2));
        rewrite ?How2, ?Ht2; lia. }
    eapply wp_mono; [apply (IH pre clr' w' s2 (rl_inv _ _ _ _ _ _ _ R) (rl_list _ _ _ _ _ _ _ R))|].
    + destruct Hw' as [-> | ->]; by eexists.
    + by destruct Hw' as [-> | ->].
    + intros r s'. rewrite M1, M2, M3. intros (Hew & Hfst & Hsnd & Hmin). split_and!.
      * by eapply woken_from_cons.
      * by rewrite Hfst, Eclr.
      * destruct Hsnd as [-> |Hsnd]; [|right; by right]. destruct Hw' as [-> | ->]; [by left|right; left].
      * setoid_rewrite Hp2 in Hmin. pose proof (Hmin w' (or_introl eq_refl)) as Hm'.
        intros x. rewrite elem_of_cons. intros [->|[->|Hx]]; [lia|lia|auto].
  - rewrite (app_assoc _ [t] _ : pre ++ t :: rest = (pre ++ [t]) ++ rest) in Hl.
    eapply wp_mono; [apply (IH (pre ++ [t]) clr w s Hi Hl); [by exists ow|done]|].
    intros r s'. rewrite <- app_assoc. done.
Qed.

(** The event [e] got the bits: the tasks it woke, what is left of the bits, and the task
    that may have to run. *)
Record bits_set (e b bits : Z) (l : list Z) (w : Z) s s' : Prop := {
  bs_woken : exists s1 s2, s1 = upd_evs (insert e (Z.lor b bits)) s /\
    woken_from (QEvt e) (Z.lor b bits) (woken_of (k_tasks s) (Z.lor b bits) l) (kept_of (k_tasks s) (Z.lor b bits) l) s1 s2 /\
    s' = upd_evs (insert e (Z.ldiff (Z.lor b bits)
      (foldl (fun c t => Z.lor c (clears (k_tasks s) t)) 0 (woken_of (k_tasks s) (Z.lor b bits) l)))) s2;
  bs_next : w = k_currp s \/ w ∈ woken_of (k_tasks s) (Z.lor b bits) l;
  bs_highest : forall x, x = k_currp s \/ x ∈ woken_of (k_tasks s) (Z.lor b bits) l ->
    prio_of (k_tasks s) w <= prio_of (k_tasks s) x
}.

Lemma event_set_spec e b bits l s :
  sched_inv s -> k_evs s !! e = Some b -> k_q s !! QEvt e = Some l ->
  is_Some (k_tasks s !! k_currp s) ->
  wp (event_set e bits) (fun w s' => bits_set e b bits l w s s') s.
Proof.
  intros Hi Hb Hl Hc. pose proof Hi as (Hok & _ & _).
  assert (k_currp s <> NULL) as Hnull.
  { intros E. rewrite E, (r_null _ _ _ _ _ Hok) in Hc. by destruct Hc. }
  unfold event_set. wp_step. eapply wp_ev_get; [exact Hb|]. cbv zeta.
  wp_step. eapply wp_ev_set; [exact Hb|]. wp_step. wp_step.
  wp_step. eapply wp_q_list; [exact Hl|]. set (s1 := upd_evs _ s).
  destruct (same_clock_inv s s1) as [Hi1 Hrem1]; [done|done|].
  wp_step. eapply wp_mono; [apply (event_set_loop_spec e (Z.lor b bits) l [] 0 (k_currp s) s1 Hi1 Hl Hc Hnull)|].
  intros [clr w] s2 (Hew & Hclr & Hw & Hmin). simpl in Hclr, Hw, Hmin.
  assert (k_evs s2 !! e = Some (Z.lor b bits)) as He2.
  { destruct (ew_frame _ _ _ _ _ _ Hew) as [Hctl _]. destruct (same_ctl_elim _ _ Hctl) as (_ & _ & _ & _ & _ & ->).
    apply lookup_insert_eq. }
  wp_step. eapply wp_ev_set; [exact He2|]. wp_step. cbn [fst snd]. split; [|done|done].
  exists s1, s2. split_and!; [done|exact Hew|by rewrite Hclr].
Qed.

(** C12: Setting event bits wakes exactly the waiting tasks whose condition (any or all
    of the bits they wait for) holds for the new bit set: they leave the wait list and
    any time list, become ready and receive the bits; the other waiting tasks stay in
    order.  Afterwards the event holds the old and new bits without those the woken
    tasks asked to have cleared. *)
Theorem event_set_wakes_matching e b bits l s :
  sched_inv s -> k_evs s !! e = Some b -> k_q s !! QEvt e = Some l ->
  is_Some (k_tasks s !! k_currp s) ->
  wp (event_set e bits) (fun w s' =>
    let ws := woken_of (k_tasks s) (Z.lor b bits) l in
    sched_inv s' /\ k_q s' !! QEvt e = Some (kept_of (k_tasks s) (Z.lor b bits) l) /\
    (forall t, t ∈ ws -> exists o, k_tasks s' !! t = Some o /\
       t_state o = OSTHR_STATE_READY /\ t_obj o = u32 (Z.lor b bits) /\ remaining s' t = None) /\
    (forall t, t ∉ ws -> k_tasks s' !! t = k_tasks s !! t /\ remaining s' t = remaining s t) /\
    k_evs s' !! e = Some (Z.ldiff (Z.lor b bits) (foldl (fun c t => Z.lor c (clears (k_tasks s) t)) 0 ws)) /\
    (w = k_currp s \/ w ∈ ws)) s.
Proof.
  intros Hi Hb Hl Hc. eapply wp_mono; [by eapply event_set_spec|].
  intros w s' [(s1 & s2 & -> & [Hi2 Hf2 Hl2 Hw2 Ho2 _] & ->) Hw _]. set (s1 := upd_evs _ s) in *.
  destruct (same_clock_inv s s1) as [Hi1 Hrem1]; [done|done|].
  set (s3 := upd_evs _ s2). destruct (same_clock_inv s2 s3) as [Hi3 Hrem3]; [done|done|].
  split_and!; [done|exact Hl2| | |apply lookup_insert_eq|exact Hw].
  - intros t Ht. rewrite Hrem3. destruct (Hw2 t Ht) as (_ & o & _ & ? & ? & ? & _ & _ & ?). by exists o.
  - intros t Ht. rewrite Hrem3. destruct (Ho2 t Ht) as [Ht2 Hr2]. split; [exact Ht2|]. by rewrite Hr2, Hrem1.
Qed.

(** [isix_event_set] by a task: besides what [event_set] does, the caller gives up the
    processor when a woken task has a higher priority. *)
Record event_posted (e b bits : Z) (l : list Z) (oc : task) s s' : Prop := {
  ep_inv : sched_inv s';
  ep_ctl : ctl (upd_evs (fun _ => ∅) s') = ctl (upd_evs (fun _ => ∅) s);
  ep_count : k_critical_count s' = k_critical_count s;
  ep_list : k_q s' !! QEvt e = Some (kept_of (k_tasks s) (Z.lor b bits) l);
  ep_waiting : same_waiting_but (QEvt e) s s';
  ep_evs : exists b', k_evs s' = <[e := b']> (k_evs s);
  ep_woken : forall t, t ∈ woken_of (k_tasks s) (Z.lor b bits) l ->
    exists o0 o, k_tasks s !! t = Some o0 /\ k_tasks s' !! t = Some o /\ t_state o = OSTHR_STATE_READY /\
      t_obj o = u32 (Z.lor b bits) /\ t_real_prio o = t_real_prio o0 /\
      (t_prio o0 < t_prio oc -> k_pendsv s' = true);
  ep_other : forall t, t ∉ woken_of (k_tasks s) (Z.lor b bits) l -> k_tasks s' !! t = k_tasks s !! t
}.

Lemma isixp_event_set_spec e b bits l oc s :
  sched_inv s -> k_schrun s = true -> 0 <= k_critical_count s ->
  k_tasks s !! k_currp s = Some oc -> active (t_state oc) = true ->
  e <> NULL -> k_evs s !! e = Some b -> k_q s !! QEvt e = Some l ->
  has_bits bits ISIX_EVENT_CTRL_BITS = false ->
  wp (_isixp_event_set e bits false) (fun r s' => event_posted e b bits l oc s s' /\ k_evs s' !! e = Some r) s.
Proof.
  intros Hi Hrun Hcc Hoc Hac He Hb Hl Hctrl. unfold _isixp_event_set.
  rewrite (proj2 (Z.eqb_neq e _)), Hctrl by done. wp_step. apply wp_enter_critical; [done|].
  set (s0 := upd_critical_count _ _). destruct (same_clock_inv s s0) as [Hi0 _]; [done|done|].
  wp_step. eapply wp_mono; [apply (event_set_spec e b bits l s0); try done; by exists oc|].
  intros w s' [(s1 & s2 & -> & Hew & ->) Hw Hmin]. change (k_tasks s0) with (k_tasks s) in *.
  change (k_currp s0) with (k_currp s) in *. destruct Hew as [Hi2 (Hctl2 & Ecc2 & _) Hl2 Hw2 Ho2 Hq2].
  change (k_critical_count _) with (k_critical_count s + 1) in Ecc2 at 2.
  set (ws := woken_of (k_tasks s) (Z.lor b bits) l) in *. set (s3 := upd_evs _ s2).
  pose proof (same_ctl_elim _ _ Hctl2) as (E1 & E2 & E3 & E4 & E5 & E6). change (k_currp s2 = k_currp s) in E1.
  destruct (same_clock_inv s2 s3) as [Hi3 _]; [done|done|].
  assert (k_currp s ∉ ws) as Hcw.
  { unfold ws, woken_of. rewrite list_elem_of_filter. intros [_ Hin].
    destruct (r_at _ _ _ _ _ (proj1 Hi) _ _ _ Hl Hin) as (o & Ho & Hst). simpl in Hst.
    assert (o = oc) as -> by congruence. by rewrite Hst in Hac. }
  assert (k_tasks s3 !! k_currp s3 = Some oc) as Hoc3.
  { change (k_tasks s2 !! k_currp s2 = Some oc). rewrite E1. by rewrite (proj1 (Ho2 _ Hcw)). }
  assert (exists ow, k_tasks s3 !! w = Some ow /\ t_prio ow = prio_of (k_tasks s) w) as (ow & How & Hpw).
  { destruct Hw as [-> |Hin].
    - exists oc. split; [|unfold prio_of; by rewrite Hoc].
      change (k_tasks s2 !! k_currp s = Some oc). by rewrite (proj1 (Ho2 _ Hcw)).
    - destruct (Hw2 w Hin) as (o0 & o & Ho0 & Ho & _ & _ & _ & Hpr & _). exists o. split; [done|].
      unfold prio_of. change (k_tasks s !! w = Some o0) in Ho0. by rewrite Ho0. }
  wp_step. eapply wp_ev_get; [apply lookup_insert_eq|]. cbn [negb].
  wp_step. eapply (do_reschedule_spec w ow oc s3); try done.
  - intros ->. by rewrite (r_null _ _ _ _ _ (proj1 Hi3)) in How.
  - change (k_schrun s2 = true). by rewrite E2.
  - change (0 < k_critical_count s2). lia.
  - wp_step. set (s4 := yielded _ _).
    destruct (same_clock_inv s3 s4) as [Hi4 _]; [apply same_clock_yielded|done|].
    split; [|apply lookup_insert_eq]. split; try done.
    + change ((debt s2, k_currp s2, k_schrun s2, k_sched_lock s2, k_mtxs s2, k_ml s2, ∅ : gmap Z Z, bystanders s2) = ctl (upd_evs (fun _ => ∅) s)).
      by rewrite E1, E2, E3, E4, E5, (same_ctl_debt _ _ Hctl2), (same_ctl_bystanders _ _ Hctl2).
    + simpl. lia.
    + simpl. rewrite E6. simpl. rewrite insert_insert_eq. by eexists.
    + intros t Ht. destruct (Hw2 t Ht) as (o0 & o & Ho0 & Ho & Hst & Hob & Hrp & _ & _). change (k_tasks s !! t = Some o0) in Ho0.
      exists o0, o. split_and!; try done.
      intros Hlt. simpl. rewrite Hpw. specialize (Hmin t (or_intror Ht)).
      unfold prio_of in Hmin at 2. rewrite Ho0 in Hmin. by rewrite (proj2 (Z.ltb_lt _ _)) by lia.
    + intros t Ht. exact (proj1 (Ho2 t Ht)).
Qed.

(** ** Waiting for bits *)

(** The caller has left the ready list and the semaphores are the same. *)
Definition left_ready (oc : task) s s' : Prop :=
  k_sems s' = k_sems s /\
  forall p, rq s' p = if decide (p = t_prio oc) then remove_node (k_currp s) (rq s p) else rq s p.

(** The blocking part of [isix_event_wait] and [isix_event_sync]. *)
Lemma event_block_spec {R} (k : K HS R) Q e l tout w oc s :
  sched_inv s -> k_tasks s !! k_currp s = Some oc -> active (t_state oc) = true ->
  k_q s !! QEvt e = Some l -> 0 <= tout < 2 ^ 32 ->
  (forall s', sched_inv s' /\ k_q s' !! QEvt e = Some (l ++ [k_currp s]) /\
     same_waiting_but (QEvt e) s s' /\
     (exists o', k_tasks s' = <[k_currp s := o']> (k_tasks s) /\ t_state o' = OSTHR_STATE_WTEVT /\
        t_obj o' = w /\ t_prio o' = t_prio oc /\ t_real_prio o' = t_real_prio oc) /\
     (forall x, remaining s' x =
        if decide (x = k_currp s /\ tout <> ISIX_TIME_INFINITE) then Some tout else remaining s x) /\
     k_critical_count s' = k_critical_count s /\ same_ctl s s' /\ left_ready oc s s' ->
   wp k Q s') ->
  wp (task_upd (k_currp s) (set_t_wait_aborted false);;;
      _isixp_set_sleep_timeout OSTHR_STATE_WTEVT tout;;;
      q_insert_end (QEvt e) (k_currp s);;;
      task_upd (k_currp s) (set_t_obj w);;; k) Q s.
Proof.
  intros (Hok & Hsem & Ht) Hoc Ha Hl Htm HQ. set (o1 := set_t_wait_aborted false oc).
  set (s1 := upd_tasks (insert (k_currp s) o1) s).
  wp_step. eapply wp_task_upd; [exact Hoc|]. fold o1 s1.
  assert (ready_inv None s1) as Hok1.
  { eapply ready_ok_upd_same; [exact Hok|exact Hoc|done| |done]. intros h Hat. by destruct h. }
  assert (timed_state (t_state oc) = false) as Hun by (by destruct (t_state oc)).
  destruct (time_inv_frame s s1 Ht) as (Ht1 & _ & _ & Hrem1); [done|done|done| |].
  { intros t Hon. simpl. rewrite lookup_insert_ne; [done|]. intros <-.
    by apply (untimed _ _ _ Ht Hoc Hun) in Hon. }
  wp_step. eapply wp_mono; [apply (set_sleep_timeout_spec OSTHR_STATE_WTEVT tout o1 s1); try done; apply lookup_insert_eq|].
  intros [] s2 (Ht2 & (o2 & A) & Hrem2). change (k_currp s1) with (k_currp s) in *.
  destruct (sl_task _ _ _ _ _ A) as [j ->]. set (o2 := set_t_jiffies j _) in *.
  pose proof (sl_tasks _ _ _ _ _ A) as Ets. simpl in Ets. rewrite insert_insert_eq in Ets.
  pose proof (sl_inv _ _ _ _ _ A) as Hok2. change (k_currp s1) with (k_currp s) in Hok2.
  assert (k_q s2 !! QEvt e = Some l) as Hl2 by (by rewrite (sl_waiting _ _ _ _ _ A)).
  destruct (seq_insert_with_ok (fun l => l ++ [k_currp s]) (k_currp s) (k_q s2) (QEvt e) l
    (r_qwf _ _ _ _ _ Hok2) (r_detached _ _ _ _ _ Hok2 _ eq_refl) Hl2) as [Hins _];
    [symmetry; apply Permutation_cons_append|].
  wp_step. unfold q_insert_end. eapply wp_q_store; [exact Hins|].
  wp_step. eapply wp_task_upd; [simpl; by rewrite Ets, lookup_insert_eq|]. apply HQ.
  match goal with |- sched_inv ?x /\ _ => set (s3 := x) end.
  assert (k_tasks s3 = <[k_currp s := set_t_obj w o2]> (k_tasks s)) as Ets3.
  { simpl. by rewrite Ets, insert_insert_eq. }
  assert (k_currp s <> NULL) as Hnull by (intros E; by rewrite E, (r_null _ _ _ _ _ Hok) in Hoc).
  destruct (time_inv_same s2 s3 Ht2) as (Ht3 & _ & _ & Hrem3); [done|done|done| |].
  { intros x _ ox Hox. rewrite Ets in Hox. rewrite Ets3, lookup_insert. rewrite lookup_insert in Hox.
    case_decide; [|by exists ox]. exists (set_t_obj w o2). by simplify_eq. }
  pose proof (sl_frame _ _ _ _ _ A) as Hf.
  assert (same_waiting_but (QEvt e) s s3) as Hw.
  { intros h Hh Hr. simpl. rewrite lookup_insert_ne by congruence. by rewrite (sl_waiting _ _ _ _ _ A). }
  split_and!; [|apply lookup_insert_eq|exact Hw|by exists (set_t_obj w o2)| |exact (eq_sym (f_equal k_critical_count Hf))|
    exact (eq_sym (f_equal ctl Hf))|].
  - split; [|split; [|done]].
    + unfold ready_inv. change (k_tasks s3) with (<[k_currp s := set_t_obj w o2]> (k_tasks s2)).
      eapply ready_ok_q_insert; [|exact Hl2|apply lookup_insert_eq|done|done|symmetry; apply Permutation_cons_append|done].
      apply ready_ok_upd_detached; [exact Hok2|done|exact (r_range _ _ _ _ _ Hok _ _ Hoc)].
    + unfold sems_ok. change (k_sems s3) with (k_sems s2). rewrite (sl_sems _ _ _ _ _ A).
      eapply sem_counts_frame; [exact Hsem|]. intros a. by apply Hw.
  - intros x. by rewrite Hrem3, Hrem2, Hrem1.
  - split; [exact (sl_sems _ _ _ _ _ A)|]. intros p.
    transitivity (rq s2 p); [unfold rq; simpl; by rewrite ready_queue_waiting|exact (sl_rq _ _ _ _ _ A p)].
Qed.

(** The call returns at once: the bits are refused, the condition holds, or it must not
    block. *)
Lemma event_wait_round_returns e b bits clear all timeout start s :
  0 <= k_critical_count s -> k_evs s !! e = Some b -> check_cond b bits all = true \/ timeout = ISIX_TIME_DONTWAIT ->
  wp (event_wait_round e bits clear all timeout start) (fun r s' =>
    r = Done b /\ same_clock s s' /\ k_critical_count s' = k_critical_count s /\
    ctl (upd_evs (fun _ => ∅) s') = ctl (upd_evs (fun _ => ∅) s) /\
    k_evs s' !! e = Some (if check_cond b bits all && clear then Z.ldiff b bits else b) /\
    forall x, x <> e -> k_evs s' !! x = k_evs s !! x) s.
Proof.
  intros Hcc Hb Hcase. unfold event_wait_round.
  wp_step. apply wp_enter_critical; [done|]. wp_step. eapply wp_ev_get; [exact Hb|].
  destruct (check_cond b bits all) eqn:Ec.
  - wp_step. wp_step. cbn [andb]. destruct clear.
    + eapply wp_ev_set; [exact Hb|]. wp_step. apply wp_exit_critical; [simpl; lia|]. wp_step.
      split_and!; [done|done|simpl; lia|done|apply lookup_insert_eq|].
      intros x Hx. simpl. by rewrite lookup_insert_ne.
    + wp_step. wp_step. apply wp_exit_critical; [simpl; lia|]. wp_step.
      split_and!; [done|done|simpl; lia|done|done|done].
  - destruct Hcase as [|Htm]; [done|]. subst timeout. rewrite Z.eqb_refl.
    wp_step. apply wp_exit_critical; [simpl; lia|]. wp_step.
    split_and!; [done|done|simpl; lia|done|done|done].
Qed.

Lemma event_wait_returns_spec e b bits clear all timeout s :
  0 <= k_critical_count s -> e <> NULL -> k_evs s !! e = Some b ->
  bits = 0 \/ has_bits bits ISIX_EVENT_CTRL_BITS = true \/ check_cond b bits all = true \/
    timeout = ISIX_TIME_DONTWAIT ->
  wp (isix_event_wait e bits clear all timeout) (fun r s' =>
    fst r = Done (if (bits =? 0) || has_bits bits ISIX_EVENT_CTRL_BITS then ISIX_EINVARG else b) /\
    same_clock s s' /\ k_critical_count s' = k_critical_count s /\
    ctl (upd_evs (fun _ => ∅) s') = ctl (upd_evs (fun _ => ∅) s) /\
    k_evs s' !! e = Some (if negb ((bits =? 0) || has_bits bits ISIX_EVENT_CTRL_BITS) && check_cond b bits all && clear
      then Z.ldiff b bits else b) /\
    forall x, x <> e -> k_evs s' !! x = k_evs s !! x) s.
Proof.
  intros Hcc He Hb Hcase. unfold isix_event_wait. rewrite (proj2 (Z.eqb_neq e _)) by done.
  destruct ((bits =? 0) || has_bits bits ISIX_EVENT_CTRL_BITS) eqn:Ebad; [by wp_step|].
  apply orb_false_iff in Ebad as [Hb0 Hctrl]. apply Z.eqb_neq in Hb0.
  wp_step. unfold isix_get_jiffies. do 2 wp_step. cbn [negb andb].
  eapply wp_mono; [apply (event_wait_round_returns e b bits clear all timeout (k_jiffies s) s); [done|done|]|].
  - destruct Hcase as [|[|]]; congruence || done.
  - intros r s' (-> & H). by wp_step.
Qed.

(** The condition does not hold and the call may block. *)
Lemma event_wait_round_blocks e b bits clear all timeout start l oc s :
  task_context oc s -> k_evs s !! e = Some b -> k_q s !! QEvt e = Some l -> check_cond b bits all = false ->
  0 <= timeout < ISIX_TIME_DONTWAIT -> wait_goes_on timeout start (k_jiffies s) ->
  wp (event_wait_round e bits clear all timeout start) (fun r s' => r = Blocked /\ sched_inv s' /\
    k_q s' !! QEvt e = Some (l ++ [k_currp s]) /\ same_waiting_but (QEvt e) s s' /\
    (exists o', k_tasks s' = <[k_currp s := o']> (k_tasks s) /\ t_state o' = OSTHR_STATE_WTEVT /\
       t_obj o' = wait_word bits clear all /\ t_real_prio o' = t_real_prio oc) /\
    (forall x, remaining s' x = if decide (x = k_currp s /\ timeout <> ISIX_TIME_INFINITE)
       then Some (timeout - u32 (k_jiffies s - start)) else remaining s x) /\
    k_pendsv s' = true /\ k_critical_count s' = k_critical_count s /\ same_ctl s s' /\ left_ready oc s s') s.
Proof.
  intros [Hi Hrun Hcc Hoc Hac] Hb Hl Hcond Htm Hgo. unfold event_wait_round.
  wp_step. apply wp_enter_critical; [done|]. set (s1 := upd_critical_count _ _).
  destruct (same_clock_inv s s1) as [Hi1 Hrem1]; [done|done|].
  wp_step. eapply wp_ev_get; [exact Hb|]. rewrite Hcond.
  assert (timeout =? ISIX_TIME_DONTWAIT = false) as -> by (apply Z.eqb_neq; lia).
  wp_step. wp_step. cbv zeta. change (k_jiffies s1) with (k_jiffies s).
  rewrite (wait_goes_on_test _ _ _ Hgo). destruct (wait_goes_on_time _ _ _ Hgo) as (tout & -> & Htout & Hrest); [exact Htm|].
  wp_step. wp_step. change (k_currp s) with (k_currp s1).
  apply (event_block_spec _ _ e l tout _ oc s1); try done.
  intros s2 (Hi2 & Hl2 & Hw2 & (o' & Ets & Hst & Hob & _ & Hrp) & Hrem2 & Ecc & Hctl & Hleft).
  pose proof (same_ctl_elim _ _ Hctl) as (_ & Hrun2 & _).
  wp_step. apply wp_exit_critical; [rewrite Ecc; simpl; lia|].
  apply wp_yield_blocked; [by change (k_schrun s2 = true); rewrite Hrun2|].
  match goal with |- _ /\ sched_inv ?x /\ _ => set (s3 := x) end.
  destruct (same_clock_inv s2 s3) as [Hi3 Hrem3]; [done|done|].
  split_and!; [done|done|exact Hl2|exact Hw2|by exists o'| |done| |exact Hctl|exact Hleft].
  - intros x. rewrite Hrem3, Hrem2, Hrem1. by apply Hrest.
  - simpl. rewrite Ecc. simpl. lia.
Qed.

(** When the time is over the call returns and nothing has changed. *)
Lemma event_wait_round_over e b bits clear all timeout start s :
  0 <= k_critical_count s -> k_evs s !! e = Some b -> check_cond b bits all = false ->
  timeout <> ISIX_TIME_INFINITE -> timeout <> ISIX_TIME_DONTWAIT -> timeout <= u32 (k_jiffies s - start) ->
  wp (event_wait_round e bits clear all timeout start) (fun r s' => r = Done ISIX_ETIMEOUT /\ same_clock s s' /\
    same_ctl s s' /\ k_critical_count s' = k_critical_count s) s.
Proof.
  intros Hcc Hb Hcond Hinf Hdw Hover. unfold event_wait_round.
  wp_step. apply wp_enter_critical; [done|]. wp_step. eapply wp_ev_get; [exact Hb|]. rewrite Hcond.
  rewrite (proj2 (Z.eqb_neq timeout _)) by done. wp_step. wp_step. cbv zeta.
  rewrite (proj2 (Z.eqb_neq timeout _)), (proj2 (Z.leb_le timeout _)) by done. cbn [negb andb].
  wp_step. apply wp_exit_critical; [simpl; lia|]. wp_step. split_and!; done || (simpl; lia).
Qed.

Lemma event_wait_blocks_spec e b bits clear all timeout l oc s :
  sched_inv s -> k_schrun s = true -> 0 <= k_critical_count s ->
  k_tasks s !! k_currp s = Some oc -> active (t_state oc) = true ->
  e <> NULL -> k_evs s !! e = Some b -> k_q s !! QEvt e = Some l ->
  bits <> 0 -> has_bits bits ISIX_EVENT_CTRL_BITS = false -> check_cond b bits all = false ->
  0 <= timeout < ISIX_TIME_DONTWAIT ->
  wp (isix_event_wait e bits clear all timeout) (fun r s' => r = (Blocked, k_jiffies s) /\ sched_inv s' /\
    k_q s' !! QEvt e = Some (l ++ [k_currp s]) /\ same_waiting_but (QEvt e) s s' /\
    (exists o', k_tasks s' = <[k_currp s := o']> (k_tasks s) /\ t_state o' = OSTHR_STATE_WTEVT /\
       t_obj o' = wait_word bits clear all /\ t_real_prio o' = t_real_prio oc) /\
    (forall x, remaining s' x =
       if decide (x = k_currp s /\ timeout <> ISIX_TIME_INFINITE) then Some timeout else remaining s x) /\
    k_pendsv s' = true /\ k_critical_count s' = k_critical_count s /\ same_ctl s s' /\ left_ready oc s s') s.
Proof.
  intros Hi Hrun Hcc Hoc Hac He Hb Hl Hbits Hctrl Hcond Htm. unfold isix_event_wait.
  rewrite (proj2 (Z.eqb_neq e _)), (proj2 (Z.eqb_neq bits 0)), Hctrl by done. cbn [orb].
  wp_step. unfold isix_get_jiffies. do 2 wp_step.
  eapply wp_mono; [apply (event_wait_round_blocks e b bits clear all timeout (k_jiffies s) l oc s); try done; apply wait_goes_on_start; lia|].
  intros r s' (-> & ? & ? & ? & ? & Hrem & ?). wp_step. split_and!; try done; try tauto.
  intros x. rewrite Hrem, Z.sub_diag. change (u32 0) with 0. by rewrite Z.sub_0_r.
Qed.

(** C11: [isix_event_wait] on bits that do not satisfy the condition blocks the caller:
    it leaves the ready list, queues behind the other waiters of the event with the word
    that encodes what it waits for, will be woken by the clock after exactly [timeout]
    ticks unless the timeout is infinite, and a context switch is requested; the word is
    satisfied by a bit set exactly when the condition the caller asked for is.  Nothing else
    changes: not the other tasks, the other ready and wait lists, the bits of any event, the
    semaphores, the mutexes and their owners, the heap, the other objects and the clock. *)
Theorem event_wait_blocks e b bits clear all timeout l oc s :
  sched_inv s -> k_schrun s = true -> 0 <= k_critical_count s ->
  k_tasks s !! k_currp s = Some oc -> active (t_state oc) = true ->
  e <> NULL -> k_evs s !! e = Some b -> k_q s !! QEvt e = Some l ->
  bits <> 0 -> in_u32 bits -> has_bits bits ISIX_EVENT_CTRL_BITS = false -> check_cond b bits all = false ->
  0 <= timeout < ISIX_TIME_DONTWAIT ->
  wp (isix_event_wait e bits clear all timeout) (fun r s' => r = (Blocked, k_jiffies s) /\ sched_inv s' /\
    k_q s' !! QEvt e = Some (l ++ [k_currp s]) /\ same_waiting_but (QEvt e) s s' /\
    (exists o', k_tasks s' = <[k_currp s := o']> (k_tasks s) /\ t_state o' = OSTHR_STATE_WTEVT /\
       t_real_prio o' = t_real_prio oc /\
       forall b', check_cond2 b' (t_obj o') = check_cond b' bits all) /\
    (forall x, remaining s' x =
       if decide (x = k_currp s /\ timeout <> ISIX_TIME_INFINITE) then Some timeout else remaining s x) /\
    k_pendsv s' = true /\ k_critical_count s' = k_critical_count s /\ same_ctl s s' /\ left_ready oc s s') s.
Proof.
  intros Hi Hrun Hcc Hoc Hac He Hb Hl Hbits Hpos Hctrl Hcond Htm.
  eapply wp_mono; [by eapply event_wait_blocks_spec|].
  intros r s' (? & ? & ? & ? & (o' & ? & ? & Hob & ?) & ? & ? & ? & ? & ?). split_and!; try done.
  exists o'. split_and!; [done..|]. intros b'. rewrite Hob. by apply wait_word_cond.
Qed.

(** A semaphore can be connected to bits 30 and 31 of an event, but setting these
    bits is refused because they are control bits, so such a connection never notifies
    anybody. *)
Theorem notify_control_bits_lost a evt bit o s :
  30 <= bit <= 31 -> a <> NULL -> evt <> NULL -> k_sems s !! a = Some o -> s_evt o = NULL ->
  wp (isix_sem_event_connect a evt bit) (fun r s' => r = ISIX_EOK /\
    (exists o', k_sems s' !! a = Some o' /\ s_evt o' = evt /\ s_bitno o' = bit) /\
    forall isr s'', _isixp_event_set evt (Z.shiftl 1 bit) isr s'' = Ok ISIX_EINVARG s'') s.
Proof.
  intros Hb Ha He Ho Hev. unfold isix_sem_event_connect.
  rewrite (proj2 (Z.eqb_neq a _)), (proj2 (Z.eqb_neq evt _)) by done. cbn [orb].
  rewrite (proj2 (Z.ltb_ge bit 0)), (proj2 (Z.ltb_ge 31 bit)) by lia. cbn [orb].
  wp_step. eapply wp_sem_get; [exact Ho|]. rewrite Hev. change (negb (NULL =? 0)) with false. cbv iota.
  wp_step. eapply wp_sem_upd; [exact Ho|]. wp_step. eapply wp_sem_upd; [apply lookup_insert_eq|]. wp_step.
  split; [done|]. split; [eexists; split; [apply lookup_insert_eq|done]|].
  intros isr s''. unfold _isixp_event_set. rewrite (proj2 (Z.eqb_neq evt _)) by done.
  assert (bit = 30 \/ bit = 31) as [-> | ->] by lia; reflexivity.
Qed.

End EventProofs.
