(* ===== verification/MutexProofs.v ===== *)
(** * Priorities and mutexes

    Changing the priority of a task moves it to its new place in the list it is on;
    the priority a mutex owner inherits is the highest of its own one and of all tasks
    that wait for a mutex it holds. *)

From S2P Require Import Prelude.
From S2P Require Import DList.
From S2P Require Import Kernel.
From S2P Require Import Scheduler.
From S2P Require Import Events.
From S2P Require Import Mutex.
From S2P Require Import SchedInv.
From S2P Require Import SchedCore.
From S2P Require Import SchedTime.
From S2P Require Import SchedSleep.
From S2P Require Import SchedWake.
From stdpp Require Import base numbers gmap list sorting.
From Stdlib Require Import ZArith Lia.
Local Open Scope Z_scope.

(** The priority of a task that is on no ordered list can change freely. *)
Lemma ready_ok_upd_unordered ts ps q pl t o p :
  ready_ok None ts ps q pl -> ts !! t = Some o -> 0 <= p <= CONFIG_ISIX_NUMBER_OF_PRIORITIES ->
  (forall h l, q !! h = Some l -> t ∈ l -> prio_queue h = false /\ is_ready_head h = false) ->
  ready_ok None (<[t := set_t_prio p o]> ts) ps q pl.
Proof.
  intros Hok Ho Hp Hun.
  assert (forall h l x, q !! h = Some l -> x ∈ l -> prio_queue h = true \/ is_ready_head h = true ->
    prio_of (<[t := set_t_prio p o]> ts) x = prio_of ts x) as Hpr.
  { intros h l x Hl Hx Hh. rewrite prio_of_insert. case_decide as E; [|done]. subst x.
    destruct (Hun h l Hl Hx) as [H1 H2]. rewrite H1, H2 in Hh. by destruct Hh. }
  destruct Hok as [Hw Hat Hq Hd Hs Hr Hn (ready & free & Hl)]. split; try done.
  - intros h l x Hh Hx. destruct (Hat h l x Hh Hx) as (ox & Hox & Hax).
    destruct (decide (x = t)) as [->|Hne]; [|exists ox; by rewrite lookup_insert_ne].
    rewrite lookup_insert_eq. simplify_eq. eexists. split; [done|]. by destruct h.
  - intros x ox [[<- <-]|[Hne E]]%lookup_insert_Some _ Hst; [|by eapply Hq].
    by eapply (Hq t o).
  - intros h l Hh Hl'. eapply sorted_by_ext; [|by eapply Hs]. intros x Hx. symmetry. eauto.
  - intros x ox [[<- <-]|[Hne E]]%lookup_insert_Some; [done|eauto].
  - rewrite lookup_insert_ne; [done|]. intros ->. by rewrite Hn in Ho.
  - exists ready, free. eapply prio_lists_frame; [exact Hl|done|].
    intros e l x He Hx. eapply Hpr; [exact He|exact Hx|by right].
Qed.

Section MutexProofs.
Context {HS : Type} {AL : Allocator HS}.
Implicit Types s : kstate HS.

(** The wait lists hold the same tasks, and only [t] may have another place. *)
Definition reordered (t : Z) s s' : Prop :=
  forall h, is_ready_head h = false ->
    option_Forall2 (fun l l' => l' ≡ₚ l /\ (t ∉ l -> l' = l)) (k_q s !! h) (k_q s' !! h).

Lemma reordered_waiting t s s' : same_waiting s s' -> reordered t s s'.
Proof. intros Hw h Hh. rewrite (Hw h Hh). by destruct (k_q s !! h); constructor. Qed.

(** A task that can run is on no other list. *)
Lemma reordered_active t o s s' :
  ready_inv None s -> k_tasks s !! t = Some o -> active (t_state o) = true -> reordered t s s' -> same_waiting s s'.
Proof.
  intros Hok Ho Ha Hre h Hh. specialize (Hre h Hh). destruct (k_q s !! h) as [lh|] eqn:Eh; [|by inversion Hre].
  inversion Hre as [? l' [_ E]|]; subst. f_equal. apply E. intros Hin.
  destruct (r_at _ _ _ _ _ Hok h lh _ Eh Hin) as (o' & Ho' & Hat). assert (o' = o) as -> by congruence.
  destruct h; simpl in *; destruct_and?; try done; match goal with E : t_state o = _ |- _ => by rewrite E in Ha end.
Qed.

(** Task [t] has the priority [p] now. *)
Record reprioritised (t p : Z) (o : task) s s' : Prop := {
  rp_inv : ready_inv None s';
  rp_frame : frame_ready s s';
  rp_task : exists o', k_tasks s' = <[t := o']> (k_tasks s) /\ t_prio o' = p /\
    t_real_prio o' = t_real_prio o /\ t_obj o' = t_obj o /\ t_jiffies o' = t_jiffies o /\
    t_state o' = (if active (t_state o) then OSTHR_STATE_READY else t_state o);
  rp_lists : reordered t s s';
  rp_rq : forall q, rq s' q =
    if active (t_state o) then
      (if decide (q = t_prio o) then remove_node t (rq s q) else rq s q) ++ (if decide (q = p) then [t] else [])
    else rq s q
}.

(** A waiting task moves within the list of the object it waits for. *)
Lemma requeue_waiting h t o p s :
  ready_inv None s -> k_tasks s !! t = Some o -> at_queue o h -> prio_queue h = true ->
  0 <= p <= CONFIG_ISIX_NUMBER_OF_PRIORITIES ->
  wp (q_delete t;;; task_upd t (set_t_prio p);;; _isixp_add_to_prio_queue h t)
    (fun _ s' => reprioritised t p o s s') s.
Proof.
  intros Hok Ho Hat Hh Hp.
  destruct (queued_at _ _ _ _ _ t o Hok Ho) as (h' & l & Hl & Hin & Hat'); [done|by eapply at_queue_queued|].
  assert (h' = h) as ->.
  { destruct h, h'; simpl in *; destruct_and?; try congruence;
      match goal with E : t_state o = _, A : active (t_state o) = true |- _ => by rewrite E in A end. }
  assert (is_ready_head h = false) as Hrh by (by destruct h).
  assert (active (t_state o) = false) as Hna.
  { destruct h; simpl in Hat; try done; destruct Hat as [-> _]; done. }
  pose proof (ready_ok_q_delete _ _ _ _ _ _ _ Hok Hl Hin Hrh) as Hok1.
  destruct (seq_delete_in t (k_q s) h l (r_qwf _ _ _ _ _ Hok) Hl Hin) as (Hd & _ & _).
  assert (t <> NULL) as Hnull by (intros ->; rewrite (r_null _ _ _ _ _ Hok) in Ho; done).
  wp_step. unfold q_delete. eapply wp_q_store; [exact Hd|].
  wp_step. eapply wp_task_upd; [exact Ho|].
  eapply (add_to_prio_queue_spec h t (set_t_prio p o)); [|apply lookup_insert_eq|apply lookup_insert_eq| |done|].
  - apply (ready_ok_upd_detached _ _ _ _ t (set_t_prio p o)); [exact Hok1|done|done].
  - by destruct h.
  - intros Hok2. match type of Hok2 with ready_inv _ ?x => set (s2 := x) in * end.
    assert (forall x, x <> h -> k_q s2 !! x = k_q s !! x) as Hqo.
    { intros x Hx. simpl. by rewrite !lookup_insert_ne. }
    split; [exact Hok2|done| | |].
    + exists (set_t_prio p o). rewrite Hna. split_and!; done.
    + intros x Hx. destruct (decide (x = h)) as [->|Hne]; [|rewrite Hqo by done; by destruct (k_q s !! x); constructor].
      rewrite Hl. simpl. rewrite lookup_insert_eq. constructor. split; [|done].
      unfold prio_insert. rewrite insert_before_first_perm.
      apply list_elem_of_split in Hin as (l1 & l2 & ->).
      rewrite remove_node_split by (eapply (proj1 (r_qwf _ _ _ _ _ Hok)); exact Hl). by rewrite Permutation_middle.
    + intros q. rewrite Hna. unfold rq. simpl. by rewrite !ready_queue_waiting.
Qed.

(** An active task goes to the end of the queue of its new priority. *)
Lemma requeue_active t o p s :
  ready_inv None s -> k_tasks s !! t = Some o -> active (t_state o) = true ->
  0 <= p <= CONFIG_ISIX_NUMBER_OF_PRIORITIES ->
  wp (delete_from_ready_list t;;; task_upd t (set_t_prio p);;;
      task_upd t (set_t_state OSTHR_STATE_SCHEDULE);;; add_ready_list t)
    (fun _ s' => reprioritised t p o s s') s.
Proof.
  intros Hok Ho Ha Hp.
  assert (t <> NULL) as Hnull by (intros ->; rewrite (r_null _ _ _ _ _ Hok) in Ho; done).
  wp_step. eapply wp_mono; [by eapply delete_from_ready_list_spec|]. intros [] s1 U.
  wp_step. eapply wp_task_upd; [by rewrite (ur_task _ _ _ _ U)|].
  wp_step. eapply wp_task_upd; [apply lookup_insert_eq|].
  set (o1 := set_t_state OSTHR_STATE_SCHEDULE (set_t_prio p o)). set (s2 := upd_tasks _ _).
  assert (k_tasks s2 = <[t := o1]> (k_tasks s)) as Ets.
  { simpl. rewrite insert_insert_eq. by rewrite (ur_task _ _ _ _ U). }
  assert (ready_inv (Some t) s2) as Hok2.
  { unfold ready_inv. rewrite Ets, <- (ur_task _ _ _ _ U).
    apply (ready_ok_upd_detached _ _ _ _ t o1); [exact (ur_inv _ _ _ _ U)|done|done]. }
  eapply wp_mono; [apply (add_ready_list_spec t o1 s2 Hok2); [by rewrite Ets, lookup_insert_eq|done|done]|].
  intros [] s3 R. destruct (rd_task _ _ _ _ R) as [e Hts].
  split.
  - exact (rd_inv _ _ _ _ R).
  - etransitivity; [exact (ur_frame _ _ _ _ U)|exact (rd_frame _ _ _ _ R)].
  - exists (set_t_prio_elem e (set_t_state OSTHR_STATE_READY o1)).
    rewrite Hts, Ets, insert_insert_eq, Ha. split_and!; done.
  - apply reordered_waiting. intros h Hh.
    rewrite (rd_waiting _ _ _ _ R h Hh). change (k_q s2) with (k_q s1). by rewrite (ur_waiting _ _ _ _ U h Hh).
  - intros q. rewrite Ha, (rd_rq _ _ _ _ R q). change (rq s2 q) with (rq s1 q). rewrite (ur_rq _ _ _ _ U q).
    change (t_prio o1) with p. destruct (decide (q = p)); [done|by rewrite app_nil_r].
Qed.

Lemma reallocate_priority_spec t o p s :
  ready_inv None s -> k_tasks s !! t = Some o -> 0 <= p <= CONFIG_ISIX_NUMBER_OF_PRIORITIES ->
  wp (_isixp_reallocate_priority t p) (fun _ s' => reprioritised t p o s s') s.
Proof.
  intros Hok Ho Hp. assert (u8 p = p) as Eu by (apply Z.mod_small; unfold CONFIG_ISIX_NUMBER_OF_PRIORITIES in Hp; lia).
  unfold _isixp_reallocate_priority. wp_step. eapply wp_task_get; [exact Ho|]. rewrite Eu.
  assert (active (t_state o) = false ->
    (forall h l, k_q s !! h = Some l -> t ∈ l -> prio_queue h = false) ->
    wp (task_upd t (set_t_prio p)) (fun _ s' => reprioritised t p o s s') s) as Hother.
  { intros Hna Hnq. eapply wp_task_upd; [exact Ho|]. split; try done.
    - apply ready_ok_upd_unordered; [exact Hok|done|done|]. intros h l Hl Hin. split; [eauto|].
      destruct (r_at _ _ _ _ _ Hok h l t Hl Hin) as (o' & Ho' & Hat). simplify_eq.
      destruct h; try done. destruct Hat as [Hat _]. congruence.
    - exists (set_t_prio p o). rewrite Hna. done.
    - by apply reordered_waiting.
    - intros q. by rewrite Hna. }
  destruct (t_state o) eqn:Est;
    try (apply requeue_active; [done|done|by rewrite Est|done]);
    try (apply requeue_waiting; [done|done|split; [done|done]|done|done]);
    (apply Hother; [done|]; intros h l Hl Hin;
     destruct (r_at _ _ _ _ _ Hok h l t Hl Hin) as (o' & Ho' & Hat); simplify_eq;
     destruct h; try done; simpl in Hat; rewrite Est in Hat; by destruct Hat).
Qed.

(** Changing the priority of a task, as priority inheritance and
    [isix_task_change_prio] do, keeps every list of the scheduler in order whatever
    the state of the task: an active task goes to the end of the queue of the new
    priority, a task that waits for a semaphore, mutex or condition variable is put
    at its new place in that wait list, and no other task moves. *)
Theorem reallocate_priority_requeues t o p s :
  ready_inv None s -> k_tasks s !! t = Some o -> 0 <= p <= CONFIG_ISIX_NUMBER_OF_PRIORITIES ->
  wp (_isixp_reallocate_priority t p) (fun _ s' => reprioritised t p o s s') s.
Proof. apply reallocate_priority_spec. Qed.

(** The clock and the semaphores do not notice. *)
Lemma reprioritised_sched t p o s s' :
  sched_inv s -> k_tasks s !! t = Some o -> reprioritised t p o s s' ->
  sched_inv s' /\ forall x, remaining s' x = remaining s x.
Proof.
  intros (_ & Hsem & Ht) Ho [Hok Hf (o' & Ets & _ & _ & _ & Ej & Est) Hl _].
  destruct (time_inv_same s s' Ht) as (Ht' & _ & _ & Hrem).
  { symmetry. exact (f_equal k_tl Hf). }
  { symmetry. exact (f_equal k_pwait Hf). }
  { symmetry. exact (f_equal k_jiffies Hf). }
  { intros x _ ox Hox. rewrite Ets, lookup_insert. case_decide as E; [subst x|by exists ox].
    assert (ox = o) as -> by congruence. exists o'. split_and!; [done|done|]. rewrite Est. by destruct (t_state o). }
  split; [|done]. split; [done|]. split; [|done]. intros a l' Hl'.
  specialize (Hl (QSem a) eq_refl). rewrite Hl' in Hl.
  destruct (k_q s !! QSem a) as [l|] eqn:E; inversion Hl as [? ? HP|]; subst. destruct HP as [Hp _].
  destruct (Hsem a l E) as (so & Hso & Hn & Hr). exists so.
  rewrite Hp, <- (f_equal k_sems Hf : k_sems s = k_sems s'). done.
Qed.

Lemma reallocate_priority_sched t o p s :
  sched_inv s -> k_tasks s !! t = Some o -> 0 <= p <= CONFIG_ISIX_NUMBER_OF_PRIORITIES ->
  wp (_isixp_reallocate_priority t p) (fun _ s' => reprioritised t p o s s' /\ sched_inv s' /\
    forall x, remaining s' x = remaining s x) s.
Proof.
  intros Hi Ho Hp. eapply wp_mono; [by eapply reallocate_priority_spec; [apply Hi|..]|].
  intros [] s' R. split; [done|]. by eapply reprioritised_sched.
Qed.

(** ** Inheritance *)

Lemma inherited_loop_spec ms : forall p s,
  ready_inv None s -> (forall m, m ∈ ms -> is_Some (k_q s !! QMtx m)) ->
  wp (inherited_loop ms p) (fun r s' => s' = s /\ r <= p /\
    (forall m l x, m ∈ ms -> k_q s !! QMtx m = Some l -> x ∈ l -> r <= prio_of (k_tasks s) x) /\
    (r = p \/ exists m l x, m ∈ ms /\ k_q s !! QMtx m = Some l /\ x ∈ l /\ r = prio_of (k_tasks s) x)) s.
Proof.
  induction ms as [|m ms IH]; intros p s Hok Hm; simpl.
  { wp_step. split_and!; [done|lia|by intros m l x ?%not_elem_of_nil|by left]. }
  destruct (Hm m) as [l Hl]; [left|]. assert (forall m', m' ∈ ms -> is_Some (k_q s !! QMtx m')) as Hm'.
  { intros m' Hin. apply Hm. by right. }
  wp_step. eapply wp_q_list; [exact Hl|]. destruct l as [|t l].
  - eapply wp_mono; [by apply IH|]. intros r s' (-> & Hr & Hall & Hex). split_and!; [done|done| |].
    + intros m' l' x [->|Hin]%elem_of_cons Hl' Hx; [|eauto]. rewrite Hl in Hl'. injection Hl' as <-.
      by apply not_elem_of_nil in Hx.
    + destruct Hex as [|(m' & l' & x & Hin & ?)]; [by left|right]. exists m', l', x. split; [by right|done].
  - destruct (r_at _ _ _ _ _ Hok _ _ t Hl) as (o & Ho & _); [left|]. cbv iota beta.
    wp_step. eapply wp_task_get; [exact Ho|]. unfold _isixp_prio_gt.
    assert (prio_of (k_tasks s) t = t_prio o) as Ep by (unfold prio_of; by rewrite Ho).
    eapply wp_mono; [by apply IH|]. intros r s' (-> & Hr & Hall & Hex). split_and!; [done| | |].
    + destruct (Z.ltb_spec (t_prio o) p); lia.
    + intros m' l' x [->|Hin]%elem_of_cons Hl' Hx; [|eauto]. rewrite Hl in Hl'. injection Hl' as <-.
      assert (r <= t_prio o) by (destruct (Z.ltb_spec (t_prio o) p); lia).
      apply elem_of_cons in Hx as [->|Hx]; [lia|].
      pose proof (first_waiter_highest (QMtx m) t l s x Hok eq_refl Hl Hx). lia.
    + destruct Hex as [->|(m' & l' & x & Hin & ?)].
      * destruct (Z.ltb_spec (t_prio o) p); [right|by left]. exists m, (t :: l), t. split_and!; [left|done|left|lia].
      * right. exists m', l', x. split; [by right|done].
Qed.

(** [p] is the highest priority among [real] and those of the tasks that wait for one of the
    mutexes [ms]. *)
Definition highest_inherited s (ms : list Z) (real p : Z) : Prop :=
  p <= real /\
  (forall m l x, m ∈ ms -> k_q s !! QMtx m = Some l -> x ∈ l -> p <= prio_of (k_tasks s) x) /\
  (p = real \/
   exists m l x, m ∈ ms /\ k_q s !! QMtx m = Some l /\ x ∈ l /\ p = prio_of (k_tasks s) x).

Lemma calc_inherited_spec t o ms s :
  ready_inv None s -> k_tasks s !! t = Some o -> k_ml s !! t = Some ms ->
  (forall m, m ∈ ms -> is_Some (k_q s !! QMtx m)) ->
  wp (calc_inherited_priority t) (fun p s' => s' = s /\ highest_inherited s ms (t_real_prio o) p) s.
Proof.
  intros Hok Ho Hml Hms. unfold calc_inherited_priority. wp_step. eapply wp_task_get; [exact Ho|].
  unfold ml_list. wp_step. wp_step. wp_step. eapply wp_of_option; [exact Hml|]. by apply inherited_loop_spec.
Qed.

(** The priority a task inherits is the highest one (the least number) among its
    own base priority and the priorities of all tasks waiting for any mutex it owns;
    looking at the first waiter of each mutex is enough because wait lists are
    ordered. *)
Theorem inherited_priority_is_highest t o ms s :
  ready_inv None s -> k_tasks s !! t = Some o -> k_ml s !! t = Some ms ->
  (forall m, m ∈ ms -> is_Some (k_q s !! QMtx m)) ->
  wp (calc_inherited_priority t) (fun p s' => s' = s /\ highest_inherited s ms (t_real_prio o) p) s.
Proof. apply calc_inherited_spec. Qed.

Lemma wp_mtx_get m o (Q : mtx -> kstate HS -> Prop) s :
  k_mtxs s !! m = Some o -> Q o s -> wp (mtx_get m) Q s.
Proof. intros E HQ. unfold mtx_get. wp_step. wp_step. by eapply wp_of_option. Qed.

(** The object a task waits for may be noted after it was queued. *)
Lemma add_to_prio_queue_obj {R} (k : K HS R) Q h t o l a s :
  ready_inv (Some t) s -> k_tasks s !! t = Some o -> k_q s !! h = Some l ->
  at_queue (set_t_obj a o) h -> prio_queue h = true ->
  (let s' := upd_tasks (insert t (set_t_obj a o))
     (upd_q (fun _ => <[h := prio_insert (k_tasks s) (t_prio o) t l]> (k_q s)) s) in
   ready_inv None s' -> wp k Q s') ->
  wp (_isixp_add_to_prio_queue h t;;; task_upd t (set_t_obj a);;; k) Q s.
Proof.
  intros Hok Ho Hl Hat Hh Hk.
  assert (t <> NULL) as Hnull by (intros ->; rewrite (r_null _ _ _ _ _ Hok) in Ho; done).
  pose proof (r_detached _ _ _ _ _ Hok t eq_refl h l Hl) as Hnl.
  pose proof (ready_ok_upd_detached _ _ _ _ t (set_t_obj a o) Hok Hnull (r_range _ _ _ _ _ Hok t o Ho)) as Hok1.
  assert (forall y, y ∈ l -> task_lower (k_tasks s) (t_prio o) y = (t_prio o <? prio_of (k_tasks s) y)) as Hext.
  { intros y Hy. destruct (r_at _ _ _ _ _ Hok h l y Hl Hy) as (oy & Hoy & _).
    unfold task_lower, prio_of. by rewrite Hoy. }
  destruct (seq_insert_with_ok (insert_before_first (task_lower (k_tasks s) (t_prio o)) t) t (k_q s) h l
    (r_qwf _ _ _ _ _ Hok) (r_detached _ _ _ _ _ Hok t eq_refl) Hl) as [Hins _];
    [apply insert_before_first_perm|].
  rewrite (insert_before_first_ext _ _ t l Hext) in Hins. unfold _isixp_add_to_prio_queue.
  wp_step. wp_step. eapply wp_task_get; [exact Ho|]. wp_step. wp_step.
  eapply wp_q_store; [exact Hins|]. wp_step. eapply wp_task_upd; [exact Ho|]. apply Hk.
  assert (forall x, prio_of (<[t := set_t_obj a o]> (k_tasks s)) x = prio_of (k_tasks s) x) as Hp.
  { intros x. rewrite prio_of_insert. case_decide as E; [|done]. rewrite E. unfold prio_of. by rewrite Ho. }
  eapply ready_ok_q_insert; [exact Hok1|exact Hl|apply lookup_insert_eq|exact Hat|by destruct h|
    apply insert_before_first_perm|].
  intros _. eapply sorted_by_ext; [intros x _; symmetry; apply Hp|].
  apply insert_before_first_sorted; [unfold prio_of; by rewrite Ho|]. by eapply (r_sorted _ _ _ _ _ Hok).
Qed.

(** [t] has the priority [p] now, which it may have had before. *)
Record inherited (t p : Z) (o : task) s s' : Prop := {
  ih_inv : sched_inv s';
  ih_frame : frame_ready s s';
  ih_task : exists o', k_tasks s' = <[t := o']> (k_tasks s) /\ t_prio o' = p /\
    t_real_prio o' = t_real_prio o /\
    active (t_state o') = active (t_state o) /\
    tame (t_state o) (t_state o') = true;
  ih_lists : reordered t s s';
  ih_rest : forall x, remaining s' x = remaining s x
}.

Lemma inherited_refl t o s :
  sched_inv s -> k_tasks s !! t = Some o -> inherited t (t_prio o) o s s.
Proof.
  intros Hi Ho. split; [done|done| |by apply reordered_waiting|done]. exists o. by rewrite insert_id by done.
Qed.

Lemma reprioritised_inherited t p o s s' :
  sched_inv s -> k_tasks s !! t = Some o -> reprioritised t p o s s' -> inherited t p o s s'.
Proof.
  intros Hi Ho R. destruct (reprioritised_sched _ _ _ _ _ Hi Ho R) as [Hi' Hrem].
  destruct R as [_ Hf (o' & Hts & Hpo & Hrp & _ & _ & Hst) Hl _]. split; try done.
  exists o'. rewrite Hst. split_and!; try done; by destruct (t_state o).
Qed.

(** The owner gets the priority of a more important caller. *)
Lemma inherit_step t o p s :
  sched_inv s -> k_tasks s !! t = Some o -> 0 <= p <= CONFIG_ISIX_NUMBER_OF_PRIORITIES ->
  wp (when (_isixp_prio_gt p (t_prio o)) (_isixp_reallocate_priority t p)) (fun _ => inherited t (Z.min p (t_prio o)) o s) s.
Proof.
  intros Hi Ho Hp. wp_step. unfold _isixp_prio_gt. destruct (Z.ltb_spec p (t_prio o)) as [Hlt|Hge].
  - eapply wp_mono; [by apply reallocate_priority_spec; [apply Hi|..]|]. rewrite Z.min_l by lia.
    intros [] s' R. by apply reprioritised_inherited.
  - wp_step. rewrite Z.min_r by lia. by apply inherited_refl.
Qed.

(** The part of [mutex_lock_round] that blocks, after the priority was inherited. *)
Lemma mutex_block_spec m oc l s :
  ready_inv None s -> sems_ok s -> time_inv s -> 0 < k_critical_count s -> k_schrun s = true ->
  k_tasks s !! k_currp s = Some oc -> active (t_state oc) = true -> k_q s !! QMtx m = Some l ->
  wp (task_upd (k_currp s) (set_t_wait_aborted false);;;
      _isixp_set_sleep OSTHR_STATE_WTMTX;;;
      _isixp_add_to_prio_queue (QMtx m) (k_currp s);;;
      task_upd (k_currp s) (set_t_obj m);;;
      isix_exit_critical;;; isix_yield;;; ret Blocked)
    (fun r s' => r = Blocked /\ sched_inv s' /\ same_ctl s s' /\
      k_critical_count s' = k_critical_count s - 1 /\ k_pendsv s' = true /\
      k_q s' !! QMtx m = Some (prio_insert (k_tasks s) (t_prio oc) (k_currp s) l) /\
      (forall h, h <> QMtx m -> is_ready_head h = false -> k_q s' !! h = k_q s !! h) /\
      (exists oc', k_tasks s' = <[k_currp s := oc']> (k_tasks s) /\
        t_state oc' = OSTHR_STATE_WTMTX /\ t_obj oc' = m /\ t_prio oc' = t_prio oc /\
        t_real_prio oc' = t_real_prio oc) /\
      forall x, remaining s' x = remaining s x) s.
Proof.
  intros Hok Hsem Ht Hcc Hrun Hoc Hac Hl. set (oc1 := set_t_wait_aborted false oc).
  assert (timed_state (t_state oc) = false) as Hun by (by destruct (t_state oc)).
  wp_step. eapply wp_task_upd; [exact Hoc|]. fold oc1. set (s1 := upd_tasks _ s).
  assert (ready_inv None s1) as Hok1.
  { eapply ready_ok_upd_same; [exact Hok|exact Hoc|done| |done]. intros h Hat. by destruct h. }
  wp_step. eapply wp_mono; [apply (set_sleep_spec OSTHR_STATE_WTMTX oc1 s1 Hok1); [apply lookup_insert_eq|done]|].
  intros [] s2 [A Etl]. change (k_currp s1) with (k_currp s) in *.
  pose proof (sl_tasks _ _ _ _ _ A) as Hts. simpl in Hts. rewrite insert_insert_eq in Hts.
  pose proof (sl_frame _ _ _ _ _ A) as Hf.
  set (oc2 := set_t_state OSTHR_STATE_WTMTX oc1) in *.
  eapply (add_to_prio_queue_obj _ _ (QMtx m) (k_currp s) oc2 l m s2);
    [exact (sl_inv _ _ _ _ _ A)|by rewrite Hts, lookup_insert_eq|by rewrite (sl_waiting _ _ _ _ _ A)|done|done|].
  assert (prio_insert (k_tasks s2) (t_prio oc2) (k_currp s) l =
          prio_insert (k_tasks s) (t_prio oc) (k_currp s) l) as ->.
  { unfold prio_insert. apply insert_before_first_ext. intros y Hy. change (t_prio oc2) with (t_prio oc).
    unfold prio_of. rewrite Hts, lookup_insert_ne; [done|]. intros <-.
    destruct (r_at _ _ _ _ _ Hok _ _ _ Hl Hy) as (oy & Hoy & Hst & _). simplify_eq. by rewrite Hst in Hac. }
  cbv zeta. set (s3 := upd_tasks _ _). intros Hok3.
  assert (k_tasks s3 = <[k_currp s := set_t_obj m oc2]> (k_tasks s)) as Ets3.
  { simpl. by rewrite Hts, insert_insert_eq. }
  pose proof (f_equal k_critical_count Hf : k_critical_count s = k_critical_count s2) as Ecc.
  assert (k_schrun s3 = true) as Hrun3 by (rewrite <- Hrun; symmetry; exact (f_equal k_schrun Hf)).
  wp_step. apply wp_exit_critical; [simpl; lia|]. apply wp_yield_blocked; [exact Hrun3|].
  match goal with |- _ /\ sched_inv ?x /\ _ => set (s4 := x) end.
  destruct (time_inv_frame s s4 Ht) as (Ht4 & _ & _ & Hrem4).
  { exact Etl. }
  { symmetry. exact (f_equal k_pwait Hf). }
  { symmetry. exact (f_equal k_jiffies Hf). }
  { intros x Hon. etransitivity; [exact (f_equal (lookup x) Ets3)|]. rewrite lookup_insert_ne; [done|]. intros <-.
    by apply (untimed _ _ _ Ht Hoc Hun) in Hon. }
  assert (forall h, h <> QMtx m -> is_ready_head h = false -> k_q s4 !! h = k_q s !! h) as Hw.
  { intros h Hh Hr. simpl. rewrite lookup_insert_ne by congruence. by rewrite (sl_waiting _ _ _ _ _ A). }
  split_and!; [done| |exact (eq_sym (f_equal ctl Hf))|simpl; lia|done|apply lookup_insert_eq|exact Hw|by exists (set_t_obj m oc2)|done].
  - split; [exact Hok3|]. split; [|done]. unfold sems_ok. change (k_sems s4) with (k_sems s2).
    rewrite (sl_sems _ _ _ _ _ A). eapply sem_counts_frame; [exact Hsem|]. intros a. by apply Hw.
Qed.

(** A mutex another task owns. *)
Lemma mutex_lock_blocks_spec m t om ow oc l s :
  sched_inv s -> 0 <= k_critical_count s -> k_schrun s = true -> m <> NULL ->
  k_tasks s !! k_currp s = Some oc -> active (t_state oc) = true ->
  k_mtxs s !! m = Some om -> m_owner om = t -> t <> NULL -> t <> k_currp s -> 1 <= m_count om ->
  k_tasks s !! t = Some ow -> k_q s !! QMtx m = Some l -> t ∉ l ->
  wp (isix_mutex_lock m) (fun r s' => r = Blocked /\ sched_inv s' /\ same_ctl s s' /\
    k_critical_count s' = k_critical_count s /\ k_pendsv s' = true /\
    k_q s' !! QMtx m = Some (prio_insert (k_tasks s) (t_prio oc) (k_currp s) l) /\
    (forall h, h <> QMtx m -> is_ready_head h = false ->
       option_Forall2 (fun l l' => l' ≡ₚ l) (k_q s !! h) (k_q s' !! h)) /\
    (exists ow' oc', k_tasks s' = <[k_currp s := oc']> (<[t := ow']> (k_tasks s)) /\
       t_prio ow' = Z.min (t_prio oc) (t_prio ow) /\ active (t_state ow') = active (t_state ow) /\
       tame (t_state ow) (t_state ow') = true /\
       t_state oc' = OSTHR_STATE_WTMTX /\ t_obj oc' = m /\
       t_real_prio ow' = t_real_prio ow /\ t_real_prio oc' = t_real_prio oc) /\
    forall x, remaining s' x = remaining s x) s.
Proof.
  intros Hi Hcc Hrun Hm Hoc Hac Hom Hown Ht Htc Hcnt How Hl Htl. pose proof Hi as (Hok & _).
  unfold isix_mutex_lock, mutex_lock_round.
  rewrite (proj2 (Z.eqb_neq m _)) by done. wp_step. apply wp_enter_critical; [done|].
  set (s0 := upd_critical_count _ _).
  destruct (same_clock_inv s s0) as [Hi0 Hrem0]; [done|done|].
  wp_step. eapply wp_mtx_get; [exact Hom|]. wp_step. wp_step.
  rewrite Hown, (proj2 (Z.eqb_neq t NULL)) by done. cbn [negb]. rewrite (proj2 (Z.ltb_ge _ _)) by lia.
  change (k_currp s0) with (k_currp s). rewrite (proj2 (Z.eqb_neq t (k_currp s))) by done.
  wp_step. eapply wp_task_get; [exact Hoc|]. wp_step. eapply wp_task_get; [exact How|].
  wp_step. eapply wp_mono; [apply (inherit_step t ow (t_prio oc) s0 Hi0 How); exact (r_range _ _ _ _ _ Hok _ _ Hoc)|].
  intros [] s1 [(Hok1 & Hsem1 & Ht1) Hf (ow' & Ets & Hpo & Hrp & Ha' & Hr') Hl1 Hrem1].
  pose proof (eq_sym (f_equal k_currp Hf : k_currp s = k_currp s1)) as Ec. rewrite <- Ec.
  assert (k_q s1 !! QMtx m = Some l) as Hlm.
  { specialize (Hl1 (QMtx m) eq_refl). change (k_q s0) with (k_q s) in Hl1. rewrite Hl in Hl1.
    inversion Hl1 as [? l' HE|]; subst. destruct HE as [_ E]. by rewrite E. }
  eapply wp_mono; [apply (mutex_block_spec m oc l s1); try done|].
  - rewrite <- (f_equal k_critical_count Hf : k_critical_count s + 1 = k_critical_count s1). lia.
  - rewrite <- Hrun. symmetry. exact (f_equal k_schrun Hf).
  - rewrite Ec, Ets. by rewrite lookup_insert_ne.
  - intros r s2 (-> & Hi2 & Hctl & Ecc & Hy & Hq & Hw & (oc' & Ets2 & Hst & Hob & _ & Hrc) & Hrem2).
    rewrite Ec in *. split_and!; [done|done|exact (eq_trans Hctl (eq_sym (f_equal ctl Hf)))| |done| | |
      exists ow', oc'; by rewrite Ets2, Ets|].
    + rewrite Ecc, <- (f_equal k_critical_count Hf : k_critical_count s + 1 = k_critical_count s1). lia.
    + rewrite Hq. f_equal. apply insert_before_first_ext. intros y Hy'. unfold prio_of.
      rewrite Ets, lookup_insert_ne; [done|]. by intros ->.
    + intros h Hh Hr. rewrite Hw by done. specialize (Hl1 h Hr). change (k_q s0) with (k_q s) in Hl1.
      destruct Hl1 as [? ? []|]; by constructor.
    + intros x. by rewrite Hrem2, Hrem1.
Qed.

(** C9: Locking a mutex another task owns blocks the caller with priority
    inheritance: the caller joins the waiters of the mutex by priority and gives up
    the processor, and the owner runs at least at the priority of the caller until
    it unlocks; its own priority is kept when it is higher. *)
Theorem mutex_lock_inherits m t om ow oc l s :
  sched_inv s -> 0 <= k_critical_count s -> k_schrun s = true -> m <> NULL ->
  k_tasks s !! k_currp s = Some oc -> active (t_state oc) = true ->
  k_mtxs s !! m = Some om -> m_owner om = t -> t <> NULL -> t <> k_currp s -> 1 <= m_count om ->
  k_tasks s !! t = Some ow -> k_q s !! QMtx m = Some l -> t ∉ l ->
  wp (isix_mutex_lock m) (fun r s' => r = Blocked /\ sched_inv s' /\
    k_q s' !! QMtx m = Some (prio_insert (k_tasks s) (t_prio oc) (k_currp s) l) /\
    (exists ow', k_tasks s' !! t = Some ow' /\ t_prio ow' = Z.min (t_prio oc) (t_prio ow)) /\
    (exists oc', k_tasks s' !! k_currp s = Some oc' /\ t_state oc' = OSTHR_STATE_WTMTX /\ t_obj oc' = m) /\
    k_pendsv s' = true /\ k_critical_count s' = k_critical_count s) s.
Proof.
  intros. eapply wp_mono; [by eapply mutex_lock_blocks_spec|].
  intros r s' (? & ? & _ & ? & ? & ? & _ & (ow' & oc' & Ets & ? & _ & _ & ? & ? & _) & _).
  split_and!; try done.
  - exists ow'. by rewrite Ets, lookup_insert_ne, lookup_insert_eq.
  - exists oc'. by rewrite Ets, lookup_insert_eq.
Qed.

End MutexProofs.
