(* ===== verification/MutexOwner.v ===== *)
(** * Ownership of the mutexes

    Every mutex is free, with no waiters, or held: its owner is a task, it is on the list
    of the mutexes of that task, its count is positive and the owner does not wait for it.
    The file states this invariant, shows how it behaves when a mutex changes hands, and
    proves [isix_mutex_lock] and [isix_mutex_unlock] correct on every branch. *)

From S2P Require Import Prelude.
From S2P Require Import DList.
From S2P Require Import Kernel.
From S2P Require Import Scheduler.
From S2P Require Import Events.
From S2P Require Import Mutex.
From S2P Require Import SchedInv.
From S2P Require Import SchedCore.
From S2P Require Import SchedTime.
From S2P Require Import SchedSleep.
From S2P Require Import SchedWake.
From S2P Require Import MutexProofs.
From stdpp Require Import base numbers gmap list sorting strings.
From Stdlib Require Import ZArith Lia.
Local Open Scope Z_scope.

Implicit Types (ts : gmap Z task) (mtxs : gmap Z mtx) (ml : gmap Z (list Z))
  (q : gmap qhead (list Z)).

(** ** The invariant *)

Definition free_mtx (o : mtx) (l : list Z) : Prop := m_owner o = NULL /\ m_count o = 0 /\ l = [].

Definition held_mtx ml (m : Z) (o : mtx) (l : list Z) : Prop :=
  m_owner o <> NULL /\ 1 <= m_count o < 2 ^ 31 /\ m_owner o ∉ l /\
  exists k, ml !! m_owner o = Some k /\ m ∈ k.

(** [d] is a mutex that is between two owners. *)
Record mtxs_ok (d : option Z) ts mtxs ml q : Prop := {
  mo_wf : store_wf ml;
  mo_null : ts !! NULL = None;
  mo_dom : forall t, is_Some (ml !! t) <-> is_Some (ts !! t);
  mo_real : forall t o, ts !! t = Some o -> 0 <= t_real_prio o <= CONFIG_ISIX_NUMBER_OF_PRIORITIES;
  mo_owned : forall t k m, ml !! t = Some k -> m ∈ k ->
    exists o, mtxs !! m = Some o /\ m_owner o = t;
  mo_mtx : forall m o, mtxs !! m = Some o -> d <> Some m ->
    exists l, q !! QMtx m = Some l /\ (free_mtx o l \/ held_mtx ml m o l);
  mo_between : forall m, d = Some m -> unlinked m ml;
  mo_obj : forall m, is_Some (q !! QMtx m) -> is_Some (mtxs !! m)
}.

(** An owned mutex is not the one in between. *)
Lemma mo_list d ts mtxs ml q t k m :
  mtxs_ok d ts mtxs ml q -> ml !! t = Some k -> m ∈ k -> exists o l,
    mtxs !! m = Some o /\ m_owner o = t /\ q !! QMtx m = Some l.
Proof.
  intros Hm Hk Hin. destruct (mo_owned _ _ _ _ _ Hm t k m Hk Hin) as (o & Ho & Hown).
  destruct (mo_mtx _ _ _ _ _ Hm m o Ho) as (l & Hl & _); [|eauto].
  intros ->. by apply (mo_between _ _ _ _ _ Hm m eq_refl t k Hk).
Qed.

(** A free mutex is on no list of a task. *)
Lemma mo_free_unlinked ts mtxs ml q m o :
  mtxs_ok None ts mtxs ml q -> mtxs !! m = Some o -> m_owner o = NULL -> unlinked m ml.
Proof.
  intros Hm Ho Hn t k Hk Hin. destruct (mo_owned _ _ _ _ _ Hm t k m Hk Hin) as (o' & Ho' & Hown).
  assert (o' = o) as -> by congruence. rewrite Hn in Hown. subst t.
  destruct (proj1 (mo_dom _ _ _ _ _ Hm NULL) (mk_is_Some _ _ Hk)) as [ot Hot].
  by rewrite (mo_null _ _ _ _ _ Hm) in Hot.
Qed.

(** The list of a held mutex, with its owner. *)
Lemma mo_held ts mtxs ml q m o :
  mtxs_ok None ts mtxs ml q -> mtxs !! m = Some o -> m_owner o <> NULL ->
  exists l k, q !! QMtx m = Some l /\ 1 <= m_count o < 2 ^ 31 /\ m_owner o ∉ l /\
    ml !! m_owner o = Some k /\ m ∈ k /\ is_Some (ts !! m_owner o).
Proof.
  intros Hm Ho Hn. destruct (mo_mtx _ _ _ _ _ Hm m o Ho) as (l & Hl & [[]|(_ & Hc & Hnl & k & Hk & Hin)]);
    [done|done|]. exists l, k. split_and!; try done; [lia|lia|]. by apply (mo_dom _ _ _ _ _ Hm); exists k.
Qed.

(** ** How the invariant changes *)

(** The tasks and the wait lists change, no mutex does. *)
Lemma mtxs_ok_frame d ts ts' mtxs ml q q' :
  mtxs_ok d ts mtxs ml q ->
  (forall t, option_Forall2 (fun o o' => t_real_prio o' = t_real_prio o) (ts !! t) (ts' !! t)) ->
  (forall m o l, mtxs !! m = Some o -> d <> Some m -> q !! QMtx m = Some l ->
     exists l', q' !! QMtx m = Some l' /\ (l = [] -> m_owner o = NULL -> l' = []) /\
       (m_owner o ∉ l -> m_owner o ∉ l')) ->
  (forall m, is_Some (q' !! QMtx m) -> is_Some (q !! QMtx m)) ->
  mtxs_ok d ts' mtxs ml q'.
Proof.
  intros [Hwf Hnull Hdom Hreal Howned Hmtx Hbt Hobj] Hts Hq Hq'.
  split; try done.
  - specialize (Hts NULL). rewrite Hnull in Hts. by inversion Hts.
  - intros t. rewrite Hdom. specialize (Hts t). inversion Hts; split; intros [? [=]]; eauto.
  - intros t o' Ho'. specialize (Hts t). rewrite Ho' in Hts. inversion Hts as [o ? E Ho|]; subst. rewrite E. eauto.
  - intros m o Ho Hd. destruct (Hmtx m o Ho Hd) as (l & Hl & Hst).
    destruct (Hq m o l Ho Hd Hl) as (l' & Hl' & H1 & H2). exists l'. split; [done|].
    destruct Hst as [(E1 & E2 & E3)|(E1 & E2 & E3 & E4)]; [left|right]; unfold free_mtx, held_mtx; split_and!; auto; lia.
  - auto.
Qed.

(** The wait lists of the mutexes are permuted at most. *)
Lemma mtxs_ok_permuted d ts ts' mtxs ml q q' :
  mtxs_ok d ts mtxs ml q ->
  (forall t, option_Forall2 (fun o o' => t_real_prio o' = t_real_prio o) (ts !! t) (ts' !! t)) ->
  (forall m, option_Forall2 (fun l l' => l' ≡ₚ l) (q !! QMtx m) (q' !! QMtx m)) ->
  mtxs_ok d ts' mtxs ml q'.
Proof.
  intros Hm Hts Hq. eapply mtxs_ok_frame; [done|done| |].
  2: { intros m. destruct (Hq m); [by eexists|done]. }
  intros m o l _ _ Hl. specialize (Hq m). rewrite Hl in Hq. inversion Hq as [? l' Hp E1 E2|]; subst. exists l'. split; [done|]. split.
  - intros -> _. by apply Permutation_nil_r.
  - by rewrite Hp.
Qed.

(** A task changes, but not its base priority. *)
Lemma mtxs_ok_upd_task d ts mtxs ml q t o o' :
  mtxs_ok d ts mtxs ml q -> ts !! t = Some o -> t_real_prio o' = t_real_prio o -> mtxs_ok d (<[t := o']> ts) mtxs ml q.
Proof.
  intros Hm Ho Hr. eapply mtxs_ok_permuted; [exact Hm| |].
  - intros x. rewrite lookup_insert. case_decide as E; [subst x; rewrite Ho; by constructor|]. by destruct (ts !! x); constructor.
  - intros m. by destruct (q !! QMtx m); constructor.
Qed.

Lemma is_Some_insert mtxs m o x : is_Some (mtxs !! x) -> is_Some (<[m := o]> mtxs !! x).
Proof. intros Hx. rewrite lookup_insert. by case_decide. Qed.

Lemma is_Some_upd ml t k k' x : ml !! t = Some k -> is_Some (<[t := k']> ml !! x) <-> is_Some (ml !! x).
Proof. intros Hk. rewrite lookup_insert. case_decide as E; [|done]. subst x. rewrite Hk. by split. Qed.

(** A held mutex leaves the list of its owner. *)
Lemma mtxs_ok_detach ts mtxs ml q t k m :
  mtxs_ok None ts mtxs ml q -> ml !! t = Some k -> m ∈ k ->
  mtxs_ok (Some m) ts mtxs (<[t := remove_node m k]> ml) q.
Proof.
  intros Hm Hk Hin. pose proof Hm as [Hwf Hnull Hdom Hreal Howned Hmtx Hbt Hobj].
  destruct (seq_delete_in m ml t k Hwf Hk Hin) as (_ & Hwf' & Hu). split; try done.
  - intros x. rewrite <- Hdom. by eapply is_Some_upd.
  - intros x kx m'. rewrite lookup_insert. case_decide as E; [subst x|by apply Howned].
    intros [= <-] [Hm' _]%elem_of_remove_node. by eapply Howned.
  - intros m' o Ho Hd. destruct (Hmtx m' o Ho) as (l & Hl & Hst); [done|]. exists l. split; [done|].
    destruct Hst as [|(E1 & E2 & E3 & kx & Hkx & Hx)]; [by left|right]. unfold held_mtx. split_and!; try done; try lia.
    destruct (decide (m_owner o = t)) as [Ht|Ht]; [|exists kx; by rewrite lookup_insert_ne by congruence].
    rewrite Ht in Hkx |- *. assert (kx = k) as -> by congruence. exists (remove_node m k). rewrite lookup_insert_eq.
    split; [done|]. apply elem_of_remove_node. split; [done|congruence].
  - by intros m' [= <-].
Qed.

(** A free mutex is about to be taken. *)
Lemma mtxs_ok_open ts mtxs ml q m o :
  mtxs_ok None ts mtxs ml q -> mtxs !! m = Some o -> m_owner o = NULL -> mtxs_ok (Some m) ts mtxs ml q.
Proof.
  intros Hm Ho Hn. pose proof (mo_free_unlinked _ _ _ _ _ _ Hm Ho Hn) as Hu.
  destruct Hm. split; try done; [|by intros m' [= <-]]. intros m' o' Ho' _. by apply mo_mtx0.
Qed.

Lemma insert_second_perm (n : Z) l : insert_second n l ≡ₚ n :: l.
Proof. destruct l; simpl; [done|apply Permutation_swap]. Qed.

(** The mutex gets an owner. *)
Lemma mtxs_ok_acquire ts mtxs ml q m t k l o :
  mtxs_ok (Some m) ts mtxs ml q -> ml !! t = Some k -> q !! QMtx m = Some l ->
  m_owner o = t -> 1 <= m_count o < 2 ^ 31 -> t ∉ l ->
  seq_insert_first t m ml = Some (<[t := insert_second m k]> ml) /\
  mtxs_ok None ts (<[m := o]> mtxs) (<[t := insert_second m k]> ml) q.
Proof.
  intros Hm Hk Hl Ho Hc Ht. pose proof Hm as [Hwf Hnull Hdom Hreal Howned Hmtx Hbt Hobj].
  specialize (Hbt m eq_refl).
  destruct (seq_insert_with_ok (insert_second m) m ml t k Hwf Hbt Hk) as [E Hwf']; [apply insert_second_perm|].
  split; [exact E|]. split; try done.
  - intros x. rewrite <- Hdom. by eapply is_Some_upd.
  - assert (forall x kx m', ml !! x = Some kx -> m' ∈ kx -> m' <> m) as Hne.
    { intros x kx m' Hkx Hin ->. by apply (Hbt x kx). }
    intros x kx m'. rewrite (lookup_insert ml). case_decide as Ex.
    + subst x. intros [= <-]. rewrite insert_second_perm, elem_of_cons. intros [->|Hin].
      * exists o. by rewrite lookup_insert_eq.
      * rewrite lookup_insert_ne by (symmetry; by eapply Hne). by eapply Howned.
    + intros Hkx Hin. rewrite lookup_insert_ne by (symmetry; by eapply Hne). by eapply Howned.
  - intros m' o'. rewrite lookup_insert. case_decide as Em.
    + subst m'. intros [= <-] _. exists l. split; [done|]. right. unfold held_mtx. rewrite Ho. split_and!; try done; try lia.
      * intros ->. destruct (proj1 (Hdom NULL) (mk_is_Some _ _ Hk)) as [ot Hot]. by rewrite Hnull in Hot.
      * exists (insert_second m k). rewrite lookup_insert_eq. split; [done|]. rewrite insert_second_perm. by left.
    + intros Ho' _. destruct (Hmtx m' o' Ho') as (l' & Hl' & Hst); [congruence|]. exists l'. split; [done|].
      destruct Hst as [|(E1 & E2 & E3 & kx & Hkx & Hx)]; [by left|right]. unfold held_mtx. split_and!; try done; try lia.
      destruct (decide (m_owner o' = t)) as [Eo|Eo]; [|exists kx; by rewrite lookup_insert_ne by congruence].
      rewrite Eo in *. assert (kx = k) as -> by congruence. exists (insert_second m k). rewrite lookup_insert_eq.
      split; [done|]. rewrite insert_second_perm. by right.
  - intros x Hx. by apply is_Some_insert, Hobj.
Qed.

(** What is stored at a mutex in between does not matter. *)
Lemma mtxs_ok_other ts mtxs ml q m o :
  mtxs_ok (Some m) ts mtxs ml q -> mtxs_ok (Some m) ts (<[m := o]> mtxs) ml q.
Proof.
  intros [Hwf Hnull Hdom Hreal Howned Hmtx Hbt Hobj]. split; try done.
  - intros x k m' Hk Hin. rewrite lookup_insert_ne; [by eapply Howned|].
    intros <-. by apply (Hbt m eq_refl x k).
  - intros m' o' [[<- _]|[_ Ho']]%lookup_insert_Some Hd; [done|by apply Hmtx].
  - intros x Hx. by apply is_Some_insert, Hobj.
Qed.

(** Nobody takes the mutex. *)
Lemma mtxs_ok_release ts mtxs ml q m o :
  mtxs_ok (Some m) ts mtxs ml q -> q !! QMtx m = Some [] -> m_owner o = NULL -> m_count o = 0 ->
  mtxs_ok None ts (<[m := o]> mtxs) ml q.
Proof.
  intros [Hwf Hnull Hdom Hreal Howned Hmtx Hbt Hobj] Hl Ho Hc. split; try done.
  - intros x k m' Hk Hin. rewrite lookup_insert_ne; [by eapply Howned|].
    intros <-. by apply (Hbt m eq_refl x k).
  - intros m' o'. rewrite lookup_insert. case_decide as Em.
    + subst m'. intros [= <-] _. exists []. split; [done|by left].
    + intros Ho' _. apply Hmtx; [done|congruence].
  - intros x Hx. by apply is_Some_insert, Hobj.
Qed.

(** Only the count of a held mutex changes. *)
Lemma mtxs_ok_count ts mtxs ml q m o c :
  mtxs_ok None ts mtxs ml q -> mtxs !! m = Some o -> m_owner o <> NULL -> 1 <= c < 2 ^ 31 ->
  mtxs_ok None ts (<[m := set_m_count c o]> mtxs) ml q.
Proof.
  intros Hm Ho Hn Hc. pose proof (mo_held _ _ _ _ _ _ Hm Ho Hn) as (l & k & Hl & _ & Hnl & Hk & Hin & _).
  destruct Hm as [Hwf Hnull Hdom Hreal Howned Hmtx Hbt Hobj]. split; try done.
  - intros x kx m' Hkx Hx. destruct (Howned x kx m' Hkx Hx) as (o' & Ho' & Hown).
    rewrite lookup_insert. case_decide as E; [|by exists o']. subst m'. exists (set_m_count c o). by simplify_eq.
  - intros m' o'. rewrite lookup_insert. case_decide as E; [|by apply Hmtx]. subst m'. intros [= <-] _.
    exists l. split; [done|]. right. unfold held_mtx. simpl. split_and!; try done; [lia..|]. by exists k.
  - intros x Hx. by apply is_Some_insert, Hobj.
Qed.

Section MutexOwner.
Context {HS : Type} {AL : Allocator HS}.
Implicit Types s : kstate HS.

Definition mtx_inv s : Prop := mtxs_ok None (k_tasks s) (k_mtxs s) (k_ml s) (k_q s).

(** What is put off, the caller, the scheduler and the events are the same. *)
Definition run_core s := (debt s, k_currp s, k_schrun s, k_sched_lock s, k_evs s).
Definition same_core s s' : Prop := run_core s' = run_core s.

(** The heap and the other bystanders as well. *)
Definition run_ctl s := (run_core s, bystanders s).
Definition same_run s s' : Prop := run_ctl s' = run_ctl s.

Lemma same_core_elim s s' : same_core s s' ->
  k_currp s' = k_currp s /\ k_schrun s' = k_schrun s /\ k_sched_lock s' = k_sched_lock s /\ k_evs s' = k_evs s.
Proof. unfold same_core, run_core. by intros [= _ _ _ _ -> -> -> ->]. Qed.

Lemma same_core_debt s s' : same_core s s' -> debt s' = debt s.
Proof. intros H. exact (f_equal (fun '(d, _, _, _, _) => d) H). Qed.

Lemma same_run_core s s' : same_run s s' -> same_core s s'.
Proof. intros H. exact (f_equal fst H). Qed.

Lemma same_run_bystanders s s' : same_run s s' -> bystanders s' = bystanders s.
Proof. intros H. exact (f_equal snd H). Qed.

Lemma same_run_elim s s' : same_run s s' ->
  k_currp s' = k_currp s /\ k_schrun s' = k_schrun s /\ k_sched_lock s' = k_sched_lock s /\ k_evs s' = k_evs s.
Proof. intros H%same_run_core. by apply same_core_elim. Qed.

Lemma same_run_debt s s' : same_run s s' -> debt s' = debt s.
Proof. intros H%same_run_core. by apply same_core_debt. Qed.

Lemma same_run_dead s s' : same_run s s' -> k_ndeleted s' = k_ndeleted s.
Proof. intros H%same_run_debt. exact (f_equal (fun '(n, _, _, _) => n) H). Qed.

Lemma wp_mtx_upd m o f (Q : unit -> kstate HS -> Prop) s :
  k_mtxs s !! m = Some o -> Q tt (upd_mtxs (insert m (f o)) s) -> wp (mtx_upd m f) Q s.
Proof. intros E HQ. unfold mtx_upd. wp_step. eapply wp_mtx_get; [exact E|]. by wp_step. Qed.

Lemma wp_ml_store f ml' (Q : unit -> kstate HS -> Prop) s :
  f (k_ml s) = Some ml' -> Q tt (upd_ml (fun _ => ml') s) -> wp (ml_store f) Q s.
Proof. intros E HQ. unfold ml_store. do 3 wp_step. wp_step; [exact E|]. by wp_step. Qed.

Lemma wp_ml_list t k (Q : list Z -> kstate HS -> Prop) s :
  k_ml s !! t = Some k -> Q k s -> wp (ml_list t) Q s.
Proof. intros E HQ. unfold ml_list. wp_step. wp_step. by eapply wp_of_option. Qed.

(** ** isix_mutex_lock *)

(** A free mutex is taken at once. *)
Lemma mutex_lock_free m om k s :
  mtx_inv s -> 0 <= k_critical_count s -> m <> NULL ->
  k_mtxs s !! m = Some om -> m_owner om = NULL -> k_ml s !! k_currp s = Some k ->
  wp (isix_mutex_lock m) (fun r s' => r = Done ISIX_EOK /\ mtx_inv s' /\
    k_mtxs s' = <[m := Mtx 1 (k_currp s) (m_static om)]> (k_mtxs s) /\
    k_ml s' = <[k_currp s := insert_second m k]> (k_ml s) /\
    same_clock s s' /\ same_run s s' /\ k_critical_count s' = k_critical_count s) s.
Proof.
  intros Hm Hcc Hm0 Hom Hown Hk. unfold isix_mutex_lock, mutex_lock_round.
  rewrite (proj2 (Z.eqb_neq m _)) by done. wp_step. apply wp_enter_critical; [done|].
  wp_step. eapply wp_mtx_get; [exact Hom|]. wp_step. wp_step. rewrite Hown. change (negb (NULL =? NULL)) with false.
  destruct (mo_mtx _ _ _ _ _ Hm m om Hom) as (l & Hl & [(_ & Hc & Hnil)|[Hn _]]); [done| |done].
  cbv iota. wp_step. unfold set_ownership_to_current. wp_step. eapply wp_mtx_get; [exact Hom|].
  rewrite Hc. change (negb (0 =? 0)) with false. cbv iota.
  wp_step. eapply wp_mtx_upd; [exact Hom|]. wp_step. wp_step. wp_step.
  eapply wp_mtx_upd; [apply lookup_insert_eq|].
  change (k_currp (upd_mtxs _ _)) with (k_currp s).
  set (o' := set_m_owner (k_currp s) (set_m_count (0 + 1) om)).
  destruct (mtxs_ok_acquire _ _ _ _ m (k_currp s) k l o' (mtxs_ok_open _ _ _ _ _ _ Hm Hom Hown) Hk Hl) as [E Hm'];
    [done|simpl; lia|subst l; apply not_elem_of_nil|].
  eapply wp_ml_store; [exact E|]. wp_step. apply wp_exit_critical; [simpl; lia|]. wp_step.
  split_and!; [done| | |done|done|done|simpl; lia].
  - unfold mtx_inv. simpl. by rewrite insert_insert_eq.
  - simpl. by rewrite insert_insert_eq.
Qed.

(** The owner locks once more. *)
Lemma mutex_lock_own m om s :
  mtx_inv s -> 0 <= k_critical_count s -> m <> NULL -> k_currp s <> NULL ->
  k_mtxs s !! m = Some om -> m_owner om = k_currp s -> m_count om < 2 ^ 31 - 1 ->
  wp (isix_mutex_lock m) (fun r s' => r = Done ISIX_EOK /\ mtx_inv s' /\
    k_mtxs s' = <[m := set_m_count (m_count om + 1) om]> (k_mtxs s) /\ k_ml s' = k_ml s /\
    same_clock s s' /\ same_run s s' /\ k_critical_count s' = k_critical_count s) s.
Proof.
  intros Hm Hcc Hm0 Hcur Hom Hown Hroom. unfold isix_mutex_lock, mutex_lock_round.
  destruct (mo_held _ _ _ _ _ _ Hm Hom) as (l & k & _ & Hc & _); [by rewrite Hown|].
  rewrite (proj2 (Z.eqb_neq m _)) by done. wp_step. apply wp_enter_critical; [done|].
  wp_step. eapply wp_mtx_get; [exact Hom|]. wp_step. wp_step. rewrite Hown.
  rewrite (proj2 (Z.eqb_neq _ NULL)) by done. cbn [negb]. rewrite (proj2 (Z.ltb_ge _ _)) by lia.
  match goal with |- context [k_currp s =? ?x] => change x with (k_currp s) end. rewrite Z.eqb_refl.
  rewrite i32_id by (unfold in_i32; lia). wp_step. eapply wp_mtx_upd; [exact Hom|].
  wp_step. apply wp_exit_critical; [simpl; lia|]. wp_step.
  split_and!; [done| |done|done|done|done|simpl; lia]. apply mtxs_ok_count; [done|done|by rewrite Hown|lia].
Qed.

(** ** isix_mutex_unlock *)

(** What the hand-over of a mutex changes. *)
Definition erase_owner s : kstate HS :=
  upd_q (fun _ => ∅) (upd_ml (fun _ => ∅) (upd_mtxs (fun _ => ∅) s)).

(** [ml'] is [ml] without [m], which may be on no list. *)
Definition without_mutex (m : Z) (ml ml' : gmap Z (list Z)) : Prop :=
  if seq_linked m ml then seq_delete m ml = Some ml' else ml' = ml.

Lemma without_unlinked m ml : unlinked m ml -> without_mutex m ml ml.
Proof. intros Hu. unfold without_mutex. by rewrite (proj2 (seq_linked_false m ml)). Qed.

Lemma without_owned m ml u ms :
  store_wf ml -> ml !! u = Some ms -> m ∈ ms -> without_mutex m ml (<[u := remove_node m ms]> ml).
Proof.
  intros Hwf Hms Hin. unfold without_mutex.
  replace (seq_linked m ml) with true; [by apply seq_delete_in|].
  symmetry. unfold seq_linked. apply bool_decide_eq_true. by exists u, ms.
Qed.

(** [if( list_is_elem_assigned( &mutex->inode ) ) list_delete( &mutex->inode );] *)
Lemma detach_mutex {R} (k : K HS R) Q m ml' s :
  without_mutex m (k_ml s) ml' -> wp k Q (upd_ml (fun _ => ml') s) ->
  wp (assigned <- ml_assigned m;; when assigned (ml_delete m);;; k) Q s.
Proof.
  intros Hml HQ. unfold ml_assigned. do 4 wp_step. unfold without_mutex in Hml.
  destruct (seq_linked m (k_ml s)); cbn [when].
  - by eapply wp_ml_store.
  - subst ml'. wp_step. by destruct s.
Qed.

(** The first waiter becomes the owner; it is on no list until it is made ready. *)
Lemma transfer_spec m o t l k ml' s :
  ready_inv None s -> without_mutex m (k_ml s) ml' -> mtxs_ok (Some m) (k_tasks s) (k_mtxs s) ml' (k_q s) ->
  k_mtxs s !! m = Some o -> k_q s !! QMtx m = Some (t :: l) -> ml' !! t = Some k ->
  wp (transfer_mtx_ownership_to_next_waiting_task m) (fun r s' => r = t /\ ready_inv (Some t) s' /\
    mtx_inv s' /\ erase_owner s' = erase_owner s /\
    k_q s' = <[QMtx m := l]> (k_q s) /\ k_ml s' = <[t := insert_second m k]> ml' /\
    k_mtxs s' = <[m := Mtx 1 t (m_static o)]> (k_mtxs s)) s.
Proof.
  intros Hok Hwo Hm Ho Hl Hk. unfold transfer_mtx_ownership_to_next_waiting_task.
  assert (NoDup (t :: l)) as Hnd by (by eapply (r_qwf _ _ _ _ _ Hok)).
  assert (t ∈ t :: l) as Hin by left.
  destruct (seq_delete_in t (k_q s) (QMtx m) _ (r_qwf _ _ _ _ _ Hok) Hl Hin) as (Hdel & _ & _).
  pose proof (ready_ok_q_delete _ _ _ _ _ _ t Hok Hl Hin eq_refl) as Hok1.
  rewrite remove_node_head in Hdel, Hok1 by done.
  wp_step. eapply wp_mtx_upd; [exact Ho|]. wp_step. eapply wp_q_list; [exact Hl|]. cbv iota beta.
  wp_step. eapply wp_mtx_upd; [apply lookup_insert_eq|]. wp_step. eapply wp_q_store; [exact Hdel|].
  wp_step. eapply detach_mutex; [exact Hwo|].
  assert (mtxs_ok (Some m) (k_tasks s) (k_mtxs s) ml' (<[QMtx m := l]> (k_q s))) as Hm1.
  { eapply mtxs_ok_frame; [exact Hm|intros x; by destruct (k_tasks s !! x); constructor|..].
    - intros m' o' l' _ Hne Hl'. exists l'. rewrite lookup_insert_ne by congruence. by split_and!.
    - intros m'. rewrite lookup_insert. case_decide as E; [|done]. injection E as <-. by rewrite Hl. }
  destruct (mtxs_ok_acquire _ _ _ _ m t k l (set_m_owner t (set_m_count 1 o)) Hm1 Hk (lookup_insert_eq _ _ _))
    as [E Hm2]; [done|simpl; lia|by apply NoDup_cons in Hnd as [? _]|].
  wp_step. eapply wp_ml_store; [exact E|]. wp_step.
  assert (forall x, <[m := set_m_owner t (set_m_count 1 o)]> (<[m := x]> (k_mtxs s)) =
    <[m := Mtx 1 t (m_static o)]> (k_mtxs s)) as Em by (intros x; by rewrite insert_insert_eq).
  split_and!; [done|exact Hok1| |done|done|done|apply Em]. unfold mtx_inv. simpl. by rewrite insert_insert_eq.
Qed.

(** The mutex is not locked, or not by the caller. *)
Lemma mutex_unlock_refused m om s :
  0 <= k_critical_count s -> m <> NULL -> k_mtxs s !! m = Some om -> m_owner om <> k_currp s ->
  (m_owner om <> NULL -> 1 <= m_count om) ->
  wp (isix_mutex_unlock m) (fun r s' =>
    r = (if decide (m_owner om = NULL) then ISIX_ENOTLOCKED else ISIX_EPERM) /\
    same_clock s s' /\ same_ctl s s' /\ k_critical_count s' = k_critical_count s) s.
Proof.
  intros Hcc Hm0 Hom Hown Hc. unfold isix_mutex_unlock. rewrite (proj2 (Z.eqb_neq m _)) by done.
  wp_step. apply wp_enter_critical; [done|]. wp_step. eapply wp_mtx_get; [exact Hom|].
  case_decide as Hd.
  - rewrite Hd, Z.eqb_refl. wp_step. apply wp_exit_critical; [simpl; lia|]. wp_step.
    split_and!; [done|done|done|simpl; lia].
  - rewrite (proj2 (Z.eqb_neq _ _)) by done. rewrite (proj2 (Z.ltb_ge _ _)) by (specialize (Hc Hd); lia).
    wp_step. wp_step. match goal with |- context [_ =? ?x] => change x with (k_currp s) end.
    rewrite (proj2 (Z.eqb_neq _ _)) by done. cbn [negb].
    wp_step. apply wp_exit_critical; [simpl; lia|]. wp_step. split_and!; [done|done|done|simpl; lia].
Qed.

(** The outermost part of [isix_mutex_unlock], when the caller owns the mutex. *)
Lemma mutex_unlock_own m om s (Q : Z -> kstate HS -> Prop) :
  mtx_inv s -> 0 <= k_critical_count s -> m <> NULL -> k_currp s <> NULL ->
  k_mtxs s !! m = Some om -> m_owner om = k_currp s ->
  (forall s1, s1 = upd_mtxs (insert m (set_m_count (m_count om - 1) om))
       (upd_critical_count (fun c => c + 1) (upd_masked (fun _ => true) s)) ->
     wp (if m_count om - 1 =? 0 then
           owned <- ml_list (k_currp s);;
           if negb (bool_decide (m ∈ owned)) then panic "Not in mutex ownership list" else
           ml_delete m;;;
           l <- q_list (QMtx m);;
           match l with
           | _ :: _ =>
               newprio <- calc_inherited_priority (k_currp s);;
               _isixp_reallocate_priority (k_currp s) newprio;;;
               next <- transfer_mtx_ownership_to_next_waiting_task m;;
               _isixp_wakeup_task next ISIX_EOK;;;
               ret ISIX_EOK
           | [] => mtx_upd m (set_m_owner NULL);;; isix_exit_critical;;; ret ISIX_EOK
           end
         else isix_exit_critical;;; ret ISIX_EOK) Q s1) ->
  wp (isix_mutex_unlock m) Q s.
Proof.
  intros Hm Hcc Hm0 Hcur Hom Hown HQ. unfold isix_mutex_unlock.
  destruct (mo_held _ _ _ _ _ _ Hm Hom) as (l & k & _ & Hc & _); [by rewrite Hown|].
  rewrite (proj2 (Z.eqb_neq m _)) by done. wp_step. apply wp_enter_critical; [done|].
  wp_step. eapply wp_mtx_get; [exact Hom|]. rewrite Hown, (proj2 (Z.eqb_neq _ NULL)) by done.
  rewrite (proj2 (Z.ltb_ge _ _)) by lia. wp_step. wp_step.
  match goal with |- context [k_currp s =? ?x] => change x with (k_currp s) end. rewrite Z.eqb_refl. cbn [negb].
  wp_step. eapply wp_mtx_upd; [exact Hom|]. by apply HQ.
Qed.
(** The owner unlocks a mutex it has locked several times. *)
Lemma mutex_unlock_nested m om s :
  mtx_inv s -> 0 <= k_critical_count s -> m <> NULL -> k_currp s <> NULL ->
  k_mtxs s !! m = Some om -> m_owner om = k_currp s -> 1 < m_count om ->
  wp (isix_mutex_unlock m) (fun r s' => r = ISIX_EOK /\ mtx_inv s' /\
    k_mtxs s' = <[m := set_m_count (m_count om - 1) om]> (k_mtxs s) /\ k_ml s' = k_ml s /\
    same_clock s s' /\ same_run s s' /\ k_critical_count s' = k_critical_count s) s.
Proof.
  intros Hm Hcc Hm0 Hcur Hom Hown Hc. eapply mutex_unlock_own; try done. intros s1 ->.
  rewrite (proj2 (Z.eqb_neq _ 0)) by lia. wp_step. apply wp_exit_critical; [simpl; lia|]. wp_step.
  destruct (mo_held _ _ _ _ _ _ Hm Hom) as (l & k & _ & Hr & _); [by rewrite Hown|].
  split_and!; [done| |done|done|done|done|simpl; lia]. apply mtxs_ok_count; [done|done|by rewrite Hown|lia].
Qed.

(** [owned <- ml_list cur;; if mutex is not there panic;;; ml_delete mutex] *)
Lemma leave_owner_list {R} (k : K HS R) Q mtxs m o t ms s :
  mtxs_ok None (k_tasks s) mtxs (k_ml s) (k_q s) -> k_mtxs s = <[m := o]> mtxs ->
  k_ml s !! t = Some ms -> m ∈ ms ->
  (mtxs_ok (Some m) (k_tasks s) (k_mtxs s) (<[t := remove_node m ms]> (k_ml s)) (k_q s) ->
   wp k Q (upd_ml (fun _ => <[t := remove_node m ms]> (k_ml s)) s)) ->
  wp (owned <- ml_list t;;
      if negb (bool_decide (m ∈ owned)) then panic "Not in mutex ownership list" else ml_delete m;;; k) Q s.
Proof.
  intros Hm Em Hk Hin HQ. wp_step. eapply wp_ml_list; [exact Hk|].
  rewrite bool_decide_eq_true_2 by done. cbn [negb].
  destruct (seq_delete_in m (k_ml s) t ms (mo_wf _ _ _ _ _ Hm) Hk Hin) as (Hd & _ & _).
  wp_step. eapply wp_ml_store; [exact Hd|]. apply HQ. rewrite Em. by apply mtxs_ok_other, mtxs_ok_detach.
Qed.

(** Nobody waits: the mutex is free. *)
Lemma mutex_unlock_free m om ms s :
  mtx_inv s -> 0 <= k_critical_count s -> m <> NULL -> k_currp s <> NULL ->
  k_mtxs s !! m = Some om -> m_owner om = k_currp s -> m_count om = 1 ->
  k_q s !! QMtx m = Some [] -> k_ml s !! k_currp s = Some ms ->
  wp (isix_mutex_unlock m) (fun r s' => r = ISIX_EOK /\ mtx_inv s' /\
    k_mtxs s' = <[m := Mtx 0 NULL (m_static om)]> (k_mtxs s) /\
    k_ml s' = <[k_currp s := remove_node m ms]> (k_ml s) /\
    same_clock s s' /\ same_run s s' /\ k_critical_count s' = k_critical_count s) s.
Proof.
  intros Hm Hcc Hm0 Hcur Hom Hown Hc Hl Hms. eapply mutex_unlock_own; try done. intros s1 ->.
  rewrite Hc. change (1 - 1 =? 0) with true. cbv iota.
  destruct (mo_held _ _ _ _ _ _ Hm Hom) as (l & k & _ & _ & _ & Hk & Hin & _); [by rewrite Hown|].
  rewrite Hown, Hms in Hk. injection Hk as <-.
  eapply leave_owner_list; [exact Hm|done|exact Hms|exact Hin|]. intros Hm1.
  wp_step. eapply wp_q_list; [exact Hl|]. cbv iota beta.
  wp_step. eapply wp_mtx_upd; [apply lookup_insert_eq|].
  wp_step. apply wp_exit_critical; [simpl; lia|]. wp_step.
  pose proof (mtxs_ok_release _ _ _ _ _ (Mtx 0 NULL (m_static om)) Hm1 Hl eq_refl eq_refl) as Hm2.
  simpl in Hm2. rewrite insert_insert_eq in Hm2.
  split_and!; [done| | |done|done|done|simpl; lia]; [|simpl; by rewrite insert_insert_eq].
  unfold mtx_inv. simpl. by rewrite insert_insert_eq.
Qed.

(** The hand-over: the first waiter owns the mutex and is ready; the caller falls back to
    the priority it still inherits through the mutexes it keeps. *)
Record handed_over (m : Z) (om : mtx) (oc : task) (ms : list Z) (t : Z) (l : list Z) s s' : Prop := {
  ho_sched : sched_inv s';
  ho_mtx : mtx_inv s';
  ho_run : same_run s s';
  ho_count : k_critical_count s' = k_critical_count s;
  ho_mtxs : k_mtxs s' = <[m := Mtx 1 t (m_static om)]> (k_mtxs s);
  ho_list : k_q s' !! QMtx m = Some l;
  ho_lists : forall h, h <> QMtx m -> is_ready_head h = false -> k_q s' !! h = k_q s !! h;
  ho_ml : k_ml s' !! k_currp s = Some (remove_node m ms) /\
    exists kt, k_ml s' !! t = Some kt /\ m ∈ kt;
  ho_tasks : exists ot ot' oc' p,
    k_tasks s !! t = Some ot /\ k_tasks s' = <[t := ot']> (<[k_currp s := oc']> (k_tasks s)) /\
    t_state ot' = OSTHR_STATE_READY /\ t_dmsg ot' = ISIX_EOK /\ t_prio ot' = t_prio ot /\
    t_real_prio ot' = t_real_prio ot /\ (forall x, x ∈ l -> t_prio ot <= prio_of (k_tasks s) x) /\
    highest_inherited s (remove_node m ms) (t_real_prio oc) p /\ t_prio oc' = p /\
    t_real_prio oc' = t_real_prio oc /\ t_state oc' = OSTHR_STATE_READY /\
    (t_prio ot < p -> k_pendsv s' = true);
  ho_rest : forall x, remaining s' x = remaining s x
}.

Lemma highest_inherited_range s ms real p :
  ready_inv None s -> 0 <= real <= CONFIG_ISIX_NUMBER_OF_PRIORITIES -> highest_inherited s ms real p ->
  0 <= p <= CONFIG_ISIX_NUMBER_OF_PRIORITIES.
Proof.
  intros Hok Hr (Hle & _ & [->|(m & l & x & _ & Hl & Hx & ->)]); [done|]. split; [|lia].
  destruct (r_at _ _ _ _ _ Hok _ _ x Hl Hx) as (o & Ho & _). unfold prio_of. rewrite Ho.
  by apply (r_range _ _ _ _ _ Hok x o).
Qed.

(** The caller gives up what it inherited through the mutex. *)
Lemma drop_inherited m oc ms t l s (Q : unit -> kstate HS -> Prop) :
  sched_inv s -> mtxs_ok (Some m) (k_tasks s) (k_mtxs s) (k_ml s) (k_q s) ->
  k_tasks s !! k_currp s = Some oc -> active (t_state oc) = true -> k_ml s !! k_currp s = Some ms ->
  k_q s !! QMtx m = Some (t :: l) ->
  (forall s' p oc', sched_inv s' -> mtxs_ok (Some m) (k_tasks s') (k_mtxs s') (k_ml s') (k_q s') ->
     frame_ready s s' -> same_waiting s s' -> highest_inherited s ms (t_real_prio oc) p ->
     k_tasks s' = <[k_currp s := oc']> (k_tasks s) -> t_prio oc' = p -> t_real_prio oc' = t_real_prio oc ->
     t_state oc' = OSTHR_STATE_READY -> (forall x, remaining s' x = remaining s x) -> Q tt s') ->
  wp (newprio <- calc_inherited_priority (k_currp s);; _isixp_reallocate_priority (k_currp s) newprio) Q s.
Proof.
  intros Hi Hm Hoc Hac Hms Hl HQ. pose proof Hi as (Hok & _).
  wp_step. eapply wp_mono; [apply (calc_inherited_spec (k_currp s) oc ms s Hok Hoc Hms)|].
  { intros m' Hin. destruct (mo_list _ _ _ _ _ _ _ _ Hm Hms Hin) as (_ & l' & _ & _ & Hl'). by exists l'. }
  intros p s' [-> Hh].
  pose proof (highest_inherited_range _ _ _ _ Hok (mo_real _ _ _ _ _ Hm _ _ Hoc) Hh) as Hr.
  eapply wp_mono; [by apply (reallocate_priority_sched (k_currp s) oc p s)|].
  intros [] s1 ([_ Hf (oc' & Ets & Hp & Hrp & _ & _ & Hst) Hre _] & Hi1 & Hrem).
  pose proof (reordered_active _ _ _ _ Hok Hoc Hac Hre) as Hw.
  rewrite Hac in Hst. eapply (HQ s1 p oc'); try done.
  rewrite <- (f_equal k_mtxs Hf : k_mtxs s = k_mtxs s1), <- (f_equal k_ml Hf : k_ml s = k_ml s1).
  eapply mtxs_ok_permuted; [exact Hm| |].
  - intros x. rewrite Ets, lookup_insert. case_decide as E; [subst x; rewrite Hoc; by constructor|].
    by destruct (k_tasks s !! x); constructor.
  - intros m'. rewrite Hw by done. by destruct (k_q s !! QMtx m'); constructor.
Qed.

(** The new owner is made ready. *)
Lemma transfer_wakes m o t l kt oc s (Q : unit -> kstate HS -> Prop) :
  sched_inv s -> mtxs_ok (Some m) (k_tasks s) (k_mtxs s) (k_ml s) (k_q s) ->
  k_schrun s = true -> 0 < k_critical_count s ->
  k_mtxs s !! m = Some o -> k_q s !! QMtx m = Some (t :: l) -> k_ml s !! t = Some kt ->
  k_tasks s !! k_currp s = Some oc -> t <> k_currp s ->
  (forall s1 s2 ot, k_tasks s !! t = Some ot -> erase_owner s1 = erase_owner s ->
     k_q s1 = <[QMtx m := l]> (k_q s) -> k_ml s1 = <[t := insert_second m kt]> (k_ml s) ->
     k_mtxs s1 = <[m := Mtx 1 t (m_static o)]> (k_mtxs s) -> waked t ot ISIX_EOK s1 s2 -> mtx_inv s2 ->
     (forall x, remaining s2 x = remaining s x) ->
     Q tt (yielded (t_prio ot <? t_prio oc) (left_critical s2))) ->
  wp (next <- transfer_mtx_ownership_to_next_waiting_task m;; _isixp_wakeup_task next ISIX_EOK) Q s.
Proof.
  intros (Hok & Hsem & Ht) Hm Hrun Hcc Ho Hl Hk Hoc Hne HQ.
  destruct (r_at _ _ _ _ _ Hok _ _ t Hl) as (ot & Hot & Hst & _); [by left|].
  wp_step. eapply wp_mono; [apply (transfer_spec m o t l kt (k_ml s) s); try done; by apply without_unlinked, (mo_between _ _ _ _ _ Hm)|].
  intros r s1 (-> & Hok1 & Hm1 & Hf & Eq & Eml & Em).
  pose proof (f_equal k_tasks Hf : k_tasks s1 = k_tasks s) as Ets.
  pose proof (f_equal k_currp Hf : k_currp s1 = k_currp s) as Ec.
  destruct (time_inv_frame s s1 Ht) as (Ht1 & _ & _ & Hrem1);
    [exact (f_equal k_tl Hf)|exact (f_equal k_pwait Hf)|exact (f_equal k_jiffies Hf)|intros; by rewrite Ets|].
  assert (sems_ok s1) as Hsem1.
  { unfold sems_ok. rewrite (f_equal k_sems Hf : k_sems s1 = k_sems s).
    eapply sem_counts_frame; [exact Hsem|]. intros a. rewrite Eq. by rewrite lookup_insert_ne. }
  eapply wp_mono; [apply (isixp_wakeup_task_spec t ot oc ISIX_EOK s1); try done|].
  - by rewrite Ets.
  - by rewrite Hst.
  - by rewrite Hst.
  - by rewrite (f_equal k_schrun Hf : k_schrun s1 = k_schrun s).
  - by rewrite (f_equal k_critical_count Hf : k_critical_count s1 = k_critical_count s).
  - by rewrite Ec.
  - by rewrite Ec, Ets.
  - intros [] s' (s2 & W & ->). apply (HQ s1 s2 ot); try done.
    + unfold mtx_inv. pose proof (wd_frame _ _ _ _ _ W) as Hf2. destruct (wd_task _ _ _ _ _ W) as (e & Ets2).
      rewrite <- (f_equal k_mtxs Hf2 : k_mtxs s1 = k_mtxs s2), <- (f_equal k_ml Hf2 : k_ml s1 = k_ml s2).
      eapply mtxs_ok_permuted; [exact Hm1| |].
      * intros x. rewrite Ets2, lookup_insert. case_decide as E.
        -- subst x. rewrite Ets, Hot. by constructor.
        -- by destruct (k_tasks s1 !! x); constructor.
      * intros m'. rewrite (wd_waiting _ _ _ _ _ W) by done. by destruct (k_q s1 !! QMtx m'); constructor.
    + intros x. rewrite (wd_rest _ _ _ _ _ W), Hrem1. case_decide as E; [subst x|done].
      symmetry. apply remaining_None. eapply untimed; [exact Ht|exact Hot|by rewrite Hst].
Qed.

Lemma mutex_unlock_hands_over_spec m om oc ms t l s :
  sched_inv s -> mtx_inv s -> k_schrun s = true -> 0 <= k_critical_count s -> m <> NULL ->
  k_tasks s !! k_currp s = Some oc -> active (t_state oc) = true ->
  k_mtxs s !! m = Some om -> m_owner om = k_currp s -> m_count om = 1 ->
  k_q s !! QMtx m = Some (t :: l) -> k_ml s !! k_currp s = Some ms ->
  wp (isix_mutex_unlock m) (fun r s' => r = ISIX_EOK /\ handed_over m om oc ms t l s s') s.
Proof.
  intros Hi Hm Hrun Hcc Hm0 Hoc Hac Hom Hown Hc Hl Hms. pose proof Hi as (Hok & _).
  assert (k_currp s <> NULL) as Hcur by (intros E; by rewrite E, (r_null _ _ _ _ _ Hok) in Hoc).
  eapply mutex_unlock_own; try done. intros s1 ->. rewrite Hc. change (1 - 1 =? 0) with true. cbv iota.
  destruct (mo_held _ _ _ _ _ _ Hm Hom) as (l0 & k & Hl0 & _ & Hnl & Hk & Hin & _); [by rewrite Hown|].
  rewrite Hown, Hms in Hk. injection Hk as <-. rewrite Hl in Hl0. injection Hl0 as <-. rewrite Hown in Hnl.
  destruct (r_at _ _ _ _ _ Hok _ _ t Hl) as (ot & Hot & Hst & _); [by left|].
  eapply leave_owner_list; [exact Hm|done|exact Hms|exact Hin|]. set (s2 := upd_ml _ _). intros Hm1.
  destruct (same_clock_inv s s2) as [Hi2 Hrem2]; [done|done|].
  wp_step. eapply wp_q_list; [exact Hl|]. cbv iota beta. change (k_currp s) with (k_currp s2).
  apply wp_assoc. wp_step.
  eapply (drop_inherited m oc (remove_node m ms) t l s2); try done; [apply lookup_insert_eq|].
  intros s3 p oc' Hi3 Hm3 Hf Hw Hh Ets Hp Hrp Hst3 Hrem3.
  assert (is_Some (k_ml s3 !! t)) as [kt Hkt].
  { apply (mo_dom _ _ _ _ _ Hm3). rewrite Ets, lookup_insert. case_decide; [done|]. by exists ot. }
  pose proof (f_equal k_currp Hf : k_currp s = k_currp s3) as Ec.
  pose proof (f_equal k_critical_count Hf : k_critical_count s + 1 = k_critical_count s3) as Ecc.
  assert (t <> k_currp s) as Hne by (intros ->; rewrite Hoc in Hot; simplify_eq; by rewrite Hst in Hac).
  apply wp_assoc. wp_step. eapply (transfer_wakes m (set_m_count 0 om) t l kt oc' s3); try done.
  - rewrite <- Hrun. symmetry. exact (f_equal k_schrun Hf).
  - lia.
  - rewrite <- (f_equal k_mtxs Hf : k_mtxs s2 = k_mtxs s3). apply lookup_insert_eq.
  - by rewrite Hw.
  - rewrite <- Ec, Ets. apply lookup_insert_eq.
  - by rewrite <- Ec.
  - intros s4 s5 ot' Hot' Hf4 Eq4 Eml4 Em4 W Hm5 Hrem5. wp_step. split; [done|].
    assert (ot' = ot) as ->.
    { rewrite Ets, lookup_insert_ne in Hot' by done. change (k_tasks s !! t = Some ot') in Hot'. congruence. }
    pose proof (f_equal run_ctl Hf4 : run_ctl s4 = run_ctl s3) as Hr4.
    pose proof (wd_frame _ _ _ _ _ W) as Hf5. destruct (wd_task _ _ _ _ _ W) as (e & Ets5).
    destruct (same_clock_inv s5 _ (same_clock_yielded (t_prio ot <? t_prio oc') s5) (wd_inv _ _ _ _ _ W)) as [Hi6 Hrem6].
    set (s6 := yielded _ _) in *.
    assert (k_ml s6 = <[t := insert_second m kt]> (<[k_currp s := remove_node m ms]> (k_ml s))) as Eml6.
    { change (k_ml s6) with (k_ml s5). rewrite <- (f_equal k_ml Hf5 : k_ml s4 = k_ml s5), Eml4.
      by rewrite <- (f_equal k_ml Hf : k_ml s2 = k_ml s3). }
    assert (forall h, is_ready_head h = false -> k_q s6 !! h = <[QMtx m := l]> (k_q s) !! h) as Hq6.
    { intros h Hh0. etransitivity; [exact (wd_waiting _ _ _ _ _ W h Hh0)|]. rewrite Eq4, !lookup_insert.
      case_decide; [done|]. by rewrite Hw. }
    split.
    + exact Hi6.
    + exact Hm5.
    + unfold same_run. rewrite (f_equal run_ctl Hf : run_ctl s = run_ctl s3), <- Hr4.
      symmetry. exact (f_equal run_ctl Hf5).
    + simpl. rewrite <- (f_equal k_critical_count Hf5 : k_critical_count s4 = k_critical_count s5).
      rewrite (f_equal k_critical_count Hf4 : k_critical_count s4 = k_critical_count s3). lia.
    + change (k_mtxs s6) with (k_mtxs s5). rewrite <- (f_equal k_mtxs Hf5 : k_mtxs s4 = k_mtxs s5), Em4.
      rewrite <- (f_equal k_mtxs Hf : k_mtxs s2 = k_mtxs s3). apply insert_insert_eq.
    + rewrite Hq6 by done. apply lookup_insert_eq.
    + intros h Hh0 Hr. rewrite Hq6 by done. by rewrite lookup_insert_ne.
    + rewrite Eml6. split; [by rewrite lookup_insert_ne, lookup_insert_eq|].
      exists (insert_second m kt). rewrite lookup_insert_eq. split; [done|]. rewrite insert_second_perm. by left.
    + exists ot, (set_t_prio_elem e (set_t_state OSTHR_STATE_READY (set_dmsg ISIX_EOK ot))), oc', p.
      split_and!; try done.
      * change (k_tasks s6) with (k_tasks s5). rewrite Ets5.
        rewrite (f_equal k_tasks Hf4 : k_tasks s4 = k_tasks s3), Ets. done.
      * intros x Hx. pose proof (first_waiter_highest (QMtx m) t l s x Hok eq_refl Hl Hx) as Hle.
        unfold prio_of at 1 in Hle. by rewrite Hot in Hle.
      * intros Hlt. simpl. rewrite (proj2 (Z.ltb_lt _ _)) by lia. done.
    + intros x. by rewrite Hrem6, Hrem5, Hrem3, Hrem2.
Qed.

(** C10: Unlocking a mutex other tasks wait for hands it to the first waiter, which has the
    highest priority of them: it becomes the owner with a lock count of one and is ready with
    the result [ISIX_EOK]; the caller falls back to the highest priority it still inherits
    through the mutexes it keeps, and gives up the processor when the new owner has a higher
    one.  No other task, wait list or mutex changes, and the ownership invariant holds again. *)
Theorem mutex_unlock_hands_over m om oc ms t l s :
  sched_inv s -> mtx_inv s -> k_schrun s = true -> 0 <= k_critical_count s -> m <> NULL ->
  k_tasks s !! k_currp s = Some oc -> active (t_state oc) = true ->
  k_mtxs s !! m = Some om -> m_owner om = k_currp s -> m_count om = 1 ->
  k_q s !! QMtx m = Some (t :: l) -> k_ml s !! k_currp s = Some ms ->
  wp (isix_mutex_unlock m) (fun r s' => r = ISIX_EOK /\ handed_over m om oc ms t l s s') s.
Proof. apply mutex_unlock_hands_over_spec. Qed.

End MutexOwner.
