(* ===== verification/Detached.v ===== *)
(** * A task that is on no list

    Suspending or killing a task first takes it off the list its state asks for and only
    then gives it its new state.  In between the kernel may already change the priority of
    another task, the owner of the mutex the task waited for.  That code is blind to the
    state of the detached task: it behaves the same whatever this state is, so it can be
    reasoned about as if the new state had been set before. *)

From S2P Require Import Prelude.
From S2P Require Import DList.
From S2P Require Import Kernel.
From S2P Require Import Scheduler.
From S2P Require Import SchedInv.
From S2P Require Import SchedCore.
From S2P Require Import SchedTime.
From S2P Require Import SchedSleep.
From S2P Require Import SchedWake.
From S2P Require Import MutexProofs.
From S2P Require Import MutexOwner.
From stdpp Require Import base numbers gmap list sorting strings.
From Stdlib Require Import ZArith Lia.
Local Open Scope Z_scope.

Section Detached.
Context {HS : Type} {AL : Allocator HS}.
Implicit Types s : kstate HS.

(** The same state but for the state of task [t0]. *)
Definition with_state (st : osthr_state) (t0 : Z) s : kstate HS :=
  upd_tasks (alter (set_t_state st) t0) s.

(** [m] does not look at the state of task [t0]. *)
Class Blind (t0 : Z) {A} (m : K HS A) : Prop :=
  blind : forall st s, m (with_state st t0 s) =
    match m s with Ok a s' => Ok a (with_state st t0 s') | Panic e => Panic e | Fault => Fault end.

(** What holds after a run with another state of [t0]. *)
Lemma blind_wp t0 {A} (m : K HS A) `{!Blind t0 m} st (Q : A -> kstate HS -> Prop) s :
  wp m Q (with_state st t0 s) -> wp m (fun a s' => Q a (with_state st t0 s')) s.
Proof. unfold wp. rewrite blind. by destruct (m s). Qed.

#[global] Instance blind_ret t0 {A} (a : A) : Blind t0 (ret a).
Proof. done. Qed.
#[global] Instance blind_panic t0 {A} e : Blind t0 (panic (A := A) e).
Proof. done. Qed.
#[global] Instance blind_fault t0 {A} : Blind t0 (fault (A := A)).
Proof. done. Qed.
#[global] Instance blind_of_option t0 {A} (o : option A) : Blind t0 (of_option o).
Proof. by destruct o. Qed.
#[global] Instance blind_bind t0 {A B} (m : K HS A) (k : A -> K HS B) :
  Blind t0 m -> (forall a, Blind t0 (k a)) -> Blind t0 (bind m k).
Proof. intros Hm Hk st s. unfold bind. rewrite (blind st s). destruct (m s); [apply blind|done..]. Qed.
#[global] Instance blind_when t0 c (m : K HS unit) : Blind t0 m -> Blind t0 (when c m).
Proof. by destruct c. Qed.

Lemma blind_gets t0 {A} (f : kstate HS -> A) :
  (forall st s, f (with_state st t0 s) = f s) -> Blind t0 (gets f).
Proof. intros H st s. unfold gets. by rewrite H. Qed.

Lemma blind_modify t0 (f : kstate HS -> kstate HS) :
  (forall st s, f (with_state st t0 s) = with_state st t0 (f s)) -> Blind t0 (modify f).
Proof. intros H st s. unfold modify. by rewrite H. Qed.

#[local] Hint Extern 1 (Blind _ (gets _)) => apply blind_gets; intros; reflexivity : typeclass_instances.
#[local] Hint Extern 1 (Blind _ (modify _)) => apply blind_modify; intros; reflexivity : typeclass_instances.

(** Reading a task and using its priorities only. *)
Lemma blind_task_prio t0 t {A} (k : task -> K HS A) :
  (forall o, Blind t0 (k o)) -> (forall st o, k (set_t_state st o) = k o) ->
  Blind t0 (o <- task_get t;; k o).
Proof.
  intros Hk Hs st s. unfold task_get, bind, gets, of_option. simpl.
  destruct (decide (t = t0)) as [->|Hne].
  - rewrite lookup_alter_eq. destruct (k_tasks s !! t0) as [o|]; [|done]. simpl. unfold ret. rewrite Hs. apply Hk.
  - rewrite lookup_alter_ne by done. destruct (k_tasks s !! t) as [o|]; [|done]. apply Hk.
Qed.

Lemma blind_task_get t0 t : t <> t0 -> Blind t0 (task_get t).
Proof. intros Hne st s. unfold task_get, bind, gets. simpl. rewrite lookup_alter_ne by done. by destruct (k_tasks s !! t). Qed.

Lemma blind_task_upd t0 t f : t <> t0 -> Blind t0 (task_upd t f).
Proof.
  intros Hne. unfold task_upd. apply blind_bind; [by apply blind_task_get|]. intros o.
  apply blind_modify. intros st s. unfold with_state, upd_tasks. simpl. by rewrite alter_insert_ne.
Qed.

#[global] Instance blind_q_store t0 f : Blind t0 (q_store f).
Proof. unfold q_store. apply _. Qed.
#[global] Instance blind_pl_store t0 f : Blind t0 (pl_store f).
Proof. unfold pl_store. apply _. Qed.
#[global] Instance blind_q_list t0 h : Blind t0 (q_list h).
Proof. unfold q_list. apply _. Qed.
#[global] Instance blind_pl_list t0 h : Blind t0 (pl_list h).
Proof. unfold pl_list. apply _. Qed.
#[global] Instance blind_ml_list t0 t : Blind t0 (ml_list t).
Proof. unfold ml_list. apply _. Qed.
#[global] Instance blind_prio_get t0 p : Blind t0 (prio_get p).
Proof. unfold prio_get. apply _. Qed.
#[global] Instance blind_prio_set t0 p v : Blind t0 (prio_set p v).
Proof. unfold prio_set. apply _. Qed.
#[global] Instance blind_mtx_get t0 m : Blind t0 (mtx_get m).
Proof. unfold mtx_get. apply _. Qed.

(** The order of a wait list depends on priorities only. *)
Lemma task_lower_state st t0 (ts : gmap Z task) p t :
  task_lower (alter (set_t_state st) t0 ts) p t = task_lower ts p t.
Proof.
  unfold task_lower. destruct (decide (t = t0)) as [->|Hne].
  - rewrite lookup_alter_eq. by destruct (ts !! t0).
  - by rewrite lookup_alter_ne.
Qed.

Section Other.
Context (t0 t : Z) (Hne : t <> t0).

#[local] Instance blind_get_other : Blind t0 (task_get t).
Proof. by apply blind_task_get. Qed.
#[local] Instance blind_upd_other f : Blind t0 (task_upd t f).
Proof. by apply blind_task_upd. Qed.

Lemma blind_add_to_prio_queue h : Blind t0 (_isixp_add_to_prio_queue h t).
Proof.
  unfold _isixp_add_to_prio_queue. apply blind_bind; [apply _|]. intros o st s. unfold bind, gets. simpl.
  match goal with |- q_store ?f ?x = _ => assert (q_store f x =
    q_store (seq_insert_before_first (task_lower (k_tasks s) (t_prio o)) h t) x) as -> end.
  { unfold q_store, bind, gets. simpl. unfold seq_insert_before_first, seq_insert_with.
    destruct (seq_linked t (k_q s)); [done|]. destruct (k_q s !! h) as [l|]; [|done]. simpl.
    by rewrite (insert_before_first_ext _ _ t l (fun y _ => task_lower_state st t0 (k_tasks s) (t_prio o) y)). }
  apply (blind_q_store t0).
Qed.

Lemma blind_delete_from_ready_list : Blind t0 (delete_from_ready_list t).
Proof.
  unfold delete_from_ready_list, q_delete, pl_delete, free_task_ready_t, pl_insert_end.
  repeat (apply blind_bind; [apply _|intros ?]). destruct a1; apply _.
Qed.

Lemma blind_alloc_task_ready : Blind t0 (alloc_task_ready_t (HS := HS)).
Proof. unfold alloc_task_ready_t, pl_delete. apply blind_bind; [apply _|]. intros [|x l]; apply _. Qed.

Lemma blind_add_ready_list : Blind t0 (add_ready_list t).
Proof.
  unfold add_ready_list. apply blind_bind; [apply _|]. intros o.
  case_match; [apply _|]. case_match; [apply _|].
  repeat (apply blind_bind; [apply _|intros ?]).
  case_match.
  - unfold add_to_prio_elem, q_insert_end. apply _.
  - pose proof blind_alloc_task_ready. unfold add_new_prio_elem, q_init, q_insert_end. apply _.
Qed.

Lemma blind_reallocate p : Blind t0 (_isixp_reallocate_priority t p).
Proof.
  unfold _isixp_reallocate_priority, q_delete. apply blind_bind; [apply _|]. intros o.
  pose proof blind_delete_from_ready_list. pose proof blind_add_ready_list. pose proof blind_add_to_prio_queue.
  destruct (t_state o); apply _.
Qed.

Lemma blind_inherited_loop ms : forall p, Blind t0 (inherited_loop ms p).
Proof.
  induction ms as [|m ms IH]; intros p; simpl; [apply _|]. apply blind_bind; [apply _|].
  intros [|x l]; [apply IH|]. by apply blind_task_prio.
Qed.

Lemma blind_restore_priority : Blind t0 (restore_priority t).
Proof.
  unfold restore_priority, calc_inherited_priority. pose proof blind_inherited_loop. pose proof blind_reallocate. apply _.
Qed.

End Other.
End Detached.
