(* ===== verification/SuspendProofs.v ===== *)
(** * Taking a task off its lists

    [_isixp_add_kill_or_set_suspend], the common part of suspending and killing a task:
    whatever the task waits for, it leaves the time list and the list its state asks for,
    gives its claim on a semaphore back, and the owner of a mutex it waited for loses the
    priority it inherited from it. *)

From S2P Require Import Prelude.
From S2P Require Import DList.
From S2P Require Import Kernel.
From S2P Require Import Scheduler.
From S2P Require Import SchedInv.
From S2P Require Import SchedCore.
From S2P Require Import SchedTime.
From S2P Require Import SchedSleep.
From S2P Require Import SchedWake.
From S2P Require Import MutexProofs.
From S2P Require Import MutexOwner.
From S2P Require Import Detached.
From stdpp Require Import base numbers gmap list sorting strings.
From Stdlib Require Import ZArith Lia.
Local Open Scope Z_scope.

Section SuspendProofs.
Context {HS : Type} {AL : Allocator HS}.
Implicit Types s : kstate HS.

(** ** The owner of a mutex after a waiter has gone *)

Lemma restore_priority_spec d w ow ms s :
  sched_inv s -> mtxs_ok d (k_tasks s) (k_mtxs s) (k_ml s) (k_q s) ->
  k_tasks s !! w = Some ow -> k_ml s !! w = Some ms ->
  wp (restore_priority w) (fun _ s' => exists p,
    highest_inherited s ms (t_real_prio ow) p /\ inherited w p ow s s') s.
Proof.
  intros Hi Hm How Hms. pose proof Hi as (Hok & _). unfold restore_priority.
  wp_step. eapply wp_mono; [apply (calc_inherited_spec w ow ms s Hok How Hms)|].
  { intros m' Hin. destruct (mo_list _ _ _ _ _ _ _ _ Hm Hms Hin) as (_ & l' & _ & _ & Hl'). by exists l'. }
  intros p s' [-> Hh]. wp_step. eapply wp_task_get; [exact How|]. wp_step.
  destruct (Z.eqb_spec p (t_prio ow)) as [->|Hne]; cbn [negb].
  - wp_step. exists (t_prio ow). split; [done|]. by apply inherited_refl.
  - pose proof (highest_inherited_range _ _ _ _ Hok (mo_real _ _ _ _ _ Hm _ _ How) Hh) as Hr.
    eapply wp_mono; [by apply reallocate_priority_spec|]. intros [] s1 R. exists p.
    split; [done|]. by apply reprioritised_inherited.
Qed.

Lemma highest_inherited_frame s s' ms real p :
  (forall m, m ∈ ms -> option_Forall2 (fun l l' => l' ≡ₚ l) (k_q s !! QMtx m) (k_q s' !! QMtx m)) ->
  (forall m l x, m ∈ ms -> k_q s !! QMtx m = Some l -> x ∈ l -> prio_of (k_tasks s') x = prio_of (k_tasks s) x) ->
  highest_inherited s ms real p -> highest_inherited s' ms real p.
Proof.
  intros Hq Hp (H1 & H2 & H3). split_and!; [done| |].
  - intros m l' x Hm Hl' Hx. specialize (Hq m Hm). rewrite Hl' in Hq.
    destruct (k_q s !! QMtx m) as [l|] eqn:El; inversion Hq as [? ? Hpm|]; subst. rewrite Hpm in Hx.
    rewrite (Hp m l x) by done. by eapply H2.
  - destruct H3 as [|(m & l & x & Hm & Hl & Hx & ->)]; [by left|right]. specialize (Hq m Hm). rewrite Hl in Hq.
    inversion Hq as [? l' Hpm|]; subst. exists m, l', x. rewrite (Hp m l x) by done. split_and!; try done. by rewrite Hpm.
Qed.

(** ** Reasoning with another state of the detached task *)

Lemma with_state_tasks st t o s :
  k_tasks s !! t = Some o -> k_tasks (with_state st t s) = <[t := set_t_state st o]> (k_tasks s).
Proof.
  intros Ho. apply map_eq. intros x. simpl. destruct (decide (x = t)) as [->|Hne].
  - by rewrite lookup_alter_eq, lookup_insert_eq, Ho.
  - by rewrite lookup_alter_ne, lookup_insert_ne.
Qed.

Lemma blind_detached t0 {A} (m : K HS A) st (Q : A -> kstate HS -> Prop) o s :
  Blind t0 m -> k_tasks s !! t0 = Some o -> wp m Q (with_state st t0 s) ->
  wp m (fun a s' => Q a (with_state st t0 s') /\ with_state (t_state o) t0 s' = s') s.
Proof.
  intros Hb Ho HQ. apply (blind_wp t0) in HQ; [|done]. unfold wp in *.
  assert (with_state (t_state o) t0 s = s) as Es.
  { pose proof (with_state_tasks (t_state o) t0 o s Ho) as E. rewrite set_t_state_id, insert_id in E by done.
    unfold with_state, upd_tasks in *. destruct s. simpl in *. by rewrite E. }
  pose proof (blind (m := m) (t_state o) s) as E. rewrite Es in E.
  destruct (m s) as [a s'| |]; [|done..]. injection E as E. by rewrite <- E.
Qed.

(** Giving a detached task a state in which it is on no list closes the invariant. *)
Lemma ready_inv_with_state t o st s :
  ready_inv (Some t) s -> k_tasks s !! t = Some o -> queued_state st = false -> ready_inv None (with_state st t s).
Proof.
  intros Hok Ho Hq. unfold ready_inv. rewrite (with_state_tasks st t o s Ho).
  assert (t <> NULL) as Hnull by (intros ->; rewrite (r_null _ _ _ _ _ Hok) in Ho; done).
  apply (ready_ok_attach _ _ _ _ t); [|intros o'; rewrite lookup_insert_eq; by intros [= <-]].
  apply ready_ok_upd_detached; [done|done|exact (r_range _ _ _ _ _ Hok _ _ Ho)].
Qed.

(** ** Leaving a wait list *)

(** Every wait list is as before but for [t]. *)
Definition left_lists (t : Z) s s' : Prop :=
  forall h, is_ready_head h = false ->
    option_Forall2 (fun l l' => l' ≡ₚ remove_node t l) (k_q s !! h) (k_q s' !! h).

(** The owner of the mutex the task waits for. *)
Definition blocking_owner s (o : task) : Z :=
  match t_state o with
  | OSTHR_STATE_WTMTX => match k_mtxs s !! t_obj o with Some om => m_owner om | None => NULL end
  | _ => NULL
  end.

(** The semaphore the task waited for gets the claim back. *)
Definition sems_without (o : task) (sems : gmap Z sem) : gmap Z sem :=
  match t_state o with
  | OSTHR_STATE_WTSEM =>
      match sems !! t_obj o with
      | Some so => <[t_obj o := set_s_value (atomic_sem_inc (s_limit so) (s_value so)) so]> sems
      | None => sems
      end
  | _ => sems
  end.

Lemma sems_without_other o sems : t_state o <> OSTHR_STATE_WTSEM -> sems_without o sems = sems.
Proof. unfold sems_without. by destruct (t_state o). Qed.

(** Task [t], whose control block was [o], is on no list. *)
Record detached (t : Z) (o : task) (aborted : bool) s s' : Prop := {
  dt_inv : ready_inv (Some t) s';
  dt_sems : sems_ok s';
  dt_time : time_inv s';
  dt_rest : forall x, remaining s' x = remaining s x;
  dt_ctl : same_ctl s s';
  dt_count : k_critical_count s' = k_critical_count s;
  dt_values : k_sems s' = sems_without o (k_sems s);
  dt_lists : left_lists t s s';
  dt_task : k_tasks s' !! t = Some (set_t_wait_aborted aborted o);
  dt_others : forall x, x <> t -> x <> blocking_owner s o -> k_tasks s' !! x = k_tasks s !! x;
  dt_owner : let w := blocking_owner s o in w <> NULL -> w <> t /\
    exists ow ow' ms, k_tasks s !! w = Some ow /\ k_tasks s' !! w = Some ow' /\ k_ml s !! w = Some ms /\
      t_real_prio ow' = t_real_prio ow /\ active (t_state ow') = active (t_state ow) /\
      tame (t_state ow) (t_state ow') = true /\
      highest_inherited s' ms (t_real_prio ow) (t_prio ow')
}.

Lemma left_lists_remove t h l s q' :
  store_wf (k_q s) -> k_q s !! h = Some l -> t ∈ l -> q' = <[h := remove_node t l]> (k_q s) ->
  forall h', option_Forall2 (fun l l' => l' ≡ₚ remove_node t l) (k_q s !! h') (q' !! h').
Proof.
  intros [_ Hdis] Hl Hin -> h'. destruct (decide (h' = h)) as [->|Hne].
  - rewrite Hl, lookup_insert_eq. by constructor.
  - rewrite lookup_insert_ne by done. destruct (k_q s !! h') as [l'|] eqn:E; constructor.
    rewrite remove_node_notin; [done|]. intros Hx. by apply Hne, (Hdis h' h l' l t).
Qed.

Lemma left_lists_unlinked t s s' : unlinked t (k_q s) -> same_waiting s s' -> left_lists t s s'.
Proof.
  intros Hu Hw h Hh. rewrite Hw by done. destruct (k_q s !! h) as [l|] eqn:E; constructor.
  by rewrite remove_node_notin by eauto.
Qed.

(** The owners of the mutexes are as before. *)
Lemma mtxs_ok_left t s s' :
  mtx_inv s -> same_ctl s s' -> left_lists t s s' ->
  (forall x, option_Forall2 (fun o o' => t_real_prio o' = t_real_prio o) (k_tasks s !! x) (k_tasks s' !! x)) ->
  mtx_inv s'.
Proof.
  intros Hm Hctl Hl Hts. destruct (same_ctl_elim _ _ Hctl) as (_ & _ & _ & Em & Eml & _).
  unfold mtx_inv. rewrite Em, Eml. eapply mtxs_ok_frame; [exact Hm|done|..].
  - intros m o l _ _ El. specialize (Hl (QMtx m) eq_refl). rewrite El in Hl.
    inversion Hl as [? l' Hp|]; subst. exists l'. split; [done|]. split.
    + intros -> _. by apply Permutation_nil_r.
    + rewrite Hp, elem_of_remove_node. tauto.
  - intros m. destruct (Hl (QMtx m) eq_refl); [by eexists|done].
Qed.

Lemma detached_mtx t o b s s' : mtx_inv s -> k_tasks s !! t = Some o -> detached t o b s s' -> mtx_inv s'.
Proof.
  intros Hm Ho D. eapply (mtxs_ok_left t s s'); [done|by eapply dt_ctl|by eapply dt_lists|]. intros x.
  destruct (decide (x = t)) as [->|Hx].
  - rewrite (dt_task _ _ _ _ _ D), Ho. by constructor.
  - destruct (decide (x = blocking_owner s o)) as [->|Hw].
    + destruct (decide (blocking_owner s o = NULL)) as [E|Hn].
      * pose proof (r_null _ _ _ _ _ (dt_inv _ _ _ _ _ D)) as Hn'. rewrite E, Hn', (mo_null _ _ _ _ _ Hm). constructor.
      * destruct (dt_owner _ _ _ _ _ D Hn) as (_ & ow & ow' & ms & -> & -> & _ & ? & _). by constructor.
    + rewrite (dt_others _ _ _ _ _ D) by done. by destruct (k_tasks s !! x); constructor.
Qed.

(** The wait was aborted. *)
Lemma detached_abort t o b' b s s1 :
  detached t o b' s s1 -> wp (task_upd t (set_t_wait_aborted b)) (fun _ s' => detached t o b s s') s1.
Proof.
  intros D. pose proof (dt_task _ _ _ _ _ D) as Hb. pose proof (dt_inv _ _ _ _ _ D) as Hok.
  assert (t <> NULL) as Hnull by (intros ->; by rewrite (r_null _ _ _ _ _ Hok) in Hb).
  eapply wp_task_upd; [exact Hb|].
  change (set_t_wait_aborted b (set_t_wait_aborted b' o)) with (set_t_wait_aborted b o). set (s2 := upd_tasks _ s1).
  assert (forall x, prio_of (k_tasks s2) x = prio_of (k_tasks s1) x) as Hp.
  { intros x. simpl. rewrite prio_of_insert. case_decide as E; [subst x|done]. unfold prio_of. by rewrite Hb. }
  destruct (time_inv_same s1 s2 (dt_time _ _ _ _ _ D)) as (Ht2 & _ & _ & Hrem2); [done|done|done| |].
  { intros x _ ox Hox. simpl. rewrite lookup_insert. case_decide as E; [subst x|by exists ox].
    rewrite Hb in Hox. injection Hox as <-. by eexists. }
  split; try by apply D.
  - apply ready_ok_upd_detached; [exact Hok|done|]. exact (r_range _ _ _ _ _ Hok _ _ Hb).
  - done.
  - intros x. by rewrite Hrem2, (dt_rest _ _ _ _ _ D).
  - apply lookup_insert_eq.
  - intros x Hx Hw. simpl. rewrite lookup_insert_ne by done. by apply (dt_others _ _ _ _ _ D).
  - intros w Hw. destruct (dt_owner _ _ _ _ _ D Hw) as (Hwt & ow & ow' & ms & H1 & H2 & H3 & H4 & H5 & H6 & H7 & H8 & H9).
    split; [done|]. exists ow, ow', ms. split_and!; try done.
    + simpl. by rewrite lookup_insert_ne.
    + split_and!; [done| |].
      * intros m l x Hin Hl Hx. rewrite Hp. by eapply H8.
      * destruct H9 as [|(m & l & x & ? & ? & ? & ?)]; [by left|right]. exists m, l, x. by rewrite Hp.
Qed.

(** A wait list that is not ordered by a mutex. *)
Lemma detached_queue t o h l s s1 :
  sched_inv s -> k_tasks s !! t = Some o -> k_q s !! h = Some l -> t ∈ l -> at_queue o h ->
  active (t_state o) = false -> t_state o <> OSTHR_STATE_WTMTX -> sems_ok s1 ->
  k_sems s1 = sems_without o (k_sems s) -> s1 = upd_q (fun _ => <[h := remove_node t l]> (k_q s)) (upd_sems (fun _ => k_sems s1) s) ->
  detached t o (t_wait_aborted o) s s1.
Proof.
  intros (Hok & _ & Ht) Ho Hl Hin Hat Hna Hnm Hsem Esem E1. pose proof (at_queue_waiting _ _ Hat Hna) as Hh.
  pose proof (f_equal k_q E1) as Eq. simpl in Eq. pose proof (f_equal k_tasks E1) as Ets. simpl in Ets.
  destruct (time_inv_frame s s1 Ht) as (Ht1 & _ & _ & Hrem); [by rewrite E1..|intros; by rewrite Ets|].
  assert (blocking_owner s o = NULL) as Ew by (unfold blocking_owner; by destruct (t_state o)).
  split; try done.
  - unfold ready_inv. rewrite Ets, Eq. rewrite (f_equal k_prios E1 : _ = k_prios s), (f_equal k_pl E1 : _ = k_pl s).
    by apply ready_ok_q_delete.
  - by rewrite E1.
  - by rewrite E1.
  - intros h' _. by eapply left_lists_remove; [apply (r_qwf _ _ _ _ _ Hok)|..].
  - rewrite Ets, Ho. by destruct o.
  - intros x _ _. by rewrite Ets.
Qed.

(** A task that waits for a mutex: its owner may lose priority. *)
Lemma detached_mutex t o s :
  sched_inv s -> mtx_inv s -> k_tasks s !! t = Some o -> t_state o = OSTHR_STATE_WTMTX ->
  wp (q_delete t;;; _isixp_mutex_waiter_removed (t_obj o)) (fun _ s' => detached t o (t_wait_aborted o) s s') s.
Proof.
  intros (Hok & Hsem & Ht) Hm Ho Hst.
  assert (t <> NULL) as Hnull by (intros ->; rewrite (r_null _ _ _ _ _ Hok) in Ho; done).
  assert (~ on_time_list s t) as Hnt by (eapply untimed; [exact Ht|exact Ho|by rewrite Hst]).
  wp_step. eapply q_delete_waiting; [exact Hok|exact Ho|by rewrite Hst|]. intros h l Hl Hin Hat.
  assert (h = QMtx (t_obj o)) as ->.
  { destruct h; simpl in Hat; rewrite Hst in Hat; destruct_and?; try done; congruence. }
  set (m := t_obj o) in *. set (s1 := upd_q _ s).
  assert (ready_inv (Some t) s1) as Hok1 by (by apply ready_ok_q_delete).
  assert (left_lists t s s1) as Hl1.
  { intros h' _. by eapply left_lists_remove; [apply (r_qwf _ _ _ _ _ Hok)|..]. }
  destruct (mo_obj _ _ _ _ _ Hm m) as [om Hom]; [by exists l|].
  destruct (mo_mtx _ _ _ _ _ Hm m om Hom) as (l' & Hl' & Hcase); [done|]. rewrite Hl in Hl'. injection Hl' as <-.
  destruct Hcase as [(_ & _ & ->)|(Hw0 & _ & Hwl & ms & Hms & Hin')]; [by apply not_elem_of_nil in Hin|].
  set (w := m_owner om) in *. assert (w <> t) as Hwt by (by intros ->).
  assert (blocking_owner s o = w) as Ew by (unfold blocking_owner; fold m; by rewrite Hst, Hom).
  destruct (proj1 (mo_dom _ _ _ _ _ Hm w) (mk_is_Some _ _ Hms)) as [ow How].
  set (s1' := with_state OSTHR_STATE_SUSPEND t s1).
  assert (k_tasks s1' = <[t := set_t_state OSTHR_STATE_SUSPEND o]> (k_tasks s)) as Ets1 by exact (with_state_tasks _ t o s1 Ho).
  assert (ready_inv None s1') as Hok1' by (by apply (ready_inv_with_state t o)).
  destruct (time_inv_frame s s1' Ht) as (Ht1 & _ & _ & Hrem1); [done|done|done| |].
  { intros x Hx. rewrite Ets1, lookup_insert_ne; [done|]. by intros <-. }
  assert (sched_inv s1') as Hi1.
  { split; [done|]. split; [|done]. eapply sem_counts_frame; [exact Hsem|]. intros a. simpl. by rewrite lookup_insert_ne. }
  assert (mtx_inv s1') as Hm1.
  { eapply (mtxs_ok_left t s s1'); [done|done|exact Hl1|]. intros x. rewrite Ets1, lookup_insert.
    case_decide as E; [subst x; rewrite Ho; by constructor|by destruct (k_tasks s !! x); constructor]. }
  unfold _isixp_mutex_waiter_removed. wp_step. eapply wp_mtx_get; [exact Hom|]. fold w.
  rewrite (proj2 (Z.eqb_neq w _)) by done. cbn [negb]. wp_step.
  assert (k_tasks s1' !! w = Some ow) as How1 by (by rewrite Ets1, lookup_insert_ne).
  pose proof (restore_priority_spec None w ow ms s1' Hi1 Hm1 How1 Hms) as Hrst.
  eapply wp_mono; [exact (blind_detached t _ _ _ o s1 (blind_restore_priority t w Hwt) Ho Hrst)|].
  intros [] s2 [(p & Hh & [Hi2 Hf2 (ow' & Ets2 & Hp & Hrp & Ha & Hr) Hre2 Hrem2]) Est]. rewrite Hst in Est.
  set (s2' := with_state OSTHR_STATE_SUSPEND t s2) in *. destruct Hi2 as (Hok2 & Hsem2 & Ht2).
  assert (k_tasks s2' !! t = Some (set_t_state OSTHR_STATE_SUSPEND o)) as Ht2'.
  { by rewrite Ets2, lookup_insert_ne, Ets1, lookup_insert_eq. }
  assert (k_tasks s2 !! t = Some o) as Ho2.
  { change (alter (set_t_state OSTHR_STATE_SUSPEND) t (k_tasks s2) !! t = Some (set_t_state OSTHR_STATE_SUSPEND o)) in Ht2'.
    rewrite lookup_alter_eq in Ht2'. destruct (k_tasks s2 !! t) as [o2|] eqn:E2; [|done].
    pose proof (f_equal (fun x => k_tasks x !! t) Est) as E3. cbv beta in E3.
    rewrite (with_state_tasks _ _ _ _ E2), lookup_insert_eq, E2 in E3. injection Ht2' as Ht2'. injection E3 as E3.
    f_equal. destruct o2, o. unfold set_t_state in *. simpl in *. congruence. }
  pose proof (with_state_tasks OSTHR_STATE_SUSPEND t o s2 Ho2) as Ets2'. fold s2' in Ets2'.
  assert (forall x, x <> t -> k_tasks s2 !! x = k_tasks s2' !! x) as Hsame.
  { intros x Hx. by rewrite Ets2', lookup_insert_ne. }
  destruct (time_inv_frame s2' s2 Ht2) as (Ht3 & _ & _ & Hrem3); [done|done|done| |].
  { intros x Hx. apply Hsame. intros ->. destruct Ht2 as [Htl _ _ _].
    destruct (tm_state _ _ _ _ _ Htl _ Hx) as (ox & Hox & Htm). rewrite Ht2' in Hox. by injection Hox as <-. }
  pose proof (ready_ok_detach _ _ _ _ _ _ Hok2 Ht2' eq_refl) as Hok3.
  split; try done.
  - unfold ready_inv. assert (k_tasks s2 = <[t := o]> (k_tasks s2')) as ->.
    { by rewrite Ets2', insert_insert_eq, insert_id. }
    apply ready_ok_upd_detached; [exact Hok3|done|exact (r_range _ _ _ _ _ Hok _ _ Ho)].
  - intros x. by rewrite Hrem3, Hrem2, Hrem1.
  - exact (eq_sym (f_equal ctl Hf2)).
  - exact (eq_sym (f_equal k_critical_count Hf2)).
  - rewrite sems_without_other by (by rewrite Hst). exact (eq_sym (f_equal k_sems Hf2)).
  - intros h' Hh'. specialize (Hre2 h' Hh'). specialize (Hl1 h' Hh'). change (k_q s2') with (k_q s2) in Hre2.
    change (k_q s1') with (k_q s1) in Hre2. destruct Hl1 as [x y Hxy|]; inversion Hre2 as [? z [Hyz _]|]; subst; constructor.
    by rewrite Hyz.
  - rewrite Ho2. by destruct o.
  - intros x Hx Hxw. rewrite Ew in Hxw. rewrite Hsame, Ets2, lookup_insert_ne, Ets1, lookup_insert_ne by done. done.
  - cbv zeta. rewrite Ew. intros _. split; [done|]. exists ow, ow', ms. split_and!; try done.
    + by rewrite Hsame, Ets2, lookup_insert_eq.
    + rewrite Hp. eapply highest_inherited_frame; [| |exact Hh].
      * intros m' _. specialize (Hre2 (QMtx m') eq_refl). change (k_q s2') with (k_q s2) in Hre2.
        destruct Hre2 as [? ? []|]; by constructor.
      * intros m' l' x Hm' Hl' Hx. destruct (mo_list _ _ _ _ _ _ _ _ Hm1 Hms Hm') as (o' & l'' & Ho' & Hown' & Hl'').
        assert (x <> w) as Hxw.
        { intros Ex. rewrite Ex in Hx. destruct (mo_mtx _ _ _ _ _ Hm1 m' o' Ho') as (l3 & Hl3 & [(Hn & _)|(_ & _ & Hnl & _)]); [done|congruence|].
          rewrite Hown' in Hnl. assert (l3 = l') as -> by congruence. done. }
        assert (x <> t) as Hxt by (intros ->; by apply (r_detached _ _ _ _ _ Hok1 t eq_refl _ _ Hl')).
        unfold prio_of. by rewrite Hsame, Ets2, lookup_insert_ne.
Qed.

(** A semaphore gets the claim of one waiter back. *)
Lemma sem_counts_return sems q a l so t :
  sem_counts sems q -> q !! QSem a = Some l -> sems !! a = Some so -> t ∈ l -> NoDup l ->
  sem_counts (<[a := set_s_value (atomic_sem_inc (s_limit so) (s_value so)) so]> sems) (<[QSem a := remove_node t l]> q).
Proof.
  intros Hs Hl Hso Hin Hnd. destruct (Hs a l Hl) as (so' & Hso' & Hlen & Hr).
  assert (so' = so) as -> by congruence. pose proof (length_remove_node t l Hnd Hin) as Hll.
  apply sem_counts_upd; [done|..]; simpl; unfold atomic_sem_inc, in_i32 in *;
    rewrite (i32_id (s_value so + 1)) by (unfold in_i32; lia);
    destruct (Z.ltb_spec 0 (s_limit so)), (Z.ltb_spec (s_limit so) (s_value so + 1)); simpl; lia.
Qed.

(** A task whose state keeps it on no list. *)
Lemma detached_unqueued t o s :
  sched_inv s -> k_tasks s !! t = Some o -> queued_state (t_state o) = false -> detached t o (t_wait_aborted o) s s.
Proof.
  intros (Hok & Hsem & Ht) Ho Hq. assert (blocking_owner s o = NULL) as Ew by (unfold blocking_owner; by destruct (t_state o)).
  split; try done.
  - by eapply ready_ok_detach.
  - symmetry. apply sems_without_other. by destruct (t_state o).
  - apply left_lists_unlinked; [by eapply not_queued_unlinked|by intros ?].
  - rewrite Ho. by destruct o.
Qed.

Lemma detached_active t o s s' :
  sched_inv s -> k_tasks s !! t = Some o -> active (t_state o) = true -> unreadied t o s s' -> detached t o (t_wait_aborted o) s s'.
Proof.
  intros (Hok & Hsem & Ht) Ho Ha [Hok' Hf Ets _ Hw].
  assert (blocking_owner s o = NULL) as Ew by (unfold blocking_owner; by destruct (t_state o)).
  destruct (time_inv_frame s s' Ht (eq_sym (f_equal k_tl Hf)) (eq_sym (f_equal k_pwait Hf)) (eq_sym (f_equal k_jiffies Hf)))
    as (Ht' & _ & _ & Hrem); [intros; by rewrite Ets|].
  split; try done.
  - unfold sems_ok. rewrite <- (f_equal k_sems Hf : k_sems s = k_sems s'). eapply sem_counts_frame; [exact Hsem|].
    intros a. by apply Hw.
  - exact (eq_sym (f_equal ctl Hf)).
  - exact (eq_sym (f_equal k_critical_count Hf)).
  - rewrite sems_without_other by (by destruct (t_state o)). exact (eq_sym (f_equal k_sems Hf)).
  - intros h Hh. rewrite Hw by done. destruct (k_q s !! h) as [l|] eqn:El; constructor.
    rewrite remove_node_notin; [done|]. intros Hin. destruct (r_at _ _ _ _ _ Hok h l t El Hin) as (o' & Ho' & Hat).
    assert (o' = o) as -> by congruence. destruct h; simpl in *; destruct_and?; try done;
      match goal with E : t_state o = _ |- _ => by rewrite E in Ha end.
  - rewrite Ets, Ho. by destruct o.
  - intros x _ _. by rewrite Ets.
Qed.

(** Waits that are started again when the task resumes. *)
Definition restarts (st : osthr_state) : bool :=
  match st with
  | OSTHR_STATE_WTSEM | OSTHR_STATE_WTEVT | OSTHR_STATE_WTMTX | OSTHR_STATE_WTEXIT => true
  | _ => false
  end.

Lemma leave_state_list_spec t o b s :
  sched_inv s -> mtx_inv s -> k_tasks s !! t = Some o -> t_state o <> OSTHR_STATE_ZOMBIE ->
  wp (leave_state_list t b) (fun _ s' => detached t o (if restarts (t_state o) then b else t_wait_aborted o) s s') s.
Proof.
  intros Hi Hm Ho Hz. pose proof Hi as (Hok & Hsem & Ht). unfold leave_state_list.
  wp_step. eapply wp_task_get; [exact Ho|].
  assert (forall (Q : unit -> kstate HS -> Prop), t_state o <> OSTHR_STATE_WTSEM -> t_state o <> OSTHR_STATE_WTMTX ->
    queued_state (t_state o) = true -> active (t_state o) = false -> 
    (forall s', detached t o (t_wait_aborted o) s s' -> Q tt s') -> wp (q_delete t) Q s) as Hdel.
  { intros Q H1 H2 Hq Hna HQ. eapply q_delete_waiting; [exact Hok|exact Ho|done|]. intros h l Hl Hin Hat. apply HQ.
    eapply detached_queue; try done.
    - eapply sem_counts_frame; [exact Hsem|]. intros a. simpl. apply lookup_insert_ne. intros ->. by destruct Hat.
    - symmetry. by apply sems_without_other. }
  destruct (t_state o) eqn:Est; cbn [restarts]; try (wp_step; by apply detached_unqueued; [..|by rewrite Est]); try done.
  - eapply wp_mono; [by apply (delete_from_ready_list_spec t o); [..|rewrite Est]|].
    intros [] s' U. by apply detached_active; [..|rewrite Est|].
  - eapply wp_mono; [by apply (delete_from_ready_list_spec t o); [..|rewrite Est]|].
    intros [] s' U. by apply detached_active; [..|rewrite Est|].
  - destruct (queued_at _ _ _ _ _ t o Hok Ho) as (h & l & Hl & Hin & Hat); [done|by rewrite Est|].
    assert (h = QSem (t_obj o)) as -> by (destruct h; simpl in Hat; rewrite Est in Hat; destruct_and?; done || congruence).
    destruct (Hsem _ _ Hl) as (so & Hso & _ & _).
    assert (NoDup l) as Hnd by (by eapply (r_qwf _ _ _ _ _ Hok)).
    wp_step. unfold _isixp_sem_fast_signal. eapply wp_sem_upd; [exact Hso|]. set (so' := set_s_value _ so).
    destruct (seq_delete_in t (k_q s) _ l (r_qwf _ _ _ _ _ Hok) Hl Hin) as (Hd & _ & _).
    wp_step. unfold q_delete. eapply wp_q_store; [exact Hd|]. match goal with |- wp _ _ ?x => set (s1 := x) end.
    apply (detached_abort t o (t_wait_aborted o)).
    eapply (detached_queue t o (QSem (t_obj o)) l); try done; [by rewrite Est|by rewrite Est|by apply sem_counts_return|].
    unfold sems_without. by rewrite Est, Hso.
  - wp_step. apply Hdel; try done. intros s' D. by eapply detached_abort.
  - apply wp_assoc. wp_step. eapply wp_mono; [by apply detached_mutex|]. intros [] s' D. by eapply detached_abort.
  - by apply Hdel.
  - wp_step. apply Hdel; try done. intros s' D. by eapply detached_abort.
Qed.

(** ** Suspending *)

(** Task [t], whose control block was [o], has been stopped: it has the state [st]. *)
Record stopped (st : osthr_state) (aborted : bool) (t : Z) (o : task) s s' : Prop := {
  sp_inv : sched_inv s';
  sp_mtx : mtx_inv s';
  sp_ctl : same_ctl s s';
  sp_count : k_critical_count s' = k_critical_count s;
  sp_task : k_tasks s' !! t = Some (set_t_state st
    (set_t_wait_aborted (if restarts (t_state o) then aborted else t_wait_aborted o) o));
  sp_values : k_sems s' = sems_without o (k_sems s);
  sp_lists : left_lists t s s';
  sp_rest : forall x, remaining s' x = if decide (x = t) then None else remaining s x;
  sp_others : forall x, x <> t -> x <> blocking_owner s o -> k_tasks s' !! x = k_tasks s !! x;
  sp_owner : let w := blocking_owner s o in w <> NULL -> w <> t /\
    exists ow ow' ms, k_tasks s !! w = Some ow /\ k_tasks s' !! w = Some ow' /\ k_ml s !! w = Some ms /\
      t_real_prio ow' = t_real_prio ow /\ active (t_state ow') = active (t_state ow) /\
      tame (t_state ow) (t_state ow') = true /\
      highest_inherited s' ms (t_real_prio ow) (t_prio ow')
}.

(** The part that suspending and killing share; the task has its old state until it is set. *)
Lemma leave_lists_spec {R} (k : K HS R) Q t o b s :
  sched_inv s -> mtx_inv s -> k_tasks s !! t = Some o -> t_state o <> OSTHR_STATE_ZOMBIE ->
  (forall s2 ob, k_tasks s2 !! t = Some ob -> k_ndeleted s2 = k_ndeleted s ->
     stopped OSTHR_STATE_SUSPEND b t o s (upd_tasks (insert t (set_t_state OSTHR_STATE_SUSPEND ob)) s2) ->
     unlinked t (k_q s2) -> wp k Q s2) ->
  wp (timed <- tl_assigned t;; when timed (tl_delete t);;; leave_state_list t b;;; k) Q s.
Proof.
  intros Hi Hm Ho Hz HQ. pose proof Hi as (Hok & Hsem & Ht).
  apply wp_assoc. wp_step. apply leave_time_list; [done|]. intros tl' Ht1 Hnt Hrem1. set (s1 := upd_tl _ s) in *.
  wp_step. eapply wp_mono; [apply (leave_state_list_spec t o b s1); try done|]. intros [] s2 D.
  pose proof (dt_task _ _ _ _ _ D) as Hb.
  pose proof (dt_inv _ _ _ _ _ D) as Hok2. pose proof (detached_mtx t o _ s1 s2 Hm Ho D) as Hm2.
  assert (t <> NULL) as Hnull by (intros ->; by rewrite (r_null _ _ _ _ _ Hok2) in Hb).
  eapply HQ; [exact Hb|exact (same_ctl_dead _ _ (dt_ctl _ _ _ _ _ D))| |exact (r_detached _ _ _ _ _ Hok2 t eq_refl)]. set (o' := set_t_state _ _). set (s3 := upd_tasks _ s2).
  pose proof (ready_ok_upd_detached _ _ _ _ t o' Hok2 Hnull (r_range _ _ _ _ _ Hok2 _ _ Hb)) as Hok3.
  assert (forall x, prio_of (k_tasks s3) x = prio_of (k_tasks s2) x) as Hp.
  { intros x. simpl. rewrite prio_of_insert. case_decide as E; [subst x|done]. unfold prio_of. by rewrite Hb. }
  destruct (time_inv_frame s2 s3 (dt_time _ _ _ _ _ D)) as (Ht3 & Ec & Eo & Hrem3); [done|done|done| |].
  { intros x Hx. simpl. rewrite lookup_insert_ne; [done|]. intros <-.
    pose proof (dt_rest _ _ _ _ _ D t) as Hr. rewrite (remaining_None s1 t Hnt) in Hr.
    unfold remaining, on_time_list in *. rewrite elem_of_app in Hx. repeat case_decide; tauto || done. }
  split.
  - split; [|split; [exact (dt_sems _ _ _ _ _ D)|done]]. eapply ready_ok_attach; [exact Hok3|].
    intros o1. simpl. rewrite lookup_insert_eq. by intros [= <-].
  - eapply mtxs_ok_permuted; [exact Hm2| |].
    + intros x. simpl. rewrite lookup_insert. case_decide as E; [subst x; rewrite Hb; by constructor|].
      by destruct (k_tasks s2 !! x); constructor.
    + intros m. simpl. by destruct (k_q s2 !! QMtx m); constructor.
  - exact (dt_ctl _ _ _ _ _ D).
  - exact (dt_count _ _ _ _ _ D).
  - apply lookup_insert_eq.
  - exact (dt_values _ _ _ _ _ D).
  - exact (dt_lists _ _ _ _ _ D).
  - intros x. rewrite Hrem3, (dt_rest _ _ _ _ _ D). apply Hrem1.
  - intros x Hx Hw. simpl. rewrite lookup_insert_ne by done. exact (dt_others _ _ _ _ _ D x Hx Hw).
  - intros w Hw. destruct (dt_owner _ _ _ _ _ D Hw) as (Hwt & ow & ow' & ms & H1 & H2 & H3 & H4 & H5 & H6 & H7).
    split; [done|]. exists ow, ow', ms. split_and!; try done.
    + simpl. by rewrite lookup_insert_ne.
    + eapply highest_inherited_frame; [|intros; apply Hp|exact H7].
      intros m _. simpl. by destruct (k_q s2 !! QMtx m); constructor.
Qed.

Lemma isixp_suspend_spec t o s :
  sched_inv s -> mtx_inv s -> k_tasks s !! t = Some o -> t_state o <> OSTHR_STATE_ZOMBIE ->
  wp (_isixp_add_kill_or_set_suspend t true) (fun _ s' =>
    stopped OSTHR_STATE_SUSPEND true t o s s' /\ unlinked t (k_q s')) s.
Proof.
  intros Hi Hm Ho Hz. unfold _isixp_add_kill_or_set_suspend. apply (leave_lists_spec _ _ t o); try done.
  intros s2 ob Hb _ S Hu. eapply wp_task_upd; [exact Hb|]. by split.
Qed.

(** What does not concern the tasks and lists may change before and after. *)
Lemma stopped_frame st b t o s s0 s1 s' :
  same_clock s s0 -> same_ctl s s0 -> stopped st b t o s0 s1 -> same_clock s1 s' -> same_ctl s1 s' ->
  k_critical_count s' = k_critical_count s -> stopped st b t o s s'.
Proof.
  intros Hc0 Hl0 S Hc1 Hl1 Ecc. destruct (same_clock_inv s1 s' Hc1 (sp_inv _ _ _ _ _ _ S)) as [Hi' Hrem'].
  assert (forall x, remaining s0 x = remaining s x) as Hrem0.
  { intros x. destruct Hc0 as (E1 & _ & _ & _ & E5 & _ & E7 & E8 & _).
    unfold remaining, cur_list, ov_list. by rewrite E1, E5, E7, E8. }
  pose proof (same_ctl_elim _ _ Hl0) as (_ & _ & _ & M0 & L0 & _). pose proof (same_ctl_elim _ _ Hl1) as (_ & _ & _ & M1 & L1 & _).
  destruct Hc0 as (T0 & _ & Q0 & _ & _ & S0 & _). destruct Hc1 as (T1 & _ & Q1 & _ & _ & S1 & _).
  assert (blocking_owner s0 o = blocking_owner s o) as Ew by (unfold blocking_owner; by rewrite M0).
  split; try done.
  - unfold mtx_inv. rewrite T1, Q1, M1, L1. exact (sp_mtx _ _ _ _ _ _ S).
  - exact (eq_trans Hl1 (eq_trans (sp_ctl _ _ _ _ _ _ S) Hl0)).
  - rewrite T1. exact (sp_task _ _ _ _ _ _ S).
  - rewrite S1, <- S0. exact (sp_values _ _ _ _ _ _ S).
  - intros h Hh. rewrite Q1, <- Q0. exact (sp_lists _ _ _ _ _ _ S h Hh).
  - intros x. rewrite Hrem', (sp_rest _ _ _ _ _ _ S), Hrem0. done.
  - intros x Hx Hw. rewrite T1, <- T0. apply (sp_others _ _ _ _ _ _ S); [done|by rewrite Ew].
  - cbv zeta. rewrite <- Ew. intros Hw.
    destruct (sp_owner _ _ _ _ _ _ S Hw) as (Hwt & ow & ow' & ms & H1 & H2 & H3 & H4 & H5 & H6 & H7).
    split; [done|]. exists ow, ow', ms. rewrite T1, <- T0, <- L0. split_and!; try done.
    eapply highest_inherited_frame; [|intros; by rewrite T1|exact H7].
    intros m _. rewrite Q1. by destruct (k_q s1 !! QMtx m); constructor.
Qed.

End SuspendProofs.
