(* ===== verification/UnlockAll.v ===== *)
(** * Releasing every mutex of a task

    [_isixp_mutex_unlock_all_in_task] and [isix_mutex_unlock_all] of [mutex.c]: each mutex the
    task owns goes to the first of its waiters, or is free when nobody waits. *)

From S2P Require Import Prelude.
From S2P Require Import DList.
From S2P Require Import Kernel.
From S2P Require Import Scheduler.
From S2P Require Import Mutex.
From S2P Require Import SchedInv.
From S2P Require Import SchedCore.
From S2P Require Import SchedTime.
From S2P Require Import SchedSleep.
From S2P Require Import SchedWake.
From S2P Require Import WakeAll.
From S2P Require Import MutexProofs.
From S2P Require Import MutexOwner.
From S2P Require Import SuspendProofs.
From stdpp Require Import base numbers gmap list sorting.
From Stdlib Require Import ZArith Lia.
Local Open Scope Z_scope.

Section UnlockAll.
Context {HS : Type} {AL : Allocator HS}.
Implicit Types s : kstate HS.

(** The task that is first in line for the mutex. *)
Definition first_waiter (q : gmap qhead (list Z)) (m : Z) : option Z := q !! QMtx m ≫= head.

(** The tasks that get one of the mutexes [ms]. *)
Definition heirs (q : gmap qhead (list Z)) (ms : list Z) : list Z := omap (first_waiter q) ms.

Lemma heirs_cons q m ms :
  heirs q (m :: ms) = (match first_waiter q m with Some t => [t] | None => [] end) ++ heirs q ms.
Proof. unfold heirs. simpl. by destruct (first_waiter q m). Qed.

Lemma elem_of_heirs q ms t : t ∈ heirs q ms <-> exists m l, m ∈ ms /\ q !! QMtx m = Some (t :: l).
Proof.
  unfold heirs, first_waiter. rewrite list_elem_of_omap. split.
  - intros (m & Hm & Hf). destruct (q !! QMtx m) as [[|x l]|] eqn:E; simplify_eq/=. eauto.
  - intros (m & l & Hm & Hl). exists m. by rewrite Hl.
Qed.

Lemma heirs_frame q q' ms : (forall m, m ∈ ms -> q' !! QMtx m = q !! QMtx m) -> heirs q' ms = heirs q ms.
Proof.
  intros Hq. induction ms as [|m ms IH]; [done|]. rewrite !heirs_cons, IH by (intros; apply Hq; by right).
  unfold first_waiter. by rewrite (Hq m) by left.
Qed.

(** A mutex as its owner leaves it. *)
Definition left_mutex (o : mtx) (l : list Z) : mtx :=
  match l with [] => Mtx 0 NULL (m_static o) | t :: _ => Mtx 1 t (m_static o) end.

(** The mutexes [ms] of task [u], which keeps [rest], have been released. *)
Record unlocked (u : Z) (ms rest : list Z) s s' : Prop := {
  ul_inv : sched_inv s';
  ul_mtx : mtx_inv s';
  ul_run : same_run s s';
  ul_count : k_critical_count s' = k_critical_count s;
  ul_sems : k_sems s' = k_sems s;
  ul_owned : k_ml s' !! u = Some rest;
  ul_heirs : forall t, t ∈ heirs (k_q s) ms -> exists o e, k_tasks s !! t = Some o /\ k_tasks s' !! t =
    Some (set_t_prio_elem e (set_t_state OSTHR_STATE_READY (set_dmsg ISIX_EOK o)));
  ul_others : forall t, t ∉ heirs (k_q s) ms -> k_tasks s' !! t = k_tasks s !! t;
  ul_mtxs : forall m o l, m ∈ ms -> k_mtxs s !! m = Some o -> k_q s !! QMtx m = Some l ->
    k_mtxs s' !! m = Some (left_mutex o l) /\ k_q s' !! QMtx m = Some (tail l);
  ul_lists : forall h, is_ready_head h = false -> (forall m, m ∈ ms -> h <> QMtx m) -> k_q s' !! h = k_q s !! h;
  ul_other_mtxs : forall m, m ∉ ms -> k_mtxs s' !! m = k_mtxs s !! m;
  ul_rest : forall t, remaining s' t = remaining s t
}.

Lemma unlocked_nil u rest s : sched_inv s -> mtx_inv s -> k_ml s !! u = Some rest -> unlocked u [] rest s s.
Proof.
  intros Hi Hm Hu. split; try done; [by intros t ?%not_elem_of_nil|by intros m o l ?%not_elem_of_nil].
Qed.

(** Different mutexes have different heirs. *)
Lemma heirs_disjoint q m ms t : store_wf q -> m ∉ ms -> first_waiter q m = Some t -> t ∉ heirs q ms.
Proof.
  intros [_ Hdis] Hm Hf (m' & l' & Hin & Hl')%elem_of_heirs. unfold first_waiter in Hf.
  destruct (q !! QMtx m) as [[|x l]|] eqn:E; simplify_eq/=.
  assert (QMtx m = QMtx m') as [= ->]; [|done].
  eapply (Hdis _ _ _ _ t E Hl'); left.
Qed.

(** The first mutex, then the others. *)
Lemma unlocked_cons u m ms rest r0 s s1 s' :
  sched_inv s -> m ∉ ms -> unlocked u [m] r0 s s1 -> unlocked u ms rest s1 s' -> unlocked u (m :: ms) rest s s'.
Proof.
  intros (Hok & _) Hm A B.
  assert (forall m', m' ∈ ms -> k_q s1 !! QMtx m' = k_q s !! QMtx m') as Hq.
  { intros m' Hin. apply (ul_lists _ _ _ _ _ A); [done|]. intros x ->%list_elem_of_singleton [= ->]. done. }
  pose proof (heirs_frame (k_q s) (k_q s1) ms Hq) as Eh.
  assert (heirs (k_q s) (m :: ms) = heirs (k_q s) [m] ++ heirs (k_q s) ms) as Ec.
  { rewrite !heirs_cons. by destruct (first_waiter (k_q s) m). }
  assert (forall t, t ∈ heirs (k_q s) [m] -> t ∉ heirs (k_q s) ms) as Hd.
  { intros t (m' & l & ->%list_elem_of_singleton & Hl)%elem_of_heirs.
    apply (heirs_disjoint _ m); [by apply (r_qwf _ _ _ _ _ Hok)|done|]. unfold first_waiter. by rewrite Hl. }
  split.
  - by apply (ul_inv _ _ _ _ _ B).
  - by apply (ul_mtx _ _ _ _ _ B).
  - exact (eq_trans (ul_run _ _ _ _ _ B) (ul_run _ _ _ _ _ A)).
  - by rewrite (ul_count _ _ _ _ _ B), (ul_count _ _ _ _ _ A).
  - by rewrite (ul_sems _ _ _ _ _ B), (ul_sems _ _ _ _ _ A).
  - by apply (ul_owned _ _ _ _ _ B).
  - intros t. rewrite Ec, elem_of_app. intros [Ht|Ht].
    + destruct (ul_heirs _ _ _ _ _ A t Ht) as (o & e & Ho & Ho'). exists o, e. split; [done|].
      rewrite (ul_others _ _ _ _ _ B); [done|]. rewrite Eh. by apply Hd.
    + destruct (ul_heirs _ _ _ _ _ B t) as (o & e & Ho & Ho'); [by rewrite Eh|]. exists o, e. split; [|done].
      rewrite <- Ho. symmetry. apply (ul_others _ _ _ _ _ A). intros Ht'. by apply (Hd t).
  - intros t. rewrite Ec, elem_of_app. intros Ht. rewrite (ul_others _ _ _ _ _ B), (ul_others _ _ _ _ _ A); [done|tauto|].
    rewrite Eh. tauto.
  - intros m' o l Hin Ho Hl. destruct (decide (m' = m)) as [->|Hne].
    + destruct (ul_mtxs _ _ _ _ _ A m o l) as [E1 E2]; [by left|done|done|].
      rewrite (ul_other_mtxs _ _ _ _ _ B), (ul_lists _ _ _ _ _ B); [done|done|by intros x Hx [= ->]|done].
    + apply elem_of_cons in Hin as [?|Hin]; [done|]. apply (ul_mtxs _ _ _ _ _ B); [done| |by rewrite Hq].
      rewrite (ul_other_mtxs _ _ _ _ _ A); [done|]. by intros ?%list_elem_of_singleton.
  - intros h Hh Hne. rewrite (ul_lists _ _ _ _ _ B), (ul_lists _ _ _ _ _ A); try done.
    + intros x ->%list_elem_of_singleton. apply Hne. by left.
    + intros x Hx. apply Hne. by right.
  - intros m' [Hne Hin]%not_elem_of_cons. rewrite (ul_other_mtxs _ _ _ _ _ B), (ul_other_mtxs _ _ _ _ _ A); [done| |done].
    by intros ?%list_elem_of_singleton.
  - intros t. by rewrite (ul_rest _ _ _ _ _ B), (ul_rest _ _ _ _ _ A).
Qed.

(** Nobody waits for the mutex. *)
Lemma unlock_free_step {R} (k : K HS R) Q u m ms o s :
  sched_inv s -> mtx_inv s -> k_ml s !! u = Some (m :: ms) -> k_mtxs s !! m = Some o ->
  k_q s !! QMtx m = Some [] -> (forall s', unlocked u [m] ms s s' -> wp k Q s') ->
  wp (ml_delete m;;; mtx_upd m (set_m_count 0);;; mtx_upd m (set_m_owner NULL);;; k) Q s.
Proof.
  intros Hi Hm Hml Ho Hl HQ. assert (m ∈ m :: ms) as Hin by left.
  assert (NoDup (m :: ms)) as Hnd by (by eapply (mo_wf _ _ _ _ _ Hm)).
  destruct (seq_delete_in m (k_ml s) u _ (mo_wf _ _ _ _ _ Hm) Hml Hin) as (Hd & _ & _).
  pose proof (mtxs_ok_detach _ _ _ _ _ _ _ Hm Hml Hin) as Hm1. rewrite remove_node_head in Hd, Hm1 by done.
  wp_step. eapply wp_ml_store; [exact Hd|]. wp_step. eapply wp_mtx_upd; [exact Ho|].
  wp_step. eapply wp_mtx_upd; [apply lookup_insert_eq|].
  match goal with |- wp _ _ ?x => set (s1 := x) end.
  assert (k_mtxs s1 = <[m := Mtx 0 NULL (m_static o)]> (k_mtxs s)) as Em by (simpl; by rewrite insert_insert_eq).
  destruct (same_clock_inv s s1) as [Hi1 Hrem1]; [done|done|]. apply HQ. split; try done.
  - unfold mtx_inv. rewrite Em. by apply (mtxs_ok_release _ _ _ _ m).
  - apply lookup_insert_eq.
  - intros t (m' & l & ->%list_elem_of_singleton & Hl')%elem_of_heirs. congruence.
  - intros m' o' l ->%list_elem_of_singleton Ho' Hl'. rewrite Em, lookup_insert_eq. change (k_q s1) with (k_q s).
    rewrite Hl in Hl' |- *. rewrite Ho in Ho'. by simplify_eq.
  - intros m' Hne. rewrite Em, lookup_insert_ne; [done|]. intros ->. apply Hne. by left.
Qed.

(** The first waiter gets the mutex and is made ready. *)
Lemma unlock_transfer_step {R} (k : Z -> K HS R) Q u m ms o t l s :
  sched_inv s -> mtx_inv s -> k_ml s !! u = Some (m :: ms) -> k_mtxs s !! m = Some o ->
  k_q s !! QMtx m = Some (t :: l) -> (forall s', unlocked u [m] ms s s' -> wp (k t) Q s') ->
  wp (t' <- transfer_mtx_ownership_to_next_waiting_task m;; _isixp_wakeup_task_l t' ISIX_EOK;;; k t') Q s.
Proof.
  intros Hi Hm Hml Ho Hl HQ. pose proof Hi as (Hok & Hsem & Ht). assert (m ∈ m :: ms) as Hin by left.
  assert (NoDup (m :: ms)) as Hnd by (by eapply (mo_wf _ _ _ _ _ Hm)).
  pose proof (mtxs_ok_detach _ _ _ _ _ _ _ Hm Hml Hin) as Hm1.
  pose proof (without_owned m _ u _ (mo_wf _ _ _ _ _ Hm) Hml Hin) as Hwo. rewrite remove_node_head in Hm1, Hwo by done.
  destruct (mo_owned _ _ _ _ _ Hm u _ m Hml Hin) as (o' & Ho' & Hown). assert (o' = o) as -> by congruence.
  destruct (mo_held _ _ _ _ _ _ Hm Ho) as (l0 & k0 & Hl0 & _ & Hnl & _).
  { rewrite Hown. intros ->. destruct (proj1 (mo_dom _ _ _ _ _ Hm NULL) (mk_is_Some _ _ Hml)) as [x Hx]. by rewrite (mo_null _ _ _ _ _ Hm) in Hx. }
  assert (l0 = t :: l) as -> by congruence. rewrite Hown in Hnl.
  assert (t <> u) as Htu by (intros ->; apply Hnl; by left).
  destruct (r_at _ _ _ _ _ Hok _ _ t Hl) as (ot & Hot & Hst & _); [by left|].
  destruct (proj2 (mo_dom _ _ _ _ _ Hm t) (mk_is_Some _ _ Hot)) as [kt Hkt].
  wp_step. eapply wp_mono; [apply (transfer_spec m o t l kt _ s Hok Hwo Hm1 Ho Hl); by rewrite lookup_insert_ne|].
  intros r s1 (-> & Hok1 & Hmi1 & Hf & Eq & Eml & Em). unfold _isixp_wakeup_task_l.
  pose proof (f_equal k_tasks Hf : k_tasks s1 = k_tasks s) as Ets.
  destruct (time_inv_frame s s1 Ht) as (Ht1 & _ & _ & Hrem1);
    [exact (f_equal k_tl Hf)|exact (f_equal k_pwait Hf)|exact (f_equal k_jiffies Hf)|intros; by rewrite Ets|].
  assert (sems_ok s1) as Hsem1.
  { unfold sems_ok. rewrite (f_equal k_sems Hf : k_sems s1 = k_sems s).
    eapply sem_counts_frame; [exact Hsem|]. intros a. rewrite Eq. by rewrite lookup_insert_ne. }
  wp_step. eapply wp_mono; [apply (wakeup_task_spec t ot ISIX_EOK s1 Hok1 Hsem1 Ht1)|].
  { by rewrite Ets. } { by rewrite Hst. } { by rewrite Hst. }
  intros [] s2 W. apply HQ. pose proof (wd_frame _ _ _ _ _ W) as Hf2. destruct (wd_task _ _ _ _ _ W) as (e & Ets2).
  rewrite Ets in Ets2.
  assert (forall x, x ∈ heirs (k_q s) [m] <-> x = t) as Hh.
  { intros x. rewrite heirs_cons. unfold first_waiter. rewrite Hl. simpl. by rewrite list_elem_of_singleton. }
  assert (forall h, is_ready_head h = false -> k_q s2 !! h = <[QMtx m := l]> (k_q s) !! h) as Hq.
  { intros h Hr. by rewrite (wd_waiting _ _ _ _ _ W), Eq. }
  split.
  - by eapply wd_inv.
  - unfold mtx_inv. rewrite <- (f_equal k_mtxs Hf2 : k_mtxs s1 = k_mtxs s2), <- (f_equal k_ml Hf2 : k_ml s1 = k_ml s2).
    eapply mtxs_ok_permuted; [exact Hmi1| |].
    + intros x. rewrite Ets2, Ets, lookup_insert. case_decide as E; [subst x; rewrite Hot; by constructor|].
      by destruct (k_tasks s !! x); constructor.
    + intros m'. rewrite (wd_waiting _ _ _ _ _ W) by done. by destruct (k_q s1 !! QMtx m'); constructor.
  - unfold same_run. rewrite <- (f_equal run_ctl Hf2 : run_ctl s1 = run_ctl s2). exact (f_equal run_ctl Hf).
  - rewrite <- (f_equal k_critical_count Hf2 : k_critical_count s1 = k_critical_count s2). exact (f_equal k_critical_count Hf).
  - rewrite <- (f_equal k_sems Hf2 : k_sems s1 = k_sems s2). exact (f_equal k_sems Hf).
  - rewrite <- (f_equal k_ml Hf2 : k_ml s1 = k_ml s2), Eml. by rewrite lookup_insert_ne, lookup_insert_eq.
  - intros x ->%Hh. exists ot, e. by rewrite Ets2, lookup_insert_eq.
  - intros x Hx. rewrite Ets2, lookup_insert_ne; [done|]. intros ->. by apply Hx, Hh.
  - intros m' o' l' ->%list_elem_of_singleton Ho'' Hl'. rewrite Hl in Hl'. simplify_eq.
    rewrite Hq by done. rewrite lookup_insert_eq. split; [|done].
    rewrite <- (f_equal k_mtxs Hf2 : k_mtxs s1 = k_mtxs s2), Em. by rewrite lookup_insert_eq.
  - intros h Hr Hne. rewrite Hq by done. rewrite lookup_insert_ne; [done|]. intros <-. by apply (Hne m); [left|].
  - intros m' Hne. rewrite <- (f_equal k_mtxs Hf2 : k_mtxs s1 = k_mtxs s2), Em, lookup_insert_ne; [done|].
    intros ->. apply Hne. by left.
  - intros x. rewrite (wd_rest _ _ _ _ _ W), Hrem1. case_decide as E; [subst x|done].
    symmetry. apply remaining_None. eapply untimed; [exact Ht|exact Hot|by rewrite Hst].
Qed.

Lemma unlock_all_loop_spec u : forall ms w s,
  sched_inv s -> mtx_inv s -> k_ml s !! u = Some ms ->
  wp (unlock_all_loop ms w) (fun r s' => unlocked u ms [] s s' /\
    r = if w =? NULL then default NULL (head (heirs (k_q s) ms)) else w) s.
Proof.
  induction ms as [|m ms IH]; intros w s Hi Hm Hml; cbn [unlock_all_loop].
  { wp_step. split; [by apply unlocked_nil|]. by destruct (Z.eqb_spec w NULL). }
  destruct (mo_list _ _ _ _ _ _ _ m Hm Hml) as (o & l & Ho & _ & Hl); [by left|].
  assert (NoDup (m :: ms)) as [Hnm _]%NoDup_cons by (by eapply (mo_wf _ _ _ _ _ Hm)).
  assert (forall w' s1, unlocked u [m] ms s s1 ->
    wp (unlock_all_loop ms w') (fun r s' => unlocked u (m :: ms) [] s s' /\
      r = if w' =? NULL then default NULL (head (heirs (k_q s) ms)) else w') s1) as Hrest.
  { intros w' s1 A. eapply wp_mono; [apply (IH w' s1 (ul_inv _ _ _ _ _ A) (ul_mtx _ _ _ _ _ A) (ul_owned _ _ _ _ _ A))|].
    intros r s' [B ->]. split; [by eapply unlocked_cons|].
    rewrite (heirs_frame (k_q s) (k_q s1)); [done|]. intros m' Hin. apply (ul_lists _ _ _ _ _ A); [done|].
    by intros x ->%list_elem_of_singleton [= ->]. }
  assert (first_waiter (k_q s) m = head l) as Ef by (unfold first_waiter; by rewrite Hl).
  rewrite heirs_cons, Ef. wp_step. eapply wp_q_list; [exact Hl|]. destruct l as [|t l].
  - eapply unlock_free_step; [done|done|exact Hml|exact Ho|exact Hl|]. intros s1 A.
    eapply wp_mono; [by apply Hrest|]. done.
  - eapply unlock_transfer_step; [done|done|exact Hml|exact Ho|exact Hl|]. intros s1 A.
    eapply wp_mono; [by apply Hrest|]. intros r s' [B ->]. split; [exact B|]. simpl.
    destruct (Z.eqb_spec w NULL) as [_|Hw]; [|by rewrite (proj2 (Z.eqb_neq w NULL))].
    rewrite (proj2 (Z.eqb_neq t NULL)); [done|]. intros ->. pose proof (proj1 Hi) as Hok.
    destruct (r_at _ _ _ _ _ Hok _ _ NULL Hl) as (ot & Hot & _); [by left|]. by rewrite (r_null _ _ _ _ _ Hok) in Hot.
Qed.

(** Task [u], whose control block was [ou], has released all its mutexes [ms]; the running
    task [oc] gives way to the first heir when its priority is lower. *)
Record unlocked_all (u : Z) (ms : list Z) (ou : task) s s' : Prop := {
  ua_inv : sched_inv s';
  ua_mtx : mtx_inv s';
  ua_run : same_run s s';
  ua_count : k_critical_count s' = k_critical_count s;
  ua_sems : k_sems s' = k_sems s;
  ua_owned : k_ml s' !! u = Some [];
  ua_self : exists ou', k_tasks s' !! u = Some ou' /\ t_real_prio ou' = t_real_prio ou /\
    (if decide (u = k_currp s) then t_prio ou' = t_real_prio ou /\ active (t_state ou') = true /\
       tame (t_state ou) (t_state ou') = true else ou' = ou);
  ua_heirs : forall t, t ∈ heirs (k_q s) ms -> t <> u /\ exists o e, k_tasks s !! t = Some o /\ k_tasks s' !! t =
    Some (set_t_prio_elem e (set_t_state OSTHR_STATE_READY (set_dmsg ISIX_EOK o)));
  ua_others : forall t, t ∉ heirs (k_q s) ms -> t <> u -> k_tasks s' !! t = k_tasks s !! t;
  ua_mtxs : forall m o l, m ∈ ms -> k_mtxs s !! m = Some o -> k_q s !! QMtx m = Some l ->
    k_mtxs s' !! m = Some (left_mutex o l) /\ k_q s' !! QMtx m = Some (tail l);
  ua_lists : forall h, is_ready_head h = false -> (forall m, m ∈ ms -> h <> QMtx m) -> k_q s' !! h = k_q s !! h;
  ua_other_mtxs : forall m, m ∉ ms -> k_mtxs s' !! m = k_mtxs s !! m;
  ua_rest : forall t, remaining s' t = remaining s t
}.

(** Nobody who waits for a mutex of [u] is [u]. *)
Lemma heir_not_owner u ms t s : mtx_inv s -> k_ml s !! u = Some ms -> t ∈ heirs (k_q s) ms -> t <> u.
Proof.
  intros Hm Hml (m & l & Hin & Hl)%elem_of_heirs ->.
  destruct (mo_owned _ _ _ _ _ Hm u ms m Hml Hin) as (o & Ho & Hown).
  destruct (mo_held _ _ _ _ _ _ Hm Ho) as (l0 & k0 & Hl0 & _ & Hnl & _).
  - rewrite Hown. intros ->. destruct (proj1 (mo_dom _ _ _ _ _ Hm NULL) (mk_is_Some _ _ Hml)) as [x Hx].
    by rewrite (mo_null _ _ _ _ _ Hm) in Hx.
  - assert (l0 = u :: l) as -> by congruence. rewrite Hown in Hnl. apply Hnl. by left.
Qed.

(** The released task drops what it inherited, when it is the running one. *)
Lemma unlocked_drop u ms ou s s1 :
  mtx_inv s -> k_ml s !! u = Some ms -> k_tasks s !! u = Some ou -> (u = k_currp s -> active (t_state ou) = true) ->
  unlocked u ms [] s s1 ->
  wp (when (u =? k_currp s) (restore_priority u)) (fun _ s' => unlocked_all u ms ou s s') s1.
Proof.
  intros Hm Hml Hou Hact [Hi1 Hm1 Hr Ecc Esem How Hhe Hot Hmx Hli Hmo Hrest].
  assert (k_tasks s1 !! u = Some ou) as Hou1.
  { rewrite Hot; [done|]. intros Hin. by apply (heir_not_owner u ms u s). }
  destruct (Z.eqb_spec u (k_currp s)) as [Eu|Nu].
  2: { wp_step. split; try done; auto.
       - exists ou. by rewrite decide_False.
       - intros t Ht. split; [by apply (heir_not_owner u ms t s)|by apply Hhe]. }
  eapply wp_mono; [by apply (restore_priority_spec None u ou [] s1)|].
  intros [] s2 (p & (_ & _ & [Hp|(m & l & x & Hin & _)]) & [Hi2 Hf (o' & Ets & Ep & Erp & Ea & Est) Hre Hrem]); [|by apply not_elem_of_nil in Hin].
  specialize (Hact Eu). pose proof (reordered_active _ _ _ _ (proj1 Hi1) Hou1 Hact Hre) as Hw.
  split; try done.
  - unfold mtx_inv. rewrite <- (f_equal k_mtxs Hf : k_mtxs s1 = k_mtxs s2), <- (f_equal k_ml Hf : k_ml s1 = k_ml s2).
    eapply mtxs_ok_permuted; [exact Hm1| |].
    + intros x. rewrite Ets, lookup_insert. case_decide as E; [subst x; rewrite Hou1; by constructor|].
      by destruct (k_tasks s1 !! x); constructor.
    + intros m. rewrite Hw by done. by destruct (k_q s1 !! QMtx m); constructor.
  - exact (eq_trans (eq_sym (f_equal run_ctl Hf)) Hr).
  - rewrite <- Ecc. exact (eq_sym (f_equal k_critical_count Hf)).
  - rewrite <- Esem. exact (eq_sym (f_equal k_sems Hf)).
  - rewrite <- How. exact (f_equal (fun m => m !! u) (eq_sym (f_equal k_ml Hf))).
  - exists o'. rewrite Ets, lookup_insert_eq, decide_True by done. split_and!; try done; [congruence|by rewrite Ea].
  - intros t Ht. pose proof (heir_not_owner u ms t s Hm Hml Ht) as Hne. split; [done|].
    destruct (Hhe t Ht) as (o & e & Ho & Ho'). exists o, e. split; [done|]. by rewrite Ets, lookup_insert_ne.
  - intros t Ht Hne. rewrite Ets, lookup_insert_ne by done. by apply Hot.
  - intros m o l Hin Ho Hl. rewrite Hw by done. rewrite <- (f_equal k_mtxs Hf : k_mtxs s1 = k_mtxs s2). by apply Hmx.
  - intros h Hh Hne. rewrite Hw by done. by apply Hli.
  - intros m Hne. rewrite <- (f_equal k_mtxs Hf : k_mtxs s1 = k_mtxs s2). by apply Hmo.
  - intros t. by rewrite Hrem.
Qed.

(** Masks and pending switches do not matter. *)
Lemma unlocked_all_clock u ms ou s0 s s1 s' :
  same_clock s0 s -> same_run s0 s -> k_mtxs s = k_mtxs s0 -> unlocked_all u ms ou s s1 -> 
  same_clock s1 s' -> same_run s1 s' -> k_mtxs s' = k_mtxs s1 -> k_ml s' = k_ml s1 ->
  k_critical_count s' = k_critical_count s0 -> unlocked_all u ms ou s0 s'.
Proof.
  intros Hc0 Hr0 Em0 [Hi1 Hm1 Hr Ecc Esem How Hse Hhe Hot Hmx Hli Hmo Hrest] Hc1 Hr1 Em1 Eml1 Ecc'.
  pose proof (same_run_elim _ _ Hr0) as (Ec0 & _).
  destruct (same_clock_inv s1 s' Hc1 Hi1) as [Hi' Hrem'].
  assert (forall x, remaining s x = remaining s0 x) as Hrem0.
  { destruct Hc0 as (E1 & _ & _ & _ & E5 & _ & E7 & E8 & _). intros x. unfold remaining, on_time_list, cur_list, ov_list.
    by rewrite E1, E5, E7, E8. }
  destruct Hc0 as (T0 & _ & Q0 & _ & _ & S0 & _). destruct Hc1 as (T1 & _ & Q1 & _ & _ & S1 & _).
  split; rewrite ?T1, ?Q1, ?Em1, ?Eml1, <- ?T0, <- ?Q0, <- ?Em0, <- ?Ec0; try done.
  - unfold mtx_inv. by rewrite T1, Q1, Em1, Eml1.
  - exact (eq_trans Hr1 (eq_trans Hr Hr0)).
  - by rewrite S1, Esem.
  - intros x. by rewrite Hrem', Hrest.
Qed.

Lemma unlock_all_in_task_spec u ms ou oc s :
  sched_inv s -> mtx_inv s -> k_schrun s = true -> 0 <= k_critical_count s ->
  k_tasks s !! u = Some ou -> k_ml s !! u = Some ms -> k_tasks s !! k_currp s = Some oc ->
  (u = k_currp s -> active (t_state ou) = true) ->
  wp (_isixp_mutex_unlock_all_in_task u) (fun _ s' => unlocked_all u ms ou s s' /\
    (forall t, head (heirs (k_q s) ms) = Some t ->
       prio_of (k_tasks s') t < prio_of (k_tasks s') (k_currp s) -> k_pendsv s' = true)) s.
Proof.
  intros Hi Hm Hrun Hcc Hou Hml Hoc Hact. unfold _isixp_mutex_unlock_all_in_task.
  wp_step. apply wp_enter_critical; [done|]. set (s0 := upd_critical_count _ _).
  destruct (same_clock_inv s s0) as [Hi0 _]; [done|done|].
  wp_step. eapply wp_ml_list; [exact Hml|]. wp_step.
  eapply wp_mono; [by apply (unlock_all_loop_spec u ms NULL s0)|]. intros w s1 [A ->].
  wp_step. wp_step. pose proof (same_run_elim _ _ (ul_run _ _ _ _ _ A)) as (Ec & _).
  rewrite Ec. change (k_currp s0) with (k_currp s).
  wp_step. eapply wp_mono; [apply (unlocked_drop u ms ou s0 s1); try done|]. intros [] s2 B.
  pose proof (ua_count _ _ _ _ _ B) as Ecc. change (k_critical_count s0) with (k_critical_count s + 1) in Ecc.
  pose proof (same_run_elim _ _ (ua_run _ _ _ _ _ B)) as (Ec2 & Er2 & _).
  change (k_currp s0) with (k_currp s) in Ec2. change (k_schrun s0) with (k_schrun s) in Er2.
  change (heirs (k_q s0) ms) with (heirs (k_q s) ms).
  assert (forall s', same_clock s2 s' -> same_run s2 s' -> k_mtxs s' = k_mtxs s2 -> k_ml s' = k_ml s2 ->
    k_critical_count s' = k_critical_count s -> unlocked_all u ms ou s s') as Hfin.
  { intros s' Hc1 Hr1 Em1 Eml1 Ecc1. by apply (unlocked_all_clock u ms ou s s0 s2 s'). }
  pose proof (r_null _ _ _ _ _ (proj1 (ua_inv _ _ _ _ _ B))) as Hnull.
  destruct (heirs (k_q s) ms) as [|t hs] eqn:Eh; simpl default.
  - change (NULL =? NULL) with true. cbn [negb]. apply wp_exit_critical; [lia|].
    split; [|done]. apply Hfin; try done. simpl. lia.
  - assert (t ∈ heirs (k_q s0) ms) as Hin by (change (k_q s0) with (k_q s); rewrite Eh; left).
    destruct (ua_heirs _ _ _ _ _ B t Hin) as (_ & ot & e & _ & Hot). set (ot' := set_t_prio_elem _ _) in *.
    assert (t <> NULL) as Hn by (intros ->; by rewrite Hnull in Hot).
    change (NULL =? NULL) with true. cbv iota. rewrite (proj2 (Z.eqb_neq t NULL)) by done. cbn [negb].
    assert (exists oc2, k_tasks s2 !! k_currp s = Some oc2) as [oc2 Hoc2].
    { destruct (decide (k_currp s = u)) as [->|Hu]; [destruct (ua_self _ _ _ _ _ B) as (o' & Ho' & _); by exists o'|].
      destruct (decide (k_currp s ∈ heirs (k_q s0) ms)) as [Hx|Hx].
      - destruct (ua_heirs _ _ _ _ _ B _ Hx) as (_ & ox & ex & _ & Hox). by eexists.
      - exists oc. by rewrite (ua_others _ _ _ _ _ B). }
    eapply (do_reschedule_spec t ot' oc2); [done|by rewrite Er2|lia|exact Hot|by rewrite Ec2|].
    split; [apply Hfin; try done; simpl; lia|]. intros t' [= <-].
    match goal with |- context [yielded ?b ?x] => change (k_tasks (yielded b x)) with (k_tasks s2) end.
    unfold prio_of. rewrite Hot, Hoc2. intros Hlt. simpl. by rewrite (proj2 (Z.ltb_lt _ _)).
Qed.

(** Releasing every mutex of a task leaves none behind: each goes to the first task in its
    wait list, which is made ready with [ISIX_EOK] and a lock count of one, or is free when
    nobody waits; the task owns nothing any more, falls back to its base priority when it is
    the caller, no other task changes, and the invariants hold again. *)
Theorem unlock_all_releases u ms ou oc s :
  sched_inv s -> mtx_inv s -> k_schrun s = true -> 0 <= k_critical_count s ->
  k_tasks s !! u = Some ou -> k_ml s !! u = Some ms -> k_tasks s !! k_currp s = Some oc ->
  (u = k_currp s -> active (t_state ou) = true) ->
  wp (_isixp_mutex_unlock_all_in_task u) (fun _ s' => unlocked_all u ms ou s s' /\
    (forall t, head (heirs (k_q s) ms) = Some t ->
       prio_of (k_tasks s') t < prio_of (k_tasks s') (k_currp s) -> k_pendsv s' = true)) s.
Proof. apply unlock_all_in_task_spec. Qed.

End UnlockAll.
