(* ===== verification/TaskProofs.v ===== *)
(** * Suspending, resuming and changing the priority of a task *)

From S2P Require Import Prelude.
From S2P Require Import DList.
From S2P Require Import Kernel.
From S2P Require Import Scheduler.
From S2P Require Import Events.
From S2P Require Import Mutex.
From S2P Require Import Task.
From S2P Require Import SchedInv.
From S2P Require Import SchedCore.
From S2P Require Import SchedTime.
From S2P Require Import SchedSleep.
From S2P Require Import SchedWake.
From S2P Require Import MutexProofs.
From S2P Require Import MutexOwner.
From S2P Require Import Detached.
From S2P Require Import SuspendProofs.
From stdpp Require Import base numbers gmap list sorting.
From Stdlib Require Import ZArith Lia.
Local Open Scope Z_scope.

Section TaskProofs.
Context {HS : Type} {AL : Allocator HS}.
Implicit Types s : kstate HS.

(** The task a NULL argument stands for. *)
Definition named s (task : Z) : Z := if decide (task = NULL) then k_currp s else task.

Lemma wp_task_or_current task (Q : Z -> kstate HS -> Prop) s :
  Q (named s task) s -> wp (task_or_current task) Q s.
Proof.
  intros HQ. unfold task_or_current, named in *. do 3 wp_step.
  destruct (Z.eqb_spec task NULL); by case_decide.
Qed.

(** ** isix_task_suspend *)

Lemma task_suspend_spec task o s :
  sched_inv s -> mtx_inv s -> k_schrun s = true -> 0 <= k_critical_count s ->
  k_tasks s !! named s task = Some o -> t_state o <> OSTHR_STATE_ZOMBIE -> t_state o <> OSTHR_STATE_EXITED ->
  t_state o <> OSTHR_STATE_SUSPEND ->
  wp (isix_task_suspend task) (fun _ s' => stopped OSTHR_STATE_SUSPEND true (named s task) o s s' /\
    unlinked (named s task) (k_q s') /\ (named s task = k_currp s -> k_pendsv s' = true)) s.
Proof.
  intros Hi Hm Hrun Hcc Ho H1 H2 H3. unfold isix_task_suspend.
  wp_step. apply wp_enter_critical; [done|]. set (s0 := upd_critical_count _ _).
  wp_step. apply wp_task_or_current. change (named s0 task) with (named s task). set (t := named s task) in *.
  wp_step. eapply wp_task_get; [exact Ho|]. rewrite bool_decide_eq_false_2 by tauto.
  destruct (same_clock_inv s s0) as [Hi0 _]; [done|done|].
  wp_step. eapply wp_mono; [apply (isixp_suspend_spec t o s0 Hi0 Hm Ho H1)|]. intros [] s1 [S Hu].
  pose proof (same_ctl_elim _ _ (sp_ctl _ _ _ _ _ _ S)) as (Ec & Er & _).
  pose proof (sp_count _ _ _ _ _ _ S) as Ecc. change (k_critical_count s0) with (k_critical_count s + 1) in Ecc.
  wp_step. wp_step. rewrite Ec. change (k_currp s0) with (k_currp s).
  assert (forall s2, same_clock s1 s2 -> same_ctl s1 s2 -> k_critical_count s2 = k_critical_count s ->
    stopped OSTHR_STATE_SUSPEND true t o s s2 /\ unlinked t (k_q s2)) as Hfin.
  { intros s2 Hc2 Hl2 Ecc2. split; [by apply (stopped_frame _ _ t o s s0 s1 s2)|].
    destruct Hc2 as (_ & _ & -> & _). exact Hu. }
  destruct (Z.eqb_spec t (k_currp s)) as [Et|Et].
  - wp_step. apply wp_exit_critical; [lia|]. unfold isix_yield, _isix_port_yield. do 3 wp_step.
    match goal with |- context [k_schrun ?x] => change (k_schrun x) with (k_schrun s1) end.
    rewrite Er. change (k_schrun s0) with (k_schrun s). rewrite Hrun. wp_step.
    match goal with |- stopped _ _ _ _ _ ?x /\ _ => destruct (Hfin x) as [? ?]; [done|done|simpl; lia|] end.
    by split_and!.
  - apply wp_exit_critical; [lia|].
    match goal with |- stopped _ _ _ _ _ ?x /\ _ => destruct (Hfin x) as [? ?]; [done|done|simpl; lia|] end.
    by split_and!.
Qed.

(** A task that is suspended or dead is left alone. *)
Lemma task_suspend_ignored task o s :
  0 <= k_critical_count s -> k_tasks s !! named s task = Some o ->
  t_state o = OSTHR_STATE_ZOMBIE \/ t_state o = OSTHR_STATE_EXITED \/ t_state o = OSTHR_STATE_SUSPEND ->
  wp (isix_task_suspend task) (fun _ s' => same_clock s s' /\ same_ctl s s' /\
    k_critical_count s' = k_critical_count s) s.
Proof.
  intros Hcc Ho Hst. unfold isix_task_suspend. wp_step. apply wp_enter_critical; [done|].
  wp_step. apply wp_task_or_current. wp_step. eapply wp_task_get; [exact Ho|].
  rewrite bool_decide_eq_true_2 by done. apply wp_exit_critical; [simpl; lia|].
  split_and!; [done|done|simpl; lia].
Qed.

(** C19: Suspending a task stops it wherever it is: it leaves the ready list, the time list
    and the list of whatever it waits for, a claim on a semaphore is given back, the owner of a
    mutex it waited for falls back to the highest priority it still inherits, a wait that can
    be started again is marked as aborted, no other task changes, and the invariants of the
    lists, the semaphores, the clock and the mutexes hold again.  A task that suspends itself
    gives up the processor. *)
Theorem task_suspend_stops task o s :
  sched_inv s -> mtx_inv s -> k_schrun s = true -> 0 <= k_critical_count s ->
  k_tasks s !! named s task = Some o -> t_state o <> OSTHR_STATE_ZOMBIE -> t_state o <> OSTHR_STATE_EXITED ->
  t_state o <> OSTHR_STATE_SUSPEND ->
  wp (isix_task_suspend task) (fun _ s' => stopped OSTHR_STATE_SUSPEND true (named s task) o s s' /\
    unlinked (named s task) (k_q s') /\ (named s task = k_currp s -> k_pendsv s' = true)) s.
Proof. apply task_suspend_spec. Qed.

(** ** isix_task_resume *)

(** [t], whose control block was [o], is ready again. *)
Record resumed (t : Z) (o oc : task) s s' : Prop := {
  rs_inv : sched_inv s';
  rs_mtx : mtx_inv s';
  rs_ctl : same_ctl s s';
  rs_count : k_critical_count s' = k_critical_count s;
  rs_task : exists e, k_tasks s' =
    <[t := set_t_prio_elem e (set_t_state OSTHR_STATE_READY (set_dmsg ISIX_EOK o))]> (k_tasks s);
  rs_rest : forall x, remaining s' x = remaining s x;
  rs_rq : forall p, rq s' p = if decide (p = t_prio o) then rq s p ++ [t] else rq s p;
  rs_waiting : same_waiting s s';
  rs_yield : t_prio o < t_prio oc -> k_pendsv s' = true
}.

(** A wake-up does not touch the mutexes. *)
Lemma waked_mtx t o msg s s' : waked t o msg s s' -> k_tasks s !! t = Some o -> mtx_inv s -> mtx_inv s'.
Proof.
  intros W Ho Hm. pose proof (wd_frame _ _ _ _ _ W) as Hf. destruct (wd_task _ _ _ _ _ W) as (e & Ets). unfold mtx_inv.
  rewrite <- (f_equal k_mtxs Hf : k_mtxs s = k_mtxs s'), <- (f_equal k_ml Hf : k_ml s = k_ml s').
  eapply mtxs_ok_permuted; [exact Hm| |].
  - intros x. rewrite Ets, lookup_insert. case_decide as E; [subst x; rewrite Ho; by constructor|].
    by destruct (k_tasks s !! x); constructor.
  - intros m. rewrite (wd_waiting _ _ _ _ _ W) by done. by destruct (k_q s !! QMtx m); constructor.
Qed.

Lemma task_resume_spec t o oc s :
  sched_inv s -> mtx_inv s -> k_schrun s = true -> 0 <= k_critical_count s ->
  k_tasks s !! t = Some o -> t_state o = OSTHR_STATE_SUSPEND -> k_tasks s !! k_currp s = Some oc ->
  t <> k_currp s ->
  wp (isix_task_resume t) (fun r s' => r = ISIX_EOK /\ resumed t o oc s s') s.
Proof.
  intros Hi Hm Hrun Hcc Ho Hst Hoc Hne. pose proof Hi as (Hok & Hsem & Ht).
  assert (t <> NULL) as Hnull by (intros ->; rewrite (r_null _ _ _ _ _ Hok) in Ho; done).
  unfold isix_task_resume. wp_step. wp_step.
  rewrite (proj2 (Z.eqb_neq t (k_currp s))), (proj2 (Z.eqb_neq t NULL)) by done. cbn [orb].
  wp_step. apply wp_enter_critical; [done|]. set (s0 := upd_critical_count _ _).
  wp_step. eapply wp_task_get; [exact Ho|]. rewrite bool_decide_eq_true_2 by done.
  destruct (same_clock_inv s s0) as [Hi0 Hrem0]; [done|done|]. destruct Hi0 as (Hok0 & Hsem0 & Ht0).
  wp_step. eapply wp_mono; [apply (isixp_wakeup_task_spec t o oc ISIX_EOK s0)|]; try done.
  - by apply (ready_ok_detach _ _ _ _ _ o); [..|by rewrite Hst].
  - by rewrite Hst.
  - by rewrite Hst.
  - simpl. lia.
  - intros [] s' (s2 & W & ->). wp_step. split; [done|].
    destruct (same_clock_inv s2 _ (same_clock_yielded (t_prio o <? t_prio oc) s2) (wd_inv _ _ _ _ _ W)) as [Hi' Hrem'].
    pose proof (wd_frame _ _ _ _ _ W) as Hf. destruct (wd_task _ _ _ _ _ W) as (e & Ets).
    split; try done.
    + exact (waked_mtx t o _ s0 s2 W Ho Hm).
    + exact (eq_sym (f_equal ctl Hf)).
    + simpl. rewrite <- (f_equal k_critical_count Hf : k_critical_count s + 1 = k_critical_count s2). lia.
    + by exists e.
    + intros x. rewrite Hrem', (wd_rest _ _ _ _ _ W), Hrem0. case_decide as E; [subst x|done].
      symmetry. apply remaining_None. eapply untimed; [exact Ht|exact Ho|by rewrite Hst].
    + exact (wd_rq _ _ _ _ _ W).
    + exact (wd_waiting _ _ _ _ _ W).
    + intros Hlt. simpl. by rewrite (proj2 (Z.ltb_lt _ _)).
Qed.

(** Only a suspended task can be resumed. *)
Lemma task_resume_refused t o s :
  0 <= k_critical_count s -> k_tasks s !! t = Some o -> t_state o <> OSTHR_STATE_SUSPEND -> t <> NULL ->
  wp (isix_task_resume t) (fun r s' => r = (if decide (t = k_currp s) then ISIX_EINVARG else ISIX_ESTATE) /\
    same_clock s s' /\ same_ctl s s' /\ k_critical_count s' = k_critical_count s) s.
Proof.
  intros Hcc Ho Hst Hnull. unfold isix_task_resume. wp_step. wp_step. rewrite (proj2 (Z.eqb_neq t NULL)) by done.
  rewrite orb_false_r. destruct (Z.eqb_spec t (k_currp s)) as [E|E]; [wp_step; by rewrite decide_True|].
  rewrite decide_False by done. wp_step. apply wp_enter_critical; [done|].
  wp_step. eapply wp_task_get; [exact Ho|]. rewrite bool_decide_eq_false_2 by done.
  wp_step. apply wp_exit_critical; [simpl; lia|]. wp_step. split_and!; [done|done|done|simpl; lia].
Qed.

(** C20: A task that is suspended and resumed is back: it is ready at the end of the queue of
    its priority with that priority and base priority, on no wait list and no time list, and a
    semaphore, event, mutex or exit wait it was stopped in is started again, since its control
    block notes that the wait was aborted. *)
Theorem task_suspend_resume t o oc s :
  sched_inv s -> mtx_inv s -> k_schrun s = true -> 0 <= k_critical_count s ->
  k_tasks s !! t = Some o -> t_state o <> OSTHR_STATE_ZOMBIE -> t_state o <> OSTHR_STATE_EXITED ->
  t_state o <> OSTHR_STATE_SUSPEND -> k_tasks s !! k_currp s = Some oc -> t <> k_currp s ->
  wp (isix_task_suspend t;;; isix_task_resume t) (fun r s' => r = ISIX_EOK /\ sched_inv s' /\ mtx_inv s' /\
    (exists o', k_tasks s' !! t = Some o' /\ t_state o' = OSTHR_STATE_READY /\ t_prio o' = t_prio o /\
       t_real_prio o' = t_real_prio o /\ (restarts (t_state o) = true -> t_wait_aborted o' = true)) /\
    last (rq s' (t_prio o)) = Some t /\ left_lists t s s' /\
    (forall x, remaining s' x = if decide (x = t) then None else remaining s x)) s.
Proof.
  intros Hi Hm Hrun Hcc Ho H1 H2 H3 Hoc Hne. pose proof Hi as (Hok & _).
  assert (t <> NULL) as Hnull by (intros ->; rewrite (r_null _ _ _ _ _ Hok) in Ho; done).
  assert (named s t = t) as En by (unfold named; by rewrite decide_False).
  wp_step. eapply wp_mono; [apply (task_suspend_spec t o s); rewrite ?En; done|]. rewrite En. intros [] s1 (S & Hu & _).
  pose proof (same_ctl_elim _ _ (sp_ctl _ _ _ _ _ _ S)) as (Ec & Er & _).
  assert (k_schrun s1 = true) as Er' by (rewrite Er; exact Hrun).
  assert (exists oc1, k_tasks s1 !! k_currp s1 = Some oc1) as [oc1 Hoc1].
  { rewrite Ec. destruct (decide (k_currp s = blocking_owner s o)) as [Ew|Hw].
    - assert (blocking_owner s o <> NULL) as Hwn.
      { intros E. rewrite E in Ew. by rewrite Ew, (r_null _ _ _ _ _ Hok) in Hoc. }
      destruct (sp_owner _ _ _ _ _ _ S Hwn) as (_ & ow & ow' & ms & _ & How' & _). rewrite <- Ew in How'. by exists ow'.
    - exists oc. rewrite <- Hoc. by apply (sp_others _ _ _ _ _ _ S). }
  eapply wp_mono; [eapply (task_resume_spec t _ oc1 s1 (sp_inv _ _ _ _ _ _ S) (sp_mtx _ _ _ _ _ _ S) Er')|].
  - rewrite (sp_count _ _ _ _ _ _ S). done.
  - exact (sp_task _ _ _ _ _ _ S).
  - done.
  - exact Hoc1.
  - by rewrite Ec.
  - intros r s' [-> R]. destruct (rs_task _ _ _ _ _ R) as (e & Ets).
    split_and!; [done|by eapply rs_inv|by eapply rs_mtx| | | |].
    + eexists. split; [rewrite Ets; apply lookup_insert_eq|]. split_and!; try done. intros Hr. simpl. by rewrite Hr.
    + rewrite (rs_rq _ _ _ _ _ R), decide_True by done. apply last_snoc.
    + intros h Hh. rewrite (rs_waiting _ _ _ _ _ R) by done. exact (sp_lists _ _ _ _ _ _ S h Hh).
    + intros x. rewrite (rs_rest _ _ _ _ _ R). exact (sp_rest _ _ _ _ _ _ S x).
Qed.

(** ** isix_task_change_prio *)

(** The base priority of [t] is [p] now. *)
Record rebased (t p : Z) (o : task) s s' : Prop := {
  rb_inv : sched_inv s';
  rb_mtx : mtx_inv s';
  rb_ctl : same_ctl s s';
  rb_count : k_critical_count s' = k_critical_count s;
  rb_task : exists o', k_tasks s' = <[t := o']> (k_tasks s) /\ t_real_prio o' = p /\
    t_prio o' = (if decide (t_prio o = t_real_prio o \/ p < t_prio o) then p else t_prio o) /\
    active (t_state o') = active (t_state o) /\
    tame (t_state o) (t_state o') = true;
  rb_lists : reordered t s s';
  rb_rest : forall x, remaining s' x = remaining s x;
  rb_yield : t_prio o = t_real_prio o \/ p < t_prio o -> k_pendsv s' = true
}.

(** The base priority of a task is not looked at by the lists. *)
Lemma set_real_prio_inv t o p s :
  sched_inv s -> mtx_inv s -> k_tasks s !! t = Some o -> 0 <= p <= CONFIG_ISIX_NUMBER_OF_PRIORITIES ->
  let s' := upd_tasks (insert t (set_t_real_prio p o)) s in
  sched_inv s' /\ (forall x, remaining s' x = remaining s x) /\
  forall q, (forall m, option_Forall2 (fun l l' => l' ≡ₚ l) (k_q s !! QMtx m) (q !! QMtx m)) ->
    mtxs_ok None (k_tasks s') (k_mtxs s) (k_ml s) q.
Proof.
  intros (Hok & Hsem & Ht) Hm Ho Hp s'.
  destruct (time_inv_same s s' Ht) as (Ht' & _ & _ & Hrem); [done|done|done| |].
  { intros x _ ox Hox. simpl. rewrite lookup_insert. case_decide as E; [subst x|by exists ox]. eexists. split; [done|].
    by simplify_eq. }
  split_and!; [|done|].
  - split; [|split; [exact Hsem|done]]. eapply ready_ok_upd_same; [exact Hok|exact Ho|done| |done].
    intros h Hat. by destruct h.
  - intros q Hq. assert (mtxs_ok None (k_tasks s) (k_mtxs s) (k_ml s) q) as Hm1.
    { eapply mtxs_ok_permuted; [exact Hm|intros x; by destruct (k_tasks s !! x); constructor|done]. }
    destruct Hm1. split; try done.
    + simpl. rewrite lookup_insert_ne; [done|]. intros ->. by rewrite mo_null in Ho.
    + intros x. rewrite mo_dom. simpl. rewrite lookup_insert. case_decide as E; [|done]. subst x. rewrite Ho. by split.
    + intros x ox. simpl. rewrite lookup_insert. case_decide; [by intros [= <-]|eauto].
Qed.

(** A priority out of range is refused, that of the task itself accepted without a change. *)
Lemma change_prio_refused task p o s :
  k_schrun s = true -> 0 <= k_critical_count s -> k_tasks s !! named s task = Some o ->
  p = t_real_prio o \/ isix_get_min_priority < p ->
  wp (isix_task_change_prio task p) (fun r s' =>
    r = (if decide (isix_get_min_priority < p) then ISIX_ENOPRIO else ISIX_EOK) /\
    same_clock s s' /\ same_ctl s s' /\ k_critical_count s' = k_critical_count s) s.
Proof.
  intros Hrun Hcc Ho Hp. unfold isix_task_change_prio. wp_step. wp_step. rewrite Hrun. cbn [negb].
  destruct (Z.ltb_spec isix_get_min_priority p) as [Hlt|Hge]; [wp_step; by rewrite decide_True|].
  rewrite decide_False by lia. destruct Hp as [->|?]; [|lia].
  wp_step. apply wp_enter_critical; [done|]. wp_step. apply wp_task_or_current. wp_step.
  eapply wp_task_get; [exact Ho|]. cbv zeta. rewrite Z.eqb_refl. wp_step. apply wp_exit_critical; [simpl; lia|].
  wp_step. split_and!; [done|done|done|simpl; lia].
Qed.

Lemma change_prio_spec task p o s :
  sched_inv s -> mtx_inv s -> k_schrun s = true -> 0 <= k_critical_count s ->
  k_tasks s !! named s task = Some o -> 0 <= p <= isix_get_min_priority -> p <> t_real_prio o ->
  wp (isix_task_change_prio task p) (fun r s' => r = t_real_prio o /\ rebased (named s task) p o s s') s.
Proof.
  intros Hi Hm Hrun Hcc Ho Hp Hne. unfold isix_get_min_priority in Hp. unfold isix_task_change_prio, isix_get_min_priority.
  wp_step. wp_step. rewrite Hrun. cbn [negb]. rewrite (proj2 (Z.ltb_ge _ _)) by lia.
  wp_step. apply wp_enter_critical; [done|]. set (s0 := upd_critical_count _ _).
  destruct (same_clock_inv s s0) as [Hi0 Hrem0]; [done|done|].
  wp_step. apply wp_task_or_current. change (named s0 task) with (named s task). set (t := named s task) in *.
  wp_step. eapply wp_task_get; [exact Ho|]. cbv zeta. rewrite (proj2 (Z.eqb_neq (t_real_prio o) p)) by done.
  wp_step. eapply wp_task_upd; [exact Ho|]. set (o1 := set_t_real_prio p o). set (s1 := upd_tasks _ s0).
  destruct (set_real_prio_inv t o p s0 Hi0 Hm Ho) as (Hi1 & Hrem1 & Hm1); [lia|]. fold s1 in Hi1, Hrem1.
  assert (t_prio o =? t_real_prio o = bool_decide (t_prio o = t_real_prio o)) as -> by (by case_bool_decide; apply Z.eqb_eq || apply Z.eqb_neq).
  assert (_isixp_prio_gt p (t_prio o) = bool_decide (p < t_prio o)) as -> by
    (unfold _isixp_prio_gt; by case_bool_decide; [apply Z.ltb_lt|apply Z.ltb_ge; lia]).
  rewrite <- bool_decide_or.
  assert (k_tasks s1 !! t = Some o1) as Ho1 by apply lookup_insert_eq.
  wp_step. wp_step. case_bool_decide as Hd.
  - wp_step. eapply wp_mono; [apply (reallocate_priority_spec t o1 p s1); [apply Hi1|exact Ho1|lia]|]. intros [] s2 R.
    apply (reprioritised_inherited t p o1 s1 s2 Hi1 Ho1) in R.
    destruct R as [Hi2 Hf (o2 & Ets & Ep & Er & Ea & Est) Hl Hrem2].
    unfold _isix_port_yield. do 2 wp_step. apply wp_exit_critical.
    { simpl. rewrite <- (f_equal k_critical_count Hf : k_critical_count s + 1 = k_critical_count s2). lia. }
    wp_step. split; [done|].
    match goal with |- rebased _ _ _ _ ?x => destruct (same_clock_inv s2 x) as [Hi3 Hrem3]; [done|done|] end.
    split.
    + exact Hi3.
    + unfold mtx_inv. simpl.
      rewrite <- (f_equal k_mtxs Hf : k_mtxs s = k_mtxs s2), <- (f_equal k_ml Hf : k_ml s = k_ml s2).
      rewrite Ets. eapply (mtxs_ok_permuted _ (k_tasks s1)); [apply (Hm1 (k_q s))| |].
      * intros m. change (k_q s0) with (k_q s); by destruct (k_q s !! QMtx m); constructor.
      * intros x. rewrite lookup_insert. case_decide as E; [subst x; rewrite Ho1; by constructor|].
        by destruct (k_tasks s1 !! x); constructor.
      * intros m. specialize (Hl (QMtx m) eq_refl). change (k_q s1) with (k_q s) in Hl.
        inversion Hl as [? ? [Hp' _]|]; by constructor.
    + exact (eq_sym (f_equal ctl Hf)).
    + simpl. rewrite <- (f_equal k_critical_count Hf : k_critical_count s + 1 = k_critical_count s2). lia.
    + exists o2. rewrite decide_True by done. simpl. rewrite Ets. unfold s1. simpl. rewrite insert_insert_eq. done.
    + exact Hl.
    + intros x. by rewrite Hrem3, Hrem2, Hrem1, Hrem0.
    + done.
  - do 2 wp_step. apply wp_exit_critical; [simpl; lia|]. wp_step. split; [done|].
    match goal with |- rebased _ _ _ _ ?x => destruct (same_clock_inv s1 x) as [Hi3 Hrem3]; [done|done|] end.
    split; try done.
    + apply (Hm1 (k_q s)). intros m. change (k_q s0) with (k_q s); by destruct (k_q s !! QMtx m); constructor.
    + simpl. lia.
    + exists o1. by rewrite decide_False.
    + by apply reordered_waiting.
Qed.

(** Giving a task another priority changes its base priority, and the priority it runs
    with when it had not inherited one or the new one is higher; it keeps its place in the
    ready list or the wait list ordered, no other task changes, the invariants hold, the caller
    gets the former priority and a switch is requested. *)
Theorem task_change_prio_rebases task p o s :
  sched_inv s -> mtx_inv s -> k_schrun s = true -> 0 <= k_critical_count s ->
  k_tasks s !! named s task = Some o -> 0 <= p <= isix_get_min_priority -> p <> t_real_prio o ->
  wp (isix_task_change_prio task p) (fun r s' => r = t_real_prio o /\ rebased (named s task) p o s s') s.
Proof. apply change_prio_spec. Qed.

End TaskProofs.
