(* ===== verification/Join.v ===== *)
(** * Waiting for the end of a task

    [isix_task_wait_for], [isix_task_ref] of [task.c]: a task that holds a reference can wait until
    another one has ended; it is queued behind those that wait already. *)

From S2P Require Import Prelude.
From S2P Require Import DList.
From S2P Require Import Kernel.
From S2P Require Import Scheduler.
From S2P Require Import Events.
From S2P Require Import Task.
From S2P Require Import SchedInv.
From S2P Require Import SchedCore.
From S2P Require Import SchedTime.
From S2P Require Import SchedSleep.
From S2P Require Import TaskProofs.
From stdpp Require Import base numbers gmap list.
From Stdlib Require Import ZArith Lia.
Local Open Scope Z_scope.
Local Open Scope isix_scope.

Section Join.
Context {HS : Type} {AL : Allocator HS}.
Implicit Types (s : kstate HS) (o : task).

Definition has_ended o : Prop := t_state o = OSTHR_STATE_ZOMBIE \/ t_state o = OSTHR_STATE_EXITED.

(** What a caller that blocks on [task] has done. *)
Record joins (oc : task) (t : Z) (l : list Z) s s' : Prop := {
  jn_inv : sched_inv s';
  jn_list : k_q s' !! QExit t = Some (l ++ [k_currp s]);
  jn_waiting : same_waiting_but (QExit t) s s';
  jn_caller : exists o', k_tasks s' = <[k_currp s := o']> (k_tasks s) /\ t_state o' = OSTHR_STATE_WTEXIT /\
     t_prio o' = t_prio oc /\ t_real_prio o' = t_real_prio oc;
  jn_time : forall x, remaining s' x = remaining s x;
  jn_switch : k_pendsv s' = true;
  jn_count : k_critical_count s' = k_critical_count s;
  jn_ctl : same_ctl s s'
}.

(** The call returns at once without a reference, or when the task has ended. *)
Lemma task_wait_round_returns task o s :
  0 <= k_critical_count s -> k_tasks s !! task = Some o -> t_refcnt o = 0 \/ has_ended o ->
  wp (task_wait_round task) (fun r s' => r = Done (if t_refcnt o =? 0 then ISIX_ENOREF else ISIX_EOK) /\
    same_clock s s' /\ same_ctl s s' /\ k_critical_count s' = k_critical_count s) s.
Proof.
  intros Hcc Ho Hcase. unfold task_wait_round. wp_step. apply wp_enter_critical; [done|].
  wp_step. eapply wp_task_get; [exact Ho|]. destruct (Z.eqb_spec (t_refcnt o) 0) as [E|E].
  - wp_step. apply wp_exit_critical; [simpl; lia|]. wp_step. split_and!; done || (simpl; lia).
  - rewrite bool_decide_true by (destruct Hcase; done).
    wp_step. apply wp_exit_critical; [simpl; lia|]. wp_step. split_and!; done || (simpl; lia).
Qed.

Lemma task_wait_round_blocks task o oc l s :
  task_context oc s -> k_tasks s !! task = Some o -> t_refcnt o <> 0 -> ~ has_ended o ->
  k_q s !! QExit task = Some l ->
  wp (task_wait_round task) (fun r s' => r = Blocked /\ joins oc task l s s') s.
Proof.
  intros [(Hok & Hsem & Ht) Hrun Hcc Hoc Hac] Ho Href Hend Hl. unfold task_wait_round.
  wp_step. apply wp_enter_critical; [done|]. set (s0 := upd_critical_count _ _).
  wp_step. eapply wp_task_get; [exact Ho|]. rewrite (proj2 (Z.eqb_neq _ 0)) by done. rewrite bool_decide_false by done.
  wp_step. wp_step. change (k_currp s0) with (k_currp s). set (oc1 := set_t_wait_aborted false oc).
  wp_step. eapply wp_task_upd; [exact Hoc|]. fold oc1. set (s1 := upd_tasks _ s0).
  assert (Hok1 : ready_inv None s1).
  { eapply ready_ok_upd_same; [exact Hok|exact Hoc|done| |done]. intros h Hat. by destruct h. }
  wp_step. eapply wp_mono; [apply (set_sleep_spec OSTHR_STATE_WTEXIT oc1 s1 Hok1); [apply lookup_insert_eq|done]|].
  intros [] s2 [A Etl]. change (k_currp s1) with (k_currp s) in *.
  pose proof (sl_tasks _ _ _ _ _ A) as Ets. simpl in Ets. rewrite insert_insert_eq in Ets.
  pose proof (sl_frame _ _ _ _ _ A) as Hf. pose proof (sl_inv _ _ _ _ _ A) as Hok2.
  assert (Hl2 : k_q s2 !! QExit task = Some l) by (by rewrite (sl_waiting _ _ _ _ _ A)).
  destruct (seq_insert_with_ok (fun l => l ++ [k_currp s]) (k_currp s) (k_q s2) (QExit task) l
    (r_qwf _ _ _ _ _ Hok2) (r_detached _ _ _ _ _ Hok2 _ eq_refl) Hl2) as [Hins _];
    [symmetry; apply Permutation_cons_append|].
  wp_step. unfold q_insert_end. eapply wp_q_store; [exact Hins|]. set (s3 := upd_q _ s2).
  pose proof (f_equal k_critical_count Hf : k_critical_count s + 1 = k_critical_count s2) as Ecc.
  wp_step. apply wp_exit_critical; [simpl; lia|].
  apply wp_yield_blocked; [rewrite <- Hrun; symmetry; exact (f_equal k_schrun Hf)|].
  match goal with |- _ /\ joins _ _ _ _ ?x => set (s4 := x) end.
  assert (Hw : same_waiting_but (QExit task) s s4).
  { intros h Hh Hr. change (k_q s4) with (<[QExit task := l ++ [k_currp s]]> (k_q s2)). rewrite lookup_insert_ne by congruence. by rewrite (sl_waiting _ _ _ _ _ A). }
  assert (timed_state (t_state oc) = false) as Hun by (by destruct (t_state oc)).
  destruct (time_inv_frame s s4 Ht) as (Ht4 & _ & _ & Hrem4).
  { exact Etl. }
  { symmetry. exact (f_equal k_pwait Hf). }
  { symmetry. exact (f_equal k_jiffies Hf). }
  { intros x Hon. change (k_tasks s4) with (k_tasks s2). rewrite Ets, lookup_insert_ne; [done|]. intros <-. by apply (untimed _ _ _ Ht Hoc Hun) in Hon. }
  split; [done|]. split; [|apply lookup_insert_eq|exact Hw|by eexists|exact Hrem4|done|simpl; lia|exact (eq_sym (f_equal ctl Hf))].
  split; [|split; [|done]].
  - change (ready_ok None (k_tasks s2) (k_prios s2) (<[QExit task := l ++ [k_currp s]]> (k_q s2)) (k_pl s2)).
    eapply ready_ok_q_insert; [exact Hok2|exact Hl2|rewrite Ets; apply lookup_insert_eq|done|done|symmetry; apply Permutation_cons_append|done].
  - unfold sems_ok. change (k_sems s4) with (k_sems s2). rewrite (sl_sems _ _ _ _ _ A).
    eapply sem_counts_frame; [exact Hsem|]. intros a. by apply Hw.
Qed.

(** [isix_task_wait_for] on a task that runs blocks the caller: it leaves the ready list, joins
    the end of the list of those that wait for the task, with no time limit, and a switch is
    requested.  Without a reference or when the task has ended the call returns at once. *)
Theorem task_wait_for_blocks task o oc l s :
  task_context oc s -> task <> NULL -> task <> k_currp s -> k_tasks s !! task = Some o -> k_q s !! QExit task = Some l ->
  wp (isix_task_wait_for task) (fun r s' =>
    if decide (t_refcnt o = 0 \/ has_ended o)
    then r = Done (if t_refcnt o =? 0 then ISIX_ENOREF else ISIX_EOK) /\ same_clock s s' /\ same_ctl s s' /\
      k_critical_count s' = k_critical_count s
    else r = Blocked /\ joins oc task l s s') s.
Proof.
  intros Hc Hn Hne Ho Hl. unfold isix_task_wait_for. do 2 wp_step.
  rewrite (proj2 (Z.eqb_neq task (k_currp s))), (proj2 (Z.eqb_neq task NULL)) by done. case_decide as H.
  - apply (task_wait_round_returns task o s); [by apply Hc|done|done].
  - apply (task_wait_round_blocks task o oc l s); try done; tauto.
Qed.

(** Taking a reference and giving it back changes nothing. *)
Theorem task_ref_unref task o s :
  0 <= k_critical_count s -> k_tasks s !! named s task = Some o -> 0 <= t_refcnt o < OSREF_T_MAX ->
  t_state o <> OSTHR_STATE_EXITED ->
  wp (isix_task_ref task;;; isix_task_unref task) (fun r s' => r = ISIX_EOK /\ same_clock s s' /\ same_ctl s s' /\
    k_critical_count s' = k_critical_count s) s.
Proof.
  intros Hcc Ho Hr He. set (t := named s task) in *. wp_step. unfold isix_task_ref.
  wp_step. apply wp_task_or_current. fold t. wp_step. apply wp_enter_critical; [done|].
  wp_step. eapply wp_task_get; [exact Ho|]. rewrite (proj2 (Z.leb_gt _ _)) by lia.
  do 2 wp_step. eapply wp_task_upd; [exact Ho|]. set (o1 := set_t_refcnt _ o). do 2 wp_step.
  apply wp_exit_critical; [simpl; lia|]. wp_step. unfold isix_task_unref.
  wp_step. apply wp_task_or_current. change (named _ task) with t. wp_step. apply wp_enter_critical; [simpl; lia|].
  wp_step. eapply wp_task_get; [apply lookup_insert_eq|]. change (t_refcnt o1) with (t_refcnt o + 1).
  rewrite (proj2 (Z.ltb_ge _ _)) by lia. wp_step. eapply wp_task_upd; [apply lookup_insert_eq|].
  rewrite bool_decide_false, andb_false_r by done. cbv zeta. wp_step. apply wp_exit_critical; [simpl; lia|]. do 3 wp_step.
  assert (set_t_refcnt (t_refcnt o + 1 - 1) o1 = o) as -> by (unfold o1; rewrite Z.add_simpl_r; by destruct o).
  wp_step. unfold same_clock. simpl. rewrite insert_insert_eq, (insert_id _ _ _ Ho). split_and!; done || lia.
Qed.

End Join.
