(* ===== verification/KillProofs.v ===== *)
(** * Killing a task

    [isix_task_kill] of [task.c] with [wake_exit_waiters], and the part of
    [_isixp_add_kill_or_set_suspend] of [scheduler.c] that puts the task on the list of dead
    tasks. *)

From S2P Require Import Prelude.
From S2P Require Import DList.
From S2P Require Import Kernel.
From S2P Require Import Scheduler.
From S2P Require Import Mutex.
From S2P Require Import Task.
From S2P Require Import SchedInv.
From S2P Require Import SchedCore.
From S2P Require Import SchedTime.
From S2P Require Import SchedSleep.
From S2P Require Import SchedWake.
From S2P Require Import WakeAll.
From S2P Require Import MutexProofs.
From S2P Require Import MutexOwner.
From S2P Require Import SuspendProofs.
From S2P Require Import UnlockAll.
From S2P Require Import TaskProofs.
From stdpp Require Import base numbers gmap list sorting.
From Stdlib Require Import ZArith Lia.
Local Open Scope Z_scope.

Section KillProofs.
Context {HS : Type} {AL : Allocator HS}.
Implicit Types s : kstate HS.

(** ** wake_exit_waiters *)

(** A wake-up by an object other than a mutex does not touch the mutexes. *)
Lemma woken_from_mtx h msg ws l' s s' :
  match h with QMtx _ => False | _ => True end -> mtx_inv s -> woken_from h msg ws l' s s' -> mtx_inv s'.
Proof.
  intros Hh Hm W. destruct (ew_frame _ _ _ _ _ _ W) as (Hctl & _).
  pose proof (same_ctl_elim _ _ Hctl) as (_ & _ & _ & Em & El & _). unfold mtx_inv. rewrite Em, El.
  eapply mtxs_ok_permuted; [exact Hm| |].
  - intros x. destruct (decide (x ∈ ws)) as [Hx|Hx].
    + destruct (ew_woken _ _ _ _ _ _ W x Hx) as (o0 & o & -> & -> & _ & _ & Hr & _). by constructor.
    + destruct (ew_other _ _ _ _ _ _ W x Hx) as [-> _]. by destruct (k_tasks s !! x); constructor.
  - intros m. rewrite (ew_waiting _ _ _ _ _ _ W) by (by destruct h || done). by destruct (k_q s !! QMtx m); constructor.
Qed.

Lemma exit_waiters_loop_spec t msg : forall l w s,
  sched_inv s -> k_q s !! QExit t = Some l -> (w = NULL \/ is_Some (k_tasks s !! w)) ->
  wp (exit_waiters_loop l msg w) (fun r s' => woken_from (QExit t) msg l [] s s' /\
    (r = w \/ r ∈ l) /\ (r = NULL -> w = NULL /\ l = []) /\
    (forall x, (x = w /\ w <> NULL) \/ x ∈ l -> prio_of (k_tasks s) r <= prio_of (k_tasks s) x)) s.
Proof.
  induction l as [|x l IH]; intros w s Hi Hl Hw; cbn [exit_waiters_loop].
  { wp_step. split_and!; [by apply woken_from_nil|by left|done|]. by intros x [[-> _]|?%not_elem_of_nil]. }
  assert (NoDup (x :: l)) as [Hxl _]%NoDup_cons by (by eapply (r_qwf _ _ _ _ _ (proj1 Hi))).
  eapply (wake_waiter _ _ (QExit t) _ x); [done|exact Hl|left|done|]. intros o s1 Ho _ Hnull R.
  rewrite remove_node_head in R by (constructor; [done|]; by eapply NoDup_cons_1_2, (r_qwf _ _ _ _ _ (proj1 Hi))).
  destruct (rl_task _ _ _ _ _ _ _ R) as [e Ets].
  assert (forall y, prio_of (k_tasks s1) y = prio_of (k_tasks s) y) as Hp by (intros y; by eapply released_prio).
  assert (k_tasks s1 !! x = Some (set_t_prio_elem e (set_t_state OSTHR_STATE_READY (set_dmsg msg o)))) as Hx
    by (by rewrite Ets, lookup_insert_eq).
  assert (w = NULL \/ is_Some (k_tasks s1 !! w)) as Hw1.
  { destruct Hw as [->|[ow How]]; [by left|right]. rewrite Ets, lookup_insert. case_decide; by eexists. }
  assert (forall w', w' = x \/ (w' = w /\ w <> NULL) -> prio_of (k_tasks s) w' <= prio_of (k_tasks s) x ->
     (w <> NULL -> prio_of (k_tasks s) w' <= prio_of (k_tasks s) w) ->
     wp (exit_waiters_loop l msg w') (fun r s' => woken_from (QExit t) msg (x :: l) [] s s' /\
       (r = w \/ r ∈ x :: l) /\ (r = NULL -> w = NULL /\ x :: l = []) /\
       (forall y, (y = w /\ w <> NULL) \/ y ∈ x :: l -> prio_of (k_tasks s) r <= prio_of (k_tasks s) y)) s1) as Hrest.
  { intros w' Hw' Hle1 Hle2. assert (w' <> NULL) as Hn by (by destruct Hw' as [->|[-> ?]]).
    eapply wp_mono; [apply (IH w' s1 (rl_inv _ _ _ _ _ _ _ R) (rl_list _ _ _ _ _ _ _ R))|].
    - destruct Hw' as [->|[-> _]]; [right; by eexists|done].
    - intros r s' (W & Hr & Hrn & Hmin). setoid_rewrite Hp in Hmin. split_and!.
      + by eapply woken_from_cons.
      + destruct Hr as [->|Hr]; [|right; by right]. destruct Hw' as [->|[-> _]]; [right; left|by left].
      + intros ->. by destruct (Hrn eq_refl) as [-> _].
      + pose proof (Hmin w' (or_introl (conj eq_refl Hn))). intros y. rewrite elem_of_cons.
        intros [[-> Hy]|[->|Hy]]; [specialize (Hle2 Hy); lia|lia|by apply Hmin; right]. }
  wp_step. destruct (Z.eqb_spec w NULL) as [->|Hwn].
  - wp_step. apply Hrest; [by left|done|done].
  - destruct Hw1 as [->|[ow How]]; [done|].
    assert (prio_of (k_tasks s) w = t_prio ow) as E1 by (rewrite <- Hp; unfold prio_of; by rewrite How).
    assert (prio_of (k_tasks s) x = t_prio o) as E2 by (unfold prio_of; by rewrite Ho).
    wp_step. eapply wp_task_get; [exact Hx|]. wp_step. eapply wp_task_get; [exact How|]. wp_step.
    unfold _isixp_prio_gt. simpl. destruct (Z.ltb_spec (t_prio o) (t_prio ow)); apply Hrest; try lia; tauto.
Qed.

(** ** The list of dead tasks *)

(** Task [t], whose control block was [o], has been stopped for good. *)
Record buried (t : Z) (o : task) (zs : list Z) s s' : Prop := {
  br_inv : sched_inv s';
  br_mtx : mtx_inv s';
  br_ctl : same_ctl s (upd_ndeleted (fun _ => k_ndeleted s) s');
  br_dead : k_ndeleted s' = u32 (k_ndeleted s + 1);
  br_count : k_critical_count s' = k_critical_count s;
  br_task : exists b, k_tasks s' !! t = Some (set_t_state OSTHR_STATE_ZOMBIE (set_t_wait_aborted b o));
  br_zombies : exists zs', zs' ≡ₚ zs /\ k_q s' !! QZombie = Some (zs' ++ [t]);
  br_lists : forall h, h <> QZombie -> is_ready_head h = false ->
    option_Forall2 (fun l l' => l' ≡ₚ remove_node t l) (k_q s !! h) (k_q s' !! h);
  br_values : k_sems s' = sems_without o (k_sems s);
  br_rest : forall x, remaining s' x = if decide (x = t) then None else remaining s x;
  br_others : forall x, x <> t -> x <> blocking_owner s o -> k_tasks s' !! x = k_tasks s !! x;
  br_owner : let w := blocking_owner s o in w <> NULL -> w <> t /\
    exists ow ow' ms, k_tasks s !! w = Some ow /\ k_tasks s' !! w = Some ow' /\ k_ml s !! w = Some ms /\
      t_real_prio ow' = t_real_prio ow /\ active (t_state ow') = active (t_state ow) /\
      tame (t_state ow) (t_state ow') = true /\
      highest_inherited s' ms (t_real_prio ow) (t_prio ow')
}.

(** A task on no list goes to the dead ones. *)
Lemma bury_inv t ob zs s2 :
  let s3 := upd_tasks (insert t (set_t_state OSTHR_STATE_SUSPEND ob)) s2 in
  let s4 := upd_q (insert QZombie (zs ++ [t])) (upd_tasks (insert t (set_t_state OSTHR_STATE_ZOMBIE ob)) s2) in
  sched_inv s3 -> mtx_inv s3 -> unlinked t (k_q s2) -> k_q s2 !! QZombie = Some zs ->
  sched_inv s4 /\ mtx_inv s4 /\ (forall x, remaining s4 x = remaining s3 x) /\ t ∉ zs.
Proof.
  intros s3 s4 (Hok & Hsem & Ht) Hm Hu Hz.
  assert (k_tasks s3 !! t = Some (set_t_state OSTHR_STATE_SUSPEND ob)) as Ho3 by apply lookup_insert_eq.
  assert (t <> NULL) as Hnull by (intros ->; by rewrite (r_null _ _ _ _ _ Hok) in Ho3).
  assert (k_tasks s4 = <[t := set_t_state OSTHR_STATE_ZOMBIE ob]> (k_tasks s3)) as Ets by (simpl; by rewrite insert_insert_eq).
  assert (t ∉ zs) as Hnz by (intros Hin; by apply (Hu QZombie zs Hz)).
  destruct (time_inv_same s3 s4 Ht) as (Ht4 & _ & _ & Hrem4); [done|done|done| |].
  { intros x Hx ox Hox. rewrite Ets, lookup_insert. case_decide as E; [subst x|by exists ox].
    exfalso. by eapply untimed; [exact Ht|exact Ho3|..]. }
  split_and!; [| |exact Hrem4|done].
  - split; [|split; [|exact Ht4]].
    + unfold ready_inv. rewrite Ets. eapply (ready_ok_q_insert _ _ _ _ QZombie zs); [|exact Hz|apply lookup_insert_eq|done|done| |done].
      * apply ready_ok_upd_detached; [|done|exact (r_range _ _ _ _ _ Hok _ _ Ho3)].
        eapply ready_ok_detach; [exact Hok|exact Ho3|done].
      * by rewrite Permutation_app_comm.
    + eapply sem_counts_frame; [exact Hsem|]. intros a. simpl. by rewrite lookup_insert_ne.
  - eapply mtxs_ok_permuted; [exact Hm| |].
    + intros x. rewrite Ets, lookup_insert. case_decide as E; [subst x; rewrite Ho3; by constructor|].
      by destruct (k_tasks s3 !! x); constructor.
    + intros m. simpl. rewrite lookup_insert_ne by done. by destruct (k_q s2 !! QMtx m); constructor.
Qed.

Lemma isixp_kill_spec t o zs s :
  sched_inv s -> mtx_inv s -> k_tasks s !! t = Some o -> t_state o <> OSTHR_STATE_ZOMBIE ->
  k_q s !! QZombie = Some zs ->
  wp (_isixp_add_kill_or_set_suspend t false) (fun _ s' => buried t o zs s s') s.
Proof.
  intros Hi Hm Ho Hz Hzs. unfold _isixp_add_kill_or_set_suspend. apply (leave_lists_spec _ _ t o); try done.
  intros s2 ob Hb Hnd S Hu. set (s3 := upd_tasks _ s2) in *.
  assert (t ∉ zs) as Hnz.
  { intros Hin. destruct (r_at _ _ _ _ _ (proj1 Hi) _ _ _ Hzs Hin) as (o' & Ho' & Hst). simpl in Hst. congruence. }
  pose proof (sp_lists _ _ _ _ _ _ S QZombie eq_refl) as Hp. rewrite Hzs in Hp. inversion Hp as [? zs' Hpm Ez Ezs|]; subst.
  rewrite remove_node_notin in Hpm by done. change (k_q s3 !! QZombie) with (k_q s2 !! QZombie) in Ezs. symmetry in Ezs.
  destruct (bury_inv t ob zs' s2 (sp_inv _ _ _ _ _ _ S) (sp_mtx _ _ _ _ _ _ S) Hu Ezs) as (Hi4 & Hm4 & Hrem4 & Hnz').
  set (s4 := upd_q _ _) in *. cbv iota. wp_step. eapply wp_task_upd; [exact Hb|].
  destruct (seq_insert_with_ok (fun l => l ++ [t]) t (k_q s2) QZombie zs') as [Hins _]; [|exact Hu|exact Ezs| |].
  { pose proof (sp_inv _ _ _ _ _ _ S) as (Hok3 & _). exact (r_qwf _ _ _ _ _ Hok3). }
  { by rewrite Permutation_app_comm. }
  wp_step. unfold q_insert_end. eapply wp_q_store; [exact Hins|]. wp_step.
  match goal with |- buried _ _ _ _ ?x => set (s5 := x) end.
  destruct (same_clock_inv s4 s5) as [Hi5 Hrem5]; [done|done|].
  pose proof (sp_task _ _ _ _ _ _ S) as Hb3. change (k_tasks s3 !! t) with (<[t := set_t_state OSTHR_STATE_SUSPEND ob]> (k_tasks s2) !! t) in Hb3.
  rewrite lookup_insert_eq in Hb3.
  pose proof (same_ctl_elim _ _ (sp_ctl _ _ _ _ _ _ S)) as (E1 & E2 & E3 & E4 & E5 & E6).
  assert (forall x, x <> t -> k_tasks s5 !! x = k_tasks s3 !! x) as Hot by (intros x Hx; simpl; by rewrite !lookup_insert_ne).
  split.
  - exact Hi5.
  - exact Hm4.
  - rewrite <- Hnd. exact (sp_ctl _ _ _ _ _ _ S).
  - simpl. by rewrite Hnd.
  - exact (sp_count _ _ _ _ _ _ S).
  - eexists. simpl. rewrite lookup_insert_eq.
    assert (set_t_state OSTHR_STATE_ZOMBIE ob = set_t_state OSTHR_STATE_ZOMBIE (set_t_state OSTHR_STATE_SUSPEND ob)) as -> by done.
    assert (set_t_state OSTHR_STATE_SUSPEND ob = set_t_state OSTHR_STATE_SUSPEND (set_t_wait_aborted (if restarts (t_state o) then false else t_wait_aborted o) o)) as -> by congruence. done.
  - exists zs'. split; [done|]. apply lookup_insert_eq.
  - intros h Hne Hr. simpl. rewrite lookup_insert_ne by done. exact (sp_lists _ _ _ _ _ _ S h Hr).
  - exact (sp_values _ _ _ _ _ _ S).
  - intros x. rewrite Hrem5, Hrem4. exact (sp_rest _ _ _ _ _ _ S x).
  - intros x Hx Hw. rewrite Hot by done. exact (sp_others _ _ _ _ _ _ S x Hx Hw).
  - intros w Hw. destruct (sp_owner _ _ _ _ _ _ S Hw) as (Hwt & ow & ow' & ms & H1 & H2 & H3 & H4 & H5 & H6 & H7).
    split; [done|]. exists ow, ow', ms. rewrite Hot by done. split_and!; try done.
    eapply highest_inherited_frame; [| |exact H7].
    + intros m _. simpl. rewrite lookup_insert_ne by done. by destruct (k_q s2 !! QMtx m); constructor.
    + intros m l x _ _ _. destruct (decide (x = t)) as [->|Hx]; [|unfold prio_of; by rewrite Hot].
      unfold prio_of. simpl. by rewrite !lookup_insert_eq.
Qed.

(** ** isix_task_kill *)

(** What the end of another task may do to a task: wake it or change its priority. *)
Definition survives (o o' : task) : Prop :=
  t_real_prio o' = t_real_prio o /\ tame (t_state o) (t_state o') = true /\
  (active (t_state o) = true -> active (t_state o') = true).

(** Task [u], with the control block [o] and the mutexes [ms], is dead; [ws] waited for its
    end, [zs] were dead before. *)
Record killed (u : Z) (o : task) (ms ws zs : list Z) s s' : Prop := {
  kl_inv : sched_inv s';
  kl_mtx : mtx_inv s';
  kl_run : same_run s (upd_ndeleted (fun _ => k_ndeleted s) s');
  kl_count : k_critical_count s' = k_critical_count s;
  kl_dead : k_ndeleted s' = u32 (k_ndeleted s + 1);
  kl_task : exists o', k_tasks s' !! u = Some o' /\ t_state o' = OSTHR_STATE_ZOMBIE /\ t_real_prio o' = t_real_prio o;
  kl_zombies : exists zs', zs' ≡ₚ zs /\ k_q s' !! QZombie = Some (zs' ++ [u]);
  kl_owned : k_ml s' !! u = Some [];
  kl_exit : k_q s' !! QExit u = Some [];
  kl_mtxs : forall m om l, m ∈ ms -> k_mtxs s !! m = Some om -> k_q s !! QMtx m = Some l ->
    k_mtxs s' !! m = Some (left_mutex om l);
  kl_mtx_lists : forall m l, m ∈ ms -> k_q s !! QMtx m = Some l ->
    exists l', k_q s' !! QMtx m = Some l' /\ l' ≡ₚ remove_node u (tail l);
  kl_tasks : forall t, t <> u -> option_Forall2 survives (k_tasks s !! t) (k_tasks s' !! t);
  kl_woken : forall t, t <> u -> t ∈ heirs (k_q s) ms \/ t ∈ ws -> exists o', k_tasks s' !! t = Some o' /\
    active (t_state o') = true /\ remaining s' t = None /\ (t <> blocking_owner s o -> t_state o' = OSTHR_STATE_READY /\
      t_obj o' = u32 (if decide (t ∈ ws) then (if u =? k_currp s then ISIX_EOK else ISIX_EDESTROY) else ISIX_EOK));
  kl_others : forall t, t ∉ heirs (k_q s) ms -> t ∉ ws -> t <> u -> t <> blocking_owner s o ->
    k_tasks s' !! t = k_tasks s !! t /\ remaining s' t = remaining s t;
  kl_other_mtxs : forall m, m ∉ ms -> k_mtxs s' !! m = k_mtxs s !! m;
  kl_owner : let w := blocking_owner s o in w <> NULL -> w <> u /\ exists ow ms', k_tasks s' !! w = Some ow /\
    k_ml s' !! w = Some ms' /\ highest_inherited s' ms' (t_real_prio ow) (t_prio ow);
  kl_values : k_sems s' = sems_without o (k_sems s);
  kl_waiting : forall h, is_ready_head h = false -> h <> QZombie -> h <> QExit u -> (forall m, m ∈ ms -> h <> QMtx m) ->
    option_Forall2 (fun l l' => l' ≡ₚ remove_node u l) (k_q s !! h) (k_q s' !! h);
  kl_lists : forall h, is_ready_head h = false -> is_Some (k_q s !! h) -> is_Some (k_q s' !! h)
}.

(** The control block of the task when it is stopped. *)
Lemma before_burial u o ms ws s s1 s2 msg :
  sched_inv s -> mtx_inv s -> k_tasks s !! u = Some o -> k_ml s !! u = Some ms -> k_q s !! QExit u = Some ws ->
  t_state o <> OSTHR_STATE_ZOMBIE -> (u = k_currp s -> active (t_state o) = true) ->
  unlocked_all u ms o s s1 -> woken_from (QExit u) msg ws [] s1 s2 ->
  exists o2, k_tasks s2 !! u = Some o2 /\ t_state o2 <> OSTHR_STATE_ZOMBIE /\ t_real_prio o2 = t_real_prio o /\
    blocking_owner s2 o2 = blocking_owner s o /\ forall sems, sems_without o2 sems = sems_without o sems.
Proof.
  intros Hi Hm Ho Hml Hws Hz Hact A W. pose proof Hi as (Hok & _).
  destruct (ua_self _ _ _ _ _ A) as (o1 & Ho1 & Hr1 & Hc1).
  destruct (decide (u ∈ ws)) as [Hin|Hin].
  - destruct (ew_woken _ _ _ _ _ _ W u Hin) as (o1' & o2 & Ho1' & Ho2 & Hst & _ & Hr2 & _).
    assert (o1' = o1) as -> by congruence. exists o2. split_and!; [done|by rewrite Hst|congruence|..];
    destruct (r_at _ _ _ _ _ Hok _ _ u Hws Hin) as (o' & Ho' & Hat); simpl in Hat; assert (o' = o) as -> by congruence.
    + unfold blocking_owner. by rewrite Hst, Hat.
    + intros sems. rewrite !sems_without_other; [done|by rewrite Hat|by rewrite Hst].
  - destruct (ew_other _ _ _ _ _ _ W u Hin) as [E _]. exists o1. rewrite E. split; [done|].
    case_decide as Hc.
    + destruct Hc1 as (_ & Ha & _). specialize (Hact Hc). split_and!; [by intros Hs; rewrite Hs in Ha|done|..].
      * unfold blocking_owner. by destruct (t_state o1), (t_state o).
      * intros sems. rewrite !sems_without_other; [done|by destruct (t_state o)|by destruct (t_state o1)].
    + subst o1. split_and!; [done|done| |done]. destruct (ew_frame _ _ _ _ _ _ W) as (Hctl & _).
      pose proof (same_ctl_elim _ _ Hctl) as (_ & _ & _ & Em & _). unfold blocking_owner. rewrite Em.
      destruct (t_state o) eqn:Est; try done.
      destruct (decide (t_obj o ∈ ms)) as [Hms|Hms]; [exfalso|by rewrite (ua_other_mtxs _ _ _ _ _ A)].
      destruct (mo_owned _ _ _ _ _ Hm u ms _ Hml Hms) as (om & Hom & Hown).
      destruct (mo_held _ _ _ _ _ _ Hm Hom) as (l & k & Hl & _ & Hnl & _).
      { rewrite Hown. intros ->. by rewrite (r_null _ _ _ _ _ Hok) in Ho. }
      destruct (queued_at _ _ _ _ _ u o Hok Ho) as (h & l' & Hl' & Hin' & Hat); [done|by rewrite Est|].
      assert (h = QMtx (t_obj o)) as -> by (destruct h; simpl in Hat; rewrite Est in Hat; destruct_and?; done || congruence).
      assert (l' = l) as -> by congruence. rewrite Hown in Hnl. done.
Qed.

(** A task of one list is on no other. *)
Lemma heir_not_waiter u ms ws t s :
  ready_inv None s -> k_q s !! QExit u = Some ws -> t ∈ ws -> t ∉ heirs (k_q s) ms.
Proof.
  intros Hok Hws Hin (m & l & _ & Hl)%elem_of_heirs.
  destruct (r_at _ _ _ _ _ Hok _ _ t Hws Hin) as (o & Ho & Hat).
  destruct (r_at _ _ _ _ _ Hok _ _ t Hl) as (o' & Ho' & Hat' & _); [by left|]. simpl in Hat. congruence.
Qed.

(** What happens to a task that survives. *)
Lemma killed_tasks u o ms ws msg o2 zs s s1 s2 s3 t :
  sched_inv s -> mtx_inv s -> k_ml s !! u = Some ms -> k_q s !! QExit u = Some ws -> t <> u ->
  unlocked_all u ms o s s1 -> woken_from (QExit u) msg ws [] s1 s2 -> buried u o2 zs s2 s3 ->
  blocking_owner s2 o2 = blocking_owner s o ->
  exists r, option_Forall2 survives (k_tasks s !! t) (k_tasks s3 !! t) /\ remaining s3 t = r /\
  (t ∈ heirs (k_q s) ms \/ t ∈ ws -> r = None /\ exists o', k_tasks s3 !! t = Some o' /\ active (t_state o') = true /\
    (t <> blocking_owner s o -> t_state o' = OSTHR_STATE_READY /\
       t_obj o' = u32 (if decide (t ∈ ws) then msg else ISIX_EOK))) /\
  (t ∉ heirs (k_q s) ms -> t ∉ ws -> r = remaining s t /\ (t <> blocking_owner s o -> k_tasks s3 !! t = k_tasks s !! t)).
Proof.
  intros Hi Hm Hml Hws Htu A W B Ebo. pose proof Hi as (Hok & _ & Ht).
  assert (option_Forall2 (fun a b => t_real_prio b = t_real_prio a /\ active (t_state b) = active (t_state a) /\
    tame (t_state a) (t_state b) = true /\
    (t <> blocking_owner s o -> b = a)) (k_tasks s2 !! t) (k_tasks s3 !! t)) as Hstep.
  { destruct (decide (t = blocking_owner s2 o2)) as [Et|Hne].
    - destruct (decide (t = NULL)) as [->|Hn].
      { rewrite (r_null _ _ _ _ _ (proj1 (br_inv _ _ _ _ _ B))).
        rewrite (r_null _ _ _ _ _ (proj1 (ew_inv _ _ _ _ _ _ W))). constructor. }
      destruct (br_owner _ _ _ _ _ B) as (_ & ow & ow' & k & Ho2 & Ho3 & _ & Er & Ea & Es & _); [by rewrite <- Et|].
      rewrite <- Et in Ho2, Ho3. rewrite Ho2, Ho3. constructor. split_and!; try done. congruence.
    - rewrite (br_others _ _ _ _ _ B) by done. by destruct (k_tasks s2 !! t); constructor. }
  exists (remaining s3 t). rewrite (br_rest _ _ _ _ _ B), decide_False by done.
  destruct (decide (t ∈ ws)) as [Hw|Hw]; [|destruct (decide (t ∈ heirs (k_q s) ms)) as [Hh|Hh]].
  - destruct (ew_woken _ _ _ _ _ _ W t Hw) as (o1 & o2' & Ho1 & Ho2 & Hst & Hob & Hrp & _ & Hrem).
    rewrite Ho2 in Hstep. inversion Hstep as [? o3 (Er & Ea & Es & Eo) E1 E3|]; subst.
    pose proof (heir_not_waiter u ms ws t s Hok Hws Hw) as Hnh.
    rewrite (ua_others _ _ _ _ _ A) in Ho1 by done. rewrite Ho1.
    split_and!; [constructor; unfold survives; split_and!; [congruence|eapply tame_trans; [|exact Es]; by rewrite Hst|by rewrite Ea, Hst]|done| |done].
    intros _. split; [done|]. exists o3. split_and!; [done|by rewrite Ea, Hst|intros Hne; by rewrite (Eo Hne)].
  - destruct (ua_heirs _ _ _ _ _ A t Hh) as (_ & o0 & e & Ho0 & Ho1). destruct (ew_other _ _ _ _ _ _ W t Hw) as [E2 Erem].
    rewrite E2, Ho1 in Hstep. inversion Hstep as [? o3 (Er & Ea & Es & Eo) E1 E3|]; subst. rewrite Ho0.
    split_and!; [constructor; unfold survives; split_and!; [done|by eapply tame_trans; [|exact Es]|by rewrite Ea]|done| |done].
    intros _. split.
    + rewrite Erem, (ua_rest _ _ _ _ _ A). apply remaining_None.
      destruct (proj1 (elem_of_heirs _ _ _) Hh) as (m & l & _ & Hl).
      destruct (r_at _ _ _ _ _ Hok _ _ t Hl) as (o' & Ho' & Hst & _); [by left|]. eapply untimed; [exact Ht|exact Ho'|by rewrite Hst].
    + exists o3. split_and!; [done|by rewrite Ea|intros Hne; by rewrite (Eo Hne)].
  - destruct (ew_other _ _ _ _ _ _ W t Hw) as [E2 Erem]. rewrite E2, (ua_others _ _ _ _ _ A) in Hstep by done.
    rewrite Erem, (ua_rest _ _ _ _ _ A). split_and!; [|done|tauto|].
    + destruct Hstep as [a b (? & Ea & ? & _)|]; constructor. unfold survives. split_and!; [done|done|by rewrite Ea].
    + intros _ _. split; [done|]. intros Hne. destruct Hstep as [a b (_ & _ & _ & E)|]; [by rewrite (E Hne)|done].
Qed.

Lemma killed_compose u o ms ws o2 zs s s1 s2 s3 :
  sched_inv s -> mtx_inv s -> k_tasks s !! u = Some o -> k_ml s !! u = Some ms -> k_q s !! QExit u = Some ws ->
  unlocked_all u ms o s s1 -> woken_from (QExit u) (if u =? k_currp s then ISIX_EOK else ISIX_EDESTROY) ws [] s1 s2 ->
  buried u o2 zs s2 s3 -> t_real_prio o2 = t_real_prio o -> blocking_owner s2 o2 = blocking_owner s o ->
  (forall sems, sems_without o2 sems = sems_without o sems) -> k_q s !! QZombie = Some zs -> killed u o ms ws zs s s3.
Proof.
  intros Hi Hm Ho Hml Hws A W B Er2 Ebo Esw Hzs. destruct (ew_frame _ _ _ _ _ _ W) as (Hctl & Ecc2 & Esem2).
  pose proof (br_ctl _ _ _ _ _ B) as Hctl3. pose proof (same_ctl_elim _ _ Hctl) as (E1 & E2 & E3 & E4 & E5 & E6).
  pose proof (same_ctl_elim _ _ Hctl3) as (F1 & F2 & F3 & F4 & F5 & F6). simpl in F1, F2, F3, F4, F5, F6.
  pose proof (same_run_elim _ _ (ua_run _ _ _ _ _ A)) as (G1 & G2 & G3 & G4).
  pose proof (same_run_dead _ _ (ua_run _ _ _ _ _ A)) as Gd. pose proof (same_ctl_dead _ _ Hctl) as Ed.
  split.
  - by apply (br_inv _ _ _ _ _ B).
  - by apply (br_mtx _ _ _ _ _ B).
  - pose proof (same_run_debt _ _ (ua_run _ _ _ _ _ A)) as [= ? ? ? ?]. pose proof (same_ctl_debt _ _ Hctl) as [= ? ? ? ?].
    pose proof (same_ctl_debt _ _ Hctl3) as [= ? ? ?].
    unfold same_run, run_ctl. f_equal; [unfold run_core, debt; simpl; congruence|].
    transitivity (bystanders s2); [exact (same_ctl_bystanders _ _ Hctl3)|].
    transitivity (bystanders s1); [exact (same_ctl_bystanders _ _ Hctl)|exact (same_run_bystanders _ _ (ua_run _ _ _ _ _ A))].
  - by rewrite (br_count _ _ _ _ _ B), Ecc2, (ua_count _ _ _ _ _ A).
  - by rewrite (br_dead _ _ _ _ _ B), Ed, Gd.
  - destruct (br_task _ _ _ _ _ B) as (b & Hb). eexists. split; [exact Hb|]. done.
  - exact (br_zombies _ _ _ _ _ B).
  - rewrite F5, E5. exact (ua_owned _ _ _ _ _ A).
  - pose proof (br_lists _ _ _ _ _ B (QExit u) ltac:(done) eq_refl) as Hl. rewrite (ew_list _ _ _ _ _ _ W) in Hl.
    inversion Hl as [? l' Hp|]; subst. by apply Permutation_nil_r in Hp as ->.
  - intros m om l Hin Hom Hl. rewrite F4, E4. by apply (ua_mtxs _ _ _ _ _ A).
  - intros m l Hin Hl. destruct (mo_owned _ _ _ _ _ Hm u ms m Hml Hin) as (om & Hom & _).
    destruct (ua_mtxs _ _ _ _ _ A m om l Hin Hom Hl) as [_ Hl1].
    pose proof (br_lists _ _ _ _ _ B (QMtx m) ltac:(done) eq_refl) as Hl3.
    rewrite (ew_waiting _ _ _ _ _ _ W), Hl1 in Hl3 by done. inversion Hl3 as [? l' Hp|]; subst. by exists l'.
  - intros t Ht. by destruct (killed_tasks u o ms ws _ o2 zs s s1 s2 s3 t Hi Hm Hml Hws Ht A W B Ebo) as (r & ? & _).
  - intros t Ht Hin. destruct (killed_tasks u o ms ws _ o2 zs s s1 s2 s3 t Hi Hm Hml Hws Ht A W B Ebo) as (r & _ & Hr & Hwk & _).
    destruct (Hwk Hin) as (Hn & o' & H1 & H2 & H3). exists o'. rewrite Hr. by split_and!.
  - intros t Hh Hw Ht Hne. destruct (killed_tasks u o ms ws _ o2 zs s s1 s2 s3 t Hi Hm Hml Hws Ht A W B Ebo) as (r & _ & Hr & _ & Hot).
    destruct (Hot Hh Hw) as [Hrr Hts]. rewrite Hr. auto.
  - intros m Hmm. rewrite F4, E4. by apply (ua_other_mtxs _ _ _ _ _ A).
  - intros w Hw. unfold w in *. rewrite <- Ebo in Hw |- *. destruct (br_owner _ _ _ _ _ B Hw) as (Hwu & ow & ow' & k & _ & How & Hk & Er & _ & _ & Hh).
    split; [done|]. exists ow', k. rewrite F5, Er. by split_and!.
  - rewrite (br_values _ _ _ _ _ B), Esw, Esem2. by rewrite (ua_sems _ _ _ _ _ A).
  - intros h Hr Hz Hu Hms. rewrite <- (ua_lists _ _ _ _ _ A h) by done. rewrite <- (ew_waiting _ _ _ _ _ _ W) by done.
    by apply (br_lists _ _ _ _ _ B).
  - intros h Hh Hs. destruct (decide (h = QZombie)) as [->|Hz].
    { destruct (br_zombies _ _ _ _ _ B) as (zs' & _ & ->). by eexists. }
    assert (is_Some (k_q s1 !! h)) as Hs1.
    { destruct h as [| |m| | | |]; try done; try (rewrite (ua_lists _ _ _ _ _ A); [done|done|done]).
      destruct (decide (m ∈ ms)) as [Hm'|Hm'].
      - destruct (mo_owned _ _ _ _ _ Hm u ms m Hml Hm') as (om & Hom & _). destruct Hs as [l Hl].
        destruct (ua_mtxs _ _ _ _ _ A m om l Hm' Hom Hl) as [_ ->]. by eexists.
      - rewrite (ua_lists _ _ _ _ _ A); [done|done|]. intros m' Hin [= ->]. done. }
    assert (is_Some (k_q s2 !! h)) as Hs2.
    { destruct (decide (h = QExit u)) as [->|Hne]; [rewrite (ew_list _ _ _ _ _ _ W); by eexists|].
      by rewrite (ew_waiting _ _ _ _ _ _ W). }
    destruct (br_lists _ _ _ _ _ B h Hz Hh); [by eexists|]. by destruct Hs2.
Qed.

(** Masks and pending switches do not matter. *)
Lemma killed_clock u o ms ws zs s0 s s1 s' :
  same_clock s0 s -> k_currp s = k_currp s0 -> k_ndeleted s = k_ndeleted s0 -> k_mtxs s = k_mtxs s0 ->
  same_run s0 s -> killed u o ms ws zs s s1 -> same_clock s1 s' -> same_ctl s1 s' ->
  k_critical_count s' = k_critical_count s0 -> killed u o ms ws zs s0 s'.
Proof.
  intros Hc0 Ec0 Ed0 Em0 Hr0 K Hc1 Hl1 Ecc.
  destruct (same_clock_inv s1 s' Hc1 (kl_inv _ _ _ _ _ _ _ K)) as [Hi' Hrem'].
  assert (forall x, remaining s x = remaining s0 x) as Hrem0.
  { destruct Hc0 as (E1 & _ & _ & _ & E5 & _ & E7 & E8 & _). intros x. unfold remaining, on_time_list, cur_list, ov_list.
    by rewrite E1, E5, E7, E8. }
  assert (blocking_owner s o = blocking_owner s0 o) as Eb by (unfold blocking_owner; by rewrite Em0).
  pose proof (same_ctl_elim _ _ Hl1) as (L1 & L2 & L3 & L4 & L5 & L6). pose proof (same_ctl_dead _ _ Hl1) as L7.
  destruct Hc0 as (T0 & _ & Q0 & _ & _ & S0 & _). destruct Hc1 as (T1 & _ & Q1 & _ & _ & S1 & _).
  destruct K as [Hi Hm Hr Hcc Hd Hts Hz Hml Hex Hmx Hml' Hta Hwk Hot Hmo How Hva Hwa Hli].
  split; rewrite ?T1, ?Q1, ?L4, ?L5, ?S1, <- ?S0, <- ?T0, <- ?Q0, <- ?Em0, <- ?Eb, <- ?Ec0; try done.
  - unfold mtx_inv. by rewrite T1, Q1, L4, L5.
  - pose proof (same_run_elim _ _ Hr) as (? & ? & ? & ?). pose proof (same_run_elim _ _ Hr0) as (? & ? & ? & ?).
    pose proof (same_run_debt _ _ Hr) as [= ? ? ?]. pose proof (same_run_debt _ _ Hr0) as [= ? ? ? ?].
    pose proof (same_ctl_debt _ _ Hl1) as [= ? ? ? ?].
    unfold same_run, run_ctl. f_equal; [unfold run_core, debt; simpl in *; congruence|].
    transitivity (bystanders s1); [exact (same_ctl_bystanders _ _ Hl1)|].
    transitivity (bystanders s); [exact (same_run_bystanders _ _ Hr)|exact (same_run_bystanders _ _ Hr0)].
  - by rewrite L7, Hd, Ed0.
  - intros t Ht Hin. setoid_rewrite Hrem'. by apply Hwk.
  - intros t H1 H2 H3 H4. rewrite Hrem', <- Hrem0. by apply Hot.
  - intros w Hw. destruct (How Hw) as (Hwu & ow & k & H1 & H2 & H3). split; [done|]. exists ow, k. split_and!; [done|done|].
    eapply highest_inherited_frame; [|intros; by rewrite T1|exact H3].
    intros m _. rewrite Q1. by destruct (k_q s1 !! QMtx m); constructor.
Qed.

Lemma task_kill_spec task o oc ms ws zs s :
  sched_inv s -> mtx_inv s -> k_schrun s = true -> 0 <= k_critical_count s ->
  k_tasks s !! named s task = Some o -> t_state o <> OSTHR_STATE_ZOMBIE -> t_state o <> OSTHR_STATE_EXITED ->
  k_tasks s !! k_currp s = Some oc -> active (t_state oc) = true ->
  k_ml s !! named s task = Some ms -> k_q s !! QExit (named s task) = Some ws -> k_q s !! QZombie = Some zs ->
  wp (isix_task_kill task) (fun _ s' => killed (named s task) o ms ws zs s s' /\
    (named s task = k_currp s -> k_pendsv s' = true)) s.
Proof.
  intros Hi Hm Hrun Hcc Ho Hz He Hoc Hac Hml Hws Hzs. unfold isix_task_kill.
  wp_step. apply wp_task_or_current. set (u := named s task) in *.
  wp_step. apply wp_enter_critical; [done|]. set (s0 := upd_critical_count _ _).
  destruct (same_clock_inv s s0) as [Hi0 _]; [done|done|].
  wp_step. eapply wp_task_get; [exact Ho|]. rewrite bool_decide_eq_false_2 by tauto.
  assert (u = k_currp s -> active (t_state o) = true) as Hact by (intros E; rewrite E in Ho; congruence).
  wp_step. eapply wp_mono; [apply (unlock_all_in_task_spec u ms o oc s0); try done; simpl; lia|]. intros [] s1 [A _].
  pose proof (same_run_elim _ _ (ua_run _ _ _ _ _ A)) as (Ec1 & Er1 & _).
  change (k_currp s0) with (k_currp s) in Ec1. change (k_schrun s0) with (k_schrun s) in Er1.
  pose proof (ua_count _ _ _ _ _ A) as Ecc1. change (k_critical_count s0) with (k_critical_count s + 1) in Ecc1.
  assert (k_q s1 !! QExit u = Some ws) as Hws1 by (by rewrite (ua_lists _ _ _ _ _ A)).
  wp_step. wp_step. rewrite Ec1. set (msg := if u =? k_currp s then ISIX_EOK else ISIX_EDESTROY).
  wp_step. unfold wake_exit_waiters. wp_step. eapply wp_q_list; [exact Hws1|].
  eapply wp_mono; [apply (exit_waiters_loop_spec u msg ws NULL s1 (ua_inv _ _ _ _ _ A) Hws1); by left|].
  intros w s2 (W & Hw & _ & _). destruct (ew_frame _ _ _ _ _ _ W) as (Hctl & Ecc2 & _).
  pose proof (same_ctl_elim _ _ Hctl) as (Ec2 & Er2 & _).
  pose proof (woken_from_mtx (QExit u) _ _ _ _ _ I (ua_mtx _ _ _ _ _ A) W) as Hm2.
  destruct (before_burial u o ms ws s0 s1 s2 msg) as (o2 & Ho2 & Hz2 & Hr2 & Hb2 & Hv2); try done.
  assert (k_q s2 !! QZombie = Some zs) as Hzs2.
  { rewrite (ew_waiting _ _ _ _ _ _ W) by done. by rewrite (ua_lists _ _ _ _ _ A). }
  wp_step. eapply wp_mono; [apply (isixp_kill_spec u o2 zs s2 (ew_inv _ _ _ _ _ _ W) Hm2 Ho2 Hz2 Hzs2)|]. intros [] s3 B.
  pose proof (killed_compose u o ms ws o2 zs s0 s1 s2 s3 Hi0 Hm Ho Hml Hws A W B Hr2 Hb2 Hv2 Hzs) as K.
  pose proof (same_ctl_elim _ _ (br_ctl _ _ _ _ _ B)) as (Ec3 & Er3 & _). simpl in Ec3, Er3.
  pose proof (br_count _ _ _ _ _ B) as Ecc3.
  assert (forall s', same_clock s3 s' -> same_ctl s3 s' -> k_critical_count s' = k_critical_count s ->
    killed u o ms ws zs s s') as Hfin.
  { intros s' Hc1 Hl1 Ecc. by apply (killed_clock u o ms ws zs s s0 s3 s'). }
  destruct (Z.eqb_spec u (k_currp s)) as [Eu|Nu]; [|destruct (Z.eqb_spec w NULL) as [->|Hwn]; cbn [negb]].
  - wp_step. apply wp_exit_critical; [lia|]. unfold isix_yield, _isix_port_yield. do 3 wp_step.
    match goal with |- context [k_schrun ?x] => change (k_schrun x) with (k_schrun s3) end.
    rewrite Er3, Er2, Er1, Hrun. wp_step. split; [|done]. apply Hfin; try done. simpl. lia.
  - apply wp_exit_critical; [lia|]. split; [|done]. apply Hfin; try done. simpl. lia.
  - assert (w ∈ ws) as Hin by (by destruct Hw).
    assert (forall x, x <> u -> is_Some (k_tasks s !! x) -> exists ox, k_tasks s3 !! x = Some ox) as Hall.
    { intros x Hx [ox Hox]. pose proof (kl_tasks _ _ _ _ _ _ _ K x Hx) as Hs. change (k_tasks s0 !! x) with (k_tasks s !! x) in Hs.
      rewrite Hox in Hs. inversion Hs; subst; eauto. }
    assert (exists ow, k_tasks s3 !! w = Some ow) as [ow How].
    { destruct (decide (w = u)) as [->|Hwu]; [destruct (br_task _ _ _ _ _ B) as (b & Hb); by eexists|].
      destruct (r_at _ _ _ _ _ (proj1 Hi) _ _ w Hws Hin) as (o' & Ho' & _). apply Hall; [done|by eexists]. }
    destruct (Hall (k_currp s)) as [oc3 Hoc3]; [done|by eexists|].
    eapply (do_reschedule_spec w ow oc3 s3); [done|by rewrite Er3, Er2, Er1|lia|exact How|by rewrite Ec3, Ec2, Ec1|].
    split; [|done]. apply Hfin; try done. simpl. lia.
Qed.

(** C14: Killing a task ends it wherever it is: it leaves the ready list, the time list and the
    list of whatever it waits for and joins the dead tasks; each mutex it owned goes to the
    first waiter or is free, the tasks that wait for its end are ready with the result of the
    wait, a semaphore it waited for gets the claim back, the owner of a mutex it waited for falls
    back to what it still inherits, and the invariants hold.  No other task, mutex or semaphore
    changes, no other wait list gains or loses a task, and the bits of the events, the heap, the
    other objects and the clock are the same.  A task that ends itself gives up the
    processor. *)
Theorem task_kill_buries task o oc ms ws zs s :
  sched_inv s -> mtx_inv s -> k_schrun s = true -> 0 <= k_critical_count s ->
  k_tasks s !! named s task = Some o -> t_state o <> OSTHR_STATE_ZOMBIE -> t_state o <> OSTHR_STATE_EXITED ->
  k_tasks s !! k_currp s = Some oc -> active (t_state oc) = true ->
  k_ml s !! named s task = Some ms -> k_q s !! QExit (named s task) = Some ws -> k_q s !! QZombie = Some zs ->
  wp (isix_task_kill task) (fun _ s' => killed (named s task) o ms ws zs s s' /\
    (named s task = k_currp s -> k_pendsv s' = true)) s.
Proof. apply task_kill_spec. Qed.

(** A task that is dead already is left alone. *)
Lemma task_kill_ignored task o s :
  0 <= k_critical_count s -> k_tasks s !! named s task = Some o ->
  t_state o = OSTHR_STATE_ZOMBIE \/ t_state o = OSTHR_STATE_EXITED ->
  wp (isix_task_kill task) (fun _ s' => same_clock s s' /\ same_ctl s s' /\
    k_critical_count s' = k_critical_count s) s.
Proof.
  intros Hcc Ho Hst. unfold isix_task_kill. wp_step. apply wp_task_or_current. wp_step. apply wp_enter_critical; [done|].
  wp_step. eapply wp_task_get; [exact Ho|]. rewrite bool_decide_eq_true_2 by done.
  apply wp_exit_critical; [simpl; lia|]. split_and!; [done|done|simpl; lia].
Qed.

End KillProofs.
