(* ===== verification/TaskLife.v ===== *)
(** * The life of a task

    [isix_task_create] and [isix_task_unref] of [task.c], and [cleanup_tasks] of
    [scheduler.c], with which the idle task gives back the memory of a task that has ended. *)

From S2P Require Import Prelude.
From S2P Require Import DList.
From S2P Require Import Kernel.
From S2P Require Import Scheduler.
From S2P Require Import Events.
From S2P Require Import Mutex.
From S2P Require Import Task.
From S2P Require Import SchedInv.
From S2P Require Import SchedCore.
From S2P Require Import SchedTime.
From S2P Require Import SchedSleep.
From S2P Require Import SchedWake.
From S2P Require Import Alloc.
From S2P Require Import MutexProofs.
From S2P Require Import MutexOwner.
From S2P Require Import SuspendProofs.
From S2P Require Import TaskProofs.
From stdpp Require Import base numbers gmap list sorting.
From Stdlib Require Import ZArith Lia.
Local Open Scope Z_scope.
Local Open Scope isix_scope.

(** ** Tasks come and go *)

Section Lists.
Implicit Types (ts : gmap Z task) (q : gmap qhead (list Z)).

(** A task on no list appears. *)
Lemma ready_ok_enroll ts ps q pl t o :
  ready_ok None ts ps q pl -> ts !! t = None -> t <> NULL -> 0 <= t_prio o <= CONFIG_ISIX_NUMBER_OF_PRIORITIES ->
  queued_state (t_state o) = false -> ready_ok None (<[t := o]> ts) ps q pl.
Proof.
  intros Hok Hn Hnull Hr Hq.
  assert (forall h l x, q !! h = Some l -> x ∈ l -> x <> t) as Hne.
  { intros h l x Hl Hx ->. destruct (r_at _ _ _ _ _ Hok h l t Hl Hx) as (? & ? & _). congruence. }
  destruct Hok. split; try done.
  - intros h l x Hl Hx. rewrite lookup_insert_ne by (symmetry; eauto). eauto.
  - intros x ox. rewrite lookup_insert. case_decide; [intros [= <-] _; by rewrite Hq|eauto].
  - intros h l Hh Hl. eapply sorted_by_ext; [|by eauto]. intros x Hx. rewrite prio_of_insert, decide_False; eauto.
  - intros x ox. rewrite lookup_insert. case_decide; [by intros [= <-]|eauto].
  - by rewrite lookup_insert_ne.
  - destruct r_lists as (ready & free & Hp). exists ready, free. eapply prio_lists_frame; [done|done|].
    intros e l x Hl Hx. rewrite prio_of_insert, decide_False; eauto.
Qed.

(** A task on no list disappears. *)
Lemma ready_ok_retire d ts ps q pl t :
  ready_ok d ts ps q pl -> unlinked t q -> d <> Some t -> ready_ok d (delete t ts) ps q pl.
Proof.
  intros Hok Hu Hd. assert (forall h l x, q !! h = Some l -> x ∈ l -> x <> t) as Hne by (intros h l x Hl Hx ->; by eapply Hu).
  assert (forall x, x <> t -> prio_of (delete t ts) x = prio_of ts x) as Hp by (intros x Hx; unfold prio_of; by rewrite lookup_delete_ne).
  destruct Hok. split; try done.
  - intros h l x Hl Hx. rewrite lookup_delete_ne by (symmetry; eauto). eauto.
  - intros x ox [_ Hx]%lookup_delete_Some. eauto.
  - intros h l Hh Hl. eapply sorted_by_ext; [|by eauto]. intros x Hx. rewrite Hp; eauto.
  - intros x ox [_ Hx]%lookup_delete_Some. eauto.
  - rewrite lookup_delete. by case_decide.
  - destruct r_lists as (ready & free & Hpl). exists ready, free. eapply prio_lists_frame; [done|done|].
    intros e l x Hl Hx. rewrite Hp; eauto.
Qed.

(** A list head without tasks disappears. *)
Lemma ready_ok_q_drop d ts ps q pl h :
  ready_ok d ts ps q pl -> is_ready_head h = false -> (forall l, q !! h = Some l -> l = []) ->
  ready_ok d ts ps (delete h q) pl.
Proof.
  intros Hok Hh He.
  assert (forall h' l x, delete h q !! h' = Some l -> x ∈ l -> q !! h' = Some l) as Hl by (by intros h' l x [_ E]%lookup_delete_Some _).
  assert (forall h' l x, q !! h' = Some l -> x ∈ l -> delete h q !! h' = Some l) as Hl'.
  { intros h' l x E Hx. rewrite lookup_delete_ne; [done|]. intros ->. rewrite (He l E) in Hx. by apply elem_of_nil in Hx. }
  destruct Hok. split; try done.
  - destruct r_qwf as [Hnd Hdis]. split.
    + intros h' l [_ E]%lookup_delete_Some. eauto.
    + intros h1 h2 l1 l2 x E1 E2 Hx1 Hx2. eauto.
  - eauto.
  - intros x o Ho Hd Hq. destruct (r_queued x o Ho Hd Hq) as (h' & l & E & Hx). eauto.
  - intros x Hd h' l E Hx. by eapply (r_detached x Hd); eauto.
  - intros h' l Hp [_ E]%lookup_delete_Some. eauto.
  - destruct r_lists as (ready & free & Hpl). exists ready, free. eapply prio_lists_frame; [done| |done].
    intros e. apply lookup_delete_ne. by intros ->.
Qed.

Lemma mtxs_ok_enroll ts mtxs ml q t o h :
  mtxs_ok None ts mtxs ml q -> ts !! t = None -> t <> NULL -> 0 <= t_real_prio o <= CONFIG_ISIX_NUMBER_OF_PRIORITIES ->
  match h with QMtx _ => False | _ => True end ->
  mtxs_ok None (<[t := o]> ts) mtxs (<[t := []]> ml) (<[h := []]> q).
Proof.
  intros Hm Hn Hnull Hr Hh. assert (ml !! t = None) as Hml.
  { apply eq_None_not_Some. intros Hs%(mo_dom _ _ _ _ _ Hm). rewrite Hn in Hs. by destruct Hs. }
  assert (forall x k m, <[t := []]> ml !! x = Some k -> m ∈ k -> ml !! x = Some k) as Hk.
  { intros x k m [[<- <-]|[_ E]]%lookup_insert_Some Hin; [by apply elem_of_nil in Hin|done]. }
  assert (forall m, <[h := []]> q !! QMtx m = q !! QMtx m) as Hq by (intros m; rewrite lookup_insert_ne; [done|by intros ->]).
  destruct Hm. split.
  - destruct mo_wf as [Hnd Hdis]. split.
    + intros x k [[<- <-]|[_ E]]%lookup_insert_Some; [constructor|eauto].
    + intros x1 x2 k1 k2 m E1 E2 H1 H2. eauto.
  - by rewrite lookup_insert_ne.
  - intros x. rewrite !lookup_insert. by case_decide.
  - intros x ox. rewrite lookup_insert. case_decide; [by intros [= <-]|eauto].
  - intros x k m E Hin. eauto.
  - intros m om Hom Hd. destruct (mo_mtx m om Hom Hd) as (l & Hl & Hst). exists l. rewrite Hq. split; [done|].
    destruct Hst as [|(H1 & H2 & H3 & k & Hk0 & Hin)]; [by left|right]. unfold held_mtx. split_and!; try done; try lia.
    exists k. rewrite lookup_insert_ne; [done|]. congruence.
  - done.
  - intros m. rewrite Hq. eauto.
Qed.

Lemma mtxs_ok_retire ts mtxs ml q t h :
  mtxs_ok None ts mtxs ml q -> ml !! t = Some [] -> match h with QMtx _ => False | _ => True end ->
  mtxs_ok None (delete t ts) mtxs (delete t ml) (delete h q).
Proof.
  intros Hm Hml Hh.
  assert (forall m, delete h q !! QMtx m = q !! QMtx m) as Hq by (intros m; rewrite lookup_delete_ne; [done|by intros ->]).
  destruct Hm. split.
  - destruct mo_wf as [Hnd Hdis]. split.
    + intros x k [_ E]%lookup_delete_Some. eauto.
    + intros x1 x2 k1 k2 m [_ E1]%lookup_delete_Some [_ E2]%lookup_delete_Some. eauto.
  - rewrite lookup_delete. by case_decide.
  - intros x. rewrite !lookup_delete. by case_decide.
  - intros x ox [_ Hx]%lookup_delete_Some. eauto.
  - intros x k m [_ E]%lookup_delete_Some. eauto.
  - intros m om Hom Hd. destruct (mo_mtx m om Hom Hd) as (l & Hl & Hst). exists l. rewrite Hq. split; [done|].
    destruct Hst as [|(H1 & H2 & H3 & k & Hk0 & Hin)]; [by left|right]. unfold held_mtx. split_and!; try done; try lia.
    exists k. rewrite lookup_delete_ne; [done|]. intros E. rewrite <- E, Hml in Hk0. injection Hk0 as <-. by apply elem_of_nil in Hin.
  - done.
  - intros m. rewrite Hq. eauto.
Qed.

End Lists.

Section TaskLife.
Context {HS : Type} {AL : Allocator HS}.
Implicit Types s : kstate HS.

(** No task and no list head lives at the address. *)
Definition vacant s (t : Z) : Prop :=
  t <> NULL /\ k_tasks s !! t = None /\ k_q s !! QExit t = None.

(** Task [t] with the control block [o], which nobody waits for. *)
Definition enrolled (t : Z) (o : task) s : kstate HS :=
  upd_tasks (insert t o) (upd_ml (insert t []) (upd_q (insert (QExit t) []) s)).

Definition retired (t : Z) s : kstate HS :=
  upd_ml (delete t) (upd_q (delete (QExit t)) (upd_tasks (delete t) s)).

Lemma enrolled_inv t o s :
  sched_inv s -> mtx_inv s -> vacant s t -> queued_state (t_state o) = false ->
  0 <= t_prio o <= CONFIG_ISIX_NUMBER_OF_PRIORITIES -> 0 <= t_real_prio o <= CONFIG_ISIX_NUMBER_OF_PRIORITIES ->
  sched_inv (enrolled t o s) /\ mtx_inv (enrolled t o s) /\ (forall x, remaining (enrolled t o s) x = remaining s x).
Proof.
  intros (Hok & Hsem & Ht) Hm (Hnull & Hn & Hq) Hst Hp Hr.
  destruct (time_inv_frame s (enrolled t o s) Ht) as (Ht' & _ & _ & Hrem); [done|done|done| |].
  { intros x Hx. simpl. rewrite lookup_insert_ne; [done|]. intros <-. destruct Ht as [Htl _ _ _].
    destruct (tm_state _ _ _ _ _ Htl t Hx) as (? & ? & _). congruence. }
  split_and!; [|by apply mtxs_ok_enroll|done]. split; [|split; [|done]].
  - apply ready_ok_enroll; try done. apply ready_ok_q_init; [done|]. intros l E. clear -Hq E. congruence.
  - eapply sem_counts_frame; [exact Hsem|]. intros a. simpl. by rewrite lookup_insert_ne.
Qed.

Lemma retired_inv t o s :
  sched_inv s -> mtx_inv s -> k_tasks s !! t = Some o -> queued_state (t_state o) = false ->
  timed_state (t_state o) = false -> k_ml s !! t = Some [] -> k_q s !! QExit t = Some [] ->
  sched_inv (retired t s) /\ mtx_inv (retired t s) /\ (forall x, remaining (retired t s) x = remaining s x).
Proof.
  intros (Hok & Hsem & Ht) Hm Ho Hst Htm Hml Hex.
  destruct (time_inv_frame s (retired t s) Ht) as (Ht' & _ & _ & Hrem); [done|done|done| |].
  { intros x Hx. simpl. rewrite lookup_delete_ne; [done|]. intros <-. by eapply untimed. }
  split_and!; [|by apply mtxs_ok_retire|done]. split; [|split; [|done]].
  - simpl. apply ready_ok_q_drop; [|done|intros l E; assert (Some l = Some []) as [= ->] by (rewrite <- E; exact Hex); done]. apply ready_ok_retire; [done| |done]. by eapply not_queued_unlinked.
  - eapply sem_counts_frame; [exact Hsem|]. intros a. simpl. by rewrite lookup_delete_ne.
Qed.


Lemma enrolled_rq t o s p : rq (enrolled t o s) p = rq s p.
Proof. unfold rq. simpl. by apply ready_queue_waiting. Qed.

(** ** isix_task_create *)

Context (terminator reent_size : Z).

(** The new task is suspended from the start. *)
Definition starts_suspended (flags : Z) : bool := has_bits flags isix_task_flag_suspended.

(** The stack of a new task: filled, with the first frame on top. *)
Definition first_stack (stack depth func param : Z) (m : gmap Z Z) : Z * gmap Z Z :=
  _isixp_task_init_stack terminator (stack + depth) func param
    (mem_fill stack MAGIC_FILL_VALUE (Z.to_nat depth) m).

(** Task [t] has been created: its stack of [depth] bytes is at [stack], the data of the C
    library at [impure], the heap is [h] now. *)
Record created (t stack depth impure func param prio flags : Z) (h : HS) (oc : task) s s' : Prop := {
  cr_inv : sched_inv s';
  cr_mtx : mtx_inv s';
  cr_run : same_core s s';
  cr_count : k_critical_count s' = k_critical_count s;
  cr_heap : k_heap s' = h;
  cr_task : exists o, k_tasks s' = <[t := o]> (k_tasks s) /\ t_prio o = prio /\ t_real_prio o = prio /\
    t_refcnt o = (if has_bits flags isix_task_flag_ref then 1 else 0) /\
    t_state o = (if starts_suspended flags then OSTHR_STATE_SUSPEND else OSTHR_STATE_READY) /\
    t_init_stack o = stack /\ t_top_stack o = fst (first_stack stack depth func param (k_mem s)) /\ t_impure o = impure;
  cr_mem : k_mem s' = snd (first_stack stack depth func param (k_mem s));
  cr_rq : forall p, rq s' p = if decide (p = prio /\ starts_suspended flags = false) then rq s p ++ [t] else rq s p;
  cr_rest : forall x, remaining s' x = remaining s x;
  cr_exit : k_q s' !! QExit t = Some [];
  cr_waiting : forall h, h <> QExit t -> is_ready_head h = false -> k_q s' !! h = k_q s !! h;
  cr_owned : k_ml s' = <[t := []]> (k_ml s);
  cr_mtxs : k_mtxs s' = k_mtxs s;
  cr_yield : starts_suspended flags = false -> prio < t_prio oc -> k_pendsv s' = true
}.

(** The calls of the allocator: the control block, the stack, the data of the C library. *)
Definition created_blocks (depth flags : Z) (h0 : HS) (t stack impure : Z) (h : HS) : Prop :=
  exists h1 h2, heap_alloc 64 h0 = (t, h1) /\ heap_alloc (_isixp_align_size depth) h1 = (stack, h2) /\
    if has_bits flags isix_task_flag_newlib then heap_alloc reent_size h2 = (impure, h) /\ impure <> NULL
    else impure = NULL /\ h = h2.

Lemma task_create_spec func param depth prio flags t stack impure h oc s :
  sched_inv s -> mtx_inv s -> k_schrun s = true -> may_allocate s -> k_tasks s !! k_currp s = Some oc ->
  0 <= prio <= CONFIG_ISIX_NUMBER_OF_PRIORITIES -> ISIX_PORT_SCHED_MIN_STACK_DEPTH <= depth ->
  created_blocks depth flags (k_heap s) t stack impure h -> vacant s t -> stack <> NULL ->
  wp (isix_task_create terminator reent_size func param depth prio flags) (fun r s' =>
    r = t /\ created t stack (_isixp_align_size depth) impure func param prio flags h oc s s') s.
Proof.
  intros Hi Hm Hrun Hall Hoc Hp Hd (h1 & h2 & E1 & E2 & E3) Hv Hst. unfold isix_task_create, isix_get_min_priority, _isixp_is_idle_prio.
  assert ((CONFIG_ISIX_NUMBER_OF_PRIORITIES - 1 <? prio) && negb (prio =? CONFIG_ISIX_NUMBER_OF_PRIORITIES) = false) as ->.
  { apply andb_false_iff. rewrite Z.ltb_ge, negb_false_iff, Z.eqb_eq. lia. }
  rewrite (proj2 (Z.ltb_ge _ _)) by done. cbv zeta.
  pose proof Hv as (Hnull & Hfresh & Hex).
  wp_step. apply isix_alloc_spec; [done|]. intros m1. rewrite E1. simpl fst. simpl snd.
  rewrite (proj2 (Z.eqb_neq t NULL)) by done.
  wp_step. apply isix_alloc_spec; [done|]. intros m2. simpl k_heap. rewrite E2. simpl fst. simpl snd.
  rewrite (proj2 (Z.eqb_neq stack NULL)) by done.
  assert (forall Q (k : Z -> K HS Z), (forall m, wp (k impure) Q (with_heap h m s)) ->
    wp (impure <- (if has_bits flags isix_task_flag_newlib then isix_alloc reent_size else ret NULL);; k impure) Q
      (with_heap h2 m2 (with_heap h1 m1 s))) as Himp.
  { intros Q k Hk. wp_step. destruct (has_bits flags isix_task_flag_newlib).
    - destruct E3 as [E3 _]. apply isix_alloc_spec; [done|]. intros m3. simpl k_heap. rewrite E3. apply Hk.
    - destruct E3 as [-> ->]. wp_step. apply Hk. }
  apply Himp. intros m. clear Himp m1 m2.
  assert (has_bits flags isix_task_flag_newlib && (impure =? NULL) = false) as ->.
  { destruct (has_bits flags isix_task_flag_newlib); [|done]. destruct E3 as [_ Hi3]. by apply Z.eqb_neq. }
  set (d := _isixp_align_size depth). unfold q_init, ml_init. do 8 wp_step.
  match goal with |- context [_isixp_task_init_stack ?a ?b ?c ?e ?f] =>
    change (_isixp_task_init_stack a b c e f) with (first_stack stack d func param (k_mem s)) end.
  destruct (first_stack stack d func param (k_mem s)) as [top mem] eqn:Ef. do 4 wp_step.
  set (o := Task _ _ _ _ _ _ _ _ _ _ _).
  set (s0 := upd_mem (fun _ => mem) (with_heap h m s)).
  match goal with |- wp _ _ ?x => change x with (enrolled t o s0) end.
  destruct (same_clock_inv s s0) as [Hi0 Hrem0]; [done|done|].
  destruct (enrolled_inv t o s0) as (Hi1 & Hm1 & Hrem1); try done; [by unfold o, queued_state; simpl; destruct (has_bits flags isix_task_flag_suspended)|].
  assert (k_tasks (enrolled t o s0) !! t = Some o) as Ho by apply lookup_insert_eq.
  assert (t_state o = if starts_suspended flags then OSTHR_STATE_SUSPEND else OSTHR_STATE_CREATED) as Est by done.
  wp_step. fold (starts_suspended flags). destruct (starts_suspended flags) eqn:Hs; cbn [negb]; cbv [when].
  { do 2 wp_step. split; [done|]. split; try done.
    - exists o. rewrite Ef, Hs. by split_and!.
    - by rewrite Ef.
    - intros p. rewrite decide_False by (by rewrite Hs; intros [_ ?]). exact (enrolled_rq t o s0 p).
    - apply lookup_insert_eq.
    - intros x Hx _. simpl. by rewrite lookup_insert_ne.
    - by rewrite Hs. }
  assert (t <> k_currp s) as Htc by congruence.
  wp_step. apply wp_enter_critical; [apply Hall|]. set (s1 := upd_critical_count _ _).
  destruct (same_clock_inv (enrolled t o s0) s1) as [Hi2 Hrem2]; [done|done|]. pose proof Hi2 as (Hok & Hsem & Ht).
  eapply wp_mono; [apply (isixp_wakeup_task_spec t o oc ISIX_EOK s1); try done|].
  - by eapply ready_ok_detach; [..|by rewrite Est].
  - by rewrite Est.
  - by rewrite Est.
  - simpl. destruct Hall as (_ & ? & _). lia.
  - simpl. by rewrite lookup_insert_ne by congruence.
  - intros [] s' (s2 & W & ->). wp_step. split; [done|].
    destruct (same_clock_inv s2 _ (same_clock_yielded (t_prio o <? t_prio oc) s2) (wd_inv _ _ _ _ _ W)) as [Hi' Hrem'].
    pose proof (wd_frame _ _ _ _ _ W) as Hf. destruct (wd_task _ _ _ _ _ W) as (e & Ets).
    split.
    + exact Hi'.
    + exact (waked_mtx t o _ s1 s2 W Ho Hm1).
    + exact (eq_sym (f_equal run_core Hf)).
    + simpl. rewrite <- (f_equal k_critical_count Hf : k_critical_count s + 1 = k_critical_count s2). lia.
    + exact (eq_sym (f_equal k_heap Hf)).
    + eexists. rewrite Ef, Hs. simpl k_tasks. rewrite Ets. simpl k_tasks. rewrite insert_insert_eq. by split_and!.
    + rewrite Ef. exact (eq_sym (f_equal k_mem Hf)).
    + intros p. rewrite Hs. transitivity (rq s2 p); [done|]. rewrite (wd_rq _ _ _ _ _ W). change (rq s1 p) with (rq (enrolled t o s0) p).
      rewrite enrolled_rq. change (rq s0 p) with (rq s p). repeat case_decide; tauto.
    + intros x. rewrite Hrem', (wd_rest _ _ _ _ _ W), Hrem2, Hrem1, Hrem0. case_decide as E; [subst x|done].
      symmetry. rewrite <- Hrem0, <- Hrem1, <- Hrem2. apply remaining_None. eapply untimed; [exact Ht|exact Ho|by rewrite Est].
    + simpl. rewrite (wd_waiting _ _ _ _ _ W) by done. apply lookup_insert_eq.
    + intros x Hx Hr. simpl. rewrite (wd_waiting _ _ _ _ _ W) by done. simpl. by rewrite lookup_insert_ne.
    + exact (eq_sym (f_equal k_ml Hf)).
    + exact (eq_sym (f_equal k_mtxs Hf)).
    + intros _ Hlt. simpl. by rewrite (proj2 (Z.ltb_lt _ _)).
Qed.

(** The heap after a call that found no memory, with everything it had got given back. *)
Definition heap_after_failure (depth flags : Z) (h0 : HS) : option HS :=
  let '(t, h1) := heap_alloc 64 h0 in
  if t =? NULL then Some h1 else
  let '(stack, h2) := heap_alloc (_isixp_align_size depth) h1 in
  if stack =? NULL then Some (heap_free t h2) else
  if has_bits flags isix_task_flag_newlib then
    let '(impure, h3) := heap_alloc reent_size h2 in
    if impure =? NULL then Some (heap_free t (heap_free stack h3)) else None
  else None.

(** Without memory nothing is created and nothing is kept. *)
Lemma task_create_without_memory_spec func param depth prio flags h s :
  may_allocate s -> 0 <= prio <= CONFIG_ISIX_NUMBER_OF_PRIORITIES -> ISIX_PORT_SCHED_MIN_STACK_DEPTH <= depth ->
  heap_after_failure depth flags (k_heap s) = Some h ->
  wp (isix_task_create terminator reent_size func param depth prio flags) (fun r s' =>
    r = NULL /\ exists m, s' = with_heap h m s) s.
Proof.
  intros Hall Hp Hd Hh. unfold isix_task_create, isix_get_min_priority, _isixp_is_idle_prio.
  assert ((CONFIG_ISIX_NUMBER_OF_PRIORITIES - 1 <? prio) && negb (prio =? CONFIG_ISIX_NUMBER_OF_PRIORITIES) = false) as ->.
  { apply andb_false_iff. rewrite Z.ltb_ge, negb_false_iff, Z.eqb_eq. lia. }
  rewrite (proj2 (Z.ltb_ge _ _)) by done. cbv zeta. unfold heap_after_failure in Hh.
  wp_step. apply isix_alloc_spec; [done|]. intros m1. destruct (heap_alloc 64 (k_heap s)) as [t h1]. simpl fst. simpl snd.
  destruct (Z.eqb_spec t NULL) as [->|Hnt].
  { injection Hh as ->. wp_step. split; [done|]. by exists m1. }
  wp_step. apply isix_alloc_spec; [done|]. intros m2. simpl k_heap. destruct (heap_alloc _ h1) as [stack h2]. simpl fst. simpl snd.
  destruct (Z.eqb_spec stack NULL) as [->|Hns].
  { injection Hh as <-. wp_step. apply isix_free_spec; [done|]. intros m. wp_step. split; [done|]. by exists m. }
  destruct (has_bits flags isix_task_flag_newlib); [|done]. wp_step. apply isix_alloc_spec; [done|]. intros m3. simpl k_heap.
  destruct (heap_alloc _ h2) as [impure h3]. simpl fst. simpl snd. destruct (impure =? NULL); [|done]. injection Hh as <-.
  cbn [andb]. wp_step. apply isix_free_spec; [done|]. intros m4. wp_step. apply isix_free_spec; [done|]. intros m5.
  wp_step. split; [done|]. by exists m5.
Qed.

(** A priority out of range, or a stack that is too small. *)
Lemma task_create_refused func param depth prio flags s :
  CONFIG_ISIX_NUMBER_OF_PRIORITIES < prio \/ depth < ISIX_PORT_SCHED_MIN_STACK_DEPTH ->
  wp (isix_task_create terminator reent_size func param depth prio flags) (fun r s' => r = NULL /\ s' = s) s.
Proof.
  intros Hr. unfold isix_task_create, isix_get_min_priority, _isixp_is_idle_prio.
  destruct (_ && negb _) eqn:E; [by wp_step|]. destruct (Z.ltb_spec depth ISIX_PORT_SCHED_MIN_STACK_DEPTH); [by wp_step|exfalso].
  apply andb_false_iff in E. rewrite Z.ltb_ge, negb_false_iff, Z.eqb_eq in E. lia.
Qed.

(** ** cleanup_tasks *)

(** The control block of a task that is dead for good. *)
Definition exited (o : task) : task :=
  set_t_state OSTHR_STATE_EXITED (set_t_impure NULL (set_t_init_stack NULL o)).

(** The memory of a dead task: stack, data of the C library, control block. *)
Definition freed_memory (t : Z) (o : task) (h : HS) : HS :=
  let h := heap_free (t_init_stack o) h in
  let h := if t_impure o =? NULL then h else heap_free (t_impure o) h in
  if t_refcnt o =? 0 then heap_free t h else h.

(** The first dead task [t] has been dealt with. *)
Record cleaned_up (t : Z) (o : task) (zs : list Z) s s' : Prop := {
  cu_inv : sched_inv s';
  cu_mtx : mtx_inv s';
  cu_run : same_core s (upd_ndeleted (fun _ => k_ndeleted s) s');
  cu_count : k_critical_count s' = k_critical_count s;
  cu_dead : k_ndeleted s' = u32 (k_ndeleted s - 1);
  cu_zombies : k_q s' !! QZombie = Some zs;
  cu_task : k_tasks s' = if t_refcnt o =? 0 then delete t (k_tasks s)
    else <[t := exited o]> (k_tasks s);
  cu_heap : k_heap s' = freed_memory t o (k_heap s);
  cu_waiting : forall h, h <> QZombie -> h <> QExit t -> is_ready_head h = false -> k_q s' !! h = k_q s !! h;
  cu_exit : k_q s' !! QExit t = if t_refcnt o =? 0 then None else Some [];
  cu_owned : k_ml s' = if t_refcnt o =? 0 then delete t (k_ml s) else k_ml s;
  cu_mtxs : k_mtxs s' = k_mtxs s;
  cu_timer : k_timer s' = k_timer s;
  cu_vt : k_vt s' = k_vt s;
  cu_rest : forall x, remaining s' x = remaining s x
}.

(** The dead task is off its list. *)
Lemma buried_inv t o o1 zs s s1 :
  sched_inv s -> mtx_inv s -> k_q s !! QZombie = Some (t :: zs) -> k_tasks s !! t = Some o ->
  k_tasks s1 = <[t := o1]> (k_tasks s) -> k_q s1 = <[QZombie := zs]> (k_q s) -> k_pl s1 = k_pl s -> k_prios s1 = k_prios s ->
  k_tl s1 = k_tl s -> k_pwait s1 = k_pwait s -> k_jiffies s1 = k_jiffies s -> k_sems s1 = k_sems s ->
  k_mtxs s1 = k_mtxs s -> k_ml s1 = k_ml s ->
  t_state o1 = OSTHR_STATE_EXITED -> t_prio o1 = t_prio o -> t_real_prio o1 = t_real_prio o ->
  sched_inv s1 /\ mtx_inv s1 /\ (forall x, remaining s1 x = remaining s x).
Proof.
  intros (Hok & Hsem & Ht) Hm Hz Ho Ets Eq Epl Eps Etl Epw Ej Esem Em Eml Hst Hp Hr.
  destruct (r_at _ _ _ _ _ Hok QZombie (t :: zs) t Hz) as (o' & Ho' & Hzst); [by left|]. simpl in Hzst.
  assert (o' = o) as -> by congruence. clear Ho'.
  assert (NoDup (t :: zs)) as Hnd by (by eapply (r_qwf _ _ _ _ _ Hok)).
  pose proof (ready_ok_q_delete _ _ _ _ QZombie _ t Hok Hz ltac:(by left) eq_refl) as Hok1. rewrite remove_node_head in Hok1 by done.
  assert (t <> NULL) as Hnull by (intros ->; by rewrite (r_null _ _ _ _ _ Hok) in Ho).
  destruct (time_inv_frame s s1 Ht) as (Ht1 & _ & _ & Hrem); [done|done|done| |].
  { intros x Hx. rewrite Ets, lookup_insert_ne; [done|]. intros <-. eapply untimed; [exact Ht|exact Ho|by rewrite Hzst|done]. }
  split_and!; [| |done].
  - split; [|split; [|done]].
    + unfold ready_inv. rewrite Ets, Eq, Epl, Eps. eapply ready_ok_attach.
      * apply ready_ok_upd_detached; [exact Hok1|done|rewrite Hp; exact (r_range _ _ _ _ _ Hok _ _ Ho)].
      * intros x. rewrite lookup_insert_eq. intros [= <-]. by rewrite Hst.
    + unfold sems_ok. rewrite Esem, Eq. eapply sem_counts_frame; [exact Hsem|]. intros a. by rewrite lookup_insert_ne.
  - unfold mtx_inv. rewrite Ets, Eq, Em, Eml. eapply mtxs_ok_permuted; [exact Hm| |].
    + intros x. rewrite lookup_insert. case_decide as E; [subst x; rewrite Ho; by constructor|]. by destruct (k_tasks s !! x); constructor.
    + intros m. rewrite lookup_insert_ne by done. by destruct (k_q s !! QMtx m); constructor.
Qed.

(** The dead task is off its list; its memory is given back. *)
Lemma give_memory_back t o zs s s1 :
  sched_inv s1 -> mtx_inv s1 -> (forall x, remaining s1 x = remaining s x) -> may_allocate s1 ->
  k_tasks s1 = <[t := exited o]> (k_tasks s) -> k_q s1 = <[QZombie := zs]> (k_q s) ->
  k_q s !! QExit t = Some [] -> k_ml s !! t = Some [] ->
  same_core s (upd_ndeleted (fun _ => k_ndeleted s) s1) -> k_critical_count s1 = k_critical_count s ->
  k_ndeleted s1 = u32 (k_ndeleted s - 1) -> k_heap s1 = k_heap s -> k_ml s1 = k_ml s -> k_mtxs s1 = k_mtxs s ->
  k_timer s1 = k_timer s -> k_vt s1 = k_vt s ->
  wp (isix_free (t_init_stack o);;;
      when (negb (t_impure o =? NULL)) (isix_free (t_impure o));;;
      when (t_refcnt o =? 0) (free_task t)) (fun _ s' => cleaned_up t o zs s s') s1.
Proof.
  intros Hi1 Hm1 Hrem1 Hall1 Ets Eq Hex Hml Hrun Ecc End Eh Eml Em Etm Evt.
  assert (k_tasks s1 !! t = Some (exited o)) as Ho1 by (by rewrite Ets, lookup_insert_eq).
  assert (forall h m, t_refcnt o =? 0 = false -> h = freed_memory t o (k_heap s) -> cleaned_up t o zs s (with_heap h m s1)) as Hkept.
  { intros h m Hr ->. destruct (same_clock_inv s1 (with_heap (freed_memory t o (k_heap s)) m s1)) as [Hi2 Hrem2]; [done|exact Hi1|].
    split; rewrite ?Hr; try done; simpl; rewrite ?Eq; try done.
    - apply lookup_insert_eq.
    - intros x H1 H2 _. by rewrite lookup_insert_ne.
    - by rewrite lookup_insert_ne. }
  assert (forall h m, t_refcnt o =? 0 = true -> h = freed_memory t o (k_heap s) -> cleaned_up t o zs s (retired t (with_heap h m s1))) as Hgone.
  { intros h m Hr ->. set (s2 := with_heap _ m s1). destruct (same_clock_inv s1 s2) as [Hi2 Hrem2]; [done|exact Hi1|].
    assert (k_ml s1 !! t = Some [] /\ k_q s1 !! QExit t = Some []) as [Hml1 Hex1] by (rewrite Eml, Eq, lookup_insert_ne by done; done).
    destruct (retired_inv t (exited o) s2 Hi2 Hm1 Ho1 eq_refl eq_refl Hml1 Hex1) as (Hi3 & Hm3 & Hrem3).
    split; rewrite ?Hr; try done; simpl; rewrite ?Eq, ?Ets, ?Eml; try done.
    - rewrite lookup_delete_ne by done. apply lookup_insert_eq.
    - apply delete_insert_eq.
    - intros x H1 H2 _. by rewrite lookup_delete_ne, lookup_insert_ne.
    - apply lookup_delete_eq.
    - intros x. rewrite Hrem3, Hrem2. apply Hrem1. }
  wp_step. apply isix_free_spec; [done|]. intros m1. rewrite Eh.
  assert (forall h m, h = (if t_impure o =? NULL then heap_free (t_init_stack o) (k_heap s)
      else heap_free (t_impure o) (heap_free (t_init_stack o) (k_heap s))) ->
    wp (when (t_refcnt o =? 0) (free_task t)) (fun _ s' => cleaned_up t o zs s s') (with_heap h m s1)) as Hlast.
  { intros h m Eh'. unfold freed_memory in Hgone, Hkept. destruct (t_refcnt o =? 0) eqn:Hr; cbv [when].
    - unfold free_task. wp_step. apply isix_free_spec; [done|]. intros m'. do 5 wp_step.
      exact (Hgone (heap_free t h) m' eq_refl ltac:(by rewrite Eh')).
    - wp_step. by apply (Hkept h m). }
  wp_step. destruct (t_impure o =? NULL) eqn:Hi0'; cbn [negb]; cbv [when].
  - wp_step. by apply Hlast.
  - apply isix_free_spec; [done|]. intros m2. by apply Hlast.
Qed.

Lemma cleanup_tasks_spec t o zs s :
  sched_inv s -> mtx_inv s -> may_allocate s -> 0 < k_ndeleted s -> k_q s !! QZombie = Some (t :: zs) ->
  k_tasks s !! t = Some o -> k_q s !! QExit t = Some [] -> k_ml s !! t = Some [] ->
  wp cleanup_tasks (fun _ s' => cleaned_up t o zs s s') s.
Proof.
  intros Hi Hm Hall Hd Hz Ho Hex Hml. unfold cleanup_tasks. wp_step. wp_step. rewrite (proj2 (Z.ltb_lt _ _)) by done.
  wp_step. apply wp_enter_critical; [apply Hall|]. set (s0 := upd_critical_count _ _).
  destruct (same_clock_inv s s0) as [Hi0 Hrem0]; [done|done|]. pose proof Hi0 as (Hok & Hsem & Ht).
  wp_step. eapply wp_q_list; [exact Hz|]. cbv iota beta.
  destruct (r_at _ _ _ _ _ Hok QZombie (t :: zs) t Hz) as (o' & Ho' & Hst); [by left|]. simpl in Hst.
  assert (o' = o) as -> by (change (k_tasks s0) with (k_tasks s) in Ho'; congruence). clear Ho'.
  assert (NoDup (t :: zs)) as Hnd by (by eapply (r_qwf _ _ _ _ _ Hok)).
  destruct (seq_delete_in t (k_q s0) QZombie _ (r_qwf _ _ _ _ _ Hok) Hz ltac:(by left)) as (Hdel & _).
  pose proof (ready_ok_q_delete _ _ _ _ QZombie _ t Hok Hz ltac:(by left) eq_refl) as Hok1.
  rewrite remove_node_head in Hdel, Hok1 by done.
  wp_step. eapply wp_q_store; [exact Hdel|]. wp_step. eapply wp_task_get; [exact Ho|].
  do 3 (wp_step; eapply wp_task_upd; [simpl; rewrite ?lookup_insert_eq; first [exact Ho|done]|]).
  wp_step. wp_step. wp_step. apply wp_exit_critical; [simpl; destruct Hall as (_ & ? & _); lia|].
  set (o1 := set_t_state _ _). match goal with |- wp _ _ ?x => set (s1 := x) end.
  assert (k_tasks s1 = <[t := o1]> (k_tasks s)) as Ets by (unfold s1; simpl; by rewrite !insert_insert_eq).
  assert (k_tasks s1 !! t = Some o1) as Ho1 by (by rewrite Ets, lookup_insert_eq).
  assert (k_critical_count s1 = k_critical_count s) as Ecc by (simpl; lia).
  destruct (buried_inv t o o1 zs s s1) as (Hi1 & Hm1 & Hrem1); try done.
  apply (give_memory_back t o zs s s1); try done. destruct Hall as (? & ? & ? & ?). split_and!; done || simpl; lia.
Qed.

(** ** isix_task_ref, isix_task_unref *)

(** The references of a task are not looked at by the lists. *)
Lemma set_refcnt_inv t o n s :
  sched_inv s -> mtx_inv s -> k_tasks s !! t = Some o ->
  let s' := upd_tasks (insert t (set_t_refcnt n o)) s in
  sched_inv s' /\ mtx_inv s' /\ (forall x, remaining s' x = remaining s x).
Proof.
  intros (Hok & Hsem & Ht) Hm Ho s'.
  destruct (time_inv_same s s' Ht) as (Ht' & _ & _ & Hrem); [done|done|done| |].
  { intros x _ ox Hox. simpl. rewrite lookup_insert. case_decide as E; [subst x|by exists ox]. eexists. split; [done|]. by simplify_eq. }
  split_and!; [|by eapply mtxs_ok_upd_task|done].
  split; [|split; [exact Hsem|done]]. eapply ready_ok_upd_same; [exact Hok|exact Ho|done| |done].
  intros h Hat. by destruct h.
Qed.

Definition with_refs (t : Z) (o : task) (n : Z) s : kstate HS := upd_tasks (insert t (set_t_refcnt n o)) s.

Lemma task_ref_spec task o s :
  0 <= k_critical_count s -> k_tasks s !! named s task = Some o -> t_refcnt o < OSREF_T_MAX ->
  wp (isix_task_ref task) (fun r s' => r = ISIX_EOK /\
    same_clock (with_refs (named s task) o (t_refcnt o + 1) s) s' /\ same_ctl s s' /\ k_critical_count s' = k_critical_count s) s.
Proof.
  intros Hcc Ho Hr. unfold isix_task_ref. wp_step. apply wp_task_or_current. set (t := named s task) in *.
  wp_step. apply wp_enter_critical; [done|]. wp_step. eapply wp_task_get; [exact Ho|].
  rewrite (proj2 (Z.leb_gt _ _)) by done. do 2 wp_step. eapply wp_task_upd; [exact Ho|]. do 2 wp_step.
  apply wp_exit_critical; [simpl; lia|]. wp_step. split_and!; done || (simpl; lia).
Qed.

(** No reference can be taken any more, or none is left to give back. *)
Lemma task_ref_refused task o s :
  0 <= k_critical_count s -> k_tasks s !! named s task = Some o -> OSREF_T_MAX <= t_refcnt o ->
  wp (isix_task_ref task) (fun r s' => r = ISIX_EINVARG /\ same_clock s s' /\ same_ctl s s' /\
    k_critical_count s' = k_critical_count s) s.
Proof.
  intros Hcc Ho Hr. unfold isix_task_ref. wp_step. apply wp_task_or_current.
  wp_step. apply wp_enter_critical; [done|]. wp_step. eapply wp_task_get; [exact Ho|].
  rewrite (proj2 (Z.leb_le _ _)) by done. do 3 wp_step.
  apply wp_exit_critical; [simpl; lia|]. wp_step. split_and!; done || (simpl; lia).
Qed.

Lemma task_unref_refused task o s :
  0 <= k_critical_count s -> k_tasks s !! named s task = Some o -> t_refcnt o < 1 ->
  wp (isix_task_unref task) (fun r s' => r = ISIX_EINVARG /\ same_clock s s' /\ same_ctl s s' /\
    k_critical_count s' = k_critical_count s) s.
Proof.
  intros Hcc Ho Hr. unfold isix_task_unref. wp_step. apply wp_task_or_current.
  wp_step. apply wp_enter_critical; [done|]. wp_step. eapply wp_task_get; [exact Ho|].
  rewrite (proj2 (Z.ltb_lt _ _)) by done. wp_step.
  apply wp_exit_critical; [simpl; lia|]. wp_step. split_and!; done || (simpl; lia).
Qed.

(** A reference is given back that is not the last one to a task that is gone. *)
Lemma task_unref_spec task o s :
  0 <= k_critical_count s -> k_tasks s !! named s task = Some o -> 1 <= t_refcnt o ->
  ~ (t_refcnt o = 1 /\ t_state o = OSTHR_STATE_EXITED) ->
  wp (isix_task_unref task) (fun r s' => r = ISIX_EOK /\
    same_clock (with_refs (named s task) o (t_refcnt o - 1) s) s' /\ same_ctl s s' /\ k_critical_count s' = k_critical_count s) s.
Proof.
  intros Hcc Ho Hr Hl. unfold isix_task_unref. wp_step. apply wp_task_or_current. set (t := named s task) in *.
  wp_step. apply wp_enter_critical; [done|]. wp_step. eapply wp_task_get; [exact Ho|].
  rewrite (proj2 (Z.ltb_ge _ _)) by done. wp_step. eapply wp_task_upd; [exact Ho|]. cbv zeta.
  assert ((t_refcnt o - 1 =? 0) && bool_decide (t_state o = OSTHR_STATE_EXITED) = false) as ->.
  { destruct (Z.eqb_spec (t_refcnt o - 1) 0); [|done]. apply bool_decide_eq_false. intros E. apply Hl. split; [lia|done]. }
  wp_step. apply wp_exit_critical; [simpl; lia|]. wp_step. cbv [when]. do 2 wp_step. split_and!; done || (simpl; lia).
Qed.

Lemma free_task_spec t (Q : unit -> kstate HS -> Prop) s :
  may_allocate s -> (forall m, Q tt (retired t (with_heap (heap_free t (k_heap s)) m s))) -> wp (free_task t) Q s.
Proof. intros Hall HQ. unfold free_task. wp_step. apply isix_free_spec; [done|]. intros m. do 5 wp_step. apply HQ. Qed.

(** A task that is gone and has no reference any more. *)
Lemma free_gone_task t o1 s s1 :
  sched_inv s1 -> mtx_inv s1 -> (forall x, remaining s1 x = remaining s x) -> may_allocate s1 ->
  k_tasks s1 = <[t := o1]> (k_tasks s) -> t_state o1 = OSTHR_STATE_EXITED -> k_q s1 = k_q s ->
  k_q s !! QExit t = Some [] -> k_ml s !! t = Some [] ->
  same_core s s1 -> k_critical_count s1 = k_critical_count s -> k_heap s1 = k_heap s -> k_ml s1 = k_ml s ->
  k_mtxs s1 = k_mtxs s ->
  wp (free_task t) (fun _ s' => sched_inv s' /\ mtx_inv s' /\ same_core s s' /\
    k_critical_count s' = k_critical_count s /\ k_mtxs s' = k_mtxs s /\
    k_tasks s' = delete t (k_tasks s) /\ k_q s' = delete (QExit t) (k_q s) /\ k_ml s' = delete t (k_ml s) /\
    k_heap s' = heap_free t (k_heap s) /\ (forall x, remaining s' x = remaining s x)) s1.
Proof.
  intros Hi1 Hm1 Hrem Hall1 Ets Hst1 Eq Hex Hml Hrun Ecc Eh Eml Em. apply free_task_spec; [done|]. intros m.
  assert (k_tasks s1 !! t = Some o1) as Ho1 by (by rewrite Ets, lookup_insert_eq).
  destruct (retired_inv t o1 s1) as (Hi3 & Hm3 & Hrem3); rewrite ?Hst1, ?Eq, ?Eml; try done.
  destruct (same_clock_inv (retired t s1) (retired t (with_heap (heap_free t (k_heap s1)) m s1))) as [Hi4 Hrem4]; [done|done|].
  split_and!; try done; simpl; rewrite ?Ets, ?Eq, ?Eml, ?Eh; try done; [apply delete_insert_eq|].
  intros x. rewrite <- Hrem, <- Hrem3. apply Hrem4.
Qed.

(** The last reference to a task that is gone: its control block goes, too. *)
Lemma task_unref_last t o s :
  sched_inv s -> mtx_inv s -> may_allocate s -> k_tasks s !! t = Some o -> t <> NULL -> t_refcnt o = 1 ->
  t_state o = OSTHR_STATE_EXITED -> k_q s !! QExit t = Some [] -> k_ml s !! t = Some [] ->
  wp (isix_task_unref t) (fun r s' => r = ISIX_EOK /\ sched_inv s' /\ mtx_inv s' /\ same_core s s' /\
    k_critical_count s' = k_critical_count s /\ k_mtxs s' = k_mtxs s /\
    k_tasks s' = delete t (k_tasks s) /\ k_q s' = delete (QExit t) (k_q s) /\ k_ml s' = delete t (k_ml s) /\
    k_heap s' = heap_free t (k_heap s) /\ (forall x, remaining s' x = remaining s x)) s.
Proof.
  intros Hi Hm Hall Ho Hnull Hr Hst Hex Hml. unfold isix_task_unref. wp_step. apply wp_task_or_current.
  assert (named s t = t) as -> by (unfold named; by rewrite decide_False).
  wp_step. apply wp_enter_critical; [apply Hall|]. wp_step. eapply wp_task_get; [exact Ho|].
  rewrite (proj2 (Z.ltb_ge _ _)) by lia. wp_step. eapply wp_task_upd; [exact Ho|]. cbv zeta. rewrite bool_decide_eq_true_2, Hr by done.
  change (1 - 1 =? 0) with true. wp_step. apply wp_exit_critical; [simpl; destruct Hall as (_ & ? & _); lia|].
  set (o1 := set_t_refcnt _ o). match goal with |- wp _ _ ?x => set (s1 := x) end.
  destruct (set_refcnt_inv t o (1 - 1) s Hi Hm Ho) as (Hi0 & Hm1 & Hrem0).
  destruct (same_clock_inv (with_refs t o (1 - 1) s) s1) as [Hi1 Hrem1]; [done|done|].
  assert (k_critical_count s1 = k_critical_count s) as Ecc by (simpl; lia).
  assert (may_allocate s1) as Hall1 by (destruct Hall as (? & ? & ? & ?); split_and!; done || simpl; lia).
  cbn [andb]. wp_step. cbv [when]. eapply wp_mono; [apply (free_gone_task t o1 s s1); try done|].
  - intros [] s' H. by wp_step.
Qed.

End TaskLife.
