(* ===== verification/CondvarProofs.v ===== *)
(** * Condition variables

    [isix_condvar_wait], [_isixp_condvar_signal] and [_isixp_condvar_broadcast] of
    [condvar.c]: the wait releases the mutex and blocks in one critical section, a signal wakes
    the first waiter, a broadcast all of them. *)

From S2P Require Import Prelude.
From S2P Require Import DList.
From S2P Require Import Kernel.
From S2P Require Import Scheduler.
From S2P Require Import Events.
From S2P Require Import Semaphore.
From S2P Require Import Mutex.
From S2P Require Import Condvar.
From S2P Require Import SchedInv.
From S2P Require Import SchedCore.
From S2P Require Import SchedTime.
From S2P Require Import SchedSleep.
From S2P Require Import SchedWake.
From S2P Require Import WakeAll.
From S2P Require Import SemProofs.
From S2P Require Import MutexProofs.
From S2P Require Import MutexOwner.
From S2P Require Import UnlockAll.
From S2P Require Import KillProofs.
From stdpp Require Import base numbers gmap list sorting.
From Stdlib Require Import ZArith Lia.
Local Open Scope Z_scope.

Section CondvarProofs.
Context {HS : Type} {AL : Allocator HS}.
Implicit Types s : kstate HS.

(** ** isix_condvar_wait *)

(** The blocking part. *)
Lemma cond_block_spec {R} (k : K HS R) Q c l tout oc s :
  sched_inv s -> k_tasks s !! k_currp s = Some oc -> active (t_state oc) = true ->
  k_q s !! QCond c = Some l -> 0 <= tout < 2 ^ 32 ->
  (forall s', sched_inv s' /\
     k_q s' !! QCond c = Some (prio_insert (k_tasks s) (t_prio oc) (k_currp s) l) /\
     same_waiting_but (QCond c) s s' /\
     (exists o', k_tasks s' = <[k_currp s := o']> (k_tasks s) /\ t_state o' = OSTHR_STATE_WTCOND /\
        t_obj o' = c /\ t_prio o' = t_prio oc /\ t_real_prio o' = t_real_prio oc) /\
     (forall x, remaining s' x =
        if decide (x = k_currp s /\ tout <> ISIX_TIME_INFINITE) then Some tout else remaining s x) /\
     k_critical_count s' = k_critical_count s /\ same_ctl s s' -> wp k Q s') ->
  wp (_isixp_set_sleep_timeout OSTHR_STATE_WTCOND tout;;;
      cur <- gets k_currp;;
      _isixp_add_to_prio_queue (QCond c) cur;;;
      task_upd cur (set_t_obj c);;; k) Q s.
Proof.
  intros (Hok & Hsem & Ht) Hoc Ha Hl Htm HQ.
  wp_step. eapply wp_mono; [by apply (set_sleep_timeout_spec OSTHR_STATE_WTCOND tout oc s)|].
  intros [] s2 (Ht2 & (o2 & A) & Hrem2). destruct (sl_task _ _ _ _ _ A) as [j ->]. set (o2 := set_t_jiffies j _) in *.
  pose proof (sl_tasks _ _ _ _ _ A) as Ets. pose proof (sl_frame _ _ _ _ _ A) as Hf.
  wp_step. wp_step. rewrite <- (f_equal k_currp Hf : k_currp s = k_currp s2).
  eapply (add_to_prio_queue_obj _ _ (QCond c) (k_currp s) o2 l c s2);
    [exact (sl_inv _ _ _ _ _ A)|by rewrite Ets, lookup_insert_eq|by rewrite (sl_waiting _ _ _ _ _ A)|done|done|].
  assert (prio_insert (k_tasks s2) (t_prio o2) (k_currp s) l = prio_insert (k_tasks s) (t_prio oc) (k_currp s) l) as ->.
  { unfold prio_insert. apply insert_before_first_ext. intros y Hy. change (t_prio o2) with (t_prio oc).
    unfold prio_of. rewrite Ets, lookup_insert_ne; [done|]. intros <-.
    destruct (r_at _ _ _ _ _ Hok _ _ _ Hl Hy) as (oy & Hoy & Hst & _). simplify_eq. by rewrite Hst in Ha. }
  cbv zeta. set (s3 := upd_tasks _ _). intros Hok3. apply HQ.
  assert (k_tasks s3 = <[k_currp s := set_t_obj c o2]> (k_tasks s)) as Ets3 by (simpl; by rewrite Ets, insert_insert_eq).
  destruct (time_inv_same s2 s3 Ht2) as (Ht3 & _ & _ & Hrem3); [done|done|done| |].
  { intros x _ ox Hox. rewrite Ets in Hox. rewrite Ets3, lookup_insert. rewrite lookup_insert in Hox.
    case_decide; [|by exists ox]. exists (set_t_obj c o2). by simplify_eq. }
  assert (same_waiting_but (QCond c) s s3) as Hw.
  { intros h Hh Hr. simpl. rewrite lookup_insert_ne by congruence. by rewrite (sl_waiting _ _ _ _ _ A). }
  split_and!; [|apply lookup_insert_eq|exact Hw|by exists (set_t_obj c o2)| |exact (eq_sym (f_equal k_critical_count Hf))|
    exact (eq_sym (f_equal ctl Hf))].
  - split; [exact Hok3|split; [|done]]. unfold sems_ok. change (k_sems s3) with (k_sems s2). rewrite (sl_sems _ _ _ _ _ A).
    eapply sem_counts_frame; [exact Hsem|]. intros a. by apply Hw.
  - intros x. by rewrite Hrem3, Hrem2.
Qed.

(** A mutex after one unlock by its owner. *)
Definition once_unlocked (om : mtx) (l : list Z) : mtx :=
  if m_count om =? 1 then left_mutex om l else set_m_count (m_count om - 1) om.

(** The caller [oc] has unlocked [m] once. *)
Record let_go (m : Z) (om : mtx) (oc : task) (l : list Z) s s' : Prop := {
  lg_inv : sched_inv s';
  lg_mtx : mtx_inv s';
  lg_run : same_run s s';
  lg_count : k_critical_count s' = k_critical_count s;
  lg_mutex : k_mtxs s' = <[m := once_unlocked om l]> (k_mtxs s);
  lg_caller : exists oc', k_tasks s' !! k_currp s = Some oc' /\ active (t_state oc') = true /\
    t_real_prio oc' = t_real_prio oc;
  lg_tasks : forall x, x <> k_currp s -> option_Forall2 (fun a b => survives a b /\ t_prio b = t_prio a)
    (k_tasks s !! x) (k_tasks s' !! x);
  lg_waiting : same_waiting_but (QMtx m) s s';
  lg_list : is_Some (k_q s' !! QMtx m);
  lg_rest : forall x, remaining s' x = remaining s x
}.

Lemma let_go_same m om oc l s s' :
  sched_inv s -> k_tasks s !! k_currp s = Some oc -> active (t_state oc) = true -> k_q s !! QMtx m = Some l ->
  mtx_inv s' -> k_mtxs s' = <[m := once_unlocked om l]> (k_mtxs s) -> same_clock s s' -> same_run s s' ->
  k_critical_count s' = k_critical_count s -> let_go m om oc l s s'.
Proof.
  intros Hi Hoc Hac Hl Hm Em Hsc Hr Ecc. destruct (same_clock_inv s s' Hsc Hi) as [Hi' Hrem].
  destruct Hsc as (Ets & _ & Eq & _). split; try done.
  - exists oc. by rewrite Ets.
  - intros x _. rewrite Ets. destruct (k_tasks s !! x); by constructor.
  - intros h _ _. by rewrite Eq.
  - rewrite Eq, Hl. by eexists.
Qed.

Lemma mutex_unlock_once m om oc ms l s :
  task_context oc s -> mtx_inv s -> m <> NULL -> k_mtxs s !! m = Some om -> m_owner om = k_currp s ->
  k_q s !! QMtx m = Some l -> k_ml s !! k_currp s = Some ms ->
  wp (isix_mutex_unlock m) (fun r s' => r = ISIX_EOK /\ let_go m om oc l s s') s.
Proof.
  intros [Hi Hrun Hcc Hoc Hac] Hm Hm0 Hom Hown Hl Hms.
  assert (Hcur : k_currp s <> NULL) by (intros E; by rewrite E, (mo_null _ _ _ _ _ Hm) in Hoc).
  destruct (mo_held _ _ _ _ _ _ Hm Hom) as (l0 & k & Hl0 & Hc & _); [by rewrite Hown|].
  destruct (decide (m_count om = 1)) as [Hc1|Hc1].
  2: { eapply wp_mono; [eapply mutex_unlock_nested; try done; lia|]. intros r s' (-> & Hm' & Em & _ & Hsc & Hr & Ecc).
       split; [done|]. apply let_go_same; try done. rewrite Em. unfold once_unlocked.
       by rewrite (proj2 (Z.eqb_neq _ _)). }
  assert (once_unlocked om l = left_mutex om l) as Eo by (unfold once_unlocked; by rewrite Hc1).
  destruct l as [|t l].
  - eapply wp_mono; [by eapply mutex_unlock_free|]. intros r s' (-> & Hm' & Em & _ & Hsc & Hr & Ecc).
    split; [done|]. apply let_go_same; try done. by rewrite Eo, Em.
  - eapply wp_mono; [by eapply mutex_unlock_hands_over_spec|].
    intros r s' (-> & [Hi' Hm' Hr Ecc Em Hl' Hls _
      (ot & ot' & oc' & p & Hot & Ets & Hst & _ & Hp & Hrp & _ & _ & _ & Hrc & Hsc & _) Hrem]).
    assert (t <> k_currp s) as Htc.
    { intros ->. destruct (r_at _ _ _ _ _ (proj1 Hi) _ _ (k_currp s) Hl) as (o & Ho & Hat & _); [by left|].
      simplify_eq. by rewrite Hat in Hac. }
    split; [done|]. split; try done.
    + by rewrite Eo, Em.
    + exists oc'. rewrite Ets, lookup_insert_ne, lookup_insert_eq by done. by rewrite Hsc.
    + intros x Hx. rewrite Ets, !lookup_insert. rewrite (decide_False (P := k_currp s = x)) by done.
      case_decide as E; [subst x; rewrite Hot; constructor|by destruct (k_tasks s !! x); constructor].
      unfold survives. by rewrite Hst.
Qed.

(** The caller sleeps in the queue of the condition variable without the mutex. *)
Record cond_waits (c m : Z) (om : mtx) (oc : task) (lm lc : list Z) (timeout : Z) s s' : Prop := {
  cw_inv : sched_inv s';
  cw_mtx : mtx_inv s';
  cw_run : same_run s s';
  cw_count : k_critical_count s' = k_critical_count s;
  cw_mutex : k_mtxs s' = <[m := once_unlocked om lm]> (k_mtxs s);
  cw_caller : exists o', k_tasks s' !! k_currp s = Some o' /\ t_state o' = OSTHR_STATE_WTCOND /\ t_obj o' = c /\
    t_real_prio o' = t_real_prio oc /\
    k_q s' !! QCond c = Some (prio_insert (k_tasks s) (t_prio o') (k_currp s) lc);
  cw_tasks : forall x, x <> k_currp s -> option_Forall2 (fun a b => survives a b /\ t_prio b = t_prio a)
    (k_tasks s !! x) (k_tasks s' !! x);
  cw_lists : forall h, is_ready_head h = false -> h <> QMtx m -> h <> QCond c -> k_q s' !! h = k_q s !! h;
  cw_list : is_Some (k_q s' !! QMtx m);
  cw_rest : forall x, remaining s' x =
    if decide (x = k_currp s /\ timeout <> ISIX_TIME_INFINITE) then Some timeout else remaining s x;
  cw_yield : k_pendsv s' = true
}.

Lemma condvar_wait_spec c timeout m om oc ms lm lc s :
  task_context oc s -> mtx_inv s -> c <> NULL -> 0 <= timeout < ISIX_TIME_DONTWAIT ->
  k_ml s !! k_currp s = Some (m :: ms) -> k_mtxs s !! m = Some om -> m <> NULL ->
  k_q s !! QMtx m = Some lm -> k_q s !! QCond c = Some lc ->
  wp (isix_condvar_wait c timeout) (fun r s' => r = (Blocked, m) /\ cond_waits c m om oc lm lc timeout s s') s.
Proof.
  intros [Hi Hrun Hcc Hoc Hac] Hm Hc Htm Hms Hom Hm0 Hlm Hlc. unfold isix_condvar_wait, ISIX_TIME_DONTWAIT in *.
  rewrite (proj2 (Z.eqb_neq c _)), (proj2 (Z.eqb_neq timeout _)) by (done || lia).
  destruct (mo_owned _ _ _ _ _ Hm _ _ m Hms) as (om' & Hom' & Hown); [by left|]. assert (om' = om) as -> by congruence.
  wp_step. apply wp_enter_critical; [done|]. set (s0 := upd_critical_count _ _).
  destruct (same_clock_inv s s0) as [Hi0 Hrem0]; [done|done|].
  wp_step. unfold _isixp_get_top_currt_mutex. do 2 wp_step. wp_step. eapply wp_ml_list; [exact Hms|]. wp_step.
  wp_step. eapply wp_mono; [apply (mutex_unlock_once m om oc (m :: ms) lm s0); try done; [split; try done; simpl; lia]|].
  intros r s1 [-> [Hi1 Hm1 Hr1 Ecc1 Em1 (oc1 & Hoc1 & Ha1 & Hrp1) Hts1 Hw1 Hl1 Hrem1]].
  pose proof (same_run_elim _ _ Hr1) as (Ec1 & Er1 & _). change (k_currp s0) with (k_currp s) in *.
  change (k_critical_count s0) with (k_critical_count s + 1) in Ecc1.
  change (negb (ISIX_EOK =? 0)) with false. cbv iota.
  eapply (cond_block_spec _ _ c lc timeout oc1 s1); try done; [by rewrite Ec1|by rewrite Hw1|lia|].
  intros s2 (Hi2 & Hl2 & Hw2 & (o' & Ets & Hst & Hob & Hp & Hrp) & Hrem2 & Ecc2 & Hctl).
  pose proof (same_ctl_elim _ _ Hctl) as (Ec2 & Er2 & El2 & Em2 & Eml2 & Ee2). rewrite Ec1 in *.
  wp_step. apply wp_exit_critical; [lia|]. apply wp_yield_blocked; [change (k_schrun s2 = true); by rewrite Er2, Er1|].
  match goal with |- _ /\ cond_waits _ _ _ _ _ _ _ _ ?x => set (s3 := x) end.
  destruct (same_clock_inv s2 s3) as [Hi3 Hrem3]; [done|done|].
  assert (Hother : forall x, x <> k_currp s -> k_tasks s3 !! x = k_tasks s1 !! x) by (intros x Hx; simpl; by rewrite Ets, lookup_insert_ne).
  split; [done|]. split.
  - exact Hi3.
  - unfold mtx_inv. change (mtxs_ok None (k_tasks s2) (k_mtxs s2) (k_ml s2) (k_q s2)). rewrite Em2, Eml2.
    eapply mtxs_ok_permuted; [exact Hm1| |].
    + intros x. rewrite Ets. destruct (decide (x = k_currp s)) as [->|E]; [rewrite lookup_insert_eq, Hoc1; by constructor|rewrite lookup_insert_ne by done].
      by destruct (k_tasks s1 !! x); constructor.
    + intros m'. rewrite Hw2 by done. by destruct (k_q s1 !! QMtx m'); constructor.
  - pose proof (same_run_elim _ _ Hr1) as (? & ? & ? & ?). pose proof (same_run_debt _ _ Hr1). pose proof (same_ctl_debt _ _ Hctl).
    unfold same_run, run_ctl. f_equal; [unfold run_core; change (debt s3) with (debt s2); change (debt s0) with (debt s) in *; simpl in *; congruence|].
    transitivity (bystanders s1); [exact (same_ctl_bystanders _ _ Hctl)|exact (same_run_bystanders _ _ Hr1)].
  - simpl. lia.
  - change (k_mtxs s3) with (k_mtxs s2). by rewrite Em2.
  - exists o'. change (k_tasks s3) with (k_tasks s2). change (k_q s3) with (k_q s2). rewrite Ets, lookup_insert_eq.
    split_and!; [done|done|done|congruence|]. rewrite Hl2, Hp. f_equal. unfold prio_insert. apply insert_before_first_ext.
    intros y Hy. assert (y <> k_currp s) as Hyc.
    { intros ->. destruct (r_at _ _ _ _ _ (proj1 Hi) _ _ _ Hlc Hy) as (oy & Hoy & Hat & _). simplify_eq. by rewrite Hat in Hac. }
    f_equal. unfold prio_of. pose proof (Hts1 y Hyc) as Hy1. change (k_tasks s0 !! y) with (k_tasks s !! y) in Hy1. destruct Hy1 as [a b [_ E]|]; [by rewrite E|done].
  - intros x Hx. rewrite Hother by done. by apply Hts1.
  - intros h Hh Hne1 Hne2. change (k_q s3) with (k_q s2). rewrite Hw2 by done. by rewrite Hw1.
  - change (k_q s3) with (k_q s2). by rewrite Hw2.
  - intros x. rewrite Hrem3, Hrem2, Hrem1, Hrem0. done.
  - done.
Qed.

(** Nothing happens without a mutex, or when the caller must not wait. *)
Lemma condvar_wait_refused c timeout ml s :
  0 <= k_critical_count s -> k_ml s !! k_currp s = Some ml -> default NULL (head ml) = NULL \/ timeout = ISIX_TIME_DONTWAIT ->
  wp (isix_condvar_wait c timeout) (fun r s' => fst r = Done ISIX_EINVARG /\ same_clock s s' /\ same_ctl s s' /\
    k_critical_count s' = k_critical_count s) s.
Proof.
  intros Hcc Hml Hn. unfold isix_condvar_wait. destruct (c =? NULL); [by wp_step|].
  destruct (Z.eqb_spec timeout ISIX_TIME_DONTWAIT) as [_|Ht]; [by wp_step|]. destruct Hn as [Hn|]; [|done].
  wp_step. apply wp_enter_critical; [done|]. wp_step. unfold _isixp_get_top_currt_mutex. do 2 wp_step. wp_step.
  eapply wp_ml_list; [exact Hml|]. wp_step.
  assert (match ml with [] => NULL | m :: _ => m end = NULL) as -> by (by destruct ml).
  wp_step. unfold isix_mutex_unlock. change (NULL =? NULL) with true. cbv iota. wp_step.
  change (negb (ISIX_EINVARG =? 0)) with true. cbv iota. wp_step. apply wp_exit_critical; [simpl; lia|]. wp_step.
  split_and!; [done|done|done|simpl; lia].
Qed.

(** C17: Waiting for a condition variable gives up the mutex at the head of the list of the
    caller's mutexes and puts the caller to sleep: afterwards the mutex is free or belongs to its
    first waiter - when it was locked once: a recursive lock is only undone once -, the caller is
    in the queue of the condition variable at the place of its priority, the clock wakes it after
    [timeout] ticks, no other task loses its priority, and the invariants hold.  (A call up to the
    point where it gives up the processor is one step of the model.) *)
Theorem condvar_wait_releases c timeout m om oc ms lm lc s :
  task_context oc s -> mtx_inv s -> c <> NULL -> 0 <= timeout < ISIX_TIME_DONTWAIT ->
  k_ml s !! k_currp s = Some (m :: ms) -> k_mtxs s !! m = Some om -> m <> NULL ->
  k_q s !! QMtx m = Some lm -> k_q s !! QCond c = Some lc ->
  wp (isix_condvar_wait c timeout) (fun r s' => r = (Blocked, m) /\ cond_waits c m om oc lm lc timeout s s') s.
Proof. apply condvar_wait_spec. Qed.

(** ** _isixp_condvar_signal *)

Lemma condvar_signal_empty c s :
  0 <= k_critical_count s -> c <> NULL -> k_q s !! QCond c = Some [] ->
  wp (_isixp_condvar_signal c false) (fun r s' => r = ISIX_EOK /\ same_clock s s' /\ same_ctl s s' /\
    k_critical_count s' = k_critical_count s) s.
Proof.
  intros Hcc Hc Hl. unfold _isixp_condvar_signal. rewrite (proj2 (Z.eqb_neq c _)) by done.
  wp_step. apply wp_enter_critical; [done|]. wp_step. eapply wp_q_list; [exact Hl|]. cbv iota beta.
  wp_step. apply wp_exit_critical; [simpl; lia|]. wp_step. split_and!; [done|done|done|simpl; lia].
Qed.

(** The first task of the queue is made ready. *)
Lemma condvar_signal_spec c t l oc s :
  task_context oc s -> mtx_inv s -> c <> NULL -> k_q s !! QCond c = Some (t :: l) ->
  wp (_isixp_condvar_signal c false) (fun r s' => r = ISIX_EOK /\ mtx_inv s' /\
    exists o, k_tasks s !! t = Some o /\ (forall x, x ∈ l -> t_prio o <= prio_of (k_tasks s) x) /\
      released (QCond c) t l o ISIX_EOK s s' /\ (t_prio o < t_prio oc -> k_pendsv s' = true)) s.
Proof.
  intros [Hi Hrun Hcc Hoc Hac] Hm Hc Hl. pose proof Hi as (Hok & Hsem & Ht).
  unfold _isixp_condvar_signal. rewrite (proj2 (Z.eqb_neq c _)) by done.
  wp_step. apply wp_enter_critical; [done|]. set (s0 := upd_critical_count _ _).
  destruct (same_clock_inv s s0) as [(Hok0 & Hsem0 & Ht0) Hrem0]; [done|done|].
  wp_step. eapply wp_q_list; [exact Hl|]. cbv iota beta.
  destruct (r_at _ _ _ _ _ Hok _ _ t Hl) as (o & Ho & Hst & Hob); [by left|].
  wp_step. wp_step. eapply (remove_from_prio_queue_spec (QCond c) t l s0); [done|exact Hl|done|].
  set (s1 := upd_q _ s0). intros Hok1. cbv beta. wp_step. eapply wp_task_get; [exact Ho|].
  rewrite bool_decide_eq_true_2 by done. cbn [negb].
  destruct (time_inv_frame s0 s1 Ht0) as (Ht1 & _ & _ & Hrem1); [done|done|done|done|].
  assert (sems_ok s1) as Hsem1.
  { eapply sem_counts_frame; [exact Hsem|]. intros a. simpl. by rewrite lookup_insert_ne. }
  assert (t <> k_currp s1) as Htc by (intros ->; change (k_tasks s !! k_currp s = Some o) in Ho; simplify_eq; by rewrite Hst in Hac).
  eapply wp_mono; [apply (isixp_wakeup_task_spec t o oc ISIX_EOK s1 Hok1 Hsem1 Ht1); try done; try (by rewrite Hst); simpl; lia|].
  intros [] s' (s2 & W & ->). wp_step. split; [done|].
  pose proof (wd_frame _ _ _ _ _ W) as Hf. destruct (wd_task _ _ _ _ _ W) as (e & Ets).
  destruct (same_clock_inv s2 _ (same_clock_yielded (t_prio o <? t_prio oc) s2) (wd_inv _ _ _ _ _ W)) as [Hi' Hrem'].
  assert (same_waiting_but (QCond c) s s2) as Hw.
  { intros h Hh Hr. rewrite (wd_waiting _ _ _ _ _ W) by done. simpl. by rewrite lookup_insert_ne. }
  split.
  - unfold mtx_inv. change (mtxs_ok None (k_tasks s2) (k_mtxs s2) (k_ml s2) (k_q s2)).
    rewrite <- (f_equal k_mtxs Hf : k_mtxs s1 = k_mtxs s2), <- (f_equal k_ml Hf : k_ml s1 = k_ml s2).
    eapply mtxs_ok_permuted; [exact Hm| |].
    + intros x. rewrite Ets, lookup_insert. case_decide as E; [subst x; rewrite Ho; by constructor|].
      change (k_tasks s1) with (k_tasks s). by destruct (k_tasks s !! x); constructor.
    + intros m. rewrite Hw by done. by destruct (k_q s !! QMtx m); constructor.
  - exists o. split; [done|]. split; [|split].
    + intros x Hx. pose proof (first_waiter_highest (QCond c) t l s x Hok eq_refl Hl Hx) as Hle.
      unfold prio_of at 1 in Hle. by rewrite Ho in Hle.
    + split.
      * exact Hi'.
      * split_and!; [exact (eq_sym (f_equal ctl Hf))| |exact (eq_sym (f_equal k_sems Hf))].
        simpl. rewrite <- (f_equal k_critical_count Hf : k_critical_count s + 1 = k_critical_count s2). lia.
      * by exists e.
      * intros x. by rewrite Hrem', (wd_rest _ _ _ _ _ W), Hrem1, Hrem0.
      * change (k_q s2 !! QCond c = Some l). rewrite (wd_waiting _ _ _ _ _ W) by done. apply lookup_insert_eq.
      * exact Hw.
    + intros Hlt. simpl. by rewrite (proj2 (Z.ltb_lt _ _)).
Qed.

(** ** _isixp_condvar_broadcast *)

(** [while( (t=_isixp_remove_from_prio_queue(...)) ) _isixp_wakeup_task_l( t, msg );] *)
Lemma drain_wake_spec h msg : forall l fuel w s,
  sched_inv s -> k_q s !! h = Some l -> waiters_head h = true -> (length l < fuel)%nat ->
  wp (drain_queue fuel h (fun wkup_task t => _isixp_wakeup_task_l t msg;;; ret (if wkup_task =? NULL then t else wkup_task)) w)
    (fun r s' => woken_from h msg l [] s s' /\ r = if w =? NULL then default NULL (head l) else w) s.
Proof.
  induction l as [|t l IH]; intros [|fuel] w s Hi Hl Hh Hlen; simpl in Hlen; try lia; cbn [drain_queue].
  - wp_step. eapply remove_from_empty_queue; [exact Hl|]. change (NULL =? NULL) with true. cbv iota. wp_step.
    split; [by apply woken_from_nil|]. by destruct (Z.eqb_spec w NULL).
  - pose proof Hi as (Hok & Hsem & Ht). assert (is_ready_head h = false) as Hr by (by destruct h).
    destruct (r_at _ _ _ _ _ Hok _ _ t Hl) as (o & Ho & Hat); [by left|].
    assert (t <> NULL) as Hnull by (intros ->; rewrite (r_null _ _ _ _ _ Hok) in Ho; done).
    wp_step. eapply (remove_from_prio_queue_spec h t l s); [done|exact Hl|done|]. set (s1 := upd_q _ s). intros Hok1.
    rewrite (proj2 (Z.eqb_neq t NULL)) by done. wp_step. unfold _isixp_wakeup_task_l at 1. wp_step.
    destruct (time_inv_frame s s1 Ht) as (Ht1 & _ & _ & _); try done.
    assert (sems_ok s1) as Hsem1.
    { eapply sem_counts_frame; [exact Hsem|]. intros a. simpl. rewrite lookup_insert_ne; [done|]. by intros ->. }
    eapply wp_mono; [apply (wakeup_task_spec t o msg s1 Hok1 Hsem1 Ht1 Ho)|].
    { intros E. destruct h; try done; simpl in Hat; destruct_and?; congruence. }
    { intros E. destruct h; try done; simpl in Hat; destruct_and?; congruence. }
    intros [] s2 W. wp_step.
    assert (released h t l o msg s s2) as R.
    { eapply (released_waked h t _ o msg s s1); try done; [by destruct s|apply lookup_insert_eq|].
      intros h' Hne _. simpl. by rewrite lookup_insert_ne. }
    assert (NoDup (t :: l)) as [Hnt _]%NoDup_cons by (by eapply (r_qwf _ _ _ _ _ Hok)).
    eapply wp_mono; [apply (IH fuel _ s2 (rl_inv _ _ _ _ _ _ _ R) (rl_list _ _ _ _ _ _ _ R) Hh); lia|].
    intros r s' [Wf ->]. split; [by eapply woken_from_cons|]. simpl.
    destruct (Z.eqb_spec w NULL) as [_|Hw]; [by rewrite (proj2 (Z.eqb_neq t NULL))|by rewrite (proj2 (Z.eqb_neq w NULL))].
Qed.

(** Masks and pending switches do not matter. *)
Lemma woken_from_clock h msg ws l' s0 s s1 s' :
  same_clock s0 s -> same_ctl s0 s -> woken_from h msg ws l' s s1 -> same_clock s1 s' -> same_ctl s1 s' ->
  k_critical_count s' = k_critical_count s0 -> woken_from h msg ws l' s0 s'.
Proof.
  intros Hc0 Hl0 [Hi (F1 & _ & F3) Hl Hw Ho Hq] Hc1 Hl1 Ecc.
  destruct (same_clock_inv s1 s' Hc1 Hi) as [Hi' Hrem'].
  assert (forall x, remaining s x = remaining s0 x) as Hrem0.
  { destruct Hc0 as (E1 & _ & _ & _ & E5 & _ & E7 & E8 & _). intros x. unfold remaining, on_time_list, cur_list, ov_list.
    by rewrite E1, E5, E7, E8. }
  destruct Hc0 as (T0 & _ & Q0 & _ & _ & S0 & _). destruct Hc1 as (T1 & _ & Q1 & _ & _ & S1 & _).
  split; rewrite ?T1, ?Q1, <- ?T0; try done.
  - split_and!; [exact (eq_trans Hl1 (eq_trans F1 Hl0))|done|congruence].
  - intros t Ht. rewrite Hrem'. by apply Hw.
  - intros t Ht. rewrite Hrem', <- Hrem0. by apply Ho.
  - intros h' Hh Hr. rewrite Q1, <- Q0. by apply Hq.
Qed.

Lemma condvar_broadcast_spec c l oc s :
  task_context oc s -> mtx_inv s -> c <> NULL -> k_q s !! QCond c = Some l ->
  wp (_isixp_condvar_broadcast c false) (fun r s' => r = ISIX_EOK /\ mtx_inv s' /\
    woken_from (QCond c) ISIX_EOK l [] s s' /\
    (forall t x, head l = Some t -> x ∈ l -> prio_of (k_tasks s) t <= prio_of (k_tasks s) x) /\
    (forall t, t ∈ l -> prio_of (k_tasks s) t < t_prio oc -> k_pendsv s' = true)) s.
Proof.
  intros [Hi Hrun Hcc Hoc Hac] Hm Hc Hl. pose proof Hi as (Hok & _).
  unfold _isixp_condvar_broadcast, condvar_broadcast_msg. rewrite (proj2 (Z.eqb_neq c _)) by done.
  wp_step. wp_step. apply wp_enter_critical; [done|]. set (s0 := upd_critical_count _ _).
  destruct (same_clock_inv s s0) as [Hi0 _]; [done|done|].
  unfold wakeup_queue, drain. wp_step. wp_step. eapply wp_q_list; [exact Hl|].
  eapply wp_mono; [apply (drain_wake_spec (QCond c) ISIX_EOK l (S (length l)) NULL s0 Hi0 Hl eq_refl); lia|].
  intros w s1 [W ->]. change (NULL =? NULL) with true. cbv iota.
  destruct (ew_frame _ _ _ _ _ _ W) as (Hctl & Ecc & _). pose proof (same_ctl_elim _ _ Hctl) as (Ec & Er & _).
  change (k_critical_count s0) with (k_critical_count s + 1) in Ecc.
  assert (mtx_inv s1) as Hm1 by (by eapply (woken_from_mtx (QCond c) _ l [] s0)).
  assert (forall s2, same_clock s1 s2 -> same_ctl s1 s2 -> k_critical_count s2 = k_critical_count s ->
    mtx_inv s2 /\ woken_from (QCond c) ISIX_EOK l [] s s2) as Hfin.
  { intros s2 Hc2 Hl2 Ecc2. split; [|by apply (woken_from_clock _ _ _ _ s s0 s1 s2)].
    pose proof (same_ctl_elim _ _ Hl2) as (_ & _ & _ & Em & Eml & _). destruct Hc2 as (T & _ & Q & _).
    unfold mtx_inv. by rewrite T, Q, Em, Eml. }
  assert (forall t x, head l = Some t -> x ∈ l -> prio_of (k_tasks s) t <= prio_of (k_tasks s) x) as Hfirst.
  { intros t x Ht Hx. destruct l as [|t' l]; simplify_eq/=. apply elem_of_cons in Hx as [->|Hx]; [lia|].
    by apply (first_waiter_highest (QCond c) t l s x Hok eq_refl Hl Hx). }
  destruct l as [|t l]; simpl default.
  - change (negb (NULL =? NULL) && negb false) with false. cbv iota. unfold _isixp_exit_critical_isr.
    change (negb (NULL =? NULL)) with false. do 4 wp_step. apply wp_exit_critical; [lia|].
    wp_step. wp_step. wp_step. wp_step. cbn [andb]. wp_step. wp_step.
    split; [done|]. match goal with |- mtx_inv ?x /\ _ => destruct (Hfin x) as [? ?]; [done|done|simpl; lia|] end.
    split_and!; [done|done|exact Hfirst|by intros t ?%not_elem_of_nil].
  - destruct (ew_woken _ _ _ _ _ _ W t) as (o0 & o & Ho0 & Ho & _ & _ & _ & Hp & _); [left|].
    change (k_tasks s0 !! t) with (k_tasks s !! t) in Ho0.
    assert (t <> NULL) as Hn by (intros ->; by rewrite (r_null _ _ _ _ _ Hok) in Ho0).
    rewrite (proj2 (Z.eqb_neq t NULL)) by done. cbn [negb andb]. cbv iota.
    assert (k_currp s ∉ t :: l) as Hnc.
    { intros Hin. destruct (r_at _ _ _ _ _ Hok _ _ _ Hl Hin) as (oy & Hoy & Hat & _). simplify_eq. by rewrite Hat in Hac. }
    eapply (do_reschedule_spec t o oc); [done|by rewrite Er|lia|exact Ho|rewrite Ec; change (k_currp s0) with (k_currp s); by rewrite (proj1 (ew_other _ _ _ _ _ _ W _ Hnc))|].
    wp_step. split; [done|]. match goal with |- mtx_inv ?x /\ _ => destruct (Hfin x) as [? ?]; [done|done|simpl; lia|] end.
    split_and!; [done|done|exact Hfirst|]. intros x Hx Hlt. specialize (Hfirst t x eq_refl Hx).
    unfold prio_of in Hfirst at 1. rewrite Ho0 in Hfirst. simpl. rewrite (proj2 (Z.ltb_lt _ _)); [done|lia].
Qed.

(** C18: A broadcast wakes every task of the queue of the condition variable with [ISIX_EOK] and
    no other: all of them are ready with their priorities, the queue is empty, the mutexes are
    untouched, and a switch is requested when one of them has a higher priority than the
    caller. *)
Theorem condvar_broadcast_wakes_all c l oc s :
  task_context oc s -> mtx_inv s -> c <> NULL -> k_q s !! QCond c = Some l ->
  wp (_isixp_condvar_broadcast c false) (fun r s' => r = ISIX_EOK /\ mtx_inv s' /\
    woken_from (QCond c) ISIX_EOK l [] s s' /\
    (forall t, t ∈ l -> prio_of (k_tasks s) t < t_prio oc -> k_pendsv s' = true)) s.
Proof.
  intros Hctx Hm Hc Hl. eapply wp_mono; [by eapply condvar_broadcast_spec|]. intros r s' (? & ? & ? & _ & ?). done.
Qed.

End CondvarProofs.
