(* ===== verification/KernelInv.v ===== *)
(** * The invariant of the kernel

    What holds between any two steps of the kernel: the invariants of the ready lists, the wait
    lists, the semaphores, the mutexes and the clock, the list heads that must exist, and what is
    known about tasks that have ended.  The lemmas of this file derive it for the state after an
    operation from what the theorem about the operation says. *)

From S2P Require Import Prelude.
From S2P Require Import DList.
From S2P Require Import Kernel.
From S2P Require Import Scheduler.
From S2P Require Import Events.
From S2P Require Import Semaphore.
From S2P Require Import SchedInv.
From S2P Require Import SchedCore.
From S2P Require Import SchedTime.
From S2P Require Import SchedSleep.
From S2P Require Import SemProofs.
From S2P Require Import MutexProofs.
From S2P Require Import MutexOwner.
From S2P Require Import SuspendProofs.
From S2P Require Import Alloc.
From stdpp Require Import base numbers gmap list sorting.
From Stdlib Require Import ZArith Lia.
Local Open Scope Z_scope.

Section KernelInv.
Context {HS : Type} {AL : Allocator HS}.
Implicit Types s : kstate HS.

(** The idle task, which never blocks. *)
Context (idle : Z).

(** A task other than the idle task runs: it has not blocked since it was switched to. *)
Definition user_runs s : Prop :=
  k_currp s <> idle /\ exists o, k_tasks s !! k_currp s = Some o /\ active (t_state o) = true.

(** The address is that of a semaphore. *)
Definition is_sem s (a : Z) : Prop := a <> NULL /\ is_Some (sem_view s a).

(** The address is that of an event. *)
Definition is_evt s (e : Z) : Prop := e <> NULL /\ is_Some (k_evs s !! e).

(** The address is that of a condition variable. *)
Definition is_cond s (c : Z) : Prop := c <> NULL /\ is_Some (k_q s !! QCond c).

(** ** Invariant *)

(** Every event has a wait list, every task a list of the tasks that wait for its end. *)
Record heads_ok s : Prop := {
  hd_evt : forall e, is_Some (k_evs s !! e) -> is_Some (k_q s !! QEvt e);
  hd_exit : forall t, is_Some (k_tasks s !! t) -> is_Some (k_q s !! QExit t)
}.

(** The task exists and has not ended. *)
Definition alive s (t : Z) : Prop := exists o, k_tasks s !! t = Some o /\ ended_state (t_state o) = false.

(** The dead tasks are counted; nobody waits for the end of a task that has ended, and it owns
    no mutex. *)
Record graves_ok s : Prop := {
  gv_dead : exists zs, k_q s !! QZombie = Some zs /\ k_ndeleted s = Z.of_nat (length zs);
  gv_exit : forall t o, k_tasks s !! t = Some o -> ended_state (t_state o) = true -> k_q s !! QExit t = Some [];
  gv_owner : forall m o, k_mtxs s !! m = Some o -> m_owner o = NULL \/ alive s (m_owner o)
}.

(** No interrupt is served, and nothing was put off. *)
Definition quiet s : Prop := k_in_isr s = false /\ k_jiffies_skipped s = 0 /\ k_yield_pending s = false.

Record kernel_ok s : Prop := {
  ko_inv : sched_inv s;
  ko_mtx : mtx_inv s;
  ko_heads : heads_ok s;
  ko_graves : graves_ok s;
  ko_run : run_inv s;
  ko_curr : is_Some (k_tasks s !! k_currp s);
  ko_idle : exists o, k_tasks s !! idle = Some o /\ active (t_state o) = true;
  ko_schrun : k_schrun s = true;
  ko_count : k_critical_count s = 0;
  ko_lock : k_sched_lock s = 0;
  ko_quiet : quiet s;
  ko_size : Z.of_nat (size (k_tasks s)) < 2 ^ 31
}.

(** The allocator may be called. *)
Lemma kernel_ok_allocates s : kernel_ok s -> may_allocate s.
Proof. intros [_ _ _ _ _ _ _ _ Hc Hl (H1 & H2 & H3) _]. unfold may_allocate. rewrite Hc, Hl. split_and!; done || lia. Qed.

(** A task that has ended owns nothing. *)
Lemma grave_owned s t o :
  mtx_inv s -> graves_ok s -> k_tasks s !! t = Some o -> ended_state (t_state o) = true -> k_ml s !! t = Some [].
Proof.
  intros Hm Hg Ho He. destruct (proj2 (mo_dom _ _ _ _ _ Hm t) (mk_is_Some _ _ Ho)) as [k Hk]. rewrite Hk.
  destruct k as [|m k]; [done|exfalso]. destruct (mo_owned _ _ _ _ _ Hm t (m :: k) m Hk) as (om & Hom & Hown); [by left|].
  destruct (gv_owner _ Hg m om Hom) as [E|(o' & Ho' & He')]; [|congruence].
  rewrite Hown in E. rewrite E, (mo_null _ _ _ _ _ Hm) in Ho. done.
Qed.

(** ** Operations that keep it *)

(** The task does not start to run, and the idle task stays ready. *)
Definition settled_task (t : Z) (o o' : task) : Prop :=
  (t_state o' = OSTHR_STATE_RUNNING -> t_state o = OSTHR_STATE_RUNNING) /\
  (t = idle -> active (t_state o) = true -> active (t_state o') = true).

(** It does not end either. *)
Definition steady_task (t : Z) (o o' : task) : Prop :=
  tame (t_state o) (t_state o') = true /\
  (t = idle -> active (t_state o) = true -> active (t_state o') = true).

(** Its base priority is the same, too. *)
Definition calm_task (t : Z) (o o' : task) : Prop :=
  tame (t_state o) (t_state o') = true /\
  (t = idle -> active (t_state o) = true -> active (t_state o') = true) /\
  t_real_prio o' = t_real_prio o.

(** The tasks are the same ones. *)
Definition settled s s' : Prop := forall t, option_Forall2 (settled_task t) (k_tasks s !! t) (k_tasks s' !! t).
Definition steady s s' : Prop := forall t, option_Forall2 (steady_task t) (k_tasks s !! t) (k_tasks s' !! t).
Definition calm s s' : Prop := forall t, option_Forall2 (calm_task t) (k_tasks s !! t) (k_tasks s' !! t).

Lemma calm_task_refl t o : calm_task t o o.
Proof. done. Qed.

Lemma calm_same s s' t : k_tasks s' !! t = k_tasks s !! t ->
  option_Forall2 (calm_task t) (k_tasks s !! t) (k_tasks s' !! t).
Proof. intros ->. by destruct (k_tasks s !! t); constructor. Qed.

Lemma same_tasks_calm s s' : k_tasks s' = k_tasks s -> calm s s'.
Proof. intros E t. apply calm_same. by rewrite E. Qed.

Lemma calm_steady s s' : calm s s' -> steady s s'.
Proof. intros Hc t. destruct (Hc t) as [o o' (Ht & ? & _)|]; by constructor. Qed.

Lemma steady_settled s s' : steady s s' -> settled s s'.
Proof. intros Hc t. destruct (Hc t) as [o o' (Ht & ?)|]; constructor. split; [by apply tame_running|done]. Qed.

Lemma settled_dom s s' : settled s s' -> dom (k_tasks s') = dom (k_tasks s).
Proof.
  intros Hc. apply set_eq. intros t. rewrite !elem_of_dom. specialize (Hc t).
  inversion Hc; split; intros [? [=]]; eauto.
Qed.

Lemma calm_insert s s' t o o' :
  k_tasks s !! t = Some o -> k_tasks s' = <[t := o']> (k_tasks s) -> tame (t_state o) (t_state o') = true ->
  t_real_prio o' = t_real_prio o -> (t <> idle \/ active (t_state o') = true) -> calm s s'.
Proof.
  intros Ho Ets Hnr Hrp Hid x. rewrite Ets, lookup_insert. case_decide as Hx.
  - subst x. rewrite Ho. constructor. split_and!; [done| |done]. intros ->. by destruct Hid.
  - by destruct (k_tasks s !! x); constructor.
Qed.

(** No list head goes away, no event appears, no task joins the dead or waits for one of them. *)
Record heads_kept s s' : Prop := {
  hk_heads : forall h, is_ready_head h = false -> is_Some (k_q s !! h) -> is_Some (k_q s' !! h);
  hk_evs : forall e, is_Some (k_evs s' !! e) -> is_Some (k_evs s !! e);
  hk_zombies : option_Forall2 (fun l l' => length l' = length l) (k_q s !! QZombie) (k_q s' !! QZombie);
  hk_exit : forall t o, k_tasks s !! t = Some o -> ended_state (t_state o) = true ->
    k_q s !! QExit t = Some [] -> k_q s' !! QExit t = Some []
}.

(** The list is empty if it was, and as many tasks are dead. *)
Definition list_kept (h : qhead) (l l' : list Z) : Prop :=
  (l = [] -> l' = []) /\ (h = QZombie -> length l' = length l).

Lemma list_kept_permuted h l l' : l' ≡ₚ l -> list_kept h l l'.
Proof. intros Hp. split; [intros ->; by apply Permutation_nil_r|intros _; by apply Permutation_length]. Qed.

(** The lists [T] change, not those of dead tasks. *)
Lemma heads_kept_lists (T : qhead -> bool) s s' :
  (forall h, is_ready_head h = false -> T h = false -> option_Forall2 (list_kept h) (k_q s !! h) (k_q s' !! h)) ->
  (forall h, is_ready_head h = false -> T h = true -> is_Some (k_q s !! h) -> is_Some (k_q s' !! h)) ->
  T QZombie = false -> (forall t o, k_tasks s !! t = Some o -> ended_state (t_state o) = true -> T (QExit t) = false) ->
  (forall e, is_Some (k_evs s' !! e) -> is_Some (k_evs s !! e)) -> heads_kept s s'.
Proof.
  intros H1 H2 Hz Hx He. split; [|done| |].
  - intros h Hr Hs. destruct (T h) eqn:E; [by apply H2|]. specialize (H1 h Hr E). destruct Hs as [l Hl]. rewrite Hl in H1. by inversion H1.
  - destruct (H1 QZombie eq_refl Hz) as [l l' [_ Hlen]|]; constructor. by apply Hlen.
  - intros t o Ho Hend Hl. specialize (H1 (QExit t) eq_refl (Hx t o Ho Hend)). rewrite Hl in H1.
    inversion H1 as [? l' [E _]|]; subst. f_equal. by apply E.
Qed.

Lemma heads_kept_but (T : qhead -> bool) s s' :
  (forall h, is_ready_head h = false -> T h = false -> k_q s' !! h = k_q s !! h) ->
  (forall h, is_ready_head h = false -> T h = true -> is_Some (k_q s !! h) -> is_Some (k_q s' !! h)) ->
  T QZombie = false -> (forall t o, k_tasks s !! t = Some o -> ended_state (t_state o) = true -> T (QExit t) = false) ->
  (forall e, is_Some (k_evs s' !! e) -> is_Some (k_evs s !! e)) -> heads_kept s s'.
Proof.
  intros H1. apply heads_kept_lists. intros h Hr Ht. rewrite H1 by done. by destruct (k_q s !! h); constructor.
Qed.

(** A task that is not dead leaves its list. *)
Lemma heads_kept_left t o s s' :
  ready_inv None s -> k_tasks s !! t = Some o -> t_state o <> OSTHR_STATE_ZOMBIE -> left_lists t s s' ->
  (forall e, is_Some (k_evs s' !! e) -> is_Some (k_evs s !! e)) -> heads_kept s s'.
Proof.
  intros Hok Ho Hst Hl He. apply (heads_kept_lists (fun _ => false)); try done. intros h Hr _.
  pose proof (Hl h Hr) as Hlh. destruct (k_q s !! h) as [l|] eqn:E; inversion Hlh as [? l' Hp|]; subst; constructor. split.
  - intros ->. by apply Permutation_nil_r.
  - intros ->. apply Permutation_length. rewrite Hp, remove_node_notin; [done|]. intros Hin.
    destruct (r_at _ _ _ _ _ Hok _ _ t E Hin) as (o' & Ho' & Hat). congruence.
Qed.

Lemma heads_kept_reordered t s s' :
  reordered t s s' -> (forall e, is_Some (k_evs s' !! e) -> is_Some (k_evs s !! e)) -> heads_kept s s'.
Proof.
  intros Hl He. apply (heads_kept_lists (fun _ => false)); try done. intros h Hr _.
  destruct (Hl h Hr) as [l l' [Hp _]|]; constructor. by apply list_kept_permuted.
Qed.

(** Every mutex has the owner it had, or is free or owned by a task that has not ended. *)
Definition owners_kept s s' : Prop := forall m o', k_mtxs s' !! m = Some o' ->
  m_owner o' = NULL \/ alive s' (m_owner o') \/ exists o, k_mtxs s !! m = Some o /\ m_owner o = m_owner o'.

Lemma same_mtxs_owners s s' : k_mtxs s' = k_mtxs s -> owners_kept s s'.
Proof. intros E m o' Ho'. right. right. exists o'. by rewrite <- E. Qed.

Lemma insert_mtx_owners s s' m o o' :
  k_mtxs s' = <[m := o']> (k_mtxs s) -> k_mtxs s !! m = Some o ->
  m_owner o' = NULL \/ alive s' (m_owner o') \/ m_owner o' = m_owner o -> owners_kept s s'.
Proof.
  intros E Ho Hown x ox. rewrite E, lookup_insert. case_decide as Ex.
  - subst x. intros [= <-]. destruct Hown as [?|[?|E']]; [by left|by right; left|]. right. right. by exists o.
  - intros Hx. right. right. by exists ox.
Qed.

Lemma alive_steady s s' t : steady s s' -> alive s t -> alive s' t.
Proof.
  intros Hc (o & Ho & He). specialize (Hc t). rewrite Ho in Hc. inversion Hc as [? o' [Ht _] E1 E2|]; subst.
  exists o'. split; [done|]. destruct (ended_state (t_state o')) eqn:Ee; [|done]. by rewrite (tame_ended _ _ Ht Ee) in He.
Qed.

Lemma graves_kept s s' :
  graves_ok s -> steady s s' -> heads_kept s s' -> owners_kept s s' -> k_ndeleted s' = k_ndeleted s -> graves_ok s'.
Proof.
  intros [(zs & Hz & Hn) Hx Ho] Hc Hh Hw En. split.
  - pose proof (hk_zombies _ _ Hh) as Hl. rewrite Hz in Hl. inversion Hl as [? zs' Hlen E1 E2|]; subst.
    exists zs'. split; [done|]. by rewrite En, Hn, Hlen.
  - intros t o' Ho' He. specialize (Hc t). rewrite Ho' in Hc. inversion Hc as [o ? [Ht _] E1 E2|]; subst.
    pose proof (tame_ended _ _ Ht He). eapply (hk_exit _ _ Hh); [by symmetry|done|]. by eapply Hx.
  - intros m o' Ho'. destruct (Hw m o' Ho') as [?|[?|(o & Hom & E)]]; [by left|by right|].
    destruct (Ho m o Hom) as [E'|Ha]; [left; congruence|right]. rewrite <- E. by eapply alive_steady.
Qed.

Definition run_state s := (k_currp s, k_schrun s, k_sched_lock s, k_critical_count s).

Lemma kernel_ok_settled s s' :
  kernel_ok s -> sched_inv s' -> mtx_inv s' -> graves_ok s' -> quiet s' ->
  (forall h, is_ready_head h = false -> is_Some (k_q s !! h) -> is_Some (k_q s' !! h)) ->
  (forall e, is_Some (k_evs s' !! e) -> is_Some (k_evs s !! e)) -> settled s s' -> run_state s' = run_state s ->
  kernel_ok s'.
Proof.
  intros [Hi Hm He _ Hr [oc Hc] (oi & Hoi & Hai) Hrun Hcnt Hl _ Hsz] Hi' Hm' Hg' Hq' H1 H2 Hcalm [= Ec Er El Ecc].
  split; try congruence; try done.
  - destruct He as [He1 He2]. split; [by auto|].
    intros t Ht. apply H1; [done|]. apply He2. specialize (Hcalm t). destruct Ht as [o' Ho']. rewrite Ho' in Hcalm.
    inversion Hcalm; subst; eauto.
  - intros t o' Ho' Hst. rewrite Ec. specialize (Hcalm t). rewrite Ho' in Hcalm.
    inversion Hcalm as [o ? [Hn _] E|]; subst. eapply Hr; [symmetry; eassumption|by apply Hn].
  - rewrite Ec. specialize (Hcalm (k_currp s)). rewrite Hc in Hcalm. by inversion Hcalm.
  - specialize (Hcalm idle). rewrite Hoi in Hcalm. inversion Hcalm as [? o' (_ & Ha)|]; subst.
    exists o'. split; [done|by apply Ha].
  - rewrite <- size_dom, (settled_dom _ _ Hcalm), size_dom. done.
Qed.

Lemma quiet_debt s s' : quiet s -> debt s' = debt s -> quiet s'.
Proof. intros (H1 & H2 & H3) [= _ E2 E3 E1]. unfold quiet. by rewrite E1, E2, E3. Qed.

Lemma kernel_ok_steady s s' :
  kernel_ok s -> sched_inv s' -> mtx_inv s' -> heads_kept s s' -> owners_kept s s' -> steady s s' ->
  debt s' = debt s -> run_state s' = run_state s -> kernel_ok s'.
Proof.
  intros Hk Hi Hm Hh Ho Hc Hd Hr. eapply kernel_ok_settled; try done.
  - eapply graves_kept; try done; [by apply ko_graves|]. by injection Hd.
  - eapply quiet_debt; [by apply ko_quiet|done].
  - exact (hk_heads _ _ Hh).
  - exact (hk_evs _ _ Hh).
  - by apply steady_settled.
Qed.

Lemma kernel_ok_calm s s' :
  kernel_ok s -> sched_inv s' -> mtx_inv s' -> heads_kept s s' -> owners_kept s s' -> calm s s' ->
  debt s' = debt s -> run_state s' = run_state s -> kernel_ok s'.
Proof. intros Hk Hi Hm He Ho Hc%calm_steady. by apply kernel_ok_steady. Qed.

(** No mutex is touched. *)
Lemma mtx_inv_calm s s' :
  mtx_inv s -> calm s s' -> k_mtxs s' = k_mtxs s -> k_ml s' = k_ml s ->
  (forall m, k_q s' !! QMtx m = k_q s !! QMtx m) -> mtx_inv s'.
Proof.
  intros Hm Hc Em Eml Hq. unfold mtx_inv. rewrite Em, Eml. eapply mtxs_ok_permuted; [exact Hm| |].
  - intros t. destruct (Hc t) as [o o' (_ & _ & ?)|]; by constructor.
  - intros m. rewrite Hq. by destruct (k_q s !! QMtx m); constructor.
Qed.

(** The head of an object that is neither a mutex nor a task that has ended. *)
Definition object_head s (h : qhead) : Prop :=
  match h with QMtx _ | QZombie => False | QExit t => alive s t | _ => True end.

(** An operation on one object that is not a mutex. *)
Lemma kernel_ok_object h s s' :
  kernel_ok s -> sched_inv s' -> calm s s' -> ctl (upd_evs (fun _ => ∅) s') = ctl (upd_evs (fun _ => ∅) s) ->
  k_critical_count s' = k_critical_count s -> same_waiting_but h s s' ->
  object_head s h -> (is_ready_head h = false -> is_Some (k_q s' !! h)) ->
  (forall e, is_Some (k_evs s' !! e) -> is_Some (k_evs s !! e)) ->
  kernel_ok s'.
Proof.
  intros Hk Hi' Hc [= E1 E2 E3 E4 Ec Er El Em Eml] Ecc Hw Hh Hh' He.
  eapply kernel_ok_calm; [done|done| | |by apply same_mtxs_owners|done|unfold debt; congruence|unfold run_state; congruence].
  - eapply mtx_inv_calm; [by apply ko_mtx|done|done|done|]. intros m. apply Hw; [by intros <-|done].
  - apply (heads_kept_but (fun x => bool_decide (x = h))); try done.
    + intros x Hr Hx%bool_decide_eq_false. by apply Hw.
    + intros x Hr Hx%bool_decide_eq_true Hs. subst x. by apply Hh'.
    + apply bool_decide_eq_false. by intros <-.
    + intros t o Ho Hend. apply bool_decide_eq_false. intros <-. destruct Hh as (o' & Ho' & He'). congruence.
Qed.

Lemma kernel_ok_same_ctl h s s' :
  kernel_ok s -> sched_inv s' -> calm s s' -> same_ctl s s' -> k_critical_count s' = k_critical_count s ->
  same_waiting_but h s s' -> object_head s h -> (is_ready_head h = false -> is_Some (k_q s' !! h)) ->
  kernel_ok s'.
Proof.
  intros Hk Hi' Hc Hctl Ecc Hw Hh Hh'. pose proof (same_ctl_elim _ _ Hctl) as (E1 & E2 & E3 & E4 & E5 & E6).
  eapply (kernel_ok_object h); try done; [|by rewrite E6].
  pose proof (same_ctl_debt _ _ Hctl) as E0. pose proof (same_ctl_bystanders _ _ Hctl) as E7.
  change ((debt s', k_currp s', k_schrun s', k_sched_lock s', k_mtxs s', k_ml s', ∅ : gmap Z Z, bystanders s') = ctl (upd_evs (fun _ => ∅) s)).
  by rewrite E0, E1, E2, E3, E4, E5, E7.
Qed.

(** Nothing but the counters of critical sections and the masks moved. *)
Lemma kernel_ok_same_clock s s' :
  kernel_ok s -> same_clock s s' -> same_ctl s s' -> k_critical_count s' = k_critical_count s -> kernel_ok s'.
Proof.
  intros Hk Hsc Hctl Ecc. destruct (same_clock_inv s s' Hsc (ko_inv _ Hk)) as [Hi' _]. destruct Hsc as (Ets & _ & Eq & _).
  eapply (kernel_ok_same_ctl (QPrio 0)); try done; [by apply same_tasks_calm|]. intros h _ _. by rewrite Eq.
Qed.

(** A mutex changes hands without a task being woken or blocked. *)
Lemma kernel_ok_mtx s s' :
  kernel_ok s -> mtx_inv s' -> owners_kept s s' -> same_clock s s' -> same_core s s' -> k_critical_count s' = k_critical_count s ->
  kernel_ok s'.
Proof.
  intros Hk Hm' Ho Hsc Hr Ecc. destruct (same_clock_inv s s' Hsc (ko_inv _ Hk)) as [Hi' _].
  pose proof (same_core_elim _ _ Hr) as (E1 & E2 & E3 & E4). pose proof (same_core_debt _ _ Hr) as E0. destruct Hsc as (Ets & _ & Eq & _).
  eapply kernel_ok_calm; try done; [|by apply same_tasks_calm|unfold run_state; congruence].
  apply (heads_kept_but (fun _ => false)); try done; [intros h _ _; by rewrite Eq|by rewrite E4].
Qed.

Lemma user_context s : kernel_ok s -> user_runs s -> exists oc, task_context oc s /\ k_currp s <> idle.
Proof. intros [] [Hne (o & Ho & Hst)]. exists o. split; [|done]. split; try done; lia. Qed.

Lemma user_alive s : user_runs s -> alive s (k_currp s).
Proof. intros [_ (o & Ho & Hst)]. exists o. split; [done|by destruct (t_state o)]. Qed.

(** The running task changes one mutex, which is free then, or its own, or whose it was. *)
Lemma kernel_ok_one_mtx m o o' s s' :
  kernel_ok s -> user_runs s -> mtx_inv s' -> k_mtxs s !! m = Some o -> k_mtxs s' = <[m := o']> (k_mtxs s) ->
  m_owner o' = NULL \/ m_owner o' = k_currp s \/ m_owner o' = m_owner o ->
  same_clock s s' -> same_run s s' -> k_critical_count s' = k_critical_count s -> kernel_ok s'.
Proof.
  intros Hk Hu Hm' Ho E Hown Hsc Hr Ecc. eapply kernel_ok_mtx; try done; [|by apply same_run_core]. eapply insert_mtx_owners; [exact E|exact Ho|].
  destruct Hown as [?|[->|?]]; [by left|right; left|by right; right]. destruct Hsc as (Ets & _).
  destruct (user_alive s Hu) as (oc & Hoc & He). exists oc. by rewrite Ets.
Qed.

(** No list of tasks is longer than there are tasks. *)
Lemma list_bound h l s :
  ready_inv None s -> k_q s !! h = Some l -> Z.of_nat (length l) <= Z.of_nat (size (k_tasks s)).
Proof.
  intros Hok Hl. assert (NoDup l) as Hn by (by eapply (r_qwf _ _ _ _ _ Hok)).
  rewrite <- size_dom. rewrite <- (size_list_to_set (C := gset Z) l Hn).
  apply inj_le, subseteq_size. intros t Ht%elem_of_list_to_set.
  destruct (r_at _ _ _ _ _ Hok _ _ t Hl Ht) as (o & Ho & _). apply elem_of_dom. by exists o.
Qed.

End KernelInv.

#[global] Arguments ko_inv {_ _} _ _.
#[global] Arguments ko_mtx {_ _} _ _.
#[global] Arguments ko_heads {_ _} _ _.
#[global] Arguments ko_graves {_ _} _ _.
#[global] Arguments ko_run {_ _} _ _.
#[global] Arguments ko_curr {_ _} _ _.
#[global] Arguments ko_idle {_ _} _ _.
#[global] Arguments ko_schrun {_ _} _ _.
#[global] Arguments ko_count {_ _} _ _.
#[global] Arguments ko_lock {_ _} _ _.
#[global] Arguments ko_quiet {_ _} _ _.
#[global] Arguments ko_size {_ _} _ _.
#[global] Arguments kernel_ok_allocates {_ _} _ _.
#[global] Arguments kernel_ok_object {_ _} _ _ _.
#[global] Arguments kernel_ok_same_ctl {_ _} _ _ _.
#[global] Arguments user_context {_ _} _ _ _.
#[global] Arguments user_alive {_ _} _ _.
#[global] Arguments same_tasks_calm {_} _ _ _ _.
