(* ===== verification/KernelTasks.v ===== *)
(** * Tasks come and go in the running kernel

    The invariant of KernelInv.v after [isix_task_create], [isix_task_ref] and [isix_task_unref]
    called by a task, and after [cleanup_tasks] called by the idle task: the steps of a run in
    which the set of tasks changes. *)

From S2P Require Import Prelude.
From S2P Require Import DList.
From S2P Require Import Kernel.
From S2P Require Import Scheduler.
From S2P Require Import Task.
From S2P Require Import SchedInv.
From S2P Require Import SchedCore.
From S2P Require Import SchedTime.
From S2P Require Import SchedSleep.
From S2P Require Import MutexProofs.
From S2P Require Import MutexOwner.
From S2P Require Import Alloc.
From S2P Require Import TaskProofs.
From S2P Require Import TaskLife.
From S2P Require Import KernelInv.
From stdpp Require Import base numbers gmap list sorting.
From Stdlib Require Import ZArith Lia.
Local Open Scope Z_scope.

Section KernelTasks.
Context {HS : Type} {AL : Allocator HS}.
Implicit Types s : kstate HS.
Context (idle terminator reent_size : Z).

Local Notation kernel_ok := (kernel_ok idle).
Local Notation user_runs := (user_runs idle).

(** A task appears or goes; neither the running task nor the idle task is touched. *)
Lemma kernel_ok_tasks s s' :
  kernel_ok s -> sched_inv s' -> mtx_inv s' -> heads_ok s' -> graves_ok s' -> quiet s' -> run_state s' = run_state s ->
  (forall t o, k_tasks s' !! t = Some o -> t_state o = OSTHR_STATE_RUNNING -> k_tasks s !! t = Some o) ->
  (forall t o, t = k_currp s \/ t = idle -> k_tasks s !! t = Some o -> k_tasks s' !! t = Some o) ->
  Z.of_nat (size (k_tasks s')) < 2 ^ 31 -> kernel_ok s'.
Proof.
  intros [_ _ _ _ Hr [oc Hc] (oi & Hoi & Hai) Hrun Hcnt Hl _ _] Hi Hm Hh Hg Hq [= Ec Er El Ecc] Hn Hk Hsz.
  split; try congruence; try done.
  - intros t o Ho Hst. rewrite Ec. eapply Hr; [by apply Hn|done].
  - rewrite Ec. exists oc. apply Hk; [by left|done].
  - exists oi. split; [|done]. apply Hk; [by right|done].
Qed.

(** ** isix_task_create *)

(** What the call asks for: it is refused, the heap has no room, or the heap gives blocks at
    addresses where no task lives. *)
Definition creatable (depth prio flags : Z) s : Prop :=
  0 <= prio /\ Z.of_nat (size (k_tasks s)) + 1 < 2 ^ 31 /\
  ((CONFIG_ISIX_NUMBER_OF_PRIORITIES < prio \/ depth < ISIX_PORT_SCHED_MIN_STACK_DEPTH) \/
   is_Some (heap_after_failure reent_size depth flags (k_heap s)) \/
   exists t stack impure h, created_blocks reent_size depth flags (k_heap s) t stack impure h /\ vacant s t /\ stack <> NULL).

Lemma created_ok t stack depth impure func param prio flags h oc s s' :
  kernel_ok s -> vacant s t -> Z.of_nat (size (k_tasks s)) + 1 < 2 ^ 31 ->
  created terminator t stack depth impure func param prio flags h oc s s' -> kernel_ok s'.
Proof.
  intros Hk (Hnull & Hn & Hq) Hsz C. pose proof (same_core_elim _ _ (cr_run _ _ _ _ _ _ _ _ _ _ _ _ _ C)) as (E1 & E2 & E3 & E4).
  destruct (cr_task _ _ _ _ _ _ _ _ _ _ _ _ _ C) as (o & Ets & _ & _ & _ & Hst & _).
  assert (ended_state (t_state o) = false /\ t_state o <> OSTHR_STATE_RUNNING) as [He Hnr] by (by rewrite Hst; destruct (starts_suspended flags)).
  assert (forall h0, h0 <> QExit t -> is_ready_head h0 = false -> k_q s' !! h0 = k_q s !! h0) as Hw by (by eapply cr_waiting).
  eapply (kernel_ok_tasks s); [done|by eapply cr_inv|by eapply cr_mtx|..].
  - destruct (ko_heads _ Hk) as [H1 H2]. split.
    + intros e. rewrite E4, Hw by done. apply H1.
    + intros x. destruct (decide (x = t)) as [->|Hx]; [intros _; rewrite (cr_exit _ _ _ _ _ _ _ _ _ _ _ _ _ C); by eexists|].
      rewrite Ets, lookup_insert_ne, Hw by (done || congruence). apply H2.
  - destruct (ko_graves _ Hk) as [(zs & Hz & Hd) Hx Hown]. split.
    + exists zs. rewrite Hw by done. split; [done|]. rewrite <- Hd. by injection (same_core_debt _ _ (cr_run _ _ _ _ _ _ _ _ _ _ _ _ _ C)).
    + intros x ox. rewrite Ets, lookup_insert. case_decide as E; [subst x; intros [= <-]; by rewrite He|].
      intros Hox Hend. rewrite Hw by (congruence || done). by eapply Hx.
    + intros m om. rewrite (cr_mtxs _ _ _ _ _ _ _ _ _ _ _ _ _ C). intros Hom. destruct (Hown m om Hom) as [?|(ow & How & Hend)]; [by left|right].
      exists ow. rewrite Ets, lookup_insert_ne; [done|congruence].
  - eapply quiet_debt; [exact (ko_quiet _ Hk)|exact (same_core_debt _ _ (cr_run _ _ _ _ _ _ _ _ _ _ _ _ _ C))].
  - unfold run_state. rewrite E1, E2, E3. by rewrite (cr_count _ _ _ _ _ _ _ _ _ _ _ _ _ C).
  - intros x ox. rewrite Ets, lookup_insert. case_decide; [by intros [= <-]|done].
  - intros x ox _ Hx. rewrite Ets, lookup_insert_ne; [done|congruence].
  - rewrite Ets, map_size_insert_None by done. lia.
Qed.

Lemma create_ok func param depth prio flags s :
  kernel_ok s -> creatable depth prio flags s ->
  wp (isix_task_create terminator reent_size func param depth prio flags) (fun _ => kernel_ok) s.
Proof.
  intros Hk (Hp & Hsz & Hcase). pose proof (kernel_ok_allocates s Hk) as Hall. destruct (ko_curr _ Hk) as [oc Hoc].
  destruct (decide (CONFIG_ISIX_NUMBER_OF_PRIORITIES < prio \/ depth < ISIX_PORT_SCHED_MIN_STACK_DEPTH)) as [Hr|Hr].
  { eapply wp_mono; [by apply task_create_refused|]. by intros r s' (_ & ->). }
  destruct Hcase as [?|[[h Hh]|(t & stack & impure & h & Hb & Hv & Hs)]]; [done| |].
  - eapply wp_mono; [apply (task_create_without_memory_spec terminator reent_size func param depth prio flags h s); try done; lia|].
    intros r s' (_ & m & ->). eapply kernel_ok_mtx; [done|exact (ko_mtx _ Hk)|by apply same_mtxs_owners|done..].
  - eapply wp_mono; [apply (task_create_spec terminator reent_size func param depth prio flags t stack impure h oc s); try done;
      [by eapply ko_inv|by eapply ko_mtx|by eapply ko_schrun|lia|lia]|].
    intros r s' (_ & C). by eapply created_ok.
Qed.

(** ** cleanup_tasks *)

(** A task that has ended is done with: its control block goes away, or stays for the sake of
    those who still have a reference. *)
Lemma kernel_ok_dropped t o s s' :
  kernel_ok s -> alive s (k_currp s) -> k_tasks s !! t = Some o -> ended_state (t_state o) = true ->
  sched_inv s' -> mtx_inv s' -> (forall x, x <> t -> k_tasks s' !! x = k_tasks s !! x) ->
  (forall ot, k_tasks s' !! t = Some ot -> t_state ot = OSTHR_STATE_EXITED /\ k_q s' !! QExit t = Some []) ->
  (forall h, h <> QZombie -> h <> QExit t -> is_ready_head h = false -> k_q s' !! h = k_q s !! h) ->
  k_mtxs s' = k_mtxs s -> (exists zs, k_q s' !! QZombie = Some zs /\ k_ndeleted s' = Z.of_nat (length zs)) ->
  quiet s' -> k_evs s' = k_evs s -> run_state s' = run_state s -> kernel_ok s'.
Proof.
  intros Hk (oc & Hoc & Hec) Ho He Hi Hm Ets Et Eq Em Hz Hq Ev Er.
  assert (k_currp s <> t) as Hct by congruence.
  assert (idle <> t) as Hit by (destruct (ko_idle _ Hk) as (oi & Hoi & Ha); intros <-; rewrite Ho in Hoi; injection Hoi as <-; by destruct (t_state o)).
  destruct (ko_heads _ Hk) as [H1 H2]. destruct (ko_graves _ Hk) as [_ Hx Hown].
  eapply (kernel_ok_tasks s); try done.
  - split; [intros e; rewrite Ev, Eq by done; apply H1|]. intros x. destruct (decide (x = t)) as [->|Hxt].
    + intros [ot Hot]. destruct (Et ot Hot) as [_ ->]. by eexists.
    + rewrite Ets, Eq by (congruence || done). apply H2.
  - split; [done| |].
    + intros x ox Hox Hend. destruct (decide (x = t)) as [->|Hxt]; [by eapply Et|]. rewrite Eq by (congruence || done).
      eapply Hx; [rewrite <- Ets by done; exact Hox|done].
    + intros m om. rewrite Em. intros Hom. destruct (Hown m om Hom) as [?|(ow & How & Hend)]; [by left|right].
      exists ow. rewrite Ets; [done|]. intros E. rewrite E, Ho in How. congruence.
  - intros x ox Hox Hst. destruct (decide (x = t)) as [->|Hxt]; [|by rewrite <- Ets].
    destruct (Et ox Hox) as [E _]. congruence.
  - intros x ox Hxc Hox. rewrite Ets; [done|]. by destruct Hxc as [-> | ->].
  - eapply Z.le_lt_trans; [|exact (ko_size _ Hk)]. rewrite <- !size_dom. apply inj_le, subseteq_size. intros x [ox Hox]%elem_of_dom.
    apply elem_of_dom. destruct (decide (x = t)) as [->|Hxt]; [by exists o|]. rewrite <- Ets by done. by exists ox.
Qed.

Lemma cleaned_up_ok t o zs s s' :
  kernel_ok s -> alive s (k_currp s) -> k_q s !! QZombie = Some (t :: zs) -> k_tasks s !! t = Some o ->
  ended_state (t_state o) = true -> cleaned_up t o zs s s' -> kernel_ok s'.
Proof.
  intros Hk Hc Hz Ho He C. pose proof (same_core_elim _ _ (cu_run _ _ _ _ _ C)) as (E1 & E2 & E3 & E4). simpl in *.
  destruct (gv_dead _ (ko_graves _ Hk)) as (zs0 & Hz0 & Hd). assert (zs0 = t :: zs) as -> by congruence.
  pose proof (list_bound QZombie (t :: zs) s (proj1 (ko_inv _ Hk)) Hz) as Hb. pose proof (ko_size _ Hk). cbn [length] in *.
  eapply (kernel_ok_dropped t o); [done|done|done|done|by eapply cu_inv|by eapply cu_mtx|..].
  - intros x Hx. rewrite (cu_task _ _ _ _ _ C). destruct (_ =? 0); [by rewrite lookup_delete_ne|by rewrite lookup_insert_ne].
  - intros ot. rewrite (cu_task _ _ _ _ _ C), (cu_exit _ _ _ _ _ C). destruct (_ =? 0); [by rewrite lookup_delete_eq|].
    rewrite lookup_insert_eq. by intros [= <-].
  - exact (cu_waiting _ _ _ _ _ C).
  - exact (cu_mtxs _ _ _ _ _ C).
  - exists zs. rewrite (cu_zombies _ _ _ _ _ C), (cu_dead _ _ _ _ _ C), Hd. split; [done|].
    rewrite u32_id by (unfold in_u32; lia). lia.
  - pose proof (ko_quiet _ Hk) as (Q1 & Q2 & Q3). pose proof (cu_run _ _ _ _ _ C) as Hr. injection Hr as F1 F2 F3.
    unfold quiet. by rewrite F1, F2, F3.
  - done.
  - unfold run_state. rewrite E1, E2, E3. by rewrite (cu_count _ _ _ _ _ C).
Qed.

Lemma cleanup_dead_spec t o zs s :
  kernel_ok s -> k_currp s = idle -> k_q s !! QZombie = Some (t :: zs) -> k_tasks s !! t = Some o ->
  wp cleanup_tasks (fun _ s' => kernel_ok s' /\ cleaned_up t o zs s s') s.
Proof.
  intros Hk Hcur Hz Ho. destruct (gv_dead _ (ko_graves _ Hk)) as (zs0 & Hz0 & Hd). assert (zs0 = t :: zs) as -> by congruence.
  destruct (r_at _ _ _ _ _ (proj1 (ko_inv _ Hk)) QZombie _ t Hz) as (o' & Ho' & Hst); [by left|]. simpl in Hst.
  assert (o' = o) as -> by congruence. assert (ended_state (t_state o) = true) as He by (by rewrite Hst).
  eapply wp_mono; [apply (cleanup_tasks_spec t o zs s); try done|].
  - by eapply ko_inv.
  - by eapply ko_mtx.
  - by eapply kernel_ok_allocates.
  - rewrite Hd. cbn [length]. lia.
  - by eapply gv_exit; [exact (ko_graves _ Hk)|..].
  - by eapply grave_owned; [exact (ko_mtx _ Hk)|exact (ko_graves _ Hk)|..].
  - intros [] s' C. split; [|done]. eapply cleaned_up_ok; try done. rewrite Hcur. destruct (ko_idle _ Hk) as (oi & Hoi & Ha).
    exists oi. split; [done|]. by destruct (t_state oi).
Qed.

Lemma cleanup_ok s : kernel_ok s -> k_currp s = idle -> wp cleanup_tasks (fun _ => kernel_ok) s.
Proof.
  intros Hk Hcur. destruct (gv_dead _ (ko_graves _ Hk)) as (zs & Hz & Hd). destruct zs as [|t zs].
  { unfold cleanup_tasks. wp_step. wp_step. by rewrite Hd. }
  destruct (r_at _ _ _ _ _ (proj1 (ko_inv _ Hk)) QZombie _ t Hz) as (o & Ho & _); [by left|].
  eapply wp_mono; [by eapply cleanup_dead_spec|]. by intros [] s' [? _].
Qed.


(** ** isix_task_ref, isix_task_unref *)

Lemma with_refs_ok t o n s s' :
  kernel_ok s -> k_tasks s !! t = Some o -> same_clock (with_refs t o n s) s' -> same_ctl s s' ->
  k_critical_count s' = k_critical_count s -> kernel_ok s'.
Proof.
  intros Hk Ho Hsc Hctl Ecc. destruct (set_refcnt_inv t o n s (ko_inv _ Hk) (ko_mtx _ Hk) Ho) as (Hi0 & _ & _).
  destruct (same_clock_inv _ s' Hsc Hi0) as [Hi' _]. destruct Hsc as (Ets & _ & Eq & _).
  eapply (kernel_ok_same_ctl (QPrio 0)); try done; [|intros h _ _; by rewrite Eq].
  eapply calm_insert; [exact Ho|exact Ets|apply tame_refl|done|]. destruct (decide (t = idle)) as [->|]; [right|by left].
  destruct (ko_idle _ Hk) as (oi & Hoi & Ha). by simplify_eq.
Qed.

Lemma ref_ok t s : kernel_ok s -> is_Some (k_tasks s !! named s t) -> wp (isix_task_ref t) (fun _ => kernel_ok) s.
Proof.
  intros Hk [o Ho]. assert (0 <= k_critical_count s) by (by rewrite (ko_count _ Hk)).
  destruct (decide (t_refcnt o < OSREF_T_MAX)).
  - eapply wp_mono; [by eapply task_ref_spec|]. intros r s' (_ & ? & ? & ?). by eapply with_refs_ok.
  - eapply wp_mono; [eapply task_ref_refused; try done; lia|]. intros r s' (_ & ? & ? & ?). by eapply kernel_ok_same_clock.
Qed.

Lemma unref_ok t s :
  kernel_ok s -> user_runs s -> is_Some (k_tasks s !! named s t) -> wp (isix_task_unref t) (fun _ => kernel_ok) s.
Proof.
  intros Hk Hu [o Ho]. assert (0 <= k_critical_count s) by (by rewrite (ko_count _ Hk)).
  destruct (decide (t_refcnt o < 1)).
  { eapply wp_mono; [by eapply task_unref_refused|]. intros r s' (_ & ? & ? & ?). by eapply kernel_ok_same_clock. }
  destruct (decide (t_refcnt o = 1 /\ t_state o = OSTHR_STATE_EXITED)) as [[Hr Hst]|Hn].
  2: { eapply wp_mono; [eapply task_unref_spec; try done; lia|]. intros r s' (_ & ? & ? & ?). by eapply with_refs_ok. }
  assert (ended_state (t_state o) = true) as He by (by rewrite Hst). destruct (user_alive s Hu) as (oc & Hoc & Hec).
  assert (t <> NULL) as Ht by (intros ->; change (named s NULL) with (k_currp s) in Ho; congruence).
  assert (named s t = t) as En by (unfold named; by rewrite decide_False). rewrite En in Ho. clear En.
  eapply wp_mono; [apply (task_unref_last t o s); try done|].
  - by eapply ko_inv.
  - by eapply ko_mtx.
  - by eapply kernel_ok_allocates.
  - by eapply gv_exit; [exact (ko_graves _ Hk)|..].
  - by eapply grave_owned; [exact (ko_mtx _ Hk)|exact (ko_graves _ Hk)|..].
  - intros r s' (_ & Hi' & Hm' & Hrun & Ecc & Em & Ets & Eq & _ & _). pose proof (same_core_elim _ _ Hrun) as (E1 & E2 & E3 & E4).
    destruct (gv_dead _ (ko_graves _ Hk)) as (zs & Hz & Hd).
    eapply (kernel_ok_dropped t o s); try done.
    + by exists oc.
    + intros x Hx. by rewrite Ets, lookup_delete_ne.
    + intros ot. by rewrite Ets, lookup_delete_eq.
    + intros h _ Hh _. by rewrite Eq, lookup_delete_ne.
    + exists zs. rewrite Eq, lookup_delete_ne by done. split; [done|]. rewrite <- Hd. by injection (same_core_debt _ _ Hrun).
    + eapply quiet_debt; [exact (ko_quiet _ Hk)|exact (same_core_debt _ _ Hrun)].
    + unfold run_state. congruence.
Qed.

End KernelTasks.
