(* ===== verification/KernelRun.v ===== *)
(** * Runs of the kernel

    The components together: tick interrupts, context switches and the calls of tasks that
    sleep, wait for a semaphore or signal one, lock or unlock a mutex, wait for event bits or
    set some, create, stop, kill or wait for other tasks, what these calls do after the wake-up,
    and the clean-up of the idle task, in any order.  The invariant of KernelInv.v holds after
    every step of every run, and no step that is possible panics or follows a bad pointer. *)

From S2P Require Import Prelude.
From S2P Require Import DList.
From S2P Require Import Kernel.
From S2P Require Import Scheduler.
From S2P Require Import Events.
From S2P Require Import Semaphore.
From S2P Require Import OsTime.
From S2P Require Import SchedInv.
From S2P Require Import SchedCore.
From S2P Require Import SchedTime.
From S2P Require Import SchedSleep.
From S2P Require Import SchedWake.
From S2P Require Import SemProofs.
From S2P Require Import EventProofs.
From S2P Require Import Mutex.
From S2P Require Import MutexProofs.
From S2P Require Import MutexOwner.
From S2P Require Import Task.
From S2P Require Import Detached.
From S2P Require Import SuspendProofs.
From S2P Require Import UnlockAll.
From S2P Require Import TaskProofs.
From S2P Require Import Join.
From S2P Require Import KillProofs.
From S2P Require Import WakeAll.
From S2P Require Import Condvar.
From S2P Require Import CondvarProofs.
From S2P Require Import Alloc.
From S2P Require Import TaskLife.
From S2P Require Import KernelInv.
From S2P Require Import KernelTasks.
From stdpp Require Import base numbers gmap list sorting.
From Stdlib Require Import ZArith Lia.
Local Open Scope Z_scope.

Section KernelRun.
Context {HS : Type} {AL : Allocator HS}.
Implicit Types s : kstate HS.

(** The idle task, which never blocks, and the constants of the C library a new task needs. *)
Context (idle terminator reent_size : Z).

Local Notation kernel_ok := (kernel_ok idle).
Local Notation user_runs := (user_runs idle).
Local Notation calm := (calm idle).
Local Notation steady := (steady idle).
Local Notation settled := (settled idle).

(** ** Steps *)

Inductive kevent :=
  | EvTicks (n : Z)
  | EvSwitch
  | EvWait (timeout : Z)
  | EvSemWait (sem timeout : Z)
  | EvSemSignal (sem : Z)
  | EvLock (mutex : Z)
  | EvUnlock (mutex : Z)
  | EvEventWait (evt bits : Z) (clear all : bool) (timeout : Z)
  | EvEventSet (evt bits : Z)
  | EvUnlockAll
  | EvCondWait (cv timeout : Z)
  | EvCondSignal (cv : Z)
  | EvCondBroadcast (cv : Z)
  | EvSuspend (task : Z)
  | EvResume (task : Z)
  | EvChangePrio (task prio : Z)
  | EvKill (task : Z)
  | EvWaitFor (task : Z)
  | EvCreate (func param depth prio flags : Z)
  | EvRef (task : Z)
  | EvUnref (task : Z)
  | EvCleanup
  | EvSemResume (sem timeout start : Z)
  | EvLockResume (mutex : Z)
  | EvEventResume (evt bits : Z) (clear all : bool) (timeout start : Z)
  | EvCondResume (mutex : Z)
  | EvWaitForResume (task : Z).

Definition exec (e : kevent) : K HS unit :=
  match e with
  | EvTicks n => _isixp_systimer_announce n
  | EvSwitch => _isixp_schedule
  | EvWait timeout => isix_wait timeout;;; ret tt
  | EvSemWait sem timeout => isix_sem_wait sem timeout;;; ret tt
  | EvSemSignal sem => isix_sem_signal sem;;; ret tt
  | EvLock m => isix_mutex_lock m;;; ret tt
  | EvUnlock m => isix_mutex_unlock m;;; ret tt
  | EvEventWait e bits clear all timeout => isix_event_wait e bits clear all timeout;;; ret tt
  | EvEventSet e bits => _isixp_event_set e bits false;;; ret tt
  | EvUnlockAll => isix_mutex_unlock_all
  | EvCondWait c timeout => isix_condvar_wait c timeout;;; ret tt
  | EvCondSignal c => _isixp_condvar_signal c false;;; ret tt
  | EvCondBroadcast c => _isixp_condvar_broadcast c false;;; ret tt
  | EvSuspend t => isix_task_suspend t
  | EvResume t => isix_task_resume t;;; ret tt
  | EvChangePrio t p => isix_task_change_prio t p;;; ret tt
  | EvKill t => isix_task_kill t
  | EvWaitFor t => isix_task_wait_for t;;; ret tt
  | EvCreate func param depth prio flags => isix_task_create terminator reent_size func param depth prio flags;;; ret tt
  | EvRef t => isix_task_ref t;;; ret tt
  | EvUnref t => isix_task_unref t;;; ret tt
  | EvCleanup => cleanup_tasks
  | EvSemResume sem timeout start => sem_wait_resume sem timeout start;;; ret tt
  | EvLockResume m => mutex_lock_resume m;;; ret tt
  | EvEventResume e bits clear all timeout start => event_wait_resume e bits clear all timeout start;;; ret tt
  | EvCondResume m => condvar_wait_resume m;;; ret tt
  | EvWaitForResume t => task_wait_resume t;;; ret tt
  end.

(** Interrupts come at any time; the calls are those of the running task.  A semaphore that
    is signalled has room for a token and is not connected to an event, the count of a mutex
    that is locked has room for one more, the idle task is never suspended nor killed, and it alone
    gives back the memory of the dead.  The heap has no room for a new task, or gives blocks where
    no task lives.  A call
    that blocked goes on (the [Resume] steps) at any time its caller runs, with whatever start
    time it has noted. *)
Definition enabled (e : kevent) s : Prop :=
  match e with
  | EvTicks n => 0 <= n < 2 ^ 32
  | EvSwitch => True
  | EvWait timeout => user_runs s /\ 0 < timeout < 2 ^ 32
  | EvSemWait a timeout => user_runs s /\ is_sem s a /\ 0 <= timeout <= ISIX_TIME_DONTWAIT
  | EvSemSignal a => user_runs s /\ is_sem s a /\
      forall o, k_sems s !! a = Some o -> s_evt o = NULL /\ s_value o < 2 ^ 31 - 1
  | EvLock m => user_runs s /\ m <> NULL /\ exists o, k_mtxs s !! m = Some o /\ m_count o < 2 ^ 31 - 1
  | EvUnlock m => user_runs s /\ m <> NULL /\ is_Some (k_mtxs s !! m)
  | EvEventWait e _ _ _ timeout => user_runs s /\ is_evt s e /\ 0 <= timeout <= ISIX_TIME_DONTWAIT
  | EvEventSet e _ => user_runs s /\ is_evt s e
  | EvUnlockAll => user_runs s
  | EvCondWait c timeout => user_runs s /\ is_cond s c /\ 0 <= timeout <= ISIX_TIME_DONTWAIT
  | EvCondSignal c | EvCondBroadcast c => user_runs s /\ is_cond s c
  | EvSuspend t => user_runs s /\ is_Some (k_tasks s !! named s t) /\ named s t <> idle
  | EvResume t => user_runs s /\ is_Some (k_tasks s !! t)
  | EvChangePrio t p => user_runs s /\ is_Some (k_tasks s !! named s t) /\ 0 <= p
  | EvKill t => user_runs s /\ is_Some (k_tasks s !! named s t) /\ named s t <> idle
  | EvWaitFor t => user_runs s /\ is_Some (k_tasks s !! t)
  | EvCreate _ _ depth prio flags => user_runs s /\ creatable reent_size depth prio flags s
  | EvRef t | EvUnref t => user_runs s /\ is_Some (k_tasks s !! named s t)
  | EvCleanup => k_currp s = idle
  | EvSemResume a timeout _ => user_runs s /\ is_sem s a /\ 0 <= timeout < ISIX_TIME_DONTWAIT
  | EvLockResume m | EvCondResume m => user_runs s /\ m <> NULL /\ exists o, k_mtxs s !! m = Some o /\ m_count o < 2 ^ 31 - 1
  | EvEventResume e _ _ _ timeout _ => user_runs s /\ is_evt s e /\ 0 <= timeout < ISIX_TIME_DONTWAIT
  | EvWaitForResume t => user_runs s /\ is_Some (k_tasks s !! t)
  end.

Inductive kstep : kstate HS -> kstate HS -> Prop :=
  | kstep_exec e s s' : enabled e s -> exec e s = Ok tt s' -> kstep s s'.

(** ** Every step keeps the invariant *)

(** The tasks of a list without a deadline stay on it when the clock goes on. *)
Lemma advanced_untimed n h l s s' :
  sched_inv s -> advanced n s s' -> is_ready_head h = false -> k_q s !! h = Some l ->
  (forall o, at_queue o h -> timed_state (t_state o) = false) -> k_q s' !! h = Some l.
Proof.
  intros (Hok & _ & Htime) A Hh Hl Hat. rewrite (ad_waiting _ _ _ A) by done. rewrite Hl. simpl.
  f_equal. apply filter_all. intros t Ht. unfold expired. destruct (r_at _ _ _ _ _ Hok _ _ t Hl Ht) as (o & Ho & Hq).
  by rewrite (remaining_None s t) by (eapply untimed; [done|exact Ho|by apply Hat]).
Qed.

Lemma advanced_calm n s s' : advanced n s s' -> calm s s'.
Proof.
  intros A t. destruct (expired n s t) eqn:Ex; unfold expired in Ex.
  - destruct (remaining s t) as [r|] eqn:Er; [|done]. apply Z.leb_le in Ex.
    destruct (ad_woken _ _ _ A t r Er Ex) as (o & o' & -> & -> & Hst & _ & Hrp & _). constructor. split; rewrite Hst; done.
  - apply calm_same, (ad_asleep _ _ _ A t). intros r E. rewrite E in Ex. by apply Z.leb_gt in Ex.
Qed.

Lemma advanced_ok n s s' : kernel_ok s -> advanced n s s' -> kernel_ok s'.
Proof.
  intros Hk A. pose proof Hk as [Hi Hm He [(zs & Hz & _) _ _] _ _ _ _ _ _ _ _].
  pose proof (ad_frame _ _ _ A) as Hf. pose proof (advanced_calm _ _ _ A) as Hcalm.
  eapply kernel_ok_calm; [done|by eapply ad_inv| | | |done|exact (eq_sym (f_equal debt Hf))|exact (eq_sym (f_equal run_state Hf))].
  - eapply mtx_inv_calm; [done|done|exact (eq_sym (f_equal k_mtxs Hf))|exact (eq_sym (f_equal k_ml Hf))|].
    intros m. destruct (k_q s !! QMtx m) as [l|] eqn:El; [|by rewrite (ad_waiting _ _ _ A), El].
    eapply advanced_untimed; try done. intros o Hat. simpl in Hat. by destruct Hat as [-> _].
  - split.
    + intros h Hr [l Hl0]. rewrite (ad_waiting _ _ _ A) by done. rewrite Hl0. by eexists.
    + intros e. by rewrite <- (f_equal k_evs Hf : k_evs s = k_evs s').
    + rewrite Hz, (advanced_untimed n QZombie zs s s') by (try done; intros o ->; done). by constructor.
    + intros t o _ _ Hl0. rewrite (ad_waiting _ _ _ A) by done. by rewrite Hl0.
  - apply same_mtxs_owners. exact (eq_sym (f_equal k_mtxs Hf)).
Qed.

Lemma ticks_ok n s : kernel_ok s -> 0 <= n < 2 ^ 32 -> wp (_isixp_systimer_announce n) (fun _ => kernel_ok) s.
Proof.
  intros Hk Hn. pose proof Hk as [Hi _ _ _ _ _ _ Hrun _ Hl _ _]. unfold _isixp_systimer_announce.
  wp_step. wp_step. rewrite Hl. change (negb (0 =? 0)) with false. cbv iota.
  eapply wp_mono; [by apply (advance_jiffies_spec n)|]. intros [] s' A. by eapply advanced_ok.
Qed.

(** The tasks a context switch leaves behind. *)
Lemma retagged_steady s s' t :
  retagged (k_tasks s) (k_tasks s') -> option_Forall2 (fun o o' => ended_state (t_state o') = ended_state (t_state o) /\
    active (t_state o') = active (t_state o) /\ t_real_prio o' = t_real_prio o) (k_tasks s !! t) (k_tasks s' !! t).
Proof.
  intros Htag. specialize (Htag t). destruct (k_tasks s !! t) as [o|]; [|rewrite Htag; constructor].
  destruct (active (t_state o)) eqn:Ha; [destruct Htag as (st & Hst & ->)|rewrite Htag]; constructor; [|done].
  simpl. by destruct (t_state o), st.
Qed.

Lemma switch_graves s s' :
  graves_ok s -> same_waiting s s' -> frame_switch s s' -> retagged (k_tasks s) (k_tasks s') -> graves_ok s'.
Proof.
  intros [(zs & Hz & Hn) Hx Ho] Hw Hf Htag. split.
  - exists zs. rewrite Hw, <- (f_equal k_ndeleted Hf : k_ndeleted s = k_ndeleted s') by done. done.
  - intros t o' Ho' He. rewrite Hw by done. pose proof (retagged_steady s s' t Htag) as Hr. rewrite Ho' in Hr.
    inversion Hr as [o ? (E & _) E1 E2|]; subst. eapply Hx; [by symmetry|congruence].
  - intros m o Hom. rewrite <- (f_equal k_mtxs Hf : k_mtxs s = k_mtxs s') in Hom.
    destruct (Ho m o Hom) as [?|(ow & How & He)]; [by left|right].
    pose proof (retagged_steady s s' (m_owner o) Htag) as Hr. rewrite How in Hr.
    inversion Hr as [? ow' (E & _) E1 E2|]; subst. exists ow'. split; [done|congruence].
Qed.

Lemma switch_ok s : kernel_ok s -> wp _isixp_schedule (fun _ => kernel_ok) s.
Proof.
  intros [Hi Hm He Hg Hr Hc Hid Hrun Hcnt Hl Hq Hsz]. pose proof Hi as (Hok & Hsem & Ht).
  assert (Hsw : switchable s) by (split; try done; [lia|by destruct Hid as (o & ?); exists idle, o]).
  eapply wp_mono; [by apply schedule_spec|]. intros [] s' (Hsw' & _ & _ & _ & Hw & Hf & Htag).
  pose proof (fun t => retagged_steady s s' t Htag) as Hrt.
  destruct (time_inv_frame s s' Ht) as (Ht' & _).
  { symmetry. exact (f_equal k_tl Hf). }
  { symmetry. exact (f_equal k_pwait Hf). }
  { symmetry. exact (f_equal k_jiffies Hf). }
  { intros t Hon. specialize (Htag t). destruct Ht as [Htl _ _ _]. destruct (tm_state _ _ _ _ _ Htl t Hon) as (o & Ho & Hst).
    rewrite Ho in *. destruct (active (t_state o)) eqn:Ha; [by destruct (t_state o)|done]. }
  split.
  - split; [by apply sw_ready|]. split; [|done]. unfold sems_ok.
    rewrite <- (f_equal k_sems Hf : k_sems s = k_sems s'). eapply sem_counts_frame; [exact Hsem|]. intros a. by apply Hw.
  - unfold mtx_inv. rewrite <- (f_equal k_mtxs Hf : k_mtxs s = k_mtxs s'), <- (f_equal k_ml Hf : k_ml s = k_ml s').
    eapply mtxs_ok_permuted; [exact Hm| |].
    + intros t. destruct (Hrt t) as [o o' (_ & _ & ?)|]; by constructor.
    + intros m. rewrite Hw by done. by destruct (k_q s !! QMtx m); constructor.
  - destruct He as [H1 H2]. split; [|intros t Hst; rewrite Hw by done; apply H2].
    + intros e. rewrite <- (f_equal k_evs Hf : k_evs s = k_evs s'). rewrite Hw by done. apply H1.
    + specialize (Hrt t). destruct Hst as [o Ho]. rewrite Ho in Hrt. inversion Hrt; subst; by eexists.
  - by eapply switch_graves.
  - by apply sw_run.
  - by apply sw_curr.
  - destruct Hid as (o & Ho & Ha). specialize (Hrt idle). rewrite Ho in Hrt. inversion Hrt as [? o' (_ & E & _)|]; subst.
    exists o'. split; [done|congruence].
  - rewrite <- Hrun. symmetry. exact (f_equal k_schrun Hf).
  - rewrite <- Hcnt. symmetry. exact (f_equal k_critical_count Hf).
  - by apply sw_lock.
  - eapply quiet_debt; [exact Hq|exact (eq_sym (f_equal debt Hf))].
  - assert (dom (k_tasks s') = dom (k_tasks s)) as Hd.
    { apply set_eq. intros t. rewrite !elem_of_dom. destruct (Hrt t); split; intros [? [=]]; eauto. }
    rewrite <- size_dom, Hd, size_dom. done.
Qed.

Lemma wait_ok timeout s :
  kernel_ok s -> user_runs s -> 0 < timeout < 2 ^ 32 -> wp (isix_wait timeout) (fun _ => kernel_ok) s.
Proof.
  intros Hk Hu Htm. destruct (user_context s Hk Hu) as (oc & [Hi Hrun Hcc Hoc Ha] & Hne).
  eapply wp_mono; [by eapply isix_wait_spec|]. intros r s' (_ & Hi' & Hctl & _ & Ecc & (o' & Ets & Hst & Hrp) & _ & Hw).
  eapply (kernel_ok_same_ctl (QPrio 0)); try done; [|intros h _; apply Hw].
  eapply calm_insert; [exact Hoc|exact Ets|by rewrite Hst|done|by left].
Qed.

Lemma sem_round_ok a timeout start s :
  kernel_ok s -> user_runs s -> is_sem s a -> 0 <= timeout < ISIX_TIME_DONTWAIT ->
  wp (sem_wait_round a timeout start) (fun _ => kernel_ok) s.
Proof.
  intros Hk Hu [Ha [[n l] Hv]] Htm. destruct (user_context s Hk Hu) as (oc & Hctx & Hne).
  pose proof Hctx as [Hi Hrun Hcc Hoc Hact]. pose proof Hi as (Hok & Hsem & Ht).
  pose proof (proj1 (sem_view_Some _ _ _ _) Hv) as (o & Ho & Hl & Hn).
  assert (Hlen : Z.of_nat (length l) < 2 ^ 31) by (pose proof (list_bound (QSem a) l s Hok Hl); pose proof (ko_size _ Hk); lia).
  destruct (Hsem a l Hl) as (o1 & Ho1 & Hlo & Hr). assert (o1 = o) as -> by congruence.
  destruct (decide (n = 0)) as [->|Hn0]; [destruct (decide (wait_goes_on timeout start (k_jiffies s))) as [Hgo|Hgo]|].
  - eapply wp_mono; [by eapply sem_wait_round_blocks|].
    intros r s' (_ & Hi' & Hv' & (o' & Ets & Hst & Hrp) & _ & _ & Ecc & Hctl & Hw).
    apply sem_view_Some in Hv' as (so' & _ & Hl' & _). eapply (kernel_ok_same_ctl (QSem a)); try done.
    eapply calm_insert; [exact Hoc|exact Ets|by rewrite Hst|done|by left].
  - apply Decidable.not_or in Hgo as [Hinf Hover].
    eapply wp_mono; [eapply (sem_wait_round_over a timeout start l s); try done; lia|].
    intros r s' (_ & ? & ? & ?). by eapply kernel_ok_same_clock.
  - assert (l = []) as -> by (destruct l; [done|simpl in Hlo; lia]).
    eapply wp_mono; [apply (sem_wait_round_takes a timeout start o s); try done; lia|]. intros r s' (_ & Htk).
    destruct (token_taken_inv a o s s') as [Hi' _]; try done; [lia|].
    destruct Htk as (_ & Ets & _ & Eq & _ & _ & _ & _ & Ecc & Hctl).
    eapply (kernel_ok_same_ctl (QPrio 0)); try done; [by apply same_tasks_calm|]. intros h _ _. by rewrite Eq.
Qed.

Lemma sem_trywait_ok a s :
  kernel_ok s -> user_runs s -> is_sem s a -> wp (isix_sem_wait a ISIX_TIME_DONTWAIT) (fun _ => kernel_ok) s.
Proof.
  intros Hk Hu [Ha [[n l] Hv]]. pose proof (ko_inv _ Hk) as Hi. pose proof Hi as (Hok & Hsem & Ht).
  pose proof (proj1 (sem_view_Some _ _ _ _) Hv) as (o & Ho & Hl & Hn).
  destruct (Hsem a l Hl) as (o1 & Ho1 & Hlo & _). assert (o1 = o) as -> by congruence.
  destruct (decide (n = 0)) as [->|Hn0].
  - eapply wp_mono; [eapply sem_trywait_fails; try done; pose proof (list_bound (QSem a) l s Hok Hl); pose proof (ko_size _ Hk); lia|].
    intros r s' (_ & ? & ? & ?). by eapply kernel_ok_same_clock.
  - assert (l = []) as -> by (destruct l; [done|simpl in Hlo; lia]).
    eapply wp_mono; [apply (sem_wait_takes_token a _ n s); try done; [by rewrite (ko_count _ Hk)|lia]|].
    intros r s' (_ & Hi' & _ & Ets & Eq & _ & _ & Ecc & Hctl & _).
    eapply (kernel_ok_same_ctl (QPrio 0)); try done; [by apply same_tasks_calm|]. intros h _ _. by rewrite Eq.
Qed.

Lemma sem_wait_ok a timeout s :
  kernel_ok s -> user_runs s -> is_sem s a -> 0 <= timeout <= ISIX_TIME_DONTWAIT ->
  wp (isix_sem_wait a timeout) (fun _ => kernel_ok) s.
Proof.
  intros Hk Hu Ha Htm. destruct (decide (timeout = ISIX_TIME_DONTWAIT)) as [->|Hne]; [by apply sem_trywait_ok|].
  unfold isix_sem_wait. rewrite (proj2 (Z.eqb_neq a _)), (proj2 (Z.eqb_neq timeout _)) by (done || apply Ha).
  wp_step. unfold isix_get_jiffies. do 2 wp_step. eapply wp_mono; [apply sem_round_ok; try done; lia|].
  intros r s' H. by wp_step.
Qed.

Lemma sem_signal_ok a s :
  kernel_ok s -> user_runs s -> is_sem s a ->
  (forall o, k_sems s !! a = Some o -> s_evt o = NULL /\ s_value o < 2 ^ 31 - 1) ->
  wp (isix_sem_signal a) (fun _ => kernel_ok) s.
Proof.
  intros Hk Hu [Ha [[n l] Hv]] Hroom. destruct (user_context s Hk Hu) as (oc & Hctx & Hne).
  pose proof (proj1 (sem_view_Some _ _ _ _) Hv) as (o & Ho & Hl & Hn).
  pose proof (tc_inv _ _ Hctx) as (Hok & Hsem & _). destruct (Hsem a l Hl) as (o1 & Ho1 & Hlo & _).
  assert (o1 = o) as -> by congruence. destruct l as [|t l].
  - destruct (Hroom o Ho) as [He Hlt]. simpl in Hlo.
    eapply wp_mono; [apply (sem_signal_stores_token a n o s); try done; [by apply Hctx|by apply Hctx|lia]|].
    intros r s' (_ & Hi' & _ & Ets & Eq & Ecc & Hctl).
    eapply (kernel_ok_same_ctl (QPrio 0)); try done; [by apply same_tasks_calm|]. intros h _ _. by rewrite Eq.
  - simpl in Hlo. assert (n = 0) as -> by lia.
    eapply wp_mono; [by eapply sem_signal_wakes_spec|].
    intros r s' (_ & Hi' & Hv' & (ot & ot' & Hot & Hot' & Hst & _ & _ & _ & _ & Hrp) & _ & Hoth & Ecc & Hctl & Hw).
    apply sem_view_Some in Hv' as (so' & _ & Hl' & _).
    eapply (kernel_ok_same_ctl (QSem a)); try done. intros x. destruct (decide (x = t)) as [->|Hx].
    + rewrite Hot, Hot'. constructor. split_and!; [by rewrite Hst|by rewrite Hst|done].
    + by apply calm_same, Hoth.
Qed.

Lemma lock_ok m o s :
  kernel_ok s -> user_runs s -> m <> NULL -> k_mtxs s !! m = Some o -> m_count o < 2 ^ 31 - 1 ->
  wp (isix_mutex_lock m) (fun _ => kernel_ok) s.
Proof.
  intros Hk Hu Hm0 Ho Hroom. destruct (user_context s Hk Hu) as (oc & Hctx & Hne).
  pose proof Hctx as [Hi Hrun Hcc Hoc Hact]. pose proof (ko_mtx _ Hk) as Hm.
  assert (Hcur : k_currp s <> NULL) by (intros E; by rewrite E, (mo_null _ _ _ _ _ Hm) in Hoc).
  destruct (decide (m_owner o = NULL)) as [Hf|Hnf]; [|destruct (decide (m_owner o = k_currp s)) as [Hown|Hoth]].
  - destruct (proj2 (mo_dom _ _ _ _ _ Hm (k_currp s)) (mk_is_Some _ _ Hoc)) as [k Hml].
    eapply wp_mono; [by eapply mutex_lock_free|]. intros r s' (_ & Hm' & Em & _ & Hsc & Hr & Ecc).
    eapply kernel_ok_one_mtx; try done; simpl; tauto.
  - eapply wp_mono; [by eapply mutex_lock_own|]. intros r s' (_ & Hm' & Em & _ & Hsc & Hr & Ecc).
    eapply kernel_ok_one_mtx; try done; simpl; tauto.
  - destruct (mo_held _ _ _ _ _ _ Hm Ho Hnf) as (l & k & Hl & Hc & Hnl & _ & _ & [ow How]).
    eapply wp_mono; [eapply (mutex_lock_blocks_spec m _ o ow oc l s); try done; lia|].
    intros r s' (_ & Hi' & Hctl & Ecc & _ & Hl' & Hls & (ow' & oc' & Ets & _ & Ha' & Hr' & Hst' & _ & Hrw & Hrc) & _).
    pose proof (same_ctl_elim _ _ Hctl) as (E1 & E2 & E3 & E4 & E5 & E6).
    assert (Hcalm : calm s s').
    { intros x. rewrite Ets, !lookup_insert. repeat case_decide; subst.
      - rewrite Hoc. constructor. split_and!; [by rewrite Hst'|by intros <-|done].
      - rewrite How. constructor. split_and!; [done|by rewrite Ha'|done].
      - by destruct (k_tasks s !! x); constructor. }
    pose proof (same_ctl_debt _ _ Hctl) as E0.
    eapply kernel_ok_calm; try done; [| |by apply same_mtxs_owners|unfold run_state; congruence].
    + unfold mtx_inv. rewrite E4, E5. eapply mtxs_ok_frame; [exact Hm|..].
      * intros t. destruct (Hcalm t) as [? ? (_ & _ & ?)|]; by constructor.
      * intros m' o' l0 Ho' _ Hl0. destruct (decide (m' = m)) as [->|Hne'].
        -- assert (o' = o) as -> by congruence. assert (l0 = l) as -> by congruence. eexists. split; [exact Hl'|].
           split; [done|]. intros _. unfold prio_insert. rewrite elem_of_insert_before_first. naive_solver.
        -- pose proof (Hls (QMtx m') ltac:(congruence) eq_refl) as Hp. rewrite Hl0 in Hp.
           inversion Hp as [? l' Hpm|]; subst. exists l'. split; [done|]. split; [|by rewrite Hpm].
           intros -> _. by apply Permutation_nil_r.
      * intros m'. destruct (decide (m' = m)) as [->|Hne']; [by rewrite Hl|].
        destruct (Hls (QMtx m') ltac:(congruence) eq_refl); [by eexists|done].
    + apply (heads_kept_lists (fun x => bool_decide (x = QMtx m))); try done; [| |by rewrite E6].
      * intros h Hr Hne'%bool_decide_eq_false. destruct (Hls h Hne' Hr); constructor. by apply list_kept_permuted.
      * intros h Hr ->%bool_decide_eq_true _. rewrite Hl'. by eexists.
Qed.

Lemma unlock_ok m s :
  kernel_ok s -> user_runs s -> m <> NULL -> is_Some (k_mtxs s !! m) -> wp (isix_mutex_unlock m) (fun _ => kernel_ok) s.
Proof.
  intros Hk Hu Hm0 [o Ho]. destruct (user_context s Hk Hu) as (oc & Hctx & Hne).
  pose proof Hctx as [Hi Hrun Hcc Hoc Hact]. pose proof (ko_mtx _ Hk) as Hm.
  assert (Hcur : k_currp s <> NULL) by (intros E; by rewrite E, (mo_null _ _ _ _ _ Hm) in Hoc).
  destruct (decide (m_owner o = k_currp s)) as [Hown|Hoth].
  2: { eapply wp_mono; [eapply (mutex_unlock_refused m o s); try done|].
       - intros Hn. destruct (mo_held _ _ _ _ _ _ Hm Ho Hn) as (? & ? & _ & ? & _). lia.
       - intros r s' (_ & Hsc & Hctl & Ecc). destruct (same_clock_inv s s' Hsc Hi) as [Hi' _].
         destruct Hsc as (Ets & _ & Eq & _).
         eapply (kernel_ok_same_ctl (QPrio 0)); try done; [by apply same_tasks_calm|]. intros h _ _. by rewrite Eq. }
  destruct (mo_held _ _ _ _ _ _ Hm Ho) as (l & k & Hl & Hc & _ & Hml & _); [by rewrite Hown|]. rewrite Hown in Hml.
  destruct (decide (m_count o = 1)) as [Hc1|Hc1].
  2: { eapply wp_mono; [eapply mutex_unlock_nested; try done; lia|].
       intros r s' (_ & Hm' & Em & _ & Hsc & Hr & Ecc).
    eapply kernel_ok_one_mtx; try done; simpl; tauto. }
  destruct l as [|t l].
  { eapply wp_mono; [by eapply mutex_unlock_free|].
    intros r s' (_ & Hm' & Em & _ & Hsc & Hr & Ecc).
    eapply kernel_ok_one_mtx; try done; simpl; tauto. }
  eapply wp_mono; [by eapply mutex_unlock_hands_over_spec|].
  intros r s' (_ & [Hi' Hm' Hr Ecc Hmt Hl' Hls _ (ot & ot' & oc' & p & Hot & Ets & Hst & _ & _ & Hrt & _ & _ & _ & Hrc & Hsc & _) _]).
  pose proof (same_run_elim _ _ Hr) as (E1 & E2 & E3 & E4).
  pose proof (same_run_debt _ _ Hr) as E0.
  eapply kernel_ok_calm; try done; [| | |unfold run_state; congruence].
  - apply (heads_kept_but (fun x => bool_decide (x = QMtx m))); try done; [| |by rewrite E4].
    + intros h Hh Hne'%bool_decide_eq_false. by apply Hls.
    + intros h Hh ->%bool_decide_eq_true _. rewrite Hl'. by eexists.
  - eapply insert_mtx_owners; [exact Hmt|exact Ho|]. right. left. exists ot'. rewrite Ets, lookup_insert_eq. by rewrite Hst.
  - intros x. rewrite Ets, !lookup_insert. repeat case_decide; subst.
    + rewrite Hot. constructor. split_and!; [by rewrite Hst|by rewrite Hst|done].
    + rewrite Hoc. constructor. split_and!; [by rewrite Hsc|by rewrite Hsc|done].
    + by destruct (k_tasks s !! x); constructor.
Qed.

Lemma event_round_ok e bits clear all timeout start s :
  kernel_ok s -> user_runs s -> is_evt s e -> 0 <= timeout <= ISIX_TIME_DONTWAIT ->
  wp (event_wait_round e bits clear all timeout start) (fun _ => kernel_ok) s.
Proof.
  intros Hk Hu [He [b Hb]] Htm. destruct (user_context s Hk Hu) as (oc & Hctx & Hne).
  pose proof Hctx as [Hi Hrun Hcc Hoc Hact]. destruct (hd_evt _ (ko_heads _ Hk) e) as [l Hl]; [by exists b|].
  destruct (decide (check_cond b bits all = true \/ timeout = ISIX_TIME_DONTWAIT)) as [Hret|Hblk].
  - eapply wp_mono; [by eapply event_wait_round_returns|]. intros r s' (_ & Hsc & Ecc & Hctl & Hev & Hoth).
    destruct (same_clock_inv s s' Hsc Hi) as [Hi' _]. destruct Hsc as (Ets & _ & Eq & _).
    eapply (kernel_ok_object (QPrio 0)); try done; [by apply same_tasks_calm|intros h _ _; by rewrite Eq|].
    intros x. destruct (decide (x = e)) as [->|Hx]; [by rewrite Hb|by rewrite Hoth].
  - apply Decidable.not_or in Hblk as [H1%not_true_is_false H2].
    destruct (decide (wait_goes_on timeout start (k_jiffies s))) as [Hgo|Hgo].
    + eapply wp_mono; [eapply event_wait_round_blocks; try done; lia|].
      intros r s' (_ & Hi' & Hl' & Hw & (o' & Ets & Hst & _ & Hrp) & _ & _ & Ecc & Hctl & _).
      eapply (kernel_ok_same_ctl (QEvt e)); try done.
      eapply calm_insert; [exact Hoc|exact Ets|by rewrite Hst|done|by left].
    + apply Decidable.not_or in Hgo as [Hinf Hover].
      eapply wp_mono; [eapply (event_wait_round_over e b bits clear all timeout start s); try done; lia|].
      intros r s' (_ & ? & ? & ?). by eapply kernel_ok_same_clock.
Qed.

Lemma event_wait_ok e bits clear all timeout s :
  kernel_ok s -> user_runs s -> is_evt s e -> 0 <= timeout <= ISIX_TIME_DONTWAIT ->
  wp (isix_event_wait e bits clear all timeout) (fun _ => kernel_ok) s.
Proof.
  intros Hk Hu He Htm. unfold isix_event_wait. rewrite (proj2 (Z.eqb_neq e _)) by apply He.
  destruct (_ || _); [by wp_step|]. wp_step. unfold isix_get_jiffies. do 2 wp_step.
  eapply wp_mono; [by apply event_round_ok|]. intros r s' H. by wp_step.
Qed.

Lemma event_set_ok e bits s :
  kernel_ok s -> user_runs s -> is_evt s e -> wp (_isixp_event_set e bits false) (fun _ => kernel_ok) s.
Proof.
  intros Hk Hu [He [b Hb]]. destruct (user_context s Hk Hu) as (oc & Hctx & Hne).
  pose proof Hctx as [Hi Hrun Hcc Hoc Hact]. destruct (hd_evt _ (ko_heads _ Hk) e) as [l Hl]; [by exists b|].
  destruct (has_bits bits ISIX_EVENT_CTRL_BITS) eqn:Hctrl.
  { unfold _isixp_event_set. rewrite (proj2 (Z.eqb_neq e _)), Hctrl by done. by wp_step. }
  eapply wp_mono; [by eapply isixp_event_set_spec|].
  intros r s' [[Hi' Hctl Ecc Hl' Hw (b' & Ev) Hwk Hot] _].
  eapply (kernel_ok_object (QEvt e)); try done.
  - intros t. destruct (decide (t ∈ woken_of (k_tasks s) (Z.lor b bits) l)) as [Hin|Hn]; [|by apply calm_same, Hot].
    destruct (Hwk t Hin) as (o0 & o & -> & -> & Hst & _ & Hrp & _). constructor. split_and!; [by rewrite Hst|by rewrite Hst|done].
  - intros x. rewrite Ev, lookup_insert. case_decide as E; [subst x; by rewrite Hb|done].
Qed.

Lemma suspend_ok t s :
  kernel_ok s -> user_runs s -> is_Some (k_tasks s !! named s t) -> named s t <> idle ->
  wp (isix_task_suspend t) (fun _ => kernel_ok) s.
Proof.
  intros Hk Hu [o Ho] Hid. destruct (user_context s Hk Hu) as (oc & [Hi Hrun Hcc Hoc Hact] & Hne).
  destruct (decide (t_state o = OSTHR_STATE_ZOMBIE \/ t_state o = OSTHR_STATE_EXITED \/ t_state o = OSTHR_STATE_SUSPEND)) as [Hst|Hst].
  - eapply wp_mono; [by eapply task_suspend_ignored|]. intros [] s' (? & ? & ?). by eapply kernel_ok_same_clock.
  - eapply wp_mono; [eapply (task_suspend_spec t o s); try done; try tauto; exact (ko_mtx _ Hk)|].
    intros [] s' ([Hi' Hm' Hctl Ecc Ho' _ Hl _ Hoth How] & _).
    pose proof (same_ctl_elim _ _ Hctl) as (E1 & E2 & E3 & E4 & E5 & E6).
    eapply kernel_ok_calm; try done; [| | |exact (same_ctl_debt _ _ Hctl)|unfold run_state; congruence].
    + eapply heads_kept_left; [by apply Hi|exact Ho|tauto|exact Hl|by rewrite E6].
    + by apply same_mtxs_owners.
    + intros x. destruct (decide (x = named s t)) as [->|Hx].
      { rewrite Ho, Ho'. constructor. split_and!; done. }
      destruct (decide (x = blocking_owner s o)) as [->|Hw]; [|by apply calm_same, Hoth].
      destruct (decide (blocking_owner s o = NULL)) as [E|E].
      { rewrite E, (mo_null _ _ _ _ _ Hm'), (mo_null _ _ _ _ _ (ko_mtx _ Hk)). constructor. }
      destruct (How E) as (_ & ow & ow' & ms & -> & -> & _ & Er & Ea & Es & _). constructor. split_and!; [done|by rewrite Ea|done].
Qed.

Lemma resume_ok t s :
  kernel_ok s -> user_runs s -> is_Some (k_tasks s !! t) -> wp (isix_task_resume t) (fun _ => kernel_ok) s.
Proof.
  intros Hk Hu [o Ho]. destruct (user_context s Hk Hu) as (oc & [Hi Hrun Hcc Hoc Hact] & Hne).
  pose proof (ko_mtx _ Hk) as Hm. assert (t <> NULL) as Hnull by (intros ->; rewrite (mo_null _ _ _ _ _ Hm) in Ho; done).
  destruct (decide (t_state o = OSTHR_STATE_SUSPEND)) as [Hst|Hst].
  2: { eapply wp_mono; [by eapply task_resume_refused|]. intros r s' (_ & ? & ? & ?). by eapply kernel_ok_same_clock. }
  assert (t <> k_currp s) as Hnc by (intros ->; by rewrite Hoc in Ho; simplify_eq; rewrite Hst in Hact).
  eapply wp_mono; [by eapply (task_resume_spec t o oc s)|]. intros r s' (_ & [Hi' Hm' Hctl Ecc (e & Ets) _ _ Hw _]).
  eapply (kernel_ok_same_ctl (QPrio 0)); try done; [|intros h _; apply Hw].
  eapply calm_insert; [exact Ho|exact Ets|done|done|by right].
Qed.

Lemma change_prio_ok t p s :
  kernel_ok s -> user_runs s -> is_Some (k_tasks s !! named s t) -> 0 <= p ->
  wp (isix_task_change_prio t p) (fun _ => kernel_ok) s.
Proof.
  intros Hk Hu [o Ho] Hp. destruct (user_context s Hk Hu) as (oc & [Hi Hrun Hcc Hoc Hact] & Hne).
  destruct (decide (p = t_real_prio o \/ isix_get_min_priority < p)) as [Href|Href].
  - eapply wp_mono; [by eapply change_prio_refused|]. intros r s' (_ & ? & ? & ?). by eapply kernel_ok_same_clock.
  - eapply wp_mono; [eapply (change_prio_spec t p o s); try done; [exact (ko_mtx _ Hk)|lia|tauto]|].
    intros r s' (_ & [Hi' Hm' Hctl Ecc (o' & Ets & _ & _ & Ea & Es) Hl _ _]).
    pose proof (same_ctl_elim _ _ Hctl) as (E1 & E2 & E3 & E4 & E5 & E6).
    eapply kernel_ok_steady; try done; [| | |exact (same_ctl_debt _ _ Hctl)|unfold run_state; congruence].
    + eapply heads_kept_reordered; [exact Hl|by rewrite E6].
    + by apply same_mtxs_owners.
    + intros x. rewrite Ets, lookup_insert. case_decide as E; [subst x|by destruct (k_tasks s !! x); constructor].
      rewrite Ho. constructor. split; [done|by rewrite Ea].
Qed.

(** Mutexes that were released belong to nobody, or to who waited for them first. *)
Lemma left_mutexes_owners u ms s s' :
  mtx_inv s -> k_ml s !! u = Some ms ->
  (forall m om l, m ∈ ms -> k_mtxs s !! m = Some om -> k_q s !! QMtx m = Some l -> k_mtxs s' !! m = Some (left_mutex om l)) ->
  (forall m, m ∉ ms -> k_mtxs s' !! m = k_mtxs s !! m) -> (forall x, x ∈ heirs (k_q s) ms -> alive s' x) -> owners_kept s s'.
Proof.
  intros Hm Hml Hmx Hot Hal m o' Ho'. destruct (decide (m ∈ ms)) as [Hin|Hin].
  - destruct (mo_list _ _ _ _ _ _ _ m Hm Hml Hin) as (om & l & Hom & _ & Hl). rewrite (Hmx m om l Hin Hom Hl) in Ho'.
    injection Ho' as <-. destruct l as [|x l]; [by left|right; left]. apply Hal, elem_of_heirs. eauto.
  - rewrite Hot in Ho' by done. right. right. by exists o'.
Qed.

Lemma unlock_all_ok s : kernel_ok s -> user_runs s -> wp isix_mutex_unlock_all (fun _ => kernel_ok) s.
Proof.
  intros Hk Hu. destruct (user_context s Hk Hu) as (oc & [Hi Hrun Hcc Hoc Hact] & Hne).
  pose proof (ko_mtx _ Hk) as Hm. destruct (proj2 (mo_dom _ _ _ _ _ Hm (k_currp s)) (mk_is_Some _ _ Hoc)) as [ms Hml].
  unfold isix_mutex_unlock_all. do 2 wp_step.
  eapply wp_mono; [by apply (unlock_all_in_task_spec (k_currp s) ms oc oc s)|].
  intros [] s' [[Hi' Hm' Hr Ecc _ _ (o' & Ho' & Hrp & Hself) Hhe Hot Hmx Hli Hmo _] _]. rewrite decide_True in Hself by done.
  pose proof (same_run_elim _ _ Hr) as (E1 & E2 & E3 & E4). pose proof (same_run_debt _ _ Hr) as E0.
  eapply kernel_ok_calm; try done; [| | |unfold run_state; congruence].
  - apply (heads_kept_but (fun h => match h with QMtx m => bool_decide (m ∈ ms) | _ => false end)); try done; [| |by rewrite E4].
    + intros h Hh Hn. apply Hli; [done|]. intros m Hin ->. by rewrite bool_decide_eq_true_2 in Hn.
    + intros [| |m| | | |] Hh Hin [l Hl]; try done. apply bool_decide_eq_true in Hin.
      destruct (mo_owned _ _ _ _ _ Hm _ ms m Hml Hin) as (om & Hom & _). destruct (Hmx m om l Hin Hom Hl) as [_ ->]. by eexists.
  - apply (left_mutexes_owners (k_currp s) ms); [done|done|intros m om l; by apply Hmx|done|]. intros x Hx. destruct (Hhe x Hx) as (_ & o0 & e & _ & Hx'). by exists (set_t_prio_elem e (set_t_state OSTHR_STATE_READY (set_dmsg ISIX_EOK o0))).
  - intros x. destruct (decide (x = k_currp s)) as [->|Hx].
    { rewrite Hoc, Ho'. constructor. destruct Hself as (_ & Ha & Hs). by split_and!. }
    destruct (decide (x ∈ heirs (k_q s) ms)) as [Hin|Hin]; [|by apply calm_same, Hot].
    destruct (Hhe x Hin) as (_ & o0 & e & -> & ->). constructor. by split_and!.
Qed.

(** A killed task is counted, it has no mutex left, and nobody waits for it. *)
Lemma killed_graves u o ms ws zs s s' :
  sched_inv s -> mtx_inv s -> graves_ok s -> Z.of_nat (size (k_tasks s)) < 2 ^ 31 ->
  k_ml s !! u = Some ms -> k_q s !! QZombie = Some zs -> killed u o ms ws zs s s' -> graves_ok s'.
Proof.
  intros (Hok & _) Hm [(zs0 & Hz0 & Hn) Hx Ho] Hsz Hml Hz K. assert (zs0 = zs) as -> by congruence. split.
  - destruct (kl_zombies _ _ _ _ _ _ _ K) as (zs' & Hp & Hz'). exists (zs' ++ [u]). split; [done|].
    pose proof (list_bound QZombie zs s Hok Hz). rewrite (kl_dead _ _ _ _ _ _ _ K), Hn, length_app, (Permutation_length Hp).
    cbn [length]. rewrite u32_id by (unfold in_u32; lia). lia.
  - intros t o' Ho' He. destruct (decide (t = u)) as [->|Htu]; [by eapply kl_exit|].
    pose proof (kl_tasks _ _ _ _ _ _ _ K t Htu) as Ht. rewrite Ho' in Ht. inversion Ht as [o0 ? (_ & Hs & _) E1 E2|]; subst.
    pose proof (kl_waiting _ _ _ _ _ _ _ K (QExit t) eq_refl ltac:(done) ltac:(congruence) ltac:(done)) as Hl. rewrite (Hx t o0 (eq_sym E1) (tame_ended _ _ Hs He)) in Hl.
    inversion Hl as [? l' Hp E3 E4|]; subst. f_equal. by apply Permutation_nil_r.
  - assert (owners_kept s s') as Hown.
    { eapply left_mutexes_owners; [done|done|exact (kl_mtxs _ _ _ _ _ _ _ K)|exact (kl_other_mtxs _ _ _ _ _ _ _ K)|].
      intros x Hin. assert (x <> u) as Hxu by (by eapply heir_not_owner).
      destruct (kl_woken _ _ _ _ _ _ _ K x Hxu) as (o' & Ho' & Ha & _); [by left|]. exists o'. split; [done|]. by destruct (t_state o'). }
    intros m o' Ho'. destruct (Hown m o' Ho') as [?|[?|(om & Hom & E)]]; [by left|by right|].
    destruct (decide (m_owner o' = u)) as [Eu|Hu].
    + rewrite <- E in Eu. destruct (decide (m ∈ ms)) as [Hin|Hin].
      * destruct (mo_list _ _ _ _ _ _ _ m Hm Hml Hin) as (om' & l & Hom' & _ & Hl). rewrite (kl_mtxs _ _ _ _ _ _ _ K m om' l Hin Hom' Hl) in Ho'.
        injection Ho' as <-. destruct l as [|x l]; [by left|exfalso]. assert (om' = om) as -> by congruence.
        assert (x <> u) by (eapply heir_not_owner; [exact Hm|exact Hml|apply elem_of_heirs; eauto]). simpl in E. congruence.
      * destruct (decide (u = NULL)) as [->|Hu0]; [left; congruence|exfalso].
        destruct (mo_held _ _ _ _ _ _ Hm Hom) as (l & k & _ & _ & _ & Hk & Hin' & _); congruence.
    + destruct (Ho m om Hom) as [?|(ow & How & He)]; [left; congruence|right]. rewrite E in How.
      pose proof (kl_tasks _ _ _ _ _ _ _ K _ Hu) as Ht. rewrite How in Ht. inversion Ht as [? ow' (_ & Hs & _) E1 E2|]; subst.
      exists ow'. split; [done|]. destruct (ended_state (t_state ow')) eqn:Ee; [|done]. by rewrite (tame_ended _ _ Hs Ee) in He.
Qed.

Lemma kill_ok t s :
  kernel_ok s -> user_runs s -> is_Some (k_tasks s !! named s t) -> named s t <> idle ->
  wp (isix_task_kill t) (fun _ => kernel_ok) s.
Proof.
  intros Hk Hu [o Ho] Hid. destruct (user_context s Hk Hu) as (oc & [Hi Hrun Hcc Hoc Hact] & Hne).
  pose proof (ko_mtx _ Hk) as Hm. destruct (ko_heads _ Hk) as [_ Hex]. pose proof (ko_graves _ Hk) as Hg.
  destruct (gv_dead _ Hg) as (zs & Hz & _).
  destruct (decide (t_state o = OSTHR_STATE_ZOMBIE \/ t_state o = OSTHR_STATE_EXITED)) as [Hst|Hst].
  { eapply wp_mono; [by eapply task_kill_ignored|]. intros [] s' (? & ? & ?). by eapply kernel_ok_same_clock. }
  destruct (proj2 (mo_dom _ _ _ _ _ Hm _) (mk_is_Some _ _ Ho)) as [ms Hml]. destruct (Hex _ (mk_is_Some _ _ Ho)) as [ws Hws].
  eapply wp_mono; [apply (task_kill_spec t o oc ms ws zs s); try done; tauto|].
  intros [] s' [K _]. pose proof (kl_run _ _ _ _ _ _ _ K) as Hr. pose proof (same_run_elim _ _ Hr) as (E1 & E2 & E3 & E4). simpl in *.
  eapply kernel_ok_settled; [done|by apply (kl_inv _ _ _ _ _ _ _ K)|by apply (kl_mtx _ _ _ _ _ _ _ K)|..].
  - eapply killed_graves; try done. exact (ko_size _ Hk).
  - pose proof (ko_quiet _ Hk) as (Q1 & Q2 & Q3). injection Hr as F1 F2 F3. unfold quiet. by rewrite F1, F2, F3.
  - exact (kl_lists _ _ _ _ _ _ _ K).
  - by rewrite E4.
  - intros x. destruct (decide (x = named s t)) as [->|Hx].
    + destruct (kl_task _ _ _ _ _ _ _ K) as (o' & Ho' & Hs & _). rewrite Ho, Ho'. constructor. split; [by rewrite Hs|done].
    + destruct (kl_tasks _ _ _ _ _ _ _ K x Hx) as [a b (_ & Hs & Ha)|]; constructor. split; [by apply tame_running|by auto].
  - unfold run_state. rewrite E1, E2, E3. by rewrite (kl_count _ _ _ _ _ _ _ K).
Qed.

Lemma cond_wait_ok c timeout s :
  kernel_ok s -> user_runs s -> is_cond s c -> 0 <= timeout <= ISIX_TIME_DONTWAIT ->
  wp (isix_condvar_wait c timeout) (fun _ => kernel_ok) s.
Proof.
  intros Hk Hu [Hc [lc Hlc]] Htm. destruct (user_context s Hk Hu) as (oc & Hctx & Hne).
  pose proof Hctx as [Hi Hrun Hcc Hoc Hact]. pose proof (ko_mtx _ Hk) as Hm.
  destruct (proj2 (mo_dom _ _ _ _ _ Hm (k_currp s)) (mk_is_Some _ _ Hoc)) as [ms Hml].
  destruct (decide (default NULL (head ms) = NULL \/ timeout = ISIX_TIME_DONTWAIT)) as [Href|Hgo].
  { eapply wp_mono; [by eapply condvar_wait_refused|]. intros r s' (_ & ? & ? & ?). by eapply kernel_ok_same_clock. }
  apply Decidable.not_or in Hgo as [Hm0 Ht]. destruct ms as [|m ms]; [done|]. simpl in Hm0.
  destruct (mo_list _ _ _ _ _ _ _ m Hm Hml) as (om & lm & Hom & _ & Hlm); [by left|].
  eapply wp_mono; [eapply (condvar_wait_spec c timeout m om oc ms lm lc s); try done; lia|].
  intros r s' (_ & W). pose proof (same_run_elim _ _ (cw_run _ _ _ _ _ _ _ _ _ W)) as (E1 & E2 & E3 & E4).
  destruct (cw_caller _ _ _ _ _ _ _ _ _ W) as (o' & Ho' & Hst & _ & Hrp & Hlc').
  assert (calm s s') as Hcalm.
  { intros x. destruct (decide (x = k_currp s)) as [->|Hx].
    - rewrite Hoc, Ho'. constructor. split_and!; [by rewrite Hst|by intros <-|done].
    - destruct (cw_tasks _ _ _ _ _ _ _ _ _ W x Hx) as [a b [(? & ? & ?) _]|]; constructor. by split_and!. }
  eapply kernel_ok_calm; [done|by eapply cw_inv|by eapply cw_mtx| | |done|exact (same_run_debt _ _ (cw_run _ _ _ _ _ _ _ _ _ W))|].
  - apply (heads_kept_but (fun h => bool_decide (h = QCond c \/ h = QMtx m))); try done; [| |by rewrite E4].
    + intros h Hh [H1 H2]%bool_decide_eq_false%Decidable.not_or. by rewrite (cw_lists _ _ _ _ _ _ _ _ _ W).
    + intros h Hh [-> | ->]%bool_decide_eq_true Hs; [rewrite Hlc'; by eexists|by eapply cw_list].
  - eapply insert_mtx_owners; [exact (cw_mutex _ _ _ _ _ _ _ _ _ W)|exact Hom|]. unfold once_unlocked.
    destruct (_ =? 1); [|by right; right]. destruct lm as [|x lm]; [by left|right; left]. simpl.
    eapply alive_steady; [by apply calm_steady|]. destruct (r_at _ _ _ _ _ (proj1 Hi) _ _ x Hlm) as (ox & Hox & Hxs & _); [by left|].
    exists ox. by rewrite Hxs.
  - unfold run_state. rewrite E1, E2, E3. by rewrite (cw_count _ _ _ _ _ _ _ _ _ W).
Qed.

(** Tasks of a list have been made ready. *)
Lemma woken_from_calm h msg ws l' s s' : woken_from h msg ws l' s s' -> calm s s'.
Proof.
  intros W x. destruct (decide (x ∈ ws)) as [Hx|Hx]; [|by apply calm_same, (ew_other _ _ _ _ _ _ W)].
  destruct (ew_woken _ _ _ _ _ _ W x Hx) as (o0 & o & -> & -> & Hst & _ & Hrp & _). constructor.
  split_and!; [by rewrite Hst|by rewrite Hst|done].
Qed.

Lemma cond_signal_ok c s : kernel_ok s -> user_runs s -> is_cond s c -> wp (_isixp_condvar_signal c false) (fun _ => kernel_ok) s.
Proof.
  intros Hk Hu [Hc [l Hl]]. destruct (user_context s Hk Hu) as (oc & Hctx & Hne). destruct l as [|t l].
  { eapply wp_mono; [apply condvar_signal_empty; [by apply Hctx|done|done]|]. intros r s' (_ & ? & ? & ?). by eapply kernel_ok_same_clock. }
  eapply wp_mono; [by apply (condvar_signal_spec c t l oc s); [|exact (ko_mtx _ Hk)|..]|].
  intros r s' (_ & _ & o & Ho & _ & [Hi' (Hctl & Ecc & _) (e & Ets) _ Hl' Hw] & _).
  eapply (kernel_ok_same_ctl (QCond c)); try done.
  eapply calm_insert; [exact Ho|exact Ets|done|done|by right].
Qed.

Lemma cond_broadcast_ok c s :
  kernel_ok s -> user_runs s -> is_cond s c -> wp (_isixp_condvar_broadcast c false) (fun _ => kernel_ok) s.
Proof.
  intros Hk Hu [Hc [l Hl]]. destruct (user_context s Hk Hu) as (oc & Hctx & Hne).
  eapply wp_mono; [by apply (condvar_broadcast_spec c l oc s); [|exact (ko_mtx _ Hk)|..]|]. intros r s' (_ & _ & W & _).
  destruct (ew_frame _ _ _ _ _ _ W) as (Hctl & Ecc & _). pose proof (woken_from_calm _ _ _ _ _ _ W) as Hcalm.
  eapply (kernel_ok_same_ctl (QCond c)); try done; [by eapply ew_inv|by eapply ew_waiting|].
  rewrite (ew_list _ _ _ _ _ _ W). by eexists.
Qed.

(** A call that was woken goes on: it returns what the waker left, or tries again when it was
    suspended in between. *)
Lemma resumed_ok {R} (k : task -> R) (round : K HS R) s :
  kernel_ok s -> user_runs s -> wp round (fun _ => kernel_ok) s ->
  wp (cur <- gets k_currp;; o <- task_get cur;; if t_wait_aborted o then round else ret (k o)) (fun _ => kernel_ok) s.
Proof.
  intros Hk [_ (o & Ho & _)] Hround. do 2 wp_step. wp_step. eapply wp_task_get; [exact Ho|].
  destruct (t_wait_aborted o); [done|by wp_step].
Qed.

Lemma join_ok t s : kernel_ok s -> user_runs s -> is_Some (k_tasks s !! t) -> wp (task_wait_round t) (fun _ => kernel_ok) s.
Proof.
  intros Hk Hu [o Ho]. destruct (user_context s Hk Hu) as (oc & Hctx & Hne). pose proof Hctx as [Hi Hrun Hcc Hoc Hact].
  destruct (hd_exit _ (ko_heads _ Hk) t (mk_is_Some _ _ Ho)) as [l Hl].
  destruct (decide (t_refcnt o = 0 \/ has_ended o)) as [Hret|Hblk].
  - eapply wp_mono; [by eapply task_wait_round_returns|]. intros r s' (_ & ? & ? & ?). by eapply kernel_ok_same_clock.
  - eapply wp_mono; [apply (task_wait_round_blocks t o oc l s); try done; tauto|]. intros r s' (_ & J).
    destruct (jn_caller _ _ _ _ _ J) as (o' & Ets & Hst & _ & Hrp).
    eapply (kernel_ok_same_ctl (QExit t)); [done|by eapply jn_inv| |by eapply jn_ctl|by eapply jn_count|by eapply jn_waiting|..].
    + eapply calm_insert; [exact Hoc|exact Ets|by rewrite Hst|done|by left].
    + exists o. split; [done|]. destruct (t_state o) eqn:E; try done; exfalso; apply Hblk; right; [by left|by right].
    + intros _. rewrite (jn_list _ _ _ _ _ J). by eexists.
Qed.

Lemma wait_for_ok t s : kernel_ok s -> user_runs s -> is_Some (k_tasks s !! t) -> wp (isix_task_wait_for t) (fun _ => kernel_ok) s.
Proof. intros Hk Hu Ht. unfold isix_task_wait_for. do 2 wp_step. destruct (_ || _); [by wp_step|by apply join_ok]. Qed.

Lemma cond_resume_ok m o s :
  kernel_ok s -> user_runs s -> m <> NULL -> k_mtxs s !! m = Some o -> m_count o < 2 ^ 31 - 1 ->
  wp (condvar_wait_resume m) (fun _ => kernel_ok) s.
Proof.
  intros Hk Hu Hm Ho Hc. pose proof Hu as [_ (oc & Hoc & _)]. unfold condvar_wait_resume.
  do 2 wp_step. wp_step. eapply wp_task_get; [exact Hoc|]. destruct (_ =? _); [by eapply lock_ok|by wp_step].
Qed.

Lemma lock_resume_ok m o s :
  kernel_ok s -> user_runs s -> m <> NULL -> k_mtxs s !! m = Some o -> m_count o < 2 ^ 31 - 1 ->
  wp (mutex_lock_resume m) (fun _ => kernel_ok) s.
Proof.
  intros Hk Hu Hm Ho Hc. unfold mutex_lock_resume. apply (resumed_ok (fun o => Done (t_dmsg o))); [done..|].
  pose proof (lock_ok m o s Hk Hu Hm Ho Hc) as H. unfold isix_mutex_lock in H. by rewrite (proj2 (Z.eqb_neq m _)) in H.
Qed.

Lemma exec_ok e s : kernel_ok s -> enabled e s -> wp (exec e) (fun _ => kernel_ok) s.
Proof.
  intros Hk He. destruct e; simpl in *; [by apply ticks_ok|by apply switch_ok|..]; try wp_step.
  - destruct He. eapply wp_mono; [by apply wait_ok|]. intros r s' H'. by apply wp_ret.
  - destruct He as (? & ? & ?). eapply wp_mono; [by apply sem_wait_ok|]. intros r s' H'. by apply wp_ret.
  - destruct He as (? & ? & ?). eapply wp_mono; [by apply sem_signal_ok|]. intros r s' H'. by apply wp_ret.
  - destruct He as (? & ? & o & ? & ?). eapply wp_mono; [by eapply lock_ok|]. intros r s' H'. by apply wp_ret.
  - destruct He as (? & ? & ?). eapply wp_mono; [by apply unlock_ok|]. intros r s' H'. by apply wp_ret.
  - destruct He as (? & ? & ?). eapply wp_mono; [by apply event_wait_ok|]. intros r s' H'. by apply wp_ret.
  - destruct He as (? & ?). eapply wp_mono; [by apply event_set_ok|]. intros r s' H'. by apply wp_ret.
  - by apply unlock_all_ok.
  - destruct He as (? & ? & ?). eapply wp_mono; [by apply cond_wait_ok|]. intros r s' H'. by apply wp_ret.
  - destruct He as (? & ?). eapply wp_mono; [by apply cond_signal_ok|]. intros r s' H'. by apply wp_ret.
  - destruct He as (? & ?). eapply wp_mono; [by apply cond_broadcast_ok|]. intros r s' H'. by apply wp_ret.
  - destruct He as (? & ? & ?). by apply suspend_ok.
  - destruct He as (? & ?). eapply wp_mono; [by apply resume_ok|]. intros r s' H'. by apply wp_ret.
  - destruct He as (? & ? & ?). eapply wp_mono; [by apply change_prio_ok|]. intros r s' H'. by apply wp_ret.
  - destruct He as (? & ? & ?). by apply kill_ok.
  - destruct He as (? & ?). eapply wp_mono; [by apply wait_for_ok|]. intros r s' H'. by apply wp_ret.
  - destruct He as (? & ?). eapply wp_mono; [by apply (create_ok idle)|]. intros r s' H'. by apply wp_ret.
  - destruct He as (? & ?). eapply wp_mono; [by apply (ref_ok idle)|]. intros r s' H'. by apply wp_ret.
  - destruct He as (? & ?). eapply wp_mono; [by apply (unref_ok idle)|]. intros r s' H'. by apply wp_ret.
  - by apply cleanup_ok.
  - destruct He as (? & ? & ?). eapply wp_mono; [by apply (resumed_ok (fun o => Done (t_dmsg o))); [..|apply sem_round_ok]|].
    intros r s' H'. by apply wp_ret.
  - destruct He as (? & ? & o & ? & ?). eapply wp_mono; [by eapply lock_resume_ok|]. intros r s' H'. by apply wp_ret.
  - destruct He as (? & ? & ?). eapply wp_mono; [apply (resumed_ok (fun o => Done (event_wakeup_result o))); [done..|apply event_round_ok; done || lia]|].
    intros r s' H'. by apply wp_ret.
  - destruct He as (? & ? & o & ? & ?). eapply wp_mono; [by eapply cond_resume_ok|]. intros r s' H'. by apply wp_ret.
  - destruct He as (? & ?). eapply wp_mono; [by apply (resumed_ok (fun o => Done (t_dmsg o))); [..|apply join_ok]|].
    intros r s' H'. by apply wp_ret.
Qed.

(** C1: the kernel stays well formed in every run: after any sequence of tick interrupts,
    context switches, sleeps, calls on semaphores, mutexes, condition variables and events and
    their continuation after the wake-up, and tasks created, suspended, resumed, killed, waited
    for, given another priority and cleaned up after their end, the ready lists, the wait lists,
    the semaphore counters, the owners of the mutexes and the time lists satisfy their
    invariants, the dead own nothing and nobody waits for them, one task at most is running, and
    whatever step comes next returns: it neither panics nor follows a bad pointer nor loops. *)
Theorem kernel_run_well_formed s s' :
  kernel_ok s -> rtc kstep s s' ->
  kernel_ok s' /\ forall e, enabled e s' -> exists s'', exec e s' = Ok tt s''.
Proof.
  intros Hk Hrun. assert (Hk' : kernel_ok s').
  { induction Hrun as [|s s1 s' [e s2 s3 He Hex] _ IH]; [done|]. apply IH. exact (wp_elim _ _ _ _ _ Hex (exec_ok e s2 Hk He)). }
  split; [done|]. intros e He. pose proof (exec_ok e s' Hk' He) as Hwp. unfold wp in Hwp.
  destruct (exec e s') as [[] s''| |]; [by exists s''|done..].
Qed.

End KernelRun.
