(* ===== verification/Idle.v ===== *)
(** * The idle task

    One round of the idle task of scheduler.c: it gives the memory of a dead task back and
    sleeps until the next deadline, with the system timer programmed for the whole time.  The
    kernel stays well formed whatever the interrupts do that wake the processor, and no wait
    for an interrupt is planned to end after a deadline. *)

From S2P Require Import Prelude.
From S2P Require Import DList.
From S2P Require Import Systimer.
From S2P Require Import OsStats.
From S2P Require Import Kernel.
From S2P Require Import Scheduler.
From S2P Require Import SchedInv.
From S2P Require Import SchedCore.
From S2P Require Import SchedTime.
From S2P Require Import SchedSleep.
From S2P Require Import MutexOwner.
From S2P Require Import TaskLife.
From S2P Require Import KernelInv.
From S2P Require Import KernelTasks.
From S2P Require Import KernelRun.
From stdpp Require Import base numbers gmap list sorting.
From Stdlib Require Import ZArith Lia.
Local Open Scope Z_scope.
Local Open Scope isix_scope.

(** ** The system timer *)

(** The ticks after which the timer announces the end of the sleep. *)
Definition sleep_time (t : systimer) : Z :=
  match g_state t with st_armed => 1 + g_expected t | st_sleeping => g_expected t | st_off => 0 end.

(** The first period of a restarted timer is two periods at most. *)
Lemma split_first_bound long_cycles cvr tpp skew n first :
  0 < tpp < 2 ^ 31 -> 0 <= skew -> systimer_split long_cycles cvr tpp skew = (n, first) -> 0 <= first <= 2 * tpp.
Proof.
  intros Ht Hk. unfold systimer_split. set (ran := if cvr <? long_cycles then _ else _).
  pose proof (Z.mod_pos_bound ran tpp ltac:(lia)) as Hr. rewrite (u32_id (tpp - ran mod tpp)) by (unfold in_u32; lia).
  set (f0 := tpp - ran mod tpp). assert (0 < f0 <= tpp) as Hf0 by (unfold f0; lia).
  assert (0 <= (if skew <? f0 then u32 (f0 - skew) else 0) <= tpp) as Hf1.
  { destruct (Z.ltb_spec skew f0); [rewrite u32_id by (unfold in_u32; lia)|]; lia. }
  cbv zeta. set (f1 := if skew <? f0 then _ else _) in *.
  destruct (_ && _); intros [= _ <-]; [rewrite u32_id by (unfold in_u32; lia)|]; lia.
Qed.

Lemma resync_ok t n t' : timer_ok t -> _isix_port_systimer_resync t = (n, t') -> timer_ok t' /\ 0 <= n <= sleep_time t.
Proof.
  intros Hok Hr. split.
  - destruct Hok as (Hc & Hst & Hcv). unfold _isix_port_systimer_resync in Hr. unfold SYSTIMER_RANGE in *.
    destruct (negb _ || _) eqn:Eoff; [by injection Hr as _ <-|]. apply orb_false_iff in Eoff as [Es%negb_false_iff _].
    assert (g_state t <> st_off) as Hoff by (intros E; unfold _isix_port_systimer_is_sleeping in Es; by rewrite E in Es).
    destruct (Hst Hoff) as [He HR]. assert (2 * g_tick_cycles t <= 0x1000000) as H2 by nia.
    assert (forall c u k u', systimer_restart (u32 (g_expected t * g_tick_cycles t)) c (g_tick_cycles t) u = (k, u') ->
      g_tick_cycles u = g_tick_cycles t -> timer_ok u') as Hrestart.
    { intros c u k u'. unfold systimer_restart. destruct (systimer_split _ _ _ _) as [k0 f] eqn:Esp. intros [= _ <-] Eu.
      assert (0 <= f <= 2 * g_tick_cycles t) as Hf by (eapply split_first_bound; [| |exact Esp]; unfold SYSTIMER_RESTART_SKEW; lia).
      unfold timer_ok, wrap_clear, tick_clear_pending, wrap_clear, wrap_latch, SYSTIMER_RANGE. simpl. rewrite ?Eu.
      assert (0 <= u32 ((if f <? 2 then 2 else f) - 1) < 0x1000000) as Hb by (destruct (Z.ltb_spec f 2); rewrite u32_id by (unfold in_u32; lia); lia).
      split_and!; simpl; try lia; done. }
    destruct (g_state t) eqn:Eg; [done|..].
    + destruct (_ <? _); [injection Hr as _ <-; unfold timer_ok, SYSTIMER_RANGE; simpl; split_and!; try lia; done|].
      destruct (systimer_restart _ _ _ _) as [k u'] eqn:Er. injection Hr as _ <-. eapply Hrestart; [exact Er|].
      unfold tick_clear_pending, wrap_clear, wrap_latch. simpl. by destruct (stk_countflag t).
    + destruct (tick_pending t); [injection Hr as _ <-; unfold timer_ok, SYSTIMER_RANGE; rewrite Eg; split_and!; lia || auto|].
      by eapply Hrestart.
  - unfold sleep_time. destruct (g_state t) eqn:Eg.
    + unfold _isix_port_systimer_resync, _isix_port_systimer_is_sleeping in Hr. rewrite Eg in Hr. injection Hr as <- _. lia.
    + pose proof (systimer_resync_bounds t n t' Hok ltac:(by rewrite Eg) Hr) as H. rewrite Eg in H. lia.
    + pose proof (systimer_resync_bounds t n t' Hok ltac:(by rewrite Eg) Hr) as H. rewrite Eg in H. lia.
Qed.

(** The interrupt of the timer announces the ticks of the phase that is over. *)
Lemma isr_ticks_ok t n t' :
  timer_ok t -> systimer_isr_ticks t = (n, t') -> timer_ok t' /\ 1 <= n < 2 ^ 32 /\ (g_state t <> st_off -> sleep_time t' = sleep_time t - n).
Proof.
  intros (Hc & Hst & Hcv) Hr. unfold systimer_isr_ticks in Hr. unfold SYSTIMER_RANGE in *.
  assert (g_state (wrap_clear t) = g_state t /\ g_expected (wrap_clear t) = g_expected t /\ g_tick_cycles (wrap_clear t) = g_tick_cycles t /\
    stk_cvr (wrap_clear t) = stk_cvr t) as (E1 & E2 & E3 & E4) by (unfold wrap_clear, wrap_latch; by destruct (stk_countflag t)).
  set (u := wrap_clear t) in *. clearbody u. rewrite E1 in Hr. unfold sleep_time. destruct (g_state t) eqn:Eg; injection Hr as <- <-.
  - unfold timer_ok, SYSTIMER_RANGE. rewrite E1, E3, E4. split_and!; try lia; done.
  - destruct Hst as [H1 H2]; [done|]. unfold timer_ok, SYSTIMER_RANGE. simpl. rewrite ?E2, ?E3, ?E4. split_and!; intros; try lia; try done; split_and!; lia.
  - destruct Hst as [H1 H2]; [done|]. unfold timer_ok, SYSTIMER_RANGE. simpl. rewrite ?E2, ?E3, ?E4. split_and!; intros; try nia; try done; split_and!; lia.
Qed.

Section Idle.
Context {HS : Type} {AL : Allocator HS}.
Implicit Types s : kstate HS.
Context (idle : Z).

Local Abbreviation KM := (K HS).
Local Notation kernel_ok := (kernel_ok idle).

(** One round of [idle_task]; [wakes] is what the interrupts that end each wait for an
    interrupt do, the result is false when the task still waits after the last one. *)
Definition idle_round (wakes : list (KM unit)) : KM bool := cleanup_tasks;;; enter_tickless_idle wakes.

(** ** Invariant *)

(** The kernel and its clocks are well formed. *)
Record clocks_ok s : Prop := {
  ci_kernel : kernel_ok s;
  ci_timer : timer_ok (k_timer s);
  ci_vt : vt_ok (k_vt s)
}.

(** The sleep that is programmed ends before the first deadline. *)
Definition in_time s : Prop :=
  (forall t rest, remaining s t = Some rest -> sleep_time (k_timer s) <= rest) /\
  (vt_worker (k_vt s) <> NULL -> 0 < sleep_time (k_timer s) ->
    forall o, first_vtimer (k_vt s) = Some o -> sleep_time (k_timer s) <= v_jiffies o - k_jiffies s).

(** The state of the idle task between two waits, and inside of a critical section. *)
Definition napping s : Prop := clocks_ok s /\ in_time s.

Definition inside (P : kstate HS -> Prop) s : Prop := k_critical_count s = 1 /\ P (upd_critical_count (fun _ => 0) s).

(** Everything but the timer, the masks and the counter of critical sections is the same. *)
Definition same_but_timer s s' : Prop :=
  upd_timer (fun _ => k_timer s') (upd_masked (fun _ => false) (upd_critical_count (fun _ => 0) s)) =
  upd_masked (fun _ => false) (upd_critical_count (fun _ => 0) s').

Lemma kernel_ok_timer s s' : kernel_ok s -> same_but_timer s s' -> k_critical_count s' = 0 -> kernel_ok s'.
Proof.
  intros Hk E Hc. pose proof (ko_count _ Hk) as Hc0.
  eapply (kernel_ok_mtx idle s); [done| | | | |congruence].
  - unfold mtx_inv. rewrite <- (f_equal k_tasks E : k_tasks s = k_tasks s'), <- (f_equal k_mtxs E : k_mtxs s = k_mtxs s'),
      <- (f_equal k_ml E : k_ml s = k_ml s'), <- (f_equal k_q E : k_q s = k_q s'). exact (ko_mtx _ Hk).
  - apply same_mtxs_owners. exact (eq_sym (f_equal k_mtxs E)).
  - split_and!; [exact (eq_sym (f_equal k_tasks E))|exact (eq_sym (f_equal k_prios E))|exact (eq_sym (f_equal k_q E))|exact (eq_sym (f_equal k_pl E))|
      exact (eq_sym (f_equal k_tl E))|exact (eq_sym (f_equal k_sems E))|exact (eq_sym (f_equal k_pwait E))|exact (eq_sym (f_equal k_jiffies E))|
      exact (eq_sym (f_equal k_schrun E))].
  - exact (eq_sym (f_equal run_core E)).
Qed.

Lemma clocks_ok_timer s s' :
  clocks_ok s -> same_but_timer s s' -> k_critical_count s' = 0 -> timer_ok (k_timer s') -> clocks_ok s'.
Proof.
  intros [Hk _ Hv] E Hc Ht. split; [by eapply kernel_ok_timer|done|].
  by rewrite <- (f_equal k_vt E : k_vt s = k_vt s').
Qed.

(** ** Critical sections *)

Lemma entered_inside s :
  clocks_ok s -> inside clocks_ok (upd_critical_count (fun c => c + 1) (upd_masked (fun _ => true) s)).
Proof.
  intros Hc. pose proof (ko_count _ (ci_kernel _ Hc)) as E. split; [simpl; by rewrite E|].
  eapply clocks_ok_timer; [exact Hc|done|done|exact (ci_timer _ Hc)].
Qed.

Lemma exit_inside (Q : unit -> kstate HS -> Prop) s :
  inside clocks_ok s ->
  (forall s', clocks_ok s' -> same_but_timer (upd_critical_count (fun _ => 0) s) s' -> k_timer s' = k_timer s -> Q tt s') ->
  wp isix_exit_critical Q s.
Proof.
  intros [Hcc Hc] HQ. apply wp_exit_critical; [lia|]. apply HQ; [|done|done].
  eapply clocks_ok_timer; [exact Hc|done|simpl; lia|exact (ci_timer _ Hc)].
Qed.

Lemma in_time_same s s' : same_but_timer s s' -> k_timer s' = k_timer s -> in_time s -> in_time s'.
Proof.
  intros E Et [Hr Hv]. unfold in_time, remaining, cur_list, ov_list in *. rewrite Et.
  rewrite <- (f_equal k_vt E : k_vt s = k_vt s'), <- (f_equal k_jiffies E : k_jiffies s = k_jiffies s'),
    <- (f_equal k_tl E : k_tl s = k_tl s'), <- (f_equal k_pwait E : k_pwait s = k_pwait s'), <- (f_equal k_tasks E : k_tasks s = k_tasks s').
  by split.
Qed.

Lemma exit_napping (Q : unit -> kstate HS -> Prop) s :
  inside napping s -> (forall s', napping s' -> k_timer s' = k_timer s -> Q tt s') -> wp isix_exit_critical Q s.
Proof.
  intros [Hcc [Hc Ht]] HQ. apply exit_inside; [by split|]. intros s' Hc' E Et. apply HQ; [|done].
  split; [done|]. by eapply in_time_same.
Qed.

(** ** The pieces of the sleep *)

Lemma can_enter_spec s : ready_inv None s -> wp can_enter_tickless_sleep (fun _ s' => s' = s) s.
Proof.
  intros Hok. destruct (r_lists _ _ _ _ _ Hok) as (ready & free & Hp). unfold can_enter_tickless_sleep.
  do 2 wp_step. destruct (negb _); [by wp_step|]. wp_step. eapply wp_pl_list; [exact (p_ready _ _ _ _ _ _ Hp)|].
  wp_step. apply (wp_mono _ (fun _ s' => s' = s)).
  - destruct ready as [|e ready]; [by wp_step|]. destruct (p_elem _ _ _ _ _ _ Hp e) as [p Hpe]; [by left|].
    wp_step. eapply wp_prio_get; [exact Hpe|]. by wp_step.
  - intros busy s' ->. destruct busy; [by wp_step|]. do 2 wp_step. destruct (k_yield_pending s); [by wp_step|].
    do 2 wp_step. destruct (_ <? _); [by wp_step|]. do 2 wp_step. by wp_step.
Qed.

(** What an interrupt may do while the task sleeps. *)
Definition irq_ok (irq : KM unit) : Prop :=
  forall s, napping s -> _isix_port_systimer_is_sleeping (k_timer s) = true -> wp irq (fun _ => napping) s.

Lemma sleep_loop_ok wakes : Forall irq_ok wakes -> forall s,
  inside napping s -> _isix_port_systimer_is_sleeping (k_timer s) = true ->
  wp (tickless_sleep_loop wakes) (fun _ s' => inside napping s') s.
Proof.
  induction 1 as [|irq wakes Hirq _ IH]; intros s [Hcc [Hc Ht]] Hsl; cbn [tickless_sleep_loop]; [wp_step; exact (conj Hcc (conj Hc Ht))|].
  wp_step. apply exit_napping; [exact (conj Hcc (conj Hc Ht))|]. intros s1 Hn1 Et1.
  wp_step. eapply wp_mono; [apply Hirq; [exact Hn1|by rewrite Et1]|]. intros [] s2 [Hc2 Ht2]. wp_step.
  apply wp_enter_critical; [rewrite (ko_count _ (ci_kernel _ Hc2)); lia|]. pose proof (entered_inside s2 Hc2) as [Hcc3 Hc3].
  match goal with |- wp _ _ ?x => set (s3 := x) in * end. do 2 wp_step. wp_step.
  assert (inside napping s3) as Hin by (split; [done|split; [done|exact Ht2]]).
  destruct (_isix_port_systimer_is_sleeping (k_timer s3)) eqn:Es.
  - eapply wp_mono; [apply can_enter_spec; apply (ko_inv _ (ci_kernel _ Hc3))|]. intros b s4 ->.
    destruct b; [by apply IH|by wp_step].
  - by do 2 wp_step.
Qed.

(** A critical section that ends the sleep. *)
Lemma leave_awake s :
  inside clocks_ok s -> wp (isix_exit_critical;;; ret true) (fun awake s' => if awake then clocks_ok s' else inside napping s') s.
Proof. intros Hc. wp_step. apply exit_inside; [done|]. intros s' Hc' _ _. by wp_step. Qed.

(** The counter of critical sections is not looked at when the clock goes on. *)
Lemma advanced_outside n s s' :
  advanced n s s' -> advanced n (upd_critical_count (fun _ => 0) s) (upd_critical_count (fun _ => 0) s').
Proof.
  intros A. split; try exact (ad_inv _ _ _ A); try exact (ad_now _ _ _ A); try exact (ad_rest _ _ _ A); try exact (ad_asleep _ _ _ A);
    try exact (ad_woken _ _ _ A); try exact (ad_waiting _ _ _ A).
  exact (f_equal (upd_critical_count (fun _ => 0)) (ad_frame _ _ _ A)).
Qed.

Lemma advanced_inside n s s' : inside clocks_ok s -> advanced n s s' -> inside clocks_ok s'.
Proof.
  intros [Hcc [Hk Ht Hv]] A. pose proof (ad_frame _ _ _ A) as Hf.
  split; [by rewrite <- (f_equal k_critical_count Hf : k_critical_count s = k_critical_count s')|]. split.
  - eapply advanced_ok; [exact Hk|by apply advanced_outside].
  - simpl. by rewrite <- (f_equal k_timer Hf : k_timer s = k_timer s').
  - simpl. by rewrite <- (f_equal k_vt Hf : k_vt s = k_vt s').
Qed.

(** The timer is programmed again. *)
Lemma timer_inside t' s : inside clocks_ok s -> timer_ok t' -> inside clocks_ok (upd_timer (fun _ => t') s).
Proof. intros [Hcc Hc] Ht. split; [done|]. by eapply clocks_ok_timer; [exact Hc|..]. Qed.

Lemma sleep_time_bound t : timer_ok t -> 0 <= sleep_time t <= SYSTIMER_RANGE + 1.
Proof.
  intros (Hc & Hst & _). unfold sleep_time, SYSTIMER_RANGE in *.
  destruct (g_state t); [lia|destruct Hst as [H1 H2]; [done|]..];
    assert (g_expected t <= g_expected t * g_tick_cycles t) by nia; lia.
Qed.

(** The interrupts have ended the sleep; the clock catches up. *)
Lemma wake_up_spec s :
  inside clocks_ok s ->
  wp (n <- systimer_resync;; catch_up_missed_ticks n;;; isix_exit_critical;;; ret true)
    (fun awake s' => if awake then clocks_ok s' else inside napping s') s.
Proof.
  intros Hin. pose proof Hin as [Hcc [Hk Ht Hv]]. unfold systimer_resync. do 3 wp_step.
  destruct (_isix_port_systimer_resync (k_timer s)) as [n t'] eqn:Er. destruct (resync_ok _ _ _ Ht Er) as [Ht' Hn].
  pose proof (sleep_time_bound _ Ht) as Hb. simpl in Hb, Hn. unfold SYSTIMER_RANGE in Hb. do 3 wp_step.
  pose proof (timer_inside t' s Hin Ht') as Hin'. set (s1 := upd_timer _ s) in *. wp_step.
  unfold catch_up_missed_ticks. do 2 wp_step.
  rewrite (ko_schrun _ Hk : k_schrun s1 = true), orb_false_r.
  destruct (Z.eqb_spec n 0); [wp_step; by apply leave_awake|].
  do 2 wp_step. rewrite (ko_lock _ Hk : k_sched_lock s1 = 0). change (negb (0 =? 0)) with false. cbv iota.
  eapply wp_mono; [apply (advance_jiffies_spec n); [exact (ko_inv _ (ci_kernel _ (proj2 Hin')))|exact (ko_schrun _ Hk)|lia]|].
  intros [] s2 A. apply leave_awake. by eapply advanced_inside.
Qed.

(** No wait that is planned is shorter than one tick, none is longer than the first deadline allows. *)
Lemma planned_in_time s next r t' :
  inside clocks_ok s -> timer_ok t' -> 2 <= r <= next -> sleep_time t' = r ->
  (forall t rest, remaining s t = Some rest -> next <= rest) ->
  (vt_worker (k_vt s) <> NULL -> forall o, first_vtimer (k_vt s) = Some o -> next <= Z.max 1 (v_jiffies o - k_jiffies s)) ->
  inside napping (upd_timer (fun _ => t') s).
Proof.
  intros Hin Ht' Hr Es Hrem Hvt. destruct (timer_inside t' s Hin Ht') as [Hcc Hc]. split; [done|]. split; [done|]. split.
  - intros t rest E. specialize (Hrem t rest E). simpl. lia.
  - intros Hw _ o Ho. specialize (Hvt Hw o Ho). simpl. lia.
Qed.

Lemma enter_tickless_idle_spec wakes s :
  clocks_ok s -> Forall irq_ok wakes ->
  wp (enter_tickless_idle wakes) (fun awake s' => if awake then clocks_ok s' else inside napping s') s.
Proof.
  intros Hc Hirq. unfold enter_tickless_idle. wp_step.
  apply wp_enter_critical; [rewrite (ko_count _ (ci_kernel _ Hc)); lia|].
  pose proof (entered_inside s Hc) as Hin. set (s1 := upd_critical_count _ _) in *. clearbody s1. clear s Hc.
  pose proof Hin as [Hcc [Hk Ht Hv]]. do 3 wp_step.
  apply (wp_mono _ (fun _ s' => s' = s1)).
  { destruct (_isix_port_systimer_is_sleeping _); [by wp_step|apply can_enter_spec, (ko_inv _ Hk)]. }
  intros can s2 ->. destruct (negb can); [by apply leave_awake|]. wp_step.
  eapply wp_mono; [apply next_timeout_spec; [exact (proj2 (proj2 (ko_inv _ Hk)))|exact Hv]|].
  intros next s2 (-> & Hn & Hrem & Hvt). unfold CONFIG_ISIX_TICKLESS_MIN_SLEEP_TICKS. wp_step.
  destruct (Z.ltb_spec next 2); [wp_step; by apply leave_awake|].
  unfold systimer_set_timeout. do 2 wp_step. destruct (_isix_port_systimer_set_timeout next (k_timer s1)) as [r t'] eqn:Es.
  destruct (set_timeout_bounds next _ _ _ Ht ltac:(lia) Es) as (Hr & Ht' & Harm). do 3 wp_step.
  destruct (Z.ltb_spec r 2); [apply leave_awake; by apply timer_inside|]. destruct Harm as (Eg & Ee & _); [lia|].
  wp_step. eapply wp_mono.
  { apply sleep_loop_ok; [done| |].
    - apply (planned_in_time s1 next r t'); [done|done|lia| |done|done]. unfold sleep_time. rewrite Eg. lia.
    - simpl. unfold _isix_port_systimer_is_sleeping. by rewrite Eg. }
  intros awake s3 Hin3. destruct awake; cbn [negb]; cbv iota; [|by wp_step]. apply wake_up_spec. by destruct Hin3 as [? [? _]].
Qed.

(** ** The timer interrupt *)

(** The ticks that are announced are those the timer no longer plans to sleep. *)
Lemma announced_in_time n t' s s' :
  in_time s -> clocks_ok s -> 0 <= n < 2 ^ 32 -> sleep_time t' = sleep_time (k_timer s) - n ->
  advanced n (upd_timer (fun _ => t') s) s' -> in_time s'.
Proof.
  intros [Hr Hv] [Hk Ht Hvt] Hn Es A. pose proof (ad_frame _ _ _ A) as Hf. split; rewrite <- (f_equal k_timer Hf : t' = k_timer s').
  - intros t rest E. rewrite (ad_rest _ _ _ A) in E. change (remaining (upd_timer _ s) t) with (remaining s t) in E.
    destruct (remaining s t) as [r|] eqn:Er; [|done]. specialize (Hr t r Er). simpl in E.
    destruct (r <=? n); [done|]. injection E as <-. lia.
  - rewrite <- (f_equal k_vt Hf : k_vt s = k_vt s'), (ad_now _ _ _ A). change (k_jiffies (upd_timer _ s)) with (k_jiffies s).
    intros Hw Hp o Ho. specialize (Hv Hw ltac:(lia) o Ho). destruct (Hvt Hw) as (l & Hl & Hm).
    unfold first_vtimer in Ho. rewrite Hl in Ho. destruct l as [|x l']; [done|]. destruct (Hm x l' eq_refl) as (o' & Ho' & Hu).
    simpl in Ho. assert (o' = o) as -> by congruence. unfold in_u32 in Hu.
    destruct (ko_inv _ Hk) as (_ & _ & [_ Hj _ _]). unfold in_u32 in Hj. rewrite u32_id by (unfold in_u32; lia). lia.
Qed.

(** The interrupt of the timer may come while the task sleeps. *)
Lemma systick_keeps_time : irq_ok systick_isr_vector.
Proof.
  intros s [Hc Hin] Hsl. unfold systick_isr_vector, _isix_port_systimer_isr. wp_step. wp_step.
  apply wp_enter_critical; [rewrite (ko_count _ (ci_kernel _ Hc)); lia|].
  pose proof (entered_inside s Hc) as Hc1.
  assert (in_time (upd_critical_count (fun _ => 0) (upd_critical_count (fun c => c + 1) (upd_masked (fun _ => true) s)))) as Hin1 by exact Hin.
  change (k_timer s) with (k_timer (upd_critical_count (fun c => c + 1) (upd_masked (fun _ => true) s))) in Hsl.
  set (s1 := upd_critical_count (fun c => c + 1) _) in *. clearbody s1. clear s Hc Hin.
  pose proof Hc1 as [Hcc [Hk Ht Hv]]. do 2 wp_step. destruct (systimer_isr_ticks (k_timer s1)) as [n t'] eqn:Es.
  destruct (isr_ticks_ok _ _ _ Ht Es) as (Ht' & Hn & Hst).
  assert (g_state (k_timer s1) <> st_off) as Hoff by (intros E; unfold _isix_port_systimer_is_sleeping in Hsl; by rewrite E in Hsl).
  specialize (Hst Hoff). do 2 wp_step. pose proof (timer_inside t' s1 Hc1 Ht') as Hc2. wp_step. unfold _isixp_systimer_announce. do 2 wp_step.
  change (k_sched_lock (upd_timer _ s1)) with (k_sched_lock s1). rewrite (ko_lock _ Hk : k_sched_lock s1 = 0).
  change (negb (0 =? 0)) with false. cbv iota.
  eapply wp_mono; [apply (advance_jiffies_spec n); [exact (ko_inv _ (ci_kernel _ (proj2 Hc2)))|exact (ko_schrun _ Hk)|lia]|].
  intros [] s2 A. apply exit_napping.
  - destruct (advanced_inside _ _ _ Hc2 A) as [Hcc3 Hc3]. split; [done|]. split; [done|].
    eapply (announced_in_time n t'); [exact Hin1|exact (proj2 Hc1)|lia|exact Hst|]. exact (advanced_outside _ _ _ A).
  - intros s3 [Hc3 Ht3] _. do 2 wp_step. unfold when. destruct (k_schrun s3); wp_step; [|done]. split; [|exact Ht3].
    destruct Hc3 as [Hk3 Ht3' Hv3]. split; [|done|done]. pose proof (ko_count _ Hk3).
    eapply kernel_ok_same_clock; [exact Hk3|by repeat split|done|done].
Qed.

(** ** The round *)

Lemma cleanup_clocks s : clocks_ok s -> k_currp s = idle -> wp cleanup_tasks (fun _ => clocks_ok) s.
Proof.
  intros [Hk Ht Hv] Hcur. destruct (gv_dead _ (ko_graves _ Hk)) as (zs & Hz & Hd). destruct zs as [|t zs].
  { unfold cleanup_tasks. wp_step. wp_step. by rewrite Hd. }
  destruct (r_at _ _ _ _ _ (proj1 (ko_inv _ Hk)) QZombie _ t Hz) as (o & Ho & _); [by left|].
  eapply wp_mono; [by eapply cleanup_dead_spec|]. intros [] s' [Hk' C].
  split; [done|by rewrite (cu_timer _ _ _ _ _ C)|by rewrite (cu_vt _ _ _ _ _ C)].
Qed.

(** C16: A round of the idle task returns, or still waits for an interrupt, with the kernel and its
    clocks well formed, whatever interrupts that keep them so end the waits (the interrupt of the
    system timer among them): the memory of a dead task is given back in between, the ticks slept
    are counted, and while the task waits the sleep the timer has been programmed for ends neither
    after the deadline of a sleeping task nor after that of a software timer. *)
Theorem idle_round_keeps_time wakes s :
  clocks_ok s -> k_currp s = idle -> Forall (fun irq => irq = systick_isr_vector \/ irq_ok irq) wakes ->
  wp (idle_round wakes) (fun awake s' => if awake then clocks_ok s' else inside napping s') s.
Proof.
  intros Hc Hcur Hw. unfold idle_round. wp_step. eapply wp_mono; [by apply cleanup_clocks|].
  intros [] s' Hc'. apply enter_tickless_idle_spec; [done|].
  eapply Forall_impl; [exact Hw|]. intros irq [->|Hi]; [apply systick_keeps_time|done].
Qed.

End Idle.
