(* ===== verification/Switch.v ===== *)
(** * The context switch of the Cortex-M ports

    The PendSV and SVC handlers of [arch/arm/cortexm/m3/scheduler.c] and
    [arch/arm/cortexm/m4f/scheduler.c]: they save the registers the processor does not stack on
    its own below the stack pointer of the running task, store the stack pointer in its control
    block, call [_isixp_schedule], and restore the registers of the task it has chosen.  A
    switch leaves the context of every task as it was. *)

From S2P Require Import Prelude.
From S2P Require Import DList.
From S2P Require Import Kernel.
From S2P Require Import Memory.
From S2P Require Import Scheduler.
From S2P Require Import Task.
From S2P Require Import SchedInv.
From S2P Require Import SchedCore.
From S2P Require Import TaskLife.
From S2P Require Import KernelInv.
From S2P Require Import KernelTasks.
From stdpp Require Import base numbers gmap list sorting strings.
From Stdlib Require Import ZArith Lia.
Local Open Scope Z_scope.
Local Open Scope isix_scope.

(** The registers a handler saves: r4-r11, the link register with the code of the exception
    return, s16-s31 of the floating point unit, the stack pointer of the tasks.  The counter
    of critical sections and the mask (BASEPRI) belong to the kernel. *)
Record cpu : Type := Cpu {
  c_regs : list Z;
  c_lr : Z;
  c_fp : list Z;
  c_psp : Z
}.

Section Switch.
Context {HS : Type} {AL : Allocator HS}.
Implicit Types s : kstate HS.

Local Abbreviation KM := (K HS).

(** ** The handlers *)

(** [str r0, [r2]] to [ldr r0, [r1]]: the pointer in the control block of the task, the
    scheduler with the interrupts masked, and the pointer of the task that runs now. *)
Definition switch_stacks (sp : Z) : KM Z :=
  cur <- gets k_currp;;
  task_upd cur (set_t_top_stack sp);;;
  modify (upd_masked (fun _ => true));;;
  _isixp_schedule;;;
  modify (upd_masked (fun _ => false));;;
  cur <- gets k_currp;;
  o <- task_get cur;;
  ret (t_top_stack o).

(** [ldmia r0!] *)
Definition load_regs (a : Z) (n : nat) : KM (list Z) := m <- gets k_mem;; of_option (load_words a n m).

(** [stmdb r0!]: the pointer after the registers have been stored. *)
Definition push_regs (sp : Z) (ws : list Z) : KM Z :=
  let sp := sp - 4 * Z.of_nat (length ws) in
  modify (upd_mem (store_words sp ws));;; ret sp.

(** [pend_svc_isr_vector] of the Cortex-M3 port; the pending bit clears on entry. *)
Definition pend_svc_m3 (c : cpu) : KM cpu :=
  modify (upd_pendsv (fun _ => false));;;
  sp <- push_regs (c_psp c) (c_regs c);;
  top <- switch_stacks sp;;
  regs <- load_regs top 8;;
  ret (Cpu regs (c_lr c) (c_fp c) (top + 32)).

(** [tst lr, #0x10; it eq]: the task has used the floating point unit. *)
Definition uses_fp (lr : Z) : bool := Z.land lr 0x10 =? 0.

(** [pend_svc_isr_vector] of the Cortex-M4F port. *)
Definition pend_svc_m4f (c : cpu) : KM cpu :=
  modify (upd_pendsv (fun _ => false));;;
  sp <- (if uses_fp (c_lr c) then push_regs (c_psp c) (c_fp c) else ret (c_psp c));;
  sp <- push_regs sp (c_regs c ++ [c_lr c]);;
  top <- switch_stacks sp;;
  regs <- load_regs top 9;;
  let lr := nth 8 regs 0 in
  let sp := top + 36 in
  if uses_fp lr then
    fp <- load_regs sp 16;;
    ret (Cpu (take 8 regs) lr fp (sp + 64))
  else ret (Cpu (take 8 regs) lr (c_fp c) sp).

(** [svc_isr_vector] of the Cortex-M3 port: the first task starts. *)
Definition svc_m3 (c : cpu) : KM cpu :=
  modify (upd_schrun (fun _ => true));;;
  cur <- gets k_currp;;
  o <- task_get cur;;
  regs <- load_regs (t_top_stack o) 8;;
  modify (upd_masked (fun _ => false));;;
  ret (Cpu regs (Z.lor (c_lr c) 0xd) (c_fp c) (t_top_stack o + 32)).

(** [svc_isr_vector] of the Cortex-M4F port. *)
Definition svc_m4f (c : cpu) : KM cpu :=
  modify (upd_schrun (fun _ => true));;;
  cur <- gets k_currp;;
  o <- task_get cur;;
  regs <- load_regs (t_top_stack o) 9;;
  modify (upd_masked (fun _ => false));;;
  ret (Cpu (take 8 regs) (nth 8 regs 0) (c_fp c) (t_top_stack o + 36)).

(** [_isix_port_start_first_task]: the revisions of the core that are refused, and the SVC. *)
Definition CPUID_CORTEX_M7_r0p1 : Z := 0x410FC271.
Definition CPUID_CORTEX_M7_r0p0 : Z := 0x410FC270.

Definition check_cpu_revision (cpuid : Z) : KM unit :=
  if cpuid =? CPUID_CORTEX_M7_r0p1 then panic "Buggy CPU core M7 rev. r0p1 unsupported."%string
  else if cpuid =? CPUID_CORTEX_M7_r0p0 then panic "Buggy CPU core M7 rev. r0p0 unsupported."%string
  else ret tt.

Definition _isix_port_start_first_task (cpuid : Z) (svc : cpu -> KM cpu) (c : cpu) : KM cpu :=
  check_cpu_revision cpuid;;; svc c.

(** [_isixp_task_init_stack] of the Cortex-M4F port: the stack pointer and the memory. *)
Definition INITIAL_EXEC_RETURN : Z := 0xfffffffd.

Definition init_stack_m4f (terminator sp pfun param : Z) (m : gmap Z Z) : Z * gmap Z Z :=
  let sp := sp - 4 in
  let m := mem_write sp (word_bytes INITIAL_XPSR) m in
  let sp := sp - 4 in
  let m := mem_write sp (word_bytes pfun) m in
  let sp := sp - 4 in
  let m := mem_write sp (word_bytes terminator) m in
  let sp := sp - 5 * 4 in
  let m := mem_write sp (word_bytes param) m in
  let sp := sp - 4 in
  let m := mem_write sp (word_bytes INITIAL_EXEC_RETURN) m in
  (sp - 8 * 4, m).

(** ** The switch of stacks *)

Lemma set_top_stack_switchable sp o s :
  switchable s -> k_tasks s !! k_currp s = Some o ->
  switchable (upd_masked (fun _ => true) (upd_tasks (insert (k_currp s) (set_t_top_stack sp o)) s)).
Proof.
  intros [Hok Hrun Hc Hcc Hl (t & ot & Hot & Ha)] Ho. split; try done.
  - eapply ready_ok_upd_same; [exact Hok|exact Ho|done| |done]. intros h Hat. by destruct h.
  - intros x ox. simpl. rewrite lookup_insert. case_decide as E; [subst x; done|apply Hrun].
  - simpl. rewrite lookup_insert_eq. by eexists.
  - exists t. simpl. rewrite lookup_insert. case_decide as E; [subst t|by eexists].
    assert (ot = o) as -> by congruence. by eexists.
Qed.

(** Two tasks, or twice the same: the memory is untouched, and so are the pointers of all
    tasks but the one that was running. *)
Record stacks_switched (sp : Z) s (top : Z) s' : Prop := {
  st_switchable : switchable s';
  st_running : exists o', k_tasks s' !! k_currp s' = Some o' /\ t_top_stack o' = top /\ active (t_state o') = true;
  st_mem : k_mem s' = k_mem s;
  st_masked : k_masked s' = false;
  st_tops : forall t, option_Forall2 (fun o o' => t_top_stack o' = (if decide (t = k_currp s) then sp else t_top_stack o) /\
    active (t_state o') = active (t_state o)) (k_tasks s !! t) (k_tasks s' !! t)
}.

Lemma switch_stacks_spec sp s :
  switchable s -> wp (switch_stacks sp) (fun top s' => stacks_switched sp s top s') s.
Proof.
  intros Hsw. destruct (sw_curr _ Hsw) as [oc Hoc]. unfold switch_stacks. do 2 wp_step. wp_step. eapply wp_task_upd; [exact Hoc|].
  do 2 wp_step. wp_step. eapply wp_mono; [apply schedule_spec, (set_top_stack_switchable sp oc s Hsw Hoc)|].
  set (s1 := upd_masked _ _). intros [] s' (Hsw' & [_ (o' & Ho' & Hst & _)] & _ & _ & _ & Hf & Htag).
  do 4 wp_step. wp_step. eapply wp_task_get; [exact Ho'|]. wp_step. split.
  - destruct Hsw'. by split.
  - exists o'. split_and!; [done|done|by rewrite Hst].
  - exact (eq_sym (f_equal k_mem Hf)).
  - done.
  - intros t. simpl. specialize (Htag t). simpl in Htag. rewrite lookup_insert in Htag. case_decide as E.
    + subst t. rewrite Hoc. simpl in Htag.
      destruct (active (t_state oc)) eqn:Ha; [destruct Htag as (st & Hst' & ->)|rewrite Htag]; constructor; (split; [by rewrite decide_True|simpl; congruence]).
    + destruct (k_tasks s !! t) as [o|]; [|rewrite Htag; constructor].
      destruct (active (t_state o)) eqn:Ha; [destruct Htag as (st & Hst' & ->)|rewrite Htag]; constructor; (split; [by rewrite decide_False|simpl; congruence]).
Qed.

(** ** Contexts *)

(** The registers are 32-bit words. *)
Record cpu_ok (x : cpu) : Prop := {
  co_regs : length (c_regs x) = 8%nat;
  co_words : Forall in_u32 (c_regs x);
  co_lr : in_u32 (c_lr x);
  co_fp : length (c_fp x) = 16%nat;
  co_fp_words : Forall in_u32 (c_fp x)
}.

(** What the two ports save: [same x c] when the processor has the context [x] as far as it is
    the task's own, the [size] of the area below the stack pointer, and [saved m top x] when
    [x] lies in the memory [m] at the saved pointer [top]. *)
Record port := Port {
  same : cpu -> cpu -> Prop;
  area : cpu -> Z;
  saved : gmap Z Z -> Z -> cpu -> Prop
}.

Definition m3 : port := Port
  (fun x c => c_regs c = c_regs x /\ c_psp c = c_psp x)
  (fun _ => 32)
  (fun m top x => top = c_psp x - 32 /\ load_words top 8 m = Some (c_regs x)).

(** The floating point registers count once the task has used them. *)
Definition m4f : port := Port
  (fun x c => c_regs c = c_regs x /\ c_lr c = c_lr x /\ c_psp c = c_psp x /\ (uses_fp (c_lr x) = true -> c_fp c = c_fp x))
  (fun x => if uses_fp (c_lr x) then 100 else 36)
  (fun m top x => top = c_psp x - (if uses_fp (c_lr x) then 100 else 36) /\
    load_words top 9 m = Some (c_regs x ++ [c_lr x]) /\
    (uses_fp (c_lr x) = true -> load_words (top + 36) 16 m = Some (c_fp x))).

(** Only the area below the stack pointer counts. *)
Definition local_area (p : port) : Prop := forall m m' top x,
  (forall a, c_psp x - area p x <= a < c_psp x -> m' !! a = m !! a) -> saved p m top x -> saved p m' top x.

Lemma m3_local : local_area m3.
Proof. intros m m' top x Hm [-> Hl]. split; [done|]. rewrite <- Hl. apply load_words_ext. intros a Ha. apply Hm. simpl. lia. Qed.

Lemma m4f_local : local_area m4f.
Proof.
  intros m m' top x Hm (-> & Hl & Hf). simpl in Hm. split; [done|]. split.
  - rewrite <- Hl. apply load_words_ext. intros a Ha. apply Hm. destruct (uses_fp _); lia.
  - intros Hu. rewrite <- Hf by done. apply load_words_ext. intros a Ha. apply Hm. rewrite Hu in *. lia.
Qed.

(** The processor has the context of the running task, those of the others are saved. *)
Definition contexts_ok (p : port) (ctx : gmap Z cpu) (c : cpu) s : Prop :=
  forall t x, ctx !! t = Some x -> exists o, k_tasks s !! t = Some o /\
    if decide (t = k_currp s) then same p x c else saved p (k_mem s) (t_top_stack o) x.

(** Every task that can run has a context; the areas do not overlap. *)
Record stacks_ok (p : port) (ctx : gmap Z cpu) s : Prop := {
  sk_cpu : forall t x, ctx !! t = Some x -> cpu_ok x;
  sk_apart : forall t1 t2 x1 x2, ctx !! t1 = Some x1 -> ctx !! t2 = Some x2 -> t1 <> t2 ->
    c_psp x1 <= c_psp x2 - area p x2 \/ c_psp x2 <= c_psp x1 - area p x1;
  sk_active : forall t o, k_tasks s !! t = Some o -> active (t_state o) = true -> is_Some (ctx !! t);
  sk_curr : is_Some (ctx !! k_currp s)
}.

(** The context of the running task [x0] has been stored in its area, and the stacks have been
    switched: the context of the task that runs now lies at its pointer. *)
Lemma contexts_switched p ctx c s m1 sp x0 top s' :
  local_area p -> contexts_ok p ctx c s -> stacks_ok p ctx s -> ctx !! k_currp s = Some x0 ->
  (forall a, a < c_psp x0 - area p x0 \/ c_psp x0 <= a -> m1 !! a = k_mem s !! a) -> saved p m1 sp x0 ->
  stacks_switched sp (upd_mem (fun _ => m1) s) top s' ->
  exists x, ctx !! k_currp s' = Some x /\ saved p (k_mem s') top x /\
    forall c', same p x c' -> contexts_ok p ctx c' s' /\ stacks_ok p ctx s'.
Proof.
  intros Hloc Hok Hst Hx0 Hm1 Hsv W. pose proof (st_mem _ _ _ _ W) as Em. simpl in Em.
  assert (forall t o x, t <> k_currp s -> k_tasks s !! t = Some o -> ctx !! t = Some x -> saved p m1 (t_top_stack o) x) as Hothers.
  { intros t o x Ht Ho Hx. destruct (Hok t x Hx) as (o1 & Ho1 & Hs). rewrite decide_False in Hs by done.
    assert (o1 = o) as -> by congruence. eapply Hloc; [|exact Hs]. intros a Ha. apply Hm1.
    destruct (sk_apart _ _ _ Hst t (k_currp s) x x0 Hx Hx0 Ht); lia. }
  assert (forall t o', k_tasks s' !! t = Some o' -> forall x, ctx !! t = Some x -> saved p m1 (t_top_stack o') x) as Hall.
  { intros t o' Ho' x Hx. pose proof (st_tops _ _ _ _ W t) as Ht. rewrite Ho' in Ht. inversion Ht as [o ? [Etop _] E1 E2|]; subst.
    simpl in Etop. rewrite Etop. case_decide as E; [subst t|by eapply Hothers]. by assert (x = x0) as -> by congruence. }
  destruct (st_running _ _ _ _ W) as (o' & Ho' & Etop & Ha').
  pose proof (st_tops _ _ _ _ W (k_currp s')) as Ht. rewrite Ho' in Ht. inversion Ht as [o ? [_ Ea] E1 E2|]; subst.
  destruct (sk_active _ _ _ Hst (k_currp s') o) as [x Hx]; [by symmetry|congruence|].
  exists x. split_and!; [done|by eapply Hall|]. intros c' Hc'. split.
  - intros t y Hy. destruct (Hok t y Hy) as (ot & Hot & _). pose proof (st_tops _ _ _ _ W t) as Htt. simpl in Htt. rewrite Hot in Htt.
    inversion Htt as [? ot' _ F1 F2|]; subst. clear Htt. exists ot'. split; [done|]. destruct (decide (t = k_currp s')) as [->|E]; [by simplify_eq|].
    by eapply Hall.
  - destruct Hst as [H1 H2 H3 H4]. split; [done|done| |by exists x].
    intros t ot' Hot' Hact. pose proof (st_tops _ _ _ _ W t) as Htt. simpl in Htt. rewrite Hot' in Htt.
    inversion Htt as [ot ? [_ Et] F1 F2|]; subst. eapply H3; [by symmetry|congruence].
Qed.

(** What a handler does: no context has changed, nor the memory outside the area [x0] of the
    task that was interrupted. *)
Record contexts_kept (p : port) (ctx : gmap Z cpu) (x0 : cpu) s (c' : cpu) s' : Prop := {
  ck_switchable : switchable s';
  ck_contexts : contexts_ok p ctx c' s';
  ck_stacks : stacks_ok p ctx s';
  ck_mem : forall a, a < c_psp x0 - area p x0 \/ c_psp x0 <= a -> k_mem s' !! a = k_mem s !! a;
  ck_masked : k_masked s' = false
}.

Lemma stacks_ok_same p ctx s s' :
  k_tasks s' = k_tasks s -> k_currp s' = k_currp s -> stacks_ok p ctx s -> stacks_ok p ctx s'.
Proof. intros Ets Ec [H1 H2 H3 H4]. split; rewrite ?Ets, ?Ec; done. Qed.

(** The part the handlers share: the context [x0] of the running task has been stored, at the
    pointer [sp]; [k] restores the context it finds. *)
Lemma handler_spec p ctx c x0 sp m1 (k : Z -> KM cpu) s :
  local_area p -> switchable s -> contexts_ok p ctx c s -> stacks_ok p ctx s -> ctx !! k_currp s = Some x0 ->
  (forall a, a < c_psp x0 - area p x0 \/ c_psp x0 <= a -> m1 !! a = k_mem s !! a) -> saved p m1 sp x0 ->
  (forall top x s' (Q : cpu -> kstate HS -> Prop), cpu_ok x -> saved p (k_mem s') top x ->
    (forall c', same p x c' -> Q c' s') -> wp (k top) Q s') ->
  wp (top <- switch_stacks sp;; k top) (fun c' s' => contexts_kept p ctx x0 s c' s')
    (upd_mem (fun _ => m1) (upd_pendsv (fun _ => false) s)).
Proof.
  intros Hloc Hsw Hok Hst Hx0 Hm1 Hsv Hk. set (s0 := upd_pendsv (fun _ => false) s).
  wp_step. eapply wp_mono; [apply switch_stacks_spec; by destruct Hsw|]. intros top s' W.
  destruct (contexts_switched p ctx c s0 m1 sp x0 top s') as (x & Hx & Hs & Hall); try done.
  { by apply (stacks_ok_same p ctx s). }
  apply (Hk top x s'); [by eapply sk_cpu|done|]. intros c' Hc'. destruct (Hall c' Hc') as [H1 H2].
  split; [by eapply st_switchable|exact H1|exact H2| |by eapply st_masked].
  intros a Ha. rewrite (st_mem _ _ _ _ W). by apply Hm1.
Qed.

Lemma wp_load_regs a n ws (Q : list Z -> kstate HS -> Prop) s : load_words a n (k_mem s) = Some ws -> Q ws s -> wp (load_regs a n) Q s.
Proof. intros Hl HQ. unfold load_regs. do 2 wp_step. eapply wp_of_option; [exact Hl|done]. Qed.

Lemma wp_push_regs sp ws (Q : Z -> kstate HS -> Prop) s :
  let sp' := sp - 4 * Z.of_nat (length ws) in Q sp' (upd_mem (store_words sp' ws) s) -> wp (push_regs sp ws) Q s.
Proof. intros sp' HQ. unfold push_regs. do 2 wp_step. by wp_step. Qed.

(** ** Cortex-M3 *)

Lemma m3_stored x m : cpu_ok x ->
  let m1 := store_words (c_psp x - 32) (c_regs x) m in
  saved m3 m1 (c_psp x - 32) x /\ forall a, a < c_psp x - 32 \/ c_psp x <= a -> m1 !! a = m !! a.
Proof.
  intros [Hlen Hw _ _ _]. split; [split; [done|]; rewrite <- Hlen; by apply load_words_store|].
  intros a Ha. apply store_words_other. rewrite Hlen. lia.
Qed.

Lemma pend_svc_m3_spec ctx c x0 s :
  switchable s -> contexts_ok m3 ctx c s -> stacks_ok m3 ctx s -> ctx !! k_currp s = Some x0 ->
  wp (pend_svc_m3 c) (fun c' s' => contexts_kept m3 ctx x0 s c' s') s.
Proof.
  intros Hsw Hok Hst Hx0. pose proof (sk_cpu _ _ _ Hst _ _ Hx0) as Hcpu.
  destruct (Hok _ _ Hx0) as (o & Ho & Hsame). rewrite decide_True in Hsame by done. destruct Hsame as [Er Ep].
  destruct (m3_stored x0 (k_mem s) Hcpu) as [Hs Hm]. unfold pend_svc_m3. rewrite Er, Ep. do 2 wp_step. wp_step.
  apply wp_push_regs. rewrite (co_regs _ Hcpu). apply (handler_spec m3 ctx c x0 (c_psp x0 - 32) (store_words (c_psp x0 - 32) (c_regs x0) (k_mem s))); try done.
  - exact m3_local.
  - intros top x s' Q Hx [-> Hl] HQ. wp_step. eapply wp_load_regs; [exact Hl|]. wp_step. apply HQ. split; [done|]. simpl. lia.
Qed.

(** ** Cortex-M4F *)

Definition m4f_frame (x : cpu) (m : gmap Z Z) : gmap Z Z :=
  store_words (c_psp x - area m4f x) (c_regs x ++ [c_lr x]) (if uses_fp (c_lr x) then store_words (c_psp x - 64) (c_fp x) m else m).

Lemma m4f_stored x m : cpu_ok x ->
  saved m4f (m4f_frame x m) (c_psp x - area m4f x) x /\
  forall a, a < c_psp x - area m4f x \/ c_psp x <= a -> m4f_frame x m !! a = m !! a.
Proof.
  intros [Hlen Hw Hlr Hfl Hfw]. assert (length (c_regs x ++ [c_lr x]) = 9%nat) as H9 by (rewrite length_app, Hlen; done).
  assert (Forall in_u32 (c_regs x ++ [c_lr x])) as Hw9 by (apply Forall_app; split; [done|by constructor]).
  unfold m4f_frame. split.
  - split; [done|]. split; [rewrite <- H9; by apply load_words_store|]. intros Hu. change (area m4f x) with (if uses_fp (c_lr x) then 100 else 36). rewrite Hu.
    rewrite load_words_store_other by (rewrite H9; lia). replace (c_psp x - 100 + 36) with (c_psp x - 64) by lia.
    rewrite <- Hfl. by apply load_words_store.
  - intros a Ha. rewrite store_words_other by (rewrite H9; simpl in *; destruct (uses_fp _); lia).
    simpl in Ha. destruct (uses_fp (c_lr x)); [|done]. apply store_words_other. rewrite Hfl. lia.
Qed.

Lemma pend_svc_m4f_spec ctx c x0 s :
  switchable s -> contexts_ok m4f ctx c s -> stacks_ok m4f ctx s -> ctx !! k_currp s = Some x0 ->
  wp (pend_svc_m4f c) (fun c' s' => contexts_kept m4f ctx x0 s c' s') s.
Proof.
  intros Hsw Hok Hst Hx0. pose proof (sk_cpu _ _ _ Hst _ _ Hx0) as Hcpu.
  destruct (Hok _ _ Hx0) as (o & Ho & Hsame). rewrite decide_True in Hsame by done. destruct Hsame as (Er & Elr & Ep & Ef).
  destruct (m4f_stored x0 (k_mem s) Hcpu) as [Hs Hm]. unfold pend_svc_m4f. rewrite Er, Ep, Elr. do 2 wp_step.
  assert (length (c_regs x0 ++ [c_lr x0]) = 9%nat) as H9 by (rewrite length_app, (co_regs _ Hcpu); done).
  assert (forall (k : Z -> KM cpu) (Q : cpu -> kstate HS -> Prop),
    wp (k (c_psp x0 - area m4f x0)) Q (upd_mem (fun _ => m4f_frame x0 (k_mem s)) (upd_pendsv (fun _ => false) s)) ->
    wp (sp <- (if uses_fp (c_lr x0) then push_regs (c_psp x0) (c_fp c) else ret (c_psp x0));;
        sp <- push_regs sp (c_regs x0 ++ [c_lr x0]);; k sp) Q (upd_pendsv (fun _ => false) s)) as Hpush.
  { intros k Q HQ. unfold m4f_frame in HQ. simpl area in HQ. destruct (uses_fp (c_lr x0)) eqn:Hu; wp_step.
    - rewrite Ef by done. apply wp_push_regs. wp_step. apply wp_push_regs. rewrite H9, (co_fp _ Hcpu).
      replace (c_psp x0 - 4 * Z.of_nat 16 - 4 * Z.of_nat 9) with (c_psp x0 - 100) by lia. exact HQ.
    - wp_step. wp_step. apply wp_push_regs. rewrite H9. exact HQ. }
  apply Hpush. apply (handler_spec m4f ctx c x0 _ (m4f_frame x0 (k_mem s))); try done; [exact m4f_local|].
  intros top x s' Q Hx (-> & Hl & Hf) HQ. wp_step. eapply wp_load_regs; [exact Hl|]. cbv zeta.
  rewrite app_nth2 by (rewrite (co_regs _ Hx); lia). rewrite (co_regs _ Hx). change (nth (8 - 8) [c_lr x] 0) with (c_lr x).
  rewrite take_app_length' by (symmetry; exact (co_regs _ Hx)). destruct (uses_fp (c_lr x)) eqn:Hu.
  - wp_step. eapply wp_load_regs; [by apply Hf|]. wp_step. apply HQ. split_and!; simpl; try done. lia.
  - wp_step. apply HQ. split_and!; simpl; try done; [lia|congruence].
Qed.

(** ** The first context of a task *)

Context (terminator reent_size : Z).

(** The bytes of the stack before it is used, four in a word. *)
Definition fill_word : Z := 0x55555555.

(** The context and the exception frame [isix_task_create] has prepared: the task starts at
    [func] with [param] in r0, and returns to the terminator. *)
Definition first_context (c : cpu) (base : Z) : cpu := Cpu (replicate 8 fill_word) (c_lr c) (c_fp c) (base - 32).

Definition exception_frame (func param : Z) : list Z :=
  [param; fill_word; fill_word; fill_word; fill_word; terminator; func; INITIAL_XPSR].

(** The words of the frame the two ports have in common. *)
Lemma exception_frame_words base func param m :
  in_u32 terminator -> in_u32 func -> in_u32 param ->
  (forall a, base - 28 <= a <= base - 16 -> mem_read a 4 m = Some (word_bytes fill_word)) ->
  let m1 := mem_write (base - 4 - 4 - 4 - 5 * 4) (word_bytes param) (mem_write (base - 4 - 4 - 4) (word_bytes terminator)
    (mem_write (base - 4 - 4) (word_bytes func) (mem_write (base - 4) (word_bytes INITIAL_XPSR) m))) in
  load_words (base - 32) 8 m1 = Some (exception_frame func param).
Proof.
  intros Ht Hf Hp Hfill m1. assert (in_u32 fill_word /\ in_u32 INITIAL_XPSR) as [Hfw Hx] by done.
  assert (forall a, base - 28 <= a <= base - 16 -> mem_read a 4 m1 = Some (word_bytes fill_word)) as Hfill1.
  { intros a Ha. unfold m1. do 4 rewrite mem_read_write_other by (simpl; lia). by apply Hfill. }
  assert (mem_read (base - 32) 4 m1 = Some (word_bytes param)) as H0.
  { unfold m1. replace (base - 4 - 4 - 4 - 5 * 4) with (base - 32) by lia. apply (mem_read_write (word_bytes param)). }
  assert (mem_read (base - 12) 4 m1 = Some (word_bytes terminator)) as H5.
  { unfold m1. rewrite mem_read_write_other by (simpl; lia). replace (base - 4 - 4 - 4) with (base - 12) by lia.
    apply (mem_read_write (word_bytes terminator)). }
  assert (mem_read (base - 8) 4 m1 = Some (word_bytes func)) as H6.
  { unfold m1. do 2 rewrite mem_read_write_other by (simpl; lia). replace (base - 4 - 4) with (base - 8) by lia.
    apply (mem_read_write (word_bytes func)). }
  assert (mem_read (base - 4) 4 m1 = Some (word_bytes INITIAL_XPSR)) as H7.
  { unfold m1. do 3 rewrite mem_read_write_other by (simpl; lia). apply (mem_read_write (word_bytes INITIAL_XPSR)). }
  clearbody m1. apply load_words_cons; [done|exact H0|].
  do 4 (apply load_words_cons; [done|apply Hfill1; lia|]).
  apply load_words_cons; [done|rewrite <- H5; f_equal; lia|]. apply load_words_cons; [done|rewrite <- H6; f_equal; lia|].
  apply load_words_cons; [done|rewrite <- H7; f_equal; lia|]. done.
Qed.

Lemma fill_words a n stack depth m :
  stack <= a -> a + 4 * Z.of_nat n <= stack + depth ->
  load_words a n (mem_fill stack MAGIC_FILL_VALUE (Z.to_nat depth) m) = Some (replicate n fill_word).
Proof.
  revert a. induction n as [|n IH]; intros a H1 H2; [done|]. apply load_words_cons; [done| |apply IH; lia].
  rewrite mem_read_fill by lia. done.
Qed.

Lemma fill_word_at a stack depth m :
  stack <= a -> a + 4 <= stack + depth ->
  mem_read a 4 (mem_fill stack MAGIC_FILL_VALUE (Z.to_nat depth) m) = Some (word_bytes fill_word).
Proof. intros H1 H2. rewrite mem_read_fill by lia. done. Qed.

Lemma first_stack_words stack depth func param m :
  in_u32 terminator -> in_u32 func -> in_u32 param -> 64 <= depth ->
  let base := stack + depth in let r := first_stack terminator stack depth func param m in
  fst r = base - 64 /\ load_words (base - 64) 8 (snd r) = Some (replicate 8 fill_word) /\
  load_words (base - 32) 8 (snd r) = Some (exception_frame func param).
Proof.
  intros Ht Hf Hp Hd base. unfold first_stack, _isixp_task_init_stack. fold base. cbv zeta. cbn [fst snd]. split_and!; [lia| |].
  - rewrite (load_words_ext 8 (base - 64) (mem_fill stack MAGIC_FILL_VALUE (Z.to_nat depth) m)); [apply fill_words; unfold base; lia|].
    intros a Ha. by do 4 rewrite mem_write_other by (simpl; lia).
  - apply exception_frame_words; try done. intros a Ha. apply fill_word_at; unfold base in *; lia.
Qed.

(** The same of the Cortex-M4F port: the link register is saved, too. *)
Lemma init_stack_m4f_words stack depth func param m c :
  in_u32 terminator -> in_u32 func -> in_u32 param -> 68 <= depth ->
  let base := stack + depth in
  let r := init_stack_m4f terminator base func param (mem_fill stack MAGIC_FILL_VALUE (Z.to_nat depth) m) in
  saved m4f (snd r) (fst r) (Cpu (replicate 8 fill_word) INITIAL_EXEC_RETURN (c_fp c) (base - 32)) /\
  load_words (base - 32) 8 (snd r) = Some (exception_frame func param).
Proof.
  intros Ht Hf Hp Hd base. unfold init_stack_m4f. fold base. cbv zeta. cbn [fst snd]. split.
  - split; [cbn [c_psp c_lr]; change (uses_fp INITIAL_EXEC_RETURN) with false; cbv iota; lia|]. split; [|done].
    apply (load_words_app 8 1).
    + rewrite (load_words_ext 8 _ (mem_fill stack MAGIC_FILL_VALUE (Z.to_nat depth) m)); [apply fill_words; unfold base; lia|].
      intros a Ha. by do 5 rewrite mem_write_other by (simpl; lia).
    + apply load_words_cons; [done| |done]. replace (base - 4 - 4 - 4 - 5 * 4 - 4 - 8 * 4 + 4 * Z.of_nat 8) with (base - 4 - 4 - 4 - 5 * 4 - 4) by lia.
      apply (mem_read_write (word_bytes INITIAL_EXEC_RETURN)).
  - rewrite (load_words_ext 8 (base - 32) (mem_write (base - 4 - 4 - 4 - 5 * 4) (word_bytes param) (mem_write (base - 4 - 4 - 4) (word_bytes terminator)
      (mem_write (base - 4 - 4) (word_bytes func) (mem_write (base - 4) (word_bytes INITIAL_XPSR) (mem_fill stack MAGIC_FILL_VALUE (Z.to_nat depth) m)))))).
    + apply exception_frame_words; try done. intros a Ha. apply fill_word_at; unfold base in *; lia.
    + intros a Ha. by rewrite mem_write_other by (simpl; lia).
Qed.

(** ** The first task *)

Lemma svc_m3_spec c x o s :
  k_tasks s !! k_currp s = Some o -> saved m3 (k_mem s) (t_top_stack o) x ->
  wp (svc_m3 c) (fun c' s' => same m3 x c' /\ s' = upd_masked (fun _ => false) (upd_schrun (fun _ => true) s)) s.
Proof.
  intros Ho [Et Hl]. rewrite Et in Hl. unfold svc_m3. do 4 wp_step. wp_step. eapply wp_task_get; [exact Ho|]. rewrite Et. wp_step.
  eapply wp_load_regs; [exact Hl|]. do 3 wp_step. split; [|done]. split; [done|]. simpl. lia.
Qed.

Lemma svc_m4f_spec c x o s :
  cpu_ok x -> k_tasks s !! k_currp s = Some o -> saved m4f (k_mem s) (t_top_stack o) x -> uses_fp (c_lr x) = false ->
  wp (svc_m4f c) (fun c' s' => same m4f x c' /\ s' = upd_masked (fun _ => false) (upd_schrun (fun _ => true) s)) s.
Proof.
  intros Hx Ho (Et & Hl & _) Hu. rewrite Hu in Et. rewrite Et in Hl. unfold svc_m4f. do 4 wp_step. wp_step. eapply wp_task_get; [exact Ho|]. rewrite Et.
  wp_step. eapply wp_load_regs; [exact Hl|]. do 3 wp_step. rewrite app_nth2 by (rewrite (co_regs _ Hx); lia). rewrite (co_regs _ Hx).
  change (nth (8 - 8) [c_lr x] 0) with (c_lr x). rewrite take_app_length' by (symmetry; exact (co_regs _ Hx)).
  split; [|done]. split_and!; simpl; try done; [lia|congruence].
Qed.

(** The first task starts with its context in the processor, on a core that is supported. *)
Lemma start_first_task_spec cpuid c x o s :
  cpuid <> CPUID_CORTEX_M7_r0p1 -> cpuid <> CPUID_CORTEX_M7_r0p0 ->
  k_tasks s !! k_currp s = Some o -> saved m3 (k_mem s) (t_top_stack o) x ->
  wp (_isix_port_start_first_task cpuid svc_m3 c) (fun c' s' => same m3 x c' /\ k_schrun s' = true /\ k_masked s' = false) s.
Proof.
  intros H1 H2 Ho Hs. unfold _isix_port_start_first_task, check_cpu_revision.
  rewrite (proj2 (Z.eqb_neq _ _) H1), (proj2 (Z.eqb_neq _ _) H2). do 2 wp_step.
  eapply wp_mono; [by eapply svc_m3_spec|]. by intros c' s' [? ->].
Qed.

(** The size is rounded up to a multiple of 8. *)
Lemma align_size_ge len : 0 <= len < 2 ^ 32 - 8 -> len <= _isixp_align_size len < len + 8.
Proof.
  intros H. unfold _isixp_align_size, ISIX_BYTE_ALIGNMENT_SIZE. change (8 - 1) with (Z.ones 3).
  rewrite Z.land_ones by lia. pose proof (Z.mod_pos_bound len (2 ^ 3) ltac:(lia)).
  destruct (Z.eqb_spec (len mod 2 ^ 3) 0); cbn [negb]; [lia|]. rewrite u32_id by (unfold in_u32; lia). lia.
Qed.

(** ** The contract *)

(** The PendSV handler of either port. *)
Definition context_switch (p : port) (h : cpu -> KM cpu) : Prop :=
  (p = m3 /\ h = pend_svc_m3) \/ (p = m4f /\ h = pend_svc_m4f).

(** C3: the context switch gives every task back the processor it had: when the PendSV handler
    interrupts a task while the contexts of all others are saved, the handler returns with the
    context of the task [_isixp_schedule] has chosen in the processor, with those of all others
    saved, the interrupted one included, and has written nowhere but below the stack pointer of
    the task it interrupted. *)
Theorem context_switch_keeps_contexts p h ctx c x0 s :
  context_switch p h -> switchable s -> contexts_ok p ctx c s -> stacks_ok p ctx s -> ctx !! k_currp s = Some x0 ->
  wp (h c) (fun c' s' => contexts_kept p ctx x0 s c' s') s.
Proof. intros [[-> ->]|[-> ->]]; [apply pend_svc_m3_spec|apply pend_svc_m4f_spec]. Qed.

(** C13: [isix_task_create] adds one task and nothing else: its control block, stack and C library
    data are the blocks the heap gave, it is the last of its priority in the ready queue unless it
    is to start suspended, and on its stack lies a context that enters the function with its
    parameter and returns to the terminator. *)
Theorem task_create_starts idle func param depth prio flags t stack impure h oc c s :
  kernel_ok idle s -> k_tasks s !! k_currp s = Some oc -> Z.of_nat (size (k_tasks s)) + 1 < 2 ^ 31 ->
  0 <= prio <= CONFIG_ISIX_NUMBER_OF_PRIORITIES -> ISIX_PORT_SCHED_MIN_STACK_DEPTH <= depth < 2 ^ 32 - 8 ->
  created_blocks reent_size depth flags (k_heap s) t stack impure h -> vacant s t -> stack <> NULL ->
  in_u32 terminator -> in_u32 func -> in_u32 param ->
  wp (isix_task_create terminator reent_size func param depth prio flags) (fun r s' => r = t /\ kernel_ok idle s' /\
    created terminator t stack (_isixp_align_size depth) impure func param prio flags h oc s s' /\
    let base := stack + _isixp_align_size depth in
    exists o, k_tasks s' !! t = Some o /\ saved m3 (k_mem s') (t_top_stack o) (first_context c base) /\
      load_words (base - 32) 8 (k_mem s') = Some (exception_frame func param)) s.
Proof.
  intros Hk Hoc Hsz Hp Hd Hb Hv Hs Ht Hf Hpar. assert (64 <= _isixp_align_size depth) as Hd64.
  { unfold ISIX_PORT_SCHED_MIN_STACK_DEPTH in Hd. pose proof (align_size_ge depth ltac:(lia)). lia. }
  eapply wp_mono; [apply (task_create_spec terminator reent_size func param depth prio flags t stack impure h oc s); try done;
    [exact (ko_inv _ Hk)|exact (ko_mtx _ Hk)|exact (ko_schrun _ Hk)|exact (kernel_ok_allocates _ Hk)|lia]|].
  intros r s' (-> & C). split; [done|]. split; [by eapply created_ok|]. split; [done|].
  destruct (first_stack_words stack (_isixp_align_size depth) func param (k_mem s)) as (E1 & E2 & E3); try done.
  destruct (cr_task _ _ _ _ _ _ _ _ _ _ _ _ _ C) as (o & Ets & _ & _ & _ & _ & _ & Etop & _). exists o.
  rewrite Ets, lookup_insert_eq, (cr_mem _ _ _ _ _ _ _ _ _ _ _ _ _ C), Etop, E1. split_and!; [done| |exact E3].
  split; [simpl; lia|exact E2].
Qed.

End Switch.
