(* ===== verification/Mempool.v ===== *)
(** * Memory pools (libisix/kernel/mempool.c) *)

From S2P Require Import Prelude.
From S2P Require Import DList.
From S2P Require Import Kernel.
From S2P Require Import Scheduler.
From S2P Require Import SchedSleep.
From stdpp Require Import base numbers gmap list.
From Stdlib Require Import ZArith Lia.
Local Open Scope Z_scope.

(** [struct isix_mempool]; the free list is threaded through the free elements. *)
Record mempool := Mempool {
  mp_free : list Z;
  mp_mem : Z;
  mp_mem_size : Z;
  mp_elem_size : Z
}.

(** [sizeof(struct mempool_node)] *)
Definition mempool_node_size : Z := 8.
Definition SIZE_MAX : Z := 2 ^ 32 - 1.

Definition addr_in_mempool (mp : mempool) (p : Z) : bool :=
  (mp_mem mp <=? p) && (p <? mp_mem mp + mp_mem_size mp).

(** Addresses of the elements in order. *)
Definition pool_elems (mem elem_size : Z) (elems : nat) : list Z :=
  (fun e => mem + elem_size * Z.of_nat e) <$> seq 0 elems.

Section Mempool.
Context {HS : Type} {AL : Allocator HS}.

Local Abbreviation KM := (K HS).

(** The handle and the pool it points to; [None] is the null handle. *)
Definition isix_mempool_create (elems elem_size : Z) : KM (option (Z * mempool)) :=
  let elem_size := _isixp_align_size elem_size in
  if (elems =? 0) || (elem_size <? mempool_node_size) || (SIZE_MAX / elem_size <? elems)
  then ret None else
  h <- isix_alloc 20;;
  if h =? NULL then ret None else
  mem <- isix_alloc (elems * elem_size);;
  if mem =? NULL then isix_free h;;; ret None else
  ret (Some (h, Mempool (pool_elems mem elem_size (Z.to_nat elems)) mem (elems * elem_size) elem_size)).

Definition isix_mempool_destroy (h : option (Z * mempool)) : KM unit :=
  match h with
  | None => ret tt
  | Some (h, mp) => isix_free (mp_mem mp);;; isix_free h
  end.

(** The element (or NULL) and the handle afterwards. *)
Definition isix_mempool_alloc (h : option (Z * mempool)) : KM (Z * option (Z * mempool)) :=
  match h with
  | None => ret (NULL, None)
  | Some (a, mp) =>
      isix_enter_critical;;;
      match mp_free mp with
      | [] => isix_exit_critical;;; ret (NULL, h)
      | n :: l =>
          isix_exit_critical;;;
          ret (n, Some (a, Mempool l (mp_mem mp) (mp_mem_size mp) (mp_elem_size mp)))
      end
  end.

(** Linking an element that is already free corrupts the list. *)
Definition isix_mempool_free (h : option (Z * mempool)) (p : Z) : KM (Z * option (Z * mempool)) :=
  match h with
  | None => ret (ISIX_EINVARG, None)
  | Some (a, mp) =>
      if p =? NULL then ret (ISIX_EINVARG, h) else
      if negb (addr_in_mempool mp p) then ret (ISIX_EINVADDR, h) else
      if negb ((p - mp_mem mp) mod mp_elem_size mp =? 0) then ret (ISIX_EINVADDR, h) else
      isix_enter_critical;;;
      if bool_decide (p ∈ mp_free mp) then fault else
      isix_exit_critical;;;
      ret (ISIX_EOK, Some (a, Mempool (mp_free mp ++ [p]) (mp_mem mp) (mp_mem_size mp) (mp_elem_size mp)))
  end.

(** ** Correctness *)

Implicit Types s : kstate HS.

(** The elements of the pool are the free ones and the ones in use. *)
Record pool_ok (n : nat) (mp : mempool) (used : list Z) : Prop := {
  po_elems : mp_free mp ++ used ≡ₚ pool_elems (mp_mem mp) (mp_elem_size mp) n;
  po_size : mp_mem_size mp = Z.of_nat n * mp_elem_size mp;
  po_elem : 0 < mp_elem_size mp;
  po_mem : 0 < mp_mem mp
}.

Lemma pool_elem_ok mem es n x :
  0 < es -> x ∈ pool_elems mem es n <-> mem <= x < mem + Z.of_nat n * es /\ (x - mem) mod es = 0.
Proof.
  intros He. unfold pool_elems. rewrite list_elem_of_fmap. split.
  - intros (i & -> & [_ Hi]%elem_of_seq). split; [nia|].
    replace (mem + es * Z.of_nat i - mem) with (Z.of_nat i * es) by lia. apply Z_mod_mult.
  - intros [Hr Hm]. pose proof (Z.div_mod (x - mem) es ltac:(lia)) as Hd.
    assert (0 <= (x - mem) / es < Z.of_nat n) by (split; [apply Z.div_pos; lia|apply Z.div_lt_upper_bound; lia]).
    exists (Z.to_nat ((x - mem) / es)). rewrite Z2Nat.id by lia. split; [lia|]. apply elem_of_seq. lia.
Qed.

Lemma pool_elems_NoDup mem es n : 0 < es -> NoDup (pool_elems mem es n).
Proof.
  intros He. apply NoDup_fmap_2_strong; [|apply NoDup_seq]. intros i j _ _ H. nia.
Qed.

(** C34: A memory pool hands out each of its elements to one owner at a time: an
    allocation returns an element that was not in use, or NULL exactly when all
    elements are in use, and the elements in use and the free ones are always the
    elements of the pool, each once. *)
Theorem mempool_alloc_exclusive n a mp used s :
  pool_ok n mp used -> 0 <= k_critical_count s ->
  wp (isix_mempool_alloc (Some (a, mp))) (fun r _ => exists mp', snd r = Some (a, mp') /\
    if decide (length used = n) then fst r = NULL /\ mp' = mp
    else fst r ∉ used /\ fst r ∈ pool_elems (mp_mem mp) (mp_elem_size mp) n /\ pool_ok n mp' (fst r :: used)) s.
Proof.
  intros [Hp Hs He Hm] Hc.
  assert (length (mp_free mp) + length used = n)%nat as Hlen.
  { rewrite <- length_app, Hp. unfold pool_elems. by rewrite length_fmap, length_seq. }
  pose proof (pool_elems_NoDup (mp_mem mp) (mp_elem_size mp) n He) as Hnd. rewrite <- Hp in Hnd.
  unfold isix_mempool_alloc. wp_step. apply wp_enter_critical; [done|].
  destruct (mp_free mp) as [|x l] eqn:El; wp_step; (apply wp_exit_critical; [simpl; lia|]); wp_step; eexists; (split; [done|]).
  - rewrite decide_True by (simpl in Hlen; lia). done.
  - rewrite decide_False by (simpl in Hlen; lia). simpl in *. apply NoDup_cons in Hnd as [Hx _].
    split_and!; [set_solver|rewrite <- Hp; left|]. split; simpl; try done. by rewrite <- Hp, Permutation_middle.
Qed.

(** [isix_mempool_free] accepts exactly the addresses of pool elements: an element
    in use becomes free again, and an address outside of the pool or inside of an
    element is refused with [ISIX_EINVADDR] without any effect. *)
Theorem mempool_free_checks n a mp u1 p u2 q s :
  pool_ok n mp (u1 ++ p :: u2) -> 0 <= k_critical_count s ->
  q <> NULL -> q ∉ pool_elems (mp_mem mp) (mp_elem_size mp) n ->
  wp (isix_mempool_free (Some (a, mp)) p) (fun r _ => exists mp', r = (ISIX_EOK, Some (a, mp')) /\
    pool_ok n mp' (u1 ++ u2)) s /\
  isix_mempool_free (Some (a, mp)) q s = Ok (ISIX_EINVADDR, Some (a, mp)) s.
Proof.
  intros [Hp Hs He Hm] Hc Hq0 Hq.
  pose proof (pool_elems_NoDup (mp_mem mp) (mp_elem_size mp) n He) as Hnd. rewrite <- Hp in Hnd.
  unfold isix_mempool_free, addr_in_mempool. rewrite Hs. split.
  - assert (p ∈ pool_elems (mp_mem mp) (mp_elem_size mp) n) as [Hr Hmod]%pool_elem_ok; [rewrite <- Hp; set_solver| |done].
    rewrite (proj2 (Z.eqb_neq p _)) by (unfold NULL; lia).
    rewrite (proj2 (Z.leb_le _ _)), (proj2 (Z.ltb_lt _ _)) by lia. rewrite Hmod. simpl.
    wp_step. apply wp_enter_critical; [done|].
    rewrite bool_decide_eq_false_2 by (apply NoDup_app in Hnd as (_ & Hd & _); intros Hin; apply (Hd p Hin); set_solver).
    wp_step. apply wp_exit_critical; [simpl; lia|]. wp_step. eexists. split; [done|].
    split; simpl; try done. rewrite <- Hp. rewrite <- app_assoc. simpl. by rewrite Permutation_middle.
  - rewrite (proj2 (Z.eqb_neq q _)) by done.
    destruct ((mp_mem mp <=? q) && (q <? mp_mem mp + Z.of_nat n * mp_elem_size mp)) eqn:E; [|done].
    apply andb_prop in E as [E1%Z.leb_le E2%Z.ltb_lt]. simpl.
    destruct (Z.eqb_spec ((q - mp_mem mp) mod mp_elem_size mp) 0) as [E|]; [|done].
    exfalso. apply Hq. by apply pool_elem_ok.
Qed.

End Mempool.

(** Three elements of 16 bytes, the second one in use. *)
Definition pool3 : mempool := Mempool [0x20001000; 0x20001020] 0x20001000 48 16.

Lemma pool3_ok : pool_ok 3 pool3 [0x20001010].
Proof. split; [|reflexivity|reflexivity|reflexivity]. apply (bool_decide_eq_true_1 (_ ≡ₚ _)). reflexivity. Qed.
