(* ===== verification/Checker.v ===== *)
(** * Executable check of the scheduler invariant

    The invariant of SchedInv.v and SchedTime.v quantifies over all lists and tasks
    of a finite state, so it is decidable: [sched_checkb] evaluates it, and a state on
    which it is true satisfies [sched_inv]; [kernel_checkb] does the same for the invariant
    of the whole kernel.  The concrete kernel states of Examples.v
    are shown to be well formed this way. *)

From S2P Require Import Prelude.
From S2P Require Import DList.
From S2P Require Import Kernel.
From S2P Require Import Scheduler.
From S2P Require Import SchedInv.
From S2P Require Import SchedCore.
From S2P Require Import SchedTime.
From S2P Require Import MutexOwner.
From S2P Require Import KernelInv.
From stdpp Require Import base numbers gmap list sorting.
From Stdlib Require Import ZArith Lia.
Local Open Scope Z_scope.

Implicit Types (ts : gmap Z task) (ps : gmap Z Z) (q : gmap qhead (list Z))
  (pl : gmap phead (list Z)) (mtxs : gmap Z mtx) (ml : gmap Z (list Z)).

#[global] Instance at_queue_dec o h : Decision (at_queue o h).
Proof. destruct h; simpl; apply _. Defined.

#[global] Instance sorted_by_dec {A} (f : A -> Z) l : Decision (sorted_by f l).
Proof. unfold sorted_by. apply _. Defined.

#[global] Instance in_u32_dec x : Decision (in_u32 x).
Proof. unfold in_u32. apply _. Defined.

#[global] Instance in_i32_dec x : Decision (in_i32 x).
Proof. unfold in_i32. apply _. Defined.

(** [P] holds of the value stored under [k]. *)
Definition found {A} (P : A -> Prop) (o : option A) : Prop :=
  match o with Some a => P a | None => False end.

#[global] Instance found_dec {A} (P : A -> Prop) `{!forall a, Decision (P a)} o : Decision (found P o).
Proof. destruct o; simpl; apply _. Defined.

Lemma found_Some {A} (P : A -> Prop) o : found P o <-> exists a, o = Some a /\ P a.
Proof. destruct o; simpl; naive_solver. Qed.

(** ** The ready lists *)

Definition qwf_check `{Countable H} (q : gmap H (list Z)) : Prop :=
  map_Forall (fun h l => NoDup l /\ map_Forall (fun h' l' => h = h' \/ Forall (fun t => t ∉ l') l) q) q.

#[global] Instance qwf_check_dec `{Countable H} (q : gmap H (list Z)) : Decision (qwf_check q).
Proof. unfold qwf_check. apply _. Defined.

Definition at_check ts q : Prop :=
  map_Forall (fun h l => Forall (fun t => found (fun o => at_queue o h) (ts !! t)) l) q.

Definition task_check ts q : Prop :=
  map_Forall (fun t o => 0 <= t_prio o <= CONFIG_ISIX_NUMBER_OF_PRIORITIES /\ t <> NULL /\
    (queued_state (t_state o) = true -> Exists (fun hl => t ∈ hl.2) (map_to_list q))) ts.

Definition order_check ts q : Prop :=
  map_Forall (fun h l => prio_queue h = true -> sorted_by (prio_of ts) l) q.

Definition elems_check ts ps q ready free : Prop :=
  NoDup (ready ++ free) /\
  Z.of_nat (length (ready ++ free)) = CONFIG_ISIX_NUMBER_OF_PRIORITIES + 1 /\
  Forall (fun e => found (fun _ => True) (ps !! e)) (ready ++ free) /\
  sorted_by (elem_prio ps) ready /\ NoDup (elem_prio ps <$> ready) /\
  Forall (fun e => found (fun l => l <> []) (q !! QPrio e)) ready /\
  map_Forall (fun h l => match h with
    | QPrio e => Forall (fun t => e ∈ ready /\ prio_of ts t = elem_prio ps e) l
    | _ => True end) q.

#[global] Instance elems_check_dec ts ps q ready free : Decision (elems_check ts ps q ready free).
Proof.
  unfold elems_check. repeat apply and_dec; try apply _.
  apply map_Forall_dec. intros [] l; apply _.
Defined.

Definition lists_check ts ps q pl : Prop :=
  found (fun ready => found (fun free => elems_check ts ps q ready free) (pl !! PFree)) (pl !! PReady).

Definition ready_check ts ps q pl : Prop :=
  qwf_check q /\ at_check ts q /\ task_check ts q /\ order_check ts q /\ lists_check ts ps q pl.

#[global] Instance ready_check_dec ts ps q pl : Decision (ready_check ts ps q pl).
Proof. unfold ready_check, at_check, task_check, order_check, lists_check. apply _. Defined.

Lemma qwf_check_sound `{Countable H} (q : gmap H (list Z)) : qwf_check q -> store_wf q.
Proof.
  intros Hq. split; [intros h l Hl; by destruct (Hq h l Hl)|].
  intros h1 h2 l1 l2 n H1 H2 Hn1 Hn2. destruct (Hq h1 l1 H1) as [_ Hd].
  destruct (Hd h2 l2 H2) as [|Hf]; [done|].
  rewrite Forall_forall in Hf. by destruct (Hf n Hn1).
Qed.

Lemma lists_check_sound ts ps q pl :
  lists_check ts ps q pl -> exists ready free, prio_lists ts ps q pl ready free.
Proof.
  intros (ready & Hr & (free & Hf & Hc)%found_Some)%found_Some.
  destruct Hc as (Hn & Hlen & He & Hs & Hi & Hfull & Hm).
  rewrite Forall_forall in He. rewrite Forall_forall in Hfull.
  exists ready, free. split; try done.
  - intros e Hin. apply He, found_Some in Hin as (p & Hp & _). eauto.
  - intros e Hin. apply Hfull, found_Some in Hin as ([|t l] & Hl & Hne); [done|eauto].
  - intros e l t Hl Hin. specialize (Hm _ _ Hl). simpl in Hm. rewrite Forall_forall in Hm. auto.
Qed.

Lemma ready_check_sound ts ps q pl : ready_check ts ps q pl -> ready_ok None ts ps q pl.
Proof.
  intros (Hq & Hat & Ht & Ho & Hl). split.
  - by apply qwf_check_sound.
  - intros h l t Hh Hin. specialize (Hat h l Hh). simpl in Hat. rewrite Forall_forall in Hat.
    by apply found_Some, Hat.
  - intros t o Hto _ Hst. destruct (Ht t o Hto) as (_ & _ & He).
    apply Exists_exists in He as ([h l] & Hin%elem_of_map_to_list & Hmem); [|done]. eauto.
  - done.
  - intros h l Hp Hh. exact (Ho h l Hh Hp).
  - intros t o Hto. by destruct (Ht t o Hto).
  - destruct (ts !! NULL) as [o|] eqn:E; [|done]. by destruct (Ht _ o E) as (_ & Hne & _).
  - by apply lists_check_sound.
Qed.

(** ** Semaphores and time lists *)

(** ** The mutexes *)

Definition held_check ml (m : Z) (o : mtx) (l : list Z) : Prop :=
  m_owner o <> NULL /\ 1 <= m_count o < 2 ^ 31 /\ m_owner o ∉ l /\ found (fun k => m ∈ k) (ml !! m_owner o).

Definition mtxs_check ts mtxs ml q : Prop :=
  qwf_check ml /\ ts !! NULL = None /\ dom ml = dom ts /\
  map_Forall (fun _ o => 0 <= t_real_prio o <= CONFIG_ISIX_NUMBER_OF_PRIORITIES) ts /\
  map_Forall (fun t k => Forall (fun m => found (fun o => m_owner o = t) (mtxs !! m)) k) ml /\
  map_Forall (fun m o => found (fun l => free_mtx o l \/ held_check ml m o l) (q !! QMtx m)) mtxs /\
  map_Forall (fun h _ => match h with QMtx m => found (fun _ => True) (mtxs !! m) | _ => True end) q.

#[global] Instance mtxs_check_dec ts mtxs ml q : Decision (mtxs_check ts mtxs ml q).
Proof.
  unfold mtxs_check, free_mtx, held_check. repeat apply and_dec; try apply _. apply map_Forall_dec. intros [] l; apply _.
Defined.

Lemma mtxs_check_sound ts mtxs ml q : mtxs_check ts mtxs ml q -> mtxs_ok None ts mtxs ml q.
Proof.
  intros (Hwf & Hn & Hd & Hr & Ho & Hm & Hq). split; try done.
  - by apply qwf_check_sound.
  - intros t. by rewrite <- !elem_of_dom, Hd.
  - intros t k m Hk Hin. specialize (Ho t k Hk). rewrite Forall_forall in Ho. by apply found_Some, Ho.
  - intros m o Hmo _. destruct (proj1 (found_Some _ _) (Hm m o Hmo)) as (l & Hl & [Hf|(H1 & H2 & H3 & H4)]);
      exists l; (split; [done|]); [by left|right]. apply found_Some in H4. done.
  - intros m [l Hl]. specialize (Hq (QMtx m) l Hl). apply found_Some in Hq as (o & Ho' & _). by exists o.
Qed.

Section Check.
Context {HS : Type}.
Implicit Types s : kstate HS.

Definition sems_check s : Prop :=
  map_Forall (fun h l => match h with
    | QSem a => found (fun o => Z.of_nat (length l) = Z.max 0 (- s_value o) /\ in_i32 (s_value o))
                  (k_sems s !! a)
    | _ => True end) (k_q s).

#[global] Instance sems_check_dec s : Decision (sems_check s).
Proof. apply map_Forall_dec. intros [] l; apply _. Defined.

Lemma sems_check_sound s : sems_check s -> sems_ok s.
Proof. intros Hc a l Hl. apply found_Some. exact (Hc _ _ Hl). Qed.

Definition time_check s : Prop :=
  is_Some (k_tl s !! k_pwait s) /\ is_Some (k_tl s !! negb (k_pwait s)) /\
  NoDup (cur_list s ++ ov_list s) /\
  sorted_by (dl (k_tasks s)) (cur_list s) /\ sorted_by (dl (k_tasks s)) (ov_list s) /\
  Forall (fun t => found (fun o => timed_state (t_state o) = true) (k_tasks s !! t) /\
    in_u32 (dl (k_tasks s) t)) (cur_list s ++ ov_list s) /\
  in_u32 (k_jiffies s) /\
  Forall (fun t => k_jiffies s < dl (k_tasks s) t) (cur_list s) /\
  Forall (fun t => dl (k_tasks s) t < k_jiffies s) (ov_list s).

#[global] Instance time_check_dec s : Decision (time_check s).
Proof. unfold time_check. apply _. Defined.

Lemma time_check_sound s : time_check s -> time_inv s.
Proof.
  intros ([cur Hc] & [ov Ho] & Hn & Hs & Hso & Hf & Hj & Hl & Hg).
  rewrite Forall_forall in Hf. rewrite Forall_forall in Hl. rewrite Forall_forall in Hg.
  split; [split|..]; try done.
  - unfold cur_list. by rewrite Hc.
  - unfold ov_list. by rewrite Ho.
  - intros t Hin. apply found_Some. by apply Hf.
  - intros t Hin. by apply Hf.
Qed.

(** [sched_inv] evaluated. *)
Definition sched_checkb s : bool :=
  bool_decide (ready_check (k_tasks s) (k_prios s) (k_q s) (k_pl s)) &&
  bool_decide (sems_check s) && bool_decide (time_check s).

Lemma sched_checkb_sound s : sched_checkb s = true -> sched_inv s.
Proof.
  unfold sched_checkb. intros [[Hr Hs]%andb_prop Ht]%andb_prop.
  apply bool_decide_eq_true in Hr, Hs, Ht.
  split; [by apply ready_check_sound|].
  split; [by apply sems_check_sound|by apply time_check_sound].
Qed.

(** The preconditions of a context switch evaluated. *)
Definition switch_checkb s : bool :=
  sched_checkb s &&
  bool_decide (map_Forall (fun t o => t_state o = OSTHR_STATE_RUNNING -> t = k_currp s) (k_tasks s)) &&
  bool_decide (found (fun o => active (t_state o) = true) (k_tasks s !! k_currp s)) &&
  (0 <=? k_critical_count s) && (k_sched_lock s =? 0).

Lemma switch_checkb_sound s : switch_checkb s = true -> switchable s.
Proof.
  unfold switch_checkb. intros [[[[Hi Hr]%andb_prop Hc]%andb_prop Hcc]%andb_prop Hl]%andb_prop.
  apply sched_checkb_sound in Hi as (Hok & _). apply bool_decide_eq_true in Hr, Hc.
  apply found_Some in Hc as (o & Ho & Ha). apply Z.leb_le in Hcc. apply Z.eqb_eq in Hl.
  split; try done. by exists (k_currp s), o.
Qed.

(** The running task is the one [_isixp_schedule] would choose. *)
Definition dispatch_checkb s : bool :=
  bool_decide (found (fun o => t_state o = OSTHR_STATE_RUNNING /\
    head (rq s (t_prio o)) = Some (k_currp s) /\
    map_Forall (fun _ o' => active (t_state o') = true -> t_prio o <= t_prio o') (k_tasks s) /\
    k_reent s = t_impure o) (k_tasks s !! k_currp s)).

Lemma dispatch_checkb_sound s : dispatch_checkb s = true -> dispatched (k_currp s) s.
Proof.
  unfold dispatch_checkb. intros Hc%bool_decide_eq_true.
  apply found_Some in Hc as (o & Ho & Hst & Hh & Hmin & Hr). split; [done|].
  exists o. split_and!; try done.
  destruct (rq s (t_prio o)) as [|x l] eqn:E; [done|]. injection Hh as ->. by exists l.
Qed.

(** ** The whole kernel *)

(** The list heads that must exist, and what is known of tasks that have ended. *)
Definition heads_check s : Prop :=
  map_Forall (fun e _ => found (fun _ => True) (k_q s !! QEvt e)) (k_evs s) /\
  map_Forall (fun t _ => found (fun _ => True) (k_q s !! QExit t)) (k_tasks s).

Definition alive_check s (t : Z) : Prop := found (fun o => ended_state (t_state o) = false) (k_tasks s !! t).

Definition graves_check s : Prop :=
  found (fun zs => k_ndeleted s = Z.of_nat (length zs)) (k_q s !! QZombie) /\
  map_Forall (fun t o => ended_state (t_state o) = true -> k_q s !! QExit t = Some []) (k_tasks s) /\
  map_Forall (fun _ o => m_owner o = NULL \/ alive_check s (m_owner o)) (k_mtxs s).

#[global] Instance heads_check_dec s : Decision (heads_check s).
Proof. unfold heads_check. apply _. Defined.

#[global] Instance graves_check_dec s : Decision (graves_check s).
Proof. unfold graves_check, alive_check. apply _. Defined.

Lemma heads_check_sound s : heads_check s -> heads_ok s.
Proof.
  intros (H1 & H2). split.
  - intros e [b Hb]. specialize (H1 e b Hb). apply found_Some in H1 as (l & Hl' & _). by exists l.
  - intros t [b Hb]. specialize (H2 t b Hb). apply found_Some in H2 as (l & Hl' & _). by exists l.
Qed.

Lemma graves_check_sound s : graves_check s -> graves_ok s.
Proof.
  intros (Hz & Hx & Ho). split; [by apply found_Some|done|].
  intros m o Hm. destruct (Ho m o Hm) as [?|Ha]; [by left|right]. by apply found_Some in Ha.
Qed.

Definition kernel_checkb (idle : Z) s : bool :=
  switch_checkb s && bool_decide (mtxs_check (k_tasks s) (k_mtxs s) (k_ml s) (k_q s)) &&
  bool_decide (heads_check s /\ graves_check s) &&
  bool_decide (found (fun o => active (t_state o) = true) (k_tasks s !! idle)) &&
  bool_decide (k_in_isr s = false /\ k_jiffies_skipped s = 0 /\ k_yield_pending s = false) &&
  k_schrun s && (k_critical_count s =? 0) && (Z.of_nat (size (k_tasks s)) <? 2 ^ 31).

Lemma kernel_checkb_sound idle s : kernel_checkb idle s = true -> kernel_ok idle s.
Proof.
  unfold kernel_checkb.
  intros [[[[[[[Hs Hm]%andb_prop He]%andb_prop Hi]%andb_prop Hq]%andb_prop Hr]%andb_prop Hc]%andb_prop Hz]%andb_prop.
  pose proof (switch_checkb_sound s Hs) as [_ Hrun Hcur _ Hl _].
  unfold switch_checkb in Hs. apply andb_prop in Hs as [[[[Hi' _]%andb_prop _]%andb_prop _]%andb_prop _].
  apply bool_decide_eq_true in Hm, He, Hi, Hq. apply Z.eqb_eq in Hc. apply Z.ltb_lt in Hz. destruct He as [Hh Hg].
  split; try done.
  - by apply sched_checkb_sound.
  - by apply mtxs_check_sound.
  - by apply heads_check_sound.
  - by apply graves_check_sound.
  - by apply found_Some.
Qed.

End Check.
