(* ===== verification/Vtimers.v ===== *)
(** * Software timers (libisix/kernel/softtimers.c)

    A worker task owns two lists of timers ordered by deadline: the timers of the
    current epoch of the tick counter and those that fire after it wraps.  The other
    tasks send commands to the worker through a fifo; the worker waits for a command
    no longer than until the next deadline. *)

From S2P Require Import Prelude.
From S2P Require Import DList.
From S2P Require Import Kernel.
From S2P Require Import Scheduler.
From S2P Require Import Events.
From S2P Require Import Semaphore.
From S2P Require Import Task.
From S2P Require Import Fifo.
From stdpp Require Import base gmap list strings.
From Stdlib Require Import ZArith Lia.
Local Open Scope Z_scope.

Definition CONFIG_ISIX_TIMERS_CMD_QUEUE_SIZE : Z := 16.
Definition OSVTIMER_CB_CANCEL : Z := 0.

(** ** Commands *)

Record start_param := StartParam {
  sp_tmr : Z;
  sp_callback : Z;
  sp_args : Z;
  sp_tout : Z;
  sp_itime : Z;
  sp_cyclic : bool
}.

Inductive command :=
| cmd_add (p : start_param)
| cmd_cancel (tmr : Z)
| cmd_execnow (func arg : Z)
| cmd_delete (tmr : Z).

(** [sizeof( command_t )] *)
Definition command_size : Z := 28.

(** The bytes of a [command_t]: the command, three bytes of padding, the union.  The
    bytes the sender leaves unset are zero. *)
Definition command_bytes (c : command) : list Z :=
  match c with
  | cmd_add p =>
      [1; 0; 0; 0] ++ word_bytes (sp_tmr p) ++ word_bytes (sp_callback p) ++ word_bytes (sp_args p) ++
      word_bytes (sp_tout p) ++ word_bytes (sp_itime p) ++ [(if sp_cyclic p then 1 else 0); 0; 0; 0]
  | cmd_cancel t => [2; 0; 0; 0] ++ word_bytes t ++ replicate 20 0
  | cmd_execnow f a => [3; 0; 0; 0] ++ word_bytes f ++ word_bytes a ++ replicate 16 0
  | cmd_delete t => [4; 0; 0; 0] ++ word_bytes t ++ replicate 20 0
  end.

(** The [switch] of [worker_thread]; [None] is its default branch. *)
Definition command_of_bytes (bs : list Z) : option command :=
  match nth 0 bs 0 with
  | 1 => Some (cmd_add (StartParam (word_at 4 bs) (word_at 8 bs) (word_at 12 bs) (word_at 16 bs)
                          (word_at 20 bs) (negb (nth 24 bs 0 =? 0))))
  | 2 => Some (cmd_cancel (word_at 4 bs))
  | 3 => Some (cmd_execnow (word_at 4 bs) (word_at 8 bs))
  | 4 => Some (cmd_delete (word_at 4 bs))
  | _ => None
  end.

(** The element after [x]; [None] is the list head. *)
Fixpoint next_entry (x : Z) (l : list Z) : option Z :=
  match l with
  | [] => None
  | y :: l => if y =? x then head l else next_entry x l
  end.

Section Vtimers.
Context {HS : Type} {AL : Allocator HS}.
Local Abbreviation KM := (K HS).

(** Parameters of [isix_task_create], the address of [worker_thread], and the
    application's callbacks: the effect of calling the function at an address. *)
Context (terminator reent_size worker_addr : Z) (call : Z -> Z -> KM unit).

Definition vt_get (t : Z) : KM vtimer := v <- gets k_vt;; of_option (vt_map v !! t).
Definition vt_upd (t : Z) (f : vtimer -> vtimer) : KM unit :=
  o <- vt_get t;;
  modify (upd_vt (fun v => set_vt_map (<[t := f o]> (vt_map v)) v)).

(** [p_vtimer_list] ([false]) and [pov_vtimer_list] ([true]) *)
Definition vt_list (ov : bool) : KM (list Z) :=
  v <- gets k_vt;; of_option (vt_lists v !! xorb (vt_sel v) ov).

Definition vt_store (f : gmap bool (list Z) -> option (gmap bool (list Z))) : KM unit :=
  v <- gets k_vt;;
  ls <- of_option (f (vt_lists v));;
  modify (upd_vt (set_vt_lists ls)).

Definition vt_delete (t : Z) : KM unit := vt_store (seq_delete t).

Definition exec_timer_callback (timer : Z) : KM unit :=
  o <- vt_get timer;;
  when (negb (v_callback o =? NULL)) (call (v_callback o) (v_arg o));;;
  o <- vt_get timer;;
  when (negb (v_cyclic o)) (vt_upd timer (set_v_active false)).

(** [timer->jiffies < waitl->jiffies] *)
Definition timer_later (timers : gmap Z vtimer) (j t : Z) : bool :=
  match timers !! t with Some o => j <? v_jiffies o | None => false end.

Definition add_list_with_prio (ov : bool) (timer : Z) : KM unit :=
  o <- vt_get timer;;
  v <- gets k_vt;;
  vt_store (seq_insert_before_first (timer_later (vt_map v) (v_jiffies o))
              (xorb (vt_sel v) ov) timer).

Definition add_vtimer_to_list (tnow timer : Z) : KM unit :=
  vt_upd timer (fun o => set_v_jiffies (u32 (v_jiffies o + v_timeout o)) o);;;
  o <- vt_get timer;;
  add_list_with_prio (v_jiffies o <? tnow) timer.

Definition handle_add (tnow : Z) (p : start_param) : KM unit :=
  let tmr := sp_tmr p in
  vt_upd tmr (fun _ => VTimer (sp_itime p) (sp_tout p) (sp_callback p) (sp_args p) (sp_cyclic p) true);;;
  o <- vt_get tmr;;
  let tdiff := u32 (tnow - v_jiffies o) in
  if v_timeout o <=? tdiff then
    exec_timer_callback tmr;;;
    o <- vt_get tmr;;
    when (v_cyclic o) (vt_upd tmr (set_v_jiffies tnow);;; add_vtimer_to_list tnow tmr)
  else add_vtimer_to_list tnow tmr.

(** The loop of [cyclic_reschedule_after_fire].  The result is the deadline the loop
    ends with, [None] when it returns from the function.  [Fault] stands for a loop
    that takes more than [fuel] rounds, here and below. *)
Fixpoint missed_periods (fuel : nat) (timer tnow next : Z) : KM (option Z) :=
  if negb (next <=? tnow) then ret (Some next) else
  match fuel with
  | O => fault
  | S fuel =>
      o <- vt_get timer;;
      let tout_before := v_timeout o in
      exec_timer_callback timer;;;
      o <- vt_get timer;;
      if negb (v_cyclic o) then ret None else
      if negb (v_timeout o =? tout_before) then
        vt_upd timer (set_v_jiffies tnow);;;
        add_vtimer_to_list tnow timer;;;
        ret None
      else missed_periods fuel timer tnow (u32 (next + v_timeout o))
  end.

Definition cyclic_reschedule_after_fire (fuel : nat) (timer tnow : Z) : KM unit :=
  o <- vt_get timer;;
  if v_timeout o =? 0 then add_vtimer_to_list tnow timer else
  r <- missed_periods fuel timer tnow (u32 (v_jiffies o + v_timeout o));;
  match r with
  | None => ret tt
  | Some next =>
      vt_upd timer (fun o => set_v_jiffies (u32 (next - v_timeout o)) o);;;
      add_vtimer_to_list tnow timer
  end.

(** The loop of [switch_timer_list]; the successor is read before the body runs. *)
Fixpoint flush_list (fuel : nat) (cyc : nat) (tnow : Z) (iter : option Z) : KM unit :=
  match iter with
  | None => ret tt
  | Some vtimer =>
      match fuel with
      | O => fault
      | S fuel =>
          l <- vt_list false;;
          let tmp := next_entry vtimer l in
          vt_delete vtimer;;;
          exec_timer_callback vtimer;;;
          o <- vt_get vtimer;;
          when (v_cyclic o) (cyclic_reschedule_after_fire cyc vtimer tnow);;;
          flush_list fuel cyc tnow tmp
      end
  end.

Definition switch_timer_list (fuel : nat) (tnow : Z) : KM unit :=
  l <- vt_list false;;
  flush_list fuel fuel tnow (head l);;;
  modify (upd_vt (fun v => set_vt_sel (negb (vt_sel v)) v)).

(** The loop of [handle_time]. *)
Fixpoint fire_due (fuel cyc : nat) (tnow : Z) : KM unit :=
  l <- vt_list false;;
  match l with
  | [] => ret tt
  | vtimer :: _ =>
      o <- vt_get vtimer;;
      if negb (v_jiffies o <=? tnow) then ret tt else
      match fuel with
      | O => fault
      | S fuel =>
          exec_timer_callback vtimer;;;
          vt_delete vtimer;;;
          o <- vt_get vtimer;;
          when (v_cyclic o) (cyclic_reschedule_after_fire cyc vtimer tnow);;;
          fire_due fuel cyc tnow
      end
  end.

Definition handle_time (fuel : nat) (tnow : Z) (overflow : bool) : KM Z :=
  when overflow (switch_timer_list fuel tnow);;;
  fire_due fuel fuel tnow;;;
  l <- vt_list false;;
  match l with
  | [] => ret (u32 (0 - tnow))
  | vtimer :: _ => o <- vt_get vtimer;; ret (u32 (v_jiffies o - tnow))
  end.

Definition handle_cancel (tmr : Z) : KM unit :=
  v <- gets k_vt;;
  when (seq_linked tmr (vt_lists v)) (vt_delete tmr;;; vt_upd tmr (set_v_active false)).

(** Freeing a timer: its address is no timer any more. *)
Definition vt_free (tmr : Z) : KM unit :=
  isix_free tmr;;;
  modify (upd_vt (fun v => set_vt_map (delete tmr (vt_map v)) v)).

(** The [switch] of the worker. *)
Definition worker_command (tnow : Z) (c : command) : KM unit :=
  match c with
  | cmd_add p => handle_cancel (sp_tmr p);;; handle_add tnow p
  | cmd_cancel t => handle_cancel t
  | cmd_execnow f a => call f a
  | cmd_delete t => handle_cancel t;;; vt_free t
  end.

(** One round of [worker_thread] after [isix_fifo_read] has returned [rc] and the
    bytes of a command; the result is the timeout of the next read and the new
    [pjiff], [None] when the thread returns. *)
Definition worker_round (fuel : nat) (rc : Z) (item : list Z) (pjiff : Z) : KM (option (Z * Z)) :=
  tnow <- isix_get_jiffies;;
  when (tnow <? pjiff) (switch_timer_list fuel tnow);;;
  let continue := tout <- handle_time fuel tnow false;; ret (Some (tout, tnow)) in
  if rc =? ISIX_EOK then
    match command_of_bytes item with
    | Some c => worker_command tnow c;;; continue
    | None => ret None
    end
  else if rc =? ISIX_ETIMEOUT then continue
  else ret None.

Definition _isixp_vtimers_finalize : KM unit :=
  v <- gets k_vt;;
  when (negb (vt_worker v =? NULL))
    (isix_task_kill (vt_worker v);;; _ <- isix_fifo_destroy (vt_queue v);; ret tt).

Definition isix_vtimer_initialize : KM Z :=
  v <- gets k_vt;;
  if vt_worker v =? NULL then
    modify (upd_vt (fun v => set_vt_sel false (set_vt_lists (<[true := []]> (<[false := []]> (vt_lists v))) v)));;;
    q <- isix_fifo_create_ex CONFIG_ISIX_TIMERS_CMD_QUEUE_SIZE command_size 0;;
    modify (upd_vt (set_vt_queue q));;;
    if q =? NULL then ret ISIX_ENOMEM else
    t <- isix_task_create terminator reent_size worker_addr NULL
           (ISIX_PORT_SCHED_MIN_STACK_DEPTH * 4) (isix_get_min_priority / 2) 0;;
    modify (upd_vt (set_vt_worker t));;;
    ret (if t =? NULL then ISIX_ENOMEM else ISIX_EOK)
  else ret ISIX_EOK.

Definition isix_vtimer_create : KM Z :=
  r <- isix_vtimer_initialize;;
  if negb (r =? 0) then ret NULL else
  timer <- isix_alloc 28;;
  if timer =? NULL then ret timer else
  modify (upd_vt (fun v => set_vt_map (<[timer := VTimer 0 0 NULL NULL false false]> (vt_map v)) v));;;
  ret timer.

(** Sending a command: [isix_fifo_write] without a timeout, which may block. *)
Definition vt_send (c : command) : KM (wait_step * Z) :=
  v <- gets k_vt;;
  w <- isix_fifo_write_wait (vt_queue v) ISIX_TIME_INFINITE;;
  match fst w with
  | Done wrc => rc <- isix_fifo_write_finish (vt_queue v) (command_bytes c) wrc;; ret (Done rc, snd w)
  | Blocked => ret (Blocked, snd w)
  end.

(** The rest of the call when the sender has been woken. *)
Definition vt_send_resume (c : command) (start : Z) : KM wait_step :=
  v <- gets k_vt;;
  w <- sem_wait_resume (f_tx_sem (vt_queue v)) ISIX_TIME_INFINITE start;;
  match w with
  | Done wrc => rc <- isix_fifo_write_finish (vt_queue v) (command_bytes c) wrc;; ret (Done rc)
  | Blocked => ret Blocked
  end.

Definition vt_send_isr (c : command) : KM (wait_step * Z) :=
  v <- gets k_vt;;
  rc <- isix_fifo_write_isr (vt_queue v) (command_bytes c);;
  ret (Done rc, 0).

Definition _isixp_vtimer_start (timer func arg timeout : Z) (cyclic isr : bool) : KM (wait_step * Z) :=
  if timer =? NULL then ret (Done ISIX_EINVARG, 0) else
  itime <- isix_get_jiffies;;
  let p := StartParam timer func arg timeout itime cyclic in
  run <- gets k_schrun;;
  if run : bool then (if isr then vt_send_isr (cmd_add p) else vt_send (cmd_add p))
  else now <- isix_get_jiffies;; handle_add now p;;; ret (Done ISIX_EOK, 0).

Definition _isixp_vtimer_cancel (timer : Z) (isr : bool) : KM (wait_step * Z) :=
  if timer =? NULL then ret (Done ISIX_EINVARG, 0) else
  run <- gets k_schrun;;
  if run : bool then (if isr then vt_send_isr (cmd_cancel timer) else vt_send (cmd_cancel timer))
  else handle_cancel timer;;; ret (Done ISIX_EOK, 0).

Definition isix_vtimer_is_active (timer : Z) : KM Z :=
  if timer =? NULL then ret ISIX_EINVARG else
  o <- vt_get timer;; ret (if v_active o then 1 else 0).

Definition isix_vtimer_destroy (timer : Z) : KM (wait_step * Z) :=
  if timer =? NULL then ret (Done ISIX_EINVARG, 0) else
  run <- gets k_schrun;;
  if run : bool then vt_send (cmd_delete timer)
  else handle_cancel timer;;; vt_free timer;;; ret (Done ISIX_EOK, 0).

Definition isix_schedule_work_isr (func arg : Z) : KM Z :=
  v <- gets k_vt;; isix_fifo_write_isr (vt_queue v) (command_bytes (cmd_execnow func arg)).

Definition isix_vtimer_mod (timer new_timeout : Z) : KM Z :=
  if timer =? NULL then ret ISIX_EINVARG else
  o <- vt_get timer;;
  if negb (v_cyclic o) then ret ISIX_EINVARG else
  if new_timeout =? OSVTIMER_CB_CANCEL then
    vt_upd timer (fun o => set_v_callback NULL (set_v_cyclic false o));;; ret ISIX_EOK
  else vt_upd timer (set_v_timeout new_timeout);;; ret ISIX_EOK.

End Vtimers.
