(* ===== verification/VtimerProofs.v ===== *)
(** * Correctness of the software timers

    The worker fires exactly the timers that are due, in deadline order: a one shot
    timer once, a cyclic one once per period that has passed, also when the worker
    runs late.  The statements hold as long as no deadline passes the wrap of the tick
    counter; [cyclic_wrap_fires_again] shows what happens there. *)

From S2P Require Import Prelude.
From S2P Require Import DList.
From S2P Require Import Systimer.
From S2P Require Import OsStats.
From S2P Require Import Kernel.
From S2P Require Import Memory.
From S2P Require Import Scheduler.
From S2P Require Import Vtimers.
From S2P Require Import SchedInv.
From S2P Require Import Checker.
From stdpp Require Import base numbers gmap list sorting.
From Stdlib Require Import ZArith Lia.
Local Open Scope Z_scope.

(** ** Commands *)

Definition start_ok (p : start_param) : Prop :=
  in_u32 (sp_tmr p) /\ in_u32 (sp_callback p) /\ in_u32 (sp_args p) /\
  in_u32 (sp_tout p) /\ in_u32 (sp_itime p).

(** The words of a command are 32-bit words. *)
Definition command_ok (c : command) : Prop :=
  match c with
  | cmd_add p => start_ok p
  | cmd_cancel t | cmd_delete t => in_u32 t
  | cmd_execnow f a => in_u32 f /\ in_u32 a
  end.

(** The worker reads from the fifo the command that was written: a command fills
    the slot of the fifo, and decoding its bytes gives the command back. *)
Theorem command_roundtrip c :
  command_ok c ->
  Z.of_nat (length (command_bytes c)) = command_size /\ command_of_bytes (command_bytes c) = Some c.
Proof.
  destruct c as [[tm cb ar to it cy]|t|f a|t]; simpl.
  - intros (H1 & H2 & H3 & H4 & H5). split; [done|]. unfold command_of_bytes, command_bytes. simpl nth.
    repeat f_equal.
    + apply (word_at_bytes tm 4 [1; 0; 0; 0]); done.
    + apply (word_at_bytes cb 8 ([1; 0; 0; 0] ++ word_bytes tm)); done.
    + apply (word_at_bytes ar 12 ([1; 0; 0; 0] ++ word_bytes tm ++ word_bytes cb)); done.
    + apply (word_at_bytes to 16 ([1; 0; 0; 0] ++ word_bytes tm ++ word_bytes cb ++ word_bytes ar)); done.
    + apply (word_at_bytes it 20 ([1; 0; 0; 0] ++ word_bytes tm ++ word_bytes cb ++ word_bytes ar ++
        word_bytes to)); done.
    + by destruct cy.
  - intros H. split; [done|]. unfold command_of_bytes, command_bytes. simpl nth. do 2 f_equal.
    by apply (word_at_bytes t 4 [2; 0; 0; 0]).
  - intros [H1 H2]. split; [done|]. unfold command_of_bytes, command_bytes. simpl nth. do 2 f_equal.
    + by apply (word_at_bytes f 4 [3; 0; 0; 0]).
    + by apply (word_at_bytes a 8 ([3; 0; 0; 0] ++ word_bytes f)).
  - intros H. split; [done|]. unfold command_of_bytes, command_bytes. simpl nth. do 2 f_equal.
    by apply (word_at_bytes t 4 [4; 0; 0; 0]).
Qed.

Lemma command_roundtrip_witness :
  let c := cmd_add (StartParam 0x20000100 0x08001235 0 250 0xfffffff0 true) in
  command_of_bytes (command_bytes c) = Some c.
Proof. apply command_roundtrip. repeat split; apply Z.leb_le || apply Z.ltb_lt; reflexivity. Defined.

(** ** The timer lists *)





(** How often a timer that is due at [tnow] fires. *)
Definition fire_count (tnow : Z) (o : vtimer) : nat :=
  if v_cyclic o then Z.to_nat ((tnow - v_jiffies o) / v_timeout o + 1) else 1.











(** ** Firing *)

Section Fire.
Context {HS : Type} {AL : Allocator HS}.
Implicit Types s : kstate HS.

(** The application's callbacks, as the timer code sees them: a call returns, leaves
    a trace and does not touch the timers.  ([isix_vtimer_mod] is excluded.) *)
Context (call : Z -> Z -> K HS unit) (log : kstate HS -> list (Z * Z)).
Hypothesis call_returns : forall f a s,
  wp (call f a) (fun _ s' => k_vt s' = k_vt s /\ log s' = log s ++ [(f, a)]) s.
Hypothesis log_vt : forall g s, log (upd_vt g s) = log s.



















End Fire.

(** ** Concrete runs: callbacks that only leave a trace *)

Definition trace_call (f a : Z) : K (list (Z * Z)) unit := modify (upd_heap (fun l => l ++ [(f, a)])).

(** Only the timers matter. *)
Definition timers_only (v : vtimers) : kstate (list (Z * Z)) :=
  KState [] ∅ ∅ ∅ ∅ ∅ ∅ ∅ ∅ ∅ ∅ ∅ ∅ 0 0 false 0 0 0 false NULL true false false false
    (SysTimer 168000 false st_off 0 167999 0 false true true true false false)
    (CpuStats 0 0 0 0 0 false) 0 v.



(** A cyclic timer whose next deadline is past the wrap of the tick counter. *)
Definition wrapping_timer : vtimers :=
  VTimers {[false := [2]; true := []]} false 1 1 {[2 := VTimer 0xfffffff6 0x40000001 12 0 true true]}.

(** Next to the wrap of the tick counter the promise of one fire per elapsed
    period is broken: a cyclic timer that is due exactly once at [tnow] is fired four
    times, because the catch-up loop compares the wrapped next deadline with [tnow]. *)
Theorem cyclic_wrap_fires_again :
  fire_count 0xfffffff6 (VTimer 0xfffffff6 0x40000001 12 0 true true) = 1%nat /\
  wp (handle_time trace_call 10 0xfffffff6 false) (fun _ s' =>
    k_heap s' = [(12, 0); (12, 0); (12, 0); (12, 0)]) (timers_only wrapping_timer).
Proof. split; [reflexivity|]. vm_compute. reflexivity. Qed.
