(* ===== verification/Seqfit.v ===== *)
(** * First fit heap (libisix/kernel/mm/malloc/seqfit.c)

    The heap is a sequence of blocks, each with a header of two words in front: the
    size of the block, and the next free block or a magic number.  The free blocks
    are linked in address order from the static header [heap.free]; adjacent free
    blocks are merged.

    The model keeps the headers that have been written, by address. *)

From S2P Require Import Prelude.
From S2P Require Import Kernel.
From stdpp Require Import base numbers gmap list sorting.
From Stdlib Require Import ZArith Lia.
Local Open Scope Z_scope.

Definition MAGIC : Z := 0x19790822.
Definition ALIGN_MASK : Z := ISIX_BYTE_ALIGNMENT_SIZE - 1.

(** [ALIGN_SIZE], with the wrap-around of [size_t] *)
Definition ALIGN_SIZE (p : Z) : Z := Z.land (u32 (p + ALIGN_MASK)) (Z.lxor (2 ^ 32 - 1) ALIGN_MASK).

(** [struct header]; [h_next] is also [h_magic] *)
Record header := Header {
  h_next : Z;
  h_size : Z
}.

(** [sizeof( struct header )] *)
Definition header_size : Z := 8.

Definition set_h_next (n : Z) (h : header) : header := Header n (h_size h).
Definition set_h_size (n : Z) (h : header) : header := Header (h_next h) n.

(** The static [heap], the headers, and the bytes [realloc] copies. *)
Record seqfit := SeqFit {
  sf_hdr : gmap Z header;
  sf_used : Z;
  sf_mem : gmap Z Z
}.

Definition upd_hdr (f : gmap Z header -> gmap Z header) (s : seqfit) : seqfit :=
  SeqFit (f (sf_hdr s)) (sf_used s) (sf_mem s).
Definition upd_used (f : Z -> Z) (s : seqfit) : seqfit := SeqFit (sf_hdr s) (f (sf_used s)) (sf_mem s).
Definition upd_bytes (f : gmap Z Z -> gmap Z Z) (s : seqfit) : seqfit :=
  SeqFit (sf_hdr s) (sf_used s) (f (sf_mem s)).

(** [memcpy] of the bytes that are known. *)
Fixpoint mem_copy (dst src : Z) (n : nat) (m : gmap Z Z) : gmap Z Z :=
  match n with
  | O => m
  | S n => mem_copy (dst + 1) (src + 1) n
             (match m !! src with Some b => <[dst := b]> m | None => delete dst m end)
  end.

Record heap_stat := HeapStat { fragments : Z; free_mem : Z; used_mem : Z }.

Section Seqfit.

(** Addresses the linker chooses: [&heap.free], [__heap_start] and [__heap_end]. *)
Context (heap_head heap_start heap_end : Z).

Local Abbreviation SM := (M seqfit).

Definition hdr_get (p : Z) : SM header := m <- gets sf_hdr;; of_option (m !! p).
Definition hdr_set (p : Z) (h : header) : SM unit := modify (upd_hdr (insert p h)).
Definition hdr_upd (p : Z) (f : header -> header) : SM unit := h <- hdr_get p;; hdr_set p (f h).

(** [LIMIT] *)
Definition LIMIT (p : Z) : SM Z := h <- hdr_get p;; ret (u32 (p + header_size + h_size h)).

(** [abort()] writes through a null pointer. *)
Definition seqfit_alloc_init : SM unit :=
  if negb (heap_start mod ISIX_BYTE_ALIGNMENT_SIZE =? 0) then fault else
  hdr_set heap_start (Header NULL (u32 (heap_end - heap_start - header_size)));;;
  hdr_set heap_head (Header heap_start 0);;;
  modify (upd_used (fun _ => 0)).

(** The loop of [seqfit_alloc]. *)
Fixpoint alloc_loop (fuel : nat) (size qp : Z) : SM Z :=
  match fuel with
  | O => fault
  | S fuel =>
      q <- hdr_get qp;;
      if h_next q =? NULL then ret NULL else
      let hp := h_next q in
      h <- hdr_get hp;;
      if size <=? h_size h then
        (if h_size h <? u32 (size + header_size) then
           hdr_upd qp (set_h_next (h_next h))
         else
           let fp := u32 (hp + header_size + size) in
           hdr_set fp (Header (h_next h) (u32 (h_size h - header_size - size)));;;
           hdr_upd qp (set_h_next fp);;;
           hdr_upd hp (set_h_size size));;;
        hdr_upd hp (set_h_next MAGIC);;;
        modify (upd_used (fun u => u32 (u + size)));;;
        ret (u32 (hp + header_size))
      else alloc_loop fuel size hp
  end.

(** A walk along the free list meets every header at most once. *)
Definition list_fuel : SM nat := gets (fun s => S (base.size (sf_hdr s))).

Definition seqfit_alloc (size : Z) : SM Z :=
  let size := ALIGN_SIZE size in
  fuel <- list_fuel;;
  alloc_loop fuel size heap_head.

(** The insertion point of [seqfit_free] has been found. *)
Definition free_insert (qp hp block_siz : Z) : SM unit :=
  q <- hdr_get qp;;
  hdr_upd hp (set_h_next (h_next q));;;
  hdr_upd qp (set_h_next hp);;;
  lim <- LIMIT hp;;
  h <- hdr_get hp;;
  when (lim =? h_next h)
    (n <- hdr_get (h_next h);;
     hdr_upd hp (set_h_size (u32 (h_size h + (h_size n + header_size))));;;
     hdr_upd hp (set_h_next (h_next n)));;;
  limq <- LIMIT qp;;
  when (limq =? hp)
    (h <- hdr_get hp;;
     q <- hdr_get qp;;
     hdr_upd qp (set_h_size (u32 (h_size q + (h_size h + header_size))));;;
     hdr_upd qp (set_h_next (h_next h)));;;
  modify (upd_used (fun u => u32 (u - block_siz))).

Fixpoint free_loop (fuel : nat) (hp block_siz qp : Z) : SM unit :=
  match fuel with
  | O => fault
  | S fuel =>
      q <- hdr_get qp;;
      if ((qp =? heap_head) || (qp <? hp)) && ((h_next q =? NULL) || (hp <? h_next q))
      then free_insert qp hp block_siz
      else free_loop fuel hp block_siz (h_next q)
  end.

Definition seqfit_free (p : Z) : SM unit :=
  if p =? NULL then ret tt else
  let hp := p - header_size in
  h <- hdr_get hp;;
  fuel <- list_fuel;;
  free_loop fuel hp (h_size h) heap_head.

Definition seqfit_heap_getsize (p : Z) : SM Z :=
  h <- hdr_get (p - header_size);;
  ret (if negb (h_next h =? MAGIC) then 0 else h_size h).

Definition seqfit_realloc (ptr size : Z) : SM Z :=
  if ptr =? NULL then seqfit_alloc size else
  if size =? 0 then seqfit_free ptr;;; ret NULL else
  old_size <- seqfit_heap_getsize ptr;;
  if size <=? old_size then ret ptr else
  mem <- seqfit_alloc size;;
  when (negb (mem =? NULL))
    (modify (upd_bytes (mem_copy mem ptr (Z.to_nat old_size)));;; seqfit_free ptr);;;
  ret mem.

(** The loop of [seqfit_heap_stats]. *)
Fixpoint stats_loop (fuel : nat) (qp frags mem : Z) : SM (Z * Z) :=
  if qp =? NULL then ret (frags, mem) else
  match fuel with
  | O => fault
  | S fuel => q <- hdr_get qp;; stats_loop fuel (h_next q) (frags + 1) (u32 (mem + h_size q))
  end.

Definition seqfit_heap_stats : SM heap_stat :=
  fuel <- list_fuel;;
  r <- stats_loop fuel heap_head 0 0;;
  used <- gets sf_used;;
  ret (HeapStat (fst r) (snd r) used).

(** The loop of [_isixp_heap_check]. *)
Fixpoint check_loop (fuel : nat) (prev p : Z) : SM Z :=
  if p =? NULL then ret 0 else
  match fuel with
  | O => fault
  | S fuel =>
      h <- hdr_get p;;
      end_ <- LIMIT p;;
      limp <- (if prev =? NULL then ret 0 else LIMIT prev);;
      let r :=
        if (p <? heap_start) || (heap_end <? end_) || (end_ <? p) then -1
        else if negb (Z.land (h_size h) ALIGN_MASK =? 0) then -2
        else if negb (prev =? NULL) && (p <=? prev) then -3
        else if negb (prev =? NULL) && (p <? limp) then -4
        else if negb (prev =? NULL) && (limp =? p) then -5
        else 0 in
      if negb (r =? 0) then ret r else check_loop fuel p (h_next h)
  end.

Definition _isixp_heap_check : SM Z :=
  fuel <- list_fuel;;
  q <- hdr_get heap_head;;
  check_loop fuel NULL (h_next q).

(** The heap as the kernel's allocator. *)
Definition seqfit_allocator : Allocator seqfit := {|
  heap_alloc := fun n s => match seqfit_alloc n s with Ok p s' => (p, s') | _ => (NULL, s) end;
  heap_free := fun p s => match seqfit_free p s with Ok _ s' => s' | _ => s end
|}.

End Seqfit.
