(* ===== verification/SeqfitProofs.v ===== *)
(** * Correctness of the first fit heap

    The abstract heap is the list of its free blocks in address order and the list of
    the blocks in use; together they tile the heap.  The pointer code keeps this view:
    allocation takes the first free block that is large enough, freeing merges the
    block with its neighbours, and freeing what was allocated last restores the free
    list. *)

From S2P Require Import Prelude.
From S2P Require Import Kernel.
From S2P Require Import Seqfit.
From stdpp Require Import base numbers gmap list sorting.
From Stdlib Require Import ZArith Lia.
Local Open Scope Z_scope.

(** A block: the address of its header and its size. *)
Abbreviation block := (Z * Z)%type.

Definition end_of (b : block) : Z := b.1 + header_size + b.2.
Definition apart (b c : block) : Prop := end_of b <= c.1 \/ end_of c <= b.1.

(** Bytes the blocks take with their headers, and without. *)
Definition total (l : list block) : Z := foldr (fun b t => header_size + b.2 + t) 0 l.
Definition total_sizes (l : list block) : Z := foldr (fun b t => b.2 + t) 0 l.

(** ** List segments *)

Definition first (l : list block) (e : Z) : Z := match l with [] => e | (a, _) :: _ => a end.

Fixpoint lseg (m : gmap Z header) (l : list block) (e : Z) : Prop :=
  match l with
  | [] => True
  | (a, sz) :: l => m !! a = Some (Header (first l e) sz) /\ lseg m l e
  end.

Lemma first_app l1 l2 e : first (l1 ++ l2) e = first l1 (first l2 e).
Proof. by destruct l1 as [|[? ?] ?]. Qed.

Lemma lseg_app m l1 l2 e : lseg m (l1 ++ l2) e <-> lseg m l1 (first l2 e) /\ lseg m l2 e.
Proof.
  induction l1 as [|[a sz] l1 IH]; simpl; [tauto|]. rewrite first_app, IH. tauto.
Qed.

Lemma lseg_insert m a h l e : a ∉ l.*1 -> lseg m l e -> lseg (<[a := h]> m) l e.
Proof.
  induction l as [|[b sz] l IH]; simpl; [done|]. intros [Hb Hn]%not_elem_of_cons [Hm Hl].
  split; [by rewrite lookup_insert_ne|auto].
Qed.

Lemma lseg_lookup m l e b : lseg m l e -> b ∈ l -> exists n, m !! b.1 = Some (Header n b.2).
Proof.
  induction l as [|[a sz] l IH]; simpl; [by intros _ ?%not_elem_of_nil|].
  intros [Hm Hl] [->|Hb]%elem_of_cons; eauto.
Qed.

Lemma total_app l1 l2 : total (l1 ++ l2) = total l1 + total l2.
Proof. induction l1 as [|b l1 IH]; simpl; lia. Qed.

#[global] Instance total_perm : Proper ((≡ₚ) ==> (=)) total.
Proof. intros l1 l2 H. induction H; simpl; lia. Qed.

#[global] Instance total_sizes_perm : Proper ((≡ₚ) ==> (=)) total_sizes.
Proof. intros l1 l2 H. induction H; simpl; lia. Qed.

(** ** Geometry *)

Section Geometry.
Context (heap_start heap_end : Z).

(** Addresses and sizes are multiples of 8, the block lies in the heap. *)
Definition inside (b : block) : Prop :=
  heap_start <= b.1 /\ end_of b <= heap_end /\ 0 <= b.2 /\ (8 | b.1) /\ (8 | b.2).

(** Free blocks in address order with used memory in between. *)
Definition separated (l : list block) : Prop := StronglySorted (fun b c => end_of b < c.1) l.

Record geometry (fl us : list block) : Prop := {
  g_inside : Forall inside (fl ++ us);
  g_apart : forall b c, b ∈ fl -> c ∈ us -> apart b c;
  g_used : ForallOrdPairs apart us;
  g_sep : separated fl;
  g_total : total (fl ++ us) = heap_end - heap_start
}.

Lemma separated_app l1 l2 :
  separated (l1 ++ l2) <->
  separated l1 /\ separated l2 /\ forall b c, b ∈ l1 -> c ∈ l2 -> end_of b < c.1.
Proof.
  unfold separated. induction l1 as [|a l1 IH]; simpl.
  - split; [intros; split_and!; [constructor|done|by intros b c ?%not_elem_of_nil]|tauto].
  - split.
    + intros [H1 H2]%StronglySorted_inv. apply IH in H1 as (Ha & Hb & Hc).
      apply Forall_app in H2 as [H2 H3]. rewrite Forall_forall in H3.
      split_and!; [by constructor|done|]. intros b c [->|Hb']%elem_of_cons; auto.
    + intros ([H1 H2]%StronglySorted_inv & Hb & Hc). constructor.
      * apply IH. split_and!; [done..|]. intros b c Hb'. apply Hc. by right.
      * apply Forall_app. split; [done|]. apply Forall_forall. intros c Hc'. apply Hc; [left|done].
Qed.

Lemma separated_cons b l :
  separated (b :: l) <-> separated l /\ forall c, c ∈ l -> end_of b < c.1.
Proof.
  change (b :: l) with ([b] ++ l). rewrite separated_app. split.
  - intros (_ & H & Hc). split; [done|]. intros c Hin. apply Hc; [left|done].
  - intros [H Hc]. split_and!; [repeat constructor|done|].
    intros ? c ->%list_elem_of_singleton. apply Hc.
Qed.

Lemma apart_sym b c : apart b c -> apart c b.
Proof. unfold apart. tauto. Qed.

Lemma apart_pairs_perm l1 l2 : l1 ≡ₚ l2 -> ForallOrdPairs apart l1 -> ForallOrdPairs apart l2.
Proof.
  induction 1 as [|x l1 l2 Hp IH|x y l|l1 l2 l3 _ IH1 _ IH2]; [done| | |auto].
  - intros Hf. inversion_clear Hf as [|? ? Hx Hl]. constructor; [by rewrite <- Hp|auto].
  - intros Hf. inversion_clear Hf as [|? ? Hy Hxl]. inversion_clear Hxl as [|? ? Hx Hl].
    inversion_clear Hy as [|? ? Hyx Hyl].
    constructor; [constructor; [by apply apart_sym|done]|by constructor].
Qed.

End Geometry.

(** ** Rounding of the size *)

Lemma align_mask x : in_u32 x -> Z.land x (Z.lxor (2 ^ 32 - 1) ALIGN_MASK) = x / 8 * 8.
Proof.
  unfold in_u32. intros Hx. change (Z.lxor (2 ^ 32 - 1) ALIGN_MASK) with (Z.shiftl (Z.ones 29) 3).
  change 8 with (2 ^ 3). rewrite <- Z.shiftr_div_pow2, <- Z.shiftl_mul_pow2 by lia.
  apply Z.bits_inj'. intros n Hn. rewrite Z.land_spec, !Z.shiftl_spec by lia.
  destruct (Z.lt_ge_cases n 3) as [Hlt|Hge].
  - rewrite !(Z.testbit_neg_r _ (n - 3)) by lia. apply andb_false_r.
  - rewrite Z.shiftr_spec by lia. replace (n - 3 + 3) with n by lia.
    destruct (Z.lt_ge_cases n 32) as [H32|H32].
    + rewrite Z.ones_spec_low by lia. apply andb_true_r.
    + rewrite Z.ones_spec_high by lia. rewrite andb_false_r.
      symmetry. apply Z.bits_above_log2; [lia|].
      destruct (Z.eq_dec x 0) as [->|Hne]; [simpl; lia|].
      assert (Z.log2 x < 32) by (apply Z.log2_lt_pow2; lia). lia.
Qed.

Lemma ALIGN_SIZE_eq n : 0 <= n <= 2 ^ 32 - 8 -> ALIGN_SIZE n = (n + 7) / 8 * 8.
Proof.
  intros Hn. unfold ALIGN_SIZE. rewrite u32_id by (unfold in_u32; change ALIGN_MASK with 7; lia).
  by rewrite align_mask by (unfold in_u32; change ALIGN_MASK with 7; lia).
Qed.

(** The least multiple of 8 that is not smaller, when it fits in a word. *)
Lemma ALIGN_SIZE_spec n :
  0 <= n <= 2 ^ 32 - 8 -> n <= ALIGN_SIZE n < n + 8 /\ (8 | ALIGN_SIZE n) /\ ALIGN_SIZE n < 2 ^ 32.
Proof.
  intros Hn. rewrite ALIGN_SIZE_eq by done.
  pose proof (Z.div_mod (n + 7) 8 ltac:(lia)). pose proof (Z.mod_pos_bound (n + 7) 8 ltac:(lia)).
  split; [lia|]. split; [by apply Z.divide_factor_r|lia].
Qed.

(** ** The abstract allocator *)

(** First fit on the list of free blocks: the list that is left and the block taken.
    A rest that cannot hold a header stays with the block. *)
Fixpoint first_fit (size : Z) (fl : list block) : option (list block * block) :=
  match fl with
  | [] => None
  | (a, sz) :: l =>
      if size <=? sz then
        Some (if sz <? size + header_size then (l, (a, sz))
              else ((a + header_size + size, sz - header_size - size) :: l, (a, size)))
      else '(l', b) ← first_fit size l; Some ((a, sz) :: l', b)
  end.

Lemma first_fit_skip size l1 l2 :
  Forall (fun b => b.2 < size) l1 ->
  first_fit size (l1 ++ l2) = ('(l', b) ← first_fit size l2; Some (l1 ++ l', b)).
Proof.
  induction 1 as [|[a sz] l1 Hb Hl IH]; simpl in *.
  - by destruct (first_fit size l2) as [[l' b]|].
  - rewrite (proj2 (Z.leb_gt _ _)) by done. rewrite IH. by destruct (first_fit size l2) as [[l' b]|].
Qed.

Lemma first_fit_block size fl fl' b :
  first_fit size fl = Some (fl', b) -> size <= b.2 /\ exists c, c ∈ fl /\ c.1 = b.1.
Proof.
  revert fl'. induction fl as [|[a sz] l IH]; intros fl'; simpl; [done|].
  destruct (Z.leb_spec size sz) as [Hle|_].
  - destruct (sz <? size + header_size); intros [= _ <-]; (split; [simpl; lia|]);
      exists (a, sz); split; done || left.
  - destruct (first_fit size l) as [[l' b']|]; simpl; [|done]. intros [= _ ->].
    destruct (IH l' eq_refl) as (H1 & c & Hc & Hc1). split; [done|]. exists c. split; [by right|done].
Qed.

Section Take.
Context (heap_start heap_end : Z).
Local Abbreviation geo := (geometry heap_start heap_end).

(** Moving a free block to the used ones, whole or its front. *)
Lemma geometry_take_whole l1 b l2 us : geo (l1 ++ b :: l2) us -> geo (l1 ++ l2) (b :: us).
Proof.
  intros [Hi Ha Hu Hs Ht].
  assert ((l1 ++ b :: l2) ++ us ≡ₚ (l1 ++ l2) ++ b :: us) as Hp.
  { rewrite <- !app_assoc. simpl. by rewrite !Permutation_middle. }
  apply separated_app in Hs as (Hs1 & [Hs2 Hb]%separated_cons & Hs3). split.
  - by rewrite <- Hp.
  - intros c d Hc [->|Hd]%elem_of_cons.
    + apply elem_of_app in Hc as [Hc|Hc]; [left; apply Z.lt_le_incl, Hs3; [done|left]|].
      right. apply Z.lt_le_incl, Hb. done.
    + apply Ha; [|done]. set_solver.
  - constructor; [|done]. apply Forall_forall. intros c Hc. apply Ha; [set_solver|done].
  - apply separated_app. split_and!; [done|done|]. intros c d Hc Hd. apply Hs3; [done|by right].
  - by rewrite <- Hp.
Qed.

Lemma geometry_take_front l1 a sz size l2 us :
  geo (l1 ++ (a, sz) :: l2) us -> 0 <= size -> (8 | size) -> size + header_size <= sz ->
  geo (l1 ++ (a + header_size + size, sz - header_size - size) :: l2) ((a, size) :: us).
Proof.
  intros [Hi Ha Hu Hs Ht] H0 H8 Hle. unfold header_size in *.
  set (f := (a + 8 + size, sz - 8 - size)). set (b := (a, sz)) in *. set (u := (a, size)).
  assert (end_of f = end_of b) as Ef by (unfold end_of, f, b, header_size; simpl; lia).
  assert (end_of u = f.1) as Eu by (unfold end_of, f, u, header_size; simpl; lia).
  assert (u.1 = b.1) as Eu1 by done.
  apply separated_app in Hs as (Hs1 & [Hs2 Hb]%separated_cons & Hs3).
  apply Forall_app in Hi as [Hi1 Hi2]. pose proof Hi1 as Hi1'.
  apply Forall_app in Hi1' as [Hil1 Hil2]. inversion_clear Hil2 as [|? ? Hbi Hil2'].
  destruct Hbi as (B1 & B2 & B3 & B4 & B5). simpl in B3, B4, B5.
  split.
  - rewrite Forall_app, Forall_app, !Forall_cons. split_and!; try done.
    + unfold inside. rewrite Ef. simpl. split_and!; try lia; [unfold b in B1; simpl in B1; lia| |].
      * repeat apply Z.divide_add_r; done.
      * repeat apply Z.divide_sub_r; done.
    + unfold inside, u, end_of. simpl. unfold b, end_of, header_size in *. simpl in *. split_and!; try done; lia.
  - intros c d Hc [->|Hd]%elem_of_cons.
    + unfold apart. rewrite Eu. apply elem_of_app in Hc as [Hc|[->|Hc]%elem_of_cons].
      * left. rewrite Eu1. apply Z.lt_le_incl, Hs3; [done|left].
      * right. lia.
      * right. specialize (Hb c Hc). unfold b, f, end_of, header_size in *. simpl in *. lia.
    + apply elem_of_app in Hc as [Hc|[->|Hc]%elem_of_cons]; [apply Ha; [set_solver|done]| |apply Ha; [set_solver|done]].
      destruct (Ha b d) as [H|H]; [set_solver|done|left; by rewrite Ef|].
      right. unfold f, b in *. simpl in *. lia.
  - constructor; [|done]. apply Forall_forall. intros c Hc.
    destruct (Ha b c) as [H|H]; [set_solver|done|left|by right].
    unfold u, b, end_of, header_size in *. simpl in *. lia.
  - apply separated_app. split_and!; [done| |].
    + apply separated_cons. by rewrite Ef.
    + intros c d Hc [->|Hd]%elem_of_cons; [|apply Hs3; [done|by right]].
      specialize (Hs3 c b Hc ltac:(left)). unfold f, b in *. simpl in *. lia.
  - rewrite <- Ht, !total_app. simpl. unfold header_size. lia.
Qed.
End Take.

(** Putting a block in front of a list, merged with the block it touches. *)
Definition join (b : block) (l : list block) : list block :=
  match l with
  | c :: l' => if end_of b =? c.1 then (b.1, b.2 + (c.2 + header_size)) :: l' else b :: l
  | [] => [b]
  end.

(** Giving a block back: it goes to its place in address order and is merged with the
    blocks it touches on either side. *)
Fixpoint release (b : block) (fl : list block) : list block :=
  match fl with
  | [] => [b]
  | c :: l => if b.1 <? c.1 then join b fl else join c (release b l)
  end.

Lemma total_join b l : total (join b l) = header_size + b.2 + total l.
Proof.
  destruct l as [|c l]; simpl; [done|]. destruct (end_of b =? c.1); simpl; [|done].
  unfold header_size. lia.
Qed.

Lemma total_release b l : total (release b l) = header_size + b.2 + total l.
Proof.
  induction l as [|c l IH]; [done|]. cbn [release]. destruct (b.1 <? c.1); rewrite total_join; simpl; [done|].
  rewrite IH. lia.
Qed.

(** [join] extends the first block only. *)
Lemma elem_of_join b l x :
  x ∈ join b l -> x = b \/ x ∈ l \/ (x.1 = b.1 /\ exists c, c ∈ l /\ end_of b = c.1 /\ x.2 = b.2 + (c.2 + header_size)).
Proof.
  destruct l as [|c l]; simpl; [set_solver|].
  destruct (Z.eqb_spec (end_of b) c.1); [|set_solver].
  intros [->|Hx]%elem_of_cons; [|set_solver]. right. right. split; [done|]. exists c. split; [left|done].
Qed.

Lemma apart_join d b l :
  0 <= d.2 -> apart d b -> (forall c, c ∈ l -> apart d c) -> forall x, x ∈ join b l -> apart d x.
Proof.
  intros Hd Hb Hl x [->|[Hx|(Hx1 & c & Hc & He & Hx2)]]%elem_of_join; [done|auto|].
  specialize (Hl c Hc). unfold apart, end_of, header_size in *. lia.
Qed.

Lemma apart_release d b l :
  0 <= d.2 -> apart d b -> (forall c, c ∈ l -> apart d c) -> forall x, x ∈ release b l -> apart d x.
Proof.
  intros Hd Hb. induction l as [|c l IH]; intros Hl; [by intros x ->%list_elem_of_singleton|].
  cbn [release]. destruct (b.1 <? c.1); apply apart_join; try done.
  - apply Hl. left.
  - apply IH. intros e He. apply Hl. by right.
Qed.

Lemma inside_join hs he b l :
  inside hs he b -> Forall (inside hs he) l -> Forall (inside hs he) (join b l).
Proof.
  intros Hb Hl. destruct l as [|c l]; simpl; [by constructor|].
  destruct (Z.eqb_spec (end_of b) c.1) as [E|]; [|by constructor].
  inversion_clear Hl as [|? ? Hc Hl']. constructor; [|done].
  destruct Hb as (B1 & B2 & B3 & B4 & B5), Hc as (C1 & C2 & C3 & C4 & C5).
  unfold inside, end_of, header_size in *. simpl. split_and!; try done; try lia.
  repeat apply Z.divide_add_r; try done. 
Qed.

Lemma inside_release hs he b l :
  inside hs he b -> Forall (inside hs he) l -> Forall (inside hs he) (release b l).
Proof.
  intros Hb. induction 1 as [|c l Hc Hl IH]; [by constructor|].
  cbn [release]. destruct (b.1 <? c.1); apply inside_join; try done. by constructor.
Qed.

Lemma join_sep b l :
  separated l -> (forall c, c ∈ l -> end_of b <= c.1 /\ 0 <= c.2) -> separated (join b l).
Proof.
  intros Hs Hb. destruct l as [|c l]; simpl; [repeat constructor|].
  apply separated_cons in Hs as [Hs Hc]. destruct (Z.eqb_spec (end_of b) c.1) as [E|Hne].
  - apply separated_cons. split; [done|]. intros d Hd. specialize (Hc d Hd).
    unfold end_of, header_size in *. simpl. lia.
  - apply separated_cons. split; [by apply separated_cons|].
    intros d [->|Hd]%elem_of_cons; [destruct (Hb c ltac:(left)); lia|].
    specialize (Hc d Hd). destruct (Hb c ltac:(left)). unfold end_of, header_size in *. lia.
Qed.

Lemma release_lower b l a :
  a <= b.1 -> (forall c, c ∈ l -> a <= c.1) -> forall x, x ∈ release b l -> a <= x.1.
Proof.
  intros Hb. induction l as [|c l IH]; intros Hl; [by intros x ->%list_elem_of_singleton|].
  cbn [release]. specialize (Hl c ltac:(left)) as Hc.
  destruct (b.1 <? c.1); intros x [->|[Hx|(-> & _)]]%elem_of_join; auto.
  apply IH; [|done]. intros d Hd. apply Hl. by right.
Qed.

Lemma release_sep hs he b l :
  inside hs he b -> Forall (inside hs he) l -> (forall c, c ∈ l -> apart b c) ->
  separated l -> separated (release b l).
Proof.
  intros Hb. induction l as [|c l IH]; intros Hi Ha Hs; [repeat constructor|].
  pose proof (Forall_forall (inside hs he) (c :: l)) as [Hin _]. specialize (Hin Hi).
  inversion_clear Hi as [|? ? Hc Hi']. pose proof Hs as [Hs' Hlt]%separated_cons.
  pose proof Hb as (_ & _ & Hb0 & _). pose proof Hc as (_ & _ & Hc0 & _).
  cbn [release]. destruct (Z.ltb_spec b.1 c.1) as [Hbc|Hbc].
  - apply join_sep; [done|]. intros d Hd. destruct (Hin d Hd) as (_ & _ & Hd0 & _). split; [|done].
    apply elem_of_cons in Hd as [->|Hd].
    + destruct (Ha c ltac:(left)) as [|]; unfold end_of, header_size in *; lia.
    + specialize (Hlt d Hd). destruct (Ha c ltac:(left)); unfold end_of, header_size in *; lia.
  - apply join_sep; [apply IH; [done| |done]; intros d Hd; apply Ha; by right|].
    intros x Hx. split.
    + revert x Hx. apply release_lower.
      * destruct (Ha c ltac:(left)); unfold end_of, header_size in *; lia.
      * intros d Hd. specialize (Hlt d Hd). lia.
    + pose proof (inside_release hs he b l Hb Hi') as Hall. rewrite Forall_forall in Hall.
      by destruct (Hall x Hx) as (_ & _ & ? & _).
Qed.

Lemma geometry_release hs he fl b u1 u2 :
  geometry hs he fl (u1 ++ b :: u2) -> geometry hs he (release b fl) (u1 ++ u2).
Proof.
  intros [Hi Ha Hu Hs Ht].
  apply Forall_app in Hi as [Hi1 Hi2]. rewrite Forall_app, Forall_cons in Hi2. destruct Hi2 as (Hi2 & Hb & Hi3).
  pose proof (apart_pairs_perm (u1 ++ b :: u2) (b :: u1 ++ u2) ltac:(by rewrite Permutation_middle) Hu) as Hu'.
  inversion_clear Hu' as [|? ? Hbu Hu12]. rewrite Forall_forall in Hbu. split.
  - rewrite !Forall_app. split; [by apply inside_release|done].
  - intros x c Hx Hc. apply apart_sym. revert x Hx. apply apart_release.
    + assert (inside hs he c) as (_ & _ & ? & _); [|done].
      apply elem_of_app in Hc. rewrite Forall_forall in Hi2, Hi3. naive_solver.
    + by apply apart_sym, Hbu.
    + intros d Hd. apply apart_sym, Ha; [done|]. set_solver.
  - done.
  - eapply release_sep; try done. intros c Hc. apply apart_sym, Ha; set_solver.
  - rewrite <- Ht, !total_app, total_release. simpl. lia.
Qed.

(** Giving a block back right after it was taken restores the free list. *)
Lemma release_first_fit size fl fl' b :
  0 <= size -> separated fl -> (forall c, c ∈ fl -> 0 <= c.2) ->
  first_fit size fl = Some (fl', b) -> release b fl' = fl.
Proof.
  intros H0. revert fl'. induction fl as [|[a sz] l IH]; intros fl' Hs Hp; simpl; [done|].
  apply separated_cons in Hs as [Hs Hlt]. pose proof (Hp (a, sz) ltac:(left)) as Hsz. simpl in Hsz.
  assert (forall x, x.1 = a -> 0 <= x.2 <= sz -> join x l = x :: l) as Hj.
  { intros x Hx Hx2. destruct l as [|c l]; [done|]. simpl. specialize (Hlt c ltac:(left)).
    rewrite (proj2 (Z.eqb_neq _ _)); [done|]. unfold end_of, header_size in *. simpl in Hlt. lia. }
  assert (forall c, c ∈ l -> a < c.1) as Hl.
  { intros c Hc. specialize (Hlt c Hc). unfold end_of, header_size in Hlt. simpl in Hlt. lia. }
  destruct (Z.leb_spec size sz) as [Hle|_].
  - destruct (Z.ltb_spec sz (size + header_size)) as [Hlt'|Hge]; intros [= <- <-].
    + destruct l as [|c l]; [done|]. cbn [release fst].
      rewrite (proj2 (Z.ltb_lt _ _)) by (apply Hl; left). by apply Hj.
    + unfold header_size in *. cbn [release fst]. rewrite (proj2 (Z.ltb_lt _ _)) by lia. simpl.
      unfold end_of, header_size. simpl. rewrite Z.eqb_refl. do 2 f_equal. lia.
  - destruct (first_fit size l) as [[l' b']|] eqn:E; simpl; [|done]. intros [= <- ->].
    destruct (first_fit_block _ _ _ _ E) as (_ & c & Hc & Hcb). specialize (Hl c Hc).
    cbn [release fst]. rewrite (proj2 (Z.ltb_ge _ _)) by (rewrite <- Hcb; simpl; lia).
    rewrite (IH l'); [|done| |done]; [by apply Hj|]. intros d Hd. apply Hp. by right.
Qed.

(** ** The heap *)

Section Heap.
Context (heap_head heap_start heap_end : Z).

(** What the linker script provides. *)
Record linked : Prop := {
  lk_start : 0 < heap_start /\ (8 | heap_start);
  lk_end : heap_start + header_size <= heap_end < 2 ^ 32 /\ (8 | heap_end);
  lk_free : 0 < heap_head < 2 ^ 32 - header_size;
  lk_outside : heap_head + header_size < heap_start \/ heap_end <= heap_head
}.
Hypothesis HL : linked.

(** The headers and the counter represent the free blocks [fl] and the blocks in
    use [us]. *)
Record heap_ok (s : seqfit) (fl us : list block) : Prop := {
  ho_list : lseg (sf_hdr s) ((heap_head, 0) :: fl) NULL;
  ho_magic : Forall (fun b => sf_hdr s !! b.1 = Some (Header MAGIC b.2)) us;
  ho_used : sf_used s = total_sizes us;
  ho_geo : geometry heap_start heap_end fl us
}.

Lemma wp_hdr_get p h (Q : header -> seqfit -> Prop) s :
  sf_hdr s !! p = Some h -> Q h s -> wp (hdr_get p) Q s.
Proof. intros Hh HQ. unfold hdr_get. wp_step. wp_step. by eapply wp_of_option. Qed.

Lemma wp_hdr_upd p h f (Q : unit -> seqfit -> Prop) s :
  sf_hdr s !! p = Some h -> Q tt (upd_hdr (insert p (f h)) s) -> wp (hdr_upd p f) Q s.
Proof. intros Hh HQ. unfold hdr_upd. wp_step. by eapply wp_hdr_get. Qed.

Lemma inside_start b : inside heap_start heap_end b -> 0 < b.1 /\ heap_head <> b.1.
Proof.
  intros (H1 & H2 & H3 & _). destruct HL as [[] [] ? Hout]. unfold end_of, header_size in *. lia.
Qed.

Lemma inside_in fl us b : geometry heap_start heap_end fl us -> b ∈ fl ++ us -> inside heap_start heap_end b.
Proof. intros [Hi _ _ _ _]. rewrite Forall_forall in Hi. apply Hi. Qed.

(** The free list does not meet a header twice. *)
Lemma separated_NoDup fl us : geometry heap_start heap_end fl us -> NoDup (((heap_head, 0) :: fl).*1).
Proof.
  intros Hg. simpl. apply NoDup_cons. split.
  - intros (b & Hb & Hin)%list_elem_of_fmap. symmetry in Hb.
    apply (inside_start b); [|done]. eapply inside_in; [exact Hg|]. apply elem_of_app. by left.
  - destruct Hg as [Hi _ _ Hs _]. apply Forall_app in Hi as [Hi _]. induction Hs as [|b l Hs IH Hb]; simpl; [constructor|].
    inversion_clear Hi as [|? ? Hbi Hli]. apply NoDup_cons. split; [|auto].
    intros (c & Hc & Hin)%list_elem_of_fmap. rewrite Forall_forall in Hb. specialize (Hb c Hin).
    destruct Hbi as (_ & _ & H0 & _). unfold end_of, header_size in Hb. lia.
Qed.

Lemma list_fuel_enough s fl us :
  heap_ok s fl us -> (length fl < base.size (sf_hdr s))%nat.
Proof.
  intros [Hl _ _ Hg]. pose proof (separated_NoDup _ _ Hg) as Hn.
  assert (((heap_head, 0) :: fl).*1 ⊆ (map_to_list (sf_hdr s)).*1) as Hsub.
  { intros a (b & -> & Hb)%list_elem_of_fmap. destruct (lseg_lookup _ _ _ b Hl Hb) as (n & Hm).
    apply list_elem_of_fmap. eexists (_, _). split; [|apply elem_of_map_to_list; exact Hm]. done. }
  pose proof (NoDup_submseteq _ _ Hn Hsub) as Hm. apply submseteq_length in Hm.
  rewrite !length_fmap, length_map_to_list in Hm. simpl in Hm. lia.
Qed.

(** A header inside a free block belongs to no other block. *)
Lemma fresh_header l1 b l2 us p :
  geometry heap_start heap_end (l1 ++ b :: l2) us -> b.1 < p < end_of b ->
  p ∉ ((heap_head, 0) :: l1).*1 /\ p ∉ l2.*1 /\ p ∉ us.*1.
Proof.
  intros Hg Hp. pose proof (inside_in _ _ b Hg ltac:(set_solver)) as Hb.
  pose proof Hg as [Hi Ha _ Hs _].
  apply separated_app in Hs as (_ & [_ Hs2]%separated_cons & Hs3). split_and!.
  - simpl. apply not_elem_of_cons. split.
    + destruct Hb as (B1 & B2 & _), HL as [_ _ _ []]; unfold header_size in *; lia.
    + intros (c & -> & Hc)%list_elem_of_fmap. specialize (Hs3 c b Hc ltac:(left)).
      pose proof (inside_in _ _ c Hg ltac:(set_solver)) as (_ & _ & C & _).
      unfold end_of, header_size in *. lia.
  - intros (c & -> & Hc)%list_elem_of_fmap. specialize (Hs2 c Hc). lia.
  - intros (c & -> & Hc)%list_elem_of_fmap.
    pose proof (inside_in _ _ c Hg ltac:(set_solver)) as (_ & _ & C & _).
    destruct (Ha b c); [set_solver|done|lia|]. unfold end_of, header_size in *. lia.
Qed.

(** The header of a free block is not the header of another block. *)
Lemma own_header l1 b l2 us :
  geometry heap_start heap_end (l1 ++ b :: l2) us ->
  b.1 ∉ ((heap_head, 0) :: l1).*1 /\ b.1 ∉ l2.*1 /\ b.1 ∉ us.*1.
Proof.
  intros Hg. pose proof (separated_NoDup _ _ Hg) as Hn. simpl in Hn.
  rewrite fmap_app, fmap_cons in Hn. apply NoDup_cons in Hn as [H1 (H2 & H3 & [H4 H5]%NoDup_cons)%NoDup_app].
  split_and!; [|done|].
  - simpl. apply not_elem_of_cons. split; [set_solver|]. intros H. by apply (H3 _ H); left.
  - intros (c & Hc & Hin)%list_elem_of_fmap.
    pose proof (inside_in _ _ c Hg ltac:(set_solver)) as (_ & _ & C & _).
    pose proof (inside_in _ _ b Hg ltac:(set_solver)) as (_ & _ & B & _).
    destruct (g_apart _ _ _ _ Hg b c); [set_solver|done|..]; unfold end_of, header_size in *; lia.
Qed.

Lemma magic_insert (m : gmap Z header) p h us :
  p ∉ us.*1 -> Forall (fun b : block => m !! b.1 = Some (Header MAGIC b.2)) us ->
  Forall (fun b : block => <[p := h]> m !! b.1 = Some (Header MAGIC b.2)) us.
Proof.
  intros Hp. rewrite !Forall_forall. intros H b Hb. rewrite lookup_insert_ne; [auto|].
  intros ->. apply Hp. apply list_elem_of_fmap. eauto.
Qed.

Lemma free_not_used fl us b :
  geometry heap_start heap_end fl us -> b ∈ (heap_head, 0) :: fl -> b.1 ∉ us.*1.
Proof.
  intros Hg [->|(l1 & l2 & ->)%list_elem_of_split]%elem_of_cons.
  - intros (c & Hc & Hin)%list_elem_of_fmap.
    apply (inside_start c); [|done]. eapply inside_in; [exact Hg|set_solver].
  - by apply (own_header l1 b l2 us).
Qed.

Lemma used_bound fl us :
  geometry heap_start heap_end fl us -> 0 <= total_sizes us < 2 ^ 32.
Proof.
  intros [Hi _ _ _ Ht]. rewrite total_app in Ht.
  assert (forall l, Forall (inside heap_start heap_end) l -> 0 <= total_sizes l <= total l) as H.
  { induction 1 as [|b l (_ & _ & Hb & _) Hl IH]; simpl; [lia|]. unfold header_size. lia. }
  apply Forall_app in Hi as [H1%H H2%H]. destruct HL as [[] [] _ _]. lia.
Qed.

(** The block after [q] is unlinked, or replaced by its rest. *)
Lemma lseg_unlink m l1 q qs a sz l2 e h :
  NoDup ((l1 ++ (q, qs) :: (a, sz) :: l2).*1) -> lseg m (l1 ++ (q, qs) :: (a, sz) :: l2) e ->
  lseg (<[a := h]> (<[q := Header (first l2 e) qs]> m)) (l1 ++ (q, qs) :: l2) e.
Proof.
  rewrite fmap_app. simpl. intros (_ & Hd & [Hq [Ha _]%NoDup_cons]%NoDup_cons)%NoDup_app.
  rewrite !lseg_app. simpl. intros [H1 (_ & _ & H2)].
  apply not_elem_of_cons in Hq as [Hqa Hq]. split; [|split].
  - apply lseg_insert; [intros Hin; apply (Hd _ Hin); set_solver|].
    apply lseg_insert; [intros Hin; apply (Hd _ Hin); set_solver|done].
  - by rewrite lookup_insert_ne, lookup_insert_eq.
  - apply lseg_insert; [done|]. by apply lseg_insert.
Qed.

Lemma lseg_replace m l1 q qs a sz l2 e h p psz :
  NoDup ((l1 ++ (q, qs) :: (a, sz) :: l2).*1) -> p ∉ (l1 ++ (q, qs) :: (a, sz) :: l2).*1 ->
  lseg m (l1 ++ (q, qs) :: (a, sz) :: l2) e ->
  lseg (<[a := h]> (<[q := Header p qs]> (<[p := Header (first l2 e) psz]> m)))
    (l1 ++ (q, qs) :: (p, psz) :: l2) e.
Proof.
  rewrite fmap_app. simpl. intros (_ & Hd & [Hq [Ha _]%NoDup_cons]%NoDup_cons)%NoDup_app.
  rewrite elem_of_app, !elem_of_cons. intros Hp.
  rewrite !lseg_app. simpl. intros [H1 (_ & _ & H2)].
  apply not_elem_of_cons in Hq as [Hqa Hq]. split; [|split; [|split]].
  - apply lseg_insert; [intros Hin; apply (Hd _ Hin); set_solver|].
    apply lseg_insert; [intros Hin; apply (Hd _ Hin); set_solver|].
    apply lseg_insert; [tauto|done].
  - by rewrite lookup_insert_ne, lookup_insert_eq.
  - rewrite lookup_insert_ne by (intros ->; tauto). rewrite lookup_insert_ne by (intros ->; tauto).
    apply lookup_insert_eq.
  - apply lseg_insert; [done|]. apply lseg_insert; [done|]. apply lseg_insert; [tauto|done].
Qed.

Lemma walk_app {A} (l1 : list A) q h pre l : l1 ++ [q] = h :: pre -> h :: pre ++ l = l1 ++ q :: l.
Proof.
  intros Hp. change (h :: pre ++ l) with ((h :: pre) ++ l). by rewrite <- Hp, <- app_assoc.
Qed.

(** The block after [q] is large enough. *)
Lemma alloc_hit_spec size l1 q qs a sz l2 pre us s :
  0 <= size < 2 ^ 32 - header_size -> (8 | size) -> size <= sz ->
  l1 ++ [(q, qs)] = (heap_head, 0) :: pre -> heap_ok s (pre ++ (a, sz) :: l2) us ->
  wp ((if sz <? u32 (size + header_size) then hdr_upd q (set_h_next (first l2 NULL))
       else hdr_set (u32 (a + header_size + size)) (Header (first l2 NULL) (u32 (sz - header_size - size)));;;
            hdr_upd q (set_h_next (u32 (a + header_size + size)));;;
            hdr_upd a (set_h_size size));;;
      hdr_upd a (set_h_next MAGIC);;;
      modify (upd_used (fun u => u32 (u + size)));;;
      ret (u32 (a + header_size)))
    (fun r s' => exists fl' b l2', first_fit size ((a, sz) :: l2) = Some (l2', b) /\
       (heap_head, 0) :: fl' = l1 ++ (q, qs) :: l2' /\
       r = b.1 + header_size /\ heap_ok s' fl' (b :: us)) s.
Proof.
  intros Hsz H8 Hle Hpre [Hl Hm Hu Hg].
  pose proof (walk_app _ _ _ _ ((a, sz) :: l2) Hpre) as Hfl.
  pose proof (inside_in _ _ (a, sz) Hg ltac:(set_solver)) as (B1 & B2 & B3 & B4 & B5).
  pose proof (separated_NoDup _ _ Hg) as Hnd. rewrite Hfl in Hnd, Hl.
  assert (q ∉ us.*1) as Hqu.
  { apply (free_not_used _ us (q, qs) Hg). rewrite Hfl. set_solver. }
  assert (a ∉ us.*1) as Hau by (apply (free_not_used _ us (a, sz) Hg); set_solver).
  pose proof Hl as (_ & Hq & Ha & _)%lseg_app. simpl in Hq, Ha.
  assert (q <> a) as Hqa.
  { rewrite fmap_app in Hnd. simpl in Hnd. apply NoDup_app in Hnd as (_ & _ & [Hn _]%NoDup_cons). set_solver. }
  simpl in B1, B2, B3, B4, B5. unfold end_of, header_size in *. simpl in B2.
  destruct HL as [[? _] [[_ ?] _] _ Hout]. 
  rewrite (u32_id (size + 8)), (u32_id (a + 8 + size)), (u32_id (a + 8)) by (unfold in_u32; lia).
  simpl first_fit. rewrite (proj2 (Z.leb_le _ _)) by done. unfold header_size.
  destruct (Z.ltb_spec sz (size + 8)) as [Hsm|Hbig].
  - assert (sz = size) as -> by (destruct B5, H8; lia).
    pose proof (geometry_take_whole _ _ pre (a, size) l2 us Hg) as Hg'.
    wp_step. eapply wp_hdr_upd; [exact Hq|].
    wp_step. eapply wp_hdr_upd; [simpl; rewrite lookup_insert_ne by done; exact Ha|].
    wp_step. wp_step. wp_step. exists (pre ++ l2), (a, size), l2. split_and!; [done| |done|].
    + by apply walk_app.
    + split; cbn [sf_hdr sf_used upd_used upd_hdr]; [| | |exact Hg'].
      * rewrite (walk_app _ _ _ _ l2 Hpre).
        exact (lseg_unlink _ _ _ _ _ _ _ _ (Header MAGIC size) Hnd Hl).
      * constructor; [apply lookup_insert_eq|]. repeat (apply magic_insert; [done|]). done.
      * rewrite Hu. pose proof (used_bound _ _ Hg') as Hub. simpl in Hub |- *. rewrite u32_id by (unfold in_u32; lia). lia.
  - rewrite (u32_id (sz - 8 - size)) by (unfold in_u32; lia). set (p := a + 8 + size).
    pose proof (geometry_take_front _ _ pre a sz size l2 us Hg ltac:(lia) H8 ltac:(unfold header_size; lia)) as Hg'.
    destruct (fresh_header pre (a, sz) l2 us p Hg) as (P1 & P2 & P3); [unfold p, end_of, header_size; simpl; lia|].
    assert (p <> a) as Hpa by (unfold p; lia).
    rewrite <- Hpre, fmap_app in P1. simpl in P1. apply not_elem_of_app in P1 as [P1 P4].
    apply not_elem_of_cons in P4 as [P4 _].
    wp_step. wp_step. unfold hdr_set at 1. wp_step.
    wp_step. eapply wp_hdr_upd; [simpl; rewrite lookup_insert_ne by done; exact Hq|].
    eapply wp_hdr_upd; [simpl; rewrite !lookup_insert_ne by done; exact Ha|].
    wp_step. eapply wp_hdr_upd; [apply lookup_insert_eq|].
    wp_step. wp_step. wp_step. exists (pre ++ (p, sz - 8 - size) :: l2), (a, size), ((p, sz - 8 - size) :: l2).
    pose proof (walk_app _ _ _ _ ((p, sz - 8 - size) :: l2) Hpre) as E.
    split_and!; [done|exact E|done|].
    split; cbn [sf_hdr sf_used upd_used upd_hdr]; [| | |exact Hg'].
    + rewrite E, insert_insert_eq. apply (lseg_replace _ _ _ _ _ _ _ _ _ _ _ Hnd); [|exact Hl].
      rewrite fmap_app. simpl. rewrite elem_of_app, !elem_of_cons. tauto.
    + constructor; [apply lookup_insert_eq|]. repeat (apply magic_insert; [done|]). done.
    + rewrite Hu. pose proof (used_bound _ _ Hg') as Hub. simpl in Hub |- *.
      rewrite u32_id by (unfold in_u32; lia). lia.
Qed.

(** The walk has passed the blocks [l1] and stands at [q]. *)
Lemma alloc_loop_spec size : 0 <= size < 2 ^ 32 - header_size -> (8 | size) ->
  forall l2 fuel l1 q fl us s,
  (heap_head, 0) :: fl = l1 ++ q :: l2 -> heap_ok s fl us -> (length l2 < fuel)%nat ->
  wp (alloc_loop fuel size q.1) (fun r s' =>
    match first_fit size l2 with
    | None => r = NULL /\ s' = s
    | Some (l2', b) => exists fl', (heap_head, 0) :: fl' = l1 ++ q :: l2' /\
        r = b.1 + header_size /\ heap_ok s' fl' (b :: us)
    end) s.
Proof.
  intros Hsz H8. induction l2 as [|[a sz] l2 IH]; intros fuel l1 q fl us s Hfl Hok Hf;
    (destruct fuel as [|fuel]; [simpl in Hf; lia|]); pose proof (ho_list _ _ _ Hok) as Hl;
    rewrite Hfl in Hl; apply lseg_app in Hl as [Hl1 Hl2]; destruct q as [q qs];
    simpl in Hl2; destruct Hl2 as [Hq Hl2]; cbn [alloc_loop fst]; wp_step;
    (eapply wp_hdr_get; [exact Hq|]); cbn [h_next first].
  - rewrite Z.eqb_refl. wp_step. done.
  - destruct Hl2 as [Ha Hl2]. simpl in Hf.
    assert (exists pre, l1 ++ [(q, qs)] = (heap_head, 0) :: pre /\ fl = pre ++ (a, sz) :: l2) as (pre & Hpre & ->).
    { destruct l1 as [|x l1]; injection Hfl as -> ->; eexists; (split; [reflexivity|]); [done|].
      by rewrite <- app_assoc. }
    pose proof (ho_geo _ _ _ Hok) as Hg.
    pose proof (inside_in _ _ (a, sz) Hg ltac:(set_solver)) as Hb.
    pose proof (inside_start _ Hb) as [Hnull _]. simpl in Hnull.
    rewrite (proj2 (Z.eqb_neq _ _)) by (unfold NULL; lia).
    cbv zeta. wp_step. eapply wp_hdr_get; [exact Ha|]. cbn [h_size h_next first_fit].
    destruct (Z.leb_spec size sz) as [Hle|Hlt].
    + eapply wp_mono; [by apply (alloc_hit_spec size l1 q qs a sz l2 pre us s)|].
      intros r s' (fl' & b & l2' & Hff & Hfl' & Hr & Hok'). simpl in Hff.
      rewrite (proj2 (Z.leb_le _ _)) in Hff by done. injection Hff as ->. eauto.
    + eapply wp_mono; [apply (IH fuel (l1 ++ [(q, qs)]) (a, sz) (pre ++ (a, sz) :: l2) us s); [|exact Hok|lia]|].
      { rewrite Hfl, <- app_assoc. done. }
      cbv beta. intros r s' Hpost. destruct (first_fit size l2) as [[l2' b]|]; [|exact Hpost]. simpl.
      destruct Hpost as (fl' & Hfl' & Hr & Hok'). exists fl'. rewrite Hfl', <- app_assoc. done.
Qed.

(** Sizes an application can ask for without wrapping the rounding. *)
Definition size_ok (n : Z) : Prop := 0 <= n < 2 ^ 32 - 2 * header_size.

Lemma seqfit_alloc_spec n fl us s :
  size_ok n -> heap_ok s fl us ->
  wp (seqfit_alloc heap_head n) (fun r s' =>
    match first_fit (ALIGN_SIZE n) fl with
    | None => r = NULL /\ s' = s
    | Some (fl', b) => r = b.1 + header_size /\ heap_ok s' fl' (b :: us)
    end) s.
Proof.
  intros Hn Hok. unfold size_ok, header_size in Hn.
  destruct (ALIGN_SIZE_spec n) as (Hr & Hd & Hl); [lia|].
  unfold seqfit_alloc, list_fuel. wp_step. wp_step.
  eapply wp_mono; [apply (alloc_loop_spec (ALIGN_SIZE n)) with (l1 := []) (q := (heap_head, 0)) (l2 := fl)
    (fl := fl) (us := us)|]; try done.
  - unfold header_size. lia.
  - pose proof (list_fuel_enough s fl us Hok). lia.
  - intros r s'. destruct (first_fit (ALIGN_SIZE n) fl) as [[fl' b]|]; [|done].
    intros (fl'' & [= ->] & Hr' & Hok'). done.
Qed.

(** ** Freeing *)

(** Linking [b] after [q]. *)
Lemma lseg_link m l1 q qs b bs l2 e :
  NoDup ((l1 ++ (q, qs) :: (b, bs) :: l2).*1) -> lseg m (l1 ++ (q, qs) :: l2) e ->
  lseg (<[q := Header b qs]> (<[b := Header (first l2 e) bs]> m)) (l1 ++ (q, qs) :: (b, bs) :: l2) e.
Proof.
  rewrite fmap_app. simpl. intros (_ & Hd & [Hq [Hb _]%NoDup_cons]%NoDup_cons)%NoDup_app.
  rewrite !lseg_app. simpl. intros [H1 (_ & H2)].
  apply not_elem_of_cons in Hq as [Hqb Hq]. split; [|split; [|split]].
  - apply lseg_insert; [intros Hin; apply (Hd _ Hin); set_solver|].
    apply lseg_insert; [intros Hin; apply (Hd _ Hin); set_solver|done].
  - apply lookup_insert_eq.
  - rewrite lookup_insert_ne by done. apply lookup_insert_eq.
  - apply lseg_insert; [done|]. by apply lseg_insert.
Qed.

(** Merging [x] with the block after it. *)
Lemma lseg_merge m l1 x xs y ys l2 e :
  NoDup ((l1 ++ (x, xs) :: (y, ys) :: l2).*1) -> lseg m (l1 ++ (x, xs) :: (y, ys) :: l2) e ->
  lseg (<[x := Header (first l2 e) (xs + (ys + header_size))]> m) (l1 ++ (x, xs + (ys + header_size)) :: l2) e.
Proof.
  rewrite fmap_app. simpl. intros (_ & Hd & [Hx _]%NoDup_cons)%NoDup_app.
  rewrite !lseg_app. simpl. intros [H1 (_ & _ & H2)]. apply not_elem_of_cons in Hx as [Hxy Hx].
  split; [|split].
  - apply lseg_insert; [intros Hin; apply (Hd _ Hin); left|done].
  - apply lookup_insert_eq.
  - by apply lseg_insert.
Qed.

Lemma NoDup_merge (l1 : list block) x xs y ys l2 n :
  NoDup ((l1 ++ (x, xs) :: (y, ys) :: l2).*1) -> NoDup ((l1 ++ (x, n) :: l2).*1).
Proof.
  intros Hn. eapply sublist_NoDup; [exact Hn|]. rewrite !fmap_app. simpl.
  apply sublist_app; [done|]. constructor. by constructor.
Qed.

(** The code that merges the block at [x] with its successor when they touch. *)
Lemma merge_step x y xs ys l1 l2 e s (Q : unit -> seqfit -> Prop) :
  NoDup ((l1 ++ (x, xs) :: (y, ys) :: l2).*1) -> lseg (sf_hdr s) (l1 ++ (x, xs) :: (y, ys) :: l2) e ->
  in_u32 (xs + (ys + header_size)) ->
  Q tt (upd_hdr (insert x (Header (first l2 e) (xs + (ys + header_size)))) s) ->
  wp (hdr_upd x (set_h_size (u32 (xs + (ys + header_size))));;; hdr_upd x (set_h_next (first l2 e))) Q s.
Proof.
  intros Hn Hl Hr HQ. apply lseg_app in Hl as (_ & Hx & _).
  wp_step. eapply wp_hdr_upd; [exact Hx|]. eapply wp_hdr_upd; [apply lookup_insert_eq|].
  rewrite u32_id by done. unfold upd_hdr in *. simpl. rewrite insert_insert_eq. exact HQ.
Qed.

(** [attach] is [join] except that nothing is merged into [heap.free]. *)
Definition attach (q : block) (l : list block) : list block :=
  if q.1 =? heap_head then q :: l else join q l.

(** The block at [a] after it has been merged with the block that follows. *)
Lemma merge_next_step {A} (k : M seqfit A) a sz l1 l2 s Q :
  NoDup ((l1 ++ (a, sz) :: l2).*1) -> lseg (sf_hdr s) (l1 ++ (a, sz) :: l2) NULL ->
  Forall (inside heap_start heap_end) ((a, sz) :: l2) ->
  (forall xs l2' m, join (a, sz) l2 = (a, xs) :: l2' -> NoDup ((l1 ++ (a, xs) :: l2').*1) ->
     lseg m (l1 ++ (a, xs) :: l2') NULL -> (forall x, x <> a -> m !! x = sf_hdr s !! x) ->
     inside heap_start heap_end (a, xs) -> wp k Q (upd_hdr (fun _ => m) s)) ->
  wp (lim <- LIMIT a;; h <- hdr_get a;;
      when (lim =? h_next h)
        (n <- hdr_get (h_next h);;
         hdr_upd a (set_h_size (u32 (h_size h + (h_size n + header_size))));;;
         hdr_upd a (set_h_next (h_next n)));;; k) Q s.
Proof.
  intros Hn Hl Hi HQ. pose proof Hl as (_ & Ha & Hl2)%lseg_app. destruct HL as [[? _] [[_ ?] _] _ _].
  pose proof (inside_join _ _ (a, sz) l2 (Forall_inv Hi) (Forall_inv_tail Hi)) as Hij.
  pose proof (Forall_inv Hi) as (A1 & A2 & A3 & _). unfold end_of, header_size in A2. simpl in A1, A2, A3.
  unfold LIMIT. wp_step. wp_step. eapply wp_hdr_get; [exact Ha|]. wp_step.
  wp_step. eapply wp_hdr_get; [exact Ha|]. cbn [h_next h_size].
  rewrite u32_id by (unfold in_u32, header_size; lia).
  destruct l2 as [|[c cs] l2]; cbn [first].
  - rewrite (proj2 (Z.eqb_neq _ _)) by (unfold NULL, header_size; lia). wp_step. wp_step. wp_step.
    specialize (HQ sz [] (sf_hdr s) eq_refl Hn Hl ltac:(done) (Forall_inv Hij)). by destruct s.
  - simpl in Hij, HQ. unfold end_of in Hij, HQ. simpl in Hij, HQ.
    destruct (Z.eqb_spec (a + header_size + sz) c) as [Ec|Ec]; wp_step; wp_step.
    + destruct Hl2 as [Hc _]. wp_step. eapply wp_hdr_get; [exact Hc|]. cbn [h_next h_size].
      pose proof (Forall_inv Hij) as (C1 & C2 & C3 & _). unfold end_of, header_size in C2. simpl in C2, C3.
      eapply (merge_step a c sz cs l1 l2 NULL s); [exact Hn|exact Hl|unfold in_u32, header_size in *; lia|].
      eapply (HQ (sz + (cs + header_size)) l2 _ eq_refl); [by eapply NoDup_merge|by eapply lseg_merge| |exact (Forall_inv Hij)].
      intros x Hx. by rewrite lookup_insert_ne.
    + wp_step. specialize (HQ sz ((c, cs) :: l2) (sf_hdr s) eq_refl Hn Hl ltac:(done) (Forall_inv Hij)). by destruct s.
Qed.

Lemma join_head b l : exists n l', join b l = (b.1, n) :: l'.
Proof. destruct b as [b bs], l as [|c l]; simpl; [eauto|]. destruct (end_of (b, bs) =? c.1); eauto. Qed.

Lemma walk_tail q l1 l2 fl :
  (heap_head, 0) :: fl = l1 ++ q :: l2 ->
  (forall b, b ∈ l2 -> b ∈ fl) /\ (q = (heap_head, 0) \/ q ∈ fl) /\
  forall l, exists fl', (heap_head, 0) :: fl' = l1 ++ attach q l.
Proof.
  intros Hfl. split; [|split]; destruct l1 as [|x l1]; injection Hfl as <- ->;
    [done|set_solver|by left|set_solver| |]; intros l.
  - unfold attach. simpl. rewrite Z.eqb_refl. eauto.
  - simpl. eauto.
Qed.

Lemma free_NoDup q qs a sz l1 l2 fl us :
  (heap_head, 0) :: fl = l1 ++ (q, qs) :: l2 -> geometry heap_start heap_end fl us -> (a, sz) ∈ us ->
  NoDup ((l1 ++ (q, qs) :: (a, sz) :: l2).*1).
Proof.
  intros Hfl Hg Ha. pose proof (separated_NoDup _ _ Hg) as Hn. rewrite Hfl in Hn.
  assert (l1 ++ (q, qs) :: (a, sz) :: l2 ≡ₚ (a, sz) :: l1 ++ (q, qs) :: l2) as ->.
  { rewrite (Permutation_middle l1). f_equiv. constructor. }
  simpl. apply NoDup_cons. split; [|done].
  intros (b & Hb & Hin)%list_elem_of_fmap. rewrite <- Hfl in Hin.
  apply (free_not_used _ _ b Hg Hin). rewrite <- Hb. apply list_elem_of_fmap. by exists (a, sz).
Qed.

(** The headers of the other used blocks are not touched. *)
Lemma used_frame (m m' : gmap Z header) q a sz u1 u2 :
  Forall (fun b : block => m !! b.1 = Some (Header MAGIC b.2)) (u1 ++ (a, sz) :: u2) ->
  ForallOrdPairs apart (u1 ++ (a, sz) :: u2) -> Forall (inside heap_start heap_end) (u1 ++ (a, sz) :: u2) ->
  q ∉ (u1 ++ (a, sz) :: u2).*1 -> (forall x, x <> a -> x <> q -> m' !! x = m !! x) ->
  Forall (fun b : block => m' !! b.1 = Some (Header MAGIC b.2)) (u1 ++ u2).
Proof.
  intros Hm Hp Hi Hq Hf. rewrite <- Permutation_middle in Hm, Hi, Hq.
  apply (apart_pairs_perm _ ((a, sz) :: u1 ++ u2)) in Hp; [|by rewrite Permutation_middle].
  inversion_clear Hp as [|? ? Ha _]. rewrite Forall_cons in Hm, Hi. destruct Hm as [_ Hm], Hi as [Hai Hi].
  rewrite Forall_forall in Hm, Hi, Ha |- *. intros b Hb. rewrite Hf; [auto| |].
  - destruct (Hi b Hb) as (_ & _ & B & _), Hai as (_ & _ & A & _).
    destruct (Ha b Hb); unfold end_of, header_size in *; simpl in *; lia.
  - intros E. apply Hq. apply list_elem_of_fmap. exists b. split; [done|by right].
Qed.

Lemma app_cons_assoc {A} (l1 : list A) q l : l1 ++ q :: l = (l1 ++ [q]) ++ l.
Proof. by rewrite <- app_assoc. Qed.

(** The block before is extended when the freed one touches it. *)
Lemma merge_prev_step q qs a xs sz l1 l2 fl' s :
  NoDup ((l1 ++ (q, qs) :: (a, xs) :: l2).*1) -> lseg (sf_hdr s) (l1 ++ (q, qs) :: (a, xs) :: l2) NULL ->
  (q, qs) = (heap_head, 0) \/ inside heap_start heap_end (q, qs) -> inside heap_start heap_end (a, xs) ->
  (heap_head, 0) :: fl' = l1 ++ attach (q, qs) ((a, xs) :: l2) ->
  wp (limq <- LIMIT q;;
      when (limq =? a)
        (h <- hdr_get a;; q' <- hdr_get q;;
         hdr_upd q (set_h_size (u32 (h_size q' + (h_size h + header_size))));;;
         hdr_upd q (set_h_next (h_next h)));;;
      modify (upd_used (fun u => u32 (u - sz))))
    (fun _ s' => lseg (sf_hdr s') ((heap_head, 0) :: fl') NULL /\
       (forall x, x <> q -> sf_hdr s' !! x = sf_hdr s !! x) /\ sf_used s' = u32 (sf_used s - sz)) s.
Proof.
  intros Hn Hl Hq Ha Hfl'. pose proof Hl as (_ & Hqh & Hah & _)%lseg_app.
  pose proof HL as [[S1 _] [[S2 S3] _] F1 F2].
  destruct Ha as (A1 & A2 & A3 & _). unfold end_of, header_size in *. simpl in A1, A2, A3.
  unfold LIMIT. wp_step. wp_step. eapply wp_hdr_get; [exact Hqh|]. wp_step. unfold header_size. cbn [h_size].
  rewrite Hfl'. unfold attach. cbn [fst].
  destruct Hq as [[= -> ->]|Hqi].
  - rewrite Z.eqb_refl, u32_id by (unfold in_u32; lia).
    rewrite (proj2 (Z.eqb_neq _ _)) by lia. wp_step. wp_step. wp_step. wp_step. done.
  - pose proof (inside_start _ Hqi) as [_ Hqf]. simpl in Hqf. destruct Hqi as (Q1 & Q2 & Q3 & _).
    unfold end_of, header_size in *. simpl in Q1, Q2, Q3.
    rewrite (proj2 (Z.eqb_neq q heap_head)) by done. rewrite u32_id by (unfold in_u32; lia).
    simpl. unfold end_of, header_size. simpl.
    destruct (Z.eqb_spec (q + 8 + qs) a) as [Ea|Ea]; wp_step; wp_step; [|wp_step; wp_step; done].
    wp_step. eapply wp_hdr_get; [exact Hah|]. wp_step. eapply wp_hdr_get; [exact Hqh|]. cbn [h_size h_next].
    eapply (merge_step q a qs xs l1 l2 NULL s); [exact Hn|exact Hl|unfold in_u32, header_size; lia|].
    wp_step. split_and!; [exact (lseg_merge _ _ _ _ _ _ _ _ Hn Hl)| |done].
    intros x Hx. simpl. by rewrite lookup_insert_ne.
Qed.

(** The freed block [a] goes between [q] and [l2]. *)
Lemma free_insert_spec q qs a sz l1 l2 fl u1 u2 s :
  (heap_head, 0) :: fl = l1 ++ (q, qs) :: l2 -> heap_ok s fl (u1 ++ (a, sz) :: u2) ->
  wp (free_insert q a sz) (fun _ s' => exists fl', (heap_head, 0) :: fl' = l1 ++ attach (q, qs) (join (a, sz) l2) /\
    lseg (sf_hdr s') ((heap_head, 0) :: fl') NULL /\
    Forall (fun b => sf_hdr s' !! b.1 = Some (Header MAGIC b.2)) (u1 ++ u2) /\
    sf_used s' = total_sizes (u1 ++ u2)) s.
Proof.
  intros Hfl [Hl Hm Hu Hg]. set (us := u1 ++ (a, sz) :: u2) in *.
  assert ((a, sz) ∈ us) as Hau by set_solver.
  pose proof (free_NoDup q qs a sz l1 l2 fl us Hfl Hg Hau) as Hn.
  destruct (walk_tail (q, qs) l1 l2 fl Hfl) as (Hsub & Hq & Hex).
  pose proof (g_inside _ _ _ _ Hg) as [Hif Hiu]%Forall_app.
  assert (Forall (inside heap_start heap_end) ((a, sz) :: l2)) as Hi2.
  { rewrite Forall_forall in Hif, Hiu. constructor; [auto|]. apply Forall_forall. auto. }
  assert (q ∉ us.*1) as Hqu.
  { apply (free_not_used fl us (q, qs) Hg). destruct Hq as [->|Hq]; [left|by right]. }
  assert (forall m' : gmap Z header, (forall x, x <> a -> x <> q -> m' !! x = sf_hdr s !! x) ->
    Forall (fun b : block => m' !! b.1 = Some (Header MAGIC b.2)) (u1 ++ u2)) as Hfr.
  { intros m' Hm'. eapply used_frame; [exact Hm|exact (g_used _ _ _ _ Hg)|exact Hiu|exact Hqu|exact Hm']. }
  assert (u32 (sf_used s - sz) = total_sizes (u1 ++ u2)) as Hus.
  { pose proof (used_bound _ _ (geometry_release _ _ _ _ _ _ Hg)) as Hb.
    rewrite Hu. unfold us. rewrite <- Permutation_middle. simpl.
    rewrite u32_id by (unfold in_u32; lia). lia. }
  rewrite Hfl in Hl. pose proof (lseg_link _ _ _ _ _ _ _ _ Hn Hl) as Hlk.
  pose proof Hl as (_ & Hqh & _)%lseg_app.
  assert (sf_hdr s !! a = Some (Header MAGIC sz)) as Hah.
  { rewrite Forall_forall in Hm. exact (Hm _ Hau). }
  assert (q <> a) as Hqa by (intros ->; apply Hqu, list_elem_of_fmap; by exists (a, sz)).
  destruct (Hex (join (a, sz) l2)) as [fl' Hfl'].
  unfold free_insert. wp_step. eapply wp_hdr_get; [exact Hqh|]. cbn [h_next].
  wp_step. eapply wp_hdr_upd; [exact Hah|].
  wp_step. eapply wp_hdr_upd; [simpl; rewrite lookup_insert_ne by done; exact Hqh|].
  rewrite (app_cons_assoc l1) in Hlk, Hn.
  eapply (merge_next_step _ a sz (l1 ++ [(q, qs)]) l2); [exact Hn|exact Hlk|exact Hi2|].
  intros xs l2' m Hj Hn' Hl' Hm' Hxs. rewrite Hj in Hfl'. rewrite <- app_cons_assoc in Hl', Hn'.
  assert (forall x, x <> a -> x <> q -> m !! x = sf_hdr s !! x) as Hmx.
  { intros x H1 H2. rewrite Hm' by done. simpl. by rewrite !lookup_insert_ne. }
  pose proof Hl' as (_ & Hq' & Ha' & _)%lseg_app.
  eapply wp_mono; [apply (merge_prev_step q qs a xs sz l1 l2' fl'); try done|].
  - destruct Hq as [[= -> ->]|Hq]; [by left|right]. rewrite Forall_forall in Hif. auto.
  - intros [] s' (Hls & Hfs & Hus'). exists fl'. rewrite Hj. split_and!; [done|done| |].
    + apply Hfr. intros x H1 H2. rewrite Hfs by done. by apply Hmx.
    + rewrite Hus'. exact Hus.
Qed.

Lemma free_loop_spec a sz u1 u2 : forall l2 fuel l1 q fl s,
  (heap_head, 0) :: fl = l1 ++ q :: l2 -> heap_ok s fl (u1 ++ (a, sz) :: u2) ->
  (length l2 < fuel)%nat -> q.1 = heap_head \/ q.1 < a ->
  wp (free_loop heap_head fuel a sz q.1) (fun _ s' => exists fl',
    (heap_head, 0) :: fl' = l1 ++ attach q (release (a, sz) l2) /\
    lseg (sf_hdr s') ((heap_head, 0) :: fl') NULL /\
    Forall (fun b => sf_hdr s' !! b.1 = Some (Header MAGIC b.2)) (u1 ++ u2) /\
    sf_used s' = total_sizes (u1 ++ u2)) s.
Proof.
  induction l2 as [|[c cs] l2 IH]; intros fuel l1 [q qs] fl s Hfl Hok Hf Hqa;
    (destruct fuel as [|fuel]; [simpl in Hf; lia|]); pose proof (ho_list _ _ _ Hok) as Hl;
    rewrite Hfl in Hl; apply lseg_app in Hl as (_ & Hq & _); cbn [free_loop fst]; wp_step;
    (eapply wp_hdr_get; [exact Hq|]); cbn [h_next first]; simpl in Hqa;
    (assert ((q =? heap_head) || (q <? a) = true) as -> by
       (apply orb_true_iff; destruct Hqa; [left; by apply Z.eqb_eq|right; by apply Z.ltb_lt]));
    rewrite ?Z.eqb_refl; cbn [andb orb].
  - exact (free_insert_spec q qs a sz l1 [] fl u1 u2 s Hfl Hok).
  - pose proof (ho_geo _ _ _ Hok) as Hg. destruct (walk_tail (q, qs) l1 _ fl Hfl) as (Hsub & Hqin & _).
    assert ((c, cs) ∈ fl) as Hc by (apply Hsub; left).
    pose proof (inside_in _ _ (c, cs) Hg ltac:(set_solver)) as Hci.
    pose proof (inside_start _ Hci) as [Hc0 Hcf]. simpl in Hc0, Hcf.
    rewrite (proj2 (Z.eqb_neq c NULL)) by (unfold NULL; lia). cbn [orb release fst].
    destruct (Z.ltb_spec a c) as [Hac|Hca].
    + exact (free_insert_spec q qs a sz l1 ((c, cs) :: l2) fl u1 u2 s Hfl Hok).
    + assert (c <> a) as Hne.
      { intros ->. apply (free_not_used _ _ (a, cs) Hg); [by right|].
        apply list_elem_of_fmap. exists (a, sz). split; [done|]. set_solver. }
      simpl in Hf. eapply wp_mono; [apply (IH fuel (l1 ++ [(q, qs)]) (c, cs) fl s)|]; simpl; try done; try lia.
      { by rewrite <- app_cons_assoc. }
      intros [] s' (fl' & Hfl' & Hpost). exists fl'. split; [|done]. rewrite Hfl', <- app_cons_assoc. f_equal.
      unfold attach at 1. simpl. rewrite (proj2 (Z.eqb_neq c heap_head)) by done.
      unfold attach. cbn [fst]. destruct (Z.eqb_spec q heap_head) as [|Hqf]; [done|].
      destruct (join_head (c, cs) (release (a, sz) l2)) as (n & l' & ->). simpl.
      rewrite (proj2 (Z.eqb_neq _ _)); [done|].
      destruct Hqin as [[= -> ->]|Hqin]; [done|].
      pose proof (g_sep _ _ _ _ Hg) as Hs. destruct l1 as [|x l1]; [by injection Hfl as Hq0 _|].
      injection Hfl as _ ->. apply separated_app in Hs as (_ & [_ Hs]%separated_cons & _).
      specialize (Hs (c, cs) ltac:(left)). simpl in Hs. lia.
Qed.

Lemma seqfit_free_spec a sz u1 u2 fl s :
  heap_ok s fl (u1 ++ (a, sz) :: u2) ->
  wp (seqfit_free heap_head (a + header_size)) (fun _ s' => heap_ok s' (release (a, sz) fl) (u1 ++ u2)) s.
Proof.
  intros Hok. pose proof (ho_geo _ _ _ Hok) as Hg.
  pose proof (inside_in _ _ (a, sz) Hg ltac:(set_solver)) as Hi.
  pose proof (inside_start _ Hi) as [Ha _]. simpl in Ha.
  unfold seqfit_free. rewrite (proj2 (Z.eqb_neq _ _)) by (unfold NULL, header_size; lia).
  replace (a + header_size - header_size) with a by lia.
  assert (sf_hdr s !! a = Some (Header MAGIC sz)) as Hah.
  { pose proof (ho_magic _ _ _ Hok) as Hm. rewrite Forall_forall in Hm. apply (Hm (a, sz)). set_solver. }
  wp_step. eapply wp_hdr_get; [exact Hah|]. unfold list_fuel. wp_step. wp_step. cbn [h_size].
  eapply wp_mono; [apply (free_loop_spec a sz u1 u2 fl _ [] (heap_head, 0) fl s); try done|].
  - pose proof (list_fuel_enough s fl _ Hok). lia.
  - by left.
  - intros [] s' (fl' & Hfl' & Hl & Hm & Hu). unfold attach in Hfl'. simpl in Hfl'.
    rewrite Z.eqb_refl in Hfl'. injection Hfl' as ->. split; [done|done|done|by apply geometry_release].
Qed.

(** ** Theorems *)

(** C30: [seqfit_alloc] implements first fit: when a free block is large enough the
    first such block is used, split when the rest can hold a header; otherwise NULL is
    returned and nothing changes.  The block returned lies in the heap, is aligned,
    has room for the request and is disjoint from every block in use, and the heap
    stays tiled. *)
Theorem seqfit_alloc_first_fit n fl us s :
  size_ok n -> heap_ok s fl us ->
  wp (seqfit_alloc heap_head n) (fun r s' =>
    match first_fit (ALIGN_SIZE n) fl with
    | None => r = NULL /\ s' = s
    | Some (fl', b) => r = b.1 + header_size /\ (8 | r) /\ n <= b.2 /\
        inside heap_start heap_end b /\ (forall c, c ∈ us -> apart b c) /\ heap_ok s' fl' (b :: us)
    end) s.
Proof.
  intros Hn Hok. eapply wp_mono; [by apply seqfit_alloc_spec|]. intros r s'. cbv beta.
  destruct (first_fit (ALIGN_SIZE n) fl) as [[fl' b]|] eqn:E; [|done]. intros [-> Hok'].
  pose proof (ho_geo _ _ _ Hok') as Hg. pose proof (inside_in _ _ b Hg ltac:(set_solver)) as Hb.
  pose proof (g_used _ _ _ _ Hg) as Hu. inversion_clear Hu as [|? ? Ha _]. rewrite Forall_forall in Ha.
  destruct (ALIGN_SIZE_spec n) as [Hs _]; [unfold size_ok, header_size in Hn; lia|].
  split_and!; try done.
  - destruct Hb as (_ & _ & _ & H8 & _). apply Z.divide_add_r; [done|by exists 1].
  - apply first_fit_block in E as [E _]. lia.
Qed.

(** C31: [seqfit_free] gives a block back: it is found for every block in use wherever
    it lies, goes to its place in the free list and is merged with the free blocks it
    touches, so that no two free blocks are adjacent; the other blocks in use are
    not affected and the counter of used bytes drops by its size. *)
Theorem seqfit_free_coalesces a sz u1 u2 fl s :
  heap_ok s fl (u1 ++ (a, sz) :: u2) ->
  wp (seqfit_free heap_head (a + header_size)) (fun _ s' =>
    heap_ok s' (release (a, sz) fl) (u1 ++ u2) /\ separated (release (a, sz) fl) /\
    sf_used s' = sf_used s - sz) s.
Proof.
  intros Hok. eapply wp_mono; [by apply seqfit_free_spec|]. intros [] s' Hok'.
  split_and!; [done|exact (g_sep _ _ _ _ (ho_geo _ _ _ Hok'))|].
  rewrite (ho_used _ _ _ Hok'), (ho_used _ _ _ Hok), <- Permutation_middle. simpl. lia.
Qed.

(** Freeing what was allocated last restores the free list and the blocks in use
    exactly: allocation does not leak or fragment memory by itself. *)
Theorem seqfit_alloc_free_roundtrip n fl us s :
  size_ok n -> heap_ok s fl us ->
  wp (p <- seqfit_alloc heap_head n;; seqfit_free heap_head p) (fun _ s' => heap_ok s' fl us) s.
Proof.
  intros Hn Hok. wp_step. eapply wp_mono; [by apply seqfit_alloc_spec|]. intros r s1. cbv beta.
  destruct (first_fit (ALIGN_SIZE n) fl) as [[fl' [a sz]]|] eqn:E.
  - intros [-> Hok1]. simpl. eapply wp_mono; [apply (seqfit_free_spec a sz [] us fl' s1 Hok1)|].
    intros [] s2 Hok2. erewrite (release_first_fit _ fl) in Hok2; [exact Hok2| | | |exact E].
    + pose proof (ALIGN_SIZE_spec n) as Hs. unfold size_ok, header_size in Hn. lia.
    + exact (g_sep _ _ _ _ (ho_geo _ _ _ Hok)).
    + intros c Hc. pose proof (inside_in _ _ c (ho_geo _ _ _ Hok) ltac:(set_solver)) as (_ & _ & ? & _). done.
  - intros [-> ->]. unfold seqfit_free. rewrite Z.eqb_refl. by wp_step.
Qed.

(** The walk of the self check has passed [prev]. *)
Lemma check_loop_spec us s fl : heap_ok s fl us -> forall l2 fuel l1 prev,
  fl = l1 ++ l2 -> (length l2 < fuel)%nat ->
  prev = NULL /\ l1 = [] \/ (exists ps l0, l1 = l0 ++ [(prev, ps)] /\ prev <> NULL) ->
  wp (check_loop heap_start heap_end fuel prev (first l2 NULL)) (fun r s' => r = 0 /\ s' = s) s.
Proof.
  intros Hok. pose proof (ho_geo _ _ _ Hok) as Hg. pose proof (ho_list _ _ _ Hok) as [_ Hl].
  induction l2 as [|[p sz] l2 IH]; intros fuel l1 prev Hfl Hf Hprev;
    (destruct fuel as [|fuel]; [simpl in Hf; lia|]); cbn [first check_loop].
  { rewrite Z.eqb_refl. by wp_step. }
  pose proof (inside_in _ _ (p, sz) Hg ltac:(set_solver)) as Hi.
  pose proof (inside_start _ Hi) as [Hp0 _]. destruct Hi as (I1 & I2 & I3 & I4 & I5).
  unfold end_of, header_size in I2. simpl in *. destruct HL as [[L1 _] [[_ L2] _] _ _].
  rewrite (proj2 (Z.eqb_neq p NULL)) by (unfold NULL; lia).
  rewrite Hfl in Hl. apply lseg_app in Hl as [Hl1 [Hph Hl2]]. simpl in Hl1.
  wp_step. eapply wp_hdr_get; [exact Hph|]. unfold LIMIT at 1. wp_step. wp_step.
  eapply wp_hdr_get; [exact Hph|]. wp_step. cbn [h_size h_next].
  rewrite u32_id by (unfold in_u32, header_size; lia). wp_step.
  apply (wp_mono _ (fun r s' => s' = s /\ (prev = NULL \/ prev < p /\ r < p))).
  { destruct Hprev as [[-> ->]|(ps & l0 & -> & Hne)]; [rewrite Z.eqb_refl; wp_step; auto|].
    rewrite (proj2 (Z.eqb_neq prev NULL)) by done.
    apply lseg_app in Hl1 as [_ [Hpr _]]. unfold LIMIT. wp_step. eapply wp_hdr_get; [exact Hpr|]. wp_step.
    split; [done|]. right. pose proof (g_sep _ _ _ _ Hg) as Hs. rewrite Hfl in Hs.
    apply separated_app in Hs as (_ & _ & Hs). specialize (Hs (prev, ps) (p, sz) ltac:(set_solver) ltac:(left)).
    pose proof (inside_in _ _ (prev, ps) Hg ltac:(set_solver)) as (P1 & P2 & P3 & _).
    unfold end_of, header_size in *. simpl in *. rewrite u32_id by (unfold in_u32; lia). lia. }
  intros limp s' [-> Hlim]. cbv zeta.
  assert (Z.land sz ALIGN_MASK = 0) as Hland.
  { change ALIGN_MASK with (Z.ones 3). rewrite Z.land_ones by lia. by apply Z.mod_divide. }
  rewrite Hland. rewrite (proj2 (Z.ltb_ge p heap_start)), (proj2 (Z.ltb_ge heap_end _)),
    (proj2 (Z.ltb_ge (p + header_size + sz) p)) by (unfold header_size; lia). simpl.
  assert (forall b : bool, negb (prev =? NULL) && b = true -> prev < p /\ limp < p) as Hpl.
  { intros b [Hn _]%andb_prop. destruct Hlim as [->|]; [by rewrite Z.eqb_refl in Hn|done]. }
  destruct (negb (prev =? NULL) && (p <=? prev)) eqn:E1;
    [destruct (Hpl _ E1); apply andb_prop in E1 as [_ E1]; apply Z.leb_le in E1; lia|].
  destruct (negb (prev =? NULL) && (p <? limp)) eqn:E2;
    [destruct (Hpl _ E2); apply andb_prop in E2 as [_ E2]; apply Z.ltb_lt in E2; lia|].
  destruct (negb (prev =? NULL) && (limp =? p)) eqn:E3;
    [destruct (Hpl _ E3); apply andb_prop in E3 as [_ E3]; apply Z.eqb_eq in E3; lia|]. simpl.
  apply (IH fuel (l1 ++ [(p, sz)]) p).
  - by rewrite <- app_assoc.
  - simpl in Hf. lia.
  - right. exists sz, l1. split; [done|unfold NULL; lia].
Qed.

(** The heap's own self check accepts every heap that allocation and freeing can
    produce: it terminates and reports no error. *)
Theorem heap_check_accepts fl us s :
  heap_ok s fl us -> wp (_isixp_heap_check heap_head heap_start heap_end) (fun r s' => r = 0 /\ s' = s) s.
Proof.
  intros Hok. unfold _isixp_heap_check, list_fuel. wp_step. wp_step.
  pose proof (ho_list _ _ _ Hok) as [Hq _]. wp_step. eapply wp_hdr_get; [exact Hq|]. cbn [h_next].
  apply (check_loop_spec us s fl Hok fl _ []); [done| |by left].
  pose proof (list_fuel_enough s fl us Hok). lia.
Qed.

(** Initialisation makes the whole heap one free block. *)
Theorem seqfit_init_ok s :
  wp (seqfit_alloc_init heap_head heap_start heap_end)
    (fun _ s' => heap_ok s' [(heap_start, heap_end - heap_start - header_size)] []) s.
Proof.
  destruct HL as [[L1 L2] [[L3 L4] L5] L6 L7]. unfold seqfit_alloc_init, header_size in *.
  change ISIX_BYTE_ALIGNMENT_SIZE with 8.
  rewrite (proj2 (Z.eqb_eq (heap_start mod 8) 0)) by (by apply Z.mod_divide). simpl.
  unfold hdr_set. repeat wp_step. rewrite u32_id by (unfold in_u32; lia). split; simpl.
  - split; [apply lookup_insert_eq|split; [|done]].
    rewrite lookup_insert_ne by lia. apply lookup_insert_eq.
  - constructor.
  - done.
  - split; simpl.
    + constructor; [|constructor]. unfold inside, end_of, header_size. simpl. split_and!; try lia; [done|].
      repeat apply Z.divide_sub_r; done.
    + intros b c _ Hc. by apply not_elem_of_nil in Hc.
    + constructor.
    + repeat constructor.
    + unfold header_size. lia.
Qed.

End Heap.

(** ** A concrete heap: 1 KiB at 0x20001000 *)

Definition hp_free : Z := 0x20000010.
Definition hp_start : Z := 0x20001000.
Definition hp_end : Z := 0x20001400.

Lemma hp_linked : linked hp_free hp_start hp_end.
Proof.
  split; unfold hp_free, hp_start, hp_end, header_size; split_and?; try lia;
    apply Z.mod_divide; (reflexivity || lia).
Qed.

(** The heap with one block of 32 bytes in use. *)
Definition hp_one : seqfit :=
  SeqFit {[hp_free := Header 0x20001028 0; 0x20001000 := Header MAGIC 32; 0x20001028 := Header 0 976]} 32 ∅.

Lemma hp_one_ok : heap_ok hp_free hp_start hp_end hp_one [(0x20001028, 976)] [(0x20001000, 32)].
Proof.
  split.
  - repeat split.
  - repeat constructor.
  - reflexivity.
  - split.
    + repeat constructor; try (apply Z.leb_le; reflexivity); apply Z.mod_divide; (reflexivity || discriminate).
    + intros b c ->%list_elem_of_singleton ->%list_elem_of_singleton. right. apply Z.leb_le. reflexivity.
    + repeat constructor.
    + repeat constructor.
    + reflexivity.
Qed.

Lemma size_ok_40 : size_ok 40.
Proof. split; [apply Z.leb_le|apply Z.ltb_lt]; reflexivity. Qed.

Lemma seqfit_alloc_first_fit_witness :
  wp (seqfit_alloc hp_free 40) (fun r s' => r = 0x20001030) hp_one.
Proof.
  eapply wp_mono; [apply (seqfit_alloc_first_fit _ _ _ hp_linked 40 _ _ _ size_ok_40 hp_one_ok)|].
  intros r s' (Hr & _). exact Hr.
Defined.

Lemma seqfit_free_coalesces_witness :
  wp (seqfit_free hp_free 0x20001008) (fun _ s' =>
    heap_ok hp_free hp_start hp_end s' [(0x20001000, 1016)] [] /\ sf_used s' = 0) hp_one.
Proof.
  eapply wp_mono; [apply (seqfit_free_coalesces _ _ _ hp_linked 0x20001000 32 [] [] _ _ hp_one_ok)|].
  intros [] s' (Hok & _ & Hu). split; [exact Hok|exact Hu].
Defined.

Lemma seqfit_alloc_free_roundtrip_witness :
  wp (p <- seqfit_alloc hp_free 40;; seqfit_free hp_free p) (fun _ s' =>
    heap_ok hp_free hp_start hp_end s' [(0x20001028, 976)] [(0x20001000, 32)]) hp_one.
Proof. apply (seqfit_alloc_free_roundtrip _ _ _ hp_linked 40 _ _ _ size_ok_40 hp_one_ok). Defined.

Lemma heap_check_accepts_witness :
  wp (_isixp_heap_check hp_free hp_start hp_end) (fun r _ => r = 0) hp_one.
Proof.
  eapply wp_mono; [apply (heap_check_accepts _ _ _ hp_linked _ _ _ hp_one_ok)|]. intros r s' [Hr _]. exact Hr.
Defined.

Lemma seqfit_init_ok_witness :
  wp (seqfit_alloc_init hp_free hp_start hp_end) (fun _ s' =>
    heap_ok hp_free hp_start hp_end s' [(hp_start, 1016)] []) (SeqFit ∅ 0 ∅).
Proof. apply (seqfit_init_ok _ _ _ hp_linked). Defined.

(** A request close to the largest [size_t] is not refused: rounding the size up
    wraps to 0 and the caller gets a block without any room. *)
Theorem seqfit_alloc_huge_wraps n :
  2 ^ 32 - 8 < n < 2 ^ 32 -> ALIGN_SIZE n = 0 /\
  wp (seqfit_alloc hp_free n) (fun r s' => r = 0x20001030 /\ sf_used s' = sf_used hp_one) hp_one.
Proof.
  intros Hn. assert (ALIGN_SIZE n = 0) as E.
  { unfold ALIGN_SIZE, u32. change ALIGN_MASK with 7 at 1.
    replace ((n + 7) mod 2 ^ 32) with (n + 7 - 2 ^ 32) by (apply (Z.mod_unique _ _ 1); lia).
    rewrite align_mask by (unfold in_u32; lia). rewrite Z.div_small by lia. done. }
  split; [done|]. unfold seqfit_alloc. rewrite E. vm_compute. done.
Qed.

Lemma seqfit_alloc_huge_wraps_witness : ALIGN_SIZE (2 ^ 32 - 1) = 0.
Proof. apply (seqfit_alloc_huge_wraps (2 ^ 32 - 1)). split; apply Z.ltb_lt; reflexivity. Defined.
