(* ===== verification/Tlsf.v ===== *)
(** * Two level segregated fit heap (libisix/kernel/mm/malloc/tlsf.c, tlsf_bits.h, tlsf_isix.c)

    The heap is a row of physical blocks, each with a header of two words: the address
    of the block before it (meaningful when that block is free) and the size, whose two
    low bits say whether the block and the one before it are free.  The free blocks are
    also on doubly linked lists, one list for each pair of a first level class (power of
    two) and a second level class (32 steps inside the power of two); two levels of
    bitmaps say which lists are not empty.

    The model keeps the memory of the pool word by word, so that headers, list links
    and area records overlap exactly as they do in the pool; reading a word that was
    never written, writing outside the memory given to the allocator and indexing a table
    out of its range are faults.  The control structure at the start of the pool is a
    record.  The locks around the operations are those of [isix_alloc] and [isix_free]
    in the scheduler's model. *)

From S2P Require Import Prelude.
From S2P Require Import Kernel.
From Stdlib Require Import ZArith Lia.
From stdpp Require Import base numbers gmap list strings.
Local Open Scope Z_scope.

(** ** Bits (tlsf_bits.h) *)

Definition clz (x : Z) : Z := if x =? 0 then 32 else 31 - Z.log2 x.

Definition __log2 (x : Z) : Z := 32 - clz x - 1.

Definition ls_bit (word : Z) : Z := __log2 (Z.land word (u32 (- word))).

Definition ms_bit (word : Z) : Z := (if word =? 0 then 0 else 32 - clz word) - 1.

(** Bit numbers below 32 stay in the word itself. *)
Definition set_bit (nr word : Z) : Z := Z.lor word (Z.shiftl 1 (Z.land nr 0x1f)).
Definition clear_bit (nr word : Z) : Z :=
  Z.land word (Z.lxor (2 ^ 32 - 1) (Z.shiftl 1 (Z.land nr 0x1f))).

(** [~0U << n] *)
Definition mask_from (n : Z) : Z := u32 (Z.shiftl (2 ^ 32 - 1) n).

(** ** Sizes *)

Definition MAX_FLI : Z := 19.
Definition MAX_LOG2_SLI : Z := 5.
Definition MAX_SLI : Z := 32.
Definition FLI_OFFSET : Z := 6.
Definition SMALL_BLOCK : Z := 128.
Definition REAL_FLI : Z := MAX_FLI - FLI_OFFSET.

(** [sizeof( free_ptr_t )] and [sizeof( bhdr_t )] *)
Definition MIN_BLOCK_SIZE : Z := 8.
Definition sizeof_bhdr : Z := 16.
Definition BHDR_OVERHEAD : Z := sizeof_bhdr - MIN_BLOCK_SIZE.
(** [sizeof( area_info_t )] and [sizeof( tlsf_t )]: six words, the second level
    bitmaps and the matrix of list heads. *)
Definition sizeof_area_info : Z := 8.
Definition sizeof_tlsf : Z := 4 * (6 + REAL_FLI + REAL_FLI * MAX_SLI).
Definition TLSF_SIGNATURE : Z := 0x2A59FA59.

Definition PTR_MASK : Z := 3.
Definition BLOCK_SIZE : Z := 0xFFFFFFFF - PTR_MASK.
Definition MEM_ALIGN : Z := 7.
Definition ROUNDDOWN_SIZE (r : Z) : Z := Z.land r (Z.lxor (2 ^ 32 - 1) MEM_ALIGN).
Definition ROUNDUP_SIZE (r : Z) : Z := ROUNDDOWN_SIZE (u32 (r + MEM_ALIGN)).
Definition GET_NEXT_BLOCK (addr r : Z) : Z := u32 (addr + r).

Definition BLOCK_STATE : Z := 1.
Definition PREV_STATE : Z := 2.
Definition FREE_BLOCK : Z := 1.
Definition USED_BLOCK : Z := 0.
Definition PREV_FREE : Z := 2.
Definition PREV_USED : Z := 0.

Definition size_of (w : Z) : Z := Z.land w BLOCK_SIZE.

(** [~x] on a 32-bit word *)
Definition lnot32 (x : Z) : Z := Z.lxor (2 ^ 32 - 1) x.

(** The size that is searched for: at least the size of two list links. *)
Definition adjust_size (size : Z) : Z := if size <? MIN_BLOCK_SIZE then MIN_BLOCK_SIZE else ROUNDUP_SIZE size.

(** [MAPPING_SEARCH]: the size rounded up to a class boundary, and its class *)
Definition MAPPING_SEARCH (r : Z) : Z * Z * Z :=
  if r <? SMALL_BLOCK then (r, 0, r / (SMALL_BLOCK / MAX_SLI)) else
  let t := Z.shiftl 1 (ms_bit r - MAX_LOG2_SLI) - 1 in
  let r := u32 (r + t) in
  let fl := ms_bit r in
  let sl := Z.shiftr r (fl - MAX_LOG2_SLI) - MAX_SLI in
  (Z.land r (lnot32 t), fl - FLI_OFFSET, sl).

Definition MAPPING_INSERT (r : Z) : Z * Z :=
  if r <? SMALL_BLOCK then (0, r / (SMALL_BLOCK / MAX_SLI)) else
  let fl := ms_bit r in
  (fl - FLI_OFFSET, Z.shiftr r (fl - MAX_LOG2_SLI) - MAX_SLI).

(** ** State *)

(** [tlsf_t]; an element of [sl_bitmap] or [matrix] that is absent is zero. *)
Record tlsf := Tlsf {
  tlsf_signature : Z;
  used_size : Z;
  max_size : Z;
  free_size : Z;
  area_head : Z;
  fl_bitmap : Z;
  sl_bitmap : gmap Z Z;
  matrix : gmap (Z * Z) Z
}.

(** The control structure, the words of the pool, and the static [mp]. *)
Record tstate := TState {
  ts_ctl : tlsf;
  ts_mem : gmap Z Z;
  ts_mp : Z
}.

Definition upd_ctl (f : tlsf -> tlsf) (s : tstate) : tstate := TState (f (ts_ctl s)) (ts_mem s) (ts_mp s).
Definition upd_tmem (f : gmap Z Z -> gmap Z Z) (s : tstate) : tstate := TState (ts_ctl s) (f (ts_mem s)) (ts_mp s).
Definition set_mp (p : Z) (s : tstate) : tstate := TState (ts_ctl s) (ts_mem s) p.

Definition set_sizes (used maxs free : Z) (c : tlsf) : tlsf :=
  Tlsf (tlsf_signature c) used maxs free (area_head c) (fl_bitmap c) (sl_bitmap c) (matrix c).
Definition set_area_head (p : Z) (c : tlsf) : tlsf :=
  Tlsf (tlsf_signature c) (used_size c) (max_size c) (free_size c) p (fl_bitmap c) (sl_bitmap c) (matrix c).
Definition set_signature (x : Z) (c : tlsf) : tlsf :=
  Tlsf x (used_size c) (max_size c) (free_size c) (area_head c) (fl_bitmap c) (sl_bitmap c) (matrix c).
Definition set_fl_bitmap (x : Z) (c : tlsf) : tlsf :=
  Tlsf (tlsf_signature c) (used_size c) (max_size c) (free_size c) (area_head c) x (sl_bitmap c) (matrix c).
Definition set_sl_bitmap (x : gmap Z Z) (c : tlsf) : tlsf :=
  Tlsf (tlsf_signature c) (used_size c) (max_size c) (free_size c) (area_head c) (fl_bitmap c) x (matrix c).
Definition set_matrix (x : gmap (Z * Z) Z) (c : tlsf) : tlsf :=
  Tlsf (tlsf_signature c) (used_size c) (max_size c) (free_size c) (area_head c) (fl_bitmap c) (sl_bitmap c) x.

(** [memset( tlsf, 0, sizeof( tlsf_t ) )] *)
Definition tlsf_zero : tlsf := Tlsf 0 0 0 0 0 0 ∅ ∅.

Definition sl_of (c : tlsf) (fl : Z) : Z := default 0 (sl_bitmap c !! fl).
Definition head_of (c : tlsf) (fl sl : Z) : Z := default NULL (matrix c !! (fl, sl)).

(** Words of [bhdr_t]; [area_info_t] lies over the list links. *)
Definition a_prev_hdr (b : Z) : Z := b.
Definition a_size (b : Z) : Z := b + 4.
Definition a_prev (b : Z) : Z := b + 8.
Definition a_next (b : Z) : Z := b + 12.
Definition a_buffer (b : Z) : Z := b + 8.
Definition a_area_end (ai : Z) : Z := ai.
Definition a_area_next (ai : Z) : Z := ai + 4.

(** [memcpy] of whole words: the sizes of blocks are multiples of eight. *)
Fixpoint copy_words (dst src : Z) (n : nat) (m : gmap Z Z) : gmap Z Z :=
  match n with
  | O => m
  | S n => copy_words (dst + 4) (src + 4) n
             (match m !! src with Some w => <[dst := w]> m | None => delete dst m end)
  end.

(** [memset( p, 0, n )]: whole words, then the low bytes of the last one. *)
Fixpoint zero_words (p : Z) (n : nat) (m : gmap Z Z) : gmap Z Z :=
  match n with
  | O => m
  | S n => zero_words (p + 4) n (<[p := 0]> m)
  end.

Definition zero_bytes (p n : Z) (m : gmap Z Z) : gmap Z Z :=
  let m := zero_words p (Z.to_nat (n / 4)) m in
  let last := p + 4 * (n / 4) in
  if n mod 4 =? 0 then m else
  match m !! last with
  | Some w => <[last := Z.shiftl (Z.shiftr w (8 * (n mod 4))) (8 * (n mod 4))]> m
  | None => m
  end.

Section Tlsf.

(** Which words are memory given to the allocator. *)
Context (in_ram : Z -> bool).

Local Abbreviation TM := (M tstate).

Definition ld (a : Z) : TM Z := m <- gets ts_mem;; of_option (m !! a).
Definition st (a v : Z) : TM unit := if in_ram a then modify (upd_tmem (insert a v)) else fault.

Definition sl_get (fl : Z) : TM Z :=
  if (0 <=? fl) && (fl <? REAL_FLI) then gets (fun s => sl_of (ts_ctl s) fl) else fault.
Definition sl_set (fl v : Z) : TM unit :=
  if (0 <=? fl) && (fl <? REAL_FLI)
  then modify (upd_ctl (fun c => set_sl_bitmap (<[fl := v]> (sl_bitmap c)) c)) else fault.
Definition in_matrix (fl sl : Z) : bool := (0 <=? fl) && (fl <? REAL_FLI) && (0 <=? sl) && (sl <? MAX_SLI).
Definition mat_get (fl sl : Z) : TM Z :=
  if in_matrix fl sl then gets (fun s => head_of (ts_ctl s) fl sl) else fault.
Definition mat_set (fl sl p : Z) : TM unit :=
  if in_matrix fl sl
  then modify (upd_ctl (fun c => set_matrix (<[(fl, sl) := p]> (matrix c)) c)) else fault.
Definition fl_set (v : Z) : TM unit := modify (upd_ctl (set_fl_bitmap v)).

(** [TLSF_ADD_SIZE] and [TLSF_REMOVE_SIZE] *)
Definition TLSF_ADD_SIZE (b : Z) : TM unit :=
  w <- ld (a_size b);;
  modify (upd_ctl (fun c =>
    let used := u32 (used_size c + (size_of w + BHDR_OVERHEAD)) in
    let free := u32 (free_size c - (size_of w + BHDR_OVERHEAD)) in
    set_sizes used (if max_size c <? used then used else max_size c) free c)).

Definition TLSF_REMOVE_SIZE (b : Z) : TM unit :=
  w <- ld (a_size b);;
  modify (upd_ctl (fun c =>
    set_sizes (u32 (used_size c - (size_of w + BHDR_OVERHEAD))) (max_size c)
      (u32 (free_size c + (size_of w + BHDR_OVERHEAD))) c)).

(** [FIND_SUITABLE_BLOCK]: the block and its class; a class is not looked at when the
    block is NULL. *)
Definition FIND_SUITABLE_BLOCK (fl sl : Z) : TM (Z * Z * Z) :=
  bits <- sl_get fl;;
  let tmp := Z.land bits (mask_from sl) in
  if negb (tmp =? 0) then
    let sl := ls_bit tmp in
    b <- mat_get fl sl;;
    ret (b, fl, sl)
  else
    flb <- gets (fun s => fl_bitmap (ts_ctl s));;
    let fl := ls_bit (Z.land flb (mask_from (fl + 1))) in
    if 0 <? fl then
      bits <- sl_get fl;;
      let sl := ls_bit bits in
      b <- mat_get fl sl;;
      ret (b, fl, sl)
    else ret (NULL, fl, sl).

(** The end of both extractions: the list of the class is empty. *)
Definition clear_class (fl sl : Z) : TM unit :=
  bits <- sl_get fl;;
  sl_set fl (clear_bit sl bits);;;
  bits <- sl_get fl;;
  when (bits =? 0)
    (flb <- gets (fun s => fl_bitmap (ts_ctl s));;
     fl_set (clear_bit fl flb)).

Definition EXTRACT_BLOCK_HDR (b fl sl : Z) : TM unit :=
  next <- ld (a_next b);;
  mat_set fl sl next;;;
  (if negb (next =? NULL) then st (a_prev next) NULL else clear_class fl sl);;;
  st (a_prev b) NULL;;;
  st (a_next b) NULL.

Definition EXTRACT_BLOCK (b fl sl : Z) : TM unit :=
  next <- ld (a_next b);;
  prev <- ld (a_prev b);;
  when (negb (next =? NULL)) (st (a_prev next) prev);;;
  when (negb (prev =? NULL)) (st (a_next prev) next);;;
  hd <- mat_get fl sl;;
  when (hd =? b)
    (mat_set fl sl next;;;
     when (next =? NULL) (clear_class fl sl));;;
  st (a_prev b) NULL;;;
  st (a_next b) NULL.

Definition INSERT_BLOCK (b fl sl : Z) : TM unit :=
  st (a_prev b) NULL;;;
  hd <- mat_get fl sl;;
  st (a_next b) hd;;;
  when (negb (hd =? NULL)) (st (a_prev hd) b);;;
  mat_set fl sl b;;;
  bits <- sl_get fl;;
  sl_set fl (set_bit sl bits);;;
  flb <- gets (fun s => fl_bitmap (ts_ctl s));;
  fl_set (set_bit fl flb).

(** Take a free block off the list of its class, put one on it. *)
Definition extract_sized (b : Z) : TM unit :=
  w <- ld (a_size b);;
  let '(fl, sl) := MAPPING_INSERT (size_of w) in
  EXTRACT_BLOCK b fl sl.

Definition process_area (area size : Z) : TM Z :=
  let ib := area in
  st (a_size ib)
     (if sizeof_area_info <? MIN_BLOCK_SIZE then MIN_BLOCK_SIZE
      else Z.lor (Z.lor (ROUNDUP_SIZE sizeof_area_info) USED_BLOCK) PREV_USED);;;
  wi <- ld (a_size ib);;
  let b := GET_NEXT_BLOCK (a_buffer ib) (size_of wi) in
  st (a_size b)
     (Z.lor (Z.lor (ROUNDDOWN_SIZE (u32 (size - 3 * BHDR_OVERHEAD - size_of wi))) USED_BLOCK) PREV_USED);;;
  st (a_next b) 0;;;
  st (a_prev b) 0;;;
  wb <- ld (a_size b);;
  let lb := GET_NEXT_BLOCK (a_buffer b) (size_of wb) in
  st (a_prev_hdr lb) b;;;
  st (a_size lb) (Z.lor (Z.lor 0 USED_BLOCK) PREV_FREE);;;
  let ai := a_buffer ib in
  st (a_area_next ai) 0;;;
  st (a_area_end ai) lb;;;
  ret ib.

(** The remainder of a block of [size] bytes at [b] becomes a free block of
    [tmp_size] bytes. *)
Definition split_rest (b size tmp_size next_b : Z) (mark : bool) : TM unit :=
  let b2 := GET_NEXT_BLOCK (a_buffer b) size in
  st (a_size b2) (Z.lor (Z.lor tmp_size FREE_BLOCK) PREV_USED);;;
  st (a_prev_hdr next_b) b2;;;
  when mark (w <- ld (a_size next_b);; st (a_size next_b) (Z.lor w PREV_FREE));;;
  let '(fl, sl) := MAPPING_INSERT tmp_size in
  INSERT_BLOCK b2 fl sl;;;
  w <- ld (a_size b);;
  st (a_size b) (Z.lor size (Z.land w PREV_STATE)).

(** The block found for [size] bytes: the rest is split off when it can hold a header
    and two links. *)
Definition take_block (b size : Z) : TM unit :=
  w <- ld (a_size b);;
  let next_b := GET_NEXT_BLOCK (a_buffer b) (size_of w) in
  let tmp_size := u32 (size_of w - size) in
  (if sizeof_bhdr <=? tmp_size then split_rest b size (tmp_size - BHDR_OVERHEAD) next_b false
   else
     wn <- ld (a_size next_b);;
     st (a_size next_b) (Z.land wn (lnot32 PREV_FREE));;;
     wb <- ld (a_size b);;
     st (a_size b) (Z.land wb (lnot32 FREE_BLOCK)));;;
  TLSF_ADD_SIZE b.

Definition malloc_ex (size : Z) : TM Z :=
  let size := adjust_size size in
  let '(size, fl, sl) := MAPPING_SEARCH size in
  r <- FIND_SUITABLE_BLOCK fl sl;;
  let '(b, fl, sl) := r in
  if b =? NULL then ret NULL else
  EXTRACT_BLOCK_HDR b fl sl;;;
  take_block b size;;;
  ret (a_buffer b).

(** The blocks after and before [b] are merged into it when they are free; the block
    that results. *)
Definition merge_next (b : Z) : TM unit :=
  wb <- ld (a_size b);;
  let tmp_b := GET_NEXT_BLOCK (a_buffer b) (size_of wb) in
  wt <- ld (a_size tmp_b);;
  when (negb (Z.land wt FREE_BLOCK =? 0))
    (extract_sized tmp_b;;;
     wt <- ld (a_size tmp_b);;
     wb <- ld (a_size b);;
     st (a_size b) (u32 (wb + (size_of wt + BHDR_OVERHEAD)))).

Definition merge_prev (b : Z) : TM Z :=
  wb <- ld (a_size b);;
  if negb (Z.land wb PREV_FREE =? 0) then
    tmp_b <- ld (a_prev_hdr b);;
    extract_sized tmp_b;;;
    wt <- ld (a_size tmp_b);;
    wb <- ld (a_size b);;
    st (a_size tmp_b) (u32 (wt + (size_of wb + BHDR_OVERHEAD)));;;
    ret tmp_b
  else ret b.

(** The merged block goes to its list and the block behind learns that it is free. *)
Definition insert_merged (b : Z) : TM unit :=
  w <- ld (a_size b);;
  let '(fl, sl) := MAPPING_INSERT (size_of w) in
  INSERT_BLOCK b fl sl;;;
  w <- ld (a_size b);;
  let tmp_b := GET_NEXT_BLOCK (a_buffer b) (size_of w) in
  wt <- ld (a_size tmp_b);;
  st (a_size tmp_b) (Z.lor wt PREV_FREE);;;
  st (a_prev_hdr tmp_b) b.

Definition free_ex (ptr : Z) : TM unit :=
  if ptr =? NULL then ret tt else
  let b := ptr - BHDR_OVERHEAD in
  w <- ld (a_size b);;
  st (a_size b) (Z.lor w FREE_BLOCK);;;
  TLSF_REMOVE_SIZE b;;;
  st (a_prev b) NULL;;;
  st (a_next b) NULL;;;
  merge_next b;;;
  b <- merge_prev b;;
  insert_merged b.

(** Shrink in place; a free block behind is joined with the part that is given back. *)
Definition realloc_shrink (b next_b new_size tmp_size : Z) : TM unit :=
  TLSF_REMOVE_SIZE b;;;
  wn <- ld (a_size next_b);;
  r <- (if negb (Z.land wn FREE_BLOCK =? 0) then
          extract_sized next_b;;;
          wn <- ld (a_size next_b);;
          ret (u32 (tmp_size + (size_of wn + BHDR_OVERHEAD)), GET_NEXT_BLOCK (a_buffer next_b) (size_of wn))
        else ret (tmp_size, next_b));;
  let '(tmp_size, next_b) := r in
  let tmp_size := u32 (tmp_size - new_size) in
  when (sizeof_bhdr <=? tmp_size) (split_rest b new_size (tmp_size - BHDR_OVERHEAD) next_b true);;;
  TLSF_ADD_SIZE b.

(** Grow into the free block behind. *)
Definition realloc_grow (b next_b new_size : Z) : TM unit :=
  TLSF_REMOVE_SIZE b;;;
  extract_sized next_b;;;
  wn <- ld (a_size next_b);;
  wb <- ld (a_size b);;
  st (a_size b) (u32 (wb + (size_of wn + BHDR_OVERHEAD)));;;
  wb <- ld (a_size b);;
  let next_b := GET_NEXT_BLOCK (a_buffer b) (size_of wb) in
  st (a_prev_hdr next_b) b;;;
  wn <- ld (a_size next_b);;
  st (a_size next_b) (Z.land wn (lnot32 PREV_FREE));;;
  let tmp_size := u32 (size_of wb - new_size) in
  when (sizeof_bhdr <=? tmp_size) (split_rest b new_size (tmp_size - BHDR_OVERHEAD) next_b true);;;
  TLSF_ADD_SIZE b.

(** The result and [need_move]. *)
Definition realloc_inplace_ex (ptr new_size : Z) : TM (Z * bool) :=
  if ptr =? NULL then
    if negb (new_size =? 0) then p <- malloc_ex new_size;; ret (p, false) else ret (NULL, false)
  else if new_size =? 0 then free_ex ptr;;; ret (NULL, false)
  else
    let b := ptr - BHDR_OVERHEAD in
    wb <- ld (a_size b);;
    let next_b := GET_NEXT_BLOCK (a_buffer b) (size_of wb) in
    let new_size := adjust_size new_size in
    let tmp_size := size_of wb in
    if new_size <=? tmp_size then
      realloc_shrink b next_b new_size tmp_size;;; ret (a_buffer b, false)
    else
      wn <- ld (a_size next_b);;
      if negb (Z.land wn FREE_BLOCK =? 0) && (new_size <=? u32 (tmp_size + size_of wn)) then
        realloc_grow b next_b new_size;;; ret (a_buffer b, false)
      else ret (NULL, true).

Definition realloc_ex (ptr new_size : Z) : TM Z :=
  r <- realloc_inplace_ex ptr new_size;;
  let '(ptr_aux, need_move) := r in
  if negb need_move then ret ptr_aux else
  let new_size := adjust_size new_size in
  ptr_aux <- malloc_ex new_size;;
  if ptr_aux =? NULL then ret NULL else
  w <- ld (a_size (ptr - BHDR_OVERHEAD));;
  let cpsize := if new_size <? size_of w then new_size else size_of w in
  modify (upd_tmem (copy_words ptr_aux ptr (Z.to_nat (cpsize / 4))));;;
  free_ex ptr;;;
  ret ptr_aux.

Definition calloc_ex (nelem elem_size : Z) : TM Z :=
  if (nelem <=? 0) || (elem_size <=? 0) then ret NULL else
  ptr <- malloc_ex (u32 (nelem * elem_size));;
  if ptr =? NULL then ret NULL else
  modify (upd_tmem (zero_bytes ptr (u32 (nelem * elem_size))));;;
  ret ptr.

(** [isix_alloc], [isix_free] and [isix_realloc] under the heap lock; the relocation
    takes the old size before it allocates, and copies without the lock: both blocks belong
    to the caller. *)
Definition tlsf_malloc (size : Z) : TM Z := malloc_ex size.
Definition tlsf_free (ptr : Z) : TM unit := free_ex ptr.
Definition tlsf_realloc (ptr size : Z) : TM Z :=
  r <- realloc_inplace_ex ptr size;;
  let '(p, need_move) := r in
  if negb need_move then ret p else
  w <- ld (a_size (ptr - BHDR_OVERHEAD));;
  let old_size := size_of w in
  let new_size := adjust_size size in
  p <- malloc_ex new_size;;
  when (negb (p =? NULL))
    (modify (upd_tmem (copy_words p ptr (Z.to_nat ((if new_size <? old_size then new_size else old_size) / 4))));;;
     free_ex ptr);;;
  ret p.

Definition tlsf_calloc (nelem elem_size : Z) : TM Z :=
  if (nelem <=? 0) || (elem_size <=? 0) then ret NULL else
  p <- malloc_ex (u32 (nelem * elem_size));;
  when (negb (p =? NULL)) (modify (upd_tmem (zero_bytes p (u32 (nelem * elem_size)))));;;
  ret p.

(** [(size_t)-1] *)
Definition SIZE_ERROR : Z := 2 ^ 32 - 1.

Definition init_memory_pool (mem_pool_size mem_pool : Z) : TM Z :=
  if (mem_pool =? NULL) || (mem_pool_size =? 0) || (mem_pool_size <? sizeof_tlsf + BHDR_OVERHEAD * 8)
  then ret SIZE_ERROR else
  if negb (Z.land mem_pool PTR_MASK =? 0) then ret SIZE_ERROR else
  sig <- gets (fun s => tlsf_signature (ts_ctl s));;
  if sig =? TLSF_SIGNATURE then
    modify (set_mp mem_pool);;;
    w <- ld (a_size (GET_NEXT_BLOCK mem_pool (ROUNDUP_SIZE sizeof_tlsf)));;
    ret (size_of w)
  else
    modify (set_mp mem_pool);;;
    modify (upd_ctl (fun _ => set_signature TLSF_SIGNATURE tlsf_zero));;;
    ib <- process_area (GET_NEXT_BLOCK mem_pool (ROUNDUP_SIZE sizeof_tlsf))
            (ROUNDDOWN_SIZE (u32 (mem_pool_size - sizeof_tlsf)));;
    wi <- ld (a_size ib);;
    let b := GET_NEXT_BLOCK (a_buffer ib) (size_of wi) in
    free_ex (a_buffer b);;;
    modify (upd_ctl (set_area_head (a_buffer ib)));;;
    w <- ld (a_size b);;
    let used := u32 (mem_pool_size - size_of w) in
    modify (upd_ctl (set_sizes used used (size_of w)));;;
    ret (size_of w).

(** One area that is already known leaves the list of areas. *)
Definition unlink_area (ptr ptr_prev : Z) : TM Z :=
  head <- gets (fun s => area_head (ts_ctl s));;
  next <- ld (a_area_next ptr);;
  (if head =? ptr then modify (upd_ctl (set_area_head next)) else st (a_area_next ptr_prev) next);;;
  ret next.

(** The loop of [add_new_area] over the areas; the result is [ib0], [b0] and [lb0]. *)
Fixpoint merge_areas (fuel : nat) (ptr ptr_prev ib0 b0 lb0 : Z) : TM (Z * Z * Z) :=
  if ptr =? NULL then ret (ib0, b0, lb0) else
  match fuel with
  | O => fault
  | S fuel =>
      let ib1 := ptr - BHDR_OVERHEAD in
      wi1 <- ld (a_size ib1);;
      let b1 := GET_NEXT_BLOCK (a_buffer ib1) (size_of wi1) in
      lb1 <- ld (a_area_end ptr);;
      if ib1 =? lb0 + BHDR_OVERHEAD then
        next <- unlink_area ptr ptr_prev;;
        wb0 <- ld (a_size b0);;
        st (a_size b0) (Z.lor (Z.lor (ROUNDDOWN_SIZE (u32 (size_of wb0 + size_of wi1 + 2 * BHDR_OVERHEAD)))
                                 USED_BLOCK) PREV_USED);;;
        st (a_prev_hdr b1) b0;;;
        merge_areas fuel next ptr_prev ib0 b0 lb1
      else if a_buffer lb1 =? ib0 then
        next <- unlink_area ptr ptr_prev;;
        wb0 <- ld (a_size b0);;
        wi0 <- ld (a_size ib0);;
        wl1 <- ld (a_size lb1);;
        st (a_size lb1) (Z.lor (Z.lor (ROUNDDOWN_SIZE (u32 (size_of wb0 + size_of wi0 + 2 * BHDR_OVERHEAD)))
                                  USED_BLOCK) (Z.land wl1 PREV_STATE));;;
        wl1 <- ld (a_size lb1);;
        st (a_prev_hdr (GET_NEXT_BLOCK (a_buffer lb1) (size_of wl1))) lb1;;;
        merge_areas fuel next ptr_prev ib1 lb1 lb0
      else
        next <- ld (a_area_next ptr);;
        merge_areas fuel next ptr ib0 b0 lb0
  end.

(** Areas cannot be more than the words of memory. *)
Definition area_fuel : TM nat := gets (fun s => S (base.size (ts_mem s))).

Definition add_new_area (area area_size : Z) : TM Z :=
  modify (upd_tmem (zero_bytes area area_size));;;
  ptr <- gets (fun s => area_head (ts_ctl s));;
  ib0 <- process_area area area_size;;
  wi0 <- ld (a_size ib0);;
  let b0 := GET_NEXT_BLOCK (a_buffer ib0) (size_of wi0) in
  wb0 <- ld (a_size b0);;
  let lb0 := GET_NEXT_BLOCK (a_buffer b0) (size_of wb0) in
  fuel <- area_fuel;;
  r <- merge_areas fuel ptr 0 ib0 b0 lb0;;
  let '(ib0, b0, lb0) := r in
  let ai := a_buffer ib0 in
  head <- gets (fun s => area_head (ts_ctl s));;
  st (a_area_next ai) head;;;
  st (a_area_end ai) lb0;;;
  modify (upd_ctl (set_area_head ai));;;
  free_ex (a_buffer b0);;;
  w <- ld (a_size b0);;
  ret (size_of w).

Definition destroy_memory_pool : TM unit := modify (upd_ctl (set_signature 0)).

Definition get_used_size : TM Z := gets (fun s => used_size (ts_ctl s)).
Definition get_max_size : TM Z := gets (fun s => max_size (ts_ctl s)).
Definition get_free_size : TM Z := gets (fun s => free_size (ts_ctl s)).

Definition get_block_size (ptr : Z) : TM Z :=
  w <- ld (a_size (ptr - BHDR_OVERHEAD));;
  ret (if Z.land w BLOCK_STATE =? FREE_BLOCK then 0 else size_of w).

(** ** Consistency check *)

(** The search for [b] on the list of its class, with [guard] steps left. *)
Fixpoint list_search (guard : nat) (p b : Z) : TM Z :=
  if (p =? NULL) || (p =? b) then ret p else
  match guard with
  | O => ret p
  | S guard => next <- ld (a_next p);; list_search guard next b
  end.

(** The rules for one free block of [size] bytes at [b] before [next]. *)
Definition check_free_block (b size next wn ai_end : Z) : TM Z :=
  ph <- ld (a_prev_hdr next);;
  if negb (ph =? b) then ret (-4) else
  if (Z.land wn BLOCK_STATE =? FREE_BLOCK) && negb (next =? ai_end) then ret (-5) else
  let '(fl, sl) := MAPPING_INSERT size in
  flb <- gets (fun s => fl_bitmap (ts_ctl s));;
  if Z.land flb (u32 (Z.shiftl 1 fl)) =? 0 then ret (-7) else
  slb <- sl_get fl;;
  if Z.land slb (u32 (Z.shiftl 1 sl)) =? 0 then ret (-7) else
  hd <- mat_get fl sl;;
  p <- list_search (Z.to_nat 100000) hd b;;
  if negb (p =? b) then ret (-7) else ret 0.

(** The blocks of one area: a rule number, or the free blocks and their bytes. *)
Fixpoint check_blocks (fuel : nat) (heap_start heap_end b ai_end free_blocks free_sum : Z) : TM (Z + Z * Z) :=
  if b =? ai_end then ret (inr (free_blocks, free_sum)) else
  match fuel with
  | O => fault
  | S fuel =>
      wb <- ld (a_size b);;
      let size := size_of wb in
      if (b <? heap_start) || (heap_end <=? b) || (ai_end <? b) then ret (inl (-1)) else
      if (size =? 0) || negb (Z.land size MEM_ALIGN =? 0) then ret (inl (-2)) else
      let next := GET_NEXT_BLOCK (a_buffer b) size in
      if ai_end <? next then ret (inl (-1)) else
      wn <- ld (a_size next);;
      let is_free := Z.land wb BLOCK_STATE =? FREE_BLOCK in
      if negb (Bool.eqb is_free (Z.land wn PREV_STATE =? PREV_FREE)) then ret (inl (-3)) else
      if is_free then
        r <- check_free_block b size next wn ai_end;;
        if negb (r =? 0) then ret (inl r) else
        check_blocks fuel heap_start heap_end next ai_end (free_blocks + 1)
          (u32 (free_sum + (size + BHDR_OVERHEAD)))
      else check_blocks fuel heap_start heap_end next ai_end free_blocks free_sum
  end.

Fixpoint check_areas (fuel : nat) (heap_start heap_end ai free_blocks free_sum : Z) : TM (Z + Z * Z) :=
  if ai =? NULL then ret (inr (free_blocks, free_sum)) else
  match fuel with
  | O => fault
  | S fuel' =>
      let ib := ai - BHDR_OVERHEAD in
      wi <- ld (a_size ib);;
      ai_end <- ld (a_area_end ai);;
      r <- check_blocks fuel heap_start heap_end (GET_NEXT_BLOCK (a_buffer ib) (size_of wi)) ai_end
             free_blocks free_sum;;
      match r with
      | inl e => ret (inl e)
      | inr (fb, fs) =>
          next <- ld (a_area_next ai);;
          check_areas fuel' heap_start heap_end next fb fs
      end
  end.

(** One list: the members are free, linked backwards, and not more than expected. *)
Fixpoint check_list (fuel : nat) (p prev listed free_blocks : Z) : TM (Z + Z) :=
  if p =? NULL then ret (inr listed) else
  match fuel with
  | O => fault
  | S fuel =>
      w <- ld (a_size p);;
      pp <- ld (a_prev p);;
      if negb (Z.land w BLOCK_STATE =? FREE_BLOCK) || negb (pp =? prev) then ret (inl (-9)) else
      if free_blocks <? listed + 1 then ret (inl (-10)) else
      next <- ld (a_next p);;
      check_list fuel next p (listed + 1) free_blocks
  end.

(** The classes that are still to be checked, in the order of the two loops. *)
Fixpoint check_lists (cells : list (Z * Z)) (listed free_blocks : Z) : TM (Z + Z) :=
  match cells with
  | [] => ret (inr listed)
  | (fl, sl) :: cells =>
      slb <- sl_get fl;;
      let bit := Z.land (Z.shiftr slb sl) 1 in
      p <- mat_get fl sl;;
      if negb (Bool.eqb (bit =? 0) (p =? NULL)) then ret (inl (-8)) else
      r <- check_list (S (Z.to_nat free_blocks)) p NULL listed free_blocks;;
      match r with
      | inl e => ret (inl e)
      | inr listed => check_lists cells listed free_blocks
      end
  end.

Definition all_cells : list (Z * Z) :=
  fl ← seqZ 0 REAL_FLI; sl ← seqZ 0 MAX_SLI; [(fl, sl)].

Definition heap_check_locked (heap_start heap_end : Z) : TM Z :=
  fuel <- area_fuel;;
  head <- gets (fun s => area_head (ts_ctl s));;
  r <- check_areas fuel heap_start heap_end head 0 0;;
  match r with
  | inl e => ret e
  | inr (free_blocks, free_sum) =>
      last <- (if head =? NULL then ret false
               else next <- ld (a_area_next head);; ret (next =? NULL));;
      free <- gets (fun s => free_size (ts_ctl s));;
      if last && negb (u32 (free_sum - BHDR_OVERHEAD) =? free) then ret (-6) else
      r <- check_lists all_cells 0 free_blocks;;
      match r with
      | inl e => ret e
      | inr listed => ret (if listed =? free_blocks then 0 else -10)
      end
  end.

(** ** Wrappers (tlsf_isix.c); the linker chooses the addresses. *)

Definition _isixp_alloc_init (heap_start heap_end : Z) : TM unit :=
  r <- init_memory_pool (heap_end - heap_start) heap_start;;
  if r =? SIZE_ERROR then panic "Unable to create TSLF memory pool"%string else ret tt.

Definition isix_heap_stats : TM (Z * Z * Z) :=
  used <- get_used_size;;
  free <- get_free_size;;
  ret (used, free, 1).

Definition isix_heap_getsize (heap_start heap_end ptr : Z) : TM Z :=
  if (ptr <? heap_start + 4) || (heap_end <=? ptr) || negb (Z.land ptr 3 =? 0) then ret 0
  else get_block_size ptr.

End Tlsf.
