(* ===== verification/TlsfMap.v ===== *)
(** * Size classes of the segregated fit heap: bit searches and the class of a size *)

From S2P Require Import Prelude.
From S2P Require Import Kernel.
From S2P Require Import Tlsf.
From Stdlib Require Import ZArith Lia.
From stdpp Require Import base numbers gmap list.
Local Open Scope Z_scope.

(** ** Bit searches *)

Lemma ms_bit_log2 x : 0 < x < 2 ^ 32 -> ms_bit x = Z.log2 x.
Proof. intros. unfold ms_bit, clz. destruct (Z.eqb_spec x 0); lia. Qed.

Lemma land_double a b : Z.land (2 * a) (2 * b) = 2 * Z.land a b.
Proof.
  pose proof (Z.shiftl_land a b 1) as H. by rewrite !Z.shiftl_mul_pow2, !(Z.mul_comm _ (2 ^ 1)) in H.
Qed.

Lemma lowest_bit p : exists k, 0 <= k /\ Z.land (Zpos p) (Zneg p) = 2 ^ k /\
  Z.testbit (Zpos p) k = true /\ forall j, 0 <= j < k -> Z.testbit (Zpos p) j = false.
Proof.
  induction p as [p _|p (k & Hk & Hl & Ht & Hlow)|].
  - exists 0. split; [lia|]. split; [|split; [done|lia]].
    apply Z.bits_inj'. intros n Hn. rewrite Z.land_spec.
    destruct (decide (n = 0)) as [->|]; [done|].
    replace (Zneg p~1) with (Z.lnot (Zpos p~0)) by (unfold Z.lnot; lia).
    rewrite Z.lnot_spec by lia. change (2 ^ 0) with 1. rewrite (Z.bits_above_log2 1 n) by (simpl; lia).
    replace n with (Z.succ (n - 1)) by lia.
    change (Zpos p~1) with (2 * Zpos p + 1). change (Zpos p~0) with (2 * Zpos p).
    rewrite Z.testbit_odd_succ, Z.testbit_even_succ by lia. by destruct (Z.testbit _ _).
  - exists (k + 1). split; [lia|]. split; [|split].
    + change (Zpos p~0) with (2 * Zpos p). change (Zneg p~0) with (2 * Zneg p).
      rewrite land_double, Hl, Z.pow_add_r by lia. lia.
    + change (Zpos p~0) with (2 * Zpos p). replace (k + 1) with (Z.succ k) by lia.
      by rewrite Z.testbit_even_succ.
    + intros j Hj. change (Zpos p~0) with (2 * Zpos p). destruct (decide (j = 0)) as [->|].
      * apply Z.testbit_even_0.
      * replace j with (Z.succ (j - 1)) by lia. rewrite Z.testbit_even_succ by lia. apply Hlow. lia.
  - exists 0. split; [lia|]. split; [done|]. split; [done|lia].
Qed.

Lemma bit_range w k : 0 <= w < 2 ^ 32 -> Z.testbit w k = true -> 0 <= k < 32.
Proof.
  intros Hw Ht. split.
  - destruct (Z_lt_dec k 0); [|lia]. rewrite Z.testbit_neg_r in Ht by lia. done.
  - destruct (Z_lt_dec k 32); [done|]. destruct (decide (w = 0)) as [->|]; [by rewrite Z.bits_0 in Ht|].
    rewrite Z.bits_above_log2 in Ht; [done|lia|].
    assert (Z.log2 w < 32) by (apply Z.log2_lt_pow2; lia). lia.
Qed.

(** [ls_bit] finds the lowest bit that is set. *)
Lemma ls_bit_spec w : 0 < w < 2 ^ 32 ->
  0 <= ls_bit w < 32 /\ Z.testbit w (ls_bit w) = true /\
  forall j, 0 <= j < ls_bit w -> Z.testbit w j = false.
Proof.
  intros Hw. destruct w as [|p|p]; try lia.
  destruct (lowest_bit p) as (k & Hk & Hl & Ht & Hlow).
  pose proof (bit_range _ _ (conj (Z.lt_le_incl _ _ (proj1 Hw)) (proj2 Hw)) Ht) as Hk32.
  assert (Hls : ls_bit (Zpos p) = k).
  { unfold ls_bit, __log2, clz.
    replace (Z.land (Zpos p) (u32 (- Zpos p))) with (2 ^ k).
    - destruct (Z.eqb_spec (2 ^ k) 0); [lia|]. rewrite Z.log2_pow2 by lia. lia.
    - rewrite <- Hl. unfold u32. rewrite <- Z.land_ones by lia.
      rewrite (Z.land_comm (- _)), Z.land_assoc, Z.land_ones by lia.
      rewrite Z.mod_small by lia. done. }
  rewrite Hls. done.
Qed.

Lemma ls_bit_0 : ls_bit 0 = -1.
Proof. reflexivity. Qed.

Lemma mask_from_testbit n j : 0 <= n <= 32 -> Z.testbit (mask_from n) j = (n <=? j) && (j <? 32).
Proof.
  intros Hn. unfold mask_from, u32. change (2 ^ 32 - 1) with (Z.ones 32).
  destruct (Z_lt_dec j 0).
  { rewrite Z.testbit_neg_r by lia. destruct (Z.leb_spec n j); [lia|done]. }
  rewrite <- Z.land_ones, Z.land_spec, Z.testbit_ones, Z.shiftl_spec by lia.
  destruct (Z.leb_spec n j), (Z.ltb_spec j 32); simpl;
    rewrite ?Z.testbit_ones by lia; repeat case_bool_decide; try lia;
    repeat match goal with |- context [?a <=? ?b] => destruct (Z.leb_spec a b) end;
    repeat match goal with |- context [?a <? ?b] => destruct (Z.ltb_spec a b) end; try lia; done.
Qed.

Lemma masked_range w m : 0 <= w < 2 ^ 32 -> 0 <= Z.land w m < 2 ^ 32.
Proof.
  intros. assert (0 <= Z.land w m) by (apply Z.land_nonneg; lia). split; [done|].
  destruct (decide (w = 0)) as [->|]; [rewrite Z.land_0_l; lia|].
  destruct (decide (Z.land w m = 0)) as [->|]; [lia|].
  apply Z.log2_lt_pow2; [lia|].
  destruct (Z_lt_dec (Z.log2 (Z.land w m)) 32); [done|].
  assert (Hb : Z.testbit (Z.land w m) (Z.log2 (Z.land w m)) = true) by (apply Z.bit_log2; lia).
  rewrite Z.land_spec in Hb. apply andb_prop in Hb as [Hb _].
  apply bit_range in Hb; lia.
Qed.

(** The first bit at or above [n]. *)
Lemma ls_bit_from w n : 0 <= w < 2 ^ 32 -> 0 <= n <= 32 ->
  let b := ls_bit (Z.land w (mask_from n)) in
  if Z.land w (mask_from n) =? 0 then b = -1 /\ forall j, n <= j -> Z.testbit w j = false
  else n <= b < 32 /\ Z.testbit w b = true /\ forall j, n <= j < b -> Z.testbit w j = false.
Proof.
  intros Hw Hn b. subst b. pose proof (masked_range w (mask_from n) Hw) as Hr.
  destruct (Z.eqb_spec (Z.land w (mask_from n)) 0) as [H0|H0].
  - rewrite H0. split; [done|]. intros j Hj.
    destruct (Z.testbit w j) eqn:Hb; [|done]. pose proof (bit_range _ _ Hw Hb).
    assert (Hz : Z.testbit (Z.land w (mask_from n)) j = true).
    { rewrite Z.land_spec, Hb, mask_from_testbit by lia. destruct (Z.leb_spec n j), (Z.ltb_spec j 32); try lia; done. }
    by rewrite H0, Z.bits_0 in Hz.
  - destruct (ls_bit_spec (Z.land w (mask_from n)) ltac:(lia)) as (Hb & Ht & Hlow).
    rewrite Z.land_spec, mask_from_testbit in Ht by lia. apply andb_prop in Ht as [Ht1 Ht2].
    apply andb_prop in Ht2 as [Ht2 Ht3]. split; [lia|]. split; [done|].
    intros j Hj. specialize (Hlow j ltac:(lia)). rewrite Z.land_spec, mask_from_testbit in Hlow by lia.
    destruct (Z.leb_spec n j), (Z.ltb_spec j 32); try lia. simpl in Hlow. by rewrite andb_true_r in Hlow.
Qed.

(** ** Classes *)

(** Sizes the tables have a class for. *)
Definition MAX_BLOCK : Z := 2 ^ MAX_FLI.
(** The largest request whose rounded size still has a class. *)
Definition MAX_REQUEST : Z := 2 ^ 19 - 2 ^ 13.

Definition in_table (c : Z * Z) : Prop := 0 <= c.1 < REAL_FLI /\ 0 <= c.2 < MAX_SLI.

(** Order of the classes: first level, then second level. *)
Definition cls_le (c d : Z * Z) : Prop := c.1 < d.1 \/ (c.1 = d.1 /\ c.2 <= d.2).

(** The smallest size of a class. *)
Definition class_low (c : Z * Z) : Z :=
  if c.1 =? 0 then 4 * c.2 else (32 + c.2) * 2 ^ (c.1 + 1).

Lemma cls_le_refl c : cls_le c c.
Proof. right. lia. Qed.

Lemma cls_le_antisym c d : cls_le c d -> cls_le d c -> c = d.
Proof. destruct c, d. unfold cls_le. simpl. intros. f_equal; lia. Qed.

Lemma log2_split r : 0 < r -> exists d, 2 ^ Z.log2 r + d = r /\ 0 <= d < 2 ^ Z.log2 r.
Proof.
  intros. exists (r - 2 ^ Z.log2 r). pose proof (Z.log2_spec r ltac:(lia)) as Hs.
  rewrite Z.pow_succ_r in Hs by apply Z.log2_nonneg. lia.
Qed.

(** The quotient of a size by the step of its class. *)
Lemma class_step r L : 2 ^ L <= r < 2 ^ (L + 1) -> 5 <= L -> 32 <= r / 2 ^ (L - 5) < 64.
Proof.
  intros Hr HL. assert (Hp : 0 < 2 ^ (L - 5)) by (apply Z.pow_pos_nonneg; lia).
  assert (HL0 : 2 ^ L = 32 * 2 ^ (L - 5)).
  { replace L with (5 + (L - 5)) at 1 by lia. rewrite Z.pow_add_r by lia. lia. }
  rewrite Z.pow_add_r in Hr by lia.
  split; [apply Z.div_le_lower_bound; lia|apply Z.div_lt_upper_bound; lia].
Qed.

Lemma MAPPING_INSERT_big r : 128 <= r < 2 ^ 32 ->
  MAPPING_INSERT r = (Z.log2 r - 6, r / 2 ^ (Z.log2 r - 5) - 32).
Proof.
  intros. unfold MAPPING_INSERT, SMALL_BLOCK, FLI_OFFSET, MAX_LOG2_SLI, MAX_SLI.
  destruct (Z.ltb_spec r 128); [lia|]. rewrite ms_bit_log2 by lia.
  assert (7 <= Z.log2 r) by (apply (Z.log2_le_mono 128); lia).
  by rewrite Z.shiftr_div_pow2 by lia.
Qed.

(** A class is in the tables and its sizes start at [class_low]. *)
Lemma MAPPING_INSERT_spec r : 0 <= r < MAX_BLOCK ->
  in_table (MAPPING_INSERT r) /\ class_low (MAPPING_INSERT r) <= r /\
  (128 <= r -> r < class_low (MAPPING_INSERT r) + 2 ^ (Z.log2 r - 5)) /\
  (r < 128 -> r < class_low (MAPPING_INSERT r) + 4).
Proof.
  unfold MAX_BLOCK, MAX_FLI. intros Hr. destruct (Z_lt_dec r 128).
  - unfold MAPPING_INSERT, SMALL_BLOCK. destruct (Z.ltb_spec r 128); [|lia].
    change (128 / MAX_SLI) with 4. unfold in_table, class_low, REAL_FLI, MAX_FLI, FLI_OFFSET, MAX_SLI. simpl.
    pose proof (Z.div_mod r 4). pose proof (Z.mod_pos_bound r 4). repeat split; lia.
  - rewrite MAPPING_INSERT_big by lia.
    assert (H7 : 7 <= Z.log2 r) by (apply (Z.log2_le_mono 128); lia).
    assert (H19 : Z.log2 r < 19) by (apply Z.log2_lt_pow2; lia).
    pose proof (Z.log2_spec r ltac:(lia)) as Hs. rewrite <- Z.add_1_r in Hs.
    pose proof (class_step r (Z.log2 r) ltac:(lia) ltac:(lia)) as Hq.
    assert (Hp : 0 < 2 ^ (Z.log2 r - 5)) by (apply Z.pow_pos_nonneg; lia).
    unfold in_table, class_low, REAL_FLI, MAX_FLI, FLI_OFFSET, MAX_SLI. simpl fst. simpl snd.
    destruct (Z.eqb_spec (Z.log2 r - 6) 0); [lia|].
    replace (Z.log2 r - 6 + 1) with (Z.log2 r - 5) by lia.
    pose proof (Z.div_mod r (2 ^ (Z.log2 r - 5)) ltac:(lia)).
    pose proof (Z.mod_pos_bound r (2 ^ (Z.log2 r - 5)) ltac:(lia)).
    repeat split; lia.
Qed.

(** Larger sizes have higher classes. *)
Lemma MAPPING_INSERT_mono r r' : 0 <= r <= r' -> r' < MAX_BLOCK ->
  cls_le (MAPPING_INSERT r) (MAPPING_INSERT r').
Proof.
  unfold MAX_BLOCK, MAX_FLI. intros Hr Hr'.
  destruct (Z_lt_dec r' 128) as [Hs'|Hs'].
  - unfold MAPPING_INSERT, SMALL_BLOCK. destruct (Z.ltb_spec r 128), (Z.ltb_spec r' 128); try lia.
    change (128 / MAX_SLI) with 4. right. simpl. split; [done|]. apply Z.div_le_mono; lia.
  - assert (H7 : 7 <= Z.log2 r') by (apply (Z.log2_le_mono 128); lia).
    destruct (Z_lt_dec r 128).
    + rewrite (MAPPING_INSERT_big r') by lia. unfold MAPPING_INSERT, SMALL_BLOCK.
      destruct (Z.ltb_spec r 128); [|lia]. left. simpl. lia.
    + rewrite !MAPPING_INSERT_big by lia.
      assert (Hl : Z.log2 r <= Z.log2 r') by (apply Z.log2_le_mono; lia).
      destruct (decide (Z.log2 r = Z.log2 r')) as [->|]; [|left; simpl; lia].
      right. simpl. split; [done|]. apply Z.sub_le_mono_r, Z.div_le_mono; [|lia].
      apply Z.pow_pos_nonneg; lia.
Qed.

Lemma div_mul_step r e : 0 <= e -> Z.land (r + (2 ^ e - 1)) (Z.lnot (2 ^ e - 1)) = (r + (2 ^ e - 1)) / 2 ^ e * 2 ^ e.
Proof.
  intros. replace (2 ^ e - 1) with (Z.ones e) at 2 by (rewrite Z.ones_equiv; lia).
  rewrite <- Z.ldiff_land, Z.ldiff_ones_r by lia. rewrite Z.shiftl_mul_pow2, Z.shiftr_div_pow2 by lia. done.
Qed.

Lemma land_lnot32 x y : 0 <= x < 2 ^ 32 -> Z.land x (lnot32 y) = Z.land x (Z.lnot y).
Proof.
  intros. apply Z.bits_inj'. intros n Hn. rewrite !Z.land_spec. unfold lnot32.
  rewrite Z.lxor_spec, Z.lnot_spec by lia. change (2 ^ 32 - 1) with (Z.ones 32).
  rewrite Z.testbit_ones by lia. destruct (Z.testbit x n) eqn:Hb; [|done].
  pose proof (bit_range _ _ H Hb). destruct (Z.leb_spec 0 n), (Z.ltb_spec n 32); try lia. by destruct (Z.testbit y n).
Qed.

(** Rounding [r] up to the step of its class keeps the class of [r] or reaches the first
    size of the next power of two. *)
Lemma round_class r L e : 7 <= L -> e = L - 5 -> 2 ^ L <= r < 2 ^ L * 2 -> 2 ^ L = 32 * 2 ^ e ->
  let r1 := r + (2 ^ e - 1) in
  let r' := r1 / 2 ^ e * 2 ^ e in
  r <= r' <= r1 /\ r' mod 2 ^ e = 0 /\
  ((r1 < 2 ^ L * 2 /\ r' < 2 ^ L * 2) \/ (r' = 2 ^ L * 2 /\ r1 < 2 ^ L * 2 + 2 ^ e)).
Proof.
  intros HL -> Hr HLe r1 r'. set (p := 2 ^ (L - 5)) in *.
  assert (Hp : 0 < p) by (apply Z.pow_pos_nonneg; lia).
  pose proof (Z.div_mod r1 p ltac:(lia)). pose proof (Z.mod_pos_bound r1 p ltac:(lia)).
  split; [subst r' r1; lia|]. split; [subst r'; apply Z.mod_mul; lia|].
  destruct (Z_lt_dec r1 (2 ^ L * 2)); [left; subst r' r1; lia|right].
  split; [|subst r1; lia]. subst r'.
  enough (r1 / p = 64) as -> by lia.
  symmetry. apply (Z.div_unique r1 p 64 (r1 - 64 * p)); subst r1; lia.
Qed.

(** The search rounds a size up to the start of the class it looks at first. *)
Lemma MAPPING_SEARCH_spec r : 8 <= r <= MAX_REQUEST -> r mod 8 = 0 ->
  exists c r', MAPPING_SEARCH r = (r', c.1, c.2) /\
    r <= r' < MAX_BLOCK /\ r' mod 8 = 0 /\ c = MAPPING_INSERT r' /\ class_low c = r' /\ r' <= r + r / 32.
Proof.
  unfold MAX_REQUEST. intros Hr Hm. unfold MAPPING_SEARCH, SMALL_BLOCK, MAX_LOG2_SLI, FLI_OFFSET.
  assert (HMB : MAX_BLOCK = 2 ^ 19) by done.
  destruct (Z.ltb_spec r 128).
  - exists (0, r / 4), r. change (128 / MAX_SLI) with 4. split; [done|]. split; [lia|]. split; [done|].
    unfold MAPPING_INSERT, SMALL_BLOCK, class_low. destruct (Z.ltb_spec r 128); [|lia].
    change (128 / MAX_SLI) with 4. split; [done|]. simpl.
    pose proof (Z.div_mod r 8). pose proof (Z.div_mod r 4). pose proof (Z.mod_pos_bound r 4).
    pose proof (Z.div_pos r 32). lia.
  - rewrite (ms_bit_log2 r) by lia. cbv zeta. set (L := Z.log2 r).
    assert (H7 : 7 <= L) by (apply (Z.log2_le_mono 128); lia).
    assert (H19 : L < 19) by (apply Z.log2_lt_pow2; lia).
    pose proof (Z.log2_spec r ltac:(lia)) as Hs. fold L in Hs. rewrite <- Z.add_1_r in Hs.
    set (e := L - 5). assert (He : 0 < 2 ^ e) by (apply Z.pow_pos_nonneg; lia).
    assert (HL : 2 ^ L = 32 * 2 ^ e).
    { replace L with (5 + e) by lia. rewrite Z.pow_add_r by lia. done. }
    rewrite (Z.pow_add_r 2 L 1) in Hs by lia. change (2 ^ 1) with 2 in Hs.
    rewrite Z.shiftl_1_l. set (r1 := r + (2 ^ e - 1)).
    assert (Hr1 : r1 < 2 ^ 19).
    { assert (L = 18 \/ L <= 17) as [HL18|HL17] by lia.
      - subst r1 e. rewrite HL18 in *. change (2 ^ (18 - 5)) with (2 ^ 13). lia.
      - assert (2 ^ L <= 2 ^ 17) by (apply Z.pow_le_mono_r; lia). lia. }
    rewrite u32_id by (subst r1; unfold in_u32; lia).
    rewrite land_lnot32 by (subst r1; lia).
    replace (Z.land r1 (Z.lnot (2 ^ e - 1))) with (r1 / 2 ^ e * 2 ^ e) by (symmetry; apply div_mul_step; lia).
    pose proof (round_class r L e H7 eq_refl Hs HL) as (Hrd & Hc1 & Hc2). fold r1 in Hrd, Hc1, Hc2.
    set (r' := r1 / 2 ^ e * 2 ^ e) in *.
    exists (MAPPING_INSERT r'), r'.
    assert (Hr'b : 128 <= r' <= r1) by (pose proof (Z.mod_pos_bound r1 (2 ^ e)); subst r1; lia).
    rewrite ms_bit_log2 by (subst r1; lia).
    rewrite (MAPPING_INSERT_big r') by lia. simpl fst. simpl snd.
    assert (H8 : r' mod 8 = 0).
    { assert (e = 2 \/ 3 <= e) as [He2|He3] by lia.
      - subst r' r1. rewrite He2 in *. change (2 ^ 2) with 4 in *.
        pose proof (Z.div_mod r 8). pose proof (Z.div_mod (r + (4 - 1)) 4). pose proof (Z.mod_pos_bound (r + (4 - 1)) 4).
        replace ((r + (4 - 1)) / 4 * 4) with r by lia. done.
      - subst r'. replace (2 ^ e) with (2 ^ (e - 3) * 8) at 2 by (rewrite <- (Z.pow_add_r 2 _ 3) by lia; f_equal; lia).
        rewrite Z.mul_assoc. apply Z.mod_mul. lia. }
    assert (Hlq : Z.log2 r1 = Z.log2 r' /\ r1 / 2 ^ (Z.log2 r' - 5) = r' / 2 ^ (Z.log2 r' - 5) /\
                  r' = r' / 2 ^ (Z.log2 r' - 5) * 2 ^ (Z.log2 r' - 5)).
    { destruct Hc2 as [[Hlt Hlt']|[Heq Hlt]].
      - rewrite (Z.log2_unique r1 L), (Z.log2_unique r' L) by (rewrite ?Z.pow_succ_r by lia; lia).
        split; [done|]. fold e. subst r'. rewrite Z.div_mul by lia. done.
      - assert (H2L : 2 ^ (L + 1) = 2 ^ L * 2) by (rewrite Z.pow_add_r by lia; lia).
        assert (Hd : 2 ^ (L + 1 - 5) = 2 * 2 ^ e).
        { replace (L + 1 - 5) with (1 + e) by lia. rewrite Z.pow_add_r by lia. done. }
        rewrite (Z.log2_unique r1 (L + 1)), (Z.log2_unique r' (L + 1)) by (rewrite ?Z.pow_succ_r, ?H2L by lia; lia).
        rewrite Hd. split; [done|].
        assert (Hq1 : r1 / (2 * 2 ^ e) = 32) by (symmetry; apply (Z.div_unique _ _ _ (r1 - 64 * 2 ^ e)); lia).
        assert (Hq2 : r' / (2 * 2 ^ e) = 32) by (symmetry; apply (Z.div_unique _ _ _ 0); lia).
        rewrite Hq1, Hq2. lia. }
    destruct Hlq as (Hlog & Hq & Hlow). rewrite Hlog.
    assert (H7' : 7 <= Z.log2 r') by (apply (Z.log2_le_mono 128); lia).
    rewrite Z.shiftr_div_pow2, Hq by lia. split; [done|]. split; [lia|]. split; [done|]. split; [done|].
    unfold class_low. simpl fst. simpl snd. destruct (Z.eqb_spec (Z.log2 r' - 6) 0); [lia|].
    replace (Z.log2 r' - 6 + 1) with (Z.log2 r' - 5) by lia. split; [lia|].
    assert (2 ^ e <= r / 32) by (apply Z.div_le_lower_bound; lia). subst r1. lia.
Qed.

(** Good fit: the classes from the one that is searched first hold exactly the sizes
    that are large enough. *)
Lemma class_good_fit r' s : 0 <= s < MAX_BLOCK -> 0 <= r' < MAX_BLOCK ->
  class_low (MAPPING_INSERT r') = r' ->
  (cls_le (MAPPING_INSERT r') (MAPPING_INSERT s) <-> r' <= s).
Proof.
  intros Hs Hr Hlow. split.
  - intros Hc. destruct (Z_le_dec r' s) as [|Hlt]; [done|].
    assert (Heq : MAPPING_INSERT r' = MAPPING_INSERT s).
    { apply cls_le_antisym; [done|]. apply MAPPING_INSERT_mono; lia. }
    destruct (MAPPING_INSERT_spec s Hs) as (_ & Hl & _). rewrite <- Heq in Hl. lia.
  - intros. apply MAPPING_INSERT_mono; lia.
Qed.
