(* ===== verification/TlsfLists.v ===== *)
(** * Free lists of the segregated fit heap

    The matrix of doubly linked lists and the two levels of bitmaps represent a function
    from classes to sequences of blocks; insertion and extraction implement the operations
    on the sequences and touch nothing but list links. *)

From S2P Require Import Prelude.
From S2P Require Import Kernel.
From S2P Require Import Tlsf.
From S2P Require Import TlsfMap.
From Stdlib Require Import ZArith Lia.
From stdpp Require Import base numbers gmap list functions sorting.
Local Open Scope Z_scope.

(** ** Bits of a word *)

Lemma shift_bit n j : 0 <= n < 32 -> 0 <= j -> Z.testbit (Z.shiftl 1 (Z.land n 0x1f)) j = bool_decide (j = n).
Proof.
  intros Hn Hj. change 0x1f with (Z.ones 5). rewrite Z.land_ones, Z.mod_small, Z.shiftl_1_l by lia.
  rewrite Z.pow2_bits_eqb by lia. case_bool_decide; destruct (Z.eqb_spec n j); lia || done.
Qed.

Lemma set_bit_testbit n w j : 0 <= n < 32 -> 0 <= j ->
  Z.testbit (set_bit n w) j = Z.testbit w j || bool_decide (j = n).
Proof. intros. unfold set_bit. by rewrite Z.lor_spec, shift_bit. Qed.

Lemma clear_bit_testbit n w j : 0 <= n < 32 -> 0 <= j -> 0 <= w < 2 ^ 32 ->
  Z.testbit (clear_bit n w) j = Z.testbit w j && negb (bool_decide (j = n)).
Proof.
  intros. unfold clear_bit. fold (lnot32 (Z.shiftl 1 (Z.land n 0x1f))).
  rewrite land_lnot32, Z.land_spec, Z.lnot_spec, shift_bit by lia. done.
Qed.

Lemma word_bound w n : 0 <= n -> 0 <= w -> (forall j, n <= j -> Z.testbit w j = false) -> w < 2 ^ n.
Proof.
  intros Hn Hw Hb. destruct (decide (w = 0)) as [->|]; [apply Z.pow_pos_nonneg; lia|].
  apply Z.log2_lt_pow2; [lia|]. destruct (Z_lt_dec (Z.log2 w) n); [done|].
  specialize (Hb (Z.log2 w) ltac:(lia)). by rewrite Z.bit_log2 in Hb by lia.
Qed.

Lemma bits_above w n j : 0 <= w < 2 ^ n -> 0 <= n <= j -> Z.testbit w j = false.
Proof.
  intros Hw Hj. destruct (decide (w = 0)) as [->|]; [apply Z.bits_0|].
  apply Z.bits_above_log2; [lia|]. assert (Z.log2 w < n) by (apply Z.log2_lt_pow2; lia). lia.
Qed.

Lemma set_bit_range n w k : 0 <= n < k -> k <= 32 -> 0 <= w < 2 ^ k -> 0 <= set_bit n w < 2 ^ k.
Proof.
  intros Hn Hk Hw. assert (H0 : 0 <= set_bit n w).
  { unfold set_bit. apply Z.lor_nonneg. split; [lia|]. apply Z.shiftl_nonneg. lia. }
  split; [done|]. apply word_bound; [lia|done|]. intros j Hj. rewrite set_bit_testbit by lia.
  rewrite (bits_above w k j) by lia. rewrite bool_decide_eq_false_2 by lia. done.
Qed.

Lemma clear_bit_range n w k : 0 <= n < 32 -> 0 <= k <= 32 -> 0 <= w < 2 ^ k -> 0 <= clear_bit n w < 2 ^ k.
Proof.
  intros Hn Hk Hw. assert (2 ^ k <= 2 ^ 32) by (apply Z.pow_le_mono_r; lia).
  assert (H0 : 0 <= clear_bit n w) by (unfold clear_bit; apply Z.land_nonneg; lia).
  split; [done|]. apply word_bound; [lia|done|]. intros j Hj. rewrite clear_bit_testbit by lia.
  by rewrite (bits_above w k j) by lia.
Qed.

Lemma nonzero_bit w : 0 <= w < 2 ^ 32 -> w <> 0 <-> exists j, 0 <= j < 32 /\ Z.testbit w j = true.
Proof.
  intros Hw. split.
  - intros. destruct (ls_bit_spec w ltac:(lia)) as (Hb & Ht & _). eauto.
  - intros (j & Hj & Ht) ->. by rewrite Z.bits_0 in Ht.
Qed.

(** ** Doubly linked segments *)

(** [dllseg m p l n]: the nodes [l] are linked, [p] comes before them and [n] after. *)
Fixpoint dllseg (m : gmap Z Z) (p : Z) (l : list Z) (n : Z) : Prop :=
  match l with
  | [] => True
  | a :: l' => m !! a_prev a = Some p /\ m !! a_next a = Some (hd n l') /\ dllseg m a l' n
  end.

(** The last node, [p] when there is none. *)
Fixpoint last_or (p : Z) (l : list Z) : Z :=
  match l with [] => p | a :: l' => last_or a l' end.

Lemma hd_app n (l1 l2 : list Z) : hd n (l1 ++ l2) = hd (hd n l2) l1.
Proof. by destruct l1. Qed.

Lemma dllseg_app m p l1 l2 n :
  dllseg m p (l1 ++ l2) n <-> dllseg m p l1 (hd n l2) /\ dllseg m (last_or p l1) l2 n.
Proof.
  revert p. induction l1 as [|a l1 IH]; intros p; simpl; [tauto|].
  rewrite IH, hd_app. tauto.
Qed.

Lemma dllseg_frame m m' p l n :
  (forall a, a ∈ l -> m' !! a_prev a = m !! a_prev a /\ m' !! a_next a = m !! a_next a) ->
  dllseg m p l n -> dllseg m' p l n.
Proof.
  revert p. induction l as [|a l IH]; intros p Hf; simpl; [done|].
  destruct (Hf a) as [-> ->]; [set_solver|]. intros (Hp & Hn & Hl). repeat split; [done..|].
  apply IH; [set_solver|done].
Qed.

(** Two headers with room for the links do not overlap. *)
Definition apart (a b : Z) : Prop := a + 16 <= b \/ b + 16 <= a.

Lemma apart_sym_hdr a b : apart a b -> apart b a.
Proof. unfold apart. lia. Qed.

Ltac addr := unfold apart, a_prev_hdr, a_size, a_prev, a_next, a_buffer in *; lia.

(** Writing one link of a node leaves the links of nodes apart from it. *)
Lemma links_apart (m : gmap Z Z) x y v : apart x y ->
  <[a_prev x := v]> m !! a_prev y = m !! a_prev y /\ <[a_prev x := v]> m !! a_next y = m !! a_next y /\
  <[a_next x := v]> m !! a_prev y = m !! a_prev y /\ <[a_next x := v]> m !! a_next y = m !! a_next y.
Proof. intros. rewrite !lookup_insert_ne by addr. done. Qed.

Lemma dllseg_upd_prev m x v p l n :
  (forall a, a ∈ l -> apart x a) -> dllseg m p l n -> dllseg (<[a_prev x := v]> m) p l n.
Proof. intros Ha. apply dllseg_frame. intros a Hin. by destruct (links_apart m x a v (Ha a Hin)) as (-> & -> & _). Qed.

Lemma dllseg_upd_next m x v p l n :
  (forall a, a ∈ l -> apart x a) -> dllseg m p l n -> dllseg (<[a_next x := v]> m) p l n.
Proof. intros Ha. apply dllseg_frame. intros a Hin. by destruct (links_apart m x a v (Ha a Hin)) as (_ & _ & -> & ->). Qed.

(** The head of a segment gets a new predecessor, its last node a new successor. *)
Lemma dllseg_set_prev m p q a l n :
  (forall b, b ∈ l -> apart a b) -> dllseg m p (a :: l) n -> dllseg (<[a_prev a := q]> m) q (a :: l) n.
Proof.
  intros Ha (Hp & Hn & Hl). simpl. rewrite lookup_insert_eq, lookup_insert_ne by addr.
  repeat split; [done|]. by apply dllseg_upd_prev.
Qed.

Lemma dllseg_set_next m p l z n n' :
  (forall b, b ∈ l -> apart z b) -> dllseg m p (l ++ [z]) n -> dllseg (<[a_next z := n']> m) p (l ++ [z]) n'.
Proof.
  intros Ha. rewrite !dllseg_app. intros (Hl & Hp & Hn & _). split.
  - by apply dllseg_upd_next.
  - simpl. rewrite lookup_insert_eq, lookup_insert_ne by addr. done.
Qed.

(** ** The lists of all classes *)

Abbreviation classes := (Z * Z -> list Z).

Definition member (fls : classes) (a : Z) : Prop := exists c, in_table c /\ a ∈ fls c.

(** List heads and bitmaps tell which lists are not empty. *)
Record tables_ok (fls : classes) (c : tlsf) : Prop := {
  to_head : forall k, in_table k -> head_of c k.1 k.2 = hd NULL (fls k);
  to_bit : forall k, in_table k -> Z.testbit (sl_of c k.1) k.2 = bool_decide (fls k <> []);
  to_sl : forall fl, 0 <= fl < REAL_FLI -> 0 <= sl_of c fl < 2 ^ 32;
  to_fl : forall fl, 0 <= fl < REAL_FLI -> Z.testbit (fl_bitmap c) fl = bool_decide (sl_of c fl <> 0);
  to_fl_range : 0 <= fl_bitmap c < 2 ^ REAL_FLI
}.

(** The nodes of a list are linked in both directions, and a node is on one list. *)
Record links_ok (fls : classes) (m : gmap Z Z) : Prop := {
  lo_links : forall k, in_table k -> dllseg m NULL (fls k) NULL;
  lo_nodup : forall k, in_table k -> NoDup (fls k);
  lo_unique : forall k k' a, in_table k -> in_table k' -> a ∈ fls k -> a ∈ fls k' -> k = k';
  lo_apart : forall a b, member fls a -> member fls b -> a = b \/ apart a b;
  lo_nonnull : forall a, member fls a -> a <> NULL
}.

(** The control structure apart from bitmaps and list heads. *)
Definition book (c : tlsf) : tlsf := set_matrix ∅ (set_sl_bitmap ∅ (set_fl_bitmap 0 c)).

(** Everything but bitmaps, list heads and the links of the nodes [P]. *)
Record links_frame (P : Z -> Prop) (s s' : tstate) : Prop := {
  lf_mem : forall x, (forall a, P a -> x <> a_prev a /\ x <> a_next a) -> ts_mem s' !! x = ts_mem s !! x;
  lf_ctl : book (ts_ctl s') = book (ts_ctl s);
  lf_mp : ts_mp s' = ts_mp s
}.

Lemma links_frame_trans P s1 s2 s3 : links_frame P s1 s2 -> links_frame P s2 s3 -> links_frame P s1 s3.
Proof.
  intros [H1 H2 H3] [H1' H2' H3']. split; [|congruence..]. intros x Hx. rewrite H1', H1; done.
Qed.

Section Lists.
Context (in_ram : Z -> bool).

Lemma wp_ld a v (Q : Z -> tstate -> Prop) s : ts_mem s !! a = Some v -> Q v s -> wp (ld a) Q s.
Proof. intros H HQ. unfold ld, wp, bind, gets. simpl. by rewrite H. Qed.

Lemma wp_st a v (Q : unit -> tstate -> Prop) s :
  in_ram a = true -> Q tt (upd_tmem (insert a v) s) -> wp (st in_ram a v) Q s.
Proof. intros H HQ. unfold st. by rewrite H. Qed.

Lemma wp_sl_get fl (Q : Z -> tstate -> Prop) s :
  0 <= fl < REAL_FLI -> Q (sl_of (ts_ctl s) fl) s -> wp (sl_get fl) Q s.
Proof. intros H HQ. unfold sl_get. destruct (Z.leb_spec 0 fl), (Z.ltb_spec fl REAL_FLI); try lia. done. Qed.

Lemma wp_sl_set fl v (Q : unit -> tstate -> Prop) s :
  0 <= fl < REAL_FLI -> Q tt (upd_ctl (fun c => set_sl_bitmap (<[fl := v]> (sl_bitmap c)) c) s) ->
  wp (sl_set fl v) Q s.
Proof. intros H HQ. unfold sl_set. destruct (Z.leb_spec 0 fl), (Z.ltb_spec fl REAL_FLI); try lia. done. Qed.

Lemma in_matrix_true k : in_table k -> in_matrix k.1 k.2 = true.
Proof. unfold in_table, in_matrix. intros. rewrite !andb_true_iff. lia. Qed.

Lemma wp_mat_get k (Q : Z -> tstate -> Prop) s :
  in_table k -> Q (head_of (ts_ctl s) k.1 k.2) s -> wp (mat_get k.1 k.2) Q s.
Proof. intros H HQ. unfold mat_get. by rewrite in_matrix_true. Qed.

Lemma wp_mat_set k p (Q : unit -> tstate -> Prop) s :
  in_table k -> Q tt (upd_ctl (fun c => set_matrix (<[(k.1, k.2) := p]> (matrix c)) c) s) ->
  wp (mat_set k.1 k.2 p) Q s.
Proof. intros H HQ. unfold mat_set. by rewrite in_matrix_true. Qed.

End Lists.

(** Reading the tables after one entry was written. *)
Lemma head_of_insert c k p k' :
  head_of (set_matrix (<[(k.1, k.2) := p]> (matrix c)) c) k'.1 k'.2 =
  if decide (k' = k) then p else head_of c k'.1 k'.2.
Proof.
  unfold head_of. simpl. destruct k as [f l], k' as [f' l']; simpl. case_decide as E.
  - injection E as -> ->. by rewrite lookup_insert_eq.
  - by rewrite lookup_insert_ne by congruence.
Qed.

Lemma sl_of_insert c fl v fl' :
  sl_of (set_sl_bitmap (<[fl := v]> (sl_bitmap c)) c) fl' = if decide (fl' = fl) then v else sl_of c fl'.
Proof.
  unfold sl_of. simpl. case_decide as E; [subst; by rewrite lookup_insert_eq|by rewrite lookup_insert_ne by done].
Qed.

(** ** Updates of the tables *)

(** One class gets the list [l]. *)
Lemma tables_ok_update fls c c' k l :
  tables_ok fls c -> in_table k ->
  (forall k', in_table k' -> head_of c' k'.1 k'.2 = if decide (k' = k) then hd NULL l else head_of c k'.1 k'.2) ->
  (forall fl, fl <> k.1 -> sl_of c' fl = sl_of c fl) ->
  0 <= sl_of c' k.1 < 2 ^ 32 ->
  (forall j, 0 <= j < 32 -> Z.testbit (sl_of c' k.1) j =
     if decide (j = k.2) then bool_decide (l <> []) else Z.testbit (sl_of c k.1) j) ->
  (forall j, 0 <= j < REAL_FLI -> Z.testbit (fl_bitmap c') j =
     if decide (j = k.1) then bool_decide (sl_of c' k.1 <> 0) else Z.testbit (fl_bitmap c) j) ->
  0 <= fl_bitmap c' < 2 ^ REAL_FLI ->
  tables_ok (<[k := l]> fls) c'.
Proof.
  intros [Hh Hb Hs Hf Hr] Hk Hh' Hs' Hsr' Hb' Hf' Hr'. split; [| | | |done].
  - intros k' Hk'. rewrite Hh' by done. destruct (decide (k' = k)) as [->|E]; [by rewrite fn_lookup_insert|].
    rewrite fn_lookup_insert_ne by done. by apply Hh.
  - intros k' Hk'. destruct (decide (k'.1 = k.1)) as [E|E].
    + rewrite E, Hb' by (destruct Hk'; done). destruct (decide (k'.2 = k.2)) as [E2|E2].
      * assert (k' = k) as -> by (destruct k, k'; simpl in *; congruence). by rewrite fn_lookup_insert.
      * rewrite fn_lookup_insert_ne by congruence. rewrite <- E. by apply Hb.
    + rewrite Hs', fn_lookup_insert_ne by congruence. by apply Hb.
  - intros fl Hfl. destruct (decide (fl = k.1)) as [->|E]; [done|]. rewrite Hs' by done. by apply Hs.
  - intros fl Hfl. rewrite Hf' by done. destruct (decide (fl = k.1)) as [->|E]; [done|]. rewrite Hs' by done. by apply Hf.
Qed.

Definition put_class (k : Z * Z) (p w f : Z) (c : tlsf) : tlsf :=
  set_fl_bitmap f (set_sl_bitmap (<[k.1 := w]> (sl_bitmap c)) (set_matrix (<[(k.1, k.2) := p]> (matrix c)) c)).

Lemma head_of_put k p w f c k' :
  head_of (put_class k p w f c) k'.1 k'.2 = if decide (k' = k) then p else head_of c k'.1 k'.2.
Proof. exact (head_of_insert c k p k'). Qed.

Lemma sl_of_put k p w f c fl : sl_of (put_class k p w f c) fl = if decide (fl = k.1) then w else sl_of c fl.
Proof. exact (sl_of_insert c k.1 w fl). Qed.

(** A class becomes or stays non-empty. *)
Lemma tables_ok_push fls c k l b :
  tables_ok fls c -> in_table k ->
  tables_ok (<[k := b :: l]> fls)
    (put_class k b (set_bit k.2 (sl_of c k.1)) (set_bit k.1 (fl_bitmap c)) c).
Proof.
  intros Ht Hk. pose proof Ht as [Hh Hb Hs Hf Hr]. pose proof Hk as [Hk1 Hk2].
  unfold REAL_FLI, MAX_FLI, FLI_OFFSET, MAX_SLI in Hk1, Hk2.
  pose proof (Hs k.1 Hk1) as Hw.
  assert (Hw' : 0 <= set_bit k.2 (sl_of c k.1) < 2 ^ 32) by (apply (set_bit_range _ _ 32); lia).
  apply (tables_ok_update fls c); [done|done| | | | | |].
  - intros k' _. apply head_of_put.
  - intros fl Hfl. rewrite sl_of_put. by case_decide.
  - rewrite sl_of_put. by rewrite decide_True.
  - intros j Hj. rewrite sl_of_put, decide_True, set_bit_testbit by lia.
    case_decide; [subst; rewrite bool_decide_eq_true_2, orb_true_r; done|].
    rewrite bool_decide_eq_false_2, orb_false_r by done. done.
  - intros j Hj. rewrite sl_of_put, (decide_True (P := k.1 = k.1)) by done. simpl. rewrite set_bit_testbit by lia.
    case_decide.
    + rewrite bool_decide_eq_true_2, orb_true_r by done. symmetry. apply bool_decide_eq_true_2.
      apply nonzero_bit; [done|]. exists k.2. split; [lia|].
      rewrite set_bit_testbit, bool_decide_eq_true_2, orb_true_r by lia. done.
    + by rewrite bool_decide_eq_false_2, orb_false_r by done.
  - simpl. apply set_bit_range; unfold REAL_FLI, MAX_FLI, FLI_OFFSET in *; lia.
Qed.

(** The first node of a class that stays non-empty changes. *)
Lemma tables_ok_head fls c k l :
  tables_ok fls c -> in_table k -> fls k <> [] -> l <> [] ->
  tables_ok (<[k := l]> fls) (set_matrix (<[(k.1, k.2) := hd NULL l]> (matrix c)) c).
Proof.
  intros Ht Hk Hne Hl. pose proof Ht as [Hh Hb Hs Hf Hr]. pose proof Hk as [Hk1 Hk2].
  apply (tables_ok_update fls c); [done|done| | | | | |done].
  - intros k' _. apply head_of_insert.
  - done.
  - by apply Hs.
  - intros j Hj. change (sl_of (set_matrix _ c) k.1) with (sl_of c k.1). case_decide; [subst|done].
    rewrite Hb by done. by rewrite !bool_decide_eq_true_2.
  - intros j Hj. case_decide as E; [|done]. subst. simpl. apply (Hf k.1). done.
Qed.

(** A class becomes empty. *)
Lemma tables_ok_clear fls c k :
  tables_ok fls c -> in_table k ->
  let w := clear_bit k.2 (sl_of c k.1) in
  tables_ok (<[k := []]> fls)
    (put_class k NULL w (if w =? 0 then clear_bit k.1 (fl_bitmap c) else fl_bitmap c) c).
Proof.
  intros Ht Hk w. pose proof Ht as [Hh Hb Hs Hf Hr]. pose proof Hk as [Hk1 Hk2].
  unfold REAL_FLI, MAX_FLI, FLI_OFFSET, MAX_SLI in Hk1, Hk2. pose proof (Hs k.1 Hk1) as Hw.
  assert (Hw' : 0 <= w < 2 ^ 32) by (apply (clear_bit_range _ _ 32); lia).
  assert (Hr32 : fl_bitmap c < 2 ^ 32) by (unfold REAL_FLI, MAX_FLI, FLI_OFFSET in *; lia).
  apply (tables_ok_update fls c); [done|done| | | | | |].
  - intros k' _. apply head_of_put.
  - intros fl Hfl. rewrite sl_of_put. by case_decide.
  - rewrite sl_of_put. by rewrite decide_True.
  - intros j Hj. rewrite sl_of_put, decide_True by done. subst w. rewrite clear_bit_testbit by lia.
    case_decide; [subst; rewrite (bool_decide_eq_true_2 (k.2 = k.2)), andb_false_r by done; done|].
    by rewrite bool_decide_eq_false_2, andb_true_r by done.
  - intros j Hj. rewrite sl_of_put, (decide_True (P := k.1 = k.1)) by done. simpl.
    destruct (Z.eqb_spec w 0) as [E|E].
    + rewrite clear_bit_testbit by lia. case_decide.
      * subst. rewrite bool_decide_eq_true_2, andb_false_r by done. symmetry. apply bool_decide_eq_false_2. lia.
      * by rewrite bool_decide_eq_false_2, andb_true_r by done.
    + case_decide; [|done]. subst. rewrite Hf by done. rewrite !bool_decide_eq_true_2; [done|done|].
      intros H0. apply E. subst w. rewrite H0. unfold clear_bit. apply Z.land_0_l.
  - simpl. destruct (Z.eqb_spec w 0); [|done]. apply clear_bit_range; unfold REAL_FLI, MAX_FLI, FLI_OFFSET in *; lia.
Qed.

(** ** Updates of the links *)

(** One class gets the list [l], whose nodes are those of the class before and [b]. *)
Lemma links_ok_update fls m m' k l b :
  links_ok fls m -> in_table k ->
  b <> NULL -> (forall x, member fls x -> x = b \/ apart b x) ->
  (forall k', in_table k' -> b ∈ fls k' -> k' = k) ->
  (forall a, a ∈ l -> a ∈ fls k \/ a = b) -> NoDup l -> dllseg m' NULL l NULL ->
  (forall k' a, in_table k' -> k' <> k -> a ∈ fls k' ->
     m' !! a_prev a = m !! a_prev a /\ m' !! a_next a = m !! a_next a) ->
  links_ok (<[k := l]> fls) m'.
Proof.
  intros [Hl Hn Hu Ha H0] Hk Hb0 Hba Hbu Hsub Hnd Hdl Hfr.
  assert (Hm : forall a, member (<[k := l]> fls) a -> member fls a \/ a = b).
  { intros a (k' & Hk' & Hin). destruct (decide (k' = k)) as [->|E].
    - rewrite fn_lookup_insert in Hin. destruct (Hsub a Hin); [left; by exists k|by right].
    - rewrite fn_lookup_insert_ne in Hin by done. left. by exists k'. }
  split.
  - intros k' Hk'. destruct (decide (k' = k)) as [->|E]; [by rewrite fn_lookup_insert|].
    rewrite fn_lookup_insert_ne by done. apply (dllseg_frame m); [|by apply Hl].
    intros a Hin. by apply (Hfr k').
  - intros k' Hk'. destruct (decide (k' = k)) as [->|E]; [by rewrite fn_lookup_insert|].
    rewrite fn_lookup_insert_ne by done. by apply Hn.
  - assert (Hone : forall k' a, in_table k' -> a ∈ l -> a ∈ fls k' -> k' = k).
    { intros k' a Hk' Hin Hin'. destruct (Hsub a Hin) as [Hin2| ->]; eauto. }
    intros k1 k2 a Hk1 Hk2. destruct (decide (k1 = k)) as [->|E1], (decide (k2 = k)) as [->|E2];
      rewrite ?fn_lookup_insert, ?fn_lookup_insert_ne by done; intros H1 H2; [done| | |by eauto].
    + symmetry. by eapply Hone.
    + by eapply Hone.
  - intros a c Hma Hmc. destruct (Hm a Hma) as [Ha'| ->], (Hm c Hmc) as [Hc'| ->]; auto.
    + destruct (Hba a Ha') as [->|]; [by left|right; by apply apart_sym_hdr].
    + destruct (Hba c Hc') as [->|]; [by left|by right].
  - intros a Hma. destruct (Hm a Hma) as [Ha'| ->]; auto.
Qed.

(** Nodes of one list: equal or apart. *)
Lemma class_apart fls m k k' a b : links_ok fls m -> in_table k -> in_table k' ->
  a ∈ fls k -> b ∈ fls k' -> a <> b -> apart a b.
Proof.
  intros Hok Hk Hk' Ha Hb Hne. destruct (lo_apart _ _ Hok a b); [by exists k|by exists k'|done..].
Qed.

Definition fresh_node (fls : classes) (b : Z) : Prop := b <> NULL /\ forall a, member fls a -> apart b a.

(** The memory after [INSERT_BLOCK] on the list with the head [h]. *)
Definition push_mem (b h : Z) (m : gmap Z Z) : gmap Z Z :=
  let m := <[a_next b := h]> (<[a_prev b := NULL]> m) in
  if h =? NULL then m else <[a_prev h := b]> m.

(** The memory after [EXTRACT_BLOCK] between [p] and [n]. *)
Definition unlink_mem (b p n : Z) (m : gmap Z Z) : gmap Z Z :=
  let m := if n =? NULL then m else <[a_prev n := p]> m in
  let m := if p =? NULL then m else <[a_next p := n]> m in
  <[a_next b := NULL]> (<[a_prev b := NULL]> m).

Lemma push_mem_other b h m x : (h <> NULL -> x <> a_prev h) -> x <> a_prev b -> x <> a_next b ->
  push_mem b h m !! x = m !! x.
Proof.
  intros. unfold push_mem. destruct (Z.eqb_spec h NULL); rewrite !lookup_insert_ne by (apply not_eq_sym; auto); done.
Qed.

Lemma unlink_mem_other b p n m x : (n <> NULL -> x <> a_prev n) -> (p <> NULL -> x <> a_next p) ->
  x <> a_prev b -> x <> a_next b -> unlink_mem b p n m !! x = m !! x.
Proof.
  intros. unfold unlink_mem. rewrite !lookup_insert_ne by (apply not_eq_sym; auto).
  destruct (Z.eqb_spec p NULL), (Z.eqb_spec n NULL); rewrite ?lookup_insert_ne by (apply not_eq_sym; auto); done.
Qed.

Lemma links_ok_push fls m k b :
  links_ok fls m -> in_table k -> fresh_node fls b ->
  links_ok (<[k := b :: fls k]> fls) (push_mem b (hd NULL (fls k)) m).
Proof.
  intros Hok Hk [Hb0 Hb].
  assert (Hbn : forall k', in_table k' -> b ∉ fls k').
  { intros k' Hk' Hin. specialize (Hb b ltac:(by exists k')). unfold apart in Hb. lia. }
  apply (links_ok_update fls m _ k _ b); [done|done|done|auto| | | | |].
  - intros k' Hk' Hin. by destruct (Hbn k' Hk').
  - set_solver.
  - constructor; [by apply Hbn|by apply (lo_nodup _ _ Hok)].
  - pose proof (lo_links _ _ Hok k Hk) as Hd. pose proof (lo_nodup _ _ Hok k Hk) as Hnd.
    assert (Hap : forall a, a ∈ fls k -> apart b a) by (intros a Ha; apply Hb; by exists k).
    assert (Hlap : forall a c, a ∈ fls k -> c ∈ fls k -> a <> c -> apart a c)
      by (intros a c Ha Hc Hac; by apply (class_apart fls m k k)).
    assert (Hnn : forall a, a ∈ fls k -> a <> NULL) by (intros a Ha; apply (lo_nonnull _ _ Hok); by exists k).
    unfold push_mem. destruct (fls k) as [|h l]; simpl hd.
    + simpl. rewrite lookup_insert_ne, !lookup_insert_eq by addr. done.
    + destruct (Z.eqb_spec h NULL) as [E|_]; [destruct (Hnn h); [set_solver|done]|].
      assert (Hbh : apart b h) by (apply Hap; set_solver).
      split; [|split].
      * rewrite !lookup_insert_ne, lookup_insert_eq by addr. done.
      * rewrite lookup_insert_ne, lookup_insert_eq by addr. done.
      * apply (dllseg_set_prev _ NULL).
        { intros c Hc. apply Hlap; [set_solver|set_solver|]. intros ->. by apply NoDup_cons_1_1 in Hnd. }
        by apply dllseg_upd_next, dllseg_upd_prev.
  - intros k' a Hk' Hne Ha. assert (Hba : apart b a) by (apply Hb; by exists k').
    assert (Hha : hd NULL (fls k) <> NULL -> apart (hd NULL (fls k)) a).
    { intros Hh. destruct (fls k) as [|h l] eqn:E; [done|]. simpl.
      apply (class_apart fls m k k'); [done|done|done|rewrite E; set_solver|done|].
      intros ->. apply Hne. apply (lo_unique _ _ Hok k' k a); [done|done|done|rewrite E; set_solver]. }
    split; apply push_mem_other; intros; try specialize (Hha ltac:(done)); addr.
Qed.

Lemma last_or_in p l : l <> [] -> last_or p l ∈ l.
Proof.
  revert p. induction l as [|a l IH]; intros p Hl; [done|]. simpl.
  destruct l as [|b l]; [simpl; set_solver|]. specialize (IH a ltac:(done)). set_solver.
Qed.

Lemma last_or_snoc l : l <> [] -> exists l0 z, l = l0 ++ [z] /\ forall p, last_or p l = z.
Proof.
  intros Hl. destruct (exists_last Hl) as (l0 & z & ->). exists l0, z. split; [done|].
  induction l0 as [|a l0 IH]; intros p; [done|]. simpl. apply IH. by destruct l0.
Qed.

(** The list without [b], after its neighbours were linked with each other. *)
Lemma dllseg_unlink m l1 b l2 :
  (forall a c, a ∈ l1 ++ b :: l2 -> c ∈ l1 ++ b :: l2 -> a <> c -> apart a c) ->
  (forall a, a ∈ l1 ++ b :: l2 -> a <> NULL) -> NoDup (l1 ++ b :: l2) ->
  dllseg m NULL (l1 ++ b :: l2) NULL ->
  dllseg (unlink_mem b (last_or NULL l1) (hd NULL l2) m) NULL (l1 ++ l2) NULL.
Proof.
  intros Hap H0 Hnd Hd. apply dllseg_app in Hd as (Hd1 & _ & _ & Hd2). simpl in Hd1.
  pose proof Hnd as (Hnd1 & Hdisj & (Hb2 & Hnd2)%NoDup_cons)%NoDup_app.
  assert (Hb1 : b ∉ l1) by (intros Hin; apply (Hdisj b Hin); set_solver).
  assert (Hx : forall x, x ∈ l1 \/ x ∈ l2 -> apart b x).
  { intros x Hx. apply Hap; [set_solver|set_solver|]. intros ->. tauto. }
  assert (H12 : forall x y, x ∈ l1 -> y ∈ l2 -> apart x y).
  { intros x y Hx1 Hy2. apply Hap; [set_solver|set_solver|]. intros ->. apply (Hdisj y Hx1). set_solver. }
  unfold unlink_mem. set (m1 := if hd NULL l2 =? NULL then m else _).
  assert (Hm1 : dllseg m1 NULL l1 b /\ dllseg m1 (last_or NULL l1) l2 NULL).
  { subst m1. destruct l2 as [|n l2]; simpl hd; [done|].
    destruct (Z.eqb_spec n NULL) as [E|_]; [destruct (H0 n); [set_solver|done]|]. split.
    - apply dllseg_upd_prev; [|done]. intros a Ha. apply apart_sym_hdr, H12; [done|set_solver].
    - apply (dllseg_set_prev _ b); [|done]. intros a Ha. apply Hap; [set_solver|set_solver|].
      intros ->. by apply NoDup_cons_1_1 in Hnd2. }
  clearbody m1. set (m2 := if last_or NULL l1 =? NULL then m1 else _).
  assert (Hm2 : dllseg m2 NULL l1 (hd NULL l2) /\ dllseg m2 (last_or NULL l1) l2 NULL).
  { subst m2. destruct (decide (l1 = [])) as [->|Hl1]; [done|].
    destruct (last_or_snoc l1 Hl1) as (l0 & z & -> & Hz). rewrite !Hz in *.
    destruct (Z.eqb_spec z NULL) as [E|_]; [destruct (H0 z); [set_solver|done]|]. split.
    - apply (dllseg_set_next _ _ _ _ b); [|tauto]. intros a Ha. apply Hap; [set_solver|set_solver|].
      intros ->. apply NoDup_app in Hnd1 as (_ & Hnd1 & _). apply (Hnd1 a Ha). set_solver.
    - apply dllseg_upd_next; [|tauto]. intros a Ha. apply H12; [set_solver|done]. }
  clearbody m2. apply dllseg_app. split; apply dllseg_upd_next, dllseg_upd_prev; try tauto; intros a Ha; apply Hx; tauto.
Qed.

Lemma links_ok_unlink fls m k l1 b l2 :
  links_ok fls m -> in_table k -> fls k = l1 ++ b :: l2 ->
  links_ok (<[k := l1 ++ l2]> fls) (unlink_mem b (last_or NULL l1) (hd NULL l2) m).
Proof.
  intros Hok Hk Hf. assert (Hbk : b ∈ fls k) by (rewrite Hf; set_solver).
  assert (Hsub : forall a, a ∈ l1 ++ l2 -> a ∈ fls k) by (rewrite Hf; set_solver).
  pose proof (lo_nodup _ _ Hok k Hk) as Hnd. rewrite Hf in Hnd.
  apply (links_ok_update fls m _ k _ b); [done|done| | | | | | |].
  - apply (lo_nonnull _ _ Hok). by exists k.
  - intros x Hx. destruct (lo_apart _ _ Hok b x); [by exists k|done|by left|by right].
  - intros k' Hk' Hin. by apply (lo_unique _ _ Hok k' k b).
  - auto.
  - apply NoDup_app in Hnd as (Hn1 & Hd & Hn2). apply NoDup_cons in Hn2 as [_ Hn2].
    apply NoDup_app. split; [done|]. split; [|done]. intros x Hx1 Hx2. apply (Hd x Hx1). set_solver.
  - apply dllseg_unlink; [| |done|].
    + intros a c Ha Hc Hne. apply (class_apart fls m k k); by rewrite ?Hf.
    + intros a Ha. apply (lo_nonnull _ _ Hok). exists k. by rewrite Hf.
    + rewrite <- Hf. by apply (lo_links _ _ Hok).
  - intros k' a Hk' Hne Ha.
    assert (Hap : forall x, x ∈ fls k -> apart x a).
    { intros x Hx. apply (class_apart fls m k k'); [done..|]. intros ->. apply Hne.
      by apply (lo_unique _ _ Hok k' k a). }
    assert (Hn : hd NULL l2 <> NULL -> apart (hd NULL l2) a).
    { intros H0. apply Hap. rewrite Hf. destruct l2; [done|]. simpl. set_solver. }
    assert (Hp : last_or NULL l1 <> NULL -> apart (last_or NULL l1) a).
    { intros H0. apply Hap. rewrite Hf. destruct (decide (l1 = [])) as [->|]; [done|].
      pose proof (last_or_in NULL l1). set_solver. }
    pose proof (Hap b Hbk). split; apply unlink_mem_other; intros;
      repeat match goal with H : ?x <> NULL -> _, H' : ?x <> NULL |- _ => specialize (H H') end; addr.
Qed.

(** ** Specifications of the list operations *)

Definition lists_ok (fls : classes) (s : tstate) : Prop := tables_ok fls (ts_ctl s) /\ links_ok fls (ts_mem s).

(** The links of the nodes are in memory given to the allocator. *)
Definition links_ram (in_ram : Z -> bool) (a : Z) : Prop := in_ram (a_prev a) = true /\ in_ram (a_next a) = true.

Section Specs.
Context (in_ram : Z -> bool).

Lemma INSERT_BLOCK_spec fls k b s :
  lists_ok fls s -> in_table k -> fresh_node fls b ->
  links_ram in_ram b -> (forall a, member fls a -> links_ram in_ram a) ->
  wp (INSERT_BLOCK in_ram b k.1 k.2) (fun _ s' =>
    lists_ok (<[k := b :: fls k]> fls) s' /\ links_frame (fun a => a = b \/ member fls a) s s') s.
Proof.
  intros [Ht Hl] Hk Hb [Hr1 Hr2] Hr. unfold INSERT_BLOCK.
  assert (Hhd : head_of (ts_ctl s) k.1 k.2 = hd NULL (fls k)) by by apply (to_head _ _ Ht).
  wp_step. apply wp_st; [done|]. wp_step. apply wp_mat_get; [done|].
  wp_step. apply wp_st; [done|]. simpl. rewrite Hhd.
  set (s1 := TState (ts_ctl s) (push_mem b (hd NULL (fls k)) (ts_mem s)) (ts_mp s)).
  wp_step. apply (wp_mono _ (fun _ s' => s' = s1)).
  { unfold when, s1, push_mem. destruct (Z.eqb_spec (hd NULL (fls k)) NULL) as [E|E]; simpl.
    - apply wp_ret. done.
    - apply wp_st; [|done]. apply Hr. exists k. split; [done|]. destruct (fls k); [done|]. simpl. set_solver. }
  intros _ s' ->. wp_step. apply wp_mat_set; [done|]. wp_step. apply wp_sl_get; [apply Hk|].
  wp_step. apply wp_sl_set; [apply Hk|]. wp_step. wp_step. unfold fl_set. apply wp_modify.
  split; [split|].
  - apply (tables_ok_push fls (ts_ctl s) k (fls k) b); done.
  - by apply links_ok_push.
  - split; [|done|done]. intros x Hx. simpl. apply push_mem_other.
    + intros Hne. apply (Hx (hd NULL (fls k))). right. exists k. split; [done|]. destruct (fls k); [done|]. simpl. set_solver.
    + apply (Hx b). by left.
    + apply (Hx b). by left.
Qed.

(** The class that lost its last node. *)
Lemma clear_class_spec k (Q : unit -> tstate -> Prop) s :
  in_table k ->
  (let w := clear_bit k.2 (sl_of (ts_ctl s) k.1) in
   Q tt (upd_ctl (fun c => set_fl_bitmap (if w =? 0 then clear_bit k.1 (fl_bitmap c) else fl_bitmap c)
                             (set_sl_bitmap (<[k.1 := w]> (sl_bitmap c)) c)) s)) ->
  wp (clear_class k.1 k.2) Q s.
Proof.
  intros Hk HQ. pose proof Hk as [Hk1 _]. unfold clear_class.
  wp_step. apply wp_sl_get; [done|]. wp_step. apply wp_sl_set; [done|].
  wp_step. apply wp_sl_get; [done|]. simpl. rewrite sl_of_insert, decide_True by done.
  unfold when. simpl in HQ. destruct (Z.eqb_spec (clear_bit k.2 (sl_of (ts_ctl s) k.1)) 0); simpl.
  - wp_step. wp_step. unfold fl_set. by apply wp_modify.
  - apply wp_ret. by destruct s as [[] ? ?].
Qed.

(** What the extraction of [b] from [l1 ++ b :: l2] leaves. *)
Definition extracted (fls : classes) (k : Z * Z) (b : Z) (l1 l2 : list Z) (s s' : tstate) : Prop :=
  lists_ok (<[k := l1 ++ l2]> fls) s' /\ links_frame (member fls) s s' /\
  ts_mem s' !! a_prev b = Some NULL /\ ts_mem s' !! a_next b = Some NULL.

Lemma extracted_intro fls k b l1 l2 s c' :
  lists_ok fls s -> in_table k -> fls k = l1 ++ b :: l2 ->
  tables_ok (<[k := l1 ++ l2]> fls) c' ->
  book c' = book (ts_ctl s) ->
  extracted fls k b l1 l2 s
    (TState c' (unlink_mem b (last_or NULL l1) (hd NULL l2) (ts_mem s)) (ts_mp s)).
Proof.
  intros [Ht Hl] Hk Hf Ht' Hc. assert (Hm : forall a, a ∈ l1 ++ b :: l2 -> member fls a).
  { intros a Ha. exists k. by rewrite Hf. }
  split; [split; [done|by apply links_ok_unlink]|]. split; [|split].
  - split; [|done|done]. intros x Hx. apply unlink_mem_other.
    + intros Hn. apply Hx, Hm. destruct l2; [done|]. set_solver.
    + intros Hn. apply Hx, Hm. destruct (decide (l1 = [])) as [->|]; [done|]. pose proof (last_or_in NULL l1). set_solver.
    + apply (Hx b), Hm. set_solver.
    + apply (Hx b), Hm. set_solver.
  - unfold unlink_mem. simpl. by rewrite lookup_insert_ne, lookup_insert_eq by addr.
  - unfold unlink_mem. simpl. by rewrite lookup_insert_eq.
Qed.

(** The links of a node on a list. *)
Lemma node_links fls k b l1 l2 s :
  lists_ok fls s -> in_table k -> fls k = l1 ++ b :: l2 ->
  ts_mem s !! a_prev b = Some (last_or NULL l1) /\ ts_mem s !! a_next b = Some (hd NULL l2).
Proof.
  intros [_ Hl] Hk Hf. pose proof (lo_links _ _ Hl k Hk) as Hd. rewrite Hf in Hd.
  apply dllseg_app in Hd as (_ & Hp & Hn & _). done.
Qed.

Lemma tables_ok_same fls c k l :
  tables_ok fls c -> in_table k -> fls k <> [] -> l <> [] -> hd NULL l = hd NULL (fls k) ->
  tables_ok (<[k := l]> fls) c.
Proof.
  intros Ht Hk Hne Hl Hh. pose proof (tables_ok_head fls c k l Ht Hk Hne Hl) as [A B C D E].
  split; [|exact B|exact C|exact D|exact E].
  intros k' Hk'. rewrite <- A by done. rewrite head_of_insert.
  destruct (decide (k' = k)) as [->|]; [|done]. rewrite Hh. by apply (to_head _ _ Ht).
Qed.

(** The head [b] of a list leaves the tables. *)
Lemma tables_ok_pop fls c k b l2 :
  tables_ok fls c -> in_table k -> fls k = b :: l2 -> (forall a, a ∈ l2 -> a <> NULL) ->
  tables_ok (<[k := l2]> fls)
    (if hd NULL l2 =? NULL then
       let w := clear_bit k.2 (sl_of c k.1) in
       put_class k NULL w (if w =? 0 then clear_bit k.1 (fl_bitmap c) else fl_bitmap c) c
     else set_matrix (<[(k.1, k.2) := hd NULL l2]> (matrix c)) c).
Proof.
  intros Ht Hk Hf H0. destruct l2 as [|n l2]; simpl hd.
  - by apply tables_ok_clear.
  - destruct (Z.eqb_spec n NULL) as [E|_]; [destruct (H0 n); [set_solver|done]|].
    apply (tables_ok_head fls c k (n :: l2)); [done|done|by rewrite Hf|done].
Qed.

Lemma list_nonnull fls k l1 b l2 s :
  lists_ok fls s -> in_table k -> fls k = l1 ++ b :: l2 -> forall a, a ∈ l1 ++ b :: l2 -> a <> NULL.
Proof. intros [_ Hl] Hk Hf a Ha. apply (lo_nonnull _ _ Hl). exists k. by rewrite Hf. Qed.

Lemma EXTRACT_BLOCK_HDR_spec fls k b l2 s :
  lists_ok fls s -> in_table k -> fls k = b :: l2 -> (forall a, member fls a -> links_ram in_ram a) ->
  wp (EXTRACT_BLOCK_HDR in_ram b k.1 k.2) (fun _ s' => extracted fls k b [] l2 s s') s.
Proof.
  intros Hok Hk Hf Hr. unfold EXTRACT_BLOCK_HDR.
  destruct (node_links fls k b [] l2 s Hok Hk Hf) as [Hp Hn].
  pose proof (list_nonnull fls k [] b l2 s Hok Hk Hf) as H0.
  assert (Hm : forall a, a ∈ b :: l2 -> links_ram in_ram a) by (intros a Ha; apply Hr; exists k; by rewrite Hf).
  pose proof (tables_ok_pop fls (ts_ctl s) k b l2 (proj1 Hok) Hk Hf ltac:(set_solver)) as Ht'.
  destruct (Hm b ltac:(set_solver)) as [Hrp Hrn].
  pose proof (extracted_intro fls k b [] l2 s _ Hok Hk Hf Ht' ltac:(by case_match)) as Hex.
  simpl in Hex. unfold unlink_mem in Hex. change (NULL =? NULL) with true in Hex. cbv iota in Hex.
  wp_step. eapply wp_ld; [done|]. wp_step. apply wp_mat_set; [done|]. wp_step.
  destruct (Z.eqb_spec (hd NULL l2) NULL) as [E|E]; simpl negb; cbv iota.
  - apply clear_class_spec; [done|]. cbv zeta. wp_step. apply wp_st; [done|]. apply wp_st; [done|].
    rewrite E in *. exact Hex.
  - apply wp_st; [apply Hm; destruct l2; [done|]; simpl; set_solver|].
    wp_step. apply wp_st; [done|]. apply wp_st; [done|]. exact Hex.
Qed.

Lemma EXTRACT_BLOCK_spec fls k b l1 l2 s :
  lists_ok fls s -> in_table k -> fls k = l1 ++ b :: l2 -> (forall a, member fls a -> links_ram in_ram a) ->
  wp (EXTRACT_BLOCK in_ram b k.1 k.2) (fun _ s' => extracted fls k b l1 l2 s s') s.
Proof.
  intros Hok Hk Hf Hr. unfold EXTRACT_BLOCK.
  destruct (node_links fls k b l1 l2 s Hok Hk Hf) as [Hp Hn].
  pose proof (list_nonnull fls k l1 b l2 s Hok Hk Hf) as H0.
  assert (Hm : forall a, a ∈ l1 ++ b :: l2 -> links_ram in_ram a) by (intros a Ha; apply Hr; exists k; by rewrite Hf).
  destruct (Hm b ltac:(set_solver)) as [Hrp Hrn].
  wp_step. eapply wp_ld; [done|]. wp_step. eapply wp_ld; [done|].
  wp_step. set (s1 := upd_tmem (fun m => if hd NULL l2 =? NULL then m else <[a_prev (hd NULL l2) := last_or NULL l1]> m) s).
  apply (wp_mono _ (fun _ s' => s' = s1)).
  { unfold when, s1. destruct (Z.eqb_spec (hd NULL l2) NULL); simpl; [by destruct s|].
    apply wp_st; [|done]. apply Hm. destruct l2; [done|]. simpl. set_solver. }
  intros _ ? ->. wp_step.
  set (s2 := upd_tmem (fun m => if last_or NULL l1 =? NULL then m else <[a_next (last_or NULL l1) := hd NULL l2]> m) s1).
  apply (wp_mono _ (fun _ s' => s' = s2)).
  { unfold when, s2. destruct (Z.eqb_spec (last_or NULL l1) NULL); simpl; [by destruct s1|].
    apply wp_st; [|done]. apply Hm. destruct (decide (l1 = [])) as [->|]; [done|].
    pose proof (last_or_in NULL l1). set_solver. }
  intros _ ? ->. wp_step. apply wp_mat_get; [done|].
  change (head_of (ts_ctl s2) k.1 k.2) with (head_of (ts_ctl s) k.1 k.2).
  rewrite (to_head _ _ (proj1 Hok)), Hf by done. wp_step.
  destruct l1 as [|h l1]; simpl hd.
  - pose proof (tables_ok_pop fls (ts_ctl s) k b l2 (proj1 Hok) Hk Hf ltac:(set_solver)) as Ht'.
    pose proof (extracted_intro fls k b [] l2 s _ Hok Hk Hf Ht' ltac:(by case_match)) as Hex.
    rewrite Z.eqb_refl. unfold when at 1. wp_step. apply wp_mat_set; [done|].
    unfold when. simpl in Hex. unfold unlink_mem in Hex. destruct (Z.eqb_spec (hd NULL l2) NULL) as [E|E].
    + rewrite E in *. apply clear_class_spec; [done|]. cbv zeta. wp_step. apply wp_st; [done|]. apply wp_st; [done|].
      subst s1 s2. simpl last_or. rewrite E. exact Hex.
    + apply wp_ret. wp_step. apply wp_st; [done|]. apply wp_st; [done|]. subst s1 s2. simpl last_or.
      destruct (Z.eqb_spec (hd NULL l2) NULL); [done|]. exact Hex.
  - assert (h <> b) as Hhb.
    { intros ->. pose proof (lo_nodup _ _ (proj2 Hok) k Hk) as Hnd. rewrite Hf in Hnd.
      apply NoDup_cons in Hnd as [Hni _]. set_solver. }
    destruct (Z.eqb_spec h b); [done|]. unfold when. apply wp_ret.
    wp_step. apply wp_st; [done|]. apply wp_st; [done|].
    apply (extracted_intro fls k b (h :: l1) l2 s (ts_ctl s)); [done..| |done].
    apply tables_ok_same; [apply Hok|done|by rewrite Hf|done|by rewrite Hf].
Qed.

(** A bit of the second level says that the list is not empty. *)
Lemma bit_head fls c k : tables_ok fls c -> in_table k -> Z.testbit (sl_of c k.1) k.2 = true ->
  exists l, fls k = head_of c k.1 k.2 :: l.
Proof.
  intros Ht Hk Hb. rewrite (to_bit _ _ Ht) in Hb by done. apply bool_decide_eq_true in Hb.
  rewrite (to_head _ _ Ht) by done. destruct (fls k) as [|b l]; [done|]. by exists l.
Qed.

Lemma bit_empty fls c k : tables_ok fls c -> in_table k -> Z.testbit (sl_of c k.1) k.2 = false -> fls k = [].
Proof.
  intros Ht Hk Hb. rewrite (to_bit _ _ Ht) in Hb by done. apply bool_decide_eq_false in Hb.
  destruct (fls k); [done|]. by destruct Hb.
Qed.

(** What the search returns: the head of the first list from class [k] on that is not
    empty, or NULL when there is none. *)
Definition suitable (fls : classes) (k : Z * Z) (b : Z) (k' : Z * Z) : Prop :=
  (b = NULL /\ forall j, in_table j -> cls_le k j -> fls j = []) \/
  (in_table k' /\ cls_le k k' /\ (exists l, fls k' = b :: l) /\
   forall j, in_table j -> cls_le k j -> fls j <> [] -> cls_le k' j).

Lemma FIND_SUITABLE_BLOCK_spec fls k s :
  lists_ok fls s -> in_table k ->
  wp (FIND_SUITABLE_BLOCK k.1 k.2) (fun r s' => s' = s /\ suitable fls k r.1.1 (r.1.2, r.2)) s.
Proof.
  intros [Ht _] Hk. pose proof Hk as [Hk1 Hk2].
  unfold REAL_FLI, MAX_FLI, FLI_OFFSET, MAX_SLI in Hk1, Hk2.
  unfold FIND_SUITABLE_BLOCK. wp_step. apply wp_sl_get; [done|]. cbv zeta.
  pose proof (to_sl _ _ Ht k.1 Hk1) as Hw.
  pose proof (ls_bit_from _ k.2 Hw ltac:(lia)) as Hb. cbv zeta in Hb.
  destruct (Z.eqb_spec (Z.land (sl_of (ts_ctl s) k.1) (mask_from k.2)) 0) as [E|E]; simpl negb; cbv iota.
  - destruct Hb as [_ Hnone]. wp_step. wp_step.
    pose proof (to_fl_range _ _ Ht) as Hr. unfold REAL_FLI, MAX_FLI, FLI_OFFSET in Hr.
    pose proof (ls_bit_from (fl_bitmap (ts_ctl s)) (k.1 + 1) ltac:(lia) ltac:(lia)) as Hf. cbv zeta in Hf.
    set (fl := ls_bit (Z.land (fl_bitmap (ts_ctl s)) (mask_from (k.1 + 1)))) in *.
    assert (Hsame : forall j, in_table j -> j.1 = k.1 -> k.2 <= j.2 -> fls j = []).
    { intros j Hj E1 E2. apply (bit_empty _ (ts_ctl s)); [done|done|]. rewrite E1. by apply Hnone. }
    assert (Hrow : forall j, in_table j -> Z.testbit (fl_bitmap (ts_ctl s)) j.1 = false -> fls j = []).
    { intros j Hj Hz. rewrite (to_fl _ _ Ht) in Hz by apply Hj. apply bool_decide_eq_false in Hz.
      apply (bit_empty _ (ts_ctl s)); [done|done|]. assert (sl_of (ts_ctl s) j.1 = 0) as -> by lia. apply Z.bits_0. }
    destruct (Z.eqb_spec (Z.land (fl_bitmap (ts_ctl s)) (mask_from (k.1 + 1))) 0) as [E'|E'].
    + destruct Hf as [-> Hf]. simpl. apply wp_ret. split; [done|]. left. split; [done|].
      intros j Hj [Hlt|[Heq Hle]]; [|by apply Hsame]. apply Hrow; [done|]. apply Hf. lia.
    + destruct Hf as (Hfr & Hft & Hfl). destruct (Z.ltb_spec 0 fl); [|lia].
      assert (Hfl13 : fl < 13).
      { destruct (Z_lt_dec fl 13); [done|]. rewrite (bits_above _ 13 fl) in Hft by lia. done. }
      assert (Hrfl : 0 <= fl < REAL_FLI) by (unfold REAL_FLI, MAX_FLI, FLI_OFFSET; lia).
      pose proof (to_sl _ _ Ht fl Hrfl) as Hw2. rewrite (to_fl _ _ Ht) in Hft by done.
      apply bool_decide_eq_true in Hft.
      destruct (ls_bit_spec (sl_of (ts_ctl s) fl) ltac:(lia)) as (Hsr & Hst & Hsl).
      set (k' := (fl, ls_bit (sl_of (ts_ctl s) fl))).
      assert (Hk' : in_table k') by (split; simpl; unfold MAX_SLI; lia).
      wp_step. apply wp_sl_get; [done|]. wp_step. apply (wp_mat_get k'); [done|]. apply wp_ret. split; [done|].
      right. split; [done|]. split; [left; simpl; lia|]. split; [by apply (bit_head _ (ts_ctl s) k')|].
      intros j Hj Hc Hne. destruct (Z_lt_dec j.1 fl) as [Hlt|Hge].
      { destruct Hne. destruct Hc as [Hlt'|[Heq Hle]]; [|by apply Hsame]. apply Hrow; [done|]. apply Hfl. lia. }
      destruct (decide (j.1 = fl)) as [Heq|]; [|left; simpl; lia]. right. split; [done|]. simpl.
      destruct (Z_le_dec (ls_bit (sl_of (ts_ctl s) fl)) j.2); [done|]. destruct Hne.
      apply (bit_empty _ (ts_ctl s)); [done|done|]. rewrite Heq. apply Hsl. destruct Hj. lia.
  - destruct Hb as (Hbr & Hbt & Hbl). set (k' := (k.1, ls_bit (Z.land (sl_of (ts_ctl s) k.1) (mask_from k.2)))).
    assert (Hk' : in_table k') by (split; simpl; unfold REAL_FLI, MAX_FLI, FLI_OFFSET, MAX_SLI; lia).
    wp_step. apply (wp_mat_get k'); [done|]. apply wp_ret. split; [done|]. right.
    split; [done|]. split; [right; simpl; lia|]. split; [by apply (bit_head _ (ts_ctl s) k')|].
    intros j Hj [Hlt|[Heq Hle]] Hne; [left; simpl; lia|]. right. split; [done|]. simpl.
    destruct (Z_le_dec (ls_bit (Z.land (sl_of (ts_ctl s) k.1) (mask_from k.2))) j.2); [done|]. destruct Hne.
    apply (bit_empty _ (ts_ctl s)); [done|done|]. rewrite <- Heq. apply Hbl. lia.
Qed.

End Specs.
