(* ===== verification/TlsfProofs.v ===== *)
(** * Correctness of the segregated fit heap

    The row of physical blocks and the free lists describe the same heap: an allocation
    takes a block of the lowest class that surely fits and gives back the rest, a release
    merges the block with its free neighbours, and every access stays inside the pool. *)

From S2P Require Import Prelude.
From S2P Require Import Kernel.
From S2P Require Import Tlsf.
From S2P Require Import TlsfMap.
From S2P Require Import TlsfLists.
From Stdlib Require Import ZArith Lia.
From stdpp Require Import base numbers gmap list functions sorting.
Local Open Scope Z_scope.

(** ** The size word of a header *)

Definition flags (fr pf : bool) : Z := Z.b2z fr + 2 * Z.b2z pf.
Definition tag (sz : Z) (fr pf : bool) : Z := sz + flags fr pf.

(** Sizes of blocks *)
Definition size_ok (sz : Z) : Prop := 0 <= sz < 2 ^ 32 /\ sz mod 8 = 0.

Lemma size_low_bits sz c : sz mod 8 = 0 -> 0 <= c < 8 -> Z.land sz c = 0.
Proof.
  intros Hm Hc. apply Z.bits_inj'. intros n Hn. rewrite Z.land_spec, Z.bits_0.
  destruct (Z_lt_dec n 3) as [Hlt|Hge].
  - assert (Hz : Z.testbit sz n = false).
    { rewrite <- (Z.mod_pow2_bits_low sz 3 n) by lia. change (2 ^ 3) with 8. rewrite Hm. apply Z.bits_0. }
    by rewrite Hz.
  - rewrite (bits_above c 3 n) by lia. apply andb_false_r.
Qed.

Lemma lor_add sz c : sz mod 8 = 0 -> 0 <= c < 8 -> Z.lor sz c = sz + c.
Proof. intros. symmetry. apply Z.add_nocarry_lor. by apply size_low_bits. Qed.

Lemma flags_range fr pf : 0 <= flags fr pf < 4.
Proof. destruct fr, pf; unfold flags; simpl; lia. Qed.

Lemma tag_lor sz fr pf : sz mod 8 = 0 -> tag sz fr pf = Z.lor sz (flags fr pf).
Proof. intros. pose proof (flags_range fr pf). rewrite lor_add by lia. done. Qed.

Lemma land_keep sz c : size_ok sz -> 0 <= c < 8 -> Z.land sz (lnot32 c) = sz.
Proof.
  intros [Hr Hm] Hc. rewrite land_lnot32 by done. rewrite <- Z.ldiff_land.
  pose proof (Z.lor_ldiff_and sz c) as H. rewrite size_low_bits, Z.lor_0_r in H by done. done.
Qed.

Section Tag.
Context (sz : Z) (fr pf : bool) (Hsz : size_ok sz).

Lemma size_of_tag : size_of (tag sz fr pf) = sz.
Proof.
  unfold size_of. change BLOCK_SIZE with (lnot32 3). rewrite tag_lor, Z.land_lor_distr_l by apply Hsz.
  rewrite land_keep by (done || lia). by destruct fr, pf; rewrite Z.lor_0_r.
Qed.

Lemma tag_land c : 0 <= c < 8 -> Z.land (tag sz fr pf) c = Z.land (flags fr pf) c.
Proof.
  intros. rewrite tag_lor, Z.land_lor_distr_l, size_low_bits by (apply Hsz || done). apply Z.lor_0_l.
Qed.

Lemma tag_is_free : (Z.land (tag sz fr pf) FREE_BLOCK =? 0) = negb fr.
Proof. rewrite tag_land by (unfold FREE_BLOCK; lia). by destruct fr, pf. Qed.

Lemma tag_prev_free : (Z.land (tag sz fr pf) PREV_FREE =? 0) = negb pf.
Proof. rewrite tag_land by (unfold PREV_FREE; lia). by destruct fr, pf. Qed.

Lemma tag_set_free : Z.lor (tag sz fr pf) FREE_BLOCK = tag sz true pf.
Proof. rewrite !tag_lor, <- Z.lor_assoc by apply Hsz. f_equal. by destruct fr, pf. Qed.

Lemma tag_set_prev_free : Z.lor (tag sz fr pf) PREV_FREE = tag sz fr true.
Proof. rewrite !tag_lor, <- Z.lor_assoc by apply Hsz. f_equal. by destruct fr, pf. Qed.

Lemma tag_clear_free : Z.land (tag sz fr pf) (lnot32 FREE_BLOCK) = tag sz false pf.
Proof.
  rewrite !tag_lor, Z.land_lor_distr_l, land_keep by (apply Hsz || done). f_equal. by destruct fr, pf.
Qed.

Lemma tag_clear_prev_free : Z.land (tag sz fr pf) (lnot32 PREV_FREE) = tag sz fr false.
Proof.
  rewrite !tag_lor, Z.land_lor_distr_l, land_keep by (apply Hsz || done). f_equal. by destruct fr, pf.
Qed.

(** A used block of another size keeps the state of the block before. *)
Lemma tag_resize n : size_ok n -> Z.lor n (Z.land (tag sz fr pf) PREV_STATE) = tag n false pf.
Proof.
  intros Hn. rewrite tag_land by (unfold PREV_STATE; lia). rewrite tag_lor by apply Hn. f_equal. by destruct fr, pf.
Qed.

End Tag.

Lemma tag_new_free n : size_ok n -> Z.lor (Z.lor n FREE_BLOCK) PREV_USED = tag n true false.
Proof. intros Hn. rewrite Z.lor_0_r, tag_lor by apply Hn. done. Qed.

Lemma tag_grow sz fr pf n : tag sz fr pf + (n + BHDR_OVERHEAD) = tag (sz + 8 + n) fr pf.
Proof. unfold tag. change BHDR_OVERHEAD with 8. lia. Qed.

(** ** The row of physical blocks *)

(** A block: its size and whether it is free. *)
Abbreviation pblk := (Z * bool)%type.

Definition blk_ok (p : pblk) : Prop := 8 <= p.1 /\ p.1 mod 8 = 0.

(** Bytes of a row of blocks with their headers. *)
Fixpoint span (bs : list pblk) : Z :=
  match bs with [] => 0 | (sz, _) :: bs => 8 + sz + span bs end.

(** The header at [a] of a block behind one that starts at [pa] and is free when [pf]. *)
Definition hdr (m : gmap Z Z) (a sz : Z) (fr pf : bool) (pa : Z) : Prop :=
  m !! a_size a = Some (tag sz fr pf) /\ (pf = true -> m !! a_prev_hdr a = Some pa).

(** A row of blocks from [a] to [a'] without free neighbours; [pf] and [pa] describe the
    block before, [pf'] and [pa'] the last one. *)
Fixpoint seg (m : gmap Z Z) (a : Z) (pf : bool) (pa : Z) (bs : list pblk) (a' : Z) (pf' : bool) (pa' : Z) : Prop :=
  match bs with
  | [] => a' = a /\ pf' = pf /\ pa' = pa
  | (sz, fr) :: bs => hdr m a sz fr pf pa /\ blk_ok (sz, fr) /\ pf && fr = false /\
                      seg m (a + 8 + sz) fr a bs a' pf' pa'
  end.

(** A row of blocks up to the sentinel, whose size is zero. *)
Definition chain (m : gmap Z Z) (a : Z) (pf : bool) (pa : Z) (bs : list pblk) : Prop :=
  exists a' pf' pa', seg m a pf pa bs a' pf' pa' /\ hdr m a' 0 false pf' pa'.

(** Addresses of the headers, the sentinel's included. *)
Fixpoint heads (a : Z) (bs : list pblk) : list Z :=
  a :: match bs with [] => [] | (sz, _) :: bs => heads (a + 8 + sz) bs end.

(** Free blocks with their addresses. *)
Fixpoint frees (a : Z) (bs : list pblk) : list (Z * Z) :=
  match bs with
  | [] => []
  | (sz, fr) :: bs => (if fr then [(a, sz)] else []) ++ frees (a + 8 + sz) bs
  end.

Lemma span_app l1 l2 : span (l1 ++ l2) = span l1 + span l2.
Proof. induction l1 as [|[sz fr] l1 IH]; simpl; lia. Qed.

Lemma span_nonneg l : Forall blk_ok l -> 0 <= span l.
Proof. induction 1 as [|[sz fr] l [Hsz _] _ IH]; simpl in *; lia. Qed.

Lemma frees_app a l1 l2 : frees a (l1 ++ l2) = frees a l1 ++ frees (a + span l1) l2.
Proof.
  revert a. induction l1 as [|[sz fr] l1 IH]; intros a; simpl; [f_equal; lia|].
  rewrite IH, app_assoc. do 2 f_equal. lia.
Qed.

Lemma seg_app m a pf pa l1 l2 a' pf' pa' :
  seg m a pf pa (l1 ++ l2) a' pf' pa' <->
  exists pf1 pa1, seg m a pf pa l1 (a + span l1) pf1 pa1 /\ seg m (a + span l1) pf1 pa1 l2 a' pf' pa'.
Proof.
  revert a pf pa. induction l1 as [|[sz fr] l1 IH]; intros a pf pa; simpl.
  - rewrite Z.add_0_r. split.
    + intros H. exists pf, pa. done.
    + intros (pf1 & pa1 & (_ & -> & ->) & H). done.
  - rewrite IH. replace (a + 8 + sz + span l1) with (a + (8 + sz + span l1)) by lia.
    split; [intros (?&?&?&pf1&pa1&?&?); exists pf1, pa1; tauto|intros (pf1&pa1&?&?)].
    split_and!; try tauto. exists pf1, pa1. tauto.
Qed.

Lemma chain_app m a pf pa l1 l2 :
  chain m a pf pa (l1 ++ l2) <->
  exists pf1 pa1, seg m a pf pa l1 (a + span l1) pf1 pa1 /\ chain m (a + span l1) pf1 pa1 l2.
Proof.
  unfold chain. setoid_rewrite seg_app. naive_solver.
Qed.

Lemma chain_cons m a pf pa sz fr l :
  chain m a pf pa ((sz, fr) :: l) <->
  hdr m a sz fr pf pa /\ blk_ok (sz, fr) /\ pf && fr = false /\ chain m (a + 8 + sz) fr a l.
Proof. unfold chain. simpl. naive_solver. Qed.

Lemma seg_end m a pf pa l a' pf' pa' : seg m a pf pa l a' pf' pa' -> a' = a + span l.
Proof.
  revert a pf pa. induction l as [|[sz fr] l IH]; intros a pf pa; simpl; [intros [-> _]; lia|].
  intros (_ & _ & _ & H). apply IH in H. lia.
Qed.

Lemma seg_ok m a pf pa l a' pf' pa' : seg m a pf pa l a' pf' pa' -> Forall blk_ok l.
Proof.
  revert a pf pa. induction l as [|[sz fr] l IH]; intros a pf pa; simpl; [done|].
  intros (_ & H & _ & Hs). constructor; eauto.
Qed.

Lemma chain_ok m a pf pa l : chain m a pf pa l -> Forall blk_ok l.
Proof. intros (? & ? & ? & H & _). by eapply seg_ok. Qed.

Lemma heads_app a l1 sz fr l2 : heads a (l1 ++ (sz, fr) :: l2) = heads a l1 ++ heads (a + span l1 + 8 + sz) l2.
Proof.
  revert a. induction l1 as [|[sz1 fr1] l1 IH]; intros a; simpl.
  - do 2 f_equal. lia.
  - rewrite IH. do 3 f_equal. lia.
Qed.

Lemma heads_bounds a l h : Forall blk_ok l -> h ∈ heads a l -> a <= h <= a + span l.
Proof.
  intros Hl. revert a. induction Hl as [|[sz fr] l [Hsz _] Hl IH]; intros a; simpl in *.
  - intros ->%list_elem_of_singleton. lia.
  - pose proof (span_nonneg l Hl). intros [->|Hin]%elem_of_cons; [lia|]. apply IH in Hin. lia.
Qed.

Lemma heads_first a l : a ∈ heads a l.
Proof. destruct l as [|[]]; simpl; set_solver. Qed.

Lemma heads_apart a l x y : Forall blk_ok l -> x ∈ heads a l -> y ∈ heads a l -> x = y \/ apart x y.
Proof.
  intros Hl. revert a. induction Hl as [|[sz fr] l [Hsz _] Hl IH]; intros a; simpl in *.
  - intros ->%list_elem_of_singleton ->%list_elem_of_singleton. by left.
  - intros [->|Hx]%elem_of_cons [->|Hy]%elem_of_cons; [by left| | |by eauto].
    + apply heads_bounds in Hy; [|done]. right. unfold apart. lia.
    + apply heads_bounds in Hx; [|done]. right. unfold apart. lia.
Qed.

Lemma frees_heads a l x sz : (x, sz) ∈ frees a l -> x ∈ heads a l.
Proof.
  revert a. induction l as [|[sz1 fr] l IH]; intros a; simpl; [set_solver|].
  rewrite elem_of_app. intros [H|H%IH]; [|set_solver]. destruct fr; set_solver.
Qed.

(** A free block inside the row. *)
Lemma frees_split a l x sz : (x, sz) ∈ frees a l -> exists l1 l2, l = l1 ++ (sz, true) :: l2 /\ x = a + span l1.
Proof.
  revert a. induction l as [|[sz1 fr] l IH]; intros a; simpl; [set_solver|].
  rewrite elem_of_app. intros [H|H].
  - destruct fr; [|set_solver]. apply list_elem_of_singleton in H as [= -> ->]. exists [], l. split; [done|simpl; lia].
  - destruct (IH _ H) as (l1 & l2 & -> & ->). exists ((sz1, fr) :: l1), l2. split; [done|simpl; lia].
Qed.

(** ** What the row of blocks depends on *)

Definition same_hdr (m m' : gmap Z Z) (h : Z) : Prop :=
  m' !! a_prev_hdr h = m !! a_prev_hdr h /\ m' !! a_size h = m !! a_size h.

Lemma hdr_frame m m' a sz fr pf pa : same_hdr m m' a -> hdr m a sz fr pf pa -> hdr m' a sz fr pf pa.
Proof. intros [H1 H2] [Ha Hp]. unfold hdr. by rewrite H1, H2. Qed.

Lemma seg_frame m m' a pf pa l a' pf' pa' :
  (forall h, h ∈ heads a l -> h < a + span l -> same_hdr m m' h) ->
  seg m a pf pa l a' pf' pa' -> seg m' a pf pa l a' pf' pa'.
Proof.
  intros Hf Hs. pose proof (seg_ok _ _ _ _ _ _ _ _ Hs) as Hok. revert a pf pa Hf Hs.
  induction Hok as [|[sz fr] l [Hsz _] Hl IH]; intros a pf pa Hf; simpl in *; [done|].
  pose proof (span_nonneg l Hl). intros (Hh & Hb & Hn & Hs). split_and!; [|done|done|].
  - apply (hdr_frame m); [|done]. apply Hf; [set_solver|lia].
  - apply IH; [|done]. intros h Hin Hlt. apply Hf; [set_solver|lia].
Qed.

Lemma chain_frame m m' a pf pa l :
  (forall h, h ∈ heads a l -> same_hdr m m' h) -> chain m a pf pa l -> chain m' a pf pa l.
Proof.
  intros Hf (a' & pf' & pa' & Hs & Hh). exists a', pf', pa'. split.
  - apply (seg_frame m); [|done]. intros h Hin _. by apply Hf.
  - apply (hdr_frame m); [|done]. apply seg_end in Hs as Ha. subst a'. apply Hf.
    clear. revert a. induction l as [|[sz fr] l IH]; intros a; simpl; [rewrite Z.add_0_r; set_solver|].
    specialize (IH (a + 8 + sz)). replace (a + (8 + sz + span l)) with (a + 8 + sz + span l) by lia. set_solver.
Qed.

(** The block a row starts with, or the sentinel. *)
Definition head_blk (l : list pblk) : pblk := match l with [] => (0, false) | p :: _ => p end.

Lemma chain_head m a pf pa l : chain m a pf pa l ->
  hdr m a (head_blk l).1 (head_blk l).2 pf pa /\ pf && (head_blk l).2 = false.
Proof.
  destruct l as [|[sz fr] l].
  - intros (? & ? & ? & (-> & -> & ->) & Hh). simpl. split; [done|apply andb_false_r].
  - rewrite chain_cons. naive_solver.
Qed.

(** The block before a row changes. *)
Lemma chain_retag m m' a pf pa pf' pa' l :
  chain m a pf pa l -> hdr m' a (head_blk l).1 (head_blk l).2 pf' pa' -> pf' && (head_blk l).2 = false ->
  (forall h, h ∈ heads a l -> h <> a -> same_hdr m m' h) -> chain m' a pf' pa' l.
Proof.
  intros Hc Hh Hn Hf. destruct l as [|[sz fr] l].
  - exists a, pf', pa'. done.
  - pose proof (chain_ok _ _ _ _ _ Hc) as Hok. apply chain_cons in Hc as (_ & Hb & _ & Hc).
    apply chain_cons. split_and!; [done..|].
    apply (chain_frame m); [|done]. intros h Hin. apply Hf; [simpl; set_solver|].
    apply heads_bounds in Hin; [|by inversion Hok]. destruct Hb as [Hb _]. simpl in Hb. lia.
Qed.

(** Writes to list links do not touch headers that are equal to or apart from the nodes. *)
Lemma links_same_hdr P s s' h :
  links_frame P s s' -> (forall a, P a -> a = h \/ apart a h) -> same_hdr (ts_mem s) (ts_mem s') h.
Proof.
  intros Hf Hp. split; apply (lf_mem _ _ _ Hf); intros a Ha; destruct (Hp a Ha); addr.
Qed.

(** Writing a header leaves the headers apart from it. *)
Lemma hdr_upd_size m a v h : apart a h -> same_hdr m (<[a_size a := v]> m) h.
Proof. intros. split; rewrite lookup_insert_ne by addr; done. Qed.

Lemma hdr_upd_prev m a v h : apart a h -> same_hdr m (<[a_prev_hdr a := v]> m) h.
Proof. intros. split; rewrite lookup_insert_ne by addr; done. Qed.

Lemma same_hdr_trans m1 m2 m3 h : same_hdr m1 m2 h -> same_hdr m2 m3 h -> same_hdr m1 m3 h.
Proof. unfold same_hdr. intros [-> ->] [-> ->]. done. Qed.

(** Writing a header leaves list links. *)
Lemma links_ok_hdr fls m m' :
  (forall a, member fls a -> m' !! a_prev a = m !! a_prev a /\ m' !! a_next a = m !! a_next a) ->
  links_ok fls m -> links_ok fls m'.
Proof.
  intros Hf [Hl Hn Hu Ha H0]. split; [|done..]. intros k Hk. apply (dllseg_frame m); [|by apply Hl].
  intros a Hin. apply Hf. by exists k.
Qed.

(** ** Free blocks and lists agree *)

Definition listed (fls : classes) (F : list (Z * Z)) : Prop :=
  forall k a, in_table k -> a ∈ fls k <-> exists sz, (a, sz) ∈ F /\ MAPPING_INSERT sz = k.

Lemma listed_perm fls F F' : F ≡ₚ F' -> listed fls F -> listed fls F'.
Proof. intros Hp Hl k a Hk. rewrite (Hl k a Hk). by setoid_rewrite Hp. Qed.

Lemma listed_push fls F b sz :
  listed fls F -> listed (<[MAPPING_INSERT sz := b :: fls (MAPPING_INSERT sz)]> fls) ((b, sz) :: F).
Proof.
  intros Hl k a Hk. destruct (decide (k = MAPPING_INSERT sz)) as [->|Hne].
  - rewrite fn_lookup_insert, elem_of_cons, (Hl _ a Hk). split.
    + intros [->|(sz' & Hin & He)]; [exists sz; set_solver|exists sz'; set_solver].
    + intros (sz' & Hin & He). apply elem_of_cons in Hin as [[= -> ->]|Hin]; [by left|right; eauto].
  - rewrite fn_lookup_insert_ne, (Hl _ a Hk) by done. split.
    + intros (sz' & Hin & He). exists sz'. set_solver.
    + intros (sz' & Hin & He). apply elem_of_cons in Hin as [[= -> ->]|Hin]; [done|eauto].
Qed.

Lemma listed_remove fls F b sz l1 l2 :
  listed fls ((b, sz) :: F) -> in_table (MAPPING_INSERT sz) ->
  fls (MAPPING_INSERT sz) = l1 ++ b :: l2 -> NoDup (fls (MAPPING_INSERT sz)) ->
  (forall sz', (b, sz') ∉ F) ->
  listed (<[MAPPING_INSERT sz := l1 ++ l2]> fls) F.
Proof.
  intros Hl Ht Hf Hnd Hb k a Hk.
  assert (HF : forall k', in_table k' -> (a ∈ fls k' /\ a <> b <-> exists sz', (a, sz') ∈ F /\ MAPPING_INSERT sz' = k')).
  { intros k' Hk'. rewrite (Hl k' a Hk'). split.
    - intros [(sz' & Hin & He) Hne]. apply elem_of_cons in Hin as [[= -> ->]|Hin]; [done|eauto].
    - intros (sz' & Hin & He). split; [exists sz'; set_solver|]. intros ->. by apply (Hb sz'). }
  rewrite <- HF by done. destruct (decide (k = MAPPING_INSERT sz)) as [->|Hne].
  - rewrite fn_lookup_insert, Hf. rewrite Hf in Hnd. apply NoDup_app in Hnd as (_ & Hd & Hn).
    apply NoDup_cons in Hn as [Hn _]. specialize (Hd b). set_solver.
  - rewrite fn_lookup_insert_ne by done. split; [|by intros [? _]]. intros Hin. split; [done|]. intros ->.
    apply (Hl k b Hk) in Hin as (sz' & Hin & He). apply elem_of_cons in Hin as [[= ->]|Hin]; [done|by apply (Hb sz')].
Qed.

(** The list of a free block and its place. *)
Lemma listed_place fls F b sz : listed fls F -> in_table (MAPPING_INSERT sz) -> (b, sz) ∈ F ->
  exists l1 l2, fls (MAPPING_INSERT sz) = l1 ++ b :: l2.
Proof.
  intros Hl Ht Hin. assert (Hb : b ∈ fls (MAPPING_INSERT sz)) by (apply Hl; [done|eauto]).
  by apply list_elem_of_split in Hb.
Qed.

(** ** The free lists as a set of blocks *)

(** The lists hold exactly the free blocks [F], each on the list of its class. *)
Definition fl_ok (in_ram : Z -> bool) (F : list (Z * Z)) (s : tstate) : Prop :=
  exists fls, lists_ok fls s /\ listed fls F /\ NoDup F.*1 /\
    forall p, p ∈ F -> in_table (MAPPING_INSERT p.2) /\ links_ram in_ram p.1.

Lemma listed_member fls F :
  listed fls F -> (forall p, p ∈ F -> in_table (MAPPING_INSERT p.2)) -> forall a, member fls a <-> a ∈ F.*1.
Proof.
  intros Hl Ht a. rewrite list_elem_of_fmap. split.
  - intros (k & Hk & Hin). apply Hl in Hin as (sz & Hin & _); [|done]. by exists (a, sz).
  - intros ([a' sz] & -> & Hin). exists (MAPPING_INSERT sz). split; [by apply (Ht _ Hin)|].
    apply Hl; [by apply (Ht _ Hin)|eauto].
Qed.

Lemma tables_ok_ctl fls c c' : fl_bitmap c' = fl_bitmap c -> sl_bitmap c' = sl_bitmap c -> matrix c' = matrix c ->
  tables_ok fls c -> tables_ok fls c'.
Proof.
  destruct c, c'. simpl. intros -> -> -> [A B C D E]. split; [exact A|exact B|exact C|exact D|exact E].
Qed.

Definition same_tables (c c' : tlsf) : Prop :=
  fl_bitmap c' = fl_bitmap c /\ sl_bitmap c' = sl_bitmap c /\ matrix c' = matrix c.

Section FreeLists.
Context (in_ram : Z -> bool).

Lemma fl_ok_perm F F' s : F ≡ₚ F' -> fl_ok in_ram F s -> fl_ok in_ram F' s.
Proof.
  intros Hp (fls & Hok & Hl & Hn & Hr). exists fls. split; [done|]. split; [by apply (listed_perm _ F)|].
  rewrite <- Hp. split; [done|]. intros p. rewrite <- Hp. apply Hr.
Qed.

(** The order of the blocks does not matter. *)
#[global] Instance fl_ok_proper : Proper (Permutation ==> eq ==> iff) (fl_ok in_ram).
Proof. intros F F' HF s _ <-. split; apply fl_ok_perm; by rewrite HF. Qed.

(** Headers and statistics may change. *)
Lemma fl_ok_frame F s s' :
  same_tables (ts_ctl s) (ts_ctl s') ->
  (forall a, a ∈ F.*1 -> ts_mem s' !! a_prev a = ts_mem s !! a_prev a /\ ts_mem s' !! a_next a = ts_mem s !! a_next a) ->
  fl_ok in_ram F s -> fl_ok in_ram F s'.
Proof.
  intros (H1 & H2 & H3) Hf (fls & [Ht Hk] & Hl & Hn & Hr). exists fls. split_and!; [split|done..].
  - by apply (tables_ok_ctl _ (ts_ctl s)).
  - apply (links_ok_hdr _ (ts_mem s)); [|done]. intros a Ha. apply Hf.
    rewrite <- (listed_member fls) by (done || (intros p Hp; apply (Hr p Hp))). done.
Qed.

Lemma fl_ok_apart F s a b : fl_ok in_ram F s -> a ∈ F.*1 -> b ∈ F.*1 -> a = b \/ apart a b.
Proof.
  intros (fls & [_ Hk] & Hl & _ & Hr). rewrite <- !(listed_member fls) by (done || (intros p Hp; apply (Hr p Hp))).
  apply (lo_apart _ _ Hk).
Qed.

Lemma fl_ok_nodup F s : fl_ok in_ram F s -> NoDup F.*1.
Proof. intros (fls & _ & _ & Hn & _). done. Qed.

(** A free block leaves its list. *)
Lemma extract_sized_spec F b sz pf s :
  fl_ok in_ram ((b, sz) :: F) s -> ts_mem s !! a_size b = Some (tag sz true pf) -> size_ok sz ->
  wp (extract_sized in_ram b) (fun _ s' =>
    fl_ok in_ram F s' /\ links_frame (fun a => a ∈ b :: F.*1) s s') s.
Proof.
  intros (fls & Hok & Hl & Hn & Hr) Hw Hsz. unfold extract_sized.
  wp_step. eapply wp_ld; [done|]. rewrite size_of_tag by done.
  destruct (Hr (b, sz) ltac:(set_solver)) as [Hk _]. simpl in Hk.
  destruct (listed_place fls _ b sz Hl Hk ltac:(set_solver)) as (l1 & l2 & Hf).
  rewrite (surjective_pairing (MAPPING_INSERT sz)). cbv iota beta.
  pose proof (listed_member fls _ Hl ltac:(intros p Hp; apply (Hr p Hp))) as Hm.
  eapply wp_mono; [apply (EXTRACT_BLOCK_spec in_ram fls (MAPPING_INSERT sz) b l1 l2); [done..|]|].
  { intros a Ha. apply Hm in Ha. apply list_elem_of_fmap in Ha as (p & -> & Hp). by apply Hr. }
  intros _ s' (Hok' & Hfr & _ & _). apply NoDup_cons in Hn as [Hb Hn]. split.
  - eexists. split; [exact Hok'|]. split; [|split; [done|intros p Hp; apply Hr; set_solver]].
    apply (listed_remove _ _ b); [done..|apply (lo_nodup _ _ (proj2 Hok)); done|].
    intros sz' Hin. apply Hb. apply list_elem_of_fmap. by exists (b, sz').
  - destruct Hfr as [H1 H2 H3]. split; [|done..]. intros x Hx. apply H1. intros a Ha. apply Hx.
    by apply Hm in Ha.
Qed.

(** A block goes to the list of its class. *)
Lemma insert_sized_spec F b sz s :
  fl_ok in_ram F s -> in_table (MAPPING_INSERT sz) -> b <> NULL -> (forall a, a ∈ F.*1 -> apart b a) ->
  links_ram in_ram b ->
  wp (INSERT_BLOCK in_ram b (MAPPING_INSERT sz).1 (MAPPING_INSERT sz).2) (fun _ s' =>
    fl_ok in_ram ((b, sz) :: F) s' /\ links_frame (fun a => a ∈ b :: F.*1) s s') s.
Proof.
  intros (fls & Hok & Hl & Hn & Hr) Hk Hb0 Hb Hrb.
  pose proof (listed_member fls _ Hl ltac:(intros p Hp; apply (Hr p Hp))) as Hm.
  eapply wp_mono; [apply (INSERT_BLOCK_spec in_ram fls); [done|done| |done|]|].
  - split; [done|]. intros a Ha. by apply Hb, Hm.
  - intros a Ha. apply Hm in Ha. apply list_elem_of_fmap in Ha as (p & -> & Hp). by apply Hr.
  - intros _ s' [Hok' Hfr]. split.
    + eexists. split; [exact Hok'|]. split; [by apply listed_push|]. split.
      * simpl. apply NoDup_cons. split; [|done]. intros Hin. specialize (Hb b Hin). unfold apart in Hb. lia.
      * intros p [->|Hp]%elem_of_cons; [done|by apply Hr].
    + destruct Hfr as [H1 H2 H3]. split; [|done..]. intros x Hx. apply H1.
      intros a [->|Ha]; apply Hx; [set_solver|]. apply Hm in Ha. set_solver.
Qed.

(** The search and the extraction of what it finds. *)
Lemma find_spec F k s :
  fl_ok in_ram F s -> in_table k ->
  wp (FIND_SUITABLE_BLOCK k.1 k.2) (fun r s' => s' = s /\
    ((r.1.1 = NULL /\ forall p, p ∈ F -> ~ cls_le k (MAPPING_INSERT p.2)) \/
     (exists sz, (r.1.1, sz) ∈ F /\ r.1.1 <> NULL /\ MAPPING_INSERT sz = (r.1.2, r.2) /\ cls_le k (MAPPING_INSERT sz) /\
        (forall p, p ∈ F -> cls_le k (MAPPING_INSERT p.2) -> cls_le (MAPPING_INSERT sz) (MAPPING_INSERT p.2)) /\
        forall F', F ≡ₚ (r.1.1, sz) :: F' ->
          wp (EXTRACT_BLOCK_HDR in_ram r.1.1 r.1.2 r.2) (fun _ s' =>
            fl_ok in_ram F' s' /\ links_frame (fun a => a ∈ F.*1) s s') s))) s.
Proof.
  intros (fls & Hok & Hl & Hn & Hr) Hk.
  pose proof (listed_member fls _ Hl ltac:(intros p Hp; apply (Hr p Hp))) as Hm.
  assert (Hne : forall p, p ∈ F -> p.1 ∈ fls (MAPPING_INSERT p.2)).
  { intros [a sz] Hp. apply Hl; [by apply (Hr _ Hp)|]. eauto. }
  eapply wp_mono; [by apply (FIND_SUITABLE_BLOCK_spec fls)|]. intros [[b fl] sl] s' [-> Hs]. split; [done|].
  simpl in *. destruct Hs as [[-> Hnone]|(Hk' & Hle & (l2 & Hf) & Hmin)].
  - left. split; [done|]. intros p Hp Hc. specialize (Hne p Hp). rewrite Hnone in Hne by (done || apply (Hr p Hp)). set_solver.
  - right. assert (Hb : b ∈ fls (fl, sl)) by (rewrite Hf; set_solver).
    assert (Hbm : member fls b) by by exists (fl, sl).
    apply Hl in Hb as (sz & Hin & HM); [|done]. exists sz. split; [done|]. split; [by apply (lo_nonnull _ _ (proj2 Hok))|].
    rewrite HM. split; [done|]. split; [done|]. split.
    { intros p Hp Hc. apply Hmin; [apply (Hr p Hp)|done|]. specialize (Hne p Hp). intros Hz. rewrite Hz in Hne. set_solver. }
    intros F' HF.
    eapply wp_mono; [apply (EXTRACT_BLOCK_HDR_spec in_ram fls (fl, sl) b l2); [done..|]|].
    { intros a Ha. apply Hm in Ha. apply list_elem_of_fmap in Ha as (p & -> & Hp). by apply Hr. }
    intros _ s' (Hok' & Hfr & _ & _). rewrite HF in Hn. simpl in Hn. apply NoDup_cons in Hn as [Hbn Hn]. split.
    + eexists. split; [exact Hok'|]. split; [|split; [done|intros p Hp; apply Hr; rewrite HF; set_solver]].
      rewrite <- HM. apply (listed_remove _ _ b sz []); [by apply (listed_perm _ F)|by rewrite HM|by rewrite HM| |].
      * rewrite HM. by apply (lo_nodup _ _ (proj2 Hok)).
      * intros sz' Hx. apply Hbn. apply list_elem_of_fmap. by exists (b, sz').
    + destruct Hfr as [H1 H2 H3]. split; [|done..]. intros x Hx. apply H1. intros a Ha. apply Hx. by apply Hm.
Qed.

End FreeLists.

(** ** Splitting a block *)

Lemma upd_tmem_lookup a v s x : ts_mem (upd_tmem (insert a v) s) !! x = if decide (x = a) then Some v else ts_mem s !! x.
Proof. simpl. case_decide; [subst; by rewrite lookup_insert_eq|by rewrite lookup_insert_ne]. Qed.

Lemma fl_ok_st in_ram F s a v :
  (forall x, x ∈ F.*1 -> a <> a_prev x /\ a <> a_next x) -> fl_ok in_ram F s -> fl_ok in_ram F (upd_tmem (insert a v) s).
Proof.
  intros Ha. apply fl_ok_frame; [done|]. intros x Hx. destruct (Ha x Hx).
  simpl. rewrite !lookup_insert_ne by done. done.
Qed.

(** Only the headers [H] and the links of the nodes [L] are written. *)
Definition writes (H L : list Z) (s s' : tstate) : Prop :=
  forall x, (forall h, h ∈ H -> x <> a_prev_hdr h /\ x <> a_size h) ->
            (forall a, a ∈ L -> x <> a_prev a /\ x <> a_next a) -> ts_mem s' !! x = ts_mem s !! x.

Lemma writes_hdr H L s s' h : writes H L s s' ->
  (forall x, x ∈ H -> apart x h) -> (forall a, a ∈ L -> a = h \/ apart a h) -> same_hdr (ts_mem s) (ts_mem s') h.
Proof.
  intros Hw HH HL. split; apply Hw; intros x Hx; [apply HH in Hx|apply HL in Hx as [->|Hx]|apply HH in Hx|apply HL in Hx as [->|Hx]]; addr.
Qed.

Lemma writes_trans H1 L1 H2 L2 s1 s2 s3 :
  writes H1 L1 s1 s2 -> writes H2 L2 s2 s3 -> writes (H1 ++ H2) (L1 ++ L2) s1 s3.
Proof.
  intros W1 W2 x Hx Hl. rewrite W2, W1; [done|..]; intros y Hy; apply Hx || apply Hl; set_solver.
Qed.

Lemma writes_mono H L H' L' s s' : H ⊆ H' -> L ⊆ L' -> writes H L s s' -> writes H' L' s s'.
Proof. intros HH HL W x Hx Hl. apply W; auto. Qed.

Lemma links_writes L s s' : links_frame (fun a => a ∈ L) s s' -> writes [] L s s'.
Proof. intros Hf x _ Hx. by apply (lf_mem _ _ _ Hf). Qed.

Lemma writes_refl s : writes [] [] s s.
Proof. done. Qed.

Lemma split_rest_spec in_ram F b r tmp nb mark sz0 fr0 pf szn frn pfn s :
  fl_ok in_ram F s -> blk_ok (r, true) -> blk_ok (tmp, true) -> in_table (MAPPING_INSERT tmp) ->
  0 < b -> nb = b + 8 + r + 8 + tmp -> nb + 8 <= 2 ^ 32 ->
  (forall x, b <= x <= nb + 4 -> in_ram x = true) ->
  (forall a, a ∈ F.*1 -> apart b a /\ apart (b + 8 + r) a /\ (a = nb \/ apart nb a)) ->
  ts_mem s !! a_size b = Some (tag sz0 fr0 pf) -> size_ok sz0 ->
  ts_mem s !! a_size nb = Some (tag szn frn pfn) -> size_ok szn -> (mark = true \/ pfn = true) ->
  wp (split_rest in_ram b r tmp nb mark) (fun _ s' =>
    fl_ok in_ram ((b + 8 + r, tmp) :: F) s' /\ book (ts_ctl s') = book (ts_ctl s) /\
    ts_mem s' !! a_size b = Some (tag r false pf) /\ ts_mem s' !! a_prev_hdr b = ts_mem s !! a_prev_hdr b /\
    hdr (ts_mem s') (b + 8 + r) tmp true false b /\
    hdr (ts_mem s') nb szn frn true (b + 8 + r) /\
    writes [b; b + 8 + r; nb] (b + 8 + r :: F.*1) s s') s.
Proof.
  intros Hfl [Hr8 Hrm] [Ht8 Htm] Hk Hb0 -> Htop Hram Hap Hb Hsz0 Hn Hszn Hmark. simpl in Hr8, Ht8, Hrm, Htm.
  set (b2 := b + 8 + r) in *. set (nb := b2 + 8 + tmp) in *. unfold split_rest, GET_NEXT_BLOCK.
  replace (u32 (a_buffer b + r)) with b2 by (unfold a_buffer; rewrite u32_id; unfold in_u32; lia). cbv zeta.
  wp_step. apply wp_st; [apply Hram; addr|]. rewrite tag_new_free by (split; lia).
  wp_step. apply wp_st; [apply Hram; addr|]. wp_step.
  set (s2 := upd_tmem _ (upd_tmem _ s)).
  assert (Hs2n : ts_mem s2 !! a_size nb = Some (tag szn frn pfn)).
  { subst s2. rewrite !upd_tmem_lookup, !decide_False by addr. done. }
  set (s3 := upd_tmem (insert (a_size nb) (tag szn frn true)) s2).
  apply (wp_mono _ (fun _ s' => s' = s3)).
  { unfold when. destruct mark.
    - wp_step. eapply wp_ld; [done|]. rewrite tag_set_prev_free by done. apply wp_st; [apply Hram; addr|]. done.
    - apply wp_ret. destruct Hmark as [| ->]; [done|]. unfold s3, upd_tmem at 1. rewrite insert_id by done. by destruct s2. }
  intros _ ? ->.
  assert (Hs3 : forall x, x <> a_size b2 -> x <> a_prev_hdr nb -> x <> a_size nb -> ts_mem s3 !! x = ts_mem s !! x).
  { intros x H1 H2 H3. subst s3 s2. rewrite !upd_tmem_lookup, !decide_False by done. done. }
  assert (Hfl3 : fl_ok in_ram F s3).
  { apply (fl_ok_frame _ _ s); [done| |done]. intros a Ha. destruct (Hap a Ha) as (H1 & H2 & H3).
    split; apply Hs3; destruct H3; subst; addr. }
  rewrite (surjective_pairing (MAPPING_INSERT tmp)). cbv iota beta. wp_step.
  eapply wp_mono.
  { apply insert_sized_spec; [exact Hfl3|done|unfold NULL; lia| |split; apply Hram; addr]. intros a Ha. apply (Hap a Ha). }
  intros _ s4 [Hfl4 Hfr].
  assert (H4 : forall h, (forall a, a ∈ F.*1 -> a = h \/ apart a h) -> h = b2 \/ apart b2 h -> same_hdr (ts_mem s3) (ts_mem s4) h).
  { intros h Hh1 Hh2. apply (links_same_hdr _ _ _ _ Hfr). intros a [->|Ha]%elem_of_cons; [destruct Hh2; auto|auto]. }
  assert (Hb4 : same_hdr (ts_mem s3) (ts_mem s4) b).
  { apply H4; [|right; addr]. intros a Ha. destruct (Hap a Ha) as (H1 & _). right. by apply apart_sym_hdr. }
  assert (Hn4 : same_hdr (ts_mem s3) (ts_mem s4) nb).
  { apply H4; [|right; addr]. intros a Ha. destruct (Hap a Ha) as (_ & _ & [->|H1]); [by left|right; by apply apart_sym_hdr]. }
  assert (Hb24 : same_hdr (ts_mem s3) (ts_mem s4) b2).
  { apply H4; [|by left]. intros a Ha. destruct (Hap a Ha) as (_ & H1 & _). right. by apply apart_sym_hdr. }
  wp_step. apply (wp_ld _ (tag sz0 fr0 pf)).
  { rewrite (proj2 Hb4), Hs3 by addr. done. }
  rewrite tag_resize by (done || split; lia). apply wp_st; [apply Hram; addr|].
  assert (Hm : forall x, x <> a_size b -> ts_mem (upd_tmem (insert (a_size b) (tag r false pf)) s4) !! x = ts_mem s4 !! x).
  { intros x Hx. rewrite upd_tmem_lookup, decide_False by done. done. }
  split_and!.
  - apply fl_ok_st; [|done]. simpl. intros x [->|Hx]%elem_of_cons; [split; addr|].
    destruct (Hap x Hx) as (H1 & _). split; addr.
  - exact (lf_ctl _ _ _ Hfr).
  - rewrite upd_tmem_lookup, decide_True by done. done.
  - rewrite Hm, (proj1 Hb4), Hs3 by addr. done.
  - split; [|done]. rewrite Hm, (proj2 Hb24) by addr. subst s3 s2.
    rewrite !upd_tmem_lookup, !decide_False, decide_True by (done || addr). done.
  - split.
    + rewrite Hm, (proj2 Hn4) by addr. subst s3. rewrite upd_tmem_lookup, decide_True by done. done.
    + intros _. rewrite Hm, (proj1 Hn4) by addr. subst s3 s2.
      rewrite !upd_tmem_lookup, decide_False, decide_True by (done || addr). done.
  - intros x HH HL. pose proof (HH b ltac:(set_solver)). pose proof (HH b2 ltac:(set_solver)).
    pose proof (HH nb ltac:(set_solver)). rewrite Hm by tauto. rewrite (lf_mem _ _ _ Hfr) by done.
    apply Hs3; tauto.
Qed.

(** ** The invariant *)

(** Bytes of the free blocks with their headers. *)
Fixpoint free_bytes (bs : list pblk) : Z :=
  match bs with [] => 0 | (sz, fr) :: bs => (if fr then 8 + sz else 0) + free_bytes bs end.

Lemma free_bytes_app l1 l2 : free_bytes (l1 ++ l2) = free_bytes l1 + free_bytes l2.
Proof. induction l1 as [|[sz []] l1 IH]; simpl; lia. Qed.

(** The heap with the blocks [bs] from [first] on; [total] are the bytes it accounts for. *)
Record tlsf_ok (in_ram : Z -> bool) (first total : Z) (bs : list pblk) (s : tstate) : Prop := {
  tk_chain : chain (ts_mem s) first false 0 bs;
  tk_lists : fl_ok in_ram (frees first bs) s;
  tk_first : 0 < first;
  tk_top : first + span bs + 8 <= 2 ^ 32;
  tk_span : span bs <= MAX_BLOCK;
  tk_ram : forall x, first <= x <= first + span bs + 4 -> in_ram x = true;
  tk_free : free_size (ts_ctl s) = u32 (free_bytes bs - BHDR_OVERHEAD);
  tk_used : used_size (ts_ctl s) = u32 (total - free_size (ts_ctl s))
}.

Lemma heads_last a l : a + span l ∈ heads a l.
Proof.
  revert a. induction l as [|[sz fr] l IH]; intros a; simpl; [rewrite Z.add_0_r; set_solver|].
  specialize (IH (a + 8 + sz)). replace (a + (8 + sz + span l)) with (a + 8 + sz + span l) by lia. set_solver.
Qed.


(** The free blocks around a part of the row that is followed by a block in use. *)
Lemma node_outside first l0 M l2 a :
  Forall blk_ok (l0 ++ M ++ l2) -> (head_blk l2).2 = false ->
  a ∈ (frees first l0 ++ frees (first + span l0 + span M) l2).*1 ->
  a ∈ heads first (l0 ++ M ++ l2) /\ (a + 16 <= first + span l0 \/ first + span l0 + span M + 16 <= a).
Proof.
  intros Hall Hhd Ha. rewrite !Forall_app in Hall. destruct Hall as (Hl0 & HlM & Hl2).
  rewrite fmap_app, elem_of_app in Ha. destruct Ha as [Ha|Ha].
  - apply list_elem_of_fmap in Ha as ([a' sa] & -> & (m1 & m2 & -> & ->)%frees_split).
    apply Forall_app in Hl0 as [Hm1 [[Hx _] Hm2]%Forall_cons]. pose proof (span_nonneg _ Hm2). simpl in Hx. simpl. split.
    + rewrite <- app_assoc. simpl. rewrite heads_app. pose proof (heads_last first m1). set_solver.
    + left. rewrite span_app. simpl. lia.
  - apply list_elem_of_fmap in Ha as ([a' sa] & -> & Hin). simpl.
    apply frees_split in Hin as (m1 & m2 & -> & ->).
    destruct m1 as [|[z zf] m1]; [simpl in Hhd; done|].
    apply Forall_app in Hl2 as [[[Hz _] Hm1]%Forall_cons [[Hx _] Hm2]%Forall_cons]. pose proof (span_nonneg _ Hm1).
    simpl in Hz, Hx. split; [|right; simpl; lia].
    rewrite (app_assoc M), (app_assoc l0), heads_app. apply elem_of_app. left.
    replace (first + span l0 + span M + span ((z, zf) :: m1)) with (first + span (l0 ++ M ++ (z, zf) :: m1)); [apply heads_last|].
    rewrite !span_app. lia.
Qed.


Section Heap.
Context (in_ram : Z -> bool) (first total : Z).

Abbreviation tok := (tlsf_ok in_ram first total).

(** The surroundings of one block. *)
Lemma tlsf_block l1 sz fr l2 s :
  tok (l1 ++ (sz, fr) :: l2) s ->
  let b := first + span l1 in
  0 <= span l1 /\ 0 <= span l2 /\ blk_ok (sz, fr) /\ size_ok sz /\ sz < MAX_BLOCK /\
  b + 8 + sz + span l2 + 8 <= 2 ^ 32 /\ Forall blk_ok l1 /\ Forall blk_ok l2 /\
  exists pf pa, seg (ts_mem s) first false 0 l1 b pf pa /\ hdr (ts_mem s) b sz fr pf pa /\
    pf && fr = false /\ chain (ts_mem s) (b + 8 + sz) fr b l2.
Proof.
  intros Hok b. pose proof (chain_ok _ _ _ _ _ (tk_chain _ _ _ _ _ Hok)) as Hall.
  apply Forall_app in Hall as [Hl1 [Hb Hl2]%Forall_cons].
  pose proof (span_nonneg l1 Hl1). pose proof (span_nonneg l2 Hl2).
  pose proof (tk_top _ _ _ _ _ Hok) as Htop. pose proof (tk_span _ _ _ _ _ Hok) as Hspan.
  pose proof (tk_first _ _ _ _ _ Hok). rewrite span_app in Htop, Hspan. simpl in Htop, Hspan.
  pose proof Hb as [Hb8 Hbm]. simpl in Hb8, Hbm.
  pose proof (tk_chain _ _ _ _ _ Hok) as Hc. apply chain_app in Hc as (pf & pa & Hs & Hc).
  apply chain_cons in Hc as (Hh & _ & Hn & Hc).
  split_and!; [done..|split; lia|lia|lia|done|done|]. exists pf, pa. done.
Qed.

Lemma block_class sz : 0 <= sz < MAX_BLOCK -> in_table (MAPPING_INSERT sz).
Proof. intros. by apply MAPPING_INSERT_spec. Qed.

(** The next header is that of the next block or the sentinel's. *)
Lemma head_size_ok m a pf pa l : chain m a pf pa l -> span l <= MAX_BLOCK -> size_ok (head_blk l).1.
Proof.
  intros Hc Hs. pose proof (chain_ok _ _ _ _ _ Hc) as Hl. destruct l as [|[sz fr] l]; simpl.
  - split; lia || done.
  - apply Forall_cons in Hl as [[H8 Hm] Hl]. pose proof (span_nonneg l Hl). simpl in *.
    split; [|done]. unfold MAX_BLOCK, MAX_FLI in Hs. lia.
Qed.

Lemma frees_mid l1 sz l2 : frees first (l1 ++ (sz, true) :: l2) ≡ₚ
  (first + span l1, sz) :: frees first l1 ++ frees (first + span l1 + 8 + sz) l2.
Proof. rewrite frees_app. simpl. symmetry. apply Permutation_middle. Qed.

Lemma frees_used l1 sz l2 : frees first (l1 ++ (sz, false) :: l2) =
  frees first l1 ++ frees (first + span l1 + 8 + sz) l2.
Proof. by rewrite frees_app. Qed.

(** The free blocks around a block are apart from everything inside it. *)
Lemma frees_around l1 sz fr l2 s a :
  tok (l1 ++ (sz, fr) :: l2) s -> a ∈ (frees first l1 ++ frees (first + span l1 + 8 + sz) l2).*1 ->
  (a + 16 <= first + span l1 \/ first + span l1 + 8 + sz <= a) /\
  (a = first + span l1 + 8 + sz \/ apart (first + span l1 + 8 + sz) a).
Proof.
  intros Hok Ha. destruct (tlsf_block _ _ _ _ _ Hok) as (H1 & H2 & [H8 _] & _ & _ & _ & Hl1 & Hl2 & _). simpl in H8.
  rewrite fmap_app, elem_of_app in Ha. destruct Ha as [Ha|Ha];
    apply list_elem_of_fmap in Ha as ([a' sz'] & -> & Hin); simpl.
  - apply frees_split in Hin as (m1 & m2 & -> & ->). apply Forall_app in Hl1 as [Hm1 [[Hx _] Hm2]%Forall_cons].
    pose proof (span_nonneg _ Hm2). rewrite span_app. simpl in *. unfold apart. lia.
  - apply frees_split in Hin as (m1 & m2 & -> & ->). apply Forall_app in Hl2 as [Hm1 [[Hx _] Hm2]%Forall_cons].
    pose proof (span_nonneg _ Hm1) as Hs. split; [lia|]. destruct m1 as [|[sz1 fr1] m1]; [left; simpl; lia|].
    apply Forall_cons in Hm1 as [[Hy _] Hm1]. pose proof (span_nonneg _ Hm1). simpl in *. unfold apart. lia.
Qed.

Lemma frees_are_heads_at x bs a : a ∈ (frees x bs).*1 -> a ∈ heads x bs.
Proof. intros ([a' sz] & -> & Hin)%list_elem_of_fmap. by apply frees_heads in Hin. Qed.

Lemma frees_are_heads bs a : a ∈ (frees first bs).*1 -> a ∈ heads first bs.
Proof. apply frees_are_heads_at. Qed.

(** A part of the row is replaced by one of the same length: everything before it and
    behind it stays, but for the flags of the block that follows. *)
Lemma replace_middle l1 mid mid' l2 s s' H L pf pa pf1 pa1 pf' pa' :
  let fb := first + span l1 in
  let nb := fb + span mid in
  tok (l1 ++ mid ++ l2) s -> mid <> [] -> writes H L s s' ->
  (forall h, h ∈ H -> fb <= h /\ (h = nb \/ h + 16 <= nb)) ->
  (forall a, a ∈ L -> a ∈ heads first (l1 ++ mid ++ l2) \/ (fb <= a /\ a + 16 <= nb)) ->
  seg (ts_mem s) first false 0 l1 fb pf pa -> chain (ts_mem s) nb pf1 pa1 l2 ->
  seg (ts_mem s') fb pf pa mid' nb pf' pa' ->
  hdr (ts_mem s') nb (head_blk l2).1 (head_blk l2).2 pf' pa' -> pf' && (head_blk l2).2 = false ->
  chain (ts_mem s') first false 0 (l1 ++ mid' ++ l2).
Proof.
  intros fb nb Hok Hne Hw HH HL Hs Hc Hmid Hh Hn.
  pose proof (chain_ok _ _ _ _ _ (tk_chain _ _ _ _ _ Hok)) as Hall.
  pose proof Hall as Hall2. rewrite !Forall_app in Hall2. destruct Hall2 as (Hl1 & Hlm & Hl2).
  assert (Hgt : fb + 16 <= nb).
  { destruct mid as [|[z zf] mid]; [done|]. apply Forall_cons in Hlm as [[Hz _] Hlm].
    pose proof (span_nonneg _ Hlm). subst nb. simpl in *. lia. }
  assert (Hheads : forall h, h ∈ heads first l1 \/ h ∈ heads nb l2 -> h ∈ heads first (l1 ++ mid ++ l2)).
  { intros h Hin. destruct mid as [|[z zf] mid0 _] using rev_ind; [done|]. clear Hne.
    subst nb fb. rewrite span_app in Hin. simpl in Hin. rewrite Z.add_0_r in Hin.
    rewrite <- (app_assoc mid0), (app_assoc l1). simpl. rewrite heads_app, span_app.
    destruct Hin as [Hin|Hin]; apply elem_of_app; [left|right].
    - destruct mid0 as [|[y yf] mid0]; [by rewrite app_nil_r|]. rewrite heads_app. set_solver.
    - replace (first + (span l1 + span mid0) + 8 + z) with (first + span l1 + (span mid0 + (8 + z))) by lia. done. }
  assert (Hkeep : forall h, h ∈ heads first (l1 ++ mid ++ l2) -> h < fb \/ nb < h -> same_hdr (ts_mem s) (ts_mem s') h).
  { intros h Hin Hlt.
    assert (Hfbn : fb ∈ heads first (l1 ++ mid ++ l2) /\ nb ∈ heads first (l1 ++ mid ++ l2)).
    { split; apply Hheads; [left; apply heads_last|right; apply heads_first]. }
    pose proof (heads_apart first _ h fb Hall Hin (proj1 Hfbn)) as Hx.
    pose proof (heads_apart first _ h nb Hall Hin (proj2 Hfbn)) as Hy. unfold apart in Hx, Hy.
    apply (writes_hdr H L); [done| |].
    - intros x Hx'%HH. unfold apart. lia.
    - intros a [Ha|Ha]%HL; [by apply (heads_apart first _ _ _ Hall)|right; unfold apart; lia]. }
  apply chain_app. exists pf, pa. split.
  - apply (seg_frame (ts_mem s)); [|done]. intros h Hin Hlt. apply Hkeep; [by apply Hheads; left|by left].
  - apply chain_app. pose proof (seg_end _ _ _ _ _ _ _ _ Hmid) as Hend. fold fb. rewrite <- Hend.
    exists pf', pa'. split; [done|]. apply (chain_retag (ts_mem s) _ _ pf1 pa1); [done..|].
    intros h Hin Hne'. apply heads_bounds in Hin as Hbd; [|done]. apply Hkeep; [by apply Hheads; right|right; lia].
Qed.

(** ** Allocation *)

(** The row after [r] bytes were taken from a free block of [sz] bytes. *)
Definition taken (l1 : list pblk) (sz : Z) (l2 : list pblk) (r : Z) : list pblk :=
  l1 ++ (if sizeof_bhdr <=? sz - r then [(r, false); (sz - r - BHDR_OVERHEAD, true)] else [(sz, false)]) ++ l2.

(** The headers that are written and the new node of the lists. *)
Definition taken_hdrs (b sz r : Z) : list Z :=
  if sizeof_bhdr <=? sz - r then [b; b + 8 + r; b + 8 + sz] else [b; b + 8 + sz].
Definition taken_node (b sz r : Z) : list Z := if sizeof_bhdr <=? sz - r then [b + 8 + r] else [].

Lemma ADD_SIZE_spec b sz fr pf (Q : unit -> tstate -> Prop) s :
  ts_mem s !! a_size b = Some (tag sz fr pf) -> size_ok sz ->
  (forall mx, Q tt (upd_ctl (fun c =>
     set_sizes (u32 (used_size c + (sz + BHDR_OVERHEAD))) mx (u32 (free_size c - (sz + BHDR_OVERHEAD))) c) s)) ->
  wp (TLSF_ADD_SIZE b) Q s.
Proof.
  intros Hw Hsz HQ. unfold TLSF_ADD_SIZE. wp_step. eapply wp_ld; [done|]. rewrite size_of_tag by done.
  apply wp_modify. simpl. exact (HQ _).
Qed.

Lemma u32_sub_u32 x y : u32 (u32 x - y) = u32 (x - y).
Proof. unfold u32. by rewrite Zminus_mod_idemp_l. Qed.

Lemma used_add t u f n : u = u32 (t - f) -> u32 (u + n) = u32 (t - u32 (f - n)).
Proof.
  intros ->. unfold u32. rewrite Zplus_mod_idemp_l, Zminus_mod_idemp_r. f_equal. lia.
Qed.

Lemma mod8_sub a b : a mod 8 = 0 -> b mod 8 = 0 -> (a - b - 8) mod 8 = 0.
Proof.
  intros Ha Hb. pose proof (Z.div_mod a 8). pose proof (Z.div_mod b 8).
  symmetry. apply (Z.mod_unique _ _ (a / 8 - b / 8 - 1)); lia.
Qed.

(** The blocks of a row change and [n] bytes go from free to used. *)
Lemma tok_update bs bs' s s' n :
  tok bs s -> span bs' = span bs -> chain (ts_mem s') first false 0 bs' -> fl_ok in_ram (frees first bs') s' ->
  free_bytes bs' = free_bytes bs - n ->
  free_size (ts_ctl s') = u32 (free_size (ts_ctl s) - n) -> used_size (ts_ctl s') = u32 (used_size (ts_ctl s) + n) ->
  tok bs' s'.
Proof.
  intros Hok Hsp Hc Hf Hb Hfs Hus. destruct Hok as [_ _ H1 H2 H3 H4 H5 H6].
  split; [done|done|done|by rewrite Hsp|by rewrite Hsp|by rewrite Hsp| |].
  - rewrite Hfs, H5, u32_sub_u32, Hb. f_equal. lia.
  - rewrite Hus, Hfs. by apply used_add.
Qed.

Lemma book_stats c c' : book c' = book c -> free_size c' = free_size c /\ used_size c' = used_size c.
Proof. intros H. split; [exact (f_equal free_size H)|exact (f_equal used_size H)]. Qed.

(** Statistics do not matter to the lists. *)
Lemma fl_ok_stats F f s : (forall c, same_tables c (f c)) -> fl_ok in_ram F s -> fl_ok in_ram F (upd_ctl f s).
Proof. intros Hf. apply fl_ok_frame; [apply Hf|done]. Qed.

(** The middle of the row has left the lists and its [m] bytes become a block in use, of
    which the statistics counted [k] bytes as given back. *)
Record opened (l1 mid l2 : list pblk) (m k : Z) (sz0 : Z) (fr0 pf pfn : bool) (pa : Z) (s s1 : tstate) : Prop := {
  op_ok : tok (l1 ++ mid ++ l2) s;
  op_mid : mid <> [] /\ span mid = 8 + m;
  op_size : blk_ok (m, true);
  op_before : seg (ts_mem s) first false 0 l1 (first + span l1) pf pa;
  op_behind : exists pf1 pa1, chain (ts_mem s) (first + span l1 + 8 + m) pf1 pa1 l2;
  op_used : (head_blk l2).2 = false;
  op_writes : writes [first + span l1; first + span l1 + 8 + m] (frees first (l1 ++ mid ++ l2)).*1 s s1;
  op_lists : fl_ok in_ram (frees first l1 ++ frees (first + span l1 + 8 + m) l2) s1;
  op_prev : pf = true -> ts_mem s1 !! a_prev_hdr (first + span l1) = Some pa;
  op_word : ts_mem s1 !! a_size (first + span l1) = Some (tag sz0 fr0 pf);
  op_word_ok : size_ok sz0;
  op_next : ts_mem s1 !! a_size (first + span l1 + 8 + m) = Some (tag (head_blk l2).1 false pfn);
  op_free : free_size (ts_ctl s1) = u32 (free_size (ts_ctl s) + k);
  op_stat : used_size (ts_ctl s1) = u32 (used_size (ts_ctl s) - k)
}.

Lemma opened_span l1 mid l2 m k sz0 fr0 pf pfn pa s s1 : opened l1 mid l2 m k sz0 fr0 pf pfn pa s s1 ->
  0 <= span l1 /\ 0 <= span l2 /\ span (l1 ++ mid ++ l2) = span l1 + (8 + m) + span l2 /\ 8 <= m < MAX_BLOCK /\
  0 < first + span l1 /\ first + span l1 + 8 + m + 8 <= 2 ^ 32 /\ size_ok (head_blk l2).1 /\ size_ok m.
Proof.
  intros O. pose proof (op_ok _ _ _ _ _ _ _ _ _ _ _ _ O) as Hok. destruct (op_mid _ _ _ _ _ _ _ _ _ _ _ _ O) as [_ Hm].
  pose proof (chain_ok _ _ _ _ _ (tk_chain _ _ _ _ _ Hok)) as Hall. rewrite !Forall_app in Hall. destruct Hall as (Hl1 & _ & Hl2).
  pose proof (span_nonneg _ Hl1). pose proof (span_nonneg _ Hl2). pose proof (tk_first _ _ _ _ _ Hok).
  pose proof (tk_top _ _ _ _ _ Hok) as Htop. pose proof (tk_span _ _ _ _ _ Hok) as Hspan.
  destruct (op_size _ _ _ _ _ _ _ _ _ _ _ _ O) as [H8 H8m]. simpl in H8, H8m. rewrite !span_app, Hm in *.
  destruct (op_behind _ _ _ _ _ _ _ _ _ _ _ _ O) as (pf1 & pa1 & Hc).
  split_and!; try lia; [eapply head_size_ok; [exact Hc|lia]|]. split; [unfold MAX_BLOCK, MAX_FLI in Hspan; lia|done].
Qed.

Lemma opened_stats f u k n x : u32 (u32 (f + k) - x) = u32 (f - (x - k)) /\ u32 (u32 (u - k) + n) = u32 (u + (n - k)).
Proof. rewrite u32_sub_u32. unfold u32. rewrite Zplus_mod_idemp_l. split; f_equal; lia. Qed.

(** The rest is split off as a free block. *)
Lemma opened_split l1 mid l2 m k sz0 fr0 pf pfn pa mark r s s1 :
  let b := first + span l1 in
  let nb := b + 8 + m in
  opened l1 mid l2 m k sz0 fr0 pf pfn pa s s1 -> blk_ok (r, true) -> 16 <= m - r -> mark = true \/ pfn = true ->
  free_bytes mid = 8 + m - k ->
  wp (split_rest in_ram b r (m - r - 8) nb mark;;; TLSF_ADD_SIZE b) (fun _ s' =>
    tok (l1 ++ [(r, false); (m - r - 8, true)] ++ l2) s' /\
    writes [b; b + 8 + r; nb] (b + 8 + r :: (frees first (l1 ++ mid ++ l2)).*1) s s') s1.
Proof.
  intros b nb O Hr Hsplit Hmark Hfb. destruct (opened_span _ _ _ _ _ _ _ _ _ _ _ _ O) as (H1 & H2 & Hsp & Hmax & Hb0 & Htop & Hszn & Hmok).
  fold b in Hb0, Htop. fold nb in Htop. pose proof Hr as [Hr8 Hrm]. destruct O as [Hok [Hmid Hsm] [_ Hmm] Hs (pf1 & pa1 & Hc) Hhd Hw Hfl Hp Hb3 Hsz0 Hn3 Hfs Hus].
  fold b in Hs, Hc, Hw, Hfl, Hp, Hb3, Hn3. fold nb in Hc, Hw, Hfl, Hn3. simpl in Hr8, Hrm, Hmm.
  assert (Hnb : b + span mid = nb) by (subst nb; lia).
  assert (Hnode : forall a, a ∈ (frees first l1 ++ frees nb l2).*1 -> a + 16 <= b \/ nb + 16 <= a).
  { intros a. rewrite <- Hnb. apply node_outside; [exact (chain_ok _ _ _ _ _ (tk_chain _ _ _ _ _ Hok))|done]. }
  assert (Hrest : blk_ok (m - r - 8, true)) by (split; simpl; [lia|by apply mod8_sub]). wp_step.
  eapply wp_mono.
  { apply (split_rest_spec in_ram (frees first l1 ++ frees nb l2) b r (m - r - 8) nb mark sz0 fr0 pf
             (head_blk l2).1 false pfn); try done.
    - apply block_class. lia.
    - subst nb; lia.
    - intros x Hx. apply (tk_ram _ _ _ _ _ Hok). rewrite Hsp. subst nb b. lia.
    - intros a Ha. specialize (Hnode a Ha). unfold apart. subst nb. lia. }
  intros _ s2 (Hfl2 & Hbk & Hb2 & Hpb2 & Hh2 & Hh3 & Hw2). apply book_stats in Hbk as [Hfs2 Hus2].
  assert (Hww : writes [b; b + 8 + r; nb] (b + 8 + r :: (frees first (l1 ++ mid ++ l2)).*1) s s2).
  { eapply writes_mono; [| |eapply writes_trans; [exact Hw|exact Hw2]]; [set_solver|].
    rewrite !frees_app, <- Hnb, !fmap_app. set_solver. }
  eapply ADD_SIZE_spec; [exact Hb2|destruct Hmok; split; [lia|done]|]. intros mx. change BHDR_OVERHEAD with 8. split; [|exact Hww].
  destruct (opened_stats (free_size (ts_ctl s)) (used_size (ts_ctl s)) k (r + 8) (r + 8)) as [Hst1 Hst2].
  apply (tok_update (l1 ++ mid ++ l2) _ s _ (r + 8 - k)); [done| | | | | |].
  - rewrite Hsp, !span_app. simpl. lia.
  - apply (replace_middle l1 mid [(r, false); (m - r - 8, true)] l2 s s2 [b; b + 8 + r; nb]
      (b + 8 + r :: (frees first (l1 ++ mid ++ l2)).*1) pf pa pf1 pa1 true (b + 8 + r)); fold b; rewrite ?Hnb; try done.
    + intros h Hin. rewrite !elem_of_cons, elem_of_nil in Hin. subst nb. lia.
    + intros a [->|Ha]%elem_of_cons; [right; subst nb; lia|left]. by apply frees_are_heads.
    + simpl. split; [split; [exact Hb2|by rewrite Hpb2]|]. split; [done|]. split; [by destruct pf|].
      split_and!; try done. subst nb. lia.
    + by rewrite Hhd.
  - eapply fl_ok_stats; [done|]. eapply fl_ok_perm; [|exact Hfl2].
    rewrite frees_app. simpl. fold b. replace (b + 8 + r + 8 + (m - r - 8)) with nb by (subst nb; lia). apply Permutation_middle.
  - rewrite !free_bytes_app. simpl. lia.
  - simpl. by rewrite Hfs2, Hfs.
  - simpl. by rewrite Hus2, Hus.
Qed.

(** The whole block is kept. *)
Lemma opened_whole l1 mid l2 m k pf pa s s1 :
  opened l1 mid l2 m k m false pf false pa s s1 -> free_bytes mid = 8 + m - k ->
  wp (TLSF_ADD_SIZE (first + span l1)) (fun _ s' => tok (l1 ++ [(m, false)] ++ l2) s' /\
    writes [first + span l1; first + span l1 + 8 + m] (frees first (l1 ++ mid ++ l2)).*1 s s') s1.
Proof.
  intros O Hfb. set (b := first + span l1). set (nb := b + 8 + m).
  destruct (opened_span _ _ _ _ _ _ _ _ _ _ _ _ O) as (H1 & H2 & Hsp & Hmax & Hb0 & Htop & Hszn & Hmok).
  fold b in Hb0, Htop. fold nb in Htop. destruct O as [Hok [Hmid Hsm] Hm Hs (pf1 & pa1 & Hc) Hhd Hw Hfl Hp Hb3 _ Hn3 Hfs Hus].
  fold b in Hs, Hc, Hw, Hfl, Hp, Hb3, Hn3. fold nb in Hc, Hw, Hfl, Hn3. assert (Hnb : b + span mid = nb) by (subst nb; lia).
  eapply ADD_SIZE_spec; [exact Hb3|done|]. intros mx. change BHDR_OVERHEAD with 8. split; [|exact Hw].
  destruct (opened_stats (free_size (ts_ctl s)) (used_size (ts_ctl s)) k (m + 8) (m + 8)) as [Hst1 Hst2].
  apply (tok_update (l1 ++ mid ++ l2) _ s _ (m + 8 - k)); [done| | | | | |].
  - rewrite Hsp, !span_app. simpl. lia.
  - apply (replace_middle l1 mid [(m, false)] l2 s s1 [b; nb] (frees first (l1 ++ mid ++ l2)).*1 pf pa pf1 pa1 false b);
      fold b; rewrite ?Hnb; try done.
    + intros h Hin. rewrite !elem_of_cons, elem_of_nil in Hin. subst nb. lia.
    + intros a Ha. left. by apply frees_are_heads.
    + simpl. split; [by split|]. split; [done|]. split; [by destruct pf|]. done.
    + rewrite Hhd. by split.
  - eapply fl_ok_stats; [done|]. simpl. rewrite frees_used. done.
  - rewrite !free_bytes_app. simpl. lia.
  - simpl. by rewrite Hfs.
  - simpl. by rewrite Hus.
Qed.

(** The end of an allocation: the block that was found is no longer on a list. *)
Lemma found_opened l1 sz l2 s s1 :
  let bs := l1 ++ (sz, true) :: l2 in
  let nb := first + span l1 + 8 + sz in
  tok bs s -> fl_ok in_ram (frees first l1 ++ frees nb l2) s1 -> links_frame (fun a => a ∈ (frees first bs).*1) s s1 ->
  exists pa, opened l1 [(sz, true)] l2 sz 0 sz true false true pa s s1.
Proof.
  intros bs nb Hok Hfl Hfr.
  destruct (tlsf_block _ _ _ _ _ Hok) as (H1 & H2 & Hb & Hszok & _ & _ & Hl1 & Hl2 & pf & pa & Hs & Hh & Hpf & Hc).
  assert (pf = false) as -> by (by destruct pf). exists pa.
  assert (HF : forall h, h ∈ heads first bs -> same_hdr (ts_mem s) (ts_mem s1) h).
  { intros h Hin. apply (links_same_hdr _ _ _ _ Hfr). intros a Ha. apply (heads_apart first bs); [|by apply frees_are_heads|done].
    exact (chain_ok _ _ _ _ _ (tk_chain _ _ _ _ _ Hok)). }
  destruct (HF (first + span l1)) as [_ Hb1]; [subst bs; rewrite heads_app; pose proof (heads_last first l1); set_solver|].
  destruct (HF nb) as [_ Hn1]; [subst bs; rewrite heads_app; pose proof (heads_first nb l2); set_solver|].
  destruct (chain_head _ _ _ _ _ Hc) as [[Hn _] Hhd]. simpl in Hhd. rewrite Hhd in Hn.
  destruct (book_stats _ _ (lf_ctl _ _ _ Hfr)) as [Hfs Hus].
  split; try done.
  - split; [done|]. simpl. lia.
  - by exists true, (first + span l1).
  - apply (writes_mono [] (frees first bs).*1); [set_solver|done|by apply links_writes].
  - rewrite Hb1. exact (proj1 Hh).
  - exact (eq_trans Hn1 Hn).
  - rewrite Hfs, Z.add_0_r, (tk_free _ _ _ _ _ Hok). unfold u32. by rewrite Zmod_mod.
  - rewrite Hus, Z.sub_0_r, (tk_used _ _ _ _ _ Hok). unfold u32. by rewrite Zmod_mod.
Qed.

Lemma take_block_spec l1 sz l2 r s s1 :
  let bs := l1 ++ (sz, true) :: l2 in
  let b := first + span l1 in
  let nb := b + 8 + sz in
  tok bs s -> blk_ok (r, true) -> r <= sz ->
  fl_ok in_ram (frees first l1 ++ frees nb l2) s1 -> links_frame (fun a => a ∈ (frees first bs).*1) s s1 ->
  wp (take_block in_ram b r) (fun _ s' =>
    tok (taken l1 sz l2 r) s' /\ writes (taken_hdrs b sz r) (taken_node b sz r ++ (frees first bs).*1) s s') s1.
Proof.
  intros bs b nb Hok Hr Hle Hfl Hfr. destruct (found_opened l1 sz l2 s s1 Hok Hfl Hfr) as [pa O].
  destruct (opened_span _ _ _ _ _ _ _ _ _ _ _ _ O) as (H1 & H2 & Hsp & Hmax & Hb0 & Htop & Hszn & Hszok).
  pose proof (op_word _ _ _ _ _ _ _ _ _ _ _ _ O) as Hb1. pose proof (op_next _ _ _ _ _ _ _ _ _ _ _ _ O) as Hn1.
  fold b in Hb0, Htop, Hb1, Hn1. fold nb in Htop, Hn1. pose proof Hr as [Hr8 _]. simpl in Hr8.
  assert (Hram : forall x, b <= x <= nb + 4 -> in_ram x = true).
  { intros x Hx. apply (tk_ram _ _ _ _ _ Hok). unfold bs. simpl in Hsp. rewrite Hsp. subst b nb. lia. }
  unfold take_block, GET_NEXT_BLOCK. wp_step. eapply wp_ld; [done|]. rewrite size_of_tag by done. cbv zeta.
  replace (u32 (a_buffer b + sz)) with nb by (unfold a_buffer; rewrite u32_id; unfold in_u32; subst b nb; lia).
  rewrite (u32_id (sz - r)) by (unfold in_u32; destruct Hszok; lia).
  unfold taken, taken_hdrs, taken_node. change sizeof_bhdr with 16. change BHDR_OVERHEAD with 8.
  destruct (Z.leb_spec 16 (sz - r)) as [Hsplit|Hkeep].
  - apply (opened_split l1 [(sz, true)] l2 sz 0 sz true false true pa false r s s1); try done. by right.
  - wp_step. wp_step. eapply wp_ld; [done|]. rewrite tag_clear_prev_free by done.
    wp_step. apply wp_st; [apply Hram; subst nb; addr|].
    wp_step. eapply wp_ld; [rewrite upd_tmem_lookup, decide_False by addr; done|]. rewrite tag_clear_free by done.
    apply wp_st; [apply Hram; subst nb; addr|]. apply (opened_whole l1 [(sz, true)] l2 sz 0 false pa s); [|simpl; lia].
    destruct O as [? ? ? ? ? ? Hw ? ? ? ? ? ? ?]. split; try done.
    + intros x HH HL. pose proof (HH _ (list_elem_of_here _ _)). pose proof (HH nb ltac:(set_solver)).
      rewrite !upd_tmem_lookup, !decide_False by tauto. by apply Hw.
    + apply fl_ok_st; [|apply fl_ok_st; [|done]]; intros x Hx; destruct (frees_around l1 sz true l2 s x Hok Hx) as [H3 H4];
        fold b nb in H3, H4; destruct H4; subst; split; addr.
    + rewrite upd_tmem_lookup, decide_True by done. done.
    + fold b nb. rewrite !upd_tmem_lookup, decide_False, decide_True by (done || addr). done.
Qed.

Lemma adjust_size_spec size : 0 <= size <= MAX_REQUEST ->
  size <= adjust_size size <= MAX_REQUEST /\ blk_ok (adjust_size size, true).
Proof.
  unfold MAX_REQUEST. intros Hs. unfold adjust_size, MIN_BLOCK_SIZE, blk_ok. destruct (Z.ltb_spec size 8); [split; [lia|done]|].
  unfold ROUNDUP_SIZE, ROUNDDOWN_SIZE. rewrite u32_id by (unfold in_u32, MEM_ALIGN; lia).
  fold (lnot32 MEM_ALIGN). rewrite land_lnot32 by (unfold MEM_ALIGN; lia).
  change MEM_ALIGN with (2 ^ 3 - 1). rewrite div_mul_step by lia. change (2 ^ 3) with 8. simpl fst.
  pose proof (Z.div_mod (size + 7) 8). pose proof (Z.mod_pos_bound (size + 7) 8). change (8 - 1) with 7.
  split; [|split; [lia|apply Z.mod_mul; lia]].
  split; [lia|]. assert ((size + 7) / 8 <= (2 ^ 19 - 2 ^ 13 + 7) / 8) by (apply Z.div_le_mono; lia).
  change ((2 ^ 19 - 2 ^ 13 + 7) / 8) with 64512 in *. lia.
Qed.

(** The size a request is rounded to. *)
Definition rounded (size : Z) : Z := (MAPPING_SEARCH (adjust_size size)).1.1.

(** A word of a block that is in use. *)
Definition user_word (bs : list pblk) (x : Z) : Prop :=
  exists l1 sz l2, bs = l1 ++ (sz, false) :: l2 /\ first + span l1 + 8 <= x <= first + span l1 + 8 + sz - 4.

Definition user_kept (bs : list pblk) (s s' : tstate) : Prop :=
  forall x, user_word bs x -> ts_mem s' !! x = ts_mem s !! x.

(** Two blocks of a row are the same or one lies behind the other. *)
Lemma blocks_ordered (l1 l2 m1 m2 : list pblk) p q : l1 ++ p :: l2 = m1 ++ q :: m2 ->
  (l1 = m1 /\ p = q /\ l2 = m2) \/ (exists k, m1 = l1 ++ p :: k) \/ (exists k, l1 = m1 ++ q :: k).
Proof.
  revert m1. induction l1 as [|x l1 IH]; intros [|y m1]; simpl; intros [= Hx Hl].
  - by left.
  - right. left. subst. by exists m1.
  - right. right. subst. by exists l1.
  - destruct (IH m1 Hl) as [(->&->&->)|[(k&->)|(k&->)]]; subst; eauto 10.
Qed.

(** A word in use is outside every free block and outside every header. *)
Lemma user_word_outside bs s x l1 sz l2 : tok bs s -> user_word bs x -> bs = l1 ++ (sz, true) :: l2 ->
  x + 4 <= first + span l1 \/ first + span l1 + 8 + sz + 8 <= x.
Proof.
  intros Hok (m1 & sm & m2 & Hm & Hx) Hb. pose proof (chain_ok _ _ _ _ _ (tk_chain _ _ _ _ _ Hok)) as Hall.
  rewrite Hb in Hm. destruct (blocks_ordered _ _ _ _ _ _ Hm) as [(_&[=]&_)|[(k&->)|(k&->)]]; subst bs.
  - right. rewrite Hm in Hall. rewrite !Forall_app, !Forall_cons in Hall. destruct Hall as [[_ [_ Hk]] _].
    pose proof (span_nonneg k Hk). rewrite span_app in *. simpl in *. lia.
  - left. rewrite !Forall_app, !Forall_cons in Hall. destruct Hall as [[_ [_ Hk]] _].
    pose proof (span_nonneg k Hk). rewrite span_app in *. simpl in *. lia.
Qed.

Lemma user_word_header bs s x h : tok bs s -> user_word bs x -> h ∈ heads first bs -> x + 4 <= h \/ h + 8 <= x.
Proof.
  intros Hok (m1 & sm & m2 & -> & Hx). pose proof (chain_ok _ _ _ _ _ (tk_chain _ _ _ _ _ Hok)) as Hall.
  rewrite !Forall_app, !Forall_cons in Hall. destruct Hall as (H1 & [H8 _] & H2). rewrite heads_app, elem_of_app. simpl in H8.
  intros [Hin|Hin]; apply heads_bounds in Hin; [lia|done|lia|done].
Qed.

Lemma alloc_user_kept l1 sz l2 r s s' :
  let bs := l1 ++ (sz, true) :: l2 in
  let b := first + span l1 in
  tok bs s -> blk_ok (r, true) -> r <= sz ->
  writes (taken_hdrs b sz r) (taken_node b sz r ++ (frees first bs).*1) s s' ->
  user_kept bs s s'.
Proof.
  intros bs b Hok [Hr8 _] Hle Hw x Hx. simpl in Hr8.
  pose proof (user_word_outside bs s x l1 sz l2 Hok Hx eq_refl) as Hout. fold b in Hout.
  assert (HL : forall a, a ∈ (frees first bs).*1 -> x <> a_prev a /\ x <> a_next a).
  { intros a ([a' sa] & -> & Ha)%list_elem_of_fmap. simpl. apply frees_split in Ha as (m1 & m2 & Hm & ->).
    pose proof (user_word_outside bs s x m1 sa m2 Hok Hx Hm).
    destruct (tlsf_block m1 sa true m2 s) as (_ & _ & [Hs8 _] & _); [by rewrite <- Hm|]. simpl in Hs8. addr. }
  assert (Hb : x <> a_prev_hdr b /\ x <> a_size b) by addr.
  assert (Hn : x <> a_prev_hdr (b + 8 + sz) /\ x <> a_size (b + 8 + sz)) by addr.
  unfold taken_hdrs, taken_node in Hw. change sizeof_bhdr with 16 in Hw. destruct (Z.leb_spec 16 (sz - r)); apply Hw.
  - intros h Hh. rewrite !elem_of_cons, elem_of_nil in Hh. destruct Hh as [->|[->|[->|[]]]]; [done|addr|done].
  - simpl. intros a [->|Ha]%elem_of_cons; [addr|by apply HL].
  - intros h Hh. rewrite !elem_of_cons, elem_of_nil in Hh. by destruct Hh as [->|[->|[]]].
  - done.
Qed.

Lemma frees_elem bs sz : (exists a, (a, sz) ∈ frees first bs) <-> (sz, true) ∈ bs.
Proof.
  split.
  - intros (a & (l1 & l2 & -> & _)%frees_split). set_solver.
  - intros (l1 & l2 & ->)%list_elem_of_split. exists (first + span l1). rewrite frees_mid. set_solver.
Qed.

Lemma rounded_spec size : 0 <= size <= MAX_REQUEST -> exists k,
  MAPPING_SEARCH (adjust_size size) = (rounded size, k.1, k.2) /\ in_table k /\
  size <= rounded size < MAX_BLOCK /\ blk_ok (rounded size, true) /\
  rounded size <= adjust_size size + adjust_size size / 32 /\
  forall sz, 0 <= sz < MAX_BLOCK -> cls_le k (MAPPING_INSERT sz) <-> rounded size <= sz.
Proof.
  intros Hs. destruct (adjust_size_spec size Hs) as [Ha [Ha8 Ham]]. simpl in Ha8, Ham.
  destruct (MAPPING_SEARCH_spec (adjust_size size) ltac:(lia) Ham) as (k & r & He & Hr & Hm & Hk & Hlow & Hw).
  unfold rounded. rewrite He. simpl. exists k. split; [done|].
  split; [subst k; apply block_class; lia|]. split; [lia|]. split; [split; simpl; [lia|done]|]. split; [done|].
  intros sz Hsz. subst k. apply class_good_fit; [lia|lia|done].
Qed.

(** Either no free block is large enough for the rounded request, and nothing changes, or
    a block of the lowest class that is large enough is taken. *)
Definition allocated (bs : list pblk) (size p : Z) (s s' : tstate) : Prop :=
  (p = NULL /\ s' = s /\ forall sz, (sz, true) ∈ bs -> sz < rounded size) \/
  (exists l1 sz l2, bs = l1 ++ (sz, true) :: l2 /\ p = first + span l1 + 8 /\ size <= rounded size <= sz /\
     (forall sz', (sz', true) ∈ bs -> rounded size <= sz' -> cls_le (MAPPING_INSERT sz) (MAPPING_INSERT sz')) /\
     tok (taken l1 sz l2 (rounded size)) s' /\ user_kept bs s s').

Lemma malloc_ex_spec bs size s :
  tok bs s -> 0 <= size <= MAX_REQUEST ->
  wp (malloc_ex in_ram size) (fun p s' => allocated bs size p s s') s.
Proof.
  intros Hok Hs. destruct (rounded_spec size Hs) as (k & Hsearch & Hk & Hr & Hrok & _ & Hfit).
  assert (Hsize : forall sz, (sz, true) ∈ bs -> 0 <= sz < MAX_BLOCK).
  { intros sz (l1 & l2 & ->)%list_elem_of_split. destruct (tlsf_block _ _ _ _ _ Hok) as (_ & _ & [H8 _] & _ & Hm & _). simpl in H8. lia. }
  unfold malloc_ex. rewrite Hsearch. wp_step.
  eapply wp_mono; [apply (find_spec in_ram _ k s (tk_lists _ _ _ _ _ Hok) Hk)|].
  intros [[b fl] sl] s' [-> Hf]. simpl in Hf. destruct Hf as [[-> Hnone]|(sz & Hin & Hb0 & HM & Hle & Hmin & Hex)].
  - simpl. apply wp_ret. left. split; [done|]. split; [done|]. intros sz Hsz.
    destruct (Z_lt_dec sz (rounded size)); [done|]. destruct (proj2 (frees_elem bs sz) Hsz) as [a Ha].
    destruct (Hnone _ Ha). simpl. apply Hfit; [by apply Hsize|lia].
  - destruct (Z.eqb_spec b NULL); [done|].
    assert (Hszm : (sz, true) ∈ bs) by (apply frees_elem; eauto).
    apply frees_split in Hin as (l1 & l2 & -> & ->).
    apply Hfit in Hle; [|by apply Hsize]. wp_step.
    eapply wp_mono; [apply (Hex (frees first l1 ++ frees (first + span l1 + 8 + sz) l2)); apply frees_mid|].
    intros _ s1 [Hfl Hfr]. wp_step.
    eapply wp_mono; [by apply (take_block_spec l1 sz l2 (rounded size) s s1)|].
    intros _ s2 [Hok2 Hw]. apply wp_ret. right. exists l1, sz, l2. split; [done|]. split; [done|]. split; [lia|].
    split; [|split; [done|by apply (alloc_user_kept l1 sz l2 (rounded size))]].
    intros sz' Hsz' Hle'. destruct (proj2 (frees_elem _ sz') Hsz') as [a Ha]. apply (Hmin _ Ha). simpl.
    by apply Hfit; [apply Hsize|].
Qed.

(** ** Release *)

(** A free block behind is joined. *)
Definition join_next (sz : Z) (l2 : list pblk) : Z * list pblk :=
  match l2 with (sz2, true) :: l2' => (sz + 8 + sz2, l2') | _ => (sz, l2) end.

(** A block of [sz] bytes between [l1] and [l2] is released: free neighbours are joined. *)
Definition released (l1 : list pblk) (sz : Z) (l2 : list pblk) : list pblk :=
  let '(sz', l2') := join_next sz l2 in
  match rev l1 with
  | (sz1, true) :: r1 => rev r1 ++ (sz1 + 8 + sz', true) :: l2'
  | _ => l1 ++ (sz', true) :: l2'
  end.

Lemma released_join l0 sz1 sz l2 : released (l0 ++ [(sz1, true)]) sz l2 =
  l0 ++ (sz1 + 8 + (join_next sz l2).1, true) :: (join_next sz l2).2.
Proof. unfold released. destruct (join_next sz l2). rewrite rev_app_distr. simpl. by rewrite rev_involutive. Qed.

Lemma released_alone l1 sz l2 : (forall l0 sz1, l1 <> l0 ++ [(sz1, true)]) ->
  released l1 sz l2 = l1 ++ ((join_next sz l2).1, true) :: (join_next sz l2).2.
Proof.
  intros Hl. unfold released. destruct (join_next sz l2). destruct (rev l1) as [|[sz1 []] r1] eqn:E; [done| |done].
  destruct (Hl (rev r1) sz1). rewrite <- (rev_involutive l1), E. done.
Qed.

(** The flag of the block before tells whether it is free. *)
Lemma seg_last m a l b pf pa : seg m a false 0 l b pf pa ->
  if pf then exists l0 sz1 pa0, l = l0 ++ [(sz1, true)] /\ pa = a + span l0 /\
               seg m a false 0 l0 pa false pa0 /\ hdr m pa sz1 true false pa0
  else forall l0 sz1, l <> l0 ++ [(sz1, true)].
Proof.
  destruct l as [|[z zf] l _] using rev_ind.
  - intros (-> & -> & ->). intros [|? ?] ?; done.
  - intros Hs. apply seg_app in Hs as (pf1 & pa1 & Hs & Hh & _ & Hn & _ & -> & ->). destruct zf.
    + rewrite andb_true_r in Hn. subst pf1. exists l, z, pa1. done.
    + intros l0 sz1 [_ [=]]%app_inj_tail.
Qed.

Lemma REMOVE_SIZE_spec b sz fr pf (Q : unit -> tstate -> Prop) s :
  ts_mem s !! a_size b = Some (tag sz fr pf) -> size_ok sz ->
  Q tt (upd_ctl (fun c =>
     set_sizes (u32 (used_size c - (sz + BHDR_OVERHEAD))) (max_size c) (u32 (free_size c + (sz + BHDR_OVERHEAD))) c) s) ->
  wp (TLSF_REMOVE_SIZE b) Q s.
Proof.
  intros Hw Hsz HQ. unfold TLSF_REMOVE_SIZE. wp_step. eapply wp_ld; [done|]. rewrite size_of_tag by done.
  by apply wp_modify.
Qed.

(** The block behind [b] is joined when it is free; [F] are the free blocks before. *)
Lemma merge_next_spec F b sz pf l2 s :
  0 < b -> 8 <= sz -> b + 8 + sz + span l2 + 8 <= 2 ^ 32 -> Forall blk_ok l2 -> size_ok sz ->
  (forall x, b <= x <= b + 8 + sz + span l2 + 4 -> in_ram x = true) ->
  fl_ok in_ram (F ++ frees (b + 8 + sz) l2) s -> (forall a, a ∈ F.*1 -> apart b a) ->
  ts_mem s !! a_size b = Some (tag sz true pf) ->
  (exists pfn, ts_mem s !! a_size (b + 8 + sz) = Some (tag (head_blk l2).1 (head_blk l2).2 pfn)) ->
  let j := join_next sz l2 in
  wp (merge_next in_ram b) (fun _ s' =>
    fl_ok in_ram (F ++ frees (b + 8 + j.1) j.2) s' /\ book (ts_ctl s') = book (ts_ctl s) /\
    ts_mem s' !! a_size b = Some (tag j.1 true pf) /\ ts_mem s' !! a_prev_hdr b = ts_mem s !! a_prev_hdr b /\
    writes [b] (F ++ frees (b + 8 + sz) l2).*1 s s') s.
Proof.
  intros Hb0 H8 Htop Hl2 Hszok Hram Hfl Hap Hb (pfn & Hn) j. unfold merge_next, GET_NEXT_BLOCK.
  pose proof (span_nonneg l2 Hl2) as Hsp.
  wp_step. eapply wp_ld; [done|]. rewrite size_of_tag by done. cbv zeta.
  replace (u32 (a_buffer b + sz)) with (b + 8 + sz) by (unfold a_buffer; rewrite u32_id; [done|unfold in_u32; lia]).
  set (nb := b + 8 + sz) in *.
  assert (Hszn : size_ok (head_blk l2).1).
  { destruct l2 as [|[z zf] l2]; [split; [simpl; lia|done]|]. apply Forall_cons in Hl2 as [[Hz Hzm] Hl2].
    pose proof (span_nonneg l2 Hl2). simpl in *. split; [lia|done]. }
  wp_step. eapply wp_ld; [done|]. rewrite tag_is_free, negb_involutive by done. unfold when.
  destruct (head_blk l2).2 eqn:Hfree.
  - destruct l2 as [|[sz2 fr2] l2]; [done|]. simpl in Hfree. subst fr2. simpl in *.
    apply Forall_cons in Hl2 as [[Hz Hzm] Hl2]. pose proof (span_nonneg l2 Hl2). simpl in Hz, Hzm.
    assert (Hperm : F ++ (nb, sz2) :: frees (nb + 8 + sz2) l2 ≡ₚ (nb, sz2) :: F ++ frees (nb + 8 + sz2) l2).
    { symmetry. apply Permutation_middle. }
    wp_step. eapply wp_mono; [eapply extract_sized_spec; [eapply fl_ok_perm; [exact Hperm|exact Hfl]|done|done]|].
    intros _ s1 [Hfl1 Hfr1].
    assert (Hk : forall h, h = b \/ h = nb -> same_hdr (ts_mem s) (ts_mem s1) h).
    { intros h Hh. apply (links_same_hdr _ _ _ _ Hfr1). intros a [->|Ha]%elem_of_cons; [destruct Hh; subst; [right; subst nb; addr|by left]|].
      rewrite fmap_app, elem_of_app in Ha. destruct Ha as [Ha|Ha].
      - pose proof (fl_ok_apart _ _ _ a nb Hfl). rewrite !fmap_app in H0. specialize (Hap a Ha).
        destruct Hh as [->| ->]; [right; by apply apart_sym_hdr|]. apply H0; simpl; set_solver.
      - apply frees_are_heads_at in Ha as Ha'. apply heads_bounds in Ha'; [|done].
        right. destruct Hh; subst h nb; addr. }
    wp_step. eapply wp_ld; [rewrite (proj2 (Hk nb ltac:(by right))); done|].
    wp_step. eapply wp_ld; [rewrite (proj2 (Hk b ltac:(by left))); done|].
    rewrite size_of_tag, tag_grow by done.
    assert (Hu : u32 (tag (sz + 8 + sz2) true pf) = tag (sz + 8 + sz2) true pf).
    { apply u32_id. pose proof (flags_range true pf). unfold tag, in_u32. subst nb. lia. }
    rewrite Hu. apply wp_st; [apply Hram; addr|]. split_and!.
    + replace (b + 8 + (sz + 8 + sz2)) with (nb + 8 + sz2) by (subst nb; lia).
      apply fl_ok_st; [|done]. intros x Hx. rewrite fmap_app, elem_of_app in Hx. destruct Hx as [Hx|Hx].
      * specialize (Hap x Hx). addr.
      * apply frees_are_heads_at, heads_bounds in Hx; [|done]. subst nb. addr.
    + exact (lf_ctl _ _ _ Hfr1).
    + rewrite upd_tmem_lookup, decide_True by done. done.
    + rewrite upd_tmem_lookup, decide_False, (proj1 (Hk b ltac:(by left))) by addr. done.
    + intros x HH HL. pose proof (HH b ltac:(set_solver)). rewrite upd_tmem_lookup, decide_False by tauto.
      apply (lf_mem _ _ _ Hfr1). intros a Ha. apply HL. rewrite Hperm. done.
  - assert (Hj : join_next sz l2 = (sz, l2)) by (destruct l2 as [|[z []] l2]; done).
    subst j. rewrite Hj. apply wp_ret. split_and!; done.
Qed.

(** The merged block of [sz] bytes at [b] before the header at [nb]. *)
Lemma insert_merged_spec F b sz pf szn pfn s :
  let nb := b + 8 + sz in
  0 < b -> blk_ok (sz, true) -> size_ok sz -> sz < MAX_BLOCK -> nb + 8 <= 2 ^ 32 ->
  (forall x, b <= x <= nb + 4 -> in_ram x = true) ->
  fl_ok in_ram F s -> (forall a, a ∈ F.*1 -> apart b a /\ apart nb a) ->
  ts_mem s !! a_size b = Some (tag sz true pf) ->
  ts_mem s !! a_size nb = Some (tag szn false pfn) -> size_ok szn ->
  wp (insert_merged in_ram b) (fun _ s' =>
    fl_ok in_ram ((b, sz) :: F) s' /\ book (ts_ctl s') = book (ts_ctl s) /\
    same_hdr (ts_mem s) (ts_mem s') b /\ hdr (ts_mem s') nb szn false true b /\
    writes [nb] (b :: F.*1) s s') s.
Proof.
  intros nb Hb0 [H8 Hm] Hszok Hmax Htop Hram Hfl Hap Hb Hn Hszn. simpl in H8, Hm. unfold insert_merged, GET_NEXT_BLOCK.
  wp_step. eapply wp_ld; [done|]. rewrite size_of_tag by done.
  rewrite (surjective_pairing (MAPPING_INSERT sz)). cbv iota beta. wp_step.
  eapply wp_mono.
  { apply (insert_sized_spec in_ram F b sz); [done|apply block_class; lia|unfold NULL; lia| |split; apply Hram; subst nb; addr].
    intros a Ha. apply (Hap a Ha). }
  intros _ s1 [Hfl1 Hfr].
  assert (Hk : forall h, h = b \/ h = nb -> same_hdr (ts_mem s) (ts_mem s1) h).
  { intros h Hh. apply (links_same_hdr _ _ _ _ Hfr). intros a [->|Ha]%elem_of_cons.
    - destruct Hh as [->| ->]; [by left|right; subst nb; addr].
    - destruct (Hap a Ha). destruct Hh as [->| ->]; right; by apply apart_sym_hdr. }
  destruct (Hk b ltac:(by left)) as [Eb1 Eb2]. destruct (Hk nb ltac:(by right)) as [En1 En2].
  wp_step. eapply wp_ld; [by rewrite Eb2|]. rewrite size_of_tag by done. cbv zeta.
  replace (u32 (a_buffer b + sz)) with nb by (unfold a_buffer; rewrite u32_id; [subst nb; lia|unfold in_u32; subst nb; lia]).
  wp_step. eapply wp_ld; [by rewrite En2|]. rewrite tag_set_prev_free by done.
  wp_step. apply wp_st; [apply Hram; subst nb; addr|]. apply wp_st; [apply Hram; subst nb; addr|].
  set (s2 := upd_tmem _ (upd_tmem _ s1)).
  assert (Hm2 : forall x, x <> a_size nb -> x <> a_prev_hdr nb -> ts_mem s2 !! x = ts_mem s1 !! x).
  { intros x Hx1 Hx2. subst s2. rewrite !upd_tmem_lookup, !decide_False by done. done. }
  split_and!.
  - apply fl_ok_st; [|apply fl_ok_st; [|done]]; simpl; intros x [->|Hx]%elem_of_cons;
      try (subst nb; split; addr); destruct (Hap x Hx); split; addr.
  - exact (lf_ctl _ _ _ Hfr).
  - split; rewrite Hm2 by (subst nb; addr); done.
  - split.
    + subst s2. rewrite !upd_tmem_lookup, decide_False, decide_True by (done || addr). done.
    + intros _. subst s2. rewrite upd_tmem_lookup, decide_True by done. done.
  - intros x HH HL. pose proof (HH nb ltac:(set_solver)). rewrite Hm2 by tauto. by apply (lf_mem _ _ _ Hfr).
Qed.

(** The block before [b] is joined when it is free. *)
Lemma merge_prev_free_spec F b sz pb sz1 s :
  fl_ok in_ram ((pb, sz1) :: F) s -> b = pb + 8 + sz1 -> 0 < pb -> blk_ok (sz1, true) -> size_ok sz ->
  size_ok sz1 -> b + 8 + sz + 8 <= 2 ^ 32 ->
  (forall x, pb <= x <= b -> in_ram x = true) -> (forall a, a ∈ F.*1 -> apart b a) ->
  ts_mem s !! a_size b = Some (tag sz true true) -> ts_mem s !! a_prev_hdr b = Some pb ->
  ts_mem s !! a_size pb = Some (tag sz1 true false) ->
  wp (merge_prev in_ram b) (fun r s' => r = pb /\
    fl_ok in_ram F s' /\ book (ts_ctl s') = book (ts_ctl s) /\
    ts_mem s' !! a_size pb = Some (tag (sz1 + 8 + sz) true false) /\
    writes [pb] (pb :: F.*1) s s') s.
Proof.
  intros Hfl -> Hpb0 [H8 Hm] Hszok Hsz1 Htop Hram Hap Hb Hp Hpb. simpl in H8, Hm. set (b := pb + 8 + sz1) in *.
  unfold merge_prev. wp_step. eapply wp_ld; [done|]. rewrite tag_prev_free by done. simpl negb. cbv iota.
  wp_step. eapply wp_ld; [done|]. wp_step. eapply wp_mono; [by eapply extract_sized_spec|].
  intros _ s1 [Hfl1 Hfr].
  assert (Hpa : forall a, a ∈ F.*1 -> apart a pb).
  { intros a Ha. pose proof (fl_ok_nodup _ _ _ Hfl) as Hnd. simpl in Hnd. apply NoDup_cons in Hnd as [Hnd _].
    destruct (fl_ok_apart _ _ _ a pb Hfl) as [->|]; [simpl; set_solver|simpl; set_solver|done|done]. }
  assert (Eb : same_hdr (ts_mem s) (ts_mem s1) b).
  { apply (links_same_hdr _ _ _ _ Hfr). intros a [->|Ha]%elem_of_cons; right; [subst b; addr|apply apart_sym_hdr; auto]. }
  assert (Ep : same_hdr (ts_mem s) (ts_mem s1) pb).
  { apply (links_same_hdr _ _ _ _ Hfr). intros a [->|Ha]%elem_of_cons; [by left|right; auto]. }
  wp_step. eapply wp_ld; [by rewrite (proj2 Ep)|]. wp_step. eapply wp_ld; [by rewrite (proj2 Eb)|].
  rewrite size_of_tag, tag_grow by done.
  rewrite u32_id by (pose proof (flags_range true false); unfold in_u32, tag; destruct Hszok; subst b; lia).
  wp_step. apply wp_st; [apply Hram; subst b; addr|]. apply wp_ret. split; [done|]. split_and!.
  - apply fl_ok_st; [|done]. intros x Hx. specialize (Hpa x Hx). addr.
  - exact (lf_ctl _ _ _ Hfr).
  - rewrite upd_tmem_lookup, decide_True by done. done.
  - intros x HH HL. pose proof (HH pb ltac:(set_solver)). rewrite upd_tmem_lookup, decide_False by tauto.
    by apply (lf_mem _ _ _ Hfr).
Qed.

(** The row [l0 ++ M ++ l2] whose middle part has become one free block that is not on a
    list yet: the last step of a release. *)
Lemma release_finish l0 M l2 sz pf pa pf1 pa1 H L n s s3 :
  let bs := l0 ++ M ++ l2 in
  let fb := first + span l0 in
  let nb := fb + 8 + sz in
  tok bs s -> M <> [] -> span M = 8 + sz -> free_bytes M = 8 + sz - n -> blk_ok (sz, true) ->
  seg (ts_mem s) first false 0 l0 fb pf pa -> pf = false -> chain (ts_mem s) nb pf1 pa1 l2 -> (head_blk l2).2 = false ->
  writes H L s s3 ->
  (forall h, h ∈ H -> fb <= h /\ h + 16 <= nb) ->
  (forall a, a ∈ L -> (fb <= a /\ a + 16 <= nb) \/ a ∈ (frees first l0 ++ frees nb l2).*1) ->
  fl_ok in_ram (frees first l0 ++ frees nb l2) s3 ->
  ts_mem s3 !! a_size fb = Some (tag sz true false) ->
  free_size (ts_ctl s3) = u32 (free_size (ts_ctl s) + n) -> used_size (ts_ctl s3) = u32 (used_size (ts_ctl s) - n) ->
  wp (insert_merged in_ram fb) (fun _ s' =>
    tok (l0 ++ (sz, true) :: l2) s' /\ user_kept (l0 ++ (sz, true) :: l2) s s') s3.
Proof.
  intros bs fb nb Hok HM HsM HfM Hszb Hs -> Hc Hhd Hw HH HL Hfl Hfb Hfs Hus.
  pose proof (chain_ok _ _ _ _ _ (tk_chain _ _ _ _ _ Hok)) as Hall. pose proof Hall as Hall2.
  unfold bs in Hall2. rewrite !Forall_app in Hall2. destruct Hall2 as (Hl0 & HlM & Hl2).
  pose proof (span_nonneg _ Hl0). pose proof (span_nonneg _ Hl2). pose proof Hszb as [H8 Hm8]. simpl in H8, Hm8.
  pose proof (tk_first _ _ _ _ _ Hok) as Hf0. pose proof (tk_top _ _ _ _ _ Hok) as Htop.
  pose proof (tk_span _ _ _ _ _ Hok) as Hspan. unfold bs in Htop, Hspan. rewrite !span_app, HsM in Htop, Hspan.
  assert (Hnb : fb + span M = nb) by (rewrite HsM; subst nb; lia).
  assert (Hnode : forall a, a ∈ (frees first l0 ++ frees nb l2).*1 ->
    a ∈ heads first bs /\ (a + 16 <= fb \/ nb + 16 <= a)).
  { intros a. rewrite <- Hnb. by apply (node_outside first l0 M l2). }
  assert (Hnbh : same_hdr (ts_mem s) (ts_mem s3) nb).
  { apply (writes_hdr H L); [done| |].
    - intros x Hx. apply HH in Hx. unfold apart. lia.
    - intros a Ha. apply HL in Ha as [Ha|Ha]; [right; unfold apart; lia|].
      destruct (Hnode a Ha) as [_ Hx]. right. unfold apart. subst nb. lia. }
  destruct (chain_head _ _ _ _ _ Hc) as [[Hn _] _].
  assert (Hszn : size_ok (head_blk l2).1) by (eapply head_size_ok; [exact Hc|lia]).
  eapply wp_mono.
  { apply (insert_merged_spec (frees first l0 ++ frees nb l2) fb sz false (head_blk l2).1 pf1); fold nb; try done.
    - subst fb; lia.
    - split; [|done]. unfold MAX_BLOCK, MAX_FLI in Hspan. lia.
    - unfold MAX_BLOCK, MAX_FLI in *. lia.
    - subst nb fb; lia.
    - intros x Hx. apply (tk_ram _ _ _ _ _ Hok). unfold bs. rewrite !span_app, HsM. subst nb fb. lia.
    - intros a Ha. destruct (Hnode a Ha) as [_ Hx]. unfold apart. subst nb. lia.
    - rewrite (proj2 Hnbh), Hn, Hhd. done. }
  intros _ s' (Hfl' & Hbk & Hsame & Hhn & Hw'). apply book_stats in Hbk as [Hfs' Hus'].
  pose proof (writes_trans _ _ _ _ _ _ _ Hw Hw') as Hww.
  assert (HLL : forall a, a ∈ L ++ fb :: (frees first l0 ++ frees nb l2).*1 ->
    a ∈ (frees first l0 ++ frees nb l2).*1 \/ (fb <= a /\ a + 16 <= nb)).
  { intros a [Ha|[->|Ha]%elem_of_cons]%elem_of_app; [apply HL in Ha; tauto|right; subst nb; lia|by left]. }
  assert (Hok' : tok (l0 ++ (sz, true) :: l2) s').
  { apply (tok_update bs _ s _ (- n)); [done| | | | | |].
    - unfold bs. rewrite !span_app, HsM. simpl. lia.
    - apply (replace_middle l0 M [(sz, true)] l2 s s' (H ++ [nb]) (L ++ fb :: (frees first l0 ++ frees nb l2).*1)
        false pa pf1 pa1 true fb); try done; fold fb; rewrite ?Hnb; try done.
      + intros h [Hh%HH|Hh]%elem_of_app; [lia|]. apply list_elem_of_singleton in Hh. subst h nb. lia.
      + intros a Ha. destruct (HLL a Ha) as [Hx|Hx]; [left; by apply (Hnode a)|by right].
      + simpl. split; [|done]. split; [|done]. rewrite (proj2 Hsame). done.
      + rewrite Hhd. done.
    - rewrite frees_mid. done.
    - unfold bs. rewrite !free_bytes_app, HfM. simpl. lia.
    - rewrite Hfs', Hfs. f_equal. lia.
    - rewrite Hus', Hus. f_equal. }
  split; [done|]. intros x Hx. pose proof (user_word_outside _ s' x l0 sz l2 Hok' Hx eq_refl) as Hout. fold fb nb in Hout.
  apply Hww.
  - intros h [Hh%HH|Hh]%elem_of_app; [addr|]. apply list_elem_of_singleton in Hh. subst h. addr.
  - intros a Ha. destruct (HLL a Ha) as [Hin|Hr]; [|addr].
    assert (Hin' : a ∈ (frees first (l0 ++ (sz, true) :: l2)).*1) by (rewrite frees_mid; simpl; set_solver).
    apply list_elem_of_fmap in Hin' as ([a' sa] & -> & (m1 & m2 & Hm & ->)%frees_split). simpl.
    pose proof (user_word_outside _ s' x m1 sa m2 Hok' Hx Hm).
    destruct (tlsf_block m1 sa true m2 s') as (_ & _ & [Hs8 _] & _); [by rewrite <- Hm|]. simpl in Hs8. addr.
Qed.

(** What a join with the block behind takes from the row. *)
Lemma join_next_split sz l2 : exists N, l2 = N ++ (join_next sz l2).2 /\ (join_next sz l2).1 = sz + span N /\
  free_bytes N = span N /\
  forall m a pf pa, chain m a pf pa l2 -> (head_blk (join_next sz l2).2).2 = false.
Proof.
  destruct l2 as [|[z []] l2]; simpl.
  - exists []. simpl. split_and!; [done|lia|done|done].
  - exists [(z, true)]. simpl. split_and!; [done|lia|lia|]. intros m a pf pa Hc.
    apply chain_cons in Hc as (_ & _ & _ & Hc). apply chain_head in Hc as [_ Hn]. done.
  - exists []. simpl. split_and!; [done|lia|done|done].
Qed.

Lemma blk_ok_join a b fr fr' : blk_ok (a, fr) -> blk_ok (b, fr') -> blk_ok (a + 8 + b, true).
Proof.
  intros [H1 H2] [H3 H4]. simpl in *. split; simpl; [lia|].
  rewrite (Z.add_mod (a + 8)), (Z.add_mod a), H2, H4 by lia. done.
Qed.

Lemma join_next_ok sz fr l2 : blk_ok (sz, fr) -> Forall blk_ok l2 -> blk_ok ((join_next sz l2).1, true).
Proof.
  intros Hb Hl. destruct l2 as [|[z []] l2]; simpl; [done| |done].
  apply Forall_cons in Hl as [Hz _]. by eapply blk_ok_join.
Qed.

(** The release of a block up to its flag, the statistics and the links. *)
Lemma release_begin l1 sz l2 s :
  let bs := l1 ++ (sz, false) :: l2 in
  let b := first + span l1 in
  let F := frees first l1 ++ frees (b + 8 + sz) l2 in
  tok bs s -> forall pf pa, hdr (ts_mem s) b sz false pf pa -> forall Q : unit -> tstate -> Prop,
  (forall s1, fl_ok in_ram F s1 -> ts_mem s1 !! a_size b = Some (tag sz true pf) ->
     ts_mem s1 !! a_prev_hdr b = ts_mem s !! a_prev_hdr b -> writes [b] [b] s s1 ->
     free_size (ts_ctl s1) = u32 (free_size (ts_ctl s) + (8 + sz)) ->
     used_size (ts_ctl s1) = u32 (used_size (ts_ctl s) - (8 + sz)) ->
     wp (merge_next in_ram b;;; r <- merge_prev in_ram b;; insert_merged in_ram r) Q s1) ->
  wp (free_ex in_ram (b + 8)) Q s.
Proof.
  intros bs b F Hok pf pa [Hb _] Q HQ.
  destruct (tlsf_block _ _ _ _ _ Hok) as (H1 & H2 & [H8 _] & Hszok & Hmax & Htop & Hl1 & Hl2 & _).
  simpl in H8. fold b in Htop. pose proof (tk_first _ _ _ _ _ Hok).
  assert (Hram : forall x, b <= x <= b + 8 + sz -> in_ram x = true).
  { intros x Hx. apply (tk_ram _ _ _ _ _ Hok). unfold bs. rewrite span_app. simpl. subst b. lia. }
  unfold free_ex. destruct (Z.eqb_spec (b + 8) NULL) as [E|_]; [unfold NULL in E; subst b; lia|].
  replace (b + 8 - BHDR_OVERHEAD) with b by (change BHDR_OVERHEAD with 8; lia). cbv zeta.
  wp_step. eapply wp_ld; [done|]. rewrite tag_set_free by done.
  wp_step. apply wp_st; [apply Hram; addr|]. wp_step.
  eapply REMOVE_SIZE_spec; [rewrite upd_tmem_lookup, decide_True by done; done|done|].
  wp_step. apply wp_st; [apply Hram; addr|]. wp_step. apply wp_st; [apply Hram; addr|].
  set (s1 := upd_tmem _ (upd_tmem _ (upd_ctl _ (upd_tmem _ s)))).
  assert (Hm : forall x, x <> a_size b -> x <> a_prev b -> x <> a_next b -> ts_mem s1 !! x = ts_mem s !! x).
  { intros x E1 E2 E3. subst s1. simpl. rewrite !lookup_insert_ne by (symmetry; done). done. }
  apply HQ.
  - apply (fl_ok_frame _ _ s); [done| |].
    + intros a Ha. destruct (frees_around l1 sz false l2 s a Hok Ha) as [Hx _]. fold b in Hx. split; apply Hm; addr.
    + pose proof (tk_lists _ _ _ _ _ Hok) as Hfl. unfold bs in Hfl. rewrite frees_used in Hfl. done.
  - subst s1. simpl. rewrite !lookup_insert_ne, lookup_insert_eq by addr. done.
  - apply Hm; addr.
  - intros x HH HL. pose proof (HH b ltac:(set_solver)). pose proof (HL b ltac:(set_solver)). apply Hm; tauto.
  - simpl. f_equal. change BHDR_OVERHEAD with 8. lia.
  - simpl. f_equal. change BHDR_OVERHEAD with 8. lia.
Qed.

(** The block at the end of [l1] has been marked free and joined with the free block [N]
    behind it, if there is one; it is not on a list yet. *)
Record joined (l1 : list pblk) (sz : Z) (N l2 : list pblk) (pf : bool) (pa : Z) (s s2 : tstate) : Prop := {
  jn_ok : tok (l1 ++ ((sz, false) :: N) ++ l2) s;
  jn_gap : free_bytes N = span N;
  jn_size : blk_ok (sz + span N, true);
  jn_used : (head_blk l2).2 = false;
  jn_seg : seg (ts_mem s) first false 0 l1 (first + span l1) pf pa;
  jn_hdr : hdr (ts_mem s) (first + span l1) sz false pf pa;
  jn_chain : exists pf1 pa1, chain (ts_mem s) (first + span l1 + 8 + (sz + span N)) pf1 pa1 l2;
  jn_lists : fl_ok in_ram (frees first l1 ++ frees (first + span l1 + 8 + (sz + span N)) l2) s2;
  jn_word : ts_mem s2 !! a_size (first + span l1) = Some (tag (sz + span N) true pf);
  jn_prev : ts_mem s2 !! a_prev_hdr (first + span l1) = ts_mem s !! a_prev_hdr (first + span l1);
  jn_writes : writes [first + span l1] (first + span l1 :: (frees first (l1 ++ ((sz, false) :: N) ++ l2)).*1) s s2;
  jn_free : free_size (ts_ctl s2) = u32 (free_size (ts_ctl s) + (8 + sz));
  jn_stat : used_size (ts_ctl s2) = u32 (used_size (ts_ctl s) - (8 + sz))
}.

(** Where the free blocks of a row are relative to a part of it. *)
Lemma frees_mid_cases l1 M l2 a :
  Forall blk_ok (l1 ++ M ++ l2) -> a ∈ (frees first (l1 ++ M ++ l2)).*1 ->
  (first + span l1 <= a /\ a + 16 <= first + span l1 + span M) \/
  a ∈ (frees first l1 ++ frees (first + span l1 + span M) l2).*1.
Proof.
  intros Hall. rewrite !frees_app, !fmap_app, !elem_of_app. intros [Ha|[Ha|Ha]]; [tauto|left|tauto].
  rewrite !Forall_app in Hall. destruct Hall as (_ & HM & _).
  apply list_elem_of_fmap in Ha as ([a' sa] & -> & (m1 & m2 & -> & ->)%frees_split). simpl.
  apply Forall_app in HM as [Hm1 [[Hx _] Hm2]%Forall_cons]. pose proof (span_nonneg _ Hm1). pose proof (span_nonneg _ Hm2).
  rewrite span_app. simpl in *. lia.
Qed.

Lemma release_joined l1 sz l2 s :
  tok (l1 ++ (sz, false) :: l2) s -> forall Q : unit -> tstate -> Prop,
  (forall N pf pa s2, l2 = N ++ (join_next sz l2).2 -> (join_next sz l2).1 = sz + span N ->
     joined l1 sz N (join_next sz l2).2 pf pa s s2 ->
     wp (r <- merge_prev in_ram (first + span l1);; insert_merged in_ram r) Q s2) ->
  wp (free_ex in_ram (first + span l1 + 8)) Q s.
Proof.
  intros Hok Q HQ. destruct (tlsf_block _ _ _ _ _ Hok) as (H1 & H2 & Hb & Hszok & Hmax & Htop & Hl1 & Hl2 & pf & pa & Hs & Hh & _ & Hc).
  set (b := first + span l1) in *. pose proof Hb as [H8 _]. simpl in H8. pose proof (tk_first _ _ _ _ _ Hok) as Hf0.
  eapply release_begin; [done|exact Hh|]. fold b. intros s1 Hfl1 Hb1 Hp1 Hw1 Hfs1 Hus1.
  destruct (join_next_split sz l2) as (N & HN & Hj1 & HfN & Hjh). specialize (Hjh _ _ _ _ Hc).
  pose proof (join_next_ok sz false l2 Hb Hl2) as Hsz'. wp_step. eapply wp_mono.
  { apply (merge_next_spec (frees first l1) b sz pf l2); try done; try (subst b; lia).
    - intros x Hx. apply (tk_ram _ _ _ _ _ Hok). rewrite span_app. simpl. subst b. lia.
    - intros a Ha. destruct (frees_around l1 sz false l2 s a Hok) as [Hx _]; [rewrite fmap_app; set_solver|].
      fold b in Hx. unfold apart. lia.
    - destruct (chain_head _ _ _ _ _ Hc) as [[Hn _] _]. exists false.
      destruct (writes_hdr _ _ _ _ (b + 8 + sz) Hw1) as [_ ->]; [| |done]; intros x Hx%list_elem_of_singleton; subst x; [|right]; unfold apart; lia. }
  intros _ s2 (Hfl2 & Hbk2 & Hb2 & Hp2 & Hw2). apply book_stats in Hbk2 as [Hfs2 Hus2].
  pose proof (writes_trans _ _ _ _ _ _ _ Hw1 Hw2) as Hw. rewrite <- frees_used in Hw.
  apply (HQ N pf pa s2 HN Hj1). rewrite Hj1 in *. set (l2' := (join_next sz l2).2) in *. rewrite HN in Hok, Hc, Hw.
  apply chain_app in Hc as (pf1 & pa1 & _ & Hc). replace (b + 8 + sz + span N) with (b + 8 + (sz + span N)) in Hc by lia.
  split; fold b; try done.
  - by exists pf1, pa1.
  - by rewrite Hp2.
  - eapply writes_mono; [| |exact Hw]; [set_solver|]. simpl. set_solver.
  - congruence.
  - congruence.
Qed.

(** The block before is in use. *)
Lemma joined_alone l1 sz N l2 pa s s2 :
  joined l1 sz N l2 false pa s s2 ->
  wp (r <- merge_prev in_ram (first + span l1);; insert_merged in_ram r) (fun _ s' =>
    tok (l1 ++ (sz + span N, true) :: l2) s' /\ user_kept (l1 ++ (sz + span N, true) :: l2) s s') s2.
Proof.
  intros [Hok HfN Hm Hhd Hs Hh (pf1 & pa1 & Hc) Hfl Hb2 _ Hw Hfs Hus]. set (b := first + span l1) in *.
  pose proof (chain_ok _ _ _ _ _ (tk_chain _ _ _ _ _ Hok)) as Hall. pose proof Hm as [Hm8 Hmm]. simpl in Hm8, Hmm.
  assert (Hmok : size_ok (sz + span N)).
  { pose proof (tk_span _ _ _ _ _ Hok) as Hsp. rewrite !span_app in Hsp. rewrite !Forall_app in Hall. destruct Hall as (Hx & _ & Hy).
    pose proof (span_nonneg _ Hx). pose proof (span_nonneg _ Hy). simpl in Hsp. unfold MAX_BLOCK, MAX_FLI in Hsp. split; [lia|done]. }
  wp_step. unfold merge_prev. wp_step. eapply wp_ld; [done|]. rewrite tag_prev_free by done. simpl. apply wp_ret.
  apply (release_finish l1 ((sz, false) :: N) l2 (sz + span N) false pa pf1 pa1 [b]
           (b :: (frees first (l1 ++ ((sz, false) :: N) ++ l2)).*1) (8 + sz) s s2); fold b; try done.
  - simpl. lia.
  - simpl. lia.
  - intros h ->%list_elem_of_singleton. lia.
  - intros a [->|Ha]%elem_of_cons; [left; lia|]. apply frees_mid_cases in Ha; [|done].
    fold b in Ha. simpl span in Ha. replace (b + (8 + sz + span N)) with (b + 8 + (sz + span N)) in Ha by lia. done.
Qed.

(** The block before is free: the header of this block is gone. *)
Lemma joined_prev l0 sz1 sz N l2 s s2 :
  let pb := first + span l0 in
  joined (l0 ++ [(sz1, true)]) sz N l2 true pb s s2 ->
  wp (r <- merge_prev in_ram (pb + 8 + sz1);; insert_merged in_ram r) (fun _ s' =>
    tok (l0 ++ (sz1 + 8 + (sz + span N), true) :: l2) s' /\ user_kept (l0 ++ (sz1 + 8 + (sz + span N), true) :: l2) s s') s2.
Proof.
  intros pb [Hok HfN Hm Hhd Hs Hh (pf1 & pa1 & Hc) Hfl Hb2 Hp2 Hw Hfs Hus].
  assert (Eb : first + span (l0 ++ [(sz1, true)]) = pb + 8 + sz1) by (subst pb; rewrite span_app; simpl; lia). rewrite Eb in *.
  set (b := pb + 8 + sz1) in *. set (m := sz + span N) in *. set (nb := b + 8 + m) in *. set (bs := (l0 ++ [(sz1, true)]) ++ ((sz, false) :: N) ++ l2) in *.
  pose proof (chain_ok _ _ _ _ _ (tk_chain _ _ _ _ _ Hok)) as Hall. pose proof Hall as Hall2. unfold bs in Hall2. rewrite !Forall_app, Forall_cons in Hall2.
  destruct Hall2 as ((Hl0 & Hsz1 & _) & HlM & Hl2). pose proof Hsz1 as [Hsz18 Hsz1m]. pose proof Hm as [Hm8 Hmm]. simpl in Hsz18, Hsz1m, Hm8, Hmm.
  pose proof (span_nonneg _ Hl0). pose proof (span_nonneg _ Hl2). pose proof (tk_first _ _ _ _ _ Hok) as Hf0. pose proof (tk_top _ _ _ _ _ Hok) as Htop.
  assert (Hsp : span bs = span l0 + (8 + sz1) + (8 + m) + span l2) by (unfold bs; rewrite !span_app; simpl; lia).
  pose proof (tk_span _ _ _ _ _ Hok) as Hspan. rewrite Hsp in Hspan, Htop. unfold MAX_BLOCK, MAX_FLI in Hspan.
  destruct (seg_last _ _ _ _ _ _ Hs) as (l0' & sz1' & pa0 & E & _ & Hs0 & Hh0). apply app_inj_tail in E as [<- [= <-]].
  assert (HL : forall a, a ∈ (frees first bs).*1 -> (b <= a /\ a + 16 <= nb) \/ a ∈ (frees first (l0 ++ [(sz1, true)]) ++ frees nb l2).*1).
  { intros a Ha. apply frees_mid_cases in Ha; [|done]. rewrite Eb in Ha. simpl span in Ha. fold b in Ha.
    replace (b + (8 + sz + span N)) with nb in Ha by (subst nb m; lia). done. }
  assert (Hout : forall a, a ∈ (frees first (l0 ++ [(sz1, true)]) ++ frees nb l2).*1 -> a + 16 <= b \/ nb + 16 <= a).
  { intros a Ha. destruct (node_outside first (l0 ++ [(sz1, true)]) ((sz, false) :: N) l2 a Hall Hhd) as [_ Hx]; rewrite Eb in *; simpl span in *;
      replace (b + (8 + sz + span N)) with nb in * by (subst nb m; lia); done. }
  assert (Hperm : frees first (l0 ++ [(sz1, true)]) ++ frees nb l2 ≡ₚ (pb, sz1) :: frees first l0 ++ frees nb l2).
  { rewrite frees_app. simpl. fold pb. rewrite <- app_assoc. symmetry. apply Permutation_middle. }
  assert (Hpb : same_hdr (ts_mem s) (ts_mem s2) pb).
  { assert (Hin : pb ∈ heads first bs) by (unfold bs; rewrite <- app_assoc; simpl; rewrite heads_app; pose proof (heads_last first l0); set_solver).
    apply (writes_hdr _ _ _ _ pb Hw); [intros x ->%list_elem_of_singleton; unfold apart; lia|].
    intros a [->|Ha]%elem_of_cons; [right; unfold apart; lia|]. apply (heads_apart first bs); [done|by apply frees_are_heads|done]. }
  wp_step. eapply wp_mono.
  { apply (merge_prev_free_spec (frees first l0 ++ frees nb l2) b m pb sz1); try done.
    - by rewrite <- Hperm.
    - subst pb; lia.
    - split; [lia|done].
    - split; [lia|done].
    - subst pb; lia.
    - intros x Hx. apply (tk_ram _ _ _ _ _ Hok). rewrite Hsp. subst b pb. lia.
    - intros a Ha. destruct (Hout a) as [Hx|Hx]; [rewrite Hperm; by right| |]; unfold apart; lia.
    - rewrite Hp2. by apply (proj2 Hh).
    - rewrite (proj2 Hpb). apply (proj1 Hh0). }
  intros r s3 (-> & Hfl3 & Hbk3 & Hb3 & Hw3). apply book_stats in Hbk3 as [Hfs3 Hus3].
  pose proof (writes_trans _ _ _ _ _ _ _ Hw Hw3) as Hww. subst bs. rewrite <- app_assoc in Hok.
  eapply (release_finish l0 ((sz1, true) :: (sz, false) :: N) l2 (sz1 + 8 + m) false pa0 pf1 pa1 _ _ (8 + sz) s s3);
    fold pb; replace (pb + 8 + (sz1 + 8 + m)) with nb by (subst nb b; lia); try done.
  - simpl. subst m. lia.
  - simpl. subst m. lia.
  - by eapply blk_ok_join.
  - intros h Hin. assert (h = b \/ h = pb) by set_solver. subst nb. lia.
  - intros a Ha. rewrite !elem_of_app, !elem_of_cons in Ha. destruct Ha as [[->|Ha]|[->|Ha]]; [left; subst nb; lia| |left; subst nb; lia|by right].
    destruct (HL a Ha) as [Hx|Hx]; [left; lia|]. rewrite Hperm in Hx. apply elem_of_cons in Hx as [->|Hx]; [left; simpl; subst nb; lia|by right].
  - congruence.
  - congruence.
Qed.

Lemma free_ex_spec l1 sz l2 s :
  tok (l1 ++ (sz, false) :: l2) s ->
  wp (free_ex in_ram (first + span l1 + 8)) (fun _ s' =>
    tok (released l1 sz l2) s' /\ user_kept (released l1 sz l2) s s') s.
Proof.
  intros Hok. apply (release_joined l1 sz l2 s Hok). intros N pf pa s2 HN Hj J.
  pose proof (seg_last _ _ _ _ _ _ (jn_seg _ _ _ _ _ _ _ _ J)) as Hlast. destruct pf.
  - destruct Hlast as (l0 & sz1 & pa0 & -> & -> & _). rewrite released_join, Hj.
    replace (first + span (l0 ++ [(sz1, true)])) with (first + span l0 + 8 + sz1) by (rewrite span_app; simpl; lia). by apply joined_prev.
  - rewrite (released_alone l1 sz l2 Hlast), Hj. by apply (joined_alone l1 sz N _ pa).
Qed.

End Heap.
