(* ===== verification/TlsfUsed.v ===== *)
(** * Blocks in use of the segregated fit heap

    The blocks in use with their addresses, and how allocation and release change them. *)

From S2P Require Import Prelude.
From S2P Require Import Kernel.
From S2P Require Import Tlsf.
From S2P Require Import TlsfMap.
From S2P Require Import TlsfLists.
From S2P Require Import TlsfProofs.
From Stdlib Require Import ZArith Lia.
From stdpp Require Import base numbers gmap list functions sorting.
Local Open Scope Z_scope.

(** ** Blocks in use *)

Fixpoint useds (a : Z) (bs : list pblk) : list (Z * Z) :=
  match bs with
  | [] => []
  | (sz, fr) :: bs => (if fr then [] else [(a, sz)]) ++ useds (a + 8 + sz) bs
  end.

Lemma useds_app a l1 l2 : useds a (l1 ++ l2) = useds a l1 ++ useds (a + span l1) l2.
Proof.
  revert a. induction l1 as [|[sz fr] l1 IH]; intros a; simpl; [f_equal; lia|].
  rewrite IH, app_assoc. do 2 f_equal. lia.
Qed.

Lemma useds_split a l x sz : (x, sz) ∈ useds a l -> exists l1 l2, l = l1 ++ (sz, false) :: l2 /\ x = a + span l1.
Proof.
  revert a. induction l as [|[sz1 fr] l IH]; intros a; simpl; [set_solver|].
  rewrite elem_of_app. intros [H|H].
  - destruct fr; [set_solver|]. apply list_elem_of_singleton in H as [= -> ->]. exists [], l. split; [done|simpl; lia].
  - destruct (IH _ H) as (l1 & l2 & -> & ->). exists ((sz1, fr) :: l1), l2. split; [done|simpl; lia].
Qed.

Lemma useds_taken a l1 sz l2 r :
  useds a (taken l1 sz l2 r) ≡ₚ
  (a + span l1, if sizeof_bhdr <=? sz - r then r else sz) :: useds a (l1 ++ (sz, true) :: l2).
Proof.
  unfold taken. rewrite !useds_app. change BHDR_OVERHEAD with 8. destruct (sizeof_bhdr <=? sz - r); simpl.
  - replace (a + span l1 + (8 + r + (8 + (sz - r - 8) + 0))) with (a + span l1 + 8 + sz) by lia.
    symmetry. apply Permutation_middle.
  - replace (a + span l1 + (8 + sz + 0)) with (a + span l1 + 8 + sz) by lia. symmetry. apply Permutation_middle.
Qed.

Lemma useds_released a l1 sz l2 :
  useds a (l1 ++ (sz, false) :: l2) ≡ₚ (a + span l1, sz) :: useds a (released l1 sz l2).
Proof.
  assert (Hn : useds (a + span l1 + 8 + sz) l2 = useds (a + span l1 + 8 + (join_next sz l2).1) (join_next sz l2).2).
  { destruct l2 as [|[z []] l2]; simpl; [done| |done]. f_equal. lia. }
  rewrite useds_app. simpl. rewrite <- Permutation_middle, Hn. constructor.
  destruct l1 as [|[z []] l0 _] using rev_ind.
  - rewrite released_alone, useds_app by (by intros [|? ?] ?). done.
  - rewrite released_join, !useds_app, span_app. simpl. rewrite app_nil_r.
    replace (a + (span l0 + (8 + z + 0)) + 8 + (join_next sz l2).1)
      with (a + span l0 + 8 + (z + 8 + (join_next sz l2).1)) by lia. done.
  - rewrite released_alone, (useds_app a (l0 ++ [(z, false)])) by (intros l1 sz1 [_ [=]]%app_inj_tail). done.
Qed.

(** Neither operation changes the length of the row. *)
Lemma span_taken l1 sz l2 r : span (taken l1 sz l2 r) = span (l1 ++ (sz, true) :: l2).
Proof.
  unfold taken. rewrite !span_app. change BHDR_OVERHEAD with 8. destruct (_ <=? _); simpl; lia.
Qed.

Lemma span_released l1 sz l2 : span (released l1 sz l2) = span (l1 ++ (sz, false) :: l2).
Proof.
  assert (Hn : (join_next sz l2).1 + span (join_next sz l2).2 = sz + span l2).
  { destruct l2 as [|[z []] l2]; simpl; lia. }
  destruct l1 as [|[z []] l0 _] using rev_ind.
  - rewrite released_alone, !span_app by (by intros [|? ?] ?). simpl. lia.
  - rewrite released_join, !span_app. simpl. lia.
  - rewrite released_alone, !span_app by (intros l1 sz1 [_ [=]]%app_inj_tail). simpl. lia.
Qed.

(** Where the blocks in use are, and that no two of them have the same address. *)
Lemma useds_bound a l x sz : Forall blk_ok l -> (x, sz) ∈ useds a l -> a <= x /\ x + 8 + sz <= a + span l.
Proof.
  intros Hl (m1 & m2 & -> & ->)%useds_split. apply Forall_app in Hl as [Hm1 [_ Hm2]%Forall_cons].
  pose proof (span_nonneg _ Hm1). pose proof (span_nonneg _ Hm2). rewrite span_app. simpl. lia.
Qed.

Lemma useds_nodup a l : Forall blk_ok l -> NoDup (useds a l).*1.
Proof.
  intros Hl. revert a. induction Hl as [|[sz fr] l [Hsz _] Hl IH]; intros a; simpl; [constructor|].
  destruct fr; simpl; [apply IH|]. constructor; [|apply IH].
  intros ([x z] & Ex & Hin)%list_elem_of_fmap. apply useds_bound in Hin; [|done]. simpl in *. lia.
Qed.
