(* ===== verification/TlsfRealloc.v ===== *)
(** * Reallocation in the segregated fit heap

    A block is resized in place when it shrinks or when the free block behind it is large
    enough, and moved otherwise.  In each case the heap stays consistent, the other blocks in
    use are untouched, and the block keeps its contents up to the smaller of both sizes. *)

From S2P Require Import Prelude.
From S2P Require Import Kernel.
From S2P Require Import Tlsf.
From S2P Require Import TlsfMap.
From S2P Require Import TlsfLists.
From S2P Require Import TlsfProofs.
From S2P Require Import TlsfUsed.
From Stdlib Require Import ZArith Lia.
From stdpp Require Import base numbers gmap list functions sorting.
Local Open Scope Z_scope.

Section Realloc.
Context (in_ram : Z -> bool) (first total : Z).
Abbreviation tok := (tlsf_ok in_ram first total).

(** ** In place *)

(** Nothing or one free block. *)
Definition gap (N : list pblk) : Prop := N = [] \/ exists n, N = [(n, true)].

Lemma gap_free N : gap N -> free_bytes N = span N.
Proof. intros [->|[n ->]]; simpl; lia. Qed.

(** The block has been taken off the statistics and joined with the free block behind it, if
    there is one; what is left over of the [m] bytes is split off. *)
Lemma resize_finish l1 sz N l3 r sz0 pf pa pfn s s3 :
  let b := first + span l1 in
  let m := sz + span N in
  let nb := b + 8 + m in
  opened in_ram first total l1 ((sz, false) :: N) l3 m (8 + sz) sz0 false pf pfn pa s s3 -> gap N -> blk_ok (r, true) ->
  (m - r < sizeof_bhdr -> sz0 = m /\ pfn = false) ->
  wp (when (sizeof_bhdr <=? m - r) (split_rest in_ram b r (m - r - BHDR_OVERHEAD) nb true);;; TLSF_ADD_SIZE b)
    (fun _ s' => tok (taken l1 m l3 r) s' /\
       writes ([b; nb] ++ taken_hdrs b m r) (taken_node b m r ++ (frees first (l1 ++ ((sz, false) :: N) ++ l3)).*1) s s') s3.
Proof.
  intros b m nb O HN Hr Hno. pose proof (gap_free N HN) as HfN. unfold taken, taken_hdrs, taken_node, when.
  change sizeof_bhdr with 16 in *. change BHDR_OVERHEAD with 8. destruct (Z.leb_spec 16 (m - r)) as [Hsplit|Hkeep].
  - eapply wp_mono; [eapply (opened_split _ _ _ l1 _ l3 m (8 + sz)); try done; [by left|simpl; lia]|].
    intros _ s' [Hok Hw]. split; [done|]. eapply writes_mono; [| |exact Hw]; [set_solver|done].
  - destruct (Hno Hkeep) as [-> ->]. wp_step. wp_step.
    eapply wp_mono; [eapply (opened_whole _ _ _ l1 _ l3 m (8 + sz)); try done; simpl; lia|].
    intros _ s' [Hok Hw]. split; [done|]. eapply writes_mono; [| |exact Hw]; [set_solver|done].
Qed.

(** A word in use is in the block, before it, or behind the free block that follows. *)
Lemma word_cases l1 sz N l3 x :
  Forall blk_ok (l1 ++ ((sz, false) :: N) ++ l3) -> gap N ->
  user_word first (l1 ++ ((sz, false) :: N) ++ l3) x ->
  x + 4 <= first + span l1 \/ first + span l1 + 8 <= x <= first + span l1 + 8 + sz - 4 \/
  first + span l1 + 8 + (sz + span N) + 8 <= x.
Proof.
  intros Hall HN (m1 & z & m2 & Heq & Hx). simpl in Heq.
  destruct (blocks_ordered _ _ _ _ _ _ Heq) as [(-> & [= ->] & _)|[(k & ->)|(k & ->)]].
  - lia.
  - right. right. rewrite span_app in Hx. simpl in Hx. enough (span N <= span k) by lia.
    rewrite <- app_assoc in Heq. simpl in Heq. apply app_inv_head in Heq. injection Heq as Heq.
    apply Forall_app in Hall as [_ Hall]. simpl in Hall. rewrite Heq in Hall. apply Forall_cons in Hall as [_ Hall].
    apply Forall_app in Hall as [Hk _]. pose proof (span_nonneg k Hk). destruct HN as [->|[n ->]]; [simpl; lia|].
    destruct k as [|[y yf] k]; [done|]. injection Heq as -> <- _. apply Forall_cons in Hk as [_ Hk].
    pose proof (span_nonneg k Hk). simpl. lia.
  - left. rewrite span_app. rewrite <- app_assoc in Hall. apply Forall_app in Hall as [_ Hall].
    simpl in Hall. apply Forall_cons in Hall as [[? _] Hall]. apply Forall_app in Hall as [Hk _].
    pose proof (span_nonneg k Hk). simpl in *. lia.
Qed.

(** What a resize writes is not in use before and after it. *)
Lemma resize_kept l1 sz N l3 r x s s' :
  let bs := l1 ++ ((sz, false) :: N) ++ l3 in
  let b := first + span l1 in
  let m := sz + span N in
  tok bs s -> gap N -> 8 <= r <= m ->
  writes ([b; b + 8 + m] ++ taken_hdrs b m r) (taken_node b m r ++ (frees first bs).*1) s s' ->
  user_word first bs x -> x < b + 8 + r \/ b + 8 + sz <= x -> ts_mem s' !! x = ts_mem s !! x.
Proof.
  intros bs b m Hok HN Hr Hw Hx Hout. pose proof (chain_ok _ _ _ _ _ (tk_chain _ _ _ _ _ Hok)) as Hall.
  pose proof (word_cases _ _ _ _ _ Hall HN Hx) as Hcase. fold b m in Hcase.
  assert (Hblk : Forall blk_ok l1 /\ 8 <= sz /\ Forall blk_ok N).
  { unfold bs in Hall. rewrite !Forall_app, Forall_cons in Hall. destruct Hall as (? & [[? _] ?] & _). done. }
  destruct Hblk as (_ & Hsz & HbN). pose proof (span_nonneg N HbN).
  assert (HL : forall a, a ∈ (frees first bs).*1 -> x <> a_prev a /\ x <> a_next a).
  { intros a ([a' sa] & -> & Ha)%list_elem_of_fmap. simpl. apply frees_split in Ha as (m1 & m2 & Hm & ->).
    pose proof (user_word_outside _ _ _ bs s x m1 sa m2 Hok Hx Hm).
    destruct (tlsf_block in_ram first total m1 sa true m2 s) as (_ & _ & [Hs8 _] & _); [by rewrite <- Hm|]. simpl in Hs8. addr. }
  apply Hw.
  - intros h Hh. unfold taken_hdrs in Hh. change sizeof_bhdr with 16 in Hh.
    destruct (Z.leb_spec 16 (m - r)); rewrite elem_of_app, !elem_of_cons, elem_of_nil in Hh; addr.
  - unfold taken_node. change sizeof_bhdr with 16. destruct (Z.leb_spec 16 (m - r)); simpl; [|done].
    intros a [->|Ha]%elem_of_cons; [addr|by apply HL].
Qed.

(** The free block behind leaves its list. *)
Lemma unlink_next_spec l1 sz n l3 f s :
  let bs := l1 ++ (sz, false) :: (n, true) :: l3 in
  let b := first + span l1 in
  let s1 := upd_ctl f s in
  tok bs s -> (forall c, same_tables c (f c)) ->
  wp (extract_sized in_ram (b + 8 + sz)) (fun _ s3 =>
    fl_ok in_ram (frees first l1 ++ frees (b + 8 + sz + 8 + n) l3) s3 /\ book (ts_ctl s3) = book (ts_ctl s1) /\
    writes [] (frees first bs).*1 s s3 /\ forall h, h ∈ heads first bs -> same_hdr (ts_mem s) (ts_mem s3) h) s1.
Proof.
  intros bs b s1 Hok Hf.
  assert (Hperm : frees first bs ≡ₚ (b + 8 + sz, n) :: frees first l1 ++ frees (b + 8 + sz + 8 + n) l3).
  { unfold bs. rewrite frees_used. simpl. symmetry. apply Permutation_middle. }
  assert (Hok' : tok ((l1 ++ [(sz, false)]) ++ (n, true) :: l3) s) by (rewrite <- app_assoc; done).
  destruct (tlsf_block _ _ _ _ _ _ _ _ Hok') as (_ & _ & _ & Hn & _ & _ & _ & _ & pf & pa & _ & [Hh _] & _).
  rewrite span_app in Hh. simpl in Hh. replace (first + (span l1 + (8 + sz + 0))) with (b + 8 + sz) in Hh by (subst b; lia).
  eapply wp_mono; [eapply (extract_sized_spec in_ram _ (b + 8 + sz) n pf s1); [|exact Hh|done]|].
  { apply fl_ok_stats; [done|]. rewrite <- Hperm. exact (tk_lists _ _ _ _ _ Hok). }
  intros _ s3 [Hfl Hfr]. assert (Hw : writes [] (frees first bs).*1 s s3).
  { intros x _ HL. rewrite (lf_mem _ _ _ Hfr); [done|]. intros a Ha. apply HL. rewrite Hperm. exact Ha. }
  split_and!; [done|exact (lf_ctl _ _ _ Hfr)|done|]. intros h Hin. apply (writes_hdr _ _ _ _ h Hw); [set_solver|].
  intros a Ha%frees_are_heads. apply (heads_apart first bs); [|done|done]. exact (chain_ok _ _ _ _ _ (tk_chain _ _ _ _ _ Hok)).
Qed.

(** The block of [sz] bytes has become one of [r] bytes, or of all that is there when the
    rest is too small for a block. *)
Definition resized (l1 : list pblk) (sz : Z) (l2 : list pblk) (r : Z) (s s' : tstate) : Prop :=
  let b := first + span l1 in
  tok (taken l1 (join_next sz l2).1 (join_next sz l2).2 r) s' /\
  forall x, user_word first (l1 ++ (sz, false) :: l2) x -> x < b + 8 + r \/ b + 8 + sz <= x ->
    ts_mem s' !! x = ts_mem s !! x.

(** The statistics without the block. *)
Definition uncounted (sz : Z) (c : tlsf) : tlsf :=
  set_sizes (u32 (used_size c - (sz + BHDR_OVERHEAD))) (max_size c) (u32 (free_size c + (sz + BHDR_OVERHEAD))) c.

Lemma uncounted_stats sz c :
  free_size (uncounted sz c) = u32 (free_size c + (8 + sz)) /\ used_size (uncounted sz c) = u32 (used_size c - (8 + sz)).
Proof. unfold uncounted. simpl. split; f_equal; change BHDR_OVERHEAD with 8; lia. Qed.

(** The header behind a block. *)
Lemma next_header l1 sz l2 s : tok (l1 ++ (sz, false) :: l2) s ->
  let nb := first + span l1 + 8 + sz in
  ts_mem s !! a_size nb = Some (tag (head_blk l2).1 (head_blk l2).2 false) /\ size_ok (head_blk l2).1.
Proof.
  intros Hok nb. destruct (tlsf_block _ _ _ _ _ _ _ _ Hok) as (? & _ & [? _] & _ & _ & _ & _ & _ & pf & pa & _ & _ & _ & Hc).
  destruct (chain_head _ _ _ _ _ Hc) as [[Hn _] _]. split; [done|]. eapply head_size_ok; [exact Hc|].
  pose proof (tk_span _ _ _ _ _ Hok) as Hsp. rewrite span_app in Hsp. simpl in *. lia.
Qed.

(** A block in use before a free block. *)
Record before_free (l1 : list pblk) (sz n : Z) (l3 : list pblk) (pf : bool) (pa : Z) (s : tstate) : Prop := {
  bf_seg : seg (ts_mem s) first false 0 l1 (first + span l1) pf pa;
  bf_hdr : hdr (ts_mem s) (first + span l1) sz false pf pa;
  bf_next : ts_mem s !! a_size (first + span l1 + 8 + sz) = Some (tag n true false);
  bf_chain : chain (ts_mem s) (first + span l1 + 8 + (sz + span [(n, true)])) true (first + span l1 + 8 + sz) l3;
  bf_used : (head_blk l3).2 = false;
  bf_join : blk_ok (sz + span [(n, true)], true);
  bf_sizes : 8 <= sz /\ 8 <= n /\ size_ok sz /\ size_ok n;
  bf_place : 0 < first + span l1 /\ first + span l1 + 8 + sz + 8 + n + 8 <= 2 ^ 32;
  bf_behind : ts_mem s !! a_size (first + span l1 + 8 + (sz + span [(n, true)])) = Some (tag (head_blk l3).1 false true);
  bf_behind_ok : size_ok (head_blk l3).1;
  bf_heads : forall h, h ∈ [first + span l1; first + span l1 + 8 + sz; first + span l1 + 8 + (sz + span [(n, true)])] ->
    h ∈ heads first (l1 ++ (sz, false) :: (n, true) :: l3)
}.

Lemma before_free_intro l1 sz n l3 s : tok (l1 ++ (sz, false) :: (n, true) :: l3) s ->
  exists pf pa, before_free l1 sz n l3 pf pa s.
Proof.
  intros Hok. destruct (tlsf_block _ _ _ _ _ _ _ _ Hok) as (H1 & H2 & Hb & Hszok & _ & Htop & Hl1 & Hl2 & pf & pa & Hs & Hh & _ & Hc).
  apply chain_cons in Hc as ([Hn _] & Hbn & _ & Hc). apply Forall_cons in Hl2 as [_ Hl3]. pose proof (span_nonneg _ Hl3).
  pose proof Hb as [Hsz8 _]. pose proof Hbn as [Hn8 Hn8m]. simpl in Hsz8, Hn8, Hn8m, Htop, H2.
  pose proof (tk_first _ _ _ _ _ Hok). pose proof (tk_span _ _ _ _ _ Hok) as Hsp. rewrite span_app in Hsp. simpl in Hsp.
  assert (Enb : first + span l1 + 8 + (sz + span [(n, true)]) = first + span l1 + 8 + sz + 8 + n) by (simpl; lia).
  pose proof (chain_head _ _ _ _ _ Hc) as [[Hnn _] Hhd]. simpl in Hhd. rewrite Hhd in Hnn.
  exists pf, pa. split; rewrite ?Enb; try done.
  - simpl. replace (sz + (8 + n + 0)) with (sz + 8 + n) by lia. by eapply blk_ok_join.
  - split_and!; [done|done|done|split; [lia|done]].
  - lia.
  - eapply head_size_ok; [exact Hc|lia].
  - intros h Hin. rewrite (cons_middle (sz, false) l1 ((n, true) :: l3)), app_assoc, heads_app, heads_app, span_app, !elem_of_app.
    pose proof (heads_last first l1). pose proof (heads_first (first + span l1 + 8 + sz) []).
    pose proof (heads_first (first + span l1 + 8 + sz + 8 + n) l3). simpl span.
    replace (first + (span l1 + (8 + sz + 0)) + 8 + n) with (first + span l1 + 8 + sz + 8 + n) by lia. set_solver.
Qed.

Lemma realloc_shrink_spec l1 sz l2 r s :
  let b := first + span l1 in
  tok (l1 ++ (sz, false) :: l2) s -> blk_ok (r, true) -> r <= sz ->
  wp (realloc_shrink in_ram b (b + 8 + sz) r sz) (fun _ s' => resized l1 sz l2 r s s') s.
Proof.
  intros b Hok Hr Hle. unfold resized. fold b.
  destruct (next_header _ _ _ _ Hok) as [Hn Hszn]. fold b in Hn. pose proof Hr as [Hr8 _]. simpl in Hr8.
  destruct (uncounted_stats sz (ts_ctl s)) as [Hfs Hus]. unfold realloc_shrink.
  destruct (tlsf_block _ _ _ _ _ _ _ _ Hok) as (_ & _ & Hb & Hszok & _ & _ & Hl1 & Hl2 & pf & pa & Hs & Hh & _ & Hc).
  fold b in Hs, Hh, Hc. wp_step. eapply REMOVE_SIZE_spec; [exact (proj1 Hh)|done|].
  fold (uncounted sz). set (s1 := upd_ctl (uncounted sz) s).
  wp_step. eapply wp_ld; [exact Hn|]. rewrite tag_is_free, negb_involutive by done. wp_step.
  destruct (head_blk l2).2 eqn:Hfree.
  - destruct l2 as [|[n fn] l3]; [done|]. simpl in Hfree. subst fn. clear Hs Hh Hc.
    destruct (before_free_intro _ _ _ _ _ Hok) as (pf' & pa' & [Hs Hh Hn' Hc Hhd Hj Hsz Hpl Hbe Hbok Hin]). fold b in Hs, Hh, Hn', Hc, Hpl, Hbe, Hin.
    wp_step. eapply wp_mono; [by apply (unlink_next_spec l1 sz n l3 (uncounted sz) s)|].
    fold b s1. intros _ s3 (Hfl & Hbk & Hw & Hsame). apply book_stats in Hbk as [Hfs3 Hus3].
    destruct (Hsame b) as [Hp3 Hb3]; [apply Hin; set_solver|].
    destruct (Hsame (b + 8 + sz)) as [_ Hn3]; [apply Hin; set_solver|].
    destruct (Hsame _ (Hin (b + 8 + (sz + span [(n, true)])) ltac:(set_solver))) as [_ Hnn3].
    wp_step. eapply wp_ld; [by rewrite Hn3|]. wp_step. rewrite size_of_tag by tauto. cbv beta iota. unfold GET_NEXT_BLOCK, a_buffer.
    replace (u32 (sz + (n + BHDR_OVERHEAD))) with (sz + span [(n, true)])
      by (rewrite u32_id; [simpl; change BHDR_OVERHEAD with 8; lia|unfold in_u32; change BHDR_OVERHEAD with 8; lia]).
    rewrite (u32_id (b + 8 + sz + 8 + n)) by (unfold in_u32; lia).
    rewrite (u32_id (_ - r)) by (unfold in_u32; simpl; lia).
    replace (b + 8 + sz + 8 + n) with (b + 8 + (sz + span [(n, true)])) in * by (simpl; lia).
    replace (join_next sz ((n, true) :: l3)) with (sz + span [(n, true)], l3) by (simpl; f_equal; lia). simpl fst. simpl snd.
    eapply wp_mono.
    { apply (resize_finish l1 sz [(n, true)] l3 r sz pf' pa' true s s3); [|right; by exists n|done|simpl; change sizeof_bhdr with 16; lia].
      split; fold b; try done.
      - split; [done|simpl; lia].
      - by exists true, (b + 8 + sz).
      - eapply writes_mono; [| |exact Hw]; [set_solver|done].
      - intros Hpf. rewrite Hp3. by apply (proj2 Hh).
      - rewrite Hb3. exact (proj1 Hh).
      - by rewrite Hnn3.
      - by rewrite Hfs3.
      - by rewrite Hus3. }
    intros _ s' [Hok' Hw']. split; [exact Hok'|]. intros x Hx Hout.
    eapply (resize_kept l1 sz [(n, true)] l3 r x s s'); try done; [right; by exists n|simpl; lia].
  - wp_step. cbv beta iota.
    assert (Hj : join_next sz l2 = (sz + span [], l2)) by (destruct l2 as [|[z []] l2]; simpl; rewrite ?Z.add_0_r; done).
    rewrite Hj. simpl fst. simpl snd. rewrite (u32_id (sz - r)) by (unfold in_u32; destruct Hszok; lia).
    assert (E0 : sz = sz + span []) by (simpl; lia). rewrite E0 at 1 2 3.
    eapply wp_mono.
    { apply (resize_finish l1 sz [] l2 r sz pf pa false s s1); [|by left|done|simpl; lia].
      split; fold b; rewrite <- ?E0; try done.
      - split; [done|simpl; lia].
      - by exists false, b.
      - apply fl_ok_stats; [done|]. rewrite <- frees_used. exact (tk_lists _ _ _ _ _ Hok).
      - exact (proj2 Hh).
      - exact (proj1 Hh). }
    intros _ s' [Hok' Hw']. split; [exact Hok'|]. intros x Hx Hout.
    eapply (resize_kept l1 sz [] l2 r x s s'); try done; [by left|simpl; lia].
Qed.

Lemma realloc_grow_spec l1 sz n l3 r s :
  let b := first + span l1 in
  tok (l1 ++ (sz, false) :: (n, true) :: l3) s -> blk_ok (r, true) -> r <= sz + n ->
  wp (realloc_grow in_ram b (b + 8 + sz) r) (fun _ s' => resized l1 sz ((n, true) :: l3) r s s') s.
Proof.
  intros b Hok Hr Hle. unfold resized. fold b. pose proof Hr as [Hr8 _]. simpl in Hr8.
  destruct (before_free_intro _ _ _ _ _ Hok) as (pf & pa & [Hs Hh Hn Hc Hhd Hj Hsz Hpl Hbe Hbok Hin]).
  fold b in Hs, Hh, Hn, Hc, Hpl, Hbe, Hin. set (m := sz + span [(n, true)]) in *. set (nb := b + 8 + m) in *.
  assert (Em : m = sz + 8 + n) by (subst m; simpl; lia).
  destruct (uncounted_stats sz (ts_ctl s)) as [Hfs Hus]. unfold realloc_grow.
  wp_step. eapply REMOVE_SIZE_spec; [exact (proj1 Hh)|tauto|]. fold (uncounted sz). set (s1 := upd_ctl (uncounted sz) s).
  wp_step. eapply wp_mono; [by apply (unlink_next_spec l1 sz n l3 (uncounted sz) s)|].
  fold b s1. intros _ s2 (Hfl & Hbk & Hw & Hsame). apply book_stats in Hbk as [Hfs2 Hus2].
  replace (b + 8 + sz + 8 + n) with nb in Hfl by (subst nb; lia).
  destruct (Hsame b) as [Hp2 Hb2]; [apply Hin; set_solver|].
  destruct (Hsame (b + 8 + sz)) as [_ Hn2]; [apply Hin; set_solver|].
  destruct (Hsame nb) as [_ Hnn2]; [apply Hin; set_solver|]. rewrite Hbe in Hnn2. rewrite (proj1 Hh) in Hb2.
  assert (Hram : forall x, b <= x <= nb + 4 -> in_ram x = true).
  { intros x Hx. apply (tk_ram _ _ _ _ _ Hok). rewrite span_app. simpl.
    destruct (tlsf_block _ _ _ _ _ _ _ _ Hok) as (? & _ & _ & _ & _ & _ & _ & [_ Hl3]%Forall_cons & _).
    pose proof (span_nonneg _ Hl3). subst nb b. lia. }
  wp_step. eapply wp_ld; [by rewrite Hn2|]. wp_step. eapply wp_ld; [exact Hb2|]. rewrite (size_of_tag n) by tauto. rewrite tag_grow.
  assert (Hmok : size_ok m) by (destruct Hj as [? ?]; split; [lia|done]).
  rewrite <- Em, (u32_id (tag m false pf)) by (pose proof (flags_range false pf); unfold in_u32, tag; destruct Hmok; lia).
  wp_step. apply wp_st; [apply Hram; subst nb; addr|]. wp_step.
  eapply wp_ld; [rewrite upd_tmem_lookup, decide_True by done; done|]. rewrite size_of_tag by done. cbv zeta.
  unfold GET_NEXT_BLOCK. replace (u32 (a_buffer b + m)) with nb by (unfold a_buffer; rewrite u32_id; [done|unfold in_u32; lia]).
  wp_step. apply wp_st; [apply Hram; subst nb; addr|]. wp_step.
  eapply wp_ld; [rewrite !upd_tmem_lookup, !decide_False by (subst nb; addr); exact Hnn2|].
  rewrite tag_clear_prev_free by done. wp_step. apply wp_st; [apply Hram; subst nb; addr|].
  rewrite (u32_id (m - r)) by (unfold in_u32; lia). set (s3 := upd_tmem _ (upd_tmem _ (upd_tmem _ s2))).
  assert (Hm3 : forall x, x <> a_size b -> x <> a_prev_hdr nb -> x <> a_size nb -> ts_mem s3 !! x = ts_mem s2 !! x).
  { intros x E1 E2 E3. subst s3. rewrite !upd_tmem_lookup, !decide_False by done. done. }
  replace (join_next sz ((n, true) :: l3)) with (m, l3) by (simpl; f_equal; lia). simpl fst. simpl snd.
  eapply wp_mono.
  { apply (resize_finish l1 sz [(n, true)] l3 r m pf pa false s s3); fold b; fold m; [|right; by exists n|done|done].
    split; fold b; fold m; fold nb; try done.
    - split; [done|simpl; lia].
    - by exists true, (b + 8 + sz).
    - intros x HH HL. pose proof (HH b ltac:(set_solver)). pose proof (HH nb ltac:(set_solver)).
      rewrite Hm3 by tauto. apply Hw; [set_solver|done].
    - assert (Hnode : forall a, a ∈ (frees first l1 ++ frees nb l3).*1 -> a + 16 <= b \/ nb + 16 <= a).
      { intros a Ha. destruct (node_outside first l1 [(sz, false); (n, true)] l3 a) as [_ Hx]; [|done| |].
        - exact (chain_ok _ _ _ _ _ (tk_chain _ _ _ _ _ Hok)).
        - simpl. replace (first + span l1 + (8 + sz + (8 + n + 0))) with nb by (subst nb b; lia). done.
        - fold b in Hx. simpl in Hx. subst nb. lia. }
      do 3 (apply fl_ok_st; [intros x Hx; specialize (Hnode x Hx); subst nb; addr|]). done.
    - intros Hpf. rewrite Hm3, Hp2 by (subst nb; addr). by apply (proj2 Hh).
    - subst s3. rewrite !upd_tmem_lookup, !decide_False, decide_True by (done || (subst nb; addr)). done.
    - subst s3. rewrite upd_tmem_lookup, decide_True by done. done.
    - by rewrite <- Hfs.
    - by rewrite <- Hus. }
  intros _ s' [Hok' Hw']. split; [exact Hok'|]. intros x Hx Hout.
  eapply (resize_kept l1 sz [(n, true)] l3 r x s s'); try done; [right; by exists n|simpl; lia].
Qed.

(** ** What a reallocation promises *)

(** Either there is no room and nothing has changed, or the block is now one of at least
    [size] bytes at [p]: it holds the first words of the old one, the other blocks in use
    are where they were, and their contents are the same. *)
Definition reallocated (l1 : list pblk) (sz : Z) (l2 : list pblk) (size p : Z) (s s' : tstate) : Prop :=
  let b := first + span l1 in
  (p = NULL /\ s' = s) \/
  exists bs' n, tok bs' s' /\ span bs' = span (l1 ++ (sz, false) :: l2) /\ size <= n /\
    useds first bs' ≡ₚ (p - 8, n) :: useds first l1 ++ useds (b + 8 + sz) l2 /\
    (forall i, 0 <= i -> 4 * i + 4 <= Z.min sz (adjust_size size) ->
       ts_mem s' !! (p + 4 * i) = ts_mem s !! (b + 8 + 4 * i)) /\
    (forall x, user_word first (l1 ++ (sz, false) :: l2) x -> x < b + 8 \/ b + 8 + sz <= x ->
       ts_mem s' !! x = ts_mem s !! x).

Lemma useds_join sz l2 a : useds (a + 8 + sz) l2 = useds (a + 8 + (join_next sz l2).1) (join_next sz l2).2.
Proof. destruct l2 as [|[z []] l2]; simpl; [done| |done]. f_equal. lia. Qed.

Lemma resized_reallocated l1 sz l2 size s s' :
  tok (l1 ++ (sz, false) :: l2) s -> size <= adjust_size size <= (join_next sz l2).1 ->
  resized l1 sz l2 (adjust_size size) s s' ->
  reallocated l1 sz l2 size (first + span l1 + 8) s s'.
Proof.
  intros Hok Hle [Hok' Hkept]. right. pose proof (useds_taken first l1 (join_next sz l2).1 (join_next sz l2).2 (adjust_size size)) as Hu.
  eexists _, _. split; [exact Hok'|]. split; [|split; [|split; [|split]]].
  - rewrite span_taken, !span_app. destruct l2 as [|[z []] l2]; simpl; lia.
  - instantiate (1 := if sizeof_bhdr <=? (join_next sz l2).1 - adjust_size size then adjust_size size else (join_next sz l2).1).
    destruct (sizeof_bhdr <=? _); lia.
  - rewrite Hu. replace (first + span l1 + 8 - 8) with (first + span l1) by lia. constructor.
    rewrite (useds_join sz l2), !useds_app. simpl. done.
  - intros i Hi Hmin. apply Hkept; [|left; lia]. exists l1, sz, l2. split; [done|]. lia.
  - intros x Hx Hout. apply Hkept; [done|]. destruct Hout as [Hlt|Hge]; [left|by right].
    pose proof (chain_ok _ _ _ _ _ (tk_chain _ _ _ _ _ Hok')) as Hall. 
    assert (0 <= adjust_size size); [|lia]. unfold adjust_size. destruct (size <? MIN_BLOCK_SIZE); [done|].
    unfold ROUNDUP_SIZE, ROUNDDOWN_SIZE. apply Z.land_nonneg. right. done.
Qed.

(** ** Moving a block *)

Lemma copy_words_other dst src k m x :
  (forall i, 0 <= i < Z.of_nat k -> x <> dst + 4 * i) -> copy_words dst src k m !! x = m !! x.
Proof.
  revert dst src m. induction k as [|k IH]; intros dst src m Hx; simpl; [done|].
  rewrite IH by (intros i Hi; specialize (Hx (i + 1)); lia). specialize (Hx 0).
  destruct (m !! src); [by rewrite lookup_insert_ne by lia|by rewrite lookup_delete_ne by lia].
Qed.

Lemma copy_words_copied dst src k m i :
  dst + 4 * Z.of_nat k <= src \/ src + 4 * Z.of_nat k <= dst -> 0 <= i < Z.of_nat k ->
  copy_words dst src k m !! (dst + 4 * i) = m !! (src + 4 * i).
Proof.
  revert dst src m i. induction k as [|k IH]; intros dst src m i Hd Hi; simpl; [lia|].
  destruct (decide (i = 0)) as [->|Hi0].
  - rewrite copy_words_other by (intros j Hj; lia). replace (dst + 4 * 0) with dst by lia. replace (src + 4 * 0) with src by lia.
    destruct (m !! src) eqn:E; [by rewrite lookup_insert_eq|by rewrite lookup_delete_eq].
  - replace (dst + 4 * i) with (dst + 4 + 4 * (i - 1)) by lia. rewrite IH by lia.
    replace (src + 4 + 4 * (i - 1)) with (src + 4 * i) by lia.
    destruct (m !! src); [rewrite lookup_insert_ne by lia|rewrite lookup_delete_ne by lia]; done.
Qed.

(** Words of the blocks in use may change. *)
Lemma tok_user_change bs s s' : tok bs s -> ts_ctl s' = ts_ctl s ->
  (forall x, ~ user_word first bs x -> ts_mem s' !! x = ts_mem s !! x) -> tok bs s'.
Proof.
  intros Hok Hctl Hm. pose proof Hok as [Hc Hf H1 H2 H3 H4 H5 H6]. split; rewrite ?Hctl; try done.
  - apply (chain_frame (ts_mem s)); [|done]. intros h Hh.
    split; apply Hm; intros Hx; pose proof (user_word_header _ _ _ _ _ _ _ Hok Hx Hh); addr.
  - apply (fl_ok_frame in_ram _ s); [by rewrite Hctl| |done]. intros a Ha.
    apply list_elem_of_fmap in Ha as ([a' sa] & -> & (m1 & m2 & Hb & ->)%frees_split). simpl.
    destruct (tlsf_block in_ram first total m1 sa true m2 s) as (_ & _ & [Hs8 _] & _); [by rewrite <- Hb|]. simpl in Hs8.
    split; apply Hm; intros Hx; pose proof (user_word_outside _ _ _ _ _ _ _ _ _ Hok Hx Hb); addr.
Qed.

Lemma user_word_useds bs x :
  user_word first bs x <-> exists a z, (a, z) ∈ useds first bs /\ a + 8 <= x <= a + 8 + z - 4.
Proof.
  split.
  - intros (l1 & z & l2 & -> & Hx). exists (first + span l1), z. split; [|done]. rewrite useds_app. simpl. set_solver.
  - intros (a & z & (l1 & l2 & -> & ->)%useds_split & Hx). by exists l1, z, l2.
Qed.

(** A block in use and a free block do not overlap. *)
Lemma used_free_apart l1 sz l2 k1 z k2 :
  Forall blk_ok (l1 ++ (sz, false) :: l2) -> l1 ++ (sz, false) :: l2 = k1 ++ (z, true) :: k2 ->
  first + span l1 + 8 + sz <= first + span k1 \/ first + span k1 + 8 + z <= first + span l1.
Proof.
  intros Hall Heq. destruct (blocks_ordered _ _ _ _ _ _ Heq) as [(_ & [=] & _)|[(k & ->)|(k & ->)]].
  - left. rewrite Heq, !Forall_app, Forall_cons in Hall. destruct Hall as ((_ & _ & Hk) & _).
    pose proof (span_nonneg k Hk). rewrite span_app. simpl. lia.
  - right. rewrite !Forall_app, Forall_cons in Hall. destruct Hall as ((_ & _ & Hk) & _).
    pose proof (span_nonneg k Hk). rewrite span_app. simpl. lia.
Qed.

(** The new block is filled and the old one is released. *)
Lemma move_finish l1 sz l2 k1 z k2 R size s s1 :
  let b := first + span l1 in
  let bs := l1 ++ (sz, false) :: l2 in
  let p := first + span k1 + 8 in
  tok bs s -> bs = k1 ++ (z, true) :: k2 -> tok (taken k1 z k2 R) s1 -> user_kept first bs s s1 ->
  size <= adjust_size size <= R -> R <= z -> sz < adjust_size size ->
  wp (modify (upd_tmem (copy_words p (b + 8) (Z.to_nat (sz / 4))));;; free_ex in_ram (b + 8))
    (fun _ s' => reallocated l1 sz l2 size p s s') s1.
Proof.
  intros b bs p Hok Hbs Hok1 Hkept HR Hz Hsz. set (n := if sizeof_bhdr <=? z - R then R else z).
  assert (Hn : R <= n <= z) by (unfold n; destruct (_ <=? _); lia).
  pose proof (useds_taken first k1 z k2 R) as Hu. fold n in Hu. rewrite <- Hbs in Hu.
  assert (Hub : useds first bs = useds first l1 ++ (b, sz) :: useds (b + 8 + sz) l2) by (unfold bs; by rewrite useds_app).
  destruct (useds_split first (taken k1 z k2 R) b sz) as (l1' & l2' & Ht & Eb); [rewrite Hu, Hub; set_solver|].
  assert (Hin1 : (p - 8, n) ∈ useds first (taken k1 z k2 R)).
  { rewrite Hu. replace (p - 8) with (first + span k1) by (subst p; lia). by left. }
  assert (Hall : Forall blk_ok bs) by exact (chain_ok _ _ _ _ _ (tk_chain _ _ _ _ _ Hok)).
  pose proof (used_free_apart l1 sz l2 k1 z k2 Hall Hbs) as Hap. fold b in Hap.
  destruct (tlsf_block _ _ _ _ _ _ _ _ Hok) as (_ & _ & [Hsz8 Hszm] & _). simpl in Hsz8, Hszm.
  pose proof (Z.div_mod sz 4 ltac:(lia)). pose proof (Z.mod_pos_bound sz 4 ltac:(lia)).
  assert (Hk : Z.of_nat (Z.to_nat (sz / 4)) = sz / 4) by (apply Z2Nat.id, Z.div_pos; lia).
  set (k := Z.to_nat (sz / 4)) in *. wp_step. wp_step. set (s2 := upd_tmem (copy_words p (b + 8) k) s1).
  assert (Hok2 : tok (taken k1 z k2 R) s2).
  { apply (tok_user_change _ s1); [done|done|]. intros x Hx. simpl. apply copy_words_other. intros i Hi ->. apply Hx.
    apply user_word_useds. exists (p - 8), n. split; [done|lia]. }
  rewrite Ht in Hok2, Hu, Hin1. rewrite Eb.
  eapply wp_mono; [exact (free_ex_spec in_ram first total l1' sz l2' s2 Hok2)|]. intros _ s3 [Hok3 Hkept3].
  pose proof (useds_released first l1' sz l2') as Hrel. rewrite <- Eb in Hrel.
  assert (Hu3 : useds first (released l1' sz l2') ≡ₚ (p - 8, n) :: useds first l1 ++ useds (b + 8 + sz) l2).
  { apply (Permutation_cons_inv (a := (b, sz))). rewrite <- Hrel, Hu, Hub. replace (p - 8) with (first + span k1) by (subst p; lia).
    rewrite <- Permutation_middle. apply Permutation_swap. }
  right. exists (released l1' sz l2'), n. fold b. split; [done|].
  split; [rewrite span_released, <- Ht, span_taken, <- Hbs; done|]. split; [lia|]. split; [done|]. split.
  - intros i Hi Hmin. rewrite Hkept3.
    + simpl. rewrite copy_words_copied by (subst p; lia). apply Hkept. exists l1, sz, l2. split; [done|]. fold b. lia.
    + apply user_word_useds. exists (p - 8), n. rewrite Hu3. split; [by left|lia].
  - intros x Hx Hout. rewrite Hkept3.
    + simpl. rewrite copy_words_other; [by apply Hkept|]. intros i Hi ->.
      pose proof (user_word_outside _ _ _ bs s _ k1 z k2 Hok Hx Hbs). subst p. lia.
    + apply user_word_useds in Hx as (a & y & Hin & Hr). apply user_word_useds. exists a, y. split; [|done].
      rewrite Hu3. fold bs in Hin. rewrite Hub in Hin. apply elem_of_cons. right. apply elem_of_app.
      apply elem_of_app in Hin as [Hin|[[= -> ->]|Hin]%elem_of_cons]; [by left|lia|by right].
Qed.

(** ** The whole operation *)

Lemma tlsf_realloc_spec l1 sz l2 size s :
  tok (l1 ++ (sz, false) :: l2) s -> 0 < size <= MAX_REQUEST ->
  wp (tlsf_realloc in_ram (first + span l1 + 8) size) (fun p s' => reallocated l1 sz l2 size p s s') s.
Proof.
  intros Hok Hs. set (b := first + span l1).
  destruct (tlsf_block _ _ _ _ _ _ _ _ Hok) as (H1 & H2 & [Hsz8 _] & Hszok & _ & Htop & _ & _ & pf & pa & _ & [Hb _] & _ & _).
  fold b in Hb, Htop. simpl in Hsz8. destruct (next_header _ _ _ _ Hok) as [Hn Hszn]. fold b in Hn.
  destruct (adjust_size_spec size ltac:(lia)) as [Ha Haok]. pose proof (tk_first _ _ _ _ _ Hok).
  unfold tlsf_realloc, realloc_inplace_ex. wp_step.
  destruct (Z.eqb_spec (b + 8) NULL) as [E|_]; [unfold NULL in E; subst b; lia|].
  destruct (Z.eqb_spec size 0) as [|_]; [lia|].
  replace (b + 8 - BHDR_OVERHEAD) with b by (change BHDR_OVERHEAD with 8; lia). cbv zeta.
  wp_step. eapply wp_ld; [exact Hb|]. rewrite size_of_tag by done. unfold GET_NEXT_BLOCK.
  replace (u32 (a_buffer b + sz)) with (b + 8 + sz) by (unfold a_buffer; rewrite u32_id; [done|unfold in_u32; subst b; lia]).
  destruct (Z.leb_spec (adjust_size size) sz) as [Hle|Hgt].
  - wp_step. eapply wp_mono; [by apply realloc_shrink_spec|]. intros [] s' Hres. wp_step. cbv beta iota. simpl negb. cbv iota. wp_step.
    apply resized_reallocated; [done| |done]. destruct l2 as [|[n []] l3]; simpl; [lia| |lia].
    destruct (before_free_intro _ _ _ _ _ Hok) as (? & ? & [_ _ _ _ _ _ (? & ? & _) _ _ _ _]). lia.
  - wp_step. eapply wp_ld; [exact Hn|]. rewrite tag_is_free, negb_involutive, size_of_tag by done.
    destruct ((head_blk l2).2 && (adjust_size size <=? u32 (sz + (head_blk l2).1))) eqn:Hgrow.
    + apply andb_prop in Hgrow as [Hf Hle%Z.leb_le]. destruct l2 as [|[n fn] l3]; [done|]. simpl in Hf, Hle. subst fn.
      destruct (before_free_intro _ _ _ _ _ Hok) as (? & ? & [_ _ _ _ _ _ (? & ? & _) Hpl _ _ _]). fold b in Hpl.
      rewrite u32_id in Hle by (unfold in_u32; lia).
      wp_step. eapply wp_mono; [by apply realloc_grow_spec|]. intros [] s' Hres. wp_step. cbv beta iota. simpl negb. cbv iota. wp_step.
      apply resized_reallocated; [done| |done]. simpl. lia.
    + wp_step. cbv beta iota. simpl negb. cbv iota. wp_step. eapply wp_ld; [exact Hb|]. rewrite size_of_tag by done.
      wp_step. eapply wp_mono; [apply malloc_ex_spec; [exact Hok|lia]|].
      intros p s1 [(-> & -> & _)|(k1 & z & k2 & Hbs & -> & HR & _ & Hok1 & Hkept)].
      * rewrite Z.eqb_refl. simpl negb. unfold when. wp_step. wp_step. wp_step. by left.
      * destruct (Z.eqb_spec (first + span k1 + 8) NULL) as [E|_].
        { rewrite Hbs in Hok. destruct (tlsf_block _ _ _ _ _ _ _ _ Hok) as (? & _). unfold NULL in E. lia. }
        simpl negb. unfold when. rewrite (proj2 (Z.ltb_ge _ _)) by lia. wp_step.
        eapply wp_mono; [apply (move_finish l1 sz l2 k1 z k2 (rounded (adjust_size size)) size s s1); done || lia|].
        intros [] s' Hres. by wp_step.
Qed.

End Realloc.
