(* ===== verification/TlsfClient.v ===== *)
(** * Clients of the segregated fit heap

    An abstract heap gives out blocks and remembers what was written to them.  Any
    client that allocates, writes inside its blocks, reallocates and releases them sees
    exactly the abstract heap: blocks that are in use are disjoint, and what was written to a
    block is there until the block is released. *)

From S2P Require Import Prelude.
From S2P Require Import Kernel.
From S2P Require Import Tlsf.
From S2P Require Import TlsfMap.
From S2P Require Import TlsfLists.
From S2P Require Import TlsfProofs.
From S2P Require Import TlsfUsed.
From S2P Require Import TlsfRealloc.
From Stdlib Require Import ZArith Lia.
From stdpp Require Import base numbers gmap list functions sorting.
Local Open Scope Z_scope.

(** ** The abstract heap *)

(** Blocks in use with the size that was asked for, and the words written to them. *)
Record client := Client {
  live : gmap Z Z;
  data : gmap Z Z
}.

Definition no_blocks : client := Client ∅ ∅.

(** A word inside the block of [n] bytes at [p]. *)
Definition word_in (p n x : Z) : Prop := p <= x /\ x + 4 <= p + n /\ (x - p) mod 4 = 0.

#[global] Instance word_in_dec p n x : Decision (word_in p n x).
Proof. unfold word_in. apply _. Defined.

Definition give (p n : Z) (c : client) : client := Client (<[p := n]> (live c)) (data c).
Definition write_word (x v : Z) (c : client) : client := Client (live c) (<[x := v]> (data c)).
Definition take_back (p n : Z) (c : client) : client :=
  Client (delete p (live c)) (filter (fun w => ~ word_in p n w.1) (data c)).

(** The block of [n] bytes at [p] becomes one of [m] bytes at [q] with the same first words. *)
Definition move_block (p n q m : Z) (c : client) : client :=
  Client (<[q := m]> (delete p (live c)))
    (kmap (fun x => x - p + q) (filter (fun w => word_in p (Z.min n m) w.1) (data c)) ∪
     filter (fun w => ~ word_in p n w.1) (data c)).

Section Client.
Context (in_ram : Z -> bool) (first total width : Z).
Abbreviation tok := (tlsf_ok in_ram first total).

(** One action of a client on the heap. *)
Inductive heap_step : tstate * client -> tstate * client -> Prop :=
| step_alloc s s' c n p :
    0 <= n <= MAX_REQUEST -> malloc_ex in_ram n s = Ok p s' ->
    heap_step (s, c) (s', if p =? NULL then c else give p n c)
| step_free s s' c p n :
    live c !! p = Some n -> free_ex in_ram p s = Ok tt s' -> heap_step (s, c) (s', take_back p n c)
| step_realloc s s' c p n m q :
    live c !! p = Some n -> 0 < m <= MAX_REQUEST -> tlsf_realloc in_ram p m s = Ok q s' ->
    heap_step (s, c) (s', if q =? NULL then c else move_block p n q m c)
| step_write s c p n x v :
    live c !! p = Some n -> word_in p n x ->
    heap_step (s, c) (upd_tmem (insert x v) s, write_word x v c).

(** The heap implements the abstract one. *)
Record refines (bs : list pblk) (s : tstate) (c : client) : Prop := {
  rf_ok : tok bs s;
  rf_width : span bs = width;
  rf_live : forall p n, live c !! p = Some n -> exists sz, (p - 8, sz) ∈ useds first bs /\ 0 <= n <= sz;
  rf_data : forall x v, data c !! x = Some v ->
    ts_mem s !! x = Some v /\ exists p n, live c !! p = Some n /\ word_in p n x
}.

Lemma word_used bs s c p n x : refines bs s c -> live c !! p = Some n -> word_in p n x -> user_word first bs x.
Proof.
  intros Hr Hl (H1 & H2 & _). destruct (rf_live _ _ _ Hr p n Hl) as (sz & Hin & Hn).
  apply useds_split in Hin as (l1 & l2 & -> & Hp). exists l1, sz, l2. split; [done|]. lia.
Qed.

(** A block is known by its address. *)
Lemma same_block bs s l1 p l2 m1 q m2 : tok bs s -> bs = l1 ++ p :: l2 -> bs = m1 ++ q :: m2 ->
  span l1 = span m1 -> l1 = m1 /\ p = q /\ l2 = m2.
Proof.
  intros Hok H1 H2 Hs. pose proof (chain_ok _ _ _ _ _ (tk_chain _ _ _ _ _ Hok)) as Hall.
  assert (Hlt : forall (a k : list pblk) x, Forall blk_ok (a ++ x :: k) -> span a < span (a ++ x :: k)).
  { intros a k [z zf] Hf. apply Forall_app in Hf as [_ [[Hz _] Hk]%Forall_cons]. pose proof (span_nonneg k Hk).
    rewrite span_app. simpl in *. lia. }
  rewrite H1 in H2. destruct (blocks_ordered _ _ _ _ _ _ H2) as [?|[(k&->)|(k&->)]]; [done| |].
  - specialize (Hlt l1 k p). rewrite H1, H2, Forall_app in Hall. destruct Hall as [Hall _]. specialize (Hlt Hall). lia.
  - specialize (Hlt m1 k q). rewrite H1, Forall_app in Hall. destruct Hall as [Hall _]. specialize (Hlt Hall). lia.
Qed.

(** A write to a block in use does not disturb the heap. *)
Lemma tok_user_write bs s x v : tok bs s -> user_word first bs x -> tok bs (upd_tmem (insert x v) s).
Proof.
  intros Hok Hx. pose proof Hok as [Hc Hf H1 H2 H3 H4 H5 H6]. split; [| |done..].
  - apply (chain_frame (ts_mem s)); [|done]. intros h Hh.
    pose proof (user_word_header _ _ _ _ _ _ _ Hok Hx Hh).
    split; simpl; rewrite lookup_insert_ne by addr; done.
  - apply fl_ok_st; [|done]. intros a Ha.
    apply list_elem_of_fmap in Ha as ([a' sa] & -> & (m1 & m2 & Hm & ->)%frees_split). simpl.
    pose proof (user_word_outside _ _ _ _ _ _ _ _ _ Hok Hx Hm).
    destruct (tlsf_block in_ram first total m1 sa true m2 s) as (_ & _ & [Hs8 _] & _); [by rewrite <- Hm|].
    simpl in Hs8. addr.
Qed.

Lemma refines_alloc bs s c n p s' :
  refines bs s c -> 0 <= n <= MAX_REQUEST -> allocated in_ram first total bs n p s s' ->
  exists bs', refines bs' s' (if p =? NULL then c else give p n c).
Proof.
  intros Hr Hn [(-> & -> & _)|(l1 & sz & l2 & -> & -> & Hle & _ & Hok & Hk)]; [by exists bs|].
  pose proof (rf_ok _ _ _ Hr) as Hok0. pose proof (tk_first _ _ _ _ _ Hok0).
  destruct (tlsf_block _ _ _ _ _ _ _ _ Hok0) as (Hl1 & _).
  destruct (Z.eqb_spec (first + span l1 + 8) NULL) as [E|_]; [unfold NULL in E; lia|].
  exists (taken l1 sz l2 (rounded n)). split; [done|rewrite span_taken; apply (rf_width _ _ _ Hr)| |].
  - intros p m. simpl. rewrite lookup_insert_Some. setoid_rewrite useds_taken. intros [[<- <-]|[_ Hl]].
    + eexists. split; [rewrite elem_of_cons; left; f_equal; lia|]. destruct (_ <=? _); lia.
    + destruct (rf_live _ _ _ Hr p m Hl) as (sz' & Hin & Hm). exists sz'. split; [set_solver|done].
  - intros x v Hx. destruct (rf_data _ _ _ Hr x v Hx) as (Hv & p & m & Hl & Hin). split.
    + rewrite Hk; [done|]. by eapply word_used.
    + exists p, m. simpl. rewrite lookup_insert_ne; [done|]. intros <-.
      destruct (rf_live _ _ _ Hr _ m Hl) as (sz' & Hu & _). apply useds_split in Hu as (m1 & m2 & Heq & Hp).
      by destruct (same_block _ _ _ _ _ _ _ _ Hok0 eq_refl Heq ltac:(lia)) as (_ & [=] & _).
Qed.

Lemma refines_free bs s c p n :
  refines bs s c -> live c !! p = Some n ->
  wp (free_ex in_ram p) (fun _ s' => exists bs', refines bs' s' (take_back p n c)) s.
Proof.
  intros Hr Hl. pose proof (rf_ok _ _ _ Hr) as Hok. destruct (rf_live _ _ _ Hr p n Hl) as (sz & Hin & Hn).
  apply useds_split in Hin as (l1 & l2 & -> & Hp). replace p with (first + span l1 + 8) by lia.
  eapply wp_mono; [by apply free_ex_spec|]. intros _ s' [Hok' Hk]. exists (released l1 sz l2). split; [done|rewrite span_released; apply (rf_width _ _ _ Hr)| |].
  - intros q m. simpl. rewrite lookup_delete_Some. intros [Hne Hq].
    destruct (rf_live _ _ _ Hr q m Hq) as (sz' & Hin & Hm). exists sz'. split; [|done].
    rewrite useds_released in Hin. apply elem_of_cons in Hin as [[= Heq _]|Hin]; [lia|done].
  - intros x v. simpl. rewrite map_lookup_filter_Some. intros [Hx Hnot]. simpl in Hnot.
    destruct (rf_data _ _ _ Hr x v Hx) as (Hv & q & m & Hq & Hw).
    assert (Hne : first + span l1 + 8 <> q).
    { intros <-. replace p with (first + span l1 + 8) in Hl by lia. rewrite Hl in Hq. injection Hq as <-. done. }
    split; [|exists q, m; by rewrite lookup_delete_ne].
    rewrite Hk; [done|]. destruct (rf_live _ _ _ Hr q m Hq) as (sz' & Hin & Hm).
    rewrite useds_released in Hin. apply elem_of_cons in Hin as [[= Heq _]|Hin]; [lia|].
    apply useds_split in Hin as (m1 & m2 & Hm' & Hp'). destruct Hw as (H1 & H2 & _). exists m1, sz', m2. split; [done|lia].
Qed.

Lemma refines_write bs s c p n x v :
  refines bs s c -> live c !! p = Some n -> word_in p n x ->
  refines bs (upd_tmem (insert x v) s) (write_word x v c).
Proof.
  intros Hr Hl Hx. split.
  - apply tok_user_write; [apply Hr|by eapply word_used].
  - apply Hr.
  - apply Hr.
  - intros y w. simpl. rewrite !lookup_insert_Some. intros [[<- <-]|[Hne Hy]].
    + split; [by left|]. eauto.
    + destruct (rf_data _ _ _ Hr y w Hy) as (Hv & q & m & Hq & Hw). split; [by right|]. eauto.
Qed.

Lemma refines_realloc bs s c p n m :
  refines bs s c -> live c !! p = Some n -> 0 < m <= MAX_REQUEST ->
  wp (tlsf_realloc in_ram p m) (fun q s' =>
    exists bs', refines bs' s' (if q =? NULL then c else move_block p n q m c)) s.
Proof.
  intros Hr Hl Hm. pose proof (rf_ok _ _ _ Hr) as Hok. destruct (rf_live _ _ _ Hr p n Hl) as (sz & Hin & Hn).
  apply useds_split in Hin as (l1 & l2 & -> & Hp). assert (p = first + span l1 + 8) as -> by lia. clear Hp.
  set (b := first + span l1) in *.
  eapply wp_mono; [by apply tlsf_realloc_spec|]. intros q s' [(-> & ->)|(bs' & nn & Hok' & Hw' & Hnn & Hu' & Hcopy & Hkeep)].
  { rewrite Z.eqb_refl. eauto. }
  exists bs'. fold b in Hu', Hcopy, Hkeep.
  assert (Hq : exists m1 m2, bs' = m1 ++ (nn, false) :: m2 /\ q = first + span m1 + 8).
  { destruct (useds_split first bs' (q - 8) nn) as (m1 & m2 & E & Eq); [rewrite Hu'; by left|]. exists m1, m2. split; [done|lia]. }
  destruct Hq as (q1 & q2 & Ebs & Eq).
  destruct (Z.eqb_spec q NULL) as [E|_].
  { rewrite Ebs in Hok'. destruct (tlsf_block _ _ _ _ _ _ _ _ Hok') as (? & _). pose proof (tk_first _ _ _ _ _ Hok). unfold NULL in E. lia. }
  assert (Hother : forall p' n', live c !! p' = Some n' -> p' <> b + 8 -> p' <> q /\
    exists sz', (p' - 8, sz') ∈ useds first l1 ++ useds (b + 8 + sz) l2 /\ 0 <= n' <= sz').
  { intros p' n' Hl' Hne. destruct (rf_live _ _ _ Hr p' n' Hl') as (sz' & Hin & Hn').
    rewrite useds_app in Hin. simpl in Hin. fold b in Hin.
    assert (Hin' : (p' - 8, sz') ∈ useds first l1 ++ useds (b + 8 + sz) l2).
    { apply elem_of_app in Hin as [Hin|[[= E _]|Hin]%elem_of_cons]; [set_solver|lia|set_solver]. }
    split; [|by exists sz']. intros ->.
    pose proof (useds_nodup first bs' (chain_ok _ _ _ _ _ (tk_chain _ _ _ _ _ Hok'))) as Hnd. rewrite Hu' in Hnd.
    simpl in Hnd. apply NoDup_cons in Hnd as [Hnd _]. apply Hnd. apply list_elem_of_fmap. by exists (q - 8, sz'). }
  split; [done|rewrite Hw'; apply (rf_width _ _ _ Hr)| |].
  - intros p' n'. simpl. rewrite lookup_insert_Some, lookup_delete_Some. intros [[<- <-]|(_ & Hne & Hl')].
    + exists nn. rewrite Hu'. split; [by left|lia].
    + destruct (Hother p' n' Hl' ltac:(done)) as (_ & sz' & Hin & Hn'). exists sz'. rewrite Hu'. split; [by right|done].
  - intros x v. simpl. rewrite lookup_union_Some_raw, map_lookup_filter_Some. intros [Hx|[_ [Hx Hnot]]].
    + apply lookup_kmap_Some in Hx as (y & -> & [Hy Hin]%map_lookup_filter_Some); [|intros ? ?; lia]. simpl in Hin.
      destruct (rf_data _ _ _ Hr y v Hy) as (Hv & _). destruct Hin as (H1 & H2 & H3).
      pose proof (Z.div_mod (y - (b + 8)) 4 ltac:(lia)) as Hd. rewrite H3 in Hd.
      split; [|exists q, m; rewrite lookup_insert_eq; split; [done|]].
      * replace (y - (b + 8) + q) with (q + 4 * ((y - (b + 8)) / 4)) by lia.
        rewrite Hcopy; [by replace (b + 8 + 4 * ((y - (b + 8)) / 4)) with y by lia|lia|].
        destruct (adjust_size_spec m ltac:(lia)) as [? _]. lia.
      * split; [lia|]. split; [lia|]. replace (y - (b + 8) + q - q) with (y - (b + 8)) by lia. done.
    + destruct (rf_data _ _ _ Hr x v Hx) as (Hv & p' & n' & Hl' & Hw). simpl in Hnot.
      assert (Hne : p' <> b + 8) by (intros ->; rewrite Hl in Hl'; injection Hl' as <-; done).
      destruct (Hother p' n' Hl' Hne) as (Hnq & sz' & Hin & Hn').
      split; [|exists p', n'; rewrite lookup_insert_ne, lookup_delete_ne by congruence; done].
      rewrite Hkeep; [done|by eapply word_used|]. destruct Hw as (H1 & H2 & _).
      pose proof (chain_ok _ _ _ _ _ (tk_chain _ _ _ _ _ Hok)) as Hall.
      apply Forall_app in Hall as [Hall1 [_ Hall2]%Forall_cons].
      apply elem_of_app in Hin as [Hin|Hin]; apply useds_bound in Hin; try done; fold b in Hin; [left|right]; lia.
Qed.

(** The refinement is an invariant of any sequence of actions. *)
Lemma refines_steps sc sc' : rtc heap_step sc sc' ->
  (exists bs, refines bs sc.1 sc.2) -> exists bs, refines bs sc'.1 sc'.2.
Proof.
  intros Hrtc. induction Hrtc as [sc|sc1 sc2 sc3 Hstep _ IH]; [done|]. intros (bs & Hr). apply IH.
  destruct Hstep as [s s' c n p Hn Hm|s s' c p n Hl Hf|s s' c p n m q Hl Hm Hre|s c p n x v Hl Hw]; simpl in *.
  - pose proof (malloc_ex_spec in_ram first total bs n s (rf_ok _ _ _ Hr) Hn) as Hwp.
    unfold wp in Hwp. rewrite Hm in Hwp. by eapply refines_alloc.
  - pose proof (refines_free bs s c p n Hr Hl) as Hwp. unfold wp in Hwp. by rewrite Hf in Hwp.
  - pose proof (refines_realloc bs s c p n m Hr Hl Hm) as Hwp. unfold wp in Hwp. by rewrite Hre in Hwp.
  - exists bs. by eapply refines_write.
Qed.

(** Two blocks in use do not overlap. *)
Lemma refines_disjoint bs s c p n q m : refines bs s c -> live c !! p = Some n -> live c !! q = Some m -> p <> q ->
  p + n + 8 <= q \/ q + m + 8 <= p.
Proof.
  intros Hr Hp Hq Hne. destruct (rf_live _ _ _ Hr p n Hp) as (sz & Hin & Hn). destruct (rf_live _ _ _ Hr q m Hq) as (sz' & Hin' & Hm).
  apply useds_split in Hin as (l1 & l2 & E1 & Ea). apply useds_split in Hin' as (m1 & m2 & E2 & Eb).
  pose proof (chain_ok _ _ _ _ _ (tk_chain _ _ _ _ _ (rf_ok _ _ _ Hr))) as Hall.
  pose proof E2 as E3. rewrite E1 in E3. destruct (blocks_ordered _ _ _ _ _ _ E3) as [(-> & _)|[(k&->)|(k&->)]]; [lia| |].
  - left. rewrite E2, !Forall_app, Forall_cons in Hall. destruct Hall as [[_ [_ Hk]] _]. pose proof (span_nonneg k Hk).
    rewrite span_app in *. simpl in *. lia.
  - right. rewrite E1, !Forall_app, Forall_cons in Hall. destruct Hall as [[_ [_ Hk]] _]. pose proof (span_nonneg k Hk).
    rewrite span_app in *. simpl in *. lia.
Qed.

End Client.
