(* ===== verification/TlsfInit.v ===== *)
(** * The segregated fit heap from its initialisation on: the theorems *)

From S2P Require Import Prelude.
From S2P Require Import Kernel.
From S2P Require Import Tlsf.
From S2P Require Import TlsfMap.
From S2P Require Import TlsfLists.
From S2P Require Import TlsfProofs.
From S2P Require Import TlsfUsed.
From S2P Require Import TlsfRealloc.
From S2P Require Import TlsfClient.
From Stdlib Require Import ZArith Lia.
From stdpp Require Import base numbers gmap list functions sorting.
Local Open Scope Z_scope.

Lemma tables_ok_zero c : fl_bitmap c = 0 -> sl_bitmap c = ∅ -> matrix c = ∅ -> tables_ok (fun _ => []) c.
Proof.
  intros H1 H2 H3. split.
  - intros k _. unfold head_of. by rewrite H3.
  - intros k _. unfold sl_of. rewrite H2, lookup_empty. simpl. by rewrite Z.bits_0.
  - intros fl _. unfold sl_of. rewrite H2, lookup_empty. simpl. lia.
  - intros fl _. unfold sl_of. rewrite H1, H2, lookup_empty. by rewrite Z.bits_0.
  - rewrite H1. unfold REAL_FLI, MAX_FLI, FLI_OFFSET. lia.
Qed.

Lemma fl_ok_zero in_ram s : fl_bitmap (ts_ctl s) = 0 -> sl_bitmap (ts_ctl s) = ∅ -> matrix (ts_ctl s) = ∅ ->
  fl_ok in_ram [] s.
Proof.
  intros H1 H2 H3. exists (fun _ => []).
  assert (Hm : forall a, ~ member (fun _ => []) a) by (intros a (k & _ & Hin); set_solver).
  split_and!; [split; [by apply tables_ok_zero|split]|..].
  - done.
  - intros. constructor.
  - set_solver.
  - intros a b Ha. by destruct (Hm a).
  - intros a Ha. by destruct (Hm a).
  - intros k a _. set_solver.
  - constructor.
  - set_solver.
Qed.

Section Init.
Context (in_ram : Z -> bool).

Definition pool_first (pool : Z) : Z := pool + ROUNDUP_SIZE sizeof_tlsf + 16.
(** Bytes of the first block of a pool. *)
Definition pool_block (size : Z) : Z := (size - sizeof_tlsf) / 8 * 8 - 32.

(** Where a pool may lie, and the memory behind its control structure. *)
Record pool_ok (pool size : Z) : Prop := {
  po_align : 0 < pool /\ pool mod 4 = 0;
  po_size : sizeof_tlsf + BHDR_OVERHEAD * 8 <= size <= MAX_BLOCK + sizeof_tlsf;
  po_end : size mod 8 < 4;
  po_top : pool + size <= 2 ^ 32;
  po_ram : forall x, pool + ROUNDUP_SIZE sizeof_tlsf <= x <= pool + size - 4 -> in_ram x = true
}.

Lemma ROUNDDOWN_SIZE_eq r : 0 <= r < 2 ^ 32 -> ROUNDDOWN_SIZE r = r / 8 * 8.
Proof.
  intros. unfold ROUNDDOWN_SIZE. fold (lnot32 MEM_ALIGN). rewrite land_lnot32 by done. unfold MEM_ALIGN.
  change 7 with (Z.ones 3). rewrite <- Z.ldiff_land, Z.ldiff_ones_r by lia.
  by rewrite Z.shiftl_mul_pow2, Z.shiftr_div_pow2 by lia.
Qed.

Lemma pool_bounds pool size : pool_ok pool size ->
  let N := pool_block size in
  blk_ok (N, true) /\ 8 + N <= MAX_BLOCK /\ pool_first pool + 8 + N + 8 <= pool + size.
Proof.
  intros [_ Hs He _ _] N. change sizeof_tlsf with 1740 in *. change (BHDR_OVERHEAD * 8) with 64 in Hs.
  subst N. unfold pool_block, pool_first, blk_ok, MAX_BLOCK, MAX_FLI in *. change (ROUNDUP_SIZE sizeof_tlsf) with 1744.
  change sizeof_tlsf with 1740. simpl fst.
  pose proof (Z.div_mod (size - 1740) 8). pose proof (Z.mod_pos_bound (size - 1740) 8).
  pose proof (Z.div_mod size 8). pose proof (Z.mod_pos_bound size 8).
  assert (Hm : ((size - 1740) / 8 * 8 - 32) mod 8 = 0).
  { replace ((size - 1740) / 8 * 8 - 32) with (((size - 1740) / 8 - 4) * 8) by lia. apply Z.mod_mul. lia. }
  split; [split; [lia|done]|]. lia.
Qed.

Lemma process_area_spec pool size (Q : Z -> tstate -> Prop) s :
  pool_ok pool size ->
  let ib := pool + ROUNDUP_SIZE sizeof_tlsf in
  let b := pool_first pool in
  let N := pool_block size in
  let lb := b + 8 + N in
  (forall s', ts_ctl s' = ts_ctl s -> ts_mp s' = ts_mp s ->
     ts_mem s' !! a_size ib = Some (tag 8 false false) -> ts_mem s' !! a_size b = Some (tag N false false) ->
     ts_mem s' !! a_size lb = Some (tag 0 false true) -> ts_mem s' !! a_prev_hdr lb = Some b ->
     ts_mem s' !! (ib + 8) = Some lb -> ts_mem s' !! (ib + 12) = Some NULL -> Q ib s') ->
  wp (process_area in_ram ib (ROUNDDOWN_SIZE (u32 (size - sizeof_tlsf)))) Q s.
Proof.
  intros Hp ib b N lb HQ. pose proof (pool_bounds pool size Hp) as ([HN8 HNm] & HNmax & Hend). fold N b in HN8, HNm, HNmax, Hend.
  pose proof Hp as [[Hp0 _] Hs _ Htop Hram]. simpl in HN8, HNm.
  assert (Hib : b = ib + 16) by (subst b ib; unfold pool_first; lia).
  assert (Hib0 : 0 < ib) by (subst ib; change (ROUNDUP_SIZE sizeof_tlsf) with 1744; lia).
  assert (Hr : forall x, ib <= x <= lb + 4 -> in_ram x = true).
  { intros x Hx. apply Hram. subst lb. fold ib. lia. }
  assert (Hsz : ROUNDDOWN_SIZE (u32 (size - sizeof_tlsf)) = N + 32).
  { rewrite u32_id by (unfold in_u32; change sizeof_tlsf with 1740 in *; change (BHDR_OVERHEAD * 8) with 64 in *; lia).
    rewrite ROUNDDOWN_SIZE_eq by (change sizeof_tlsf with 1740 in *; change (BHDR_OVERHEAD * 8) with 64 in *; lia).
    subst N. unfold pool_block. lia. }
  rewrite Hsz. unfold process_area, GET_NEXT_BLOCK.
  change (if sizeof_area_info <? MIN_BLOCK_SIZE then _ else _) with (tag 8 false false).
  wp_step. apply wp_st; [apply Hr; subst lb; addr|].
  wp_step. eapply wp_ld; [rewrite upd_tmem_lookup, decide_True by done; done|]. cbv zeta.
  rewrite size_of_tag by (split; [lia|done]).
  replace (u32 (a_buffer ib + 8)) with b by (unfold a_buffer; rewrite u32_id; [lia|unfold in_u32; subst lb; lia]).
  replace (Z.lor (Z.lor (ROUNDDOWN_SIZE (u32 (N + 32 - 3 * BHDR_OVERHEAD - 8))) USED_BLOCK) PREV_USED) with (tag N false false).
  2: { unfold USED_BLOCK, PREV_USED. rewrite !Z.lor_0_r. change (3 * BHDR_OVERHEAD) with 24.
       unfold MAX_BLOCK, MAX_FLI in HNmax.
       rewrite u32_id, ROUNDDOWN_SIZE_eq by (unfold in_u32; lia). unfold tag, flags. simpl.
       pose proof (Z.div_mod N 8). replace (N + 32 - 24 - 8) with N by lia. lia. }
  wp_step. apply wp_st; [apply Hr; subst lb; addr|]. wp_step. apply wp_st; [apply Hr; subst lb; addr|].
  wp_step. apply wp_st; [apply Hr; subst lb; addr|].
  wp_step. eapply wp_ld; [rewrite !upd_tmem_lookup, !decide_False, decide_True by (done || addr); done|].
  rewrite size_of_tag by (split; [unfold MAX_BLOCK, MAX_FLI in HNmax; lia|done]).
  replace (u32 (a_buffer b + N)) with lb by (unfold a_buffer; rewrite u32_id; [subst lb; lia|unfold in_u32; subst lb; lia]).
  wp_step. apply wp_st; [apply Hr; subst lb; addr|]. wp_step. apply wp_st; [apply Hr; subst lb; addr|].
  wp_step. apply wp_st; [apply Hr; unfold a_area_next; subst lb; addr|].
  wp_step. apply wp_st; [apply Hr; unfold a_area_end; subst lb; addr|]. apply wp_ret.
  change (Z.lor (Z.lor 0 USED_BLOCK) PREV_FREE) with (tag 0 false true).
  unfold a_area_end, a_area_next. apply HQ; [done|done|..]; rewrite !upd_tmem_lookup;
    repeat first [rewrite decide_True by (subst lb; addr) | rewrite decide_False by (subst lb; addr)]; done.
Qed.
(** The only block of a fresh pool is released: there is nothing to join. *)
Lemma first_release_spec b N s :
  blk_ok (N, true) -> 8 + N <= MAX_BLOCK -> 0 < b -> b + 8 + N + 8 <= 2 ^ 32 ->
  (forall x, b <= x <= b + 8 + N + 4 -> in_ram x = true) -> fl_ok in_ram [] s ->
  ts_mem s !! a_size b = Some (tag N false false) -> ts_mem s !! a_size (b + 8 + N) = Some (tag 0 false true) ->
  wp (free_ex in_ram (b + 8)) (fun _ s' =>
    fl_ok in_ram [(b, N)] s' /\ ts_mem s' !! a_size b = Some (tag N true false) /\
    hdr (ts_mem s') (b + 8 + N) 0 false true b /\ writes [b; b + 8 + N] [b] s s') s.
Proof.
  intros HN Hmax Hb0 Htop Hr Hfl Hb Hlb. pose proof HN as [H8 Hm]. simpl in H8, Hm.
  assert (HNok : size_ok N) by (split; [unfold MAX_BLOCK, MAX_FLI in Hmax; lia|done]).
  unfold free_ex. destruct (Z.eqb_spec (b + 8) NULL) as [E|_]; [unfold NULL in E; lia|].
  replace (b + 8 - BHDR_OVERHEAD) with b by (change BHDR_OVERHEAD with 8; lia). cbv zeta.
  wp_step. eapply wp_ld; [done|]. rewrite tag_set_free by done. wp_step. apply wp_st; [apply Hr; addr|].
  wp_step. eapply REMOVE_SIZE_spec; [rewrite upd_tmem_lookup, decide_True by done; done|done|].
  wp_step. apply wp_st; [apply Hr; addr|]. wp_step. apply wp_st; [apply Hr; addr|].
  set (s1 := upd_tmem _ (upd_tmem _ (upd_ctl _ (upd_tmem _ s)))).
  assert (Hm1 : forall x, x <> a_size b -> x <> a_prev b -> x <> a_next b -> ts_mem s1 !! x = ts_mem s !! x).
  { intros x E1 E2 E3. subst s1. simpl. rewrite !lookup_insert_ne by (symmetry; done). done. }
  assert (Hb1 : ts_mem s1 !! a_size b = Some (tag N true false)).
  { subst s1. simpl. rewrite !lookup_insert_ne, lookup_insert_eq by addr. done. }
  assert (Hl1 : ts_mem s1 !! a_size (b + 8 + N) = Some (tag 0 false true)) by (rewrite Hm1 by addr; done).
  assert (Hfl1 : fl_ok in_ram [] s1) by (apply (fl_ok_frame _ _ s); [done|set_solver|done]).
  wp_step. unfold merge_next, GET_NEXT_BLOCK. wp_step. eapply wp_ld; [done|]. rewrite size_of_tag by done. cbv zeta.
  replace (u32 (a_buffer b + N)) with (b + 8 + N) by (unfold a_buffer; rewrite u32_id; [lia|unfold in_u32; lia]).
  wp_step. eapply wp_ld; [done|]. rewrite tag_is_free by (split; [lia|done]). simpl. apply wp_ret.
  wp_step. unfold merge_prev. wp_step. eapply wp_ld; [done|]. rewrite tag_prev_free by done. simpl. apply wp_ret.
  eapply wp_mono; [apply (insert_merged_spec in_ram [] b N false 0 true); try done; try lia; try set_solver; split; lia || done|].
  intros _ s2 (Hfl2 & _ & [Hp2 Hb2] & Hh2 & Hw). split; [done|]. split; [by rewrite Hb2|]. split; [done|].
  intros x HH HL. pose proof (HH b ltac:(set_solver)). pose proof (HH (b + 8 + N) ltac:(set_solver)).
  pose proof (HL b ltac:(set_solver)). rewrite Hw; [|set_solver|set_solver]. apply Hm1; tauto.
Qed.

Lemma init_memory_pool_spec pool size s :
  pool_ok pool size -> tlsf_signature (ts_ctl s) <> TLSF_SIGNATURE ->
  wp (init_memory_pool in_ram size pool) (fun r s' =>
    r = pool_block size /\
    tlsf_ok in_ram (pool_first pool) size [(pool_block size, true)] s') s.
Proof.
  intros Hp Hsig. destruct (pool_bounds pool size Hp) as (HN & HNmax & Hend). pose proof HN as [HN8 HNm].
  pose proof Hp as [[Hp0 Hpa] Hs _ Htop Hram]. simpl in HN8, HNm.
  set (N := pool_block size) in *. set (b := pool_first pool) in *. set (ib := pool + ROUNDUP_SIZE sizeof_tlsf) in *.
  assert (Hib : b = ib + 16) by (subst b ib; unfold pool_first; lia).
  assert (Hib0 : 0 < ib) by (subst ib; change (ROUNDUP_SIZE sizeof_tlsf) with 1744; lia).
  assert (HNok : size_ok N) by (split; [unfold MAX_BLOCK, MAX_FLI in HNmax; lia|done]).
  unfold init_memory_pool.
  destruct (Z.eqb_spec pool NULL) as [E|_]; [unfold NULL in E; lia|].
  destruct (Z.eqb_spec size 0); [change sizeof_tlsf with 1740 in *; change (BHDR_OVERHEAD * 8) with 64 in *; lia|].
  destruct (Z.ltb_spec size (sizeof_tlsf + BHDR_OVERHEAD * 8)); [lia|]. simpl orb. cbv iota.
  assert (Hal : Z.land pool PTR_MASK = 0).
  { unfold PTR_MASK. change 3 with (Z.ones 2). rewrite Z.land_ones by lia. done. }
  rewrite Hal. simpl negb. cbv iota. wp_step. wp_step.
  destruct (Z.eqb_spec (tlsf_signature (ts_ctl s)) TLSF_SIGNATURE); [done|].
  wp_step. wp_step. wp_step. wp_step. unfold GET_NEXT_BLOCK at 1.
  replace (u32 (pool + ROUNDUP_SIZE sizeof_tlsf)) with ib by (rewrite u32_id; [done|unfold in_u32; lia]).
  wp_step. apply process_area_spec; [done|]. fold ib N b.
  intros s1 Hc1 Hmp1 Hi1 Hb1 Hl1 _ _ _. wp_step. eapply wp_ld; [done|]. rewrite size_of_tag by (split; [lia|done]). cbv zeta.
  unfold GET_NEXT_BLOCK.
  replace (u32 (a_buffer ib + 8)) with b by (unfold a_buffer; rewrite u32_id; [lia|unfold in_u32; lia]).
  assert (Hfl1 : fl_ok in_ram [] s1) by (apply fl_ok_zero; by rewrite Hc1).
  assert (Hr : forall x, b <= x <= b + 8 + N + 4 -> in_ram x = true) by (intros x Hx; apply Hram; lia).
  wp_step. eapply wp_mono; [apply (first_release_spec b N); try done; lia|].
  intros _ s2 (Hfl2 & Hb2 & Hh2 & _).
  wp_step. wp_step. wp_step. eapply wp_ld; [exact Hb2|]. rewrite size_of_tag by done.
  wp_step. wp_step. apply wp_ret. split; [done|]. split; simpl.
  - apply chain_cons. split; [by split|]. split; [done|]. split; [done|]. exists (b + 8 + N), true, b. split; [done|exact Hh2].
  - apply (fl_ok_frame _ _ s2); [done|done|exact Hfl2].
  - lia.
  - lia.
  - lia.
  - intros x Hx. apply Hr. lia.
  - rewrite u32_id; [change BHDR_OVERHEAD with 8; lia|]. unfold in_u32. change BHDR_OVERHEAD with 8.
    unfold MAX_BLOCK, MAX_FLI in HNmax. lia.
  - done.
Qed.

End Init.

(** ** A pool of 2168 bytes *)

Definition demo_pool : Z := 0x1000.
Definition demo_size : Z := 2168.
Definition demo_ram (x : Z) : bool := (demo_pool <=? x) && (x + 4 <=? demo_pool + demo_size).
Definition demo_start : tstate := TState tlsf_zero ∅ 0.
(** After the initialisation, and after all of the pool was allocated. *)
Definition demo_heap : tstate := Eval vm_compute in
  match init_memory_pool demo_ram demo_size demo_pool demo_start with Ok _ s => s | _ => demo_start end.
Definition demo_full : tstate := Eval vm_compute in
  match malloc_ex demo_ram 392 demo_heap with Ok _ s => s | _ => demo_start end.

Lemma demo_pool_ok : pool_ok demo_ram demo_pool demo_size.
Proof.
  split; try (split; vm_compute; congruence || done); try (vm_compute; congruence || done).
  intros x Hx. change (ROUNDUP_SIZE sizeof_tlsf) with 1744 in Hx. unfold demo_ram, demo_pool, demo_size in *.
  apply andb_true_intro. lia.
Qed.

Abbreviation demo_ok := (tlsf_ok demo_ram (pool_first demo_pool) demo_size).

Lemma demo_heap_ok : demo_ok [(392, true)] demo_heap.
Proof.
  pose proof (init_memory_pool_spec demo_ram demo_pool demo_size demo_start demo_pool_ok ltac:(done)) as H.
  assert (E : init_memory_pool demo_ram demo_size demo_pool demo_start = Ok 392 demo_heap) by (vm_compute; reflexivity).
  by apply (wp_elim _ _ _ _ _ E) in H as [_ H].
Qed.

Lemma demo_full_ok : demo_ok [(392, false)] demo_full.
Proof.
  pose proof (malloc_ex_spec demo_ram (pool_first demo_pool) demo_size [(392, true)] 392 demo_heap demo_heap_ok
                ltac:(unfold MAX_REQUEST; lia)) as H.
  assert (E : malloc_ex demo_ram 392 demo_heap = Ok 5864 demo_full) by (vm_compute; reflexivity).
  apply (wp_elim _ _ _ _ _ E) in H. destruct H as [(H & _)|(l1 & sz & l2 & Hb & _ & _ & _ & Hok & _)]; [discriminate H|].
  destruct l1 as [|x [|y l1]]; [|discriminate Hb..]. injection Hb as <- <-.
  assert (Et : taken [] 392 [] (rounded 392) = [(392, false)]) by (vm_compute; reflexivity).
  rewrite Et in Hok. exact Hok.
Qed.

(** ** The theorems *)

(** C21: the allocation is a good fit: for every request up to 516096 bytes [malloc_ex] either
    returns NULL, changes nothing and no free block has the rounded size, or takes a block
    of the lowest size class in which every block is large enough, splits off the rest,
    keeps the heap consistent and touches no word of a block in use. *)
Theorem tlsf_malloc_good_fit in_ram first total bs size s :
  tlsf_ok in_ram first total bs s -> 0 <= size <= MAX_REQUEST ->
  wp (malloc_ex in_ram size) (fun p s' => allocated in_ram first total bs size p s s') s.
Proof. apply malloc_ex_spec. Qed.

Lemma tlsf_malloc_good_fit_witness :
  wp (malloc_ex demo_ram 100) (fun p s' => allocated demo_ram (pool_first demo_pool) demo_size [(392, true)] 100 p demo_heap s')
    demo_heap.
Proof.
  apply (tlsf_malloc_good_fit demo_ram (pool_first demo_pool) demo_size [(392, true)] 100 demo_heap demo_heap_ok).
  unfold MAX_REQUEST. lia.
Defined.

(** C22: the release coalesces: [free_ex] of a block in use joins it with the free blocks
    next to it on both sides, keeps the heap consistent and touches no word of a block that
    stays in use. *)
Theorem tlsf_free_coalesces in_ram first total l1 sz l2 s :
  tlsf_ok in_ram first total (l1 ++ (sz, false) :: l2) s ->
  wp (free_ex in_ram (first + span l1 + 8)) (fun _ s' =>
    tlsf_ok in_ram first total (released l1 sz l2) s' /\ user_kept first (released l1 sz l2) s s') s.
Proof. apply free_ex_spec. Qed.

Lemma tlsf_free_coalesces_witness :
  wp (free_ex demo_ram (pool_first demo_pool + 0 + 8)) (fun _ s' =>
    demo_ok [(392, true)] s' /\ user_kept (pool_first demo_pool) [(392, true)] demo_full s') demo_full.
Proof. exact (tlsf_free_coalesces demo_ram (pool_first demo_pool) demo_size [] 392 [] demo_full demo_full_ok). Defined.

(** A block that was just allocated can be released, which restores the row of blocks
    exactly. *)
Theorem tlsf_alloc_free_roundtrip in_ram first total bs size s :
  tlsf_ok in_ram first total bs s -> 0 <= size <= MAX_REQUEST ->
  wp (p <- malloc_ex in_ram size;; free_ex in_ram p) (fun _ s' => tlsf_ok in_ram first total bs s') s.
Proof.
  intros Hok Hs. wp_step. eapply wp_mono; [by apply malloc_ex_spec|]. intros p s1 Hal.
  destruct Hal as [(-> & -> & _)|(l1 & sz & l2 & -> & -> & Hle & _ & Hok1 & _)].
  - unfold free_ex. rewrite Z.eqb_refl. by apply wp_ret.
  - destruct (tlsf_block _ _ _ _ _ _ _ _ Hok) as (_ & _ & _ & _ & _ & _ & _ & _ & pf & pa & Hseg & _ & Hpf & Hc).
    assert (pf = false) as -> by (by destruct pf). pose proof (seg_last _ _ _ _ _ _ Hseg) as Hl1. simpl in Hl1.
    pose proof (chain_head _ _ _ _ _ Hc) as [_ Hl2]. simpl in Hl2.
    assert (Hj : forall n, join_next n l2 = (n, l2)) by (intros n; destruct l2 as [|[z []] l2]; done).
    unfold taken in Hok1. destruct (sizeof_bhdr <=? sz - rounded size).
    + eapply wp_mono; [by apply (free_ex_spec in_ram first total l1 (rounded size))|]. intros _ s2 [Hok2 _].
      rewrite released_alone in Hok2 by done. simpl in Hok2.
      replace (rounded size + 8 + (sz - rounded size - BHDR_OVERHEAD)) with sz in Hok2 by (change BHDR_OVERHEAD with 8; lia). done.
    + eapply wp_mono; [by apply (free_ex_spec in_ram first total l1 sz)|]. intros _ s2 [Hok2 _].
      rewrite released_alone, Hj in Hok2 by done. done.
Qed.

Lemma tlsf_alloc_free_roundtrip_witness :
  wp (p <- malloc_ex demo_ram 100;; free_ex demo_ram p) (fun _ s' => demo_ok [(392, true)] s') demo_heap.
Proof.
  apply (tlsf_alloc_free_roundtrip demo_ram (pool_first demo_pool) demo_size [(392, true)] 100 demo_heap demo_heap_ok).
  unfold MAX_REQUEST. lia.
Defined.

(** C23: a reallocation keeps the data: for every block in use and every new size up to 516096
    bytes [tlsf_realloc] either returns NULL and changes nothing, or the heap is consistent,
    the block has at least the new size and holds the words of the old one up to the smaller
    size, in place or after a move, and all other blocks in use are where they were with the
    same contents. *)
Theorem tlsf_realloc_keeps_data in_ram first total l1 sz l2 size s :
  tlsf_ok in_ram first total (l1 ++ (sz, false) :: l2) s -> 0 < size <= MAX_REQUEST ->
  wp (tlsf_realloc in_ram (first + span l1 + 8) size) (fun p s' =>
    reallocated in_ram first total l1 sz l2 size p s s') s.
Proof. apply tlsf_realloc_spec. Qed.

Lemma tlsf_realloc_keeps_data_witness :
  wp (tlsf_realloc demo_ram (pool_first demo_pool + 0 + 8) 100) (fun p s' =>
    reallocated demo_ram (pool_first demo_pool) demo_size [] 392 [] 100 p demo_full s') demo_full.
Proof.
  apply (tlsf_realloc_keeps_data demo_ram (pool_first demo_pool) demo_size [] 392 [] 100 demo_full demo_full_ok).
  unfold MAX_REQUEST. lia.
Defined.

(** C5: clients whose requests have a class are safe: whatever sequence of allocations of at most
    516096 bytes, reallocations to a size from 1 to 516096 bytes, releases and writes of words
    inside the own blocks follows the initialisation of a pool, the words written to a block
    are found there (or where the block was moved to) as long as the block is in use, the
    blocks in use are disjoint and inside the pool, and the next allocation, reallocation or
    release within these bounds ends without a fault.  (Larger requests are the subject of
    [tlsf_wrapping_class] and of the theorem about huge requests: they are not refused.) *)
Theorem tlsf_client_safe in_ram pool size s0 n0 s1 s c :
  pool_ok in_ram pool size -> tlsf_signature (ts_ctl s0) <> TLSF_SIGNATURE ->
  init_memory_pool in_ram size pool s0 = Ok n0 s1 -> rtc (heap_step in_ram) (s1, no_blocks) (s, c) ->
  (forall x v, data c !! x = Some v -> ts_mem s !! x = Some v) /\
  (forall p n q m, live c !! p = Some n -> live c !! q = Some m -> p <> q -> p + n <= q \/ q + m <= p) /\
  (forall p n, live c !! p = Some n -> pool < p /\ p + n < pool + size) /\
  (forall n, 0 <= n <= MAX_REQUEST -> exists p s', malloc_ex in_ram n s = Ok p s') /\
  (forall p n, live c !! p = Some n -> exists s', free_ex in_ram p s = Ok tt s') /\
  (forall p n m, live c !! p = Some n -> 0 < m <= MAX_REQUEST -> exists q s', tlsf_realloc in_ram p m s = Ok q s').
Proof.
  intros Hp Hsig Hinit Hrtc.
  pose proof (init_memory_pool_spec in_ram pool size s0 Hp Hsig) as Hwp. 
  apply (wp_elim _ _ _ _ _ Hinit) in Hwp as [_ Hok]. destruct (refines_steps in_ram (pool_first pool) size (8 + pool_block size) _ _ Hrtc) as (bs & Hr).
  { exists [(pool_block size, true)]. split; [done|simpl; lia| |]; simpl; intros p n E; by rewrite lookup_empty in E. }
  simpl in Hr. pose proof (rf_ok _ _ _ _ _ _ _ Hr) as Hok'. split_and!.
  - intros x v Hx. by apply (rf_data _ _ _ _ _ _ _ Hr).
  - intros p n q m H1 H2 Hne. destruct (refines_disjoint _ _ _ _ _ _ _ p n q m Hr H1 H2 Hne); lia.
  - intros p n Hl. destruct (rf_live _ _ _ _ _ _ _ Hr p n Hl) as (sz & (l1 & l2 & -> & Hp')%useds_split & Hn).
    destruct (tlsf_block _ _ _ _ _ _ _ _ Hok') as (H1 & H2 & [H8 _] & _). simpl in H8.
    pose proof (pool_bounds in_ram pool size Hp) as (_ & _ & Hend). unfold pool_first in *.
    change (ROUNDUP_SIZE sizeof_tlsf) with 1744 in *. split; [lia|].
    pose proof (rf_width _ _ _ _ _ _ _ Hr) as Hw. rewrite span_app in Hw. simpl in Hw. lia.
  - intros n Hn. pose proof (malloc_ex_spec _ _ _ _ n _ Hok' Hn) as Hwp. unfold wp in Hwp.
    destruct (malloc_ex in_ram n s) as [p s'| |] eqn:E; [by exists p, s'|done|done].
  - intros p n Hl. pose proof (refines_free _ _ _ _ _ _ _ p n Hr Hl) as Hwp. unfold wp in Hwp.
    destruct (free_ex in_ram p s) as [[] s'| |] eqn:E; [by exists s'|done|done].
  - intros p n m Hl Hm. pose proof (refines_realloc _ _ _ _ _ _ _ p n m Hr Hl Hm) as Hwp. unfold wp in Hwp.
    destruct (tlsf_realloc in_ram p m s) as [q s'| |] eqn:E; [by exists q, s'|done|done].
Qed.

Lemma tlsf_client_safe_witness : exists s' c, live c !! 5864 = Some 392 /\ data c !! 5868 = Some 7 /\
  ts_mem s' !! 5868 = Some 7.
Proof.
  set (c1 := give 5864 392 no_blocks). set (c2 := write_word 5868 7 c1).
  set (s2 := upd_tmem (insert 5868 7) demo_full). exists s2, c2. split; [reflexivity|]. split; [reflexivity|].
  assert (H1 : heap_step demo_ram (demo_heap, no_blocks) (demo_full, c1)).
  { apply (step_alloc demo_ram demo_heap demo_full no_blocks 392 5864); [unfold MAX_REQUEST; lia|vm_compute; reflexivity]. }
  assert (H2 : heap_step demo_ram (demo_full, c1) (s2, c2)).
  { apply (step_write demo_ram demo_full c1 5864 392 5868 7); [reflexivity|].
    unfold word_in. split; [lia|]. split; [lia|]. reflexivity. }
  apply (tlsf_client_safe demo_ram demo_pool demo_size demo_start 392 demo_heap s2 c2 demo_pool_ok).
  - discriminate.
  - vm_compute. reflexivity.
  - apply (rtc_l _ _ _ _ H1). apply (rtc_l _ _ _ _ H2). apply rtc_refl.
  - reflexivity.
Defined.

(** The class that is searched first: it is in the tables, a block has a class from it on
    exactly when it is large enough for the rounded request, and the rounding adds at most
    one part in 32 to the request in whole units. *)
Theorem tlsf_search_class size : 0 <= size <= MAX_REQUEST ->
  let '(r, fl, sl) := MAPPING_SEARCH (adjust_size size) in
  in_table (fl, sl) /\ size <= r <= adjust_size size + adjust_size size / 32 /\
  (forall sz, 0 <= sz < MAX_BLOCK -> in_table (MAPPING_INSERT sz) /\ (cls_le (fl, sl) (MAPPING_INSERT sz) <-> r <= sz)).
Proof.
  intros Hs. destruct (rounded_spec size Hs) as ([fl sl] & -> & Hk & Hr & _ & Hw & Hfit). simpl in *.
  split; [done|]. split; [lia|]. intros sz Hsz. split; [by apply MAPPING_INSERT_spec|by apply Hfit].
Qed.

Lemma tlsf_search_class_witness :
  let '(r, fl, sl) := MAPPING_SEARCH (adjust_size 1000) in
  in_table (fl, sl) /\ 1000 <= r <= adjust_size 1000 + adjust_size 1000 / 32 /\
  (forall sz, 0 <= sz < MAX_BLOCK -> in_table (MAPPING_INSERT sz) /\ (cls_le (fl, sl) (MAPPING_INSERT sz) <-> r <= sz)).
Proof. apply (tlsf_search_class 1000). unfold MAX_REQUEST. lia. Defined.

(** C32: a request above 516096 bytes is not refused: up to 0xfc000000 bytes its class lies
    outside the tables and the search reads the bitmap array behind its end, in every state of
    the heap.  (Above that the rounding to a class wraps, see [tlsf_wrapping_class].) *)
Theorem tlsf_huge_request_faults in_ram size s :
  MAX_REQUEST < size <= 0xfc000000 -> malloc_ex in_ram size s = Fault.
Proof.
  unfold MAX_REQUEST. intros Hs. unfold malloc_ex.
  assert (Ha : 516104 <= adjust_size size <= 0xfc000000).
  { unfold adjust_size, MIN_BLOCK_SIZE. destruct (Z.ltb_spec size 8); [lia|].
    unfold ROUNDUP_SIZE. rewrite u32_id, ROUNDDOWN_SIZE_eq by (unfold in_u32, MEM_ALIGN; lia). unfold MEM_ALIGN.
    pose proof (Z.div_mod (size + 7) 8). pose proof (Z.mod_pos_bound (size + 7) 8).
    assert ((size + 7) / 8 <= (0xfc000000 + 7) / 8) by (apply Z.div_le_mono; lia).
    change ((0xfc000000 + 7) / 8) with 528482304 in *. lia. }
  set (r := adjust_size size) in *. unfold MAPPING_SEARCH, SMALL_BLOCK, MAX_LOG2_SLI, FLI_OFFSET.
  destruct (Z.ltb_spec r 128); [lia|]. rewrite (ms_bit_log2 r) by lia.
  assert (HL : 18 <= Z.log2 r < 32).
  { split; [apply (Z.log2_le_mono (2 ^ 18)); lia|]. apply Z.log2_lt_pow2; lia. }
  rewrite Z.shiftl_1_l. set (t := 2 ^ (Z.log2 r - 5) - 1).
  assert (Ht : 0 <= t < 2 ^ 26 /\ 2 ^ 19 <= r + t).
  { assert (2 ^ 13 <= 2 ^ (Z.log2 r - 5) <= 2 ^ 26) by (split; apply Z.pow_le_mono_r; lia). subst t. lia. }
  rewrite u32_id by (unfold in_u32; lia). rewrite ms_bit_log2 by lia.
  assert (19 <= Z.log2 (r + t)) by (apply (Z.log2_le_mono (2 ^ 19)); lia).
  unfold FIND_SUITABLE_BLOCK, sl_get, bind, REAL_FLI, MAX_FLI, FLI_OFFSET.
  destruct (Z.leb_spec 0 (Z.log2 (r + t) - 6)), (Z.ltb_spec (Z.log2 (r + t) - 6) (19 - 6)); done || lia.
Qed.

Lemma tlsf_huge_request_faults_witness : malloc_ex demo_ram 600000 demo_heap = Fault.
Proof. apply (tlsf_huge_request_faults demo_ram 600000 demo_heap). unfold MAX_REQUEST. lia. Defined.

(** The statistics of a heap without a free block: the free bytes are counted down below
    zero and reported as 4294967288. *)
Theorem tlsf_full_heap_stats in_ram first total bs s :
  tlsf_ok in_ram first total bs s -> (forall sz, (sz, true) ∉ bs) ->
  exists used, isix_heap_stats s = Ok (used, 4294967288, 1) s.
Proof.
  intros Hok Hnone. assert (Hb : free_bytes bs = 0).
  { clear Hok. induction bs as [|[sz []] bs IH]; simpl; [done| |].
    - destruct (Hnone sz). set_solver.
    - apply IH. intros sz' Hin. apply (Hnone sz'). set_solver. }
  exists (used_size (ts_ctl s)). unfold isix_heap_stats, get_used_size, get_free_size, bind, gets, ret.
  rewrite (tk_free _ _ _ _ _ Hok), Hb. done.
Qed.

Lemma tlsf_full_heap_stats_witness : exists used, isix_heap_stats demo_full = Ok (used, 4294967288, 1) demo_full.
Proof.
  apply (tlsf_full_heap_stats demo_ram (pool_first demo_pool) demo_size [(392, false)] demo_full demo_full_ok).
  intros sz Hin. apply list_elem_of_singleton in Hin. discriminate Hin.
Defined.

(** A request in the last seven bytes of the size range wraps to zero bytes and is
    answered with a block of size zero, whose header the rest of the split block overlays. *)
Theorem tlsf_wrapping_request :
  match (p <- malloc_ex demo_ram (2 ^ 32 - 1);; n <- get_block_size p;; ret (p, n)) demo_heap with
  | Ok r _ => r = (5864, 0)
  | _ => False
  end.
Proof. vm_compute. reflexivity. Qed.

(** Above 0xfc000000 bytes the rounding to a class wraps: this request of almost four gigabytes
    is answered with a block of size zero, as a request in the last seven bytes of the range is. *)
Theorem tlsf_wrapping_class :
  match (p <- malloc_ex demo_ram 0xfc000088;; n <- get_block_size p;; ret (p, n)) demo_heap with
  | Ok r _ => r = (5864, 0)
  | _ => False
  end.
Proof. vm_compute. reflexivity. Qed.

(** A pool whose size is four more than a multiple of eight is initialised past its end:
    the size word of the sentinel is written behind the pool. *)
Theorem tlsf_init_overruns_pool :
  init_memory_pool (fun x => (demo_pool <=? x) && (x + 4 <=? demo_pool + 2164)) 2164 demo_pool demo_start = Fault.
Proof. vm_compute. reflexivity. Qed.
