(* ===== verification/Printf.v ===== *)
(** * Formatted output (libfoundation/src/sys/tiny_printf.c)

    Characters are numbers, a C string is the list of its characters before the
    terminating zero.  The output goes to a buffer of limited length or to the registered
    character handler; variable arguments are a list of words, double words and strings,
    and taking an argument of another kind is a fault. *)

From S2P Require Import Prelude.
From Stdlib Require Import ZArith Lia.
From stdpp Require Import base numbers gmap list.
Local Open Scope Z_scope.

Definition CH_LF : Z := 10.
Definition CH_CR : Z := 13.
Definition CH_SPACE : Z := 32.
Definition CH_PERCENT : Z := 37.
Definition CH_MINUS : Z := 45.
Definition CH_0 : Z := 48.
Definition CH_9 : Z := 57.
Definition CH_A : Z := 65.
Definition CH_X : Z := 88.
Definition CH_a : Z := 97.
Definition CH_c : Z := 99.
Definition CH_d : Z := 100.
Definition CH_h : Z := 104.
Definition CH_i : Z := 105.
Definition CH_l : Z := 108.
Definition CH_p : Z := 112.
Definition CH_s : Z := 115.
Definition CH_u : Z := 117.
Definition CH_x : Z := 120.
Definition CH_z : Z := 122.

(** ["(null)"] *)
Definition str_null : list Z := [40; 110; 117; 108; 108; 41].

(** Signed readings of a byte and of a half word, and of a double word. *)
Definition i8 (x : Z) : Z := (x + 2 ^ 7) mod 2 ^ 8 - 2 ^ 7.
Definition i16 (x : Z) : Z := (x + 2 ^ 15) mod 2 ^ 16 - 2 ^ 15.
Definition i64 (x : Z) : Z := (x + 2 ^ 63) mod 2 ^ 64 - 2 ^ 63.

(** One variable argument: an [int], [long], [size_t] or pointer is a word. *)
Inductive varg : Type :=
| VWord (w : Z)
| VDouble (w : Z)
| VStr (s : option (list Z)).

(** The buffer written through [*str], the offset of [*str], the characters handed to
    [fn_putc], [*pc] and the arguments that are left. *)
Record pstate := PState {
  ps_buf : gmap Z Z;
  ps_ptr : Z;
  ps_stream : list Z;
  ps_pc : Z;
  ps_args : list varg
}.

(** Length modifiers *)
Inductive modifier : Type := m_hh | m_h | m_n | m_l | m_ll.

Definition PAD_RIGHT : Z := 1.
Definition PAD_ZERO : Z := 2.
Definition PRINT_BUF_LEN : Z := 32.

Local Abbreviation PM := (M pstate).

Section Printf.

(** Where characters go: [str] is not NULL and the buffer has [len] bytes, or the
    handler when one is registered. *)
Context (to_buf : bool) (len : Z) (fn_putc : bool).

Definition store_char (c : Z) (s : pstate) : pstate :=
  PState (<[ps_ptr s := u8 c]> (ps_buf s)) (ps_ptr s + 1) (ps_stream s) (ps_pc s) (ps_args s).
Definition send_char (c : Z) (s : pstate) : pstate :=
  PState (ps_buf s) (ps_ptr s) (ps_stream s ++ [c]) (ps_pc s) (ps_args s).
Definition count_char (s : pstate) : pstate :=
  PState (ps_buf s) (ps_ptr s) (ps_stream s) (u32 (ps_pc s + 1)) (ps_args s).
Definition set_args (a : list varg) (s : pstate) : pstate :=
  PState (ps_buf s) (ps_ptr s) (ps_stream s) (ps_pc s) a.

Definition printchar (c : Z) : PM unit :=
  (if to_buf then
     pc <- gets ps_pc;;
     when (u32 (pc + 1) <? len) (modify (store_char c))
   else when fn_putc (modify (send_char c)));;;
  modify count_char.

Fixpoint print_all (l : list Z) : PM unit :=
  match l with
  | [] => ret tt
  | c :: l => printchar c;;; print_all l
  end.

(** [for( ; width > 0; --width ) printchar( padchar )] *)
Fixpoint print_pad (n : nat) (c : Z) : PM unit :=
  match n with
  | O => ret tt
  | S n => printchar c;;; print_pad n c
  end.

Definition prints (string : list Z) (width pad : Z) : PM Z :=
  pc_start <- gets ps_pc;;
  let slen := Z.of_nat (length string) in
  let rest := if 0 <? width then (if width <=? slen then 0 else width - slen) else width in
  let padchar := if (0 <? width) && negb (Z.land pad PAD_ZERO =? 0) then CH_0 else CH_SPACE in
  let left := Z.land pad PAD_RIGHT =? 0 in
  when left (print_pad (Z.to_nat rest) padchar);;;
  print_all string;;;
  when (negb left) (print_pad (Z.to_nat rest) padchar);;;
  pc <- gets ps_pc;;
  ret (i32 (pc - pc_start)).

(** The digits of [u], written backwards from the end of [print_buf]; [s] is the offset
    of the first character. *)
Fixpoint digits_loop (fuel : nat) (u base letbase s : Z) (acc : list Z) : PM (Z * list Z) :=
  if u =? 0 then ret (s, acc) else
  match fuel with
  | O => fault
  | S fuel =>
      let t := u mod base in
      let t := if 10 <=? t then t + (letbase - CH_0 - 10) else t in
      if s <=? 0 then fault else
      digits_loop fuel (u / base) base letbase (s - 1) (u8 (t + CH_0) :: acc)
  end.

Definition printi (i base : Z) (sign : bool) (width pad letbase : Z) : PM Z :=
  if i =? 0 then prints [CH_0] width pad else
  let neg := sign && (base =? 10) && (i <? 0) in
  let u := if neg then u64 (- i) else u64 i in
  r <- digits_loop 64 u base letbase (PRINT_BUF_LEN - 1) [];;
  let '(s, buf) := r in
  if neg then
    if negb (width =? 0) && negb (Z.land pad PAD_ZERO =? 0) then
      printchar CH_MINUS;;; prints buf (width - 1) pad
    else if s <=? 0 then fault else prints (CH_MINUS :: buf) width pad
  else prints buf width pad.

(** ** Format strings *)

Definition va_word : PM Z :=
  a <- gets ps_args;;
  match a with VWord w :: a => modify (set_args a);;; ret (u32 w) | _ => fault end.
Definition va_double : PM Z :=
  a <- gets ps_args;;
  match a with VDouble w :: a => modify (set_args a);;; ret (u64 w) | _ => fault end.
Definition va_str : PM (option (list Z)) :=
  a <- gets ps_args;;
  match a with VStr s :: a => modify (set_args a);;; ret s | _ => fault end.

Fixpoint skip_zeros (fmt : list Z) (pad : Z) : Z * list Z :=
  match fmt with
  | c :: fmt' => if c =? CH_0 then skip_zeros fmt' (Z.lor pad PAD_ZERO) else (pad, fmt)
  | [] => (pad, [])
  end.

Definition is_digit (c : Z) : bool := (CH_0 <=? c) && (c <=? CH_9).

Fixpoint read_width (fmt : list Z) (width : Z) : Z * list Z :=
  match fmt with
  | c :: fmt' => if is_digit c then read_width fmt' (i32 (width * 10 + (c - CH_0))) else (width, fmt)
  | [] => (width, [])
  end.

Definition read_modifier (fmt : list Z) : modifier * list Z :=
  match fmt with
  | c :: fmt' =>
      if c =? CH_h then
        match fmt' with d :: fmt'' => if d =? CH_h then (m_hh, fmt'') else (m_h, fmt') | [] => (m_h, []) end
      else if c =? CH_l then
        match fmt' with d :: fmt'' => if d =? CH_l then (m_ll, fmt'') else (m_l, fmt') | [] => (m_l, []) end
      else if c =? CH_z then (m_l, fmt')
      else (m_n, fmt)
  | [] => (m_n, [])
  end.

(** The value of [%d] and [%i], and of [%u], [%x] and [%X]. *)
Definition arg_signed (m : modifier) : PM Z :=
  match m with
  | m_hh => w <- va_word;; ret (i8 w)
  | m_h => w <- va_word;; ret (i16 w)
  | m_ll => w <- va_double;; ret (i64 w)
  | _ => w <- va_word;; ret (i32 w)
  end.

Definition arg_unsigned (m : modifier) : PM Z :=
  match m with
  | m_hh => w <- va_word;; ret (u8 w)
  | m_h => w <- va_word;; ret (u16 w)
  | m_ll => va_double
  | _ => va_word
  end.

(** One conversion; a format that ends inside it ([spec] is absent) makes the caller
    return at once. *)
Definition convert (spec : Z) (m : modifier) (width pad : Z) : PM unit :=
  if spec =? CH_s then
    s <- va_str;;
    prints (match s with Some s => s | None => str_null end) width pad;;; ret tt
  else if (spec =? CH_d) || (spec =? CH_i) then
    v <- arg_signed m;;
    printi v 10 true width pad CH_a;;; ret tt
  else if (spec =? CH_u) || (spec =? CH_x) || (spec =? CH_X) then
    v <- arg_unsigned m;;
    let base := if spec =? CH_u then 10 else 16 in
    let letbase := if spec =? CH_x then CH_a else CH_A in
    printi (i64 v) base false width pad letbase;;; ret tt
  else if spec =? CH_p then
    v <- va_word;;
    printi v 16 false 8 PAD_ZERO CH_A;;; ret tt
  else if spec =? CH_c then
    v <- va_word;;
    prints (if u8 v =? 0 then [] else [u8 v]) width pad;;; ret tt
  else
    printchar CH_PERCENT;;; printchar spec.

(** The loop over the format; [true] when the format ended inside a conversion. *)
Fixpoint vaprintf_loop (fuel : nat) (fmt : list Z) : PM bool :=
  match fmt with
  | [] => ret false
  | c :: fmt =>
      match fuel with
      | O => fault
      | S fuel =>
          if negb (c =? CH_PERCENT) then printchar c;;; vaprintf_loop fuel fmt else
          match fmt with
          | [] => ret true
          | c :: fmt' =>
              if c =? CH_PERCENT then printchar c;;; vaprintf_loop fuel fmt' else
              let '(pad, fmt) := if c =? CH_MINUS then (PAD_RIGHT, fmt') else (0, fmt) in
              let '(pad, fmt) := skip_zeros fmt pad in
              let '(width, fmt) := read_width fmt 0 in
              let '(m, fmt) := read_modifier fmt in
              match fmt with
              | [] => ret true
              | spec :: fmt => convert spec m width pad;;; vaprintf_loop fuel fmt
              end
          end
      end
  end.

Definition tiny_vaprintf (fmt : list Z) : PM Z :=
  early <- vaprintf_loop (length fmt) fmt;;
  when (negb early && to_buf && (0 <? len))
    (modify (fun s => PState (<[ps_ptr s := 0]> (ps_buf s)) (ps_ptr s) (ps_stream s) (ps_pc s) (ps_args s)));;;
  pc <- gets ps_pc;;
  ret (i32 pc).

(** [tiny_putchar] and [tiny_puts] *)
Definition tiny_putchar (ch : Z) : PM unit := when fn_putc (modify (send_char ch)).

Fixpoint put_all (l : list Z) : PM unit :=
  match l with [] => ret tt | c :: l => tiny_putchar c;;; put_all l end.

Definition tiny_puts (str : list Z) : PM Z :=
  put_all str;;;
  tiny_putchar CH_CR;;;
  tiny_putchar CH_LF;;;
  ret (Z.of_nat (length str) + 2).

End Printf.

(** [tiny_printf] without its lock, and [tiny_snprintf] into the buffer [b] *)
Definition tiny_printf (fn_putc : bool) (fmt : list Z) (args : list varg) : outcome pstate Z :=
  tiny_vaprintf false 0 fn_putc fmt (PState ∅ 0 [] 0 args).
Definition tiny_snprintf (fn_putc : bool) (b : gmap Z Z) (max_len : Z) (fmt : list Z) (args : list varg) : outcome pstate Z :=
  tiny_vaprintf true max_len fn_putc fmt (PState b 0 [] 0 args).
