(* ===== verification/PrintfProofs.v ===== *)
(** * Correctness of the formatted output

    Printing into a buffer stores the beginning of what printing to the handler sends and
    stays inside the buffer; printing ends normally for every format whose conversions fit
    the arguments; the digits of a number read back as the number. *)

From S2P Require Import Prelude.
From S2P Require Import Printf.
From Stdlib Require Import ZArith Lia.
From stdpp Require Import base numbers gmap list sorting.
Local Open Scope Z_scope.

(** ** Digits *)

Definition digit_value (letbase c : Z) : Z := if c <=? CH_9 then c - CH_0 else c - letbase + 10.

(** A string of digits, the most significant first. *)
Definition number (base letbase : Z) (d : list Z) : Z :=
  foldl (fun a c => a * base + digit_value letbase c) 0 d.

Lemma number_snoc base letbase d c : number base letbase (d ++ [c]) = number base letbase d * base + digit_value letbase c.
Proof. unfold number. by rewrite foldl_app. Qed.

Definition letters (letbase : Z) : Prop := letbase = CH_a \/ letbase = CH_A.

(** The digit that is stored for [t]. *)
Lemma digit_value_of t letbase : 0 <= t < 16 -> letters letbase ->
  digit_value letbase (u8 ((if 10 <=? t then t + (letbase - CH_0 - 10) else t) + CH_0)) = t.
Proof.
  intros Ht Hl. unfold digit_value, u8, CH_0, CH_9.
  assert (Hlb : letbase = 97 \/ letbase = 65) by done.
  destruct (Z.leb_spec 10 t); rewrite Z.mod_small by lia.
  - destruct (Z.leb_spec (t + (letbase - 48 - 10) + 48) 57); lia.
  - destruct (Z.leb_spec (t + 48) 57); lia.
Qed.

Lemma digits_loop_spec n fuel u base letbase s acc :
  10 <= base <= 16 -> letters letbase -> 0 <= u < 10 ^ Z.of_nat n -> (n <= fuel)%nat -> Z.of_nat n <= s ->
  exists d, (forall st, digits_loop fuel u base letbase s acc st = Ok (s - Z.of_nat (length d), d ++ acc) st) /\
    (length d <= n)%nat /\ number base letbase d = u /\ (u <> 0 -> d <> []) /\ Forall (fun c => CH_0 <= c) d.
Proof.
  intros Hb Hl. revert fuel u s acc. induction n as [|n IH]; intros fuel u s acc Hu Hf Hs.
  - assert (u = 0) as -> by (simpl in Hu; lia). exists []. rewrite Z.sub_0_r.
    split; [by destruct fuel|]. split; [done|]. split; [done|]. split; [done|constructor].
  - destruct (Z.eqb_spec u 0) as [->|Hne].
    { exists []. rewrite Z.sub_0_r. split; [by destruct fuel|]. split; [simpl; lia|]. split; [done|]. split; [done|constructor]. }
    destruct fuel as [|fuel]; [lia|]. simpl. destruct (Z.eqb_spec u 0); [done|]. destruct (Z.leb_spec s 0); [lia|].
    set (c := u8 _). assert (Hdiv : 0 <= u / base < 10 ^ Z.of_nat n).
    { split; [apply Z.div_pos; lia|]. apply Z.div_lt_upper_bound; [lia|].
      rewrite Nat2Z.inj_succ, Z.pow_succ_r in Hu by lia. nia. }
    destruct (IH fuel (u / base) (s - 1) (c :: acc) Hdiv ltac:(lia) ltac:(lia)) as (d & E & Hlen & Hv & _ & Hc).
    exists (d ++ [c]). rewrite length_app. simpl. split_and!.
    + intros st. rewrite E. f_equal. f_equal; [lia|]. by rewrite <- app_assoc.
    + lia.
    + rewrite number_snoc, Hv. unfold c. pose proof (Z.mod_pos_bound u base ltac:(lia)).
      rewrite digit_value_of by (done || lia). pose proof (Z.div_mod u base ltac:(lia)). lia.
    + intros _ E'. by apply app_eq_nil in E' as [_ ?].
    + apply Forall_app. split; [done|]. constructor; [|constructor]. subst c. unfold u8, CH_0.
      pose proof (Z.mod_pos_bound u base ltac:(lia)). assert (letbase = 97 \/ letbase = 65) by done.
      destruct (Z.leb_spec 10 (u mod base)); rewrite Z.mod_small by lia; lia.
Qed.

(** ** What is printed

    A computation that prints the characters [o] and returns [a], whatever the sink: it
    is described on the character stream. *)

Section Sink.
Context (to_buf : bool) (len : Z) (fn_putc : bool).

(** [c] printed to a state. *)
Definition put (c : Z) (s : pstate) : pstate :=
  count_char (if to_buf then (if u32 (ps_pc s + 1) <? len then store_char c s else s)
              else if fn_putc then send_char c s else s).

Definition puts (o : list Z) (s : pstate) : pstate := foldl (fun s c => put c s) s o.

Lemma printchar_eq c s : printchar to_buf len fn_putc c s = Ok tt (put c s).
Proof.
  unfold printchar, put, bind, gets, modify, when. destruct to_buf; [by destruct (_ <? _)|by destruct fn_putc].
Qed.

Lemma print_all_eq l s : print_all to_buf len fn_putc l s = Ok tt (puts l s).
Proof. revert s. induction l as [|c l IH]; intros s; simpl; [done|]. unfold bind. by rewrite printchar_eq, IH. Qed.

Lemma print_pad_eq n c s : print_pad to_buf len fn_putc n c s = Ok tt (puts (replicate n c) s).
Proof. revert s. induction n as [|n IH]; intros s; simpl; [done|]. unfold bind. by rewrite printchar_eq, IH. Qed.

Lemma puts_app o1 o2 s : puts (o1 ++ o2) s = puts o2 (puts o1 s).
Proof. apply foldl_app. Qed.

Lemma puts_args o s : ps_args (puts o s) = ps_args s.
Proof.
  revert s. induction o as [|c o IH]; intros s; simpl; [done|]. rewrite IH. unfold put.
  destruct to_buf; [by destruct (_ <? _)|by destruct fn_putc].
Qed.

End Sink.

(** The characters of [prints]. *)
Definition padded (string : list Z) (width pad : Z) : list Z :=
  let rest := if 0 <? width then (if width <=? Z.of_nat (length string) then 0 else width - Z.of_nat (length string)) else width in
  let padchar := if (0 <? width) && negb (Z.land pad PAD_ZERO =? 0) then CH_0 else CH_SPACE in
  if Z.land pad PAD_RIGHT =? 0 then replicate (Z.to_nat rest) padchar ++ string
  else string ++ replicate (Z.to_nat rest) padchar.

Section Sink2.
Context (to_buf : bool) (len : Z) (fn_putc : bool).
Abbreviation puts := (puts to_buf len fn_putc).

Lemma prints_eq string width pad s : exists r, prints to_buf len fn_putc string width pad s = Ok r (puts (padded string width pad) s).
Proof.
  unfold prints, padded, bind, gets, when, ret. destruct (Z.land pad PAD_RIGHT =? 0); simpl.
  - rewrite print_pad_eq, print_all_eq, puts_app. by eexists.
  - rewrite print_all_eq, print_pad_eq, puts_app. by eexists.
Qed.

Lemma puts_set_args o a s : puts o (set_args a s) = set_args a (puts o s).
Proof.
  revert s. induction o as [|c o IH]; intros s; simpl; [done|]. rewrite <- IH. f_equal. unfold put. simpl.
  destruct to_buf; [by destruct (_ <? _)|by destruct fn_putc].
Qed.

End Sink2.

(** ** Numbers *)

(** The string of a number: a minus sign for negative ones, then digits that read back
    as the magnitude. *)
Definition number_string (i base : Z) (sign : bool) (letbase : Z) (neg : bool) (d : list Z) : Prop :=
  neg = sign && (base =? 10) && (i <? 0) /\ number base letbase d = (if neg then - i else u64 i) /\
  d <> [] /\ (length d <= 20)%nat /\ Forall (fun c => CH_0 <= c) d.

(** What [printi] prints for it. *)
Definition number_padded (neg : bool) (d : list Z) (width pad : Z) : list Z :=
  if neg then
    if negb (width =? 0) && negb (Z.land pad PAD_ZERO =? 0) then CH_MINUS :: padded d (width - 1) pad
    else padded (CH_MINUS :: d) width pad
  else padded d width pad.

Lemma printi_emits i base sign width pad letbase :
  - 2 ^ 63 <= i < 2 ^ 63 -> (base = 10 \/ base = 16) -> letters letbase ->
  exists neg d, number_string i base sign letbase neg d /\
    forall to_buf len fn_putc s, exists r,
      printi to_buf len fn_putc i base sign width pad letbase s =
      Ok r (puts to_buf len fn_putc (number_padded neg d width pad) s).
Proof.
  intros Hi Hb Hl. set (neg := sign && (base =? 10) && (i <? 0)).
  set (u := if neg then u64 (- i) else u64 i).
  assert (Hu : 0 <= u < 10 ^ Z.of_nat 20 /\ u = (if neg then - i else u64 i)).
  { pose proof (Z.mod_pos_bound i (2 ^ 64)). subst u. destruct neg eqn:En.
    - apply andb_prop in En as [_ En%Z.ltb_lt]. unfold u64. rewrite Z.mod_small by lia. simpl. lia.
    - unfold u64. simpl. lia. }
  destruct Hu as [Hu Hval]. destruct (Z.eqb_spec i 0) as [->|Hne].
  - exists false, [CH_0]. split.
    + unfold number_string. split; [by destruct sign, (base =? 10)|].
      split; [by destruct Hb as [->| ->]|]. split; [done|]. split; [simpl; lia|]. constructor; [done|constructor].
    + intros tb len fp s. unfold printi. simpl. apply prints_eq.
  - assert (Hu0 : u <> 0).
    { rewrite Hval. destruct neg; [lia|]. unfold u64. intros E. apply Z.mod_divide in E as [q Hq]; lia. }
    destruct (digits_loop_spec 20 64 u base letbase (PRINT_BUF_LEN - 1) []) as (d & E & Hlen & Hnum & Hd & Hc);
      [lia|done|done|lia|unfold PRINT_BUF_LEN; lia|].
    exists neg, d. split; [split_and!; [done|by rewrite Hnum|by apply Hd|done|done]|].
    intros tb len fp s. unfold printi. destruct (Z.eqb_spec i 0); [done|]. fold neg u. unfold bind at 1. rewrite E.
    rewrite app_nil_r. unfold number_padded. destruct neg; [|apply prints_eq].
    destruct (_ && _).
    + unfold bind. rewrite printchar_eq. apply prints_eq.
    + destruct (Z.leb_spec (PRINT_BUF_LEN - 1 - Z.of_nat (length d)) 0); [unfold PRINT_BUF_LEN in *; lia|]. apply prints_eq.
Qed.

(** ** Formats *)

Inductive kind : Type := KWord | KDouble | KStr.

#[global] Instance kind_eq_dec : EqDecision kind.
Proof. solve_decision. Defined.

Definition kind_of (a : varg) : kind := match a with VWord _ => KWord | VDouble _ => KDouble | VStr _ => KStr end.

(** A format is a sequence of characters and conversions. *)
Inductive item : Type :=
| Lit (c : Z)
| Conv (spec : Z) (m : modifier) (width pad : Z).

(** The argument a conversion takes. *)
Definition int_kind (m : modifier) : kind := match m with m_ll => KDouble | _ => KWord end.
Definition conv_kind (spec : Z) (m : modifier) : option kind :=
  if spec =? CH_s then Some KStr
  else if (spec =? CH_d) || (spec =? CH_i) || (spec =? CH_u) || (spec =? CH_x) || (spec =? CH_X) then Some (int_kind m)
  else if (spec =? CH_p) || (spec =? CH_c) then Some KWord
  else None.

(** The arguments fit the conversions. *)
Fixpoint fits (items : list item) (args : list varg) : bool :=
  match items with
  | [] => true
  | Lit _ :: items => fits items args
  | Conv spec m _ _ :: items =>
      match conv_kind spec m with
      | None => fits items args
      | Some k => match args with a :: args => bool_decide (kind_of a = k) && fits items args | [] => false end
      end
  end.

(** Reference reader of formats: the items, and whether the format ends inside a conversion. *)
Fixpoint parse (fuel : nat) (fmt : list Z) : option (list item * bool) :=
  match fmt with
  | [] => Some ([], false)
  | c :: fmt =>
      match fuel with
      | O => None
      | S fuel =>
          let next i fmt := r ← parse fuel fmt; Some (i :: r.1, r.2) in
          if negb (c =? CH_PERCENT) then next (Lit c) fmt else
          match fmt with
          | [] => Some ([], true)
          | c :: fmt' =>
              if c =? CH_PERCENT then next (Lit c) fmt' else
              let '(pad, fmt) := if c =? CH_MINUS then (PAD_RIGHT, fmt') else (0, fmt) in
              let '(pad, fmt) := skip_zeros fmt pad in
              let '(width, fmt) := read_width fmt 0 in
              let '(m, fmt) := read_modifier fmt in
              match fmt with
              | [] => Some ([], true)
              | spec :: fmt => next (Conv spec m width pad) fmt
              end
          end
      end
  end.

Lemma skip_zeros_length fmt pad : (length (skip_zeros fmt pad).2 <= length fmt)%nat.
Proof. revert pad. induction fmt as [|c fmt IH]; intros pad; simpl; [done|]. destruct (c =? CH_0); [|done]. specialize (IH (Z.lor pad PAD_ZERO)). lia. Qed.

Lemma read_width_length fmt w : (length (read_width fmt w).2 <= length fmt)%nat.
Proof. revert w. induction fmt as [|c fmt IH]; intros w; simpl; [done|]. destruct (is_digit c); [|done]. specialize (IH (i32 (w * 10 + (c - CH_0)))). lia. Qed.

Lemma read_modifier_length fmt : (length (read_modifier fmt).2 <= length fmt)%nat.
Proof.
  destruct fmt as [|c [|d fmt]]; simpl; [done| |]; repeat case_match; simpl; lia.
Qed.

(** Every step of the reader consumes a character: the length of the format is enough fuel. *)
Lemma parse_total fuel fmt : (length fmt <= fuel)%nat -> exists r, parse fuel fmt = Some r.
Proof.
  revert fmt. induction fuel as [|fuel IH]; intros [|c fmt] Hf; simpl in *; [by eexists|lia|by eexists|].
  assert (Hnext : forall i fmt', (length fmt' <= fuel)%nat ->
    exists r, (r ← parse fuel fmt'; Some (i :: r.1, r.2)) = Some r).
  { intros i fmt' Hl. destruct (IH fmt' Hl) as [r ->]. by eexists. }
  destruct (negb (c =? CH_PERCENT)); [apply Hnext; lia|]. destruct fmt as [|d fmt']; [by eexists|].
  destruct (d =? CH_PERCENT); [apply Hnext; simpl in *; lia|].
  destruct (if d =? CH_MINUS then _ else _) as [pad f1] eqn:E1.
  assert (H1 : (length f1 <= fuel)%nat) by (destruct (d =? CH_MINUS); injection E1 as _ <-; simpl in *; lia).
  pose proof (skip_zeros_length f1 pad) as H2. destruct (skip_zeros f1 pad) as [pad2 f2]. simpl in H2.
  pose proof (read_width_length f2 0) as H3. destruct (read_width f2 0) as [w f3]. simpl in H3.
  pose proof (read_modifier_length f3) as H4. destruct (read_modifier f3) as [m f4]. simpl in H4.
  destruct f4 as [|spec f4]; [by eexists|]. apply Hnext. simpl in *. lia.
Qed.

(** ** Running a format *)

Section Run.
Context (to_buf : bool) (len : Z) (fn_putc : bool).

Fixpoint run_items (items : list item) : M pstate unit :=
  match items with
  | [] => ret tt
  | Lit c :: items => printchar to_buf len fn_putc c;;; run_items items
  | Conv spec m width pad :: items => convert to_buf len fn_putc spec m width pad;;; run_items items
  end.

(** The loop over the format runs the items that the reader finds. *)
Lemma vaprintf_loop_parse fuel fmt items early s : parse fuel fmt = Some (items, early) ->
  vaprintf_loop to_buf len fn_putc fuel fmt s = (run_items items;;; ret early) s.
Proof.
  revert fmt items s. induction fuel as [|fuel IH]; intros [|c fmt] items s; simpl; try (intros [= <- <-]; done).
  assert (Hnext : forall i (m : M pstate unit) fmt', (r ← parse fuel fmt'; Some (i :: r.1, r.2)) = Some (items, early) ->
    (forall its, run_items (i :: its) = (m;;; run_items its)) ->
    (m;;; vaprintf_loop to_buf len fn_putc fuel fmt') s = (run_items items;;; ret early) s).
  { intros i m fmt' Hp Hi. destruct (parse fuel fmt') as [[its e]|] eqn:E; simpl in Hp; [|done].
    injection Hp as <- <-. rewrite Hi. unfold bind. destruct (m s) as [[] s'| |]; [|done..]. by rewrite (IH _ _ _ E). }
  destruct (negb (c =? CH_PERCENT)); [intros H; by eapply Hnext|].
  destruct fmt as [|d fmt']; [by intros [= <- <-]|].
  destruct (d =? CH_PERCENT); [intros H; by eapply Hnext|].
  destruct (if d =? CH_MINUS then _ else _) as [pad f1]. destruct (skip_zeros f1 pad) as [pad2 f2].
  destruct (read_width f2 0) as [w f3]. destruct (read_modifier f3) as [m f4].
  destruct f4 as [|spec f4]; [by intros [= <- <-]|intros H; by eapply Hnext].
Qed.
End Run.

(** ** Every conversion prints a string that does not depend on the sink *)

(** [m] prints [o] and leaves the arguments [args']. *)
Definition emits (m : forall (to_buf : bool) (len : Z) (fn_putc : bool), M pstate unit) (args : list varg) (o : list Z) (args' : list varg) : Prop :=
  forall to_buf len fn_putc s, ps_args s = args ->
    m to_buf len fn_putc s = Ok tt (set_args args' (puts to_buf len fn_putc o s)).

Lemma set_args_same s : set_args (ps_args s) s = s.
Proof. by destruct s. Qed.

Lemma set_args_puts tb len fp o s : set_args (ps_args s) (puts tb len fp o s) = puts tb len fp o s.
Proof. rewrite <- (puts_args tb len fp o s). apply set_args_same. Qed.

(** A value is fetched and printed. *)
Lemma emits_fetch {A} (fetch : M pstate A) (k : A -> forall (tb : bool) (len : Z) (fp : bool), M pstate Z) a rest v o :
  (forall s, ps_args s = a :: rest -> fetch s = Ok v (set_args rest s)) ->
  (forall tb len fp s, exists r, k v tb len fp s = Ok r (puts tb len fp o s)) ->
  emits (fun tb len fp => x <- fetch;; k x tb len fp;;; ret tt) (a :: rest) o rest.
Proof.
  intros Hf Hk tb len fp s Hs. unfold bind, ret. rewrite (Hf s Hs). destruct (Hk tb len fp (set_args rest s)) as [r ->].
  by rewrite puts_set_args.
Qed.

Lemma va_word_eq w rest s : ps_args s = VWord w :: rest -> va_word s = Ok (u32 w) (set_args rest s).
Proof. intros H. unfold va_word, bind, gets. by rewrite H. Qed.

Lemma va_double_eq w rest s : ps_args s = VDouble w :: rest -> va_double s = Ok (u64 w) (set_args rest s).
Proof. intros H. unfold va_double, bind, gets. by rewrite H. Qed.

Lemma va_str_eq w rest s : ps_args s = VStr w :: rest -> va_str s = Ok w (set_args rest s).
Proof. intros H. unfold va_str, bind, gets. by rewrite H. Qed.

(** Integer arguments of every length. *)
Lemma arg_signed_eq m a rest : kind_of a = int_kind m -> exists v, - 2 ^ 63 <= v < 2 ^ 63 /\
  forall s, ps_args s = a :: rest -> arg_signed m s = Ok v (set_args rest s).
Proof.
  pose proof (fun x => Z.mod_pos_bound (x + 2 ^ 7) (2 ^ 8) ltac:(lia)) as B8.
  pose proof (fun x => Z.mod_pos_bound (x + 2 ^ 15) (2 ^ 16) ltac:(lia)) as B16.
  pose proof (fun x => Z.mod_pos_bound (x + 2 ^ 31) (2 ^ 32) ltac:(lia)) as B32.
  pose proof (fun x => Z.mod_pos_bound (x + 2 ^ 63) (2 ^ 64) ltac:(lia)) as B64.
  destruct a as [w|w|w], m; try done; intros _; simpl.
  - exists (i8 (u32 w)). split; [specialize (B8 (u32 w)); unfold i8; lia|]. intros s Hs. unfold bind. by rewrite (va_word_eq w rest).
  - exists (i16 (u32 w)). split; [specialize (B16 (u32 w)); unfold i16; lia|]. intros s Hs. unfold bind. by rewrite (va_word_eq w rest).
  - exists (i32 (u32 w)). split; [specialize (B32 (u32 w)); unfold i32; lia|]. intros s Hs. unfold bind. by rewrite (va_word_eq w rest).
  - exists (i32 (u32 w)). split; [specialize (B32 (u32 w)); unfold i32; lia|]. intros s Hs. unfold bind. by rewrite (va_word_eq w rest).
  - exists (i64 (u64 w)). split; [specialize (B64 (u64 w)); unfold i64; lia|]. intros s Hs. unfold bind. by rewrite (va_double_eq w rest).
Qed.

Lemma arg_unsigned_eq m a rest : kind_of a = int_kind m -> exists v,
  forall s, ps_args s = a :: rest -> arg_unsigned m s = Ok v (set_args rest s).
Proof.
  destruct a as [w|w|w], m; try done; intros _; simpl; eexists; intros s Hs; unfold bind;
    first [rewrite (va_word_eq w rest) by done | rewrite (va_double_eq w rest) by done]; reflexivity.
Qed.

Lemma i64_range x : - 2 ^ 63 <= i64 x < 2 ^ 63.
Proof. pose proof (Z.mod_pos_bound (x + 2 ^ 63) (2 ^ 64)). unfold i64. lia. Qed.

(** The arguments after a conversion. *)
Definition after (spec : Z) (m : modifier) (args : list varg) : list varg :=
  match conv_kind spec m with None => args | Some _ => tail args end.

Lemma convert_emits spec m width pad args :
  match conv_kind spec m with
  | None => True
  | Some k => match args with a :: _ => kind_of a = k | [] => False end
  end -> exists o, emits (fun tb len fp => convert tb len fp spec m width pad) args o (after spec m args).
Proof.
  unfold after, conv_kind, convert. destruct (spec =? CH_s).
  { destruct args as [|[w|w|w] rest]; try done. intros _.
    exists (padded (match w with Some x => x | None => str_null end) width pad).
    eapply emits_fetch; [intros s; apply va_str_eq|]. intros. apply prints_eq. }
  destruct ((spec =? CH_d) || (spec =? CH_i)) eqn:Ed; simpl.
  { destruct args as [|a rest]; [done|]. intros Hk. destruct (arg_signed_eq m a rest Hk) as (v & Hv & Hf).
    destruct (printi_emits v 10 true width pad CH_a Hv ltac:(by left) ltac:(by left)) as (neg & d & _ & Hp).
    exists (number_padded neg d width pad). eapply emits_fetch; [done|]. done. }
  destruct ((spec =? CH_u) || (spec =? CH_x) || (spec =? CH_X)) eqn:Eu; simpl.
  { destruct args as [|a rest]; [done|]. intros Hk. destruct (arg_unsigned_eq m a rest Hk) as (v & Hf).
    destruct (printi_emits (i64 v) (if spec =? CH_u then 10 else 16) false width pad (if spec =? CH_x then CH_a else CH_A)
                (i64_range v)) as (neg & d & _ & Hp); [destruct (spec =? CH_u); tauto|destruct (spec =? CH_x); [by left|by right]|].
    exists (number_padded neg d width pad).
    apply (emits_fetch (arg_unsigned m) (fun v tb len fp => printi tb len fp (i64 v) (if spec =? CH_u then 10 else 16)
       false width pad (if spec =? CH_x then CH_a else CH_A)) a rest v); done. }
  destruct (spec =? CH_p); simpl.
  { destruct args as [|[w|w|w] rest]; try done. intros _.
    destruct (printi_emits (u32 w) 16 false 8 PAD_ZERO CH_A) as (neg & d & _ & Hp);
      [pose proof (u32_range w); lia|by right|by right|].
    exists (number_padded neg d 8 PAD_ZERO).
    apply (emits_fetch va_word (fun v tb len fp => printi tb len fp v 16 false 8 PAD_ZERO CH_A) (VWord w) rest (u32 w)); [|done].
    intros s. apply va_word_eq. }
  destruct (spec =? CH_c); simpl.
  { destruct args as [|[w|w|w] rest]; try done. intros _.
    exists (padded (if u8 (u32 w) =? 0 then [] else [u8 (u32 w)]) width pad).
    eapply emits_fetch; [intros s; apply va_word_eq|]. intros. apply prints_eq. }
  intros _. exists [CH_PERCENT; spec]. intros tb len fp s <-. rewrite set_args_puts. unfold bind. by rewrite !printchar_eq.
Qed.

Lemma run_items_emits items args : fits items args = true ->
  exists o args', emits (fun tb len fp => run_items tb len fp items) args o args'.
Proof.
  revert args. induction items as [|[c|spec m width pad] items IH]; intros args Hf; simpl in *.
  - exists [], args. intros tb len fp s <-. simpl. by rewrite set_args_same.
  - destruct (IH args Hf) as (o & args' & Ho). exists (c :: o), args'. intros tb len fp s Hs.
    unfold bind. rewrite printchar_eq. apply Ho. change (put tb len fp c s) with (puts tb len fp [c] s).
    by rewrite puts_args.
  - assert (Hc : exists o1, emits (fun tb len fp => convert tb len fp spec m width pad) args o1 (after spec m args)).
    { apply convert_emits. destruct (conv_kind spec m); [|done]. destruct args; [done|].
      by apply andb_prop in Hf as [?%bool_decide_eq_true _]. }
    assert (Hr : fits items (after spec m args) = true).
    { unfold after. destruct (conv_kind spec m); [|done]. destruct args; [done|]. by apply andb_prop in Hf as [_ ?]. }
    destruct Hc as (o1 & Hc). destruct (IH _ Hr) as (o2 & args' & Ho). exists (o1 ++ o2), args'.
    intros tb len fp s Hs. unfold bind. rewrite (Hc tb len fp s Hs). rewrite (Ho tb len fp); [|done].
    rewrite puts_set_args, puts_app. by destruct (puts tb len fp o2 _).
Qed.

(** ** The sinks *)


Lemma put_pc tb len fp c s : ps_pc (put tb len fp c s) = u32 (ps_pc s + 1).
Proof. unfold put. simpl. destruct tb; [by destruct (_ <? _)|by destruct fp]. Qed.

Lemma puts_pc tb len fp o s : 0 <= ps_pc s -> ps_pc s + Z.of_nat (length o) < 2 ^ 32 ->
  ps_pc (puts tb len fp o s) = ps_pc s + Z.of_nat (length o).
Proof.
  revert s. induction o as [|c o IH]; intros s H0 Hl; simpl in *; [lia|].
  assert (Hp : ps_pc (put tb len fp c s) = ps_pc s + 1) by (rewrite put_pc; apply u32_id; unfold in_u32; lia).
  rewrite IH; rewrite Hp; lia.
Qed.

Lemma puts_stream len o s : ps_stream (puts false len true o s) = ps_stream s ++ o.
Proof.
  revert s. induction o as [|c o IH]; intros s; simpl; [by rewrite app_nil_r|]. rewrite IH. simpl. by rewrite <- app_assoc.
Qed.

(** The buffer after [o] was printed to it from its start: characters are stored while
    there is room for one more and the terminator. *)
Lemma puts_buffer len fp o s k :
  0 <= len < 2 ^ 32 -> ps_ptr s = Z.min (ps_pc s) (Z.max (len - 1) 0) ->
  0 <= ps_pc s -> ps_pc s + Z.of_nat (length o) < 2 ^ 32 ->
  let s' := puts true len fp o s in
  ps_ptr s' = Z.min (ps_pc s + Z.of_nat (length o)) (Z.max (len - 1) 0) /\
  ps_buf s' !! k = if decide (ps_pc s <= k < Z.min (ps_pc s + Z.of_nat (length o)) (len - 1))
                   then u8 <$> o !! Z.to_nat (k - ps_pc s) else ps_buf s !! k.
Proof.
  intros Hlen. revert s. induction o as [|c o IH]; intros s Hptr H0 Hl; simpl.
  - split; [lia|]. rewrite decide_False by lia. done.
  - simpl in Hl. set (s1 := put true len fp c s).
    assert (Hpc : ps_pc s1 = ps_pc s + 1) by (subst s1; rewrite put_pc; apply u32_id; unfold in_u32; lia).
    assert (Hs1 : ps_ptr s1 = Z.min (ps_pc s + 1) (Z.max (len - 1) 0) /\
      ps_buf s1 = if ps_pc s + 1 <? len then <[ps_pc s := u8 c]> (ps_buf s) else ps_buf s).
    { subst s1. unfold put. rewrite u32_id by (unfold in_u32; lia).
      destruct (Z.ltb_spec (ps_pc s + 1) len); simpl; [|lia || (split; [lia|done])].
      split; [lia|]. rewrite Hptr. f_equal. lia. }
    destruct Hs1 as [Hp1 Hb1].
    destruct (IH s1) as [IHp IHb]; [rewrite Hp1, Hpc; done|rewrite Hpc; lia|rewrite Hpc; lia|].
    rewrite Hpc in IHp, IHb. split; [rewrite IHp; lia|]. rewrite IHb, Hb1.
    destruct (decide (k = ps_pc s)) as [->|Hne].
    + rewrite decide_False by lia. rewrite Z.sub_diag. simpl.
      destruct (Z.ltb_spec (ps_pc s + 1) len); [rewrite decide_True, lookup_insert_eq by lia|rewrite decide_False by lia]; done.
    + assert (Hk : (if ps_pc s + 1 <? len then <[ps_pc s := u8 c]> (ps_buf s) else ps_buf s) !! k = ps_buf s !! k)
        by (destruct (_ <? _); [by rewrite lookup_insert_ne|done]).
      rewrite Hk. destruct (decide (ps_pc s + 1 <= k < Z.min (ps_pc s + 1 + Z.of_nat (length o)) (len - 1))).
      * rewrite decide_True by lia. replace (Z.to_nat (k - ps_pc s)) with (S (Z.to_nat (k - (ps_pc s + 1)))) by lia. done.
      * rewrite decide_False by lia. done.
Qed.

(** ** The theorems *)

(** Format and arguments agree. *)
Definition well_formed (fmt : list Z) (args : list varg) : bool :=
  match parse (length fmt) fmt with Some (items, _) => fits items args | None => false end.

(** The format does not end inside a conversion. *)
Definition complete (fmt : list Z) : bool :=
  match parse (length fmt) fmt with Some (_, early) => negb early | None => false end.

(** What a well formed call prints, for every sink. *)
Lemma vaprintf_emits fmt args : well_formed fmt args = true ->
  exists o args', forall tb len fp s, ps_args s = args ->
    tiny_vaprintf tb len fp fmt s =
    (let s' := set_args args' (puts tb len fp o s) in
     Ok (i32 (ps_pc s')) (if complete fmt && tb && (0 <? len)
                          then PState (<[ps_ptr s' := 0]> (ps_buf s')) (ps_ptr s') (ps_stream s') (ps_pc s') args' else s')).
Proof.
  unfold well_formed, complete. destruct (parse (length fmt) fmt) as [[items early]|] eqn:E; [|done].
  intros Hf. destruct (run_items_emits items args Hf) as (o & args' & Ho). exists o, args'. intros tb len fp s Hs.
  unfold tiny_vaprintf. unfold bind at 1. rewrite (vaprintf_loop_parse _ _ _ _ _ _ _ s E). unfold bind at 1.
  rewrite (Ho tb len fp s Hs). unfold ret, bind, when, modify, gets. cbv zeta.
  by destruct (negb early && tb && (0 <? len)).
Qed.

(** C35: printing ends: for every format and every list of arguments that has an argument of
    the right kind for each conversion, [tiny_vaprintf] returns normally on every sink and
    from every state, so neither the loop over the format nor the digit buffer runs over. *)
Theorem printf_terminates tb len fp fmt args s :
  well_formed fmt args = true -> ps_args s = args -> exists r s', tiny_vaprintf tb len fp fmt s = Ok r s'.
Proof. intros Hw Hs. destruct (vaprintf_emits fmt args Hw) as (o & args' & Ho). rewrite Ho by done. by do 2 eexists. Qed.

(** [tiny_snprintf] is [tiny_printf] cut off at the end of the buffer: it returns the same
    number, stores the first [max_len - 1] characters that [tiny_printf] sends, ends them
    with a zero when the format is complete, and writes nothing outside the buffer. *)
Theorem snprintf_truncates_printf fmt args b max_len r t :
  well_formed fmt args = true -> tiny_printf true fmt args = Ok r t ->
  0 <= max_len < 2 ^ 32 -> Z.of_nat (length (ps_stream t)) < 2 ^ 32 ->
  let o := ps_stream t in
  let n := Z.min (Z.of_nat (length o)) (max_len - 1) in
  exists s, tiny_snprintf true b max_len fmt args = Ok r s /\
    (forall k, 0 <= k < n -> ps_buf s !! k = u8 <$> o !! Z.to_nat k) /\
    (complete fmt = true -> 0 < max_len -> ps_buf s !! n = Some 0) /\
    (forall k, k < 0 \/ max_len <= k -> ps_buf s !! k = b !! k).
Proof.
  intros Hw Hp Hlen. destruct (vaprintf_emits fmt args Hw) as (o & args' & Ho).
  unfold tiny_printf in Hp. rewrite Ho in Hp by done. rewrite andb_false_r in Hp. simpl in Hp.
  assert (Hst : ps_stream (set_args args' (puts false 0 true o (PState ∅ 0 [] 0 args))) = o) by (simpl; by rewrite puts_stream).
  injection Hp as <- <-. rewrite Hst. intros Hol. simpl. set (n := Z.min _ _).
  unfold tiny_snprintf. rewrite Ho by done. cbv zeta.
  set (s1 := puts true max_len true o (PState b 0 [] 0 args)).
  pose proof (fun k => puts_buffer max_len true o (PState b 0 [] 0 args) k Hlen ltac:(simpl; lia) ltac:(simpl; lia) Hol) as Hb.
  simpl in Hb. fold s1 in Hb. assert (Hptr : ps_ptr s1 = Z.min (Z.of_nat (length o)) (Z.max (max_len - 1) 0)) by apply (Hb 0).
  assert (Hbuf : forall k, ps_buf s1 !! k = if decide (0 <= k < n) then u8 <$> o !! Z.to_nat k else b !! k).
  { intros k. destruct (Hb k) as [_ ->]. by rewrite Z.sub_0_r. }
  assert (Hpc : ps_pc s1 = ps_pc (puts false 0 true o (PState ∅ 0 [] 0 args))) by (subst s1; rewrite !puts_pc by (simpl; lia); done).
  eexists. split; [simpl; rewrite <- Hpc; reflexivity|].
  destruct (complete fmt && true && (0 <? max_len)) eqn:Ec; simpl.
  - apply andb_prop in Ec as [_ Hpos%Z.ltb_lt]. split_and!.
    + intros k Hk. rewrite lookup_insert_ne by lia. rewrite Hbuf, decide_True by lia. done.
    + intros _ _. replace n with (ps_ptr s1) by lia. by rewrite lookup_insert_eq.
    + intros k Hk. rewrite lookup_insert_ne by lia. rewrite Hbuf, decide_False by lia. done.
  - split_and!.
    + intros k Hk. rewrite Hbuf, decide_True by lia. done.
    + intros Hc Hpos. rewrite Hc in Ec. simpl in Ec. apply Z.ltb_ge in Ec. lia.
    + intros k Hk. rewrite Hbuf, decide_False by lia. done.
Qed.

Lemma printf_terminates_witness : exists r s',
  tiny_vaprintf true 16 false [65; 61; 37; 48; 53; 100] (PState ∅ 0 [] 0 [VWord 42]) = Ok r s'.
Proof. apply (printf_terminates true 16 false [65; 61; 37; 48; 53; 100] [VWord 42]); reflexivity. Defined.

Definition demo_printed : outcome pstate Z := Eval vm_compute in tiny_printf true [37; 120] [VWord 48879].

Lemma snprintf_truncates_printf_witness : exists s,
  tiny_snprintf true ∅ 4 [37; 120] [VWord 48879] = Ok 4 s /\ ps_buf s !! 3 = Some 0 /\ ps_buf s !! 4 = None.
Proof.
  assert (E : tiny_printf true [37; 120] [VWord 48879] =
    Ok 4 (match demo_printed with Ok _ t => t | _ => PState ∅ 0 [] 0 [] end)) by (vm_compute; reflexivity).
  destruct (snprintf_truncates_printf [37; 120] [VWord 48879] ∅ 4 4 _ eq_refl E ltac:(lia) ltac:(vm_compute; reflexivity))
    as (s & Hs & _ & Ht & Ho).
  exists s. split; [exact Hs|]. split; [apply Ht; [reflexivity|lia]|]. rewrite Ho; [reflexivity|lia].
Defined.

(** A decimal number with an optional minus sign. *)
Definition read_decimal (l : list Z) : Z :=
  match l with
  | c :: d => if c =? CH_MINUS then - number 10 CH_a d else number 10 CH_a l
  | [] => 0
  end.

Lemma padded_0 l : padded l 0 0 = l.
Proof. done. Qed.

Lemma printi_decimal i : - 2 ^ 63 <= i < 2 ^ 63 -> exists o, read_decimal o = i /\
  forall s, exists r, printi false 0 true i 10 true 0 0 CH_a s = Ok r (puts false 0 true o s).
Proof.
  intros Hi. destruct (printi_emits i 10 true 0 0 CH_a Hi ltac:(by left) ltac:(by left)) as (neg & d & Hd & Hp).
  exists (number_padded neg d 0 0). split; [|done]. destruct Hd as (Hneg & Hnum & Hne & _ & Hc).
  unfold number_padded. rewrite !padded_0. simpl. destruct neg; simpl.
  - lia.
  - destruct d as [|c d]; [done|]. apply Forall_cons in Hc as [Hc _]. unfold read_decimal, CH_0 in *.
    destruct (Z.eqb_spec c CH_MINUS); [unfold CH_MINUS in *; lia|]. rewrite Hnum. simpl in Hneg.
    symmetry in Hneg. apply Z.ltb_ge in Hneg. unfold u64. apply Z.mod_small. lia.
Qed.

(** A format that is one signed conversion. *)
Lemma printf_one_signed m fmt a v : parse (length fmt) fmt = Some ([Conv CH_d m 0 0], false) -> - 2 ^ 63 <= v < 2 ^ 63 ->
  (forall s, ps_args s = [a] -> arg_signed m s = Ok v (set_args [] s)) ->
  exists r t, tiny_printf true fmt [a] = Ok r t /\ read_decimal (ps_stream t) = v.
Proof.
  intros Hparse Hv Harg. destruct (printi_decimal v Hv) as (o & Ho & Hp).
  set (s0 := PState ∅ 0 [] 0 [a]). destruct (Hp (set_args [] s0)) as [r Hr].
  unfold tiny_printf, tiny_vaprintf, bind at 1. rewrite (vaprintf_loop_parse _ _ _ _ _ _ _ _ Hparse).
  simpl run_items. change (convert false 0 true CH_d m 0 0)
    with (v <- arg_signed m;; printi false 0 true v 10 true 0 0 CH_a;;; ret tt).
  change (PState ∅ 0 [] 0 [a]) with s0. unfold bind. rewrite (Harg s0 eq_refl), Hr. unfold ret, when. simpl. eexists _, _. split; [reflexivity|].
  rewrite puts_stream. exact Ho.
Qed.

(** C36: numbers survive printing: what [tiny_printf] sends for ["%d"] and for ["%lld"] reads
    back as the argument, for all values of 32 and 64 bits. *)
Theorem printf_decimal_roundtrip w :
  (exists r t, tiny_printf true [CH_PERCENT; CH_d] [VWord w] = Ok r t /\ read_decimal (ps_stream t) = i32 w) /\
  (exists r t, tiny_printf true [CH_PERCENT; CH_l; CH_l; CH_d] [VDouble w] = Ok r t /\ read_decimal (ps_stream t) = i64 w).
Proof.
  split.
  - apply (printf_one_signed m_n); [done|pose proof (i32_range w) as H; unfold in_i32 in H; lia|].
    intros s Hs. unfold arg_signed, bind. by rewrite (va_word_eq w []), i32_u32.
  - apply (printf_one_signed m_ll); [done|apply i64_range|].
    intros s Hs. unfold arg_signed, bind. rewrite (va_double_eq w []) by done. unfold ret, i64, u64. by rewrite Zplus_mod_idemp_l.
Qed.

(** A format that ends inside a conversion leaves the buffer without a terminator. *)
Theorem snprintf_open_format_unterminated :
  match tiny_snprintf true (<[1 := 88]> ∅) 8 [CH_A; CH_PERCENT] [] with
  | Ok r s => r = 1 /\ ps_buf s !! 0 = Some CH_A /\ ps_buf s !! 1 = Some 88
  | _ => False
  end.
Proof. vm_compute. done. Qed.
