(* ===== verification/Utils.v ===== *)
(** * Conversions between numbers and strings (libfoundation/src/algo/utils.c)

    A C string is the list of its characters before the zero; the strings that are built in
    place are in a buffer by index, and an access before the buffer is a fault. *)

From S2P Require Import Prelude.
From Stdlib Require Import ZArith Lia.
From stdpp Require Import base numbers gmap list sorting.
Local Open Scope Z_scope.

(** ['0'], ['9'], ['A'], ['Z'], ['a'], ['f'], ['F'] and ['.'] *)
Definition C_0 : Z := 48.
Definition C_9 : Z := 57.
Definition C_A : Z := 65.
Definition C_F : Z := 70.
Definition C_Z : Z := 90.
Definition C_a : Z := 97.
Definition C_f : Z := 102.
Definition C_dot : Z := 46.

(** The loop of [fnd_atoui] from the end of the string. *)
Fixpoint atoui_loop (rs : list Z) (w acc : Z) : Z :=
  match rs with
  | [] => acc
  | c :: rs =>
      if (c <? C_0) || (C_9 <? c) then acc
      else atoui_loop rs (u32 (w * 10)) (u32 (acc + (c - C_0) * w))
  end.

Definition fnd_atoui (str : option (list Z)) : Z :=
  match str with
  | None | Some [] => 0
  | Some str => atoui_loop (rev str) 1 0
  end.

(** ** Strings in a buffer *)

Local Abbreviation buffer := (gmap Z Z).
Local Abbreviation BM := (M buffer).

Definition ch_get (i : Z) : BM Z := b <- gets (fun b => b);; if i <? 0 then fault else of_option (b !! i).
Definition ch_set (i c : Z) : BM unit := if i <? 0 then fault else modify (insert i (u8 c)).

(** The loop of [strrev]: characters are exchanged with three exclusive ors. *)
Fixpoint strrev_loop (fuel : nat) (p1 p2 : Z) : BM unit :=
  if p2 <=? p1 then ret tt else
  match fuel with
  | O => fault
  | S fuel =>
      a <- ch_get p1;; b <- ch_get p2;; ch_set p1 (Z.lxor a b);;;
      b <- ch_get p2;; a <- ch_get p1;; ch_set p2 (Z.lxor b a);;;
      a <- ch_get p1;; b <- ch_get p2;; ch_set p1 (Z.lxor a b);;;
      strrev_loop fuel (p1 + 1) (p2 - 1)
  end.

Definition strrev (len : Z) : BM unit :=
  c <- ch_get 0;;
  if c =? 0 then ret tt else strrev_loop (Z.to_nat len) 0 (len - 1).

Definition base_to_digit (digit : Z) : Z :=
  if (0 <=? digit) && (digit <=? 9) then digit + C_0
  else if digit - 10 <=? C_Z - C_A then digit - 10 + C_A
  else C_dot.

(** The digits of [val], the lowest first: base zero is a division by zero, and base one never ends. *)
Fixpoint digits_le (fuel : nat) (val base digits : Z) : BM Z :=
  if val <=? 0 then ret digits else
  if base =? 0 then fault else
  match fuel with
  | O => fault
  | S fuel => ch_set digits (base_to_digit (i32 (val mod base)));;; digits_le fuel (val / base) base (digits + 1)
  end.

Fixpoint fill (n : nat) (c digits : Z) : BM Z :=
  match n with
  | O => ret digits
  | S n => ch_set digits c;;; fill n c (digits + 1)
  end.

(** [fnd_uitoa] and [fnd_ulltoa] differ in the width of [val]. *)
Definition itoa (bits : nat) (val fmt fmtch base : Z) : BM unit :=
  let z := val =? 0 in
  if 16 <? fmt then ret tt else
  digits <- digits_le bits val base 0;;
  digits <- fill (Z.to_nat (fmt - digits)) fmtch digits;;
  ch_set digits 0;;;
  strrev digits;;;
  if z then
    c <- ch_get (digits - 1);;
    when (negb (c =? C_0)) (ch_set (digits - 1) C_0)
  else ret tt.

Definition fnd_uitoa (val fmt fmtch base : Z) : BM unit := itoa 32 (u32 val) fmt fmtch (u32 base).
Definition fnd_ulltoa (val fmt fmtch base : Z) : BM unit := itoa 64 (u64 val) fmt fmtch (u64 base).

(** ** Hexadecimal strings *)

Definition hex2num (c : Z) : Z :=
  if (C_0 <=? c) && (c <=? C_9) then c - C_0
  else if (C_a <=? c) && (c <=? C_f) then c - C_a + 10
  else if (C_A <=? c) && (c <=? C_F) then c - C_A + 10
  else -1.

(** A string is read up to its terminating zero. *)
Definition hex2byte (hex : list Z) : Z :=
  let a := hex2num (hd 0 hex) in
  if a <? 0 then -1 else
  let b := hex2num (hd 0 (tl hex)) in
  if b <? 0 then -1 else Z.lor (Z.shiftl a 4) b.

(** The bytes that are stored and the result. *)
Fixpoint fnd_hexstr2bin (hex : list Z) (len : nat) : list Z * Z :=
  match len with
  | O => ([], 0)
  | S len =>
      let a := hex2byte hex in
      if a <? 0 then ([], -1)
      else let '(buf, r) := fnd_hexstr2bin (drop 2 hex) len in (u8 a :: buf, r)
  end.

(** ["0123456789abcdef"] *)
Definition hex_digit (n : Z) : Z := if n <? 10 then C_0 + n else C_a + (n - 10).

Fixpoint fnd_bin2hexstr (bin : list Z) : list Z :=
  match bin with
  | [] => []
  | b :: bin => hex_digit (Z.shiftr b 4) :: hex_digit (Z.land b 0xf) :: fnd_bin2hexstr bin
  end.

(** ** Hexadecimal round trip *)

Lemma hex2num_digit n : 0 <= n < 16 -> hex2num (hex_digit n) = n.
Proof.
  intros Hn. unfold hex2num, hex_digit, C_0, C_9, C_a, C_f, C_A, C_F.
  destruct (Z.ltb_spec n 10);
    repeat match goal with |- context [?a <=? ?b] => destruct (Z.leb_spec a b); simpl end; lia.
Qed.

Lemma nibbles b : 0 <= b < 256 -> 0 <= Z.shiftr b 4 < 16 /\ 0 <= Z.land b 15 < 16 /\ Z.lor (Z.shiftl (Z.shiftr b 4) 4) (Z.land b 15) = b.
Proof.
  intros Hb. change 15 with (Z.ones 4). rewrite Z.land_ones, Z.shiftr_div_pow2, Z.shiftl_mul_pow2 by lia. change (2 ^ 4) with 16.
  pose proof (Z.div_mod b 16). pose proof (Z.mod_pos_bound b 16).
  split; [split; [apply Z.div_pos|apply Z.div_lt_upper_bound]; lia|]. split; [lia|].
  rewrite <- Z.add_nocarry_lor; [lia|].
  apply Z.bits_inj'. intros n Hn. rewrite Z.land_spec, Z.bits_0. destruct (Z_lt_dec n 4).
  - replace (b / 16 * 16) with (Z.shiftl (b / 16) 4) by (rewrite Z.shiftl_mul_pow2 by lia; done).
    by rewrite Z.shiftl_spec_low by lia.
  - change 16 with (2 ^ 4) at 3. rewrite Z.mod_pow2_bits_high by lia. apply andb_false_r.
Qed.

(** A byte string survives the conversion to hexadecimal digits and back. *)
Theorem hexstr_roundtrip bin : Forall (fun b => 0 <= b < 256) bin ->
  fnd_hexstr2bin (fnd_bin2hexstr bin) (length bin) = (bin, 0).
Proof.
  induction 1 as [|b bin Hb _ IH]; simpl; [done|]. destruct (nibbles b Hb) as (Hh & Hl & He).
  unfold hex2byte. simpl hd. simpl tl. rewrite !hex2num_digit by done.
  destruct (Z.ltb_spec (Z.shiftr b 4) 0); [lia|]. destruct (Z.ltb_spec (Z.land b 15) 0); [lia|]. rewrite He.
  destruct (Z.ltb_spec b 0); [lia|]. simpl drop. rewrite drop_0, IH. unfold u8. by rewrite Z.mod_small by lia.
Qed.

Lemma hexstr_roundtrip_witness : fnd_hexstr2bin (fnd_bin2hexstr [222; 173; 0]) 3 = ([222; 173; 0], 0).
Proof. apply (hexstr_roundtrip [222; 173; 0]). repeat constructor; lia. Defined.

(** ** Strings in the buffer *)

Definition chars (l : list Z) : Prop := Forall (fun c => 0 <= c < 256) l.

(** The characters [l] from the start of the buffer on. *)
Definition str_at (b : buffer) (l : list Z) : Prop := forall k, (k < length l)%nat -> b !! Z.of_nat k = l !! k.

Lemma str_at_snoc b l c : 0 <= c < 256 -> str_at b l -> str_at (<[Z.of_nat (length l) := c]> b) (l ++ [c]).
Proof.
  intros Hc Hs k Hk. rewrite length_app in Hk. simpl in Hk. destruct (decide (k = length l)) as [->|Hne].
  - rewrite lookup_insert_eq. by rewrite list_lookup_middle.
  - rewrite lookup_insert_ne, lookup_app_l by lia. apply Hs. lia.
Qed.

Lemma wp_ch_set i c (Q : unit -> buffer -> Prop) b : 0 <= i -> 0 <= c < 256 -> Q tt (<[i := c]> b) -> wp (ch_set i c) Q b.
Proof.
  intros Hi Hc HQ. unfold ch_set. destruct (Z.ltb_spec i 0); [lia|]. unfold u8. by rewrite Z.mod_small by lia.
Qed.

Lemma wp_ch_get i c (Q : Z -> buffer -> Prop) b : 0 <= i -> b !! i = Some c -> Q c b -> wp (ch_get i) Q b.
Proof.
  intros Hi Hb HQ. unfold ch_get, wp, bind, gets. destruct (Z.ltb_spec i 0); [lia|]. by rewrite Hb.
Qed.

(** The value of decimal digits, the lowest first. *)
Fixpoint le_value (d : list Z) : Z := match d with [] => 0 | c :: d => (c - C_0) + 10 * le_value d end.

Definition decimal (c : Z) : Prop := C_0 <= c <= C_9.

Lemma digits_le_spec fuel val l b :
  0 <= val < 10 ^ Z.of_nat fuel -> str_at b l ->
  wp (digits_le fuel val 10 (Z.of_nat (length l))) (fun n b' => exists d,
    n = Z.of_nat (length (l ++ d)) /\ str_at b' (l ++ d) /\ le_value d = val /\ Forall decimal d /\ (val = 0 <-> d = [])) b.
Proof.
  revert val l b. induction fuel as [|fuel IH]; intros val l b Hv Hs; simpl.
  - assert (val = 0) as -> by (simpl in Hv; lia). apply wp_ret. exists []. rewrite app_nil_r. repeat split; try done.
  - destruct (Z.leb_spec val 0).
    { apply wp_ret. exists []. rewrite app_nil_r. repeat split; try done; simpl; lia. }
    pose proof (Z.mod_pos_bound val 10). pose proof (Z.div_mod val 10).
    change (10 =? 0) with false. cbv iota.
    assert (Hc : base_to_digit (i32 (val mod 10)) = val mod 10 + C_0).
    { rewrite i32_id by (split; lia). unfold base_to_digit. destruct (Z.leb_spec 0 (val mod 10)), (Z.leb_spec (val mod 10) 9); lia || done. }
    rewrite Hc. set (c := val mod 10 + C_0). assert (Hcr : 48 <= c <= 57) by (unfold c, C_0; lia).
    wp_step. apply wp_ch_set; [lia|lia|].
    replace (Z.of_nat (length l) + 1) with (Z.of_nat (length (l ++ [c]))) by (rewrite length_app; simpl; lia).
    rewrite Nat2Z.inj_succ, Z.pow_succ_r in Hv by lia.
    eapply wp_mono; [apply IH; [split; [apply Z.div_pos; lia|apply Z.div_lt_upper_bound; lia]|by apply str_at_snoc; [lia|]]|].
    intros n b' (d & -> & Hs' & Hd & Hdec & _). exists (c :: d). rewrite <- app_assoc in *. simpl in *.
    split; [done|]. split; [done|]. split; [rewrite Hd; unfold c; lia|]. split; [by constructor|]. split; [lia|done].
Qed.

Lemma fill_spec n c l b : 0 <= c < 256 -> str_at b l ->
  wp (fill n c (Z.of_nat (length l))) (fun m b' => m = Z.of_nat (length (l ++ replicate n c)) /\ str_at b' (l ++ replicate n c)) b.
Proof.
  intros Hc. revert l b. induction n as [|n IH]; intros l b Hs; simpl.
  - apply wp_ret. by rewrite app_nil_r.
  - wp_step. apply wp_ch_set; [lia|done|].
    replace (Z.of_nat (length l) + 1) with (Z.of_nat (length (l ++ [c]))) by (rewrite length_app; simpl; lia).
    eapply wp_mono; [by apply IH, str_at_snoc|]. intros m b'. by rewrite <- app_assoc.
Qed.

(** *** Reversal *)

Lemma rev_reverse (l : list Z) : rev l = reverse l.
Proof. apply rev_alt. Qed.

Lemma lxor_byte a b : 0 <= a < 256 -> 0 <= b < 256 -> 0 <= Z.lxor a b < 256.
Proof.
  intros Ha Hb. assert (He : Z.lxor a b = Z.lxor a b mod 2 ^ 8).
  { apply Z.bits_inj'. intros n Hn. destruct (Z_lt_dec n 8); [by rewrite Z.mod_pow2_bits_low|].
    rewrite Z.mod_pow2_bits_high, Z.lxor_spec by lia.
    rewrite <- (Z.mod_small a (2 ^ 8)), <- (Z.mod_small b (2 ^ 8)) by lia. by rewrite !Z.mod_pow2_bits_high by lia. }
  rewrite He. change 256 with (2 ^ 8). apply Z.mod_pos_bound. lia.
Qed.

Lemma lxor_swap_l a b : Z.lxor b (Z.lxor a b) = a.
Proof. by rewrite (Z.lxor_comm a), <- Z.lxor_assoc, Z.lxor_nilpotent, Z.lxor_0_l. Qed.

Lemma lxor_swap_r a b : Z.lxor (Z.lxor a b) a = b.
Proof. by rewrite (Z.lxor_comm _ a), <- Z.lxor_assoc, Z.lxor_nilpotent, Z.lxor_0_l. Qed.

(** The cells from [p1] to [p2] hold characters. *)
Definition chars_in (b : buffer) (p1 p2 : Z) : Prop := forall k, p1 <= k <= p2 -> exists c, b !! k = Some c /\ 0 <= c < 256.

Definition reversed (b b' : buffer) (p1 p2 : Z) : Prop :=
  forall k, b' !! k = if (p1 <=? k) && (k <=? p2) then b !! (p1 + p2 - k) else b !! k.

Lemma strrev_loop_spec fuel p1 p2 b : 0 <= p1 -> p2 - p1 <= Z.of_nat fuel -> chars_in b p1 p2 ->
  wp (strrev_loop fuel p1 p2) (fun _ b' => reversed b b' p1 p2) b.
Proof.
  revert p1 p2 b. induction fuel as [|fuel IH]; intros p1 p2 b Hp Hf Hb; simpl; destruct (Z.leb_spec p2 p1) as [Hle|Hlt].
  1,3: apply wp_ret; intros k; destruct (Z.leb_spec p1 k), (Z.leb_spec k p2); simpl; try done; f_equal; lia.
  - lia.
  - destruct (Hb p1 ltac:(lia)) as (x & Hx & Rx), (Hb p2 ltac:(lia)) as (y & Hy & Ry).
    pose proof (lxor_byte x y Rx Ry).
    do 2 (wp_step; eapply wp_ch_get; [lia|eassumption|]). wp_step; apply wp_ch_set; [lia|done|].
    wp_step; eapply wp_ch_get; [lia|rewrite lookup_insert_ne by lia; done|].
    wp_step; eapply wp_ch_get; [lia|apply lookup_insert_eq|]. rewrite lxor_swap_l.
    wp_step; apply wp_ch_set; [lia|done|].
    wp_step; eapply wp_ch_get; [lia|rewrite lookup_insert_ne by lia; apply lookup_insert_eq|].
    wp_step; eapply wp_ch_get; [lia|apply lookup_insert_eq|]. rewrite lxor_swap_r.
    wp_step; apply wp_ch_set; [lia|done|].
    eapply wp_mono; [apply IH; [lia|lia|]|].
    + intros k Hk. rewrite !lookup_insert_ne by lia. apply Hb. lia.
    + intros [] b' Hr k. rewrite Hr. 
      destruct (Z.leb_spec (p1 + 1) k), (Z.leb_spec k (p2 - 1)), (Z.leb_spec p1 k), (Z.leb_spec k p2); simpl; try lia;
        try (rewrite !lookup_insert_ne by lia; f_equal; lia).
      * assert (k = p2) as -> by lia. rewrite lookup_insert_ne, lookup_insert_eq by lia. rewrite <- Hx. f_equal. lia.
      * assert (k = p1) as -> by lia. rewrite lookup_insert_eq. rewrite <- Hy. f_equal. lia.
Qed.

Lemma str_at_app b l1 l2 : str_at b (l1 ++ l2) -> str_at b l1.
Proof. intros Hs k Hk. rewrite (Hs k) by (rewrite length_app; lia). by apply lookup_app_l. Qed.

(** A non-empty string that is followed by its zero is turned around in place. *)
Lemma strrev_spec l b : chars l -> head l <> Some 0 -> l <> [] -> str_at b (l ++ [0]) ->
  wp (strrev (Z.of_nat (length l))) (fun _ b' => str_at b' (rev l ++ [0])) b.
Proof.
  intros Hc Hh Hne Hs. unfold strrev. assert (Hl : (0 < length l)%nat) by (destruct l; [done|simpl; lia]).
  pose proof (str_at_app _ _ _ Hs) as Hs'.
  destruct l as [|c0 l'] eqn:El; [done|]. rewrite <- El in *.
  wp_step. eapply wp_ch_get; [lia|change 0 with (Z.of_nat 0); rewrite (Hs' 0%nat Hl), El; done|].
  destruct (Z.eqb_spec c0 0) as [->|Hc0]; [by rewrite El in Hh|].
  eapply wp_mono; [apply strrev_loop_spec; [lia|lia|]|].
  - intros k Hk. assert (Hk' : (Z.to_nat k < length l)%nat) by lia.
    destruct (lookup_lt_is_Some_2 l _ Hk') as [c Hlk]. exists c.
    replace k with (Z.of_nat (Z.to_nat k)) by lia. rewrite Hs' by done. split; [done|]. exact (Forall_lookup_1 _ _ _ _ Hc Hlk).
  - intros [] b' Hr k Hk. rewrite length_app, length_rev in Hk. simpl in Hk. rewrite Hr.
    destruct (Z.leb_spec 0 (Z.of_nat k)); [|lia]. simpl. destruct (Z.leb_spec (Z.of_nat k) (Z.of_nat (length l) - 1)).
    + rewrite lookup_app_l by (rewrite length_rev; lia). rewrite rev_reverse, reverse_lookup by lia.
      rewrite <- Hs' by lia. f_equal. lia.
    + rewrite lookup_app_r by (rewrite length_rev; lia). rewrite length_rev, Hs by (rewrite length_app; simpl; lia).
      rewrite lookup_app_r by lia. done.
Qed.

Arguments fnd_atoui : simpl never.

(** *** Reading the digits back *)

Lemma atoui_pads n c acc w : c = C_0 \/ ~ decimal c -> in_u32 acc -> atoui_loop (replicate n c) w acc = acc.
Proof.
  intros Hc Ha. revert w. induction n as [|n IH]; intros w; simpl; [done|].
  destruct Hc as [->|Hd].
  - unfold C_9, C_0 in *. cbn -[u32]. rewrite Z.add_0_r, (u32_id acc) by done. apply IH.
  - unfold decimal in Hd. destruct (Z.ltb_spec c C_0), (Z.ltb_spec C_9 c); simpl; try done; lia.
Qed.

Lemma atoui_digits d rest w acc : Forall decimal d -> in_u32 acc ->
  exists w', atoui_loop (d ++ rest) w acc = atoui_loop rest w' (u32 (acc + le_value d * w)).
Proof.
  revert w acc. induction d as [|c d IH]; intros w acc Hd Ha; simpl.
  - exists w. by rewrite Z.add_0_r, u32_id.
  - apply Forall_cons in Hd as [Hc Hd]. unfold decimal in Hc.
    destruct (Z.ltb_spec c C_0), (Z.ltb_spec C_9 c); try lia. simpl.
    destruct (IH (u32 (w * 10)) (u32 (acc + (c - C_0) * w)) Hd (u32_range _)) as [w' ->]. exists w'. f_equal.
    unfold u32. rewrite Zplus_mod_idemp_l, <- (Zplus_mod_idemp_r (le_value d * _)), Zmult_mod_idemp_r, Zplus_mod_idemp_r. f_equal. lia.
Qed.

Lemma fnd_atoui_rev l : l <> [] -> fnd_atoui (Some (rev l)) = atoui_loop l 1 0.
Proof.
  intros Hl. unfold fnd_atoui. destruct (rev l) as [|c r] eqn:E.
  - destruct l as [|x l]; [done|]. apply (f_equal (@length Z)) in E. by rewrite length_rev in E.
  - by rewrite <- E, rev_involutive.
Qed.

(** The buffer holds [s] as a C string. *)
Definition c_string (b : buffer) (s : list Z) : Prop := str_at b (s ++ [0]) /\ Forall (fun c => 0 < c < 256) s.

Lemma u32_pow10 : 2 ^ 32 < 10 ^ 32.
Proof. reflexivity. Qed.

(** What is left of [itoa] when the digits and the padding are in the buffer. *)
Lemma itoa_tail_spec (z : bool) l b : Forall (fun c => 0 < c < 256) l -> l <> [] -> str_at b l ->
  wp (ch_set (Z.of_nat (length l)) 0;;; strrev (Z.of_nat (length l));;;
      if z then c <- ch_get (Z.of_nat (length l) - 1);; when (negb (c =? C_0)) (ch_set (Z.of_nat (length l) - 1) C_0) else ret tt)
     (fun _ b' => c_string b' (if z then rev (C_0 :: tl l) else rev l)) b.
Proof.
  intros Hl Hne Hs. wp_step. apply wp_ch_set; [lia|lia|].
  assert (Hs0 := str_at_snoc b l 0 ltac:(lia) Hs).
  assert (Hr : Forall (fun c => 0 < c < 256) (rev l)) by (rewrite rev_reverse; by apply Forall_reverse).
  wp_step. eapply wp_mono; [apply strrev_spec; try done|].
  { eapply Forall_impl; [exact Hl|]. simpl. lia. }
  { destruct l as [|c l]; [done|]. apply Forall_cons in Hl as [? _]. simpl. intros [= ->]. lia. }
  intros [] b' Hb'. destruct z; [|by apply wp_ret].
  destruct l as [|c l]; [done|]. simpl in *. apply Forall_cons in Hl as [Hc Hl].
  assert (Hlast : Z.of_nat (S (length l)) - 1 = Z.of_nat (length (rev l))) by (rewrite length_rev; lia). rewrite Hlast.
  wp_step. eapply wp_ch_get; [lia| |].
  { rewrite Hb' by (rewrite !length_app; simpl; lia). rewrite <- app_assoc. by apply list_lookup_middle. }
  assert (Hgo : forall b2, (forall k, b2 !! k = if decide (k = Z.of_nat (length (rev l))) then Some C_0 else b' !! k) ->
    c_string b2 (rev l ++ [C_0])).
  { intros b2 Hb2. split.
    - intros k Hk. rewrite Hb2. rewrite <- app_assoc in *. simpl in *. rewrite !length_app in Hk. simpl in Hk.
      case_decide as Hd; [apply Nat2Z.inj in Hd as ->; by rewrite list_lookup_middle|].
      rewrite Hb' by (rewrite !length_app; simpl; lia). destruct (decide (k < length (rev l))%nat); [by rewrite !lookup_app_l by lia|].
      assert (k <> length (rev l)) by (intros ->; done). rewrite !lookup_app_r by lia.
      assert (k - length (rev l) = 1)%nat as -> by lia. done.
    - apply Forall_app in Hr as [Hr _]. apply Forall_app. split; [done|]. constructor; [unfold C_0; lia|constructor]. }
  destruct (Z.eqb_spec c C_0) as [->|Hne0]; simpl.
  - apply wp_ret, Hgo. intros k. case_decide as Hd; [|done]. rewrite Hd, Hb' by (rewrite !length_app; simpl; lia).
    rewrite <- app_assoc. simpl. by rewrite list_lookup_middle.
  - apply wp_ch_set; [lia|unfold C_0; lia|]. apply Hgo. intros k. case_decide as Hd; [by rewrite Hd, lookup_insert_eq|].
    by rewrite lookup_insert_ne by congruence.
Qed.

(** A number that [fnd_uitoa] prints in decimal, with any padding that is ['0'] or no digit, is a
    terminated string of at least the asked width from which [fnd_atoui] reads the number back. *)
Theorem uitoa_atoui_roundtrip val fmt fmtch b :
  in_u32 val -> fmt <= 16 -> 0 < val \/ 1 <= fmt -> 0 < fmtch < 256 -> fmtch = C_0 \/ ~ decimal fmtch ->
  wp (fnd_uitoa val fmt fmtch 10) (fun _ b' => exists s, c_string b' s /\ fmt <= Z.of_nat (length s) /\ fnd_atoui (Some s) = val) b.
Proof.
  intros Hv Hfmt Hpos Hch Hpad. unfold fnd_uitoa, itoa. rewrite !u32_id by (done || (split; done)).
  destruct (Z.ltb_spec 16 fmt); [lia|].
  wp_step. eapply wp_mono; [apply (digits_le_spec 32 val [] b); [pose proof u32_pow10; unfold in_u32 in Hv; lia|by intros k Hk; simpl in Hk; lia]|].
  intros n b1 (d & -> & Hs1 & Hd & Hdec & Hdne). simpl in *. set (p := Z.to_nat (fmt - Z.of_nat (length d))).
  wp_step. eapply wp_mono; [apply (fill_spec p fmtch d b1); [lia|done]|].
  intros m b2 (-> & Hs2). set (l := d ++ replicate p fmtch) in *.
  assert (Hl : Forall (fun c => 0 < c < 256) l).
  { apply Forall_app. split; [eapply Forall_impl; [exact Hdec|]; unfold decimal, C_0, C_9; simpl; lia|by apply Forall_replicate]. }
  assert (Hlen : fmt <= Z.of_nat (length l)) by (unfold l; rewrite length_app, length_replicate; lia).
  assert (Hne : l <> []).
  { unfold l, p. destruct d as [|c d]; [|done]. destruct (Z.to_nat _) eqn:Ep; [|done].
    assert (val = 0) by tauto. simpl in Ep. lia. }
  eapply wp_mono; [apply itoa_tail_spec; done|]. intros [] b3 Hb3. destruct (Z.eqb_spec val 0) as [Hv0|Hv0].
  - exists (rev (C_0 :: tl l)). split; [done|].
    split; [rewrite length_rev; destruct l; [done|simpl in *; lia]|].
    rewrite fnd_atoui_rev by done. unfold l. rewrite (proj1 Hdne Hv0). destruct p as [|q]; simpl; rewrite ?Hv0; [done|].
    apply atoui_pads; [done|split; lia].
  - exists (rev l). split; [done|]. rewrite length_rev. split; [done|].
    rewrite fnd_atoui_rev by done. unfold l. destruct (atoui_digits d (replicate p fmtch) 1 0 Hdec ltac:(split; lia)) as [w' ->].
    rewrite Z.mul_1_r, Z.add_0_l, Hd, u32_id by done. by apply atoui_pads.
Qed.

Lemma uitoa_atoui_roundtrip_witness :
  wp (fnd_uitoa 4096 8 32 10) (fun _ b' => exists s, c_string b' s /\ 8 <= Z.of_nat (length s) /\ fnd_atoui (Some s) = 4096) ∅.
Proof.
  apply (uitoa_atoui_roundtrip 4096 8 32 ∅); [split; lia|lia|left; lia|lia|right]. unfold decimal, C_0. lia.
Defined.

(** Printing zero with no width asked for stores the digit in front of the buffer. *)
Theorem uitoa_zero_underflows fmtch b : fnd_uitoa 0 0 fmtch 10 b = Fault.
Proof.
  unfold fnd_uitoa, itoa, strrev, bind, ch_set, modify. simpl. unfold ch_get at 1, bind, gets. simpl.
  by rewrite lookup_insert_eq.
Qed.
