(* ===== verification/Mpu.v ===== *)
(** * The memory protection unit

    [mpu.c], [mpu.h], [memprot.c] and [memprot.h] of the Cortex-M port: the smallest region for
    a size, the mask of the disabled subregions, the programming of the region registers and
    the electric fence at the end of a stack.  The registers of the unit are an interface: a
    state with reads and writes of its words ([MpuHw]), whose documented behaviour is the class
    [MpuLaws]; a file of eight regions is an instance. *)

From S2P Require Import Prelude.
From stdpp Require Import base numbers list.
From Stdlib Require Import ZArith Lia.
Local Open Scope Z_scope.

Module Mpu.

(** ** Subregions *)

Definition g_ms_regionmask : list Z := [0xff; 0xfe; 0xfc; 0xf8; 0xf0; 0xe0; 0xc0; 0x80; 0x00].
Definition g_ls_regionmask : list Z := [0x00; 0x01; 0x03; 0x07; 0x0f; 0x1f; 0x3f; 0x7f; 0xff].

(** [~x] of a 32-bit word. *)
Definition lnot_u32 (x : Z) : Z := Z.lxor 0xffffffff x.

(** The mask of the offset in a subregion. *)
Definition subregion_mask (l2size : Z) : Z :=
  if l2size <? 32 then Z.shiftr (u32 (Z.shiftl 1 l2size - 1)) 3 else 0x1fffffff.

(** The index may be behind the end of the table. *)
Definition mpu_subregion_ls (offset l2size : Z) : option Z :=
  let mask := subregion_mask l2size in
  let aoffset := Z.land offset (lnot_u32 mask) in
  let nsrs := Z.shiftr aoffset (l2size - 3) in
  g_ls_regionmask !! Z.to_nat nsrs.

Definition mpu_subregion_ms (size l2size : Z) : option Z :=
  let mask := subregion_mask l2size in
  let asize := Z.land (u32 (size + mask)) (lnot_u32 mask) in
  let nsrs := Z.shiftr asize (l2size - 3) in
  g_ms_regionmask !! Z.to_nat nsrs.

(** A shift of a 32-bit word by its width has no value in C. *)
Definition mpu_subregion (base size l2size : Z) : option Z :=
  if l2size <? 8 then Some 0 else
  if 32 <=? l2size then None else
  let mask := u32 (Z.shiftl 1 l2size - 1) in
  let offset := Z.land base mask in
  ms ← mpu_subregion_ms (u32 (size + offset)) l2size;
  ls ← mpu_subregion_ls offset l2size;
  Some (Z.lor ms ls).

(** ** The size of a region *)

(** The loop of [mpu_log2region]; 27 rounds lead from 5 to 32. *)
Fixpoint log2region_loop (fuel : nat) (l2size size : Z) : Z :=
  match fuel with
  | O => l2size
  | S fuel =>
      if (l2size <? 32) && (Z.shiftl 1 l2size <? size)
      then log2region_loop fuel (l2size + 1) size else l2size
  end.

Definition mpu_log2region (size : Z) : Z := log2region_loop 27 5 size.

Definition mpu_log2region_lt (size : Z) : option Z :=
  let l2size := mpu_log2region size in
  if 32 <=? l2size then None else
  Some (if (4 <? l2size) && (size <? Z.shiftl 1 l2size) then l2size - 1 else l2size).

(** ** The registers *)

(** The words of the unit, by address. *)
Class MpuHw (hw : Type) := {
  mpu_rd : Z -> hw -> Z;
  mpu_wr : Z -> Z -> hw -> hw
}.

Definition MPU_TYPE : Z := 0xE000ED90.
Definition MPU_CTRL : Z := 0xE000ED94.
Definition MPU_RNR : Z := 0xE000ED98.
Definition MPU_RBAR : Z := 0xE000ED9C.
Definition MPU_RASR : Z := 0xE000EDA0.
Definition MPU_CTRL_ENABLE : Z := 1.
Definition MPU_RASR_ENABLE : Z := 1.
Definition MPU_RBAR_VALID : Z := Z.shiftl 1 4.
Definition MPU_RBAR_ADDR_MASK : Z := 0xffffffe0.
Definition MPU_CONFIG_PRIV_DEFAULT : Z := Z.shiftl 1 2.
Definition MPU_RGN_SIZE_32B : Z := Z.shiftl 4 1.
Definition MPU_RGN_SIZE_2M : Z := Z.shiftl 20 1.
Definition MPU_RGN_SIZE_64M : Z := Z.shiftl 25 1.
Definition MPU_RGN_PERM_NX : Z := Z.shiftl 1 28.
Definition MPU_RGN_PERM_PRV_NO_USR_NO : Z := 0.
Definition MPU_RGN_PERM_PRV_RW_USR_RW : Z := 0x03000000.
Definition MPU_RGN_ENABLE : Z := 1.
Definition MPU_RGN_MEMORY : Z := Z.lor (Z.lor (Z.shiftl 1 16) (Z.shiftl 1 17)) (Z.shiftl 1 18).
Definition MPU_RASR_SIZE_LOG2 (n : Z) : Z := Z.shiftl (n - 1) 1.

Section Registers.
Context {hw : Type} {MH : MpuHw hw}.
Implicit Types h : hw.

Definition mpu_get_region_count h : Z := Z.shiftr (Z.land (mpu_rd MPU_TYPE h) 0x0000FF00) 8.

Definition mpu_enable (config : Z) h : hw := mpu_wr MPU_CTRL (Z.lor config MPU_CTRL_ENABLE) h.

Definition mpu_disable h : hw := mpu_wr MPU_CTRL (Z.land (mpu_rd MPU_CTRL h) (lnot_u32 MPU_CTRL_ENABLE)) h.

Definition mpu_enable_region (region : Z) h : hw :=
  let h := mpu_wr MPU_RNR region h in
  mpu_wr MPU_RASR (Z.lor (mpu_rd MPU_RASR h) MPU_RASR_ENABLE) h.

Definition mpu_disable_region (region : Z) h : hw :=
  let h := mpu_wr MPU_RNR region h in
  mpu_wr MPU_RASR (Z.land (mpu_rd MPU_RASR h) (lnot_u32 MPU_RASR_ENABLE)) h.

Definition mpu_set_region (region addr flags : Z) h : hw :=
  let addr := Z.land addr MPU_RBAR_ADDR_MASK in
  let h := mpu_wr MPU_RBAR (Z.lor (Z.lor addr region) MPU_RBAR_VALID) h in
  mpu_wr MPU_RASR flags h.

Definition mpu_set_region_size (region addr len flags : Z) h : option hw :=
  let log2r := mpu_log2region len in
  m ← mpu_subregion addr len log2r;
  let flags := Z.lor flags m in
  let flags := Z.lor flags (MPU_RASR_SIZE_LOG2 log2r) in
  Some (mpu_set_region region addr flags h).

(** *** memprot.c *)

Definition ISIX_MEMORY_PROTECTION_EFENCE_SIZE : Z := 32.

(** The stack grows down. *)
Definition _isix_port_memory_efence_aligna (addr : Z) : Z :=
  let addr := if negb (Z.land addr (ISIX_MEMORY_PROTECTION_EFENCE_SIZE - 1) =? 0)
              then u32 (addr + ISIX_MEMORY_PROTECTION_EFENCE_SIZE) else addr in
  addr - Z.land addr (ISIX_MEMORY_PROTECTION_EFENCE_SIZE - 1).

Definition setup_regions h : hw :=
  let h := mpu_set_region 0 0x20000000
    (Z.lor (Z.lor (Z.lor MPU_RGN_PERM_PRV_RW_USR_RW MPU_RGN_PERM_NX) MPU_RGN_MEMORY) MPU_RGN_SIZE_64M) h in
  let h := mpu_set_region 1 0
    (Z.lor (Z.lor MPU_RGN_PERM_PRV_NO_USR_NO MPU_RGN_PERM_NX) MPU_RGN_SIZE_2M) h in
  mpu_enable_region 1 (mpu_enable_region 0 h).

Definition _isix_port_memory_protection_set_default_map h : hw :=
  if mpu_get_region_count h =? 0 then h else mpu_enable MPU_CONFIG_PRIV_DEFAULT (setup_regions h).

(** The state is the unit and the interrupt mask, which [cpsid i] sets and [cpsie i] clears. *)
Definition _isix_port_memory_protection_set_efence (estack : Z) (st : bool * hw) : bool * hw :=
  let estack := _isix_port_memory_efence_aligna estack in
  let '(_, h) := st in
  let efregion := mpu_get_region_count h in
  if efregion =? 0 then st else
  let efregion := efregion - 1 in
  let h := mpu_disable_region efregion h in
  (false, mpu_set_region efregion estack
     (Z.lor (Z.lor (Z.lor MPU_RGN_PERM_PRV_NO_USR_NO MPU_RGN_PERM_NX) MPU_RGN_SIZE_32B) MPU_RGN_ENABLE) h).

Definition _isix_port_memory_protection_reset_efence (st : bool * hw) : bool * hw :=
  let '(_, h) := st in
  let efregion := mpu_get_region_count h in
  if efregion =? 0 then st else (false, mpu_disable_region (efregion - 1) h).

End Registers.

(** What the unit is documented to do: a write of the base address with the valid bit selects
    the region, the attributes are those of the selected region, the type is fixed. *)
Class MpuLaws (hw : Type) {MH : MpuHw hw} := {
  mpu_region : hw -> Z -> Z * Z;
  mpu_selected : hw -> Z;
  law_type : forall a v h, mpu_rd MPU_TYPE (mpu_wr a v h) = mpu_rd MPU_TYPE h;
  law_rnr : forall v h, 0 <= v < 256 ->
    mpu_selected (mpu_wr MPU_RNR v h) = v /\ forall r, mpu_region (mpu_wr MPU_RNR v h) r = mpu_region h r;
  law_rbar : forall v h, Z.testbit v 4 = true ->
    mpu_selected (mpu_wr MPU_RBAR v h) = v mod 16 /\
    forall r, mpu_region (mpu_wr MPU_RBAR v h) r =
      if decide (r = v mod 16) then (Z.land v MPU_RBAR_ADDR_MASK, snd (mpu_region h r)) else mpu_region h r;
  law_rasr_wr : forall v h r, mpu_region (mpu_wr MPU_RASR v h) r =
      if decide (r = mpu_selected h) then (fst (mpu_region h r), v) else mpu_region h r;
  law_rasr_rd : forall h, mpu_rd MPU_RASR h = snd (mpu_region h (mpu_selected h))
}.

(** ** Properties of the sizes *)

Lemma log2region_loop_spec size : forall fuel l,
  0 <= l <= 32 -> 32 - l <= Z.of_nat fuel ->
  let r := log2region_loop fuel l size in
  l <= r <= 32 /\ (r < 32 -> size <= 2 ^ r) /\ (forall k, l <= k < r -> 2 ^ k < size).
Proof.
  induction fuel as [|fuel IH]; intros l Hl Hf; cbn [log2region_loop].
  { assert (l = 32) as -> by lia. split_and!; [lia|lia|lia|intros k Hk; lia]. }
  destruct (Z.ltb_spec l 32) as [Hlt|Hge]; cbn [andb].
  2: { assert (l = 32) as -> by lia. split_and!; [lia|lia|lia|intros k Hk; lia]. }
  rewrite Z.shiftl_1_l. destruct (Z.ltb_spec (2 ^ l) size) as [Hs|Hs].
  - destruct (IH (l + 1)) as (H1 & H2 & H3); [lia|lia|]. split_and!; [lia|lia|done|].
    intros k Hk. destruct (decide (k = l)) as [->|]; [done|]. apply H3. lia.
  - split_and!; [lia|lia|done|intros k Hk; lia].
Qed.

(** The size of a region is the smallest power of two that holds [size] bytes, at least 32. *)
Lemma log2region_least size :
  size < 2 ^ 32 -> let l := mpu_log2region size in
  5 <= l <= 32 /\ size <= 2 ^ l /\ forall k, 5 <= k < l -> 2 ^ k < size.
Proof.
  intros Hs l. destruct (log2region_loop_spec size 27 5) as (H1 & H2 & H3); [lia|lia|]. fold (mpu_log2region size) in *.
  split_and!; try done; try lia. destruct (decide (l < 32)) as [Hlt|Hge]; [by apply H2|].
  assert (l = 32) as -> by (unfold l in *; lia). lia.
Qed.

(** ** Properties of the mask *)

Lemma subregion_mask_ones l : 3 <= l < 32 -> subregion_mask l = 2 ^ (l - 3) - 1.
Proof.
  intros Hl. unfold subregion_mask. rewrite (proj2 (Z.ltb_lt _ _)) by lia. rewrite Z.shiftl_1_l.
  assert (0 < 2 ^ l <= 2 ^ 31) by (split; [lia|apply Z.pow_le_mono_r; lia]).
  rewrite u32_id by (unfold in_u32; lia). rewrite Z.shiftr_div_pow2 by lia. change (2 ^ 3) with 8.
  assert (2 ^ l = 8 * 2 ^ (l - 3)) as -> by (change 8 with (2 ^ 3); rewrite <- Z.pow_add_r by lia; f_equal; lia).
  assert (0 < 2 ^ (l - 3)) by lia. symmetry. apply (Z.div_unique _ _ _ 7); lia.
Qed.

(** Clearing the low bits and shifting them out is a division. *)
Lemma aligned_quotient x n : 0 <= x < 2 ^ 32 -> 0 <= n -> 2 ^ n <= 2 ^ 32 ->
  Z.shiftr (Z.land x (lnot_u32 (2 ^ n - 1))) n = x / 2 ^ n.
Proof.
  intros Hx Hn Hle. rewrite <- Z.shiftr_div_pow2 by done. apply Z.bits_inj'. intros i Hi.
  rewrite !Z.shiftr_spec, Z.land_spec by done. unfold lnot_u32. rewrite Z.lxor_spec.
  assert (0xffffffff = Z.ones 32) as -> by done.
  assert (2 ^ n - 1 = Z.ones n) as -> by (rewrite Z.ones_equiv; lia).
  destruct (Z.testbit x (i + n)) eqn:E; [|done]. cbn [andb].
  assert (i + n < 32) as Hlt.
  { destruct (Z.ltb_spec (i + n) 32) as [|Hge]; [done|]. exfalso.
    rewrite (Z.bits_above_log2 x (i + n)) in E; [done|lia|]. destruct (decide (x = 0)) as [->|]; [change (Z.log2 0) with 0; lia|].
    apply Z.log2_lt_pow2; [lia|]. apply Z.lt_le_trans with (2 ^ 32); [lia|apply Z.pow_le_mono_r; lia]. }
  rewrite (Z.ones_spec_low 32) by lia. rewrite (Z.ones_spec_high n) by lia. done.
Qed.

(** The nine entries of a table, bit by bit. *)
Ltac table_bits k i :=
  assert (k = 0 \/ k = 1 \/ k = 2 \/ k = 3 \/ k = 4 \/ k = 5 \/ k = 6 \/ k = 7 \/ k = 8) as Ek by lia;
  assert (i = 0 \/ i = 1 \/ i = 2 \/ i = 3 \/ i = 4 \/ i = 5 \/ i = 6 \/ i = 7) as Ei by lia;
  repeat destruct Ek as [->|Ek]; try subst k;
  repeat destruct Ei as [->|Ei]; try subst i; reflexivity.

Lemma ls_bits k i : 0 <= k <= 8 -> 0 <= i < 8 -> Z.testbit (g_ls_regionmask !!! Z.to_nat k) i = (i <? k).
Proof. intros Hk Hi. table_bits k i. Qed.

Lemma ms_bits k i : 0 <= k <= 8 -> 0 <= i < 8 -> Z.testbit (g_ms_regionmask !!! Z.to_nat k) i = (k <=? i).
Proof. intros Hk Hi. table_bits k i. Qed.

Lemma table_lookup (t : list Z) k : length t = 9%nat -> 0 <= k <= 8 -> t !! Z.to_nat k = Some (t !!! Z.to_nat k).
Proof. intros Ht Hk. apply list_lookup_lookup_total_lt. lia. Qed.

(** The bytes from [a] up to [b] touch the subregion [i] of [n] bytes. *)
Definition touches (a b n i : Z) : bool := (a <? (i + 1) * n) && (i * n <? b).

Lemma touches_spec a b n i : 0 < n -> touches a b n i = negb ((i <? a / n) || ((b + n - 1) / n <=? i)).
Proof.
  intros Hn. unfold touches.
  assert ((i <? a / n) = negb (a <? (i + 1) * n)) as ->.
  { pose proof (Z.div_mod a n) as Hdm. pose proof (Z.mod_pos_bound a n Hn).
    destruct (Z.ltb_spec i (a / n)), (Z.ltb_spec a ((i + 1) * n)); try done; nia. }
  assert (((b + n - 1) / n <=? i) = negb (i * n <? b)) as ->.
  { pose proof (Z.div_mod (b + n - 1) n) as Hdm. pose proof (Z.mod_pos_bound (b + n - 1) n Hn).
    destruct (Z.leb_spec ((b + n - 1) / n) i), (Z.ltb_spec (i * n) b); try done; nia. }
  by destruct (a <? (i + 1) * n), (i * n <? b).
Qed.

(** The offset and the end of the memory in its region. *)
Lemma mpu_subregion_parts base size l2size :
  0 <= base < 2 ^ 32 -> 0 <= size -> 8 <= l2size < 32 ->
  let o := base mod 2 ^ l2size in let n := 2 ^ (l2size - 3) in
  o + size <= 2 ^ 32 - n ->
  mpu_subregion base size l2size =
    (ms ← g_ms_regionmask !! Z.to_nat ((o + size + n - 1) / n);
     ls ← g_ls_regionmask !! Z.to_nat (o / n); Some (Z.lor ms ls)).
Proof.
  intros Hb Hs Hl o n Hend. unfold mpu_subregion.
  rewrite (proj2 (Z.ltb_ge _ _)), (proj2 (Z.leb_gt _ _)) by lia. rewrite Z.shiftl_1_l.
  assert (0 < 2 ^ l2size <= 2 ^ 31) by (split; [lia|apply Z.pow_le_mono_r; lia]).
  assert (0 < n) by (unfold n; lia).
  assert (n <= 2 ^ 32) by (apply Z.pow_le_mono_r; lia).
  rewrite u32_id by (unfold in_u32; lia).
  assert (Z.land base (2 ^ l2size - 1) = o) as ->.
  { replace (2 ^ l2size - 1) with (Z.ones l2size) by (rewrite Z.ones_equiv; lia). by rewrite Z.land_ones by lia. }
  assert (0 <= o < 2 ^ l2size) by (apply Z.mod_pos_bound; lia).
  rewrite (u32_id (size + o)) by (unfold in_u32; lia).
  unfold mpu_subregion_ms, mpu_subregion_ls. rewrite subregion_mask_ones by lia. fold n.
  rewrite (u32_id (size + o + (n - 1))) by (unfold in_u32; lia).
  pose proof (aligned_quotient o (l2size - 3)) as A1. pose proof (aligned_quotient (size + o + (n - 1)) (l2size - 3)) as A2.
  fold n in A1, A2. rewrite A1, A2 by lia. by replace (size + o + (n - 1)) with (o + size + n - 1) by lia.
Qed.

Lemma mpu_subregion_spec base size l2size :
  0 <= base < 2 ^ 32 -> 0 <= size -> 8 <= l2size < 32 ->
  let o := base mod 2 ^ l2size in
  o + size <= 2 ^ l2size ->
  exists m, mpu_subregion base size l2size = Some m /\
    forall i, 0 <= i < 8 -> Z.testbit m i = negb (touches o (o + size) (2 ^ (l2size - 3)) i).
Proof.
  intros Hb Hs Hl o Hend. set (n := 2 ^ (l2size - 3)).
  assert (2 ^ l2size = 8 * n) as E8 by (unfold n; change 8 with (2 ^ 3); rewrite <- Z.pow_add_r by lia; f_equal; lia).
  assert (0 < n) by (unfold n; lia).
  assert (2 ^ l2size <= 2 ^ 31) by (apply Z.pow_le_mono_r; lia).
  assert (0 <= o < 2 ^ l2size) by (apply Z.mod_pos_bound; lia).
  rewrite mpu_subregion_parts by (fold o n; lia). fold o n.
  assert (0 <= o / n <= 8) by (split; [apply Z.div_pos; lia|apply Z.div_le_upper_bound; lia]).
  assert (0 <= (o + size + n - 1) / n <= 8).
  { split; [apply Z.div_pos; lia|]. assert ((o + size + n - 1) / n < 9); [|lia]. apply Z.div_lt_upper_bound; lia. }
  rewrite !table_lookup by done. eexists. split; [reflexivity|]. intros i Hi.
  rewrite Z.lor_spec, ms_bits, ls_bits by done. rewrite touches_spec by done. rewrite negb_involutive. apply orb_comm.
Qed.

(** The mask of the subregions is exact: when the memory lies within the aligned region of
    2^[l2size] bytes, an eighth of the region is disabled exactly when no byte of the memory is
    in it. *)
Theorem mpu_subregion_exact base size l2size :
  0 <= base < 2 ^ 32 -> 0 <= size -> 8 <= l2size < 32 ->
  let o := base mod 2 ^ l2size in
  o + size <= 2 ^ l2size ->
  exists m, mpu_subregion base size l2size = Some m /\
    forall i, 0 <= i < 8 -> Z.testbit m i = negb (touches o (o + size) (2 ^ (l2size - 3)) i).
Proof. apply mpu_subregion_spec. Qed.

Lemma mpu_subregion_exact_witness :
  mpu_subregion 0x20000440 0x600 12 = Some 0xc3 /\ Z.testbit 0xc3 2 = false.
Proof.
  split; [reflexivity|].
  destruct (mpu_subregion_exact 0x20000440 0x600 12) as (m & Hm & Hb); [lia|lia|lia|apply Z.leb_le; reflexivity|].
  assert (m = 0xc3) as -> by (injection Hm as <-; reflexivity).
  rewrite Hb by lia. reflexivity.
Defined.

(** The size alone does not make the region large enough: memory that starts behind the
    beginning of the region can end more than a subregion behind its end, and the table is
    read out of bounds. *)
Lemma mpu_subregion_overrun base size l2size :
  0 <= base < 2 ^ 32 -> 0 <= size -> 8 <= l2size < 32 ->
  let o := base mod 2 ^ l2size in
  2 ^ l2size < o + size <= 2 ^ 32 - 2 ^ (l2size - 3) -> mpu_subregion base size l2size = None.
Proof.
  intros Hb Hs Hl o Hend. set (n := 2 ^ (l2size - 3)) in *.
  assert (2 ^ l2size = 8 * n) as E8 by (unfold n; change 8 with (2 ^ 3); rewrite <- Z.pow_add_r by lia; f_equal; lia).
  assert (0 < n) by (unfold n; lia).
  rewrite mpu_subregion_parts by (fold o n; lia). fold o n.
  assert (9 <= (o + size + n - 1) / n) by (apply Z.div_le_lower_bound; lia).
  by rewrite (lookup_ge_None_2 g_ms_regionmask) by (simpl; lia).
Qed.

(** ** Properties of the fence *)

(** The fence is aligned and starts within 31 bytes behind the end of the stack. *)
Lemma efence_aligned a :
  0 <= a <= 2 ^ 32 - 32 -> let r := _isix_port_memory_efence_aligna a in r mod 32 = 0 /\ a <= r < a + 32.
Proof.
  intros Ha. unfold _isix_port_memory_efence_aligna, ISIX_MEMORY_PROTECTION_EFENCE_SIZE. change (32 - 1) with (Z.ones 5).
  rewrite !Z.land_ones by lia. change (2 ^ 5) with 32. pose proof (Z.div_mod a 32). pose proof (Z.mod_pos_bound a 32).
  destruct (Z.eqb_spec (a mod 32) 0) as [E|E]; cbn [negb].
  - rewrite E, Z.sub_0_r. split; [done|lia].
  - assert (a <> 2 ^ 32 - 32) by (intros ->; by apply E).
    rewrite u32_id by (unfold in_u32; lia). assert ((a + 32) mod 32 = a mod 32) as ->.
    { by rewrite <- Zplus_mod_idemp_r, Z_mod_same_full, Z.add_0_r. }
    split; [|lia]. replace (a + 32 - a mod 32) with ((a / 32 + 1) * 32) by lia. apply Z.mod_mul. lia.
Qed.

(** The address part of a base address register is the address. *)
Lemma rbar_addr a : 0 <= a < 2 ^ 32 -> a mod 32 = 0 -> Z.land a MPU_RBAR_ADDR_MASK = a.
Proof.
  intros Ha Hal. assert (MPU_RBAR_ADDR_MASK = Z.shiftl (Z.ones 27) 5) as -> by done. apply Z.bits_inj'. intros i Hi.
  rewrite Z.land_spec, Z.shiftl_spec by done. destruct (Z.testbit a i) eqn:E; [|done]. cbn [andb].
  destruct (Z.ltb_spec i 5) as [Hlt|Hge].
  - rewrite <- (Z.mod_pow2_bits_low a 5) in E by lia. change (2 ^ 5) with 32 in E. by rewrite Hal, Z.bits_0 in E.
  - apply Z.ones_spec_low. split; [lia|]. destruct (Z.ltb_spec i 32) as [|H32]; [lia|].
  rewrite <- (Z.mod_small a (2 ^ 32)), Z.mod_pow2_bits_high in E by lia. done.
Qed.

(** The word written to the base address register has the region, the address and the valid
    bit in their fields. *)
Lemma rbar_fields r a :
  0 <= r < 16 -> 0 <= a < 2 ^ 32 -> a mod 32 = 0 -> let v := Z.lor (Z.lor a r) MPU_RBAR_VALID in
  v mod 16 = r /\ Z.land v MPU_RBAR_ADDR_MASK = a /\ Z.testbit v 4 = true.
Proof.
  intros Hr Ha Hal v.
  assert (a = a / 32 * 32) as Ea by (pose proof (Z.div_mod a 32); lia).
  assert (v = a + (16 + r)) as Ev.
  { unfold v. rewrite <- Z.lor_assoc. assert (Z.lor r MPU_RBAR_VALID = 16 + r) as ->.
    { change MPU_RBAR_VALID with 16. assert (r = 0 \/ r = 1 \/ r = 2 \/ r = 3 \/ r = 4 \/ r = 5 \/ r = 6 \/ r = 7 \/
        r = 8 \/ r = 9 \/ r = 10 \/ r = 11 \/ r = 12 \/ r = 13 \/ r = 14 \/ r = 15) as Er by lia.
      repeat destruct Er as [->|Er]; try subst r; reflexivity. }
    assert (Z.land a (16 + r) = 0) as Hand.
    { apply Z.bits_inj'. intros i Hi. rewrite Z.land_spec, Z.bits_0. destruct (Z.ltb_spec i 5).
      - by rewrite Ea, <- (Z.shiftl_mul_pow2 _ 5), Z.shiftl_spec_low by lia.
      - rewrite (Z.bits_above_log2 (16 + r) i); [apply andb_false_r|lia|]. apply Z.log2_lt_pow2; [lia|].
        apply Z.lt_le_trans with (2 ^ 5); [lia|apply Z.pow_le_mono_r; lia]. }
    by rewrite (Z.add_nocarry_lxor a (16 + r)), Z.lxor_lor. }
  assert (v mod 16 = r) as Emod.
  { rewrite Ev, Ea. replace (a / 32 * 32 + (16 + r)) with (r + (a / 32 * 2 + 1) * 16) by lia.
    rewrite Z.mod_add by lia. apply Z.mod_small. lia. }
  assert (Z.land v MPU_RBAR_ADDR_MASK = a) as Eb.
  { rewrite Ev. assert (MPU_RBAR_ADDR_MASK = Z.ldiff (Z.ones 32) (Z.ones 5)) as -> by done.
    assert (0 <= a + (16 + r) < 2 ^ 32) by (pose proof (Z.div_lt_upper_bound a 32 (2 ^ 27)); lia).
    rewrite Z.ldiff_land, Z.land_assoc, (Z.land_ones _ 32), Z.mod_small by lia.
    rewrite <- Z.ldiff_land, Z.ldiff_ones_r, Z.shiftl_mul_pow2, Z.shiftr_div_pow2 by lia. change (2 ^ 5) with 32.
    rewrite Ea at 1. rewrite Z.add_comm, Z.div_add, (Z.div_small (16 + r)) by lia. lia. }
  assert (Z.testbit v 4 = true) as Hv by (unfold v; rewrite Z.lor_spec; apply orb_true_r).
  done.
Qed.

Section Fence.
Context {hw : Type} {MH : MpuHw hw} {ML : MpuLaws hw}.
Implicit Types h : hw.

Lemma region_count_wr a v h : mpu_get_region_count (mpu_wr a v h) = mpu_get_region_count h.
Proof. unfold mpu_get_region_count. by rewrite law_type. Qed.

(** Only the addressed region changes. *)
Lemma set_region_spec r a fl h :
  0 <= r < 16 -> 0 <= a < 2 ^ 32 -> a mod 32 = 0 ->
  let h' := mpu_set_region r a fl h in
  mpu_region h' r = (a, fl) /\ (forall x, x <> r -> mpu_region h' x = mpu_region h x) /\
  mpu_get_region_count h' = mpu_get_region_count h.
Proof.
  intros Hr Ha Hal h'. unfold h', mpu_set_region.
  rewrite rbar_addr by done. destruct (rbar_fields r a Hr Ha Hal) as (Emod & Eb & Hv).
  set (v := Z.lor (Z.lor a r) MPU_RBAR_VALID) in *. destruct (law_rbar v h Hv) as [Hsel Hreg]. rewrite Emod in *. split_and!.
  - rewrite law_rasr_wr, Hsel, decide_True by done. by rewrite Hreg, decide_True, Eb.
  - intros x Hx. rewrite law_rasr_wr, Hsel, decide_False by done. by rewrite Hreg, decide_False.
  - by rewrite !region_count_wr.
Qed.

Lemma disable_region_spec r h :
  0 <= r < 256 -> let h' := mpu_disable_region r h in
  mpu_region h' r = (fst (mpu_region h r), Z.land (snd (mpu_region h r)) (lnot_u32 MPU_RASR_ENABLE)) /\
  (forall x, x <> r -> mpu_region h' x = mpu_region h x) /\ mpu_get_region_count h' = mpu_get_region_count h.
Proof.
  intros Hr h'. unfold h', mpu_disable_region. destruct (law_rnr r h Hr) as [Hsel Hreg]. split_and!.
  - by rewrite law_rasr_wr, law_rasr_rd, Hsel, decide_True, Hreg.
  - intros x Hx. by rewrite law_rasr_wr, Hsel, decide_False, Hreg.
  - by rewrite !region_count_wr.
Qed.

(** Setting the electric fence programs the last region of the unit, and only that one, as 32
    bytes without any access, aligned and within the 31 bytes behind the given end of the
    stack; clearing it switches the same region off.  Interrupts are enabled afterwards. *)
Theorem efence_guards_stack n a m h :
  mpu_get_region_count h = n -> 0 < n <= 16 -> 0 <= a <= 2 ^ 32 - 32 ->
  let st := _isix_port_memory_protection_set_efence a (m, h) in
  let st' := _isix_port_memory_protection_reset_efence st in
  (exists base, mpu_region (snd st) (n - 1) = (base, 0x10000009) /\ base mod 32 = 0 /\ a <= base < a + 32) /\
  (forall x, x <> n - 1 -> mpu_region (snd st) x = mpu_region h x /\ mpu_region (snd st') x = mpu_region h x) /\
  Z.testbit (snd (mpu_region (snd st') (n - 1))) 0 = false /\ fst st = false /\ fst st' = false.
Proof.
  intros Hn Hr Ha st st'. destruct (efence_aligned a Ha) as [Hal Hb]. set (b := _isix_port_memory_efence_aligna a) in *.
  destruct (disable_region_spec (n - 1) h) as (_ & Hd2 & Hd3); [lia|]. set (h1 := mpu_disable_region (n - 1) h) in *.
  destruct (set_region_spec (n - 1) b 0x10000009 h1) as (Hs1 & Hs2 & Hs3); [lia|lia|done|]. set (h2 := mpu_set_region _ _ _ h1) in *.
  assert (st = (false, h2)) as Est.
  { unfold st, _isix_port_memory_protection_set_efence. by rewrite Hn, (proj2 (Z.eqb_neq n 0)) by lia. }
  unfold st'. rewrite Est. clear st st' Est.
  unfold _isix_port_memory_protection_reset_efence. cbv beta iota zeta. rewrite Hs3, Hd3, Hn, (proj2 (Z.eqb_neq n 0)) by lia.
  destruct (disable_region_spec (n - 1) h2) as (Hr1 & Hr2 & _); [lia|]. cbn [fst snd]. split_and!; try done.
  - exists b. split; [exact Hs1|split; [exact Hal|lia]].
  - intros x Hx. by rewrite Hr2, Hs2, Hd2.
  - by rewrite Hr1, Hs1.
Qed.

End Fence.

(** A unit of eight regions. *)
Record mpu8 : Set := MPU8 { r_regions : Z -> Z * Z; r_selected : Z; r_ctrl : Z }.

#[export] Instance mpu8_hw : MpuHw mpu8 := {
  mpu_rd a h :=
    if a =? MPU_TYPE then 0x800 else if a =? MPU_CTRL then r_ctrl h else
    if a =? MPU_RNR then r_selected h else
    if a =? MPU_RBAR then fst (r_regions h (r_selected h)) else snd (r_regions h (r_selected h));
  mpu_wr a v h :=
    if a =? MPU_CTRL then MPU8 (r_regions h) (r_selected h) v else
    if a =? MPU_RNR then MPU8 (r_regions h) v (r_ctrl h) else
    if a =? MPU_RBAR then
      let sel := if Z.testbit v 4 then v mod 16 else r_selected h in
      MPU8 (fun x => if decide (x = sel) then (Z.land v MPU_RBAR_ADDR_MASK, snd (r_regions h x)) else r_regions h x)
        sel (r_ctrl h) else
    if a =? MPU_RASR then
      MPU8 (fun x => if decide (x = r_selected h) then (fst (r_regions h x), v) else r_regions h x)
        (r_selected h) (r_ctrl h) else h
}.

#[export] Instance mpu8_laws : MpuLaws mpu8.
Proof.
  refine {| mpu_region := r_regions; mpu_selected := r_selected |}; try done.
  - intros v h Hv. cbv [mpu_wr mpu8_hw].
    change (MPU_RBAR =? MPU_CTRL) with false. change (MPU_RBAR =? MPU_RNR) with false.
    change (MPU_RBAR =? MPU_RBAR) with true. cbv iota. by rewrite Hv.
Defined.

Lemma efence_guards_stack_witness :
  mpu_region (snd (_isix_port_memory_protection_set_efence 0x20000404 (true, MPU8 (fun _ => (0, 0)) 0 0))) 7 =
    (0x20000420, 0x10000009) /\
  fst (_isix_port_memory_protection_set_efence 0x20000404 (true, MPU8 (fun _ => (0, 0)) 0 0)) = false.
Proof.
  split; [reflexivity|].
  apply (efence_guards_stack 8 0x20000404 true (MPU8 (fun _ => (0, 0)) 0 0)); [reflexivity|lia|lia].
Defined.

End Mpu.
