(* ===== verification/Irq.v ===== *)
(** * The interrupt controller

    [irq_platform.c] and [irq_platform.h] of the Cortex-M port: the encoding of priorities under
    the current grouping, the test whether the kernel masks a priority, the enable and pending
    bits, the priority bytes and the mask of priorities.  The registers are an interface
    ([IrqHw]: words, bytes and the mask register), whose documented behaviour is the class
    [IrqLaws]; a controller of 240 interrupts is an instance. *)

From S2P Require Import Prelude.
From stdpp Require Import base numbers list.
From Stdlib Require Import ZArith Lia.
Local Open Scope Z_scope.

Module Irq.

Definition CONFIG_ISIX_NVIC_PRIO_BITS : Z := 4.
Definition ISIX_MAX_SYSCALL_INTERRUPT_PRIORITY : Z := 0x10.

(** ** Addresses *)

Definition SCS_BASE : Z := 0xE000E000.
Definition NVIC_BASE : Z := SCS_BASE + 0x0100.
Definition SCB_BASE : Z := SCS_BASE + 0x0D00.
Definition STIR_BASE : Z := SCS_BASE + 0x0F00.

Definition NVIC_ISER (iser_id : Z) : Z := u32 (NVIC_BASE + 0x00 + iser_id * 4).
Definition NVIC_ICER (icer_id : Z) : Z := u32 (NVIC_BASE + 0x80 + icer_id * 4).
Definition NVIC_ISPR (ispr_id : Z) : Z := u32 (NVIC_BASE + 0x100 + ispr_id * 4).
Definition NVIC_ICPR (icpr_id : Z) : Z := u32 (NVIC_BASE + 0x180 + icpr_id * 4).
Definition NVIC_IABR (iabr_id : Z) : Z := u32 (NVIC_BASE + 0x200 + iabr_id * 4).
Definition NVIC_IPR (ipr_id : Z) : Z := u32 (NVIC_BASE + 0x300 + ipr_id).
Definition NVIC_STIR : Z := STIR_BASE.
Definition SCS_SHPR (ipr_id : Z) : Z := u32 (SCS_BASE + 0xD18 + ipr_id).
Definition SCB_VTOR : Z := SCB_BASE + 0x08.
Definition SCB_AIRCR : Z := SCB_BASE + 0x0C.
Definition SCB_SCR : Z := SCB_BASE + 0x10.
Definition SCB_AIRCR_VECTKEY : Z := Z.shiftl 0x05FA 16.
Definition SCB_AIRCR_SYSRESETREQ : Z := Z.shiftl 1 2.
Definition SCB_SCR_SEVEONPEND : Z := Z.shiftl 1 4.

(** ** Registers *)

(** Words and bytes by address, and the mask register [BASEPRI]. *)
Class IrqHw (hw : Type) := {
  rd32 : Z -> hw -> Z;
  wr32 : Z -> Z -> hw -> hw;
  rd8 : Z -> hw -> Z;
  wr8 : Z -> Z -> hw -> hw;
  rd_basepri : hw -> Z;
  wr_basepri : Z -> hw -> hw
}.

Record isix_irq_prio_t : Set := IrqPrio { prio : Z; subp : Z }.

(** The number of bits of the priority and the sub-priority for a grouping. *)
Definition prio_bits (pgrp : Z) : Z :=
  if CONFIG_ISIX_NVIC_PRIO_BITS <? u32 (7 - pgrp) then CONFIG_ISIX_NVIC_PRIO_BITS else u32 (7 - pgrp).

Definition sub_bits (pgrp : Z) : Z :=
  if u32 (pgrp + CONFIG_ISIX_NVIC_PRIO_BITS) <? 7 then 0
  else u32 (u32 (pgrp - 7) + CONFIG_ISIX_NVIC_PRIO_BITS).

(** The interrupt numbers are split with the division of C; a shift by a negative number has no
    value. *)
Definition irq_word (irqno : Z) : Z := Z.quot irqno 32.
Definition irq_bit (irqno : Z) : option Z :=
  if Z.rem irqno 32 <? 0 then None else Some (Z.shiftl 1 (Z.rem irqno 32)).
Definition irq_flag (irqno w : Z) : bool := negb (Z.land w (Z.shiftl 1 (u32 irqno mod 32)) =? 0).

Section Operations.
Context {hw : Type} {IH : IrqHw hw}.
Implicit Types h : hw.

Definition pri_group h : Z := Z.shiftr (Z.land (rd32 SCB_AIRCR h) 0x700) 8.

Definition nvic_encode_prio (p : isix_irq_prio_t) h : Z :=
  let pgrp := pri_group h in
  let pb := prio_bits pgrp in
  let sb := sub_bits pgrp in
  let encoded := Z.lor (Z.shiftl (Z.land (prio p) (Z.shiftl 1 pb - 1)) sb)
                       (Z.land (subp p) (Z.shiftl 1 sb - 1)) in
  Z.land (u32 (Z.shiftl encoded (8 - CONFIG_ISIX_NVIC_PRIO_BITS))) 0xFF.

Definition isix_irq_priority_to_raw_priority (p : isix_irq_prio_t) h : Z := u8 (nvic_encode_prio p h).

Definition isix_request_irq (irqno : Z) h : option hw :=
  b ← irq_bit irqno; Some (wr32 (NVIC_ISER (irq_word irqno)) b h).

Definition isix_free_irq (irqno : Z) h : option hw :=
  b ← irq_bit irqno; Some (wr32 (NVIC_ICER (irq_word irqno)) b h).

Definition isix_get_irq_enabled (irqno : Z) h : bool := irq_flag irqno (rd32 (NVIC_ISER (irq_word irqno)) h).

Definition isix_get_irq_pending (irqno : Z) h : bool := irq_flag irqno (rd32 (NVIC_ISPR (irq_word irqno)) h).

Definition isix_set_irq_pending (irqno : Z) h : option hw :=
  b ← irq_bit irqno; Some (wr32 (NVIC_ISPR (irq_word irqno)) b h).

Definition isix_clear_irq_pending (irqno : Z) h : option hw :=
  b ← irq_bit irqno; Some (wr32 (NVIC_ICPR (irq_word irqno)) b h).

Definition isix_get_active_irq (irqno : Z) h : bool := irq_flag irqno (rd32 (NVIC_IABR (irq_word irqno)) h).

Definition isix_mask_irq_restore_priority (p : Z) h : hw := wr_basepri p h.

Definition isix_umask_irq_priority h : hw := isix_mask_irq_restore_priority 0 h.

Definition isix_mask_irq_priority (priority : isix_irq_prio_t) h : hw :=
  isix_mask_irq_restore_priority (u8 (nvic_encode_prio priority h)) h.

Definition isix_mask_irq_save_priority (new_prio : isix_irq_prio_t) h : Z * hw :=
  let p := nvic_encode_prio new_prio h in
  (u8 (rd_basepri h), wr_basepri p h).

Definition isix_irq_raw_priority_is_kernel_masked (raw : Z) h : bool :=
  let pgrp := pri_group h in
  let group_mask := Z.land (Z.lxor 0xffffffff (Z.shiftl 2 pgrp - 1)) 0xFF in
  Z.land ISIX_MAX_SYSCALL_INTERRUPT_PRIORITY group_mask <=? Z.land raw group_mask.

(** The address of the priority of an interrupt: the system interrupts have negative numbers. *)
Definition irq_prio_addr (irqno : Z) : Z :=
  if irqno <? 0 then SCS_SHPR (Z.land irqno 0xF - 4) else NVIC_IPR irqno.

Definition isix_set_raw_irq_priority (irqno p : Z) h : hw := wr8 (irq_prio_addr irqno) p h.

Definition isix_get_raw_irq_priority (irqno : Z) h : Z := rd8 (irq_prio_addr irqno) h.

Definition isix_set_irq_priority (irqno : Z) (priority : isix_irq_prio_t) h : hw :=
  let rawprio := u8 (nvic_encode_prio priority h) in
  isix_set_raw_irq_priority irqno rawprio h.

Definition isix_generate_software_interrupt (irqno : Z) h : hw :=
  if irqno <=? 239 then wr32 NVIC_STIR (Z.lor (rd32 NVIC_STIR h) (u32 irqno)) h else h.

Definition isix_event_irq_pending (en : bool) h : hw :=
  if en then wr32 SCB_SCR (Z.lor (rd32 SCB_SCR h) SCB_SCR_SEVEONPEND) h
  else wr32 SCB_SCR (Z.land (rd32 SCB_SCR h) (Z.lxor 0xffffffff SCB_SCR_SEVEONPEND)) h.

Definition isix_set_irq_priority_group (prigroup : Z) h : hw :=
  wr32 SCB_AIRCR (Z.lor SCB_AIRCR_VECTKEY prigroup) h.

(** The request for the reset; the code then spins until it happens. *)
Definition _isix_port_system_reset h : hw := wr32 SCB_AIRCR (Z.lor SCB_AIRCR_VECTKEY SCB_AIRCR_SYSRESETREQ) h.

Definition isix_set_irq_vectors_base (vecptr : Z) h : hw :=
  wr32 SCB_VTOR (Z.land vecptr (Z.lxor 0xffffffff 0x7f)) h.

End Operations.

(** ** What the controller is documented to do *)

(** The interrupts with a number up to [irq_count] exist, and the system interrupts with a
    programmable priority. *)
Definition system_irq (n : Z) : bool :=
  bool_decide (n ∈ [-12; -11; -10; -5; -4; -2; -1]).

Class IrqLaws (hw : Type) {IH : IrqHw hw} := {
  irq_count : Z;
  irq_count_range : 0 <= irq_count <= 240;
  enabled : hw -> Z -> bool;
  pending : hw -> Z -> bool;
  grouping : hw -> Z;
  law_iser_rd : forall h n, 0 <= n < irq_count -> Z.testbit (rd32 (NVIC_ISER (n / 32)) h) (n mod 32) = enabled h n;
  law_ispr_rd : forall h n, 0 <= n < irq_count -> Z.testbit (rd32 (NVIC_ISPR (n / 32)) h) (n mod 32) = pending h n;
  law_iser_wr : forall w v h n, 0 <= w < 8 -> 0 <= n < irq_count ->
    enabled (wr32 (NVIC_ISER w) v h) n = enabled h n || ((n / 32 =? w) && Z.testbit v (n mod 32));
  law_icer_wr : forall w v h n, 0 <= w < 8 -> 0 <= n < irq_count ->
    enabled (wr32 (NVIC_ICER w) v h) n = enabled h n && negb ((n / 32 =? w) && Z.testbit v (n mod 32));
  law_ispr_wr : forall w v h n, 0 <= w < 8 -> 0 <= n < irq_count ->
    pending (wr32 (NVIC_ISPR w) v h) n = pending h n || ((n / 32 =? w) && Z.testbit v (n mod 32));
  law_icpr_wr : forall w v h n, 0 <= w < 8 -> 0 <= n < irq_count ->
    pending (wr32 (NVIC_ICPR w) v h) n = pending h n && negb ((n / 32 =? w) && Z.testbit v (n mod 32));
  law_enable_pending : forall w v h n, 0 <= w < 8 -> 0 <= n < irq_count ->
    pending (wr32 (NVIC_ISER w) v h) n = pending h n /\ pending (wr32 (NVIC_ICER w) v h) n = pending h n;
  law_pending_enable : forall w v h n, 0 <= w < 8 -> 0 <= n < irq_count ->
    enabled (wr32 (NVIC_ISPR w) v h) n = enabled h n /\ enabled (wr32 (NVIC_ICPR w) v h) n = enabled h n;
  law_pr_rd : forall h n m v,
    (0 <= n < irq_count \/ system_irq n = true) -> (0 <= m < irq_count \/ system_irq m = true) ->
    rd8 (irq_prio_addr n) (wr8 (irq_prio_addr m) v h) =
      if decide (n = m) then Z.land v 0xF0 else rd8 (irq_prio_addr n) h;
  law_pr_group : forall m v h, (0 <= m < irq_count \/ system_irq m = true) ->
    grouping (wr8 (irq_prio_addr m) v h) = grouping h;
  law_aircr_rd : forall h, 0 <= grouping h < 8 /\ Z.shiftr (Z.land (rd32 SCB_AIRCR h) 0x700) 8 = grouping h;
  law_aircr_wr : forall g h, 0 <= g < 8 ->
    grouping (wr32 SCB_AIRCR (Z.lor SCB_AIRCR_VECTKEY (Z.shiftl g 8)) h) = g
}.

(** ** Priorities *)

(** The part of a priority byte the controller compares for preemption. *)
Definition preempt_level (g raw : Z) : Z := raw / 2 ^ (g + 1).

Ltac groupings g := 
  assert (g = 0 \/ g = 1 \/ g = 2 \/ g = 3 \/ g = 4 \/ g = 5 \/ g = 6 \/ g = 7) as Hgroup by lia;
  repeat destruct Hgroup as [->|Hgroup]; try subst g.

(** Powers of two with closed exponents as numbers. *)
Ltac eval_pow2 :=
  repeat match goal with
  | H : context [2 ^ ?e] |- _ => let v := eval vm_compute in (2 ^ e) in
      lazymatch v with Z0 => idtac | Zpos _ => idtac end; progress change (2 ^ e) with v in H
  | |- context [2 ^ ?e] => let v := eval vm_compute in (2 ^ e) in
      lazymatch v with Z0 => idtac | Zpos _ => idtac end; progress change (2 ^ e) with v
  end.

Lemma bits_split g : 0 <= g < 8 -> 0 <= prio_bits g /\ 0 <= sub_bits g /\ prio_bits g + sub_bits g = 4.
Proof. intros Hg. groupings g; split_and!; by vm_compute. Qed.

(** A field above another one. *)
Lemma lor_shiftl_add a b n : 0 <= n -> 0 <= b < 2 ^ n -> Z.lor (Z.shiftl a n) b = a * 2 ^ n + b.
Proof.
  intros Hn Hb. rewrite <- Z.shiftl_mul_pow2 by done.
  assert (Z.land (Z.shiftl a n) b = 0) as Hand.
  { apply Z.bits_inj'. intros i Hi. rewrite Z.land_spec, Z.bits_0. destruct (Z.ltb_spec i n).
    - by rewrite Z.shiftl_spec_low by done.
    - rewrite <- (Z.mod_small b (2 ^ n)), Z.mod_pow2_bits_high by lia. apply andb_false_r. }
  rewrite <- Z.lxor_lor by done. symmetry. by apply Z.add_nocarry_lxor.
Qed.

Section Priorities.
Context {hw : Type} {IH : IrqHw hw} {IL : IrqLaws hw}.
Implicit Types h : hw.

(** A priority that fits the fields of the grouping. *)
Definition prio_fits h (p : isix_irq_prio_t) : Prop :=
  0 <= prio p < 2 ^ prio_bits (grouping h) /\ 0 <= subp p < 2 ^ sub_bits (grouping h).

Lemma pri_group_eq h : pri_group h = grouping h.
Proof. apply law_aircr_rd. Qed.

Lemma nvic_encode_prio_eq p h :
  prio_fits h p -> nvic_encode_prio p h = (prio p * 2 ^ sub_bits (grouping h) + subp p) * 16.
Proof.
  intros [Hp Hs]. unfold nvic_encode_prio. rewrite pri_group_eq. destruct (law_aircr_rd h) as [Hg _].
  destruct (bits_split _ Hg) as (Hpb & Hsb & Hsum). set (pb := prio_bits _) in *. set (sb := sub_bits _) in *.
  rewrite !Z.shiftl_1_l. replace (2 ^ pb - 1) with (Z.ones pb) by (rewrite Z.ones_equiv; lia).
  replace (2 ^ sb - 1) with (Z.ones sb) by (rewrite Z.ones_equiv; lia). rewrite !Z.land_ones, !Z.mod_small by lia.
  rewrite lor_shiftl_add by done. rewrite Z.shiftl_mul_pow2 by done. change (2 ^ (8 - CONFIG_ISIX_NVIC_PRIO_BITS)) with 16.
  assert (prio p * 2 ^ sb + subp p < 16).
  { assert (2 ^ pb * 2 ^ sb = 16) as H16 by (rewrite <- Z.pow_add_r, Hsum by done; done). nia. }
  rewrite u32_id by (unfold in_u32; nia). change 0xFF with (Z.ones 8). rewrite Z.land_ones by done.
  apply Z.mod_small. change (2 ^ 8) with 256. nia.
Qed.

(** The encoding keeps the order: the levels for preemption are ordered as the priorities, the
    bytes as priorities and sub-priorities together, and every byte fits the bits of the
    controller. *)
Lemma encode_order p q h :
  prio_fits h p -> prio_fits h q ->
  let a := nvic_encode_prio p h in let b := nvic_encode_prio q h in
  0 <= a < 256 /\ Z.land a 0xF0 = a /\
  (preempt_level (grouping h) a < preempt_level (grouping h) b <-> prio p < prio q) /\
  (a < b <-> prio p < prio q \/ prio p = prio q /\ subp p < subp q).
Proof.
  intros Hp Hq a b. unfold a, b. rewrite !nvic_encode_prio_eq by done. destruct Hp as [Hp1 Hp2], Hq as [Hq1 Hq2].
  destruct (law_aircr_rd h) as [Hg _]. unfold preempt_level.
  assert (forall x, 0 <= x < 16 -> Z.land (x * 16) 0xF0 = x * 16) as Hland.
  { intros x Hx. change 0xF0 with (Z.shiftl (Z.ones 4) 4). change 16 with (2 ^ 4) at 1 2. rewrite <- Z.shiftl_mul_pow2 by done.
    by rewrite <- Z.shiftl_land, Z.land_ones, Z.mod_small by done. }
  set (g := grouping h) in *. clearbody g.
  groupings g; eval_pow2; split_and!; try (apply Hland); Z.to_euclidean_division_equations; lia.
Qed.

(** The test of the kernel is that of the controller: a byte is masked exactly when its level is
    not below that of the mask the kernel writes. *)
Lemma kernel_masked_level raw h :
  0 <= raw < 256 ->
  isix_irq_raw_priority_is_kernel_masked raw h =
    negb (preempt_level (grouping h) raw <? preempt_level (grouping h) ISIX_MAX_SYSCALL_INTERRUPT_PRIORITY).
Proof.
  intros Hraw. unfold isix_irq_raw_priority_is_kernel_masked. rewrite pri_group_eq.
  destruct (law_aircr_rd h) as [Hg _]. set (g := grouping h) in *. clearbody g.
  assert (forallb (fun g => forallb (fun raw =>
    Bool.eqb (Z.land ISIX_MAX_SYSCALL_INTERRUPT_PRIORITY (Z.land (Z.lxor 0xffffffff (Z.shiftl 2 g - 1)) 0xFF) <=?
              Z.land raw (Z.land (Z.lxor 0xffffffff (Z.shiftl 2 g - 1)) 0xFF))
             (negb (preempt_level g raw <? preempt_level g ISIX_MAX_SYSCALL_INTERRUPT_PRIORITY))) (seqZ 0 256)) (seqZ 0 8) = true)
    as Hall by (vm_compute; reflexivity).
  rewrite forallb_forall in Hall. specialize (Hall g). rewrite forallb_forall in Hall.
  apply Bool.eqb_prop, Hall; apply list_elem_of_In, elem_of_seqZ; lia.
Qed.

(** Numbers of interrupts with a programmable priority. *)
Definition programmable (n : Z) : Prop := 0 <= n < irq_count (hw := hw) \/ system_irq n = true.

(** Setting the priority of an interrupt sets the byte that encodes it and no other one, and
    the kernel's test tells exactly whether the interrupt can preempt a critical section; in a
    grouping that uses all bits for the priority these are the interrupts of priority 0. *)
Theorem set_irq_priority_masks n p h :
  programmable n -> prio_fits h p ->
  let h' := isix_set_irq_priority n p h in
  let raw := isix_get_raw_irq_priority n h' in
  raw = isix_irq_priority_to_raw_priority p h /\ prio_fits h' p /\
  (forall m, programmable m -> m <> n -> isix_get_raw_irq_priority m h' = isix_get_raw_irq_priority m h) /\
  isix_irq_raw_priority_is_kernel_masked raw h' =
    negb (preempt_level (grouping h) raw <? preempt_level (grouping h) ISIX_MAX_SYSCALL_INTERRUPT_PRIORITY) /\
  (grouping h <= 3 -> isix_irq_raw_priority_is_kernel_masked raw h' = negb (prio p =? 0)).
Proof.
  intros Hn Hp h' raw. destruct (encode_order p p h Hp Hp) as (Hr & Hf & _). set (a := nvic_encode_prio p h) in *.
  assert (u8 a = a) as E8 by (unfold u8; apply Z.mod_small; lia).
  assert (grouping h' = grouping h) as Hgr by (by apply law_pr_group).
  assert (raw = a) as Eraw.
  { unfold raw, h', isix_get_raw_irq_priority, isix_set_irq_priority, isix_set_raw_irq_priority. fold a.
    by rewrite law_pr_rd, decide_True, E8. }
  assert (isix_irq_raw_priority_is_kernel_masked raw h' =
    negb (preempt_level (grouping h) raw <? preempt_level (grouping h) ISIX_MAX_SYSCALL_INTERRUPT_PRIORITY)) as Hm.
  { by rewrite kernel_masked_level, Hgr by (rewrite Eraw; lia). }
  split_and!; [by rewrite Eraw|unfold prio_fits; by rewrite Hgr| |exact Hm|].
  - intros m Hm' Hne. unfold h', isix_get_raw_irq_priority, isix_set_irq_priority, isix_set_raw_irq_priority.
    by rewrite law_pr_rd, decide_False.
  - intros Hg3. rewrite Hm. f_equal. rewrite Eraw. unfold a. rewrite nvic_encode_prio_eq by done. destruct Hp as [Hp1 Hp2].
    destruct (law_aircr_rd h) as [Hg _]. unfold preempt_level. set (g := grouping h) in *. clearbody g.
    change ISIX_MAX_SYSCALL_INTERRUPT_PRIORITY with 16.
    groupings g; try lia; eval_pow2; destruct (Z.eqb_spec (prio p) 0); 
      first [apply Z.ltb_lt | apply Z.ltb_ge]; Z.to_euclidean_division_equations; lia.
Qed.

End Priorities.

(** ** Enable and pending bits *)

Section Bits.
Context {hw : Type} {IH : IrqHw hw} {IL : IrqLaws hw}.
Implicit Types h : hw.

(** The word and the bit that the functions compute for an existing interrupt. *)
Lemma irq_place n : 0 <= n < irq_count (hw := hw) ->
  irq_word n = n / 32 /\ 0 <= n / 32 < 8 /\ irq_bit n = Some (2 ^ (n mod 32)) /\
  forall w, irq_flag n w = Z.testbit w (n mod 32).
Proof.
  intros Hn. pose proof (irq_count_range (hw := hw)). unfold irq_word, irq_bit, irq_flag.
  rewrite Z.quot_div_nonneg, Z.rem_mod_nonneg by lia. pose proof (Z.mod_pos_bound n 32).
  pose proof (Z.div_pos n 32). pose proof (Z.div_lt_upper_bound n 32 8). split_and!; [done|lia|lia| |].
  - rewrite (proj2 (Z.ltb_ge _ _)) by lia. by rewrite Z.shiftl_1_l.
  - intros w. rewrite u32_id by (unfold in_u32; lia). rewrite Z.shiftl_1_l. set (k := n mod 32) in *.
    destruct (Z.testbit w k) eqn:E.
    + apply negb_true_iff, Z.eqb_neq. intros Hz. assert (Z.testbit (Z.land w (2 ^ k)) k = true) as Ht.
      { by rewrite Z.land_spec, E, Z.pow2_bits_true by lia. }
      by rewrite Hz, Z.bits_0 in Ht.
    + apply negb_false_iff, Z.eqb_eq. apply Z.bits_inj'. intros i Hi. rewrite Z.land_spec, Z.bits_0.
      destruct (decide (i = k)) as [->|]; [by rewrite E|]. rewrite Z.pow2_bits_false by lia. apply andb_false_r.
Qed.

(** A single bit of a word addresses a single interrupt. *)
Lemma one_bit n x : 0 <= n -> 0 <= x ->
  (x / 32 =? n / 32) && Z.testbit (2 ^ (n mod 32)) (x mod 32) = (x =? n).
Proof.
  intros Hn Hx. pose proof (Z.mod_pos_bound n 32). pose proof (Z.mod_pos_bound x 32).
  rewrite Z.pow2_bits_eqb by lia. pose proof (Z.div_mod n 32). pose proof (Z.div_mod x 32).
  destruct (Z.eqb_spec (x / 32) (n / 32)), (Z.eqb_spec (n mod 32) (x mod 32)), (Z.eqb_spec x n); cbn; try done; subst; lia.
Qed.

Lemma enabled_reads n h : 0 <= n < irq_count (hw := hw) -> isix_get_irq_enabled n h = enabled h n.
Proof.
  intros Hn. destruct (irq_place n Hn) as (Hw & _ & _ & Hf). unfold isix_get_irq_enabled.
  rewrite Hw, Hf. by apply law_iser_rd.
Qed.

Lemma pending_reads n h : 0 <= n < irq_count (hw := hw) -> isix_get_irq_pending n h = pending h n.
Proof.
  intros Hn. destruct (irq_place n Hn) as (Hw & _ & _ & Hf). unfold isix_get_irq_pending.
  rewrite Hw, Hf. by apply law_ispr_rd.
Qed.

(** Requesting and freeing an interrupt switch exactly the enable bit of that interrupt, setting
    and clearing exactly its pending bit: every reading function returns the new value for it
    and the former one for all others. *)
Theorem irq_bits_exact n h :
  0 <= n < irq_count (hw := hw) ->
  exists h1 h2 h3 h4,
    isix_request_irq n h = Some h1 /\ isix_free_irq n h = Some h2 /\
    isix_set_irq_pending n h = Some h3 /\ isix_clear_irq_pending n h = Some h4 /\
    forall x, 0 <= x < irq_count (hw := hw) ->
      isix_get_irq_enabled x h1 = (x =? n) || isix_get_irq_enabled x h /\
      isix_get_irq_enabled x h2 = negb (x =? n) && isix_get_irq_enabled x h /\
      isix_get_irq_pending x h3 = (x =? n) || isix_get_irq_pending x h /\
      isix_get_irq_pending x h4 = negb (x =? n) && isix_get_irq_pending x h /\
      isix_get_irq_pending x h1 = isix_get_irq_pending x h /\ isix_get_irq_pending x h2 = isix_get_irq_pending x h /\
      isix_get_irq_enabled x h3 = isix_get_irq_enabled x h /\ isix_get_irq_enabled x h4 = isix_get_irq_enabled x h.
Proof.
  intros Hn. destruct (irq_place n Hn) as (Hw & Hrange & Hb & _).
  unfold isix_request_irq, isix_free_irq, isix_set_irq_pending, isix_clear_irq_pending. rewrite Hb, Hw. simpl.
  eexists _, _, _, _. do 4 (split; [reflexivity|]). intros x Hx. rewrite !enabled_reads, !pending_reads by done.
  destruct (law_enable_pending (n / 32) (2 ^ (n mod 32)) h x), (law_pending_enable (n / 32) (2 ^ (n mod 32)) h x); try done.
  rewrite law_iser_wr, law_icer_wr, law_ispr_wr, law_icpr_wr, one_bit by lia.
  split_and!; try done; try apply orb_comm; apply andb_comm.
Qed.

End Bits.

(** ** A controller of 240 interrupts *)

(** The enable and pending words, the priority bytes by address and the grouping. *)
Record nvic : Type := Nvic {
  n_enable : Z -> Z; n_pend : Z -> Z; n_prio : Z -> Z; n_group : Z; n_mask : Z
}.

(** The word a register address of a bank of eight words stands for. *)
Definition bank (base a : Z) : option Z :=
  if (base <=? a) && (a <? base + 32) then Some ((a - base) / 4) else None.

Definition upd (f : Z -> Z) (k v : Z) : Z -> Z := fun x => if decide (x = k) then v else f x.

#[export] Instance nvic_hw : IrqHw nvic := {
  rd32 a h :=
    match bank (NVIC_ISER 0) a with Some w => n_enable h w | None =>
    match bank (NVIC_ICER 0) a with Some w => n_enable h w | None =>
    match bank (NVIC_ISPR 0) a with Some w => n_pend h w | None =>
    match bank (NVIC_ICPR 0) a with Some w => n_pend h w | None =>
    if a =? SCB_AIRCR then Z.lor 0xFA050000 (Z.shiftl (n_group h mod 8) 8) else 0 end end end end;
  wr32 a v h :=
    match bank (NVIC_ISER 0) a with
    | Some w => Nvic (upd (n_enable h) w (Z.lor (n_enable h w) v)) (n_pend h) (n_prio h) (n_group h) (n_mask h)
    | None => match bank (NVIC_ICER 0) a with
    | Some w => Nvic (upd (n_enable h) w (Z.ldiff (n_enable h w) v)) (n_pend h) (n_prio h) (n_group h) (n_mask h)
    | None => match bank (NVIC_ISPR 0) a with
    | Some w => Nvic (n_enable h) (upd (n_pend h) w (Z.lor (n_pend h w) v)) (n_prio h) (n_group h) (n_mask h)
    | None => match bank (NVIC_ICPR 0) a with
    | Some w => Nvic (n_enable h) (upd (n_pend h) w (Z.ldiff (n_pend h w) v)) (n_prio h) (n_group h) (n_mask h)
    | None => if (a =? SCB_AIRCR) && (Z.shiftr v 16 =? 0x05FA)
              then Nvic (n_enable h) (n_pend h) (n_prio h) (Z.shiftr v 8 mod 8) (n_mask h) else h
    end end end end;
  rd8 a h := n_prio h a;
  wr8 a v h := Nvic (n_enable h) (n_pend h) (upd (n_prio h) a (Z.land v 0xF0)) (n_group h) (n_mask h);
  rd_basepri := n_mask;
  wr_basepri v h := Nvic (n_enable h) (n_pend h) (n_prio h) (n_group h) (Z.land v 0xF0)
}.

Ltac eight w := 
  assert (w = 0 \/ w = 1 \/ w = 2 \/ w = 3 \/ w = 4 \/ w = 5 \/ w = 6 \/ w = 7) as Height by lia;
  repeat destruct Height as [->|Height]; try subst w; try reflexivity.

(** What a write to a word of a bank does. *)
Lemma wr_iser w v h : 0 <= w < 8 -> wr32 (NVIC_ISER w) v h =
  Nvic (upd (n_enable h) w (Z.lor (n_enable h w) v)) (n_pend h) (n_prio h) (n_group h) (n_mask h).
Proof. intros Hw. eight w. Qed.
Lemma wr_icer w v h : 0 <= w < 8 -> wr32 (NVIC_ICER w) v h =
  Nvic (upd (n_enable h) w (Z.ldiff (n_enable h w) v)) (n_pend h) (n_prio h) (n_group h) (n_mask h).
Proof. intros Hw. eight w. Qed.
Lemma wr_ispr w v h : 0 <= w < 8 -> wr32 (NVIC_ISPR w) v h =
  Nvic (n_enable h) (upd (n_pend h) w (Z.lor (n_pend h w) v)) (n_prio h) (n_group h) (n_mask h).
Proof. intros Hw. eight w. Qed.
Lemma wr_icpr w v h : 0 <= w < 8 -> wr32 (NVIC_ICPR w) v h =
  Nvic (n_enable h) (upd (n_pend h) w (Z.ldiff (n_pend h w) v)) (n_prio h) (n_group h) (n_mask h).
Proof. intros Hw. eight w. Qed.

Lemma upd_lor_bit f n w v : Z.testbit (upd f w (Z.lor (f w) v) (n / 32)) (n mod 32) =
  Z.testbit (f (n / 32)) (n mod 32) || ((n / 32 =? w) && Z.testbit v (n mod 32)).
Proof.
  unfold upd. destruct (decide (n / 32 = w)) as [<-|Hne].
  - by rewrite Z.lor_spec, Z.eqb_refl.
  - by rewrite (proj2 (Z.eqb_neq _ _) Hne), orb_false_r.
Qed.

Lemma upd_ldiff_bit f n w v : Z.testbit (upd f w (Z.ldiff (f w) v) (n / 32)) (n mod 32) =
  Z.testbit (f (n / 32)) (n mod 32) && negb ((n / 32 =? w) && Z.testbit v (n mod 32)).
Proof.
  unfold upd. destruct (decide (n / 32 = w)) as [<-|Hne].
  - by rewrite Z.ldiff_spec, Z.eqb_refl.
  - by rewrite (proj2 (Z.eqb_neq _ _) Hne), andb_true_r.
Qed.

(** The priority bytes of two interrupts are two bytes. *)
Lemma irq_prio_addr_inj n m :
  (0 <= n < 240 \/ system_irq n = true) -> (0 <= m < 240 \/ system_irq m = true) ->
  irq_prio_addr n = irq_prio_addr m -> n = m.
Proof.
  assert (forall k, (0 <= k < 240 \/ system_irq k = true) ->
    (0 <= k < 240 /\ irq_prio_addr k = 0xE000E400 + k) \/ (-12 <= k < 0 /\ irq_prio_addr k = 0xE000ED24 + k)) as Hcase.
  { intros k [Hk|Hk].
    - left. split; [done|]. unfold irq_prio_addr. rewrite (proj2 (Z.ltb_ge _ _)) by lia. unfold NVIC_IPR.
      rewrite u32_id by (unfold in_u32, NVIC_BASE, SCS_BASE; lia). unfold NVIC_BASE, SCS_BASE. lia.
    - right. apply bool_decide_eq_true in Hk. rewrite !elem_of_cons, elem_of_nil in Hk.
      repeat destruct Hk as [->|Hk]; try done; by split. }
  intros Hn Hm E. destruct (Hcase n Hn) as [[? E1]|[? E1]], (Hcase m Hm) as [[? E2]|[? E2]]; lia.
Qed.

#[export] Instance nvic_laws : IrqLaws nvic.
Proof.
  refine {| irq_count := 240;
            enabled h n := Z.testbit (n_enable h (n / 32)) (n mod 32);
            pending h n := Z.testbit (n_pend h (n / 32)) (n mod 32);
            grouping h := n_group h mod 8 |}.
  - lia.
  - intros h n Hn. assert (0 <= n / 32 < 8) as Hw by (Z.to_euclidean_division_equations; lia).
    set (w := n / 32) in *. clearbody w. eight w.
  - intros h n Hn. assert (0 <= n / 32 < 8) as Hw by (Z.to_euclidean_division_equations; lia).
    set (w := n / 32) in *. clearbody w. eight w.
  - intros w v h n Hw Hn. rewrite wr_iser by done. apply upd_lor_bit.
  - intros w v h n Hw Hn. rewrite wr_icer by done. apply upd_ldiff_bit.
  - intros w v h n Hw Hn. rewrite wr_ispr by done. apply upd_lor_bit.
  - intros w v h n Hw Hn. rewrite wr_icpr by done. apply upd_ldiff_bit.
  - intros w v h n Hw Hn. by rewrite wr_iser, wr_icer by done.
  - intros w v h n Hw Hn. by rewrite wr_ispr, wr_icpr by done.
  - intros h n m v Hn Hm. cbn [rd8 wr8 nvic_hw n_prio]. unfold upd. destruct (decide (n = m)) as [->|Hne].
    + by rewrite decide_True.
    + rewrite decide_False; [done|]. intros E. by apply Hne, irq_prio_addr_inj.
  - intros m v h Hm. done.
  - intros h. assert (0 <= n_group h mod 8 < 8) as Hg by (apply Z.mod_pos_bound; lia). split; [done|].
    change (rd32 SCB_AIRCR h) with (Z.lor 0xFA050000 (Z.shiftl (n_group h mod 8) 8)).
    set (g := n_group h mod 8) in *. clearbody g. groupings g; reflexivity.
  - intros g h Hg. groupings g; reflexivity.
Defined.

Definition nvic_reset : nvic := Nvic (fun _ => 0) (fun _ => 0) (fun _ => 0) 3 0.

Lemma set_irq_priority_masks_witness :
  isix_get_raw_irq_priority (-1) (isix_set_irq_priority (-1) (IrqPrio 15 0) nvic_reset) = 0xF0 /\
  isix_irq_raw_priority_is_kernel_masked 0xF0 (isix_set_irq_priority (-1) (IrqPrio 15 0) nvic_reset) = true.
Proof.
  split; [reflexivity|].
  destruct (set_irq_priority_masks (-1) (IrqPrio 15 0) nvic_reset) as (_ & _ & _ & _ & Hm).
  - right. reflexivity.
  - split; vm_compute; split; congruence.
  - exact (Hm ltac:(vm_compute; congruence)).
Defined.

Lemma irq_bits_exact_witness : exists h, isix_request_irq 37 nvic_reset = Some h /\ isix_get_irq_enabled 37 h = true.
Proof.
  destruct (irq_bits_exact 37 nvic_reset) as (h1 & h2 & h3 & h4 & H1 & _ & _ & _ & Hx); [vm_compute; split; congruence|].
  exists h1. split; [exact H1|]. destruct (Hx 37) as (E & _); [vm_compute; split; congruence|exact E].
Defined.

End Irq.
