(* ===== verification/TinyAlloc.v ===== *)
(** * The heap of builds without the kernel

    [tiny_alloc.c]: a first fit allocator like that of the kernel ([Seqfit]) with another
    rounding, without the counter of used bytes and without the checks for a null pointer and
    the magic number.  A simulation relates the two, so that the theorems about the one hold for
    the other where the rounding agrees. *)

From S2P Require Import Prelude.
From S2P Require Import Kernel.
From S2P Require Import Seqfit.
From S2P Require Import SeqfitProofs.
From stdpp Require Import base numbers gmap list.
From Stdlib Require Import ZArith Lia.
Local Open Scope Z_scope.

Module Tiny.

Definition MAGIC : Z := 0x19790822.

(** The sizes are rounded to pointers, which have four bytes. *)
Definition ALIGN_MASK : Z := 4 - 1.
Definition ALIGN_SIZE (p : Z) : Z := Z.land (u32 (p + ALIGN_MASK)) (Z.lxor (2 ^ 32 - 1) ALIGN_MASK).

(** The headers by address, that of [heap.free] included. *)
Abbreviation hdrs := (gmap Z header).

Section Heap.
Context (heap_head heap_start heap_end : Z).

Local Abbreviation TM := (M hdrs).

Definition hget (p : Z) : TM header := m <- gets (fun m => m);; of_option (m !! p).
Definition hset (p : Z) (h : header) : TM unit := modify (insert p h).
Definition hupd (p : Z) (f : header -> header) : TM unit := h <- hget p;; hset p (f h).

Definition LIMIT (p : Z) : TM Z := h <- hget p;; ret (u32 (p + header_size + h_size h)).

Definition tiny_alloc_init : TM unit :=
  hset heap_start (Header NULL (u32 (heap_end - heap_start - header_size)));;;
  hset heap_head (Header heap_start 0).

Fixpoint alloc_loop (fuel : nat) (size qp : Z) : TM Z :=
  match fuel with
  | O => fault
  | S fuel =>
      q <- hget qp;;
      if h_next q =? NULL then ret NULL else
      let hp := h_next q in
      h <- hget hp;;
      if size <=? h_size h then
        (if h_size h <? u32 (size + header_size) then
           hupd qp (set_h_next (h_next h))
         else
           let fp := u32 (hp + header_size + size) in
           hset fp (Header (h_next h) (u32 (h_size h - header_size - size)));;;
           hupd qp (set_h_next fp);;;
           hupd hp (set_h_size size));;;
        hupd hp (set_h_next MAGIC);;;
        ret (u32 (hp + header_size))
      else alloc_loop fuel size hp
  end.

Definition list_fuel : TM nat := gets (fun m => S (base.size m)).

Definition tiny_alloc (size : Z) : TM Z :=
  let size := ALIGN_SIZE size in
  fuel <- list_fuel;;
  alloc_loop fuel size heap_head.

Definition free_insert (qp hp : Z) : TM unit :=
  q <- hget qp;;
  hupd hp (set_h_next (h_next q));;;
  hupd qp (set_h_next hp);;;
  lim <- LIMIT hp;;
  h <- hget hp;;
  when (lim =? h_next h)
    (n <- hget (h_next h);;
     hupd hp (set_h_size (u32 (h_size h + (h_size n + header_size))));;;
     hupd hp (set_h_next (h_next n)));;;
  limq <- LIMIT qp;;
  when (limq =? hp)
    (h <- hget hp;;
     q <- hget qp;;
     hupd qp (set_h_size (u32 (h_size q + (h_size h + header_size))));;;
     hupd qp (set_h_next (h_next h))).

Fixpoint free_loop (fuel : nat) (hp qp : Z) : TM unit :=
  match fuel with
  | O => fault
  | S fuel =>
      q <- hget qp;;
      if ((qp =? heap_head) || (qp <? hp)) && ((h_next q =? NULL) || (hp <? h_next q))
      then free_insert qp hp
      else free_loop fuel hp (h_next q)
  end.

(** There is no test for a null pointer. *)
Definition tiny_free (p : Z) : TM unit :=
  let hp := u32 (p - header_size) in
  fuel <- list_fuel;;
  free_loop fuel hp heap_head.

End Heap.

(** ** Simulation by the heap of the kernel *)

(** Run on the headers of the kernel's heap, [t] has the result and the headers of [k]. *)
Definition twin {A} (t : M hdrs A) (k : M seqfit A) : Prop := forall s,
  match t (sf_hdr s), k s with
  | Ok a m, Ok b s' => a = b /\ sf_hdr s' = m
  | Fault, Fault => True
  | _, _ => False
  end.

Lemma twin_ret {A} (a : A) : twin (ret a) (ret a).
Proof. done. Qed.

Lemma twin_fault {A} : twin (A := A) fault fault.
Proof. intros s. exact I. Qed.

Lemma twin_bind {A B} t k (f : A -> M hdrs B) g :
  twin t k -> (forall a, twin (f a) (g a)) -> twin (bind t f) (bind k g).
Proof.
  intros Htk Hfg s. unfold bind. specialize (Htk s). destruct (t (sf_hdr s)), (k s); try done.
  destruct Htk as [-> <-]. apply Hfg.
Qed.

Lemma twin_hget p : twin (hget p) (hdr_get p).
Proof. intros s. cbv [hget hdr_get bind gets]. by destruct (sf_hdr s !! p). Qed.

Lemma twin_hset p h : twin (hset p h) (hdr_set p h).
Proof. done. Qed.

Lemma twin_hupd p f : twin (hupd p f) (hdr_upd p f).
Proof. apply twin_bind; [apply twin_hget|intros h; apply twin_hset]. Qed.

Lemma twin_limit p : twin (LIMIT p) (Seqfit.LIMIT p).
Proof. apply twin_bind; [apply twin_hget|intros h; apply twin_ret]. Qed.

Lemma twin_fuel : twin list_fuel Seqfit.list_fuel.
Proof. done. Qed.

Lemma twin_if {A} (c : bool) (t1 t2 : M hdrs A) k1 k2 :
  twin t1 k1 -> twin t2 k2 -> twin (if c then t1 else t2) (if c then k1 else k2).
Proof. by destruct c. Qed.

(** The kernel may count the bytes in use on the way. *)
Lemma twin_counted {A} t f (g : M seqfit A) : twin t g -> twin t (modify (upd_used f);;; g).
Proof. intros H s. exact (H (upd_used f s)). Qed.

Lemma twin_counted_last (t : M hdrs unit) k f : twin t k -> twin t (k;;; modify (upd_used f)).
Proof.
  intros H s. specialize (H s). unfold bind, modify. destruct (t (sf_hdr s)), (k s); try done.
  destruct H as [_ <-]. by destruct a.
Qed.

#[local] Hint Resolve twin_ret twin_fault twin_hget twin_hset twin_hupd twin_limit twin_fuel : twin.

(** Walk through both computations. *)
Ltac twin_step :=
  lazymatch goal with
  | |- twin (bind _ _) (bind _ _) => apply twin_bind; [|intros ?]
  | |- twin (if _ then _ else _) _ => apply twin_if
  | |- twin (when _ _) _ => apply twin_if
  | _ => solve [auto with twin]
  end.

Lemma twin_alloc_loop fuel size : forall qp, twin (alloc_loop fuel size qp) (Seqfit.alloc_loop fuel size qp).
Proof.
  induction fuel as [|fuel IH]; intros qp; cbn [alloc_loop Seqfit.alloc_loop]; [auto with twin|]. cbv zeta.
  twin_step; [auto with twin|]. twin_step; [auto with twin|]. twin_step; [auto with twin|]. twin_step; [|apply IH].
  repeat first [apply twin_counted | twin_step].
Qed.

Lemma twin_free_insert qp hp n : twin (free_insert qp hp) (Seqfit.free_insert qp hp n).
Proof.
  unfold free_insert, Seqfit.free_insert. repeat first [apply twin_counted_last | twin_step].
Qed.

Lemma twin_free_loop head n fuel hp : forall qp, twin (free_loop head fuel hp qp) (Seqfit.free_loop head fuel hp n qp).
Proof.
  induction fuel as [|fuel IH]; intros qp; cbn [free_loop Seqfit.free_loop]; [auto with twin|].
  twin_step; [auto with twin|]. twin_step; [apply twin_free_insert|apply IH].
Qed.

(** Without a header in front of the pointer both heaps are left through a wild access. *)
Lemma free_loop_missing head hp (m : hdrs) : m !! hp = None -> forall fuel qp, free_loop head fuel hp qp m = Fault.
Proof.
  intros Hm. induction fuel as [|fuel IH]; intros qp; [done|]. cbn [free_loop].
  cbv [hget bind gets]. destruct (m !! qp) as [q|] eqn:Hq; [cbn|done].
  destruct (_ && _); [|apply IH]. cbv [free_insert hupd hget bind gets]. rewrite Hq. cbn. by rewrite Hm.
Qed.

(** Where the two roundings agree. *)
Lemma align_agrees n :
  0 <= n <= 2 ^ 32 - 8 -> n mod 8 = 0 \/ 4 < n mod 8 -> ALIGN_SIZE n = Seqfit.ALIGN_SIZE n.
Proof.
  intros Hn Hmod. rewrite ALIGN_SIZE_eq by done. unfold ALIGN_SIZE, ALIGN_MASK.
  rewrite u32_id by (unfold in_u32; lia). set (x := n + (4 - 1)).
  assert (Z.lxor (2 ^ 32 - 1) (4 - 1) = Z.ldiff (Z.ones 32) (Z.ones 2)) as -> by done.
  assert (0 <= x < 2 ^ 32) by (unfold x; lia).
  rewrite Z.ldiff_land, Z.land_assoc, (Z.land_ones _ 32), Z.mod_small by lia.
  rewrite <- Z.ldiff_land, Z.ldiff_ones_r, Z.shiftl_mul_pow2, Z.shiftr_div_pow2 by lia. change (2 ^ 2) with 4.
  unfold x. Z.to_euclidean_division_equations. lia.
Qed.

Lemma tiny_alloc_twin head n :
  0 <= n <= 2 ^ 32 - 8 -> n mod 8 = 0 \/ 4 < n mod 8 -> twin (tiny_alloc head n) (seqfit_alloc head n).
Proof.
  intros Hn Hmod. unfold tiny_alloc, seqfit_alloc. rewrite align_agrees by done.
  twin_step; [auto with twin|apply twin_alloc_loop].
Qed.

Lemma tiny_free_twin head p : header_size <= p < 2 ^ 32 -> twin (tiny_free head p) (seqfit_free head p).
Proof.
  unfold header_size. intros Hp. unfold tiny_free, seqfit_free, header_size.
  rewrite (proj2 (Z.eqb_neq p NULL)), u32_id by (unfold NULL, in_u32; lia). intros s.
  destruct (sf_hdr s !! (p - 8)) as [h|] eqn:Hh.
  - enough (twin (fuel <- list_fuel;; free_loop head fuel (p - 8) head)
                 (fuel <- Seqfit.list_fuel;; Seqfit.free_loop head fuel (p - 8) (h_size h) head)) as Ht.
    { specialize (Ht s). cbv [hdr_get bind gets of_option ret]. rewrite Hh. exact Ht. }
    twin_step; [auto with twin|apply twin_free_loop].
  - pose proof (free_loop_missing head (p - 8) (sf_hdr s) Hh (S (base.size (sf_hdr s))) head) as Hf.
    cbv [hdr_get bind gets list_fuel of_option fault]. by rewrite Hh, Hf.
Qed.

(** C40: The heap of builds without the kernel is a twin of the kernel's: for a request that both
    round to the same size, and for every pointer but the null pointer, both functions return
    the same, write the same headers and fail alike on every heap, whatever its state. *)
Theorem tiny_heap_twin head n p :
  0 <= n <= 2 ^ 32 - 8 -> n mod 8 = 0 \/ 4 < n mod 8 -> header_size <= p < 2 ^ 32 ->
  twin (tiny_alloc head n) (seqfit_alloc head n) /\ twin (tiny_free head p) (seqfit_free head p).
Proof. intros Hn Hmod Hp. split; [by apply tiny_alloc_twin|by apply tiny_free_twin]. Qed.

(** What holds of a run of the kernel's heap holds of the twin. *)
Lemma twin_wp {A} (t : M hdrs A) k (Q : A -> seqfit -> Prop) s :
  twin t k -> wp k Q s -> wp t (fun a m => exists s', sf_hdr s' = m /\ Q a s') (sf_hdr s).
Proof.
  unfold wp. intros H. specialize (H s). destruct (t (sf_hdr s)), (k s); try done. destruct H as [-> <-]. eauto.
Qed.

Section FirstFit.
Context (heap_head heap_start heap_end : Z).
Hypothesis HL : linked heap_head heap_start heap_end.

(** The headers represent the free blocks and the blocks in use. *)
Definition tiny_ok (m : hdrs) (fl us : list (Z * Z)) : Prop :=
  heap_ok heap_head heap_start heap_end (SeqFit m (total_sizes us) ∅) fl us.

Lemma tiny_ok_of s fl us : heap_ok heap_head heap_start heap_end s fl us -> tiny_ok (sf_hdr s) fl us.
Proof. by intros [Hl Hm Hu Hg]. Qed.

(** Allocation without the kernel is first fit on the free blocks, for every request whose rounding
    is a multiple of eight. *)
Theorem tiny_alloc_first_fit n fl us m :
  0 <= n <= 2 ^ 32 - 8 - 2 * header_size -> n mod 8 = 0 \/ 4 < n mod 8 -> tiny_ok m fl us ->
  wp (tiny_alloc heap_head n) (fun r m' =>
    match first_fit (Seqfit.ALIGN_SIZE n) fl with
    | None => r = NULL /\ m' = m
    | Some (fl', b) => r = b.1 + header_size /\ n <= b.2 /\ tiny_ok m' fl' (b :: us)
    end) m.
Proof.
  intros Hn Hmod Hok. unfold header_size in Hn. change m with (sf_hdr (SeqFit m (total_sizes us) ∅)).
  eapply wp_mono; [eapply twin_wp; [|apply (seqfit_alloc_spec _ _ _ HL n fl us); [|exact Hok]]|].
  - apply tiny_alloc_twin; [lia|done].
  - unfold size_ok, header_size. lia.
  - cbv beta. intros r m' (s' & <- & Hpost). destruct (first_fit _ fl) as [[fl' b]|] eqn:E.
    + destruct Hpost as [-> Hok']. split_and!; [done| |by apply tiny_ok_of].
      apply first_fit_block in E as [E _]. pose proof (ALIGN_SIZE_spec n). lia.
    + by destruct Hpost as [-> ->].
Qed.

(** Releasing a block merges it with the free blocks it touches. *)
Lemma tiny_free_coalesces a sz u1 u2 fl m :
  tiny_ok m fl (u1 ++ (a, sz) :: u2) ->
  wp (tiny_free heap_head (a + header_size)) (fun _ m' => tiny_ok m' (release (a, sz) fl) (u1 ++ u2)) m.
Proof.
  intros Hok. set (us := u1 ++ (a, sz) :: u2) in *. change m with (sf_hdr (SeqFit m (total_sizes us) ∅)).
  pose proof (inside_in heap_start heap_end fl us (a, sz) (ho_geo _ _ _ _ _ _ Hok) ltac:(set_solver)) as Hi.
  pose proof (inside_start _ _ _ HL _ Hi) as [Ha _]. destruct Hi as (_ & Hend & Hsz & _).
  destruct HL as [_ [[_ He] _] _ _]. unfold end_of, header_size in *. simpl in Ha, Hend, Hsz.
  eapply wp_mono; [eapply twin_wp; [apply (tiny_free_twin heap_head (a + 8))|exact (seqfit_free_spec _ _ _ HL a sz u1 u2 fl _ Hok)]|].
  - unfold header_size. lia.
  - cbv beta. intros [] m' (s' & <- & Hok'). by apply tiny_ok_of.
Qed.

End FirstFit.

(** A null pointer is not accepted: the header in front of it is not part of any heap, and the
    function leaves the heap through a wild access. *)
Theorem tiny_free_null_faults head (m : hdrs) : m !! (2 ^ 32 - 8) = None -> tiny_free head NULL m = Fault.
Proof. intros Hm. exact (free_loop_missing head _ m Hm _ head). Qed.

Lemma tiny_heap_twin_witness :
  twin (tiny_alloc hp_free 40) (seqfit_alloc hp_free 40) /\ twin (tiny_free hp_free 0x20001008) (seqfit_free hp_free 0x20001008).
Proof. apply tiny_heap_twin; [lia|by left|unfold header_size; lia]. Defined.

Lemma tiny_alloc_first_fit_witness : wp (tiny_alloc hp_free 40) (fun r _ => r = 0x20001030) (sf_hdr hp_one).
Proof.
  eapply wp_mono; [apply (tiny_alloc_first_fit _ _ _ hp_linked 40 [(0x20001028, 976)] [(0x20001000, 32)])|].
  - unfold header_size. lia.
  - by left.
  - apply tiny_ok_of, hp_one_ok.
  - intros r m (Hr & _). exact Hr.
Defined.

Lemma tiny_free_null_faults_witness : tiny_free hp_free NULL (sf_hdr hp_one) = Fault.
Proof. apply tiny_free_null_faults. reflexivity. Defined.

End Tiny.
