(* ===== verification/Locking.v ===== *)
(** * The locks of the C library

    [locking.c]: the locks that newlib asks for are mutexes of the kernel, each behind a structure
    of one pointer; the recursive ones and the others are the same.  The structures are words in
    the memory of the kernel model. *)

From S2P Require Import Prelude.
From S2P Require Import Kernel.
From S2P Require Import Memory.
From S2P Require Import Scheduler.
From S2P Require Import Events.
From S2P Require Import Mutex.
From S2P Require Import SchedInv.
From S2P Require Import SchedSleep.
From S2P Require Import MutexProofs.
From S2P Require Import MutexOwner.
From S2P Require Import FifoProofs.
From S2P Require Import Vtimers.
From S2P Require Import VtimerProofs.
From stdpp Require Import base numbers gmap list.
From Stdlib Require Import ZArith Lia.
Local Open Scope Z_scope.

Module Locking.

Section Locks.
Context {HS : Type} {AL : Allocator HS}.
Implicit Types s : kstate HS.

Local Abbreviation KM := (K HS).

(** [lock->mutex = m]; a null pointer is not writable. *)
Definition set_mutex (lock m : Z) : KM unit :=
  if lock =? NULL then fault else modify (upd_mem (mem_write lock (word_bytes m))).

(** [lock->mutex] *)
Definition get_mutex (lock : Z) : KM Z :=
  mem <- gets k_mem;;
  bs <- of_option (if lock =? NULL then None else mem_read lock 4 mem);;
  ret (word_at 0 bs).

(** The static locks of the library, in order. *)
Fixpoint init_retarget_locks (locks : list Z) : KM unit :=
  match locks with
  | [] => ret tt
  | lock :: locks => m <- isix_mutex_create NULL;; set_mutex lock m;;; init_retarget_locks locks
  end.

(** The result is what is stored in [*lock]. *)
Definition __retarget_lock_init : KM Z :=
  lock <- isix_alloc 4;;
  m <- isix_mutex_create NULL;;
  set_mutex lock m;;;
  ret lock.

Definition __retarget_lock_init_recursive : KM Z :=
  lock <- isix_alloc 4;;
  m <- isix_mutex_create NULL;;
  set_mutex lock m;;;
  ret lock.

Definition __retarget_lock_close (lock : Z) : KM unit :=
  m <- get_mutex lock;;
  _ <- isix_mutex_destroy m;;
  isix_free lock.

Definition __retarget_lock_close_recursive (lock : Z) : KM unit :=
  m <- get_mutex lock;;
  _ <- isix_mutex_destroy m;;
  isix_free lock.

(** Locking may put the caller to sleep. *)
Definition __retarget_lock_acquire (lock : Z) : KM wait_step := m <- get_mutex lock;; isix_mutex_lock m.
Definition __retarget_lock_acquire_recursive (lock : Z) : KM wait_step := m <- get_mutex lock;; isix_mutex_lock m.
Definition __retarget_lock_try_acquire (lock : Z) : KM Z := m <- get_mutex lock;; isix_mutex_trylock m.
Definition __retarget_lock_try_acquire_recursive (lock : Z) : KM Z := m <- get_mutex lock;; isix_mutex_trylock m.
Definition __retarget_lock_release (lock : Z) : KM unit :=
  m <- get_mutex lock;; _ <- isix_mutex_unlock m;; ret tt.
Definition __retarget_lock_release_recursive (lock : Z) : KM unit :=
  m <- get_mutex lock;; _ <- isix_mutex_unlock m;; ret tt.

(** ** Mutexes nest *)

(** The caller owns the mutex. *)
Record owns s (m : Z) (o : mtx) : Prop := {
  own_mutex : m <> NULL /\ k_mtxs s !! m = Some o;
  own_caller : m_owner o = k_currp s /\ k_currp s <> NULL;
  own_count : 1 <= m_count o < 2 ^ 31;
  own_critical : 0 <= k_critical_count s
}.

(** A mutex the caller has is locked at once, once more. *)
Lemma mutex_relock m o s (Q : wait_step -> kstate HS -> Prop) :
  owns s m o -> m_count o < 2 ^ 31 - 1 ->
  (forall s1, k_currp s1 = k_currp s -> k_critical_count s1 = k_critical_count s -> k_tasks s1 = k_tasks s ->
     k_q s1 = k_q s -> k_ml s1 = k_ml s -> k_mem s1 = k_mem s ->
     k_mtxs s1 = <[m := set_m_count (m_count o + 1) o]> (k_mtxs s) -> Q (Done ISIX_EOK) s1) ->
  wp (isix_mutex_lock m) Q s.
Proof.
  intros [[Hm Ho] [Hown Hcur] Hcnt Hc] Hmax HQ. unfold isix_mutex_lock, mutex_lock_round.
  rewrite (proj2 (Z.eqb_neq m NULL)) by done. wp_step. apply wp_enter_critical; [done|].
  wp_step. eapply wp_mtx_get; [exact Ho|]. wp_step. wp_step. rewrite Hown.
  change (k_currp (upd_critical_count _ _)) with (k_currp s).
  rewrite (proj2 (Z.eqb_neq (k_currp s) NULL)), (proj2 (Z.ltb_ge _ _)), Z.eqb_refl by (done || lia). cbn [negb].
  wp_step. eapply wp_mtx_upd; [exact Ho|]. wp_step. apply wp_exit_critical; [simpl; lia|]. wp_step.
  rewrite i32_id by (unfold in_i32; lia). apply HQ; try done. simpl. lia.
Qed.

(** An inner section ends without giving the mutex up. *)
Lemma mutex_unnest m o s (Q : Z -> kstate HS -> Prop) :
  owns s m o -> 1 < m_count o ->
  (forall s1, k_currp s1 = k_currp s -> k_critical_count s1 = k_critical_count s -> k_tasks s1 = k_tasks s ->
     k_q s1 = k_q s -> k_ml s1 = k_ml s -> k_mem s1 = k_mem s ->
     k_mtxs s1 = <[m := set_m_count (m_count o - 1) o]> (k_mtxs s) -> Q ISIX_EOK s1) ->
  wp (isix_mutex_unlock m) Q s.
Proof.
  intros [[Hm Ho] [Hown Hcur] Hcnt Hc] H1 HQ. unfold isix_mutex_unlock. rewrite (proj2 (Z.eqb_neq m NULL)) by done.
  wp_step. apply wp_enter_critical; [done|]. wp_step. eapply wp_mtx_get; [exact Ho|]. rewrite Hown.
  rewrite (proj2 (Z.eqb_neq (k_currp s) NULL)), (proj2 (Z.ltb_ge _ _)) by (done || lia).
  wp_step. wp_step. change (k_currp (upd_critical_count _ _)) with (k_currp s).
  rewrite Z.eqb_refl. cbn [negb]. wp_step. eapply wp_mtx_upd; [exact Ho|].
  rewrite (proj2 (Z.eqb_neq (m_count o - 1) 0)) by lia.
  wp_step. apply wp_exit_critical; [simpl; lia|]. wp_step. apply HQ; try done. simpl. lia.
Qed.

(** The structure at [lock] refers to the mutex [m]. *)
Definition lock_for s (lock m : Z) : Prop :=
  lock <> NULL /\ in_u32 m /\ mem_read lock 4 (k_mem s) = Some (word_bytes m).

Lemma wp_get_mutex lock m (Q : Z -> kstate HS -> Prop) s : lock_for s lock m -> Q m s -> wp (get_mutex lock) Q s.
Proof.
  intros (Hl & Hm & Hr) HQ. unfold get_mutex. wp_step. wp_step. rewrite (proj2 (Z.eqb_neq lock NULL)) by done.
  wp_step. eapply wp_of_option; [exact Hr|]. wp_step.
  pose proof (word_at_bytes m 0 [] [] Hm eq_refl) as H. rewrite app_nil_r in H. simpl app in H. by rewrite H.
Qed.

(** The locks of the library are recursive: a task that has the lock acquires it again at once and
    releasing it leaves the task in the outer section; mutex, queues and tasks are as before. *)
Theorem retarget_lock_recursive lock m o s :
  lock_for s lock m -> owns s m o -> m_count o < 2 ^ 31 - 1 ->
  wp (r <- __retarget_lock_acquire_recursive lock;; __retarget_lock_release_recursive lock;;; ret r) (fun r s' =>
    r = Done ISIX_EOK /\ k_mtxs s' = k_mtxs s /\ k_q s' = k_q s /\ k_ml s' = k_ml s /\ k_tasks s' = k_tasks s /\
    k_critical_count s' = k_critical_count s) s.
Proof.
  intros Hl Ho Hmax. pose proof Ho as [[Hm Em] [Hown Hcur] Hcnt Hc].
  unfold __retarget_lock_acquire_recursive, __retarget_lock_release_recursive.
  do 2 wp_step. eapply wp_get_mutex; [exact Hl|]. eapply mutex_relock; [exact Ho|exact Hmax|]. intros s1 E1 E2 E3 E4 E5 E6 E7.
  do 2 wp_step. eapply (wp_get_mutex lock m); [unfold lock_for; by rewrite E6|].
  wp_step. apply (mutex_unnest m (set_m_count (m_count o + 1) o)).
  - split; [split; [done|by rewrite E7, lookup_insert_eq]|by rewrite E1|simpl; lia|by rewrite E2].
  - simpl. lia.
  - intros s2 F1 F2 F3 F4 F5 F6 F7. wp_step. wp_step. split_and!; try congruence.
    rewrite F7, E7. simpl. rewrite insert_insert_eq. apply insert_id. rewrite Em.
    replace (m_count o + 1 - 1) with (m_count o) by lia. by destruct o.
Qed.

End Locks.

End Locking.
