(* ===== verification/SysArch.v ===== *)
(** * The port of the TCP/IP stack

    [sys_arch.c]: the calls lwIP makes to its operating system, on the semaphores, fifos, mutexes
    and tasks of the kernel.  A mailbox is a fifo of pointers.  A call that may sleep has a part
    up to the sleep and a part after it, as the calls of the kernel have. *)

From S2P Require Import Prelude.
From S2P Require Import OsStats.
From S2P Require Import Kernel.
From S2P Require Import Memory.
From S2P Require Import Scheduler.
From S2P Require Import Events.
From S2P Require Import Semaphore.
From S2P Require Import Mutex.
From S2P Require Import Task.
From S2P Require Import Fifo.
From S2P Require Import OsTime.
From S2P Require Import SchedInv.
From S2P Require Import SchedCore.
From S2P Require Import SchedTime.
From S2P Require Import SchedSleep.
From S2P Require Import SchedWake.
From S2P Require Import SemProofs.
From S2P Require Import Alloc.
From S2P Require Import FifoProofs.
From S2P Require Import Locking.
From S2P Require Import Vtimers.
From S2P Require Import VtimerProofs.
From stdpp Require Import base numbers gmap list strings.
From Stdlib Require Import ZArith Lia.
Local Open Scope Z_scope.

Module SysArch.

(** Constants of lwIP. *)
Definition SYS_ARCH_TIMEOUT : Z := 0xffffffff.
Definition SYS_MBOX_EMPTY : Z := SYS_ARCH_TIMEOUT.
Definition ERR_OK : Z := 0.
Definition ERR_MEM : Z := -1.

(** A value of [err_t], which has eight bits. *)
Definition err_t (x : Z) : Z := (x + 2 ^ 7) mod 2 ^ 8 - 2 ^ 7.

(** The conversions of times, in 32 bits. *)
Definition timeout_ticks (timeout : Z) : Z := u32 (timeout * CONFIG_ISIX_HZ) / 1000.
Definition elapsed_ms (t : Z) : Z := u32 (t * 1000) / CONFIG_ISIX_HZ.

Section Port.
Context {HS : Type} {AL : Allocator HS}.

(** As for [isix_task_create]. *)
Context (terminator reent_size : Z).

Local Abbreviation KM := (K HS).

Definition sys_thread_new (thread arg stacksize prio : Z) : KM Z :=
  isix_task_create terminator reent_size thread arg stacksize prio isix_task_flag_newlib.

(** The result and the semaphore stored through the pointer. *)
Definition sys_sem_new (count : Z) : KM (Z * Z) :=
  sem <- isix_sem_create NULL count;;
  ret (if negb (sem =? NULL) then ERR_OK else ERR_MEM, sem).

Definition sys_sem_free (sem : Z) : KM unit := _ <- isix_sem_destroy sem;; ret tt.

Definition sys_sem_signal (sem : Z) : KM unit := _ <- isix_sem_signal sem;; ret tt.

(** The time of the call, and how far [isix_sem_wait] gets. *)
Definition sys_arch_sem_wait (sem timeout : Z) : KM (Z * (wait_step * Z)) :=
  t <- isix_get_jiffies;;
  r <- isix_sem_wait sem (timeout_ticks timeout);;
  ret (t, r).

(** [isix_sem_wait] has returned [reason]. *)
Definition sys_arch_sem_wait_finish (t reason : Z) : KM Z :=
  now <- isix_get_jiffies;;
  let t := elapsed_ms (u32 (now - t)) in
  ret (if reason =? ISIX_ETIMEOUT then SYS_ARCH_TIMEOUT else t).

Definition sys_arch_mbox_fetch (mbox timeout : Z) : KM (Z * (wait_step * Z)) :=
  t <- isix_get_jiffies;;
  r <- isix_fifo_read_wait mbox (timeout_ticks timeout);;
  ret (t, r).

(** The rest of the call: the result and what is stored through [msg]; [m] is what the stack
    held at the place of the local variable. *)
Definition sys_arch_mbox_fetch_finish (mbox t rrc m : Z) : KM (Z * option Z) :=
  r <- isix_fifo_read_finish mbox rrc;;
  if fst r =? ISIX_ETIMEOUT then ret (SYS_ARCH_TIMEOUT, None) else
  let m := match snd r with Some item => word_at 0 item | None => m end in
  now <- isix_get_jiffies;;
  ret (elapsed_ms (u32 (now - t)), Some m).

Definition sys_mbox_free (mbox : Z) : KM unit := _ <- isix_fifo_destroy mbox;; ret tt.

Definition sys_mbox_new (size : Z) : KM (Z * Z) :=
  mbox <- isix_fifo_create_ex size 4 0;;
  ret (if negb (mbox =? NULL) then ERR_OK else ERR_MEM, mbox).

Definition sys_mbox_post (mbox : Z) : KM (wait_step * Z) := isix_fifo_write_wait mbox ISIX_TIME_INFINITE.

(** The result of the write is not looked at. *)
Definition sys_mbox_post_finish (mbox msg wrc : Z) : KM unit :=
  _ <- isix_fifo_write_finish mbox (word_bytes msg) wrc;; ret tt.

Definition sys_arch_mbox_tryfetch (mbox : Z) : KM (Z * option Z) :=
  r <- isix_fifo_read_isr mbox;;
  ret (if fst r =? ISIX_EOK then 0 else SYS_MBOX_EMPTY,
       if fst r =? ISIX_EOK then word_at 0 <$> snd r else None).

Definition sys_mbox_trypost (mbox msg : Z) : KM Z :=
  reason <- isix_fifo_write_isr mbox (word_bytes msg);;
  ret (err_t (if reason =? ISIX_EOK then 0 else SYS_MBOX_EMPTY)).

(** The protection is the mutex that [sys_init] creates; an assertion that fails stops the
    system.  [sys_arch_protect] returns 1 when it has the mutex. *)
Definition sys_arch_protect (arch_protect_mutex : Z) : KM wait_step :=
  if arch_protect_mutex =? NULL then panic "Assert" else isix_mutex_lock arch_protect_mutex.

Definition sys_arch_unprotect (arch_protect_mutex : Z) : KM unit :=
  if arch_protect_mutex =? NULL then panic "Assert" else
  _ <- isix_mutex_unlock arch_protect_mutex;; ret tt.

Definition sys_init : KM Z :=
  arch_protect_mutex <- isix_mutex_create NULL;;
  if arch_protect_mutex =? NULL then panic "Assert" else ret arch_protect_mutex.

(** ** Mailboxes *)

(** The mailbox holds the messages [msgs] and has room for [n]. *)
Definition mailbox (mbox n : Z) (msgs : list Z) (s : kstate HS) : Prop :=
  0 < mbox /\ Forall in_u32 msgs /\ fifo_ok mbox n 4 (word_bytes <$> msgs) s.

Lemma trypost_spec mbox n msgs msg s :
  mailbox mbox n msgs s -> in_u32 msg ->
  wp (sys_mbox_trypost mbox msg) (fun r s' =>
    if Z.of_nat (length msgs) <? n then r = ERR_OK /\ mailbox mbox n (msgs ++ [msg]) s'
    else r = ERR_MEM /\ mailbox mbox n msgs s') s.
Proof.
  intros (Hm & Hu & Hok) Hmsg. unfold sys_mbox_trypost. wp_step.
  eapply wp_mono; [exact (fifo_write_isr_spec mbox n 4 _ (word_bytes msg) s Hm Hok eq_refl)|].
  cbv beta. intros r s'. rewrite length_fmap. destruct (Z.of_nat (length msgs) <? n); intros [-> Hok']; wp_step.
  - split; [done|]. split_and!; [done|by apply Forall_app_2; [|constructor]|by rewrite fmap_app].
  - done.
Qed.

Lemma tryfetch_spec mbox n msgs s :
  mailbox mbox n msgs s ->
  wp (sys_arch_mbox_tryfetch mbox) (fun r s' =>
    match msgs with
    | [] => r = (SYS_MBOX_EMPTY, None) /\ mailbox mbox n [] s'
    | m :: ms => r = (0, Some m) /\ mailbox mbox n ms s'
    end) s.
Proof.
  intros (Hm & Hu & Hok). unfold sys_arch_mbox_tryfetch. wp_step.
  eapply wp_mono; [exact (fifo_read_isr_spec mbox n 4 _ s Hm Hok)|].
  cbv beta. intros r s'. destruct msgs as [|m ms]; simpl; intros [-> Hok']; wp_step.
  - done.
  - apply Forall_cons in Hu as [Hmu Hu]. simpl. by rewrite word_at_word.
Qed.

(** C26: A mailbox is a bounded queue of messages: a message posted without waiting is appended when
    there is room and refused with [ERR_MEM] and no effect when there is none; fetching without
    waiting returns and removes the oldest message, or reports that there is none. *)
Theorem mailbox_bounded_queue mbox n msgs msg s :
  mailbox mbox n msgs s -> in_u32 msg ->
  wp (sys_mbox_trypost mbox msg) (fun r s' =>
    if Z.of_nat (length msgs) <? n then r = ERR_OK /\ mailbox mbox n (msgs ++ [msg]) s'
    else r = ERR_MEM /\ mailbox mbox n msgs s') s /\
  wp (sys_arch_mbox_tryfetch mbox) (fun r s' =>
    match msgs with
    | [] => r = (SYS_MBOX_EMPTY, None) /\ mailbox mbox n [] s'
    | m :: ms => r = (0, Some m) /\ mailbox mbox n ms s'
    end) s.
Proof. intros H Hm. split; [by apply trypost_spec|by apply tryfetch_spec]. Qed.

(** A new mailbox is empty and has the room that was asked for; without memory the result is
    [ERR_MEM], the pointer is null and the objects of the kernel are as they were. *)
Theorem mailbox_new_empty size s :
  may_allocate s -> 0 < size < 2 ^ 29 -> 0 <= fst (heap_alloc 88 (k_heap s)) ->
  wp (sys_mbox_new size) (fun r s' =>
    (r = (ERR_MEM, NULL) /\ same_store s s') \/
    (exists mbox, r = (ERR_OK, mbox) /\ mailbox mbox size [] s')) s.
Proof.
  intros Hm Hs Ha. unfold sys_mbox_new. wp_step. eapply wp_mono; [apply (fifo_create_spec size 4 s Hm); lia || done|].
  cbv beta. intros a s' [[-> Hst]|[Hpos Hok]]; wp_step.
  - left. done.
  - right. exists a. rewrite (proj2 (Z.eqb_neq a NULL)) by (unfold NULL; lia). done.
Qed.

(** ** Times *)

(** Up to 4294967 ms a tick of the clock is a millisecond. *)
Lemma timeout_ticks_id timeout : 0 <= timeout <= 4294967 -> timeout_ticks timeout = timeout.
Proof.
  intros Ht. unfold timeout_ticks, CONFIG_ISIX_HZ. rewrite u32_id by (unfold in_u32; lia). apply Z.div_mul. lia.
Qed.

Lemma elapsed_ms_id t : 0 <= t <= 4294967 -> elapsed_ms t = t.
Proof.
  intros Ht. unfold elapsed_ms, CONFIG_ISIX_HZ. rewrite u32_id by (unfold in_u32; lia). apply Z.div_mul. lia.
Qed.

(** Waiting for a semaphore without a token puts the caller to sleep for the given number of
    milliseconds, zero meaning for ever; afterwards the call returns [SYS_ARCH_TIMEOUT] on a
    timeout and otherwise the milliseconds that have gone by, also across the wrap of the
    clock. *)
Theorem sys_sem_wait_sleeps sem timeout l oc s :
  task_context oc s -> sem <> NULL -> sem_view s sem = Some (0, l) -> 0 <= timeout <= 4294967 ->
  Z.of_nat (length l) < 2 ^ 31 ->
  wp (sys_arch_sem_wait sem timeout) (fun r s' => r = (k_jiffies s, (Blocked, k_jiffies s)) /\ sched_inv s' /\
    sem_view s' sem = Some (0, prio_insert (k_tasks s) (t_prio oc) (k_currp s) l) /\
    (forall x, remaining s' x =
       if decide (x = k_currp s /\ timeout <> 0) then Some timeout else remaining s x)) s /\
  (forall now waited reason, 0 <= waited <= 4294967 -> k_jiffies now = u32 (k_jiffies s + waited) ->
     wp (sys_arch_sem_wait_finish (k_jiffies s) reason) (fun r _ =>
       r = if reason =? ISIX_ETIMEOUT then SYS_ARCH_TIMEOUT else waited) now).
Proof.
  intros Hc Hs Hv Ht Hl. split.
  - unfold sys_arch_sem_wait, isix_get_jiffies. wp_step. wp_step. wp_step.
    eapply wp_mono; [apply (sem_wait_blocks_spec sem (timeout_ticks timeout) l oc s Hc Hs Hv)|].
    + rewrite timeout_ticks_id by done. unfold ISIX_TIME_DONTWAIT. lia.
    + done.
    + rewrite timeout_ticks_id by done. intros r s' (-> & Hi & Hv' & _ & Hrem & _). wp_step. done.
  - intros now waited reason Hw Ej. unfold sys_arch_sem_wait_finish, isix_get_jiffies. wp_step. wp_step. wp_step.
    rewrite Ej. assert (u32 (u32 (k_jiffies s + waited) - k_jiffies s) = waited) as ->.
    { unfold u32. rewrite Zminus_mod_idemp_l. replace (k_jiffies s + waited - k_jiffies s) with waited by lia.
      apply Z.mod_small. lia. }
    by rewrite elapsed_ms_id.
Qed.

(** A timeout of 4294968 ms becomes no ticks, which means for ever. *)
Lemma long_timeout_never_ends : timeout_ticks 4294968 = ISIX_TIME_INFINITE.
Proof. reflexivity. Qed.

(** ** The protection *)

(** The protection nests: a task that has the mutex gets it again at once, and giving it back
    restores the mutex, so that the outer section stays protected. *)
Theorem protect_nests m o s :
  Locking.owns s m o -> m_count o < 2 ^ 31 - 1 ->
  wp (sys_arch_protect m) (fun r s1 => r = Done ISIX_EOK /\ k_currp s1 = k_currp s /\
    k_mtxs s1 = <[m := set_m_count (m_count o + 1) o]> (k_mtxs s) /\
    wp (sys_arch_unprotect m) (fun _ s2 => k_mtxs s2 = k_mtxs s /\ k_q s2 = k_q s /\ k_ml s2 = k_ml s /\
      k_tasks s2 = k_tasks s /\ k_critical_count s2 = k_critical_count s) s1) s.
Proof.
  intros Ho Hmax. pose proof Ho as [[Hm Em] [Hown Hcur] Hcnt Hc]. unfold sys_arch_protect, sys_arch_unprotect.
  rewrite (proj2 (Z.eqb_neq m NULL)) by done. eapply Locking.mutex_relock; [exact Ho|exact Hmax|].
  intros s1 E1 E2 E3 E4 E5 E6 E7. split_and!; [done|done|done|]. wp_step.
  apply (Locking.mutex_unnest m (set_m_count (m_count o + 1) o)).
  - split; [split; [done|by rewrite E7, lookup_insert_eq]|by rewrite E1|simpl; lia|by rewrite E2].
  - simpl. lia.
  - intros s2 F1 F2 F3 F4 F5 F6 F7. wp_step. split_and!; try congruence.
    rewrite F7, E7. simpl. rewrite insert_insert_eq. apply insert_id. rewrite Em.
    replace (m_count o + 1 - 1) with (m_count o) by lia. by destruct o.
Qed.

End Port.

End SysArch.
