(* ===== verification/Lz.v ===== *)
(** * The compression of images

    [lz.c] of the host tools of the graphics library, with which images are packed into the
    program: an LZ77 coder that searches all offsets ([LZ_Compress]), one that follows a table of
    equal pairs ([LZ_CompressFast]), and the decoder ([LZ_Uncompress]).

    A buffer is its list of bytes.  Sizes and positions are below 2^32, so they are natural
    numbers and their sums do not wrap; the numbers that are coded are words.  A read behind the
    end of the input has a value that is not known, the argument [beyond] of the coders; for the
    decoder it is an error, as is a copy from in front of the output. *)

From S2P Require Import Prelude.
From stdpp Require Import base numbers gmap list.
From Stdlib Require Import ZArith Lia.

Module Lz.

Definition LZ_MAX_OFFSET : nat := Z.to_nat 100000.

(** ** Numbers of variable size *)

(** The loop that finds the number of bytes; [k] is one less than [num_bytes]. *)
Fixpoint num_bytes_loop (k : nat) (y : Z) : nat :=
  match k with
  | O => 1
  | S k' => if negb (Z.land y 0xfe000000 =? 0)%Z then S k else num_bytes_loop k' (u32 (Z.shiftl y 7))
  end.

(** The bytes from the one with index [i - 1] down to the last one. *)
Fixpoint write_loop (i : nat) (x : Z) : list Z :=
  match i with
  | O => []
  | S j =>
      let b := Z.land (Z.shiftr x (Z.of_nat j * 7)) 0x7f in
      (if 0 <? j then Z.lor b 0x80 else b) :: write_loop j x
  end.

Definition _LZ_WriteVarSize (x : Z) : list Z := write_loop (num_bytes_loop 4 (Z.shiftr x 3)) x.

(** The number and how many bytes it takes. *)
Fixpoint read_loop (buf : list Z) (y : Z) (num_bytes : nat) : option (Z * nat) :=
  match buf with
  | [] => None
  | b :: buf =>
      let y := u32 (Z.lor (Z.shiftl y 7) (Z.land b 0x7f)) in
      let num_bytes := S num_bytes in
      if negb (Z.land b 0x80 =? 0)%Z then read_loop buf y num_bytes else Some (y, num_bytes)
  end.

Definition _LZ_ReadVarSize (buf : list Z) : option (Z * nat) := read_loop buf 0 0.

(** ** The marker *)

Definition histogram (inp : list Z) : list Z :=
  foldl (fun h b => alter (fun c => u32 (c + 1)) (Z.to_nat b) h) (replicate 256 0%Z) inp.

(** The least common byte, the first one of several. *)
Definition find_marker (hist : list Z) : nat :=
  foldl (fun m i => if (hist !!! i <? hist !!! m)%Z then i else m) 0 (seq 1 255).

Definition marker_of (inp : list Z) : Z := Z.of_nat (find_marker (histogram inp)).

(** ** Coding *)

Section Coding.
Context (inp : list Z) (beyond : nat -> Z).

Definition insize : nat := length inp.

Definition at_ (i : nat) : Z := default (beyond i) (inp !! i).

(** [_LZ_StringCompare] of the strings at two positions. *)
Fixpoint compare_loop (n p1 p2 len : nat) : nat :=
  match n with
  | O => len
  | S n => if (at_ (p1 + len) =? at_ (p2 + len))%Z then compare_loop n p1 p2 (S len) else len
  end.

Definition _LZ_StringCompare (p1 p2 minlen maxlen : nat) : nat := compare_loop (maxlen - minlen) p1 p2 minlen.

(** The better one of the best match so far and that at the offset, length and offset. *)
Definition better (best : nat * nat) (length offset : nat) : nat * nat :=
  if fst best <? length then (length, offset) else best.

(** The search at a position: [n] offsets are left. *)
Fixpoint search_loop (n inpos offset : nat) (best : nat * nat) : nat * nat :=
  match n with
  | O => best
  | S n =>
      let p1 := inpos in
      let p2 := inpos - offset in
      let best :=
        if (at_ p1 =? at_ p2)%Z && (at_ (p1 + fst best) =? at_ (p2 + fst best))%Z then
          let maxlength := if insize - inpos <? offset then insize - inpos else offset in
          better best (_LZ_StringCompare p1 p2 0 maxlength) offset
        else best in
      search_loop n inpos (S offset) best
  end.

Definition search (inpos : nat) : nat * nat :=
  let maxoffset := if LZ_MAX_OFFSET <? inpos then LZ_MAX_OFFSET else inpos in
  search_loop (S maxoffset - 3) inpos 3 (3, 0).

(** *** The table of pairs *)

(** [lastindex] and the entries of [jumptable] for the first positions; [None] is 0xffffffff. *)
Definition jump_step (st : gmap Z nat * list (option nat)) (i : nat) : gmap Z nat * list (option nat) :=
  let '(lastindex, jumptable) := st in
  let symbols := Z.lor (Z.shiftl (at_ i) 8) (at_ (i + 1)) in
  let index := lastindex !! symbols in
  (<[symbols := i]> lastindex, jumptable ++ [index]).

Definition jumptable : list (option nat) :=
  snd (foldl jump_step (∅, []) (seq 0 (insize - 1))) ++ [None].

Definition jump (i : nat) : option nat := default None (jumptable !! i).

(** The positions on the way lie before one another, so that [inpos] of them are enough. *)
Fixpoint fast_loop (n inpos : nat) (index : option nat) (best : nat * nat) : nat * nat :=
  match n, index with
  | S n, Some index =>
      if inpos - index <? LZ_MAX_OFFSET then
        let p1 := inpos in
        let p2 := index in
        let best :=
          if (at_ (p2 + fst best) =? at_ (p1 + fst best))%Z then
            let offset := inpos - index in
            let maxlength := if insize - inpos <? offset then insize - inpos else offset in
            better best (_LZ_StringCompare p1 p2 2 maxlength) offset
          else best in
        fast_loop n inpos (jump index) best
      else best
  | _, _ => best
  end.

Definition fast_search (inpos : nat) : nat * nat := fast_loop inpos inpos (jump inpos) (3, 0).

(** *** The output *)

Definition good_match (best : nat * nat) : bool :=
  let '(bestlength, bestoffset) := best in
  (8 <=? bestlength) || ((bestlength =? 4) && (Z.of_nat bestoffset <=? 0x7f)%Z) ||
  ((bestlength =? 5) && (Z.of_nat bestoffset <=? 0x3fff)%Z) ||
  ((bestlength =? 6) && (Z.of_nat bestoffset <=? 0x1fffff)%Z) ||
  ((bestlength =? 7) && (Z.of_nat bestoffset <=? 0xfffffff)%Z).

Definition emit_byte (marker symbol : Z) : list Z :=
  if (symbol =? marker)%Z then [symbol; 0%Z] else [symbol].

Definition emit_match (marker : Z) (best : nat * nat) : list Z :=
  marker :: _LZ_WriteVarSize (Z.of_nat (fst best)) ++ _LZ_WriteVarSize (Z.of_nat (snd best)).

(** The loop that writes the remaining bytes. *)
Definition dump (marker : Z) (inpos : nat) : list Z :=
  concat (emit_byte marker <$> drop inpos inp).

(** The main loop and the remaining bytes, for one of the two searches; the loop stops when
    three bytes are left. *)
Fixpoint compress_loop (find : nat -> nat * nat) (fuel : nat) (marker : Z) (inpos : nat) (out : list Z) : option (list Z) :=
  match fuel with
  | O => None
  | S fuel =>
      let best := find inpos in
      let '(inpos, out) :=
        if good_match best then (inpos + fst best, out ++ emit_match marker best)
        else (inpos + 1, out ++ emit_byte marker (at_ inpos)) in
      if 3 <? insize - inpos then compress_loop find fuel marker inpos out
      else Some (out ++ dump marker inpos)
  end.

Definition compress_with (find : nat -> nat * nat) : option (list Z) :=
  if insize <? 1 then Some [] else
  let marker := marker_of inp in
  compress_loop find insize marker 0 [marker].

Definition LZ_Compress : option (list Z) := compress_with search.
Definition LZ_CompressFast : option (list Z) := compress_with fast_search.

End Coding.

(** ** Decoding *)

(** The copy from the history, byte by byte. *)
Fixpoint copy_loop (n : nat) (offset : Z) (out : list Z) : option (list Z) :=
  match n with
  | O => Some out
  | S n =>
      let from := (Z.of_nat (length out) - offset)%Z in
      if (from <? 0)%Z then None else
      b ← out !! Z.to_nat from;
      copy_loop n offset (out ++ [b])
  end.

Fixpoint uncompress_loop (fuel : nat) (inp : list Z) (marker : Z) (inpos : nat) (out : list Z) : option (list Z) :=
  match fuel with
  | O => None
  | S fuel =>
      symbol ← inp !! inpos;
      let inpos := inpos + 1 in
      st ← (if (symbol =? marker)%Z then
              next ← inp !! inpos;
              if (next =? 0)%Z then Some (inpos + 1, out ++ [marker])
              else
                '(length, n) ← _LZ_ReadVarSize (drop inpos inp);
                let inpos := inpos + n in
                '(offset, n) ← _LZ_ReadVarSize (drop inpos inp);
                let inpos := inpos + n in
                out ← copy_loop (Z.to_nat length) offset out;
                Some (inpos, out)
            else Some (inpos, out ++ [symbol]));
      let '(inpos, out) := st in
      if inpos <? length inp then uncompress_loop fuel inp marker inpos out else Some out
  end.

Definition LZ_Uncompress (inp : list Z) : option (list Z) :=
  if length inp <? 1 then Some [] else
  marker ← inp !! 0;
  uncompress_loop (length inp) inp marker 1 [].

End Lz.

Example lz_small :
  let x := [1; 2; 3; 4; 5; 1; 2; 3; 4; 5; 1; 2; 3; 4; 5; 0; 7]%Z in
  Lz.LZ_Compress x (fun _ => 0%Z) = Some [6; 1; 2; 3; 4; 5; 6; 5; 5; 6; 5; 5; 0; 7]%Z /\
  Lz.LZ_CompressFast x (fun _ => 0%Z) = Lz.LZ_Compress x (fun _ => 0%Z) /\
  (Lz.LZ_Compress x (fun _ => 0%Z) ≫= Lz.LZ_Uncompress) = Some x.
Proof. vm_compute. repeat split. Qed.
