(* ===== verification/LzProofs.v ===== *)
(** * The compression is lossless

    What the coders write describes the input ([coded]), the decoder reads back whatever such a
    description says, so the round trip is the identity; the output fits the buffer the comment
    of the source asks for; the search finds a longest match, does not depend on what lies behind
    the input, and the fast search finds the same one. *)

From S2P Require Import Prelude.
From S2P Require Import Lz.
From stdpp Require Import base numbers gmap list.
From Stdlib Require Import ZArith Lia.
Import Lz.

Module LzProofs.

(** ** Numbers of variable size *)

Section VarSize.
Local Open Scope Z_scope.

(** The bytes of a word: seven bits in each. *)
Definition var_size (x : Z) : nat :=
  if x <? 2 ^ 7 then 1%nat else if x <? 2 ^ 14 then 2%nat else if x <? 2 ^ 21 then 3%nat else
  if x <? 2 ^ 28 then 4%nat else 5%nat.

Lemma high_bits y : 0 <= y < 2 ^ 32 -> negb (Z.land y 0xfe000000 =? 0) = (2 ^ 25 <=? y).
Proof.
  intros Hy. change 0xfe000000 with (Z.shiftl (Z.ones 7) 25).
  assert (Z.land y (Z.shiftl (Z.ones 7) 25) = Z.shiftl (y / 2 ^ 25) 25) as ->.
  { rewrite <- Z.shiftr_div_pow2 by done. apply Z.bits_inj'. intros i Hi.
    rewrite Z.land_spec, !Z.shiftl_spec by done. destruct (Z.ltb_spec i 25) as [Hlt|Hge].
    - rewrite !(Z.testbit_neg_r _ (i - 25)) by lia. apply andb_false_r.
    - rewrite Z.shiftr_spec by lia. replace (i - 25 + 25) with i by lia. destruct (Z.ltb_spec (i - 25) 7).
      + rewrite Z.ones_spec_low by lia. apply andb_true_r.
      + rewrite Z.ones_spec_high by lia. rewrite andb_false_r. symmetry.
        rewrite <- (Z.mod_small y (2 ^ 32)) by done. apply Z.mod_pow2_bits_high. lia. }
  rewrite Z.shiftl_mul_pow2 by done. destruct (Z.leb_spec (2 ^ 25) y) as [Hge|Hlt].
  - apply negb_true_iff, Z.eqb_neq. assert (1 <= y / 2 ^ 25) by (apply Z.div_le_lower_bound; lia). lia.
  - rewrite Z.div_small by lia. done.
Qed.

Lemma num_bytes_eq x : 0 <= x < 2 ^ 32 -> num_bytes_loop 4 (Z.shiftr x 3) = var_size x.
Proof.
  intros Hx. unfold var_size. rewrite Z.shiftr_div_pow2 by done. set (q := x / 2 ^ 3).
  assert (8 * q <= x < 8 * q + 8) as Hq by (unfold q; pose proof (Z.div_mod x (2 ^ 3)); pose proof (Z.mod_pos_bound x (2 ^ 3)); lia).
  clearbody q. cbn [num_bytes_loop]. rewrite high_bits by lia.
  destruct (Z.leb_spec (2 ^ 25) q).
  { rewrite !(proj2 (Z.ltb_ge _ _)) by lia. done. }
  rewrite !Z.shiftl_mul_pow2 by done. rewrite (u32_id (q * 2 ^ 7)) by (unfold in_u32; lia). rewrite high_bits by lia.
  destruct (Z.leb_spec (2 ^ 25) (q * 2 ^ 7)).
  { rewrite (proj2 (Z.ltb_lt x (2 ^ 28))), !(proj2 (Z.ltb_ge _ _)) by lia. done. }
  rewrite (u32_id (q * 2 ^ 7 * 2 ^ 7)) by (unfold in_u32; lia). rewrite high_bits by lia.
  destruct (Z.leb_spec (2 ^ 25) (q * 2 ^ 7 * 2 ^ 7)).
  { rewrite (proj2 (Z.ltb_lt x (2 ^ 21))), !(proj2 (Z.ltb_ge _ _)) by lia. done. }
  rewrite (u32_id (q * 2 ^ 7 * 2 ^ 7 * 2 ^ 7)) by (unfold in_u32; lia). rewrite high_bits by lia.
  destruct (Z.leb_spec (2 ^ 25) (q * 2 ^ 7 * 2 ^ 7 * 2 ^ 7)).
  - rewrite (proj2 (Z.ltb_lt x (2 ^ 14))), !(proj2 (Z.ltb_ge _ _)) by lia. done.
  - by rewrite (proj2 (Z.ltb_lt x (2 ^ 7))) by lia.
Qed.

Lemma write_length i x : length (write_loop i x) = i.
Proof. induction i; simpl; auto. Qed.

Lemma write_size x : 0 <= x < 2 ^ 32 -> length (_LZ_WriteVarSize x) = var_size x.
Proof. intros Hx. unfold _LZ_WriteVarSize. by rewrite write_length, num_bytes_eq. Qed.

(** One byte: its seven bits, and whether another one follows. *)
Lemma write_byte v (more : bool) : 0 <= v < 128 ->
  let b := if more then Z.lor v 0x80 else v in
  Z.land b 0x7f = v /\ negb (Z.land b 0x80 =? 0) = more /\ (0 <= b < 256) /\ (more = false \/ 0 < v -> (b = 0 <-> v = 0 /\ more = false)).
Proof.
  intros Hv b. assert (Z.land v 0x80 = 0) as Hz.
  { change 0x80 with (2 ^ 7). apply Z.bits_inj'. intros i Hi. rewrite Z.land_spec, Z.bits_0.
    destruct (Z.eqb_spec i 7) as [->|Hne].
    - rewrite <- (Z.mod_small v (2 ^ 7)) by lia. by rewrite Z.mod_pow2_bits_high by lia.
    - rewrite Z.pow2_bits_false by lia. apply andb_false_r. }
  assert (Z.land v 0x7f = v) as Hl by (change 0x7f with (Z.ones 7); rewrite Z.land_ones by done; apply Z.mod_small; lia).
  destruct more; unfold b; [|rewrite Hz; split_and!; done || lia || tauto].
  assert (Z.lor v 0x80 = v + 0x80) as Eb by (rewrite <- Z.lxor_lor by done; symmetry; by apply Z.add_nocarry_lxor).
  split_and!.
  - rewrite Z.land_lor_distr_l, Hl. change (Z.land 0x80 0x7f) with 0. apply Z.lor_0_r.
  - rewrite Z.land_lor_distr_l, Hz. done.
  - lia.
  - lia.
  - lia.
Qed.

Lemma u32_step a b c : u32 (u32 a * b + c) = u32 (a * b + c).
Proof. unfold u32. by rewrite <- Zplus_mod_idemp_l, Zmult_mod_idemp_l, Zplus_mod_idemp_l. Qed.

Lemma read_write_loop x rest : 0 <= x -> forall i y n, (0 < i)%nat -> 0 <= y ->
  read_loop (write_loop i x ++ rest) y n =
    Some (u32 (y * 2 ^ (7 * Z.of_nat i) + x mod 2 ^ (7 * Z.of_nat i)), (n + i)%nat).
Proof.
  intros Hx. induction i as [|j IH]; intros y n Hi Hy; [lia|]. cbn [write_loop app read_loop].
  set (v := Z.land (Z.shiftr x (Z.of_nat j * 7)) 0x7f).
  assert (v = (x / 2 ^ (7 * Z.of_nat j)) mod 2 ^ 7) as Ev.
  { unfold v. change 0x7f with (Z.ones 7). rewrite Z.land_ones by done. rewrite Z.shiftr_div_pow2 by lia. do 3 f_equal. lia. }
  assert (0 <= v < 128) as Hv by (rewrite Ev; apply Z.mod_pos_bound; lia).
  assert (forall a, 0 <= a -> Z.lor (Z.shiftl a 7) v = a * 2 ^ 7 + v) as Hlor.
  { intros a Ha. rewrite <- Z.shiftl_mul_pow2 by done. rewrite <- Z.lxor_lor; [symmetry; apply Z.add_nocarry_lxor|];
      (apply Z.bits_inj'; intros k Hk; rewrite Z.land_spec, Z.bits_0; destruct (Z.ltb_spec k 7);
       [by rewrite Z.shiftl_spec_low by lia|rewrite <- (Z.mod_small v (2 ^ 7)) by lia; rewrite Z.mod_pow2_bits_high by lia; apply andb_false_r]). }
  set (P := 2 ^ (7 * Z.of_nat j)) in *. assert (0 < P) by (unfold P; lia).
  assert (2 ^ (7 * Z.of_nat (S j)) = P * 2 ^ 7) as -> by (unfold P; rewrite <- Z.pow_add_r by lia; f_equal; lia).
  assert (x mod (P * 2 ^ 7) = x mod P + P * v) as ->.
  { rewrite Ev. apply Z.rem_mul_r; lia. }
  destruct (write_byte v (0 <? j)%nat Hv) as (Hb1 & Hb2 & _). rewrite Hb1, Hb2, Hlor by done.
  destruct (Nat.ltb_spec 0 j) as [Hj|Hj].
  - rewrite IH by (first [exact Hj | apply u32_range]). fold P. rewrite u32_step. f_equal. f_equal; [f_equal; ring|lia].
  - assert (j = 0%nat) as -> by lia. unfold P. simpl. rewrite Z.mod_1_r. f_equal. f_equal; [f_equal; lia|lia].
Qed.

Lemma read_write x rest :
  0 <= x < 2 ^ 32 -> _LZ_ReadVarSize (_LZ_WriteVarSize x ++ rest) = Some (x, length (_LZ_WriteVarSize x)).
Proof.
  intros Hx. unfold _LZ_ReadVarSize. rewrite write_size by done. unfold _LZ_WriteVarSize. rewrite num_bytes_eq by done.
  assert (0 < var_size x)%nat by (unfold var_size; repeat case_match; lia).
  rewrite read_write_loop by lia. f_equal. f_equal.
  assert (x < 2 ^ (7 * Z.of_nat (var_size x))).
  { unfold var_size. destruct (Z.ltb_spec x (2 ^ 7)); [simpl; lia|]. destruct (Z.ltb_spec x (2 ^ 14)); [simpl; lia|].
    destruct (Z.ltb_spec x (2 ^ 21)); [simpl; lia|]. destruct (Z.ltb_spec x (2 ^ 28)); simpl; lia. }
  rewrite Z.mod_small by lia. rewrite Z.mul_0_l. by rewrite u32_id.
Qed.

(** The first byte of a number that is not zero is not zero. *)
Lemma write_first x : 0 < x < 2 ^ 32 -> exists b bs, _LZ_WriteVarSize x = b :: bs /\ b <> 0.
Proof.
  intros Hx. unfold _LZ_WriteVarSize. rewrite num_bytes_eq by lia.
  assert (exists j, var_size x = S j /\ 2 ^ (7 * Z.of_nat j) <= x < 2 ^ (7 * Z.of_nat j) * 2 ^ 7 \/ var_size x = 5%nat) as [j Hj].
  { unfold var_size. destruct (Z.ltb_spec x (2 ^ 7)); [exists 0%nat; left; simpl; lia|].
    destruct (Z.ltb_spec x (2 ^ 14)); [exists 1%nat; left; simpl; lia|].
    destruct (Z.ltb_spec x (2 ^ 21)); [exists 2%nat; left; simpl; lia|].
    destruct (Z.ltb_spec x (2 ^ 28)); [exists 3%nat; left; simpl; lia|]. exists 0%nat. by right. }
  assert (exists j, var_size x = S j /\ (j = 0%nat -> x < 2 ^ 7)) as (k & -> & Hk).
  { destruct Hj as [[-> Hj]|E].
    - exists j. split; [done|]. intros ->. simpl in Hj. lia.
    - rewrite E. exists 4%nat. by split. }
  cbn [write_loop]. eexists _, _. split; [reflexivity|]. set (v := Z.land _ 0x7f).
  assert (v = (x / 2 ^ (Z.of_nat k * 7)) mod 2 ^ 7) as Ev.
  { unfold v. change 0x7f with (Z.ones 7). by rewrite Z.land_ones, Z.shiftr_div_pow2 by lia. }
  destruct (Nat.ltb_spec 0 k) as [Hpos|Hzero].
  - assert (0 <= v < 128) as Hv by (rewrite Ev; apply Z.mod_pos_bound; lia).
    destruct (write_byte v true Hv) as (_ & Hm & _). intros E. rewrite E in Hm. done.
  - assert (k = 0%nat) as -> by lia. rewrite Ev. simpl. rewrite Z.div_1_r, Z.mod_small by (specialize (Hk eq_refl); lia). lia.
Qed.

End VarSize.

(** ** What a code says *)

(** [coded m h cs xs]: after the history [h] the code [cs] with the marker [m] says [xs]. *)
Inductive coded (m : Z) : list Z -> list Z -> list Z -> Prop :=
| coded_nil h : coded m h [] []
| coded_byte h b cs xs : b <> m -> coded m (h ++ [b]) cs xs -> coded m h (b :: cs) (b :: xs)
| coded_marker h cs xs : coded m (h ++ [m]) cs xs -> coded m h (m :: 0%Z :: cs) (m :: xs)
| coded_copy h l o piece cs xs :
    0 < l -> 0 < o <= length h -> l <= o -> (Z.of_nat o < 2 ^ 32)%Z -> piece = take l (drop (length h - o) h) ->
    coded m (h ++ piece) cs xs ->
    coded m h (m :: _LZ_WriteVarSize (Z.of_nat l) ++ _LZ_WriteVarSize (Z.of_nat o) ++ cs) (piece ++ xs).

(** The copy of the decoder is a piece of the history when it does not overlap. *)
Lemma copy_loop_spec h0 h p l : forall n,
  n <= l -> h0 + l <= length h -> length p = l - n -> p = take (l - n) (drop h0 h) ->
  copy_loop n (Z.of_nat (length h - h0)) (h ++ p) = Some (h ++ take l (drop h0 h)).
Proof.
  intros n. revert p. induction n as [|n IH]; intros p Hn Hl Hp Ep; cbn [copy_loop].
  - by rewrite Ep, Nat.sub_0_r.
  - rewrite length_app, Hp. assert (Z.of_nat (length h + (l - S n)) - Z.of_nat (length h - h0) = Z.of_nat (h0 + (l - S n)))%Z as -> by lia.
    rewrite (proj2 (Z.ltb_ge _ _)), Nat2Z.id by lia. destruct (lookup_lt_is_Some_2 h (h0 + (l - S n))) as [b Hb]; [lia|].
    rewrite lookup_app_l, Hb by lia. simpl. rewrite <- app_assoc. apply IH; [lia|lia|rewrite length_app; simpl; lia|].
    replace (l - n) with (S (l - S n)) by lia. rewrite (take_S_r _ _ b), <- Ep; [done|]. by rewrite lookup_drop.
Qed.

(** The decoder reads back what a code says. *)
Lemma uncompress_coded m h cs xs : coded m h cs xs -> forall fuel inp inpos,
  cs <> [] -> drop inpos inp = cs -> length cs <= fuel ->
  uncompress_loop fuel inp m inpos h = Some (h ++ xs).
Proof.
  induction 1 as [h|h b cs xs Hb Hc IH|h cs xs Hc IH|h l o piece cs xs Hl Ho Hlo Ho32 Hpiece Hc IH];
    intros fuel inp inpos Hne Hdrop Hfuel; [done|..]; (destruct fuel as [|fuel]; [simpl in Hfuel; lia|]).
  - pose proof (lookup_drop inp inpos 0) as H0. rewrite Hdrop, Nat.add_0_r in H0. simpl in H0.
    assert (drop (inpos + 1) inp = cs) as Hd by (rewrite <- drop_drop, Hdrop; done).
    cbn [uncompress_loop]. rewrite <- H0. simpl. rewrite (proj2 (Z.eqb_neq _ _)) by done. simpl.
    pose proof (f_equal length Hd) as Hlen. rewrite length_drop in Hlen. destruct cs as [|c cs].
    + rewrite (proj2 (Nat.ltb_ge _ _)) by (simpl in Hlen; lia). by inversion Hc.
    + rewrite (proj2 (Nat.ltb_lt _ _)) by (simpl in Hlen; lia). simpl in Hfuel.
      rewrite (IH fuel inp (inpos + 1)); [by rewrite <- app_assoc|done|done|simpl; lia].
  - pose proof (lookup_drop inp inpos 0) as H0. pose proof (lookup_drop inp inpos 1) as H1.
    rewrite Hdrop in H0, H1. rewrite Nat.add_0_r in H0. simpl in H0, H1.
    assert (drop (inpos + 1 + 1) inp = cs) as Hd by (rewrite <- !drop_drop, Hdrop; done).
    cbn [uncompress_loop]. rewrite <- H0. simpl. rewrite Z.eqb_refl, <- H1. simpl.
    pose proof (f_equal length Hd) as Hlen. rewrite length_drop in Hlen. destruct cs as [|c cs].
    + rewrite (proj2 (Nat.ltb_ge _ _)) by (simpl in Hlen; lia). by inversion Hc.
    + rewrite (proj2 (Nat.ltb_lt _ _)) by (simpl in Hlen; lia). simpl in Hfuel.
      rewrite (IH fuel inp (inpos + 1 + 1)); [by rewrite <- app_assoc|done|done|simpl; lia].
  - set (wl := _LZ_WriteVarSize (Z.of_nat l)) in *. set (wo := _LZ_WriteVarSize (Z.of_nat o)) in *.
    destruct (write_first (Z.of_nat l)) as (b & bs & Ewl & Hb); [lia|]. fold wl in Ewl.
    pose proof (lookup_drop inp inpos 0) as H0. rewrite Hdrop, Nat.add_0_r in H0. simpl in H0.
    assert (drop (inpos + 1) inp = wl ++ wo ++ cs) as Hd1 by (rewrite <- drop_drop, Hdrop; done).
    assert (drop (inpos + 1 + length wl) inp = wo ++ cs) as Hd2 by (rewrite <- drop_drop, Hd1; apply drop_app_length).
    assert (drop (inpos + 1 + length wl + length wo) inp = cs) as Hd3 by (rewrite <- drop_drop, Hd2; apply drop_app_length).
    pose proof (lookup_drop inp (inpos + 1) 0) as H1. rewrite Hd1, Nat.add_0_r, Ewl in H1. simpl in H1.
    cbn [uncompress_loop]. rewrite <- H0. simpl. rewrite Z.eqb_refl, <- H1. simpl.
    rewrite (proj2 (Z.eqb_neq b 0)) by done. rewrite Hd1. unfold wl at 1. rewrite read_write by lia. fold wl. simpl.
    rewrite Hd2. unfold wo at 1. rewrite read_write by lia. fold wo. simpl. rewrite Nat2Z.id.
    pose proof (copy_loop_spec (length h - o) h [] l l) as Hcopy.
    replace (length h - (length h - o)) with o in Hcopy by lia. rewrite app_nil_r in Hcopy.
    rewrite Hcopy, <- Hpiece by (rewrite ?Nat.sub_diag; done || lia). simpl.
    pose proof (f_equal length Hd3) as Hlen. rewrite length_drop in Hlen. destruct cs as [|c cs].
    + rewrite (proj2 (Nat.ltb_ge _ _)) by (simpl in Hlen; lia). inversion Hc. by rewrite app_nil_r.
    + rewrite (proj2 (Nat.ltb_lt _ _)) by (simpl in Hlen; lia). simpl in Hfuel. rewrite !length_app in Hfuel.
      rewrite (IH fuel inp (inpos + 1 + length wl + length wo)); [by rewrite <- app_assoc|done|done|].
      simpl in Hfuel |- *. lia.
Qed.

(** ** The search *)

Section Search.
Context (inp : list Z) (beyond : nat -> Z).

Local Abbreviation size := (insize inp).
Local Abbreviation at' := (at_ inp beyond).

(** How many bytes agree at a position and [offset] bytes before it, in the input and without an
    overlap. *)
Definition agree (inpos offset : nat) : nat :=
  _LZ_StringCompare inp beyond inpos (inpos - offset) 0 (min (size - inpos) offset).

Lemma compare_loop_spec p1 p2 : forall n len,
  let r := compare_loop inp beyond n p1 p2 len in
  len <= r <= len + n /\ (forall k, len <= k < r -> at' (p1 + k) = at' (p2 + k)) /\
  (r < len + n -> at' (p1 + r) <> at' (p2 + r)).
Proof.
  induction n as [|n IH]; intros len; cbn [compare_loop].
  { split_and!; [lia|lia|intros k Hk; lia|lia]. }
  destruct (Z.eqb_spec (at' (p1 + len)) (at' (p2 + len))) as [E|E].
  - destruct (IH (S len)) as (H1 & H2 & H3). split_and!; [lia|lia| |intros Hr; apply H3; lia].
    intros k Hk. destruct (decide (k = len)) as [->|]; [done|]. apply H2. lia.
  - split_and!; [lia|lia|intros k Hk; lia|done].
Qed.

Lemma agree_spec inpos o :
  agree inpos o <= size - inpos /\ agree inpos o <= o /\
  (forall k, k < agree inpos o -> at' (inpos + k) = at' (inpos - o + k)).
Proof.
  unfold agree, _LZ_StringCompare. destruct (compare_loop_spec inpos (inpos - o) (min (size - inpos) o - 0) 0) as (H1 & H2 & _).
  split_and!; [lia|lia|]. intros k Hk. apply H2. lia.
Qed.

(** A common string is not longer than [agree] says. *)
Lemma agree_max inpos o l :
  l <= size - inpos -> l <= o -> (forall k, k < l -> at' (inpos + k) = at' (inpos - o + k)) -> l <= agree inpos o.
Proof.
  intros Hl Ho Heq. unfold agree, _LZ_StringCompare.
  destruct (compare_loop_spec inpos (inpos - o) (min (size - inpos) o - 0) 0) as (H1 & _ & H3).
  set (r := compare_loop _ _ _ _ _ _) in *. destruct (decide (l <= r)) as [|Hlt]; [done|].
  exfalso. apply H3; [lia|]. apply Heq. lia.
Qed.

Definition consider (inpos : nat) (best : nat * nat) (o : nat) : nat * nat := better best (agree inpos o) o.

(** An offset without a longer match makes no difference. *)
Lemma consider_short inpos best o : agree inpos o <= fst best -> consider inpos best o = best.
Proof. intros H. unfold consider, better. by rewrite (proj2 (Nat.ltb_ge _ _)). Qed.

Lemma foldl_consider_short inpos os : forall best,
  (forall o, o ∈ os -> agree inpos o <= fst best) -> foldl (consider inpos) best os = best.
Proof.
  induction os as [|o os IH]; intros best H; [done|]. simpl. rewrite consider_short by (apply H; left).
  apply IH. intros o' Ho'. apply H. by right.
Qed.

Lemma consider_grows inpos best o : fst best <= fst (consider inpos best o).
Proof. unfold consider, better. destruct (Nat.ltb_spec (fst best) (agree inpos o)); simpl; lia. Qed.

Lemma min_if (a b : nat) : (if a <? b then a else b) = min a b.
Proof. destruct (Nat.ltb_spec a b); lia. Qed.

(** The quick test leaves only offsets out that have no longer match. *)
Lemma search_loop_eq inpos : forall n o best,
  search_loop inp beyond n inpos o best = foldl (consider inpos) best (seq o n).
Proof.
  induction n as [|n IH]; intros o best; [done|]. cbn [search_loop seq foldl]. rewrite IH. f_equal.
  rewrite min_if. fold (agree inpos o). fold (consider inpos best o).
  destruct (_ && _) eqn:E; [done|]. symmetry. apply consider_short.
  destruct (decide (fst best < agree inpos o)) as [Hlt|]; [|lia]. exfalso.
  destruct (agree_spec inpos o) as (_ & _ & Heq). apply andb_false_iff in E as [E|E]; apply Z.eqb_neq in E; apply E.
  - specialize (Heq 0 ltac:(lia)). by rewrite !Nat.add_0_r in Heq.
  - by apply Heq.
Qed.

Lemma search_eq inpos :
  search inp beyond inpos = foldl (consider inpos) (3, 0) (seq 3 (min inpos LZ_MAX_OFFSET - 2)).
Proof.
  unfold search. rewrite search_loop_eq. do 2 f_equal. destruct (Nat.ltb_spec LZ_MAX_OFFSET inpos); lia.
Qed.

(** What a search at a position may find: nothing, or a match of at least four bytes. *)
Definition found (inpos : nat) (best : nat * nat) : Prop :=
  best = (3, 0) \/
  (3 < fst best /\ fst best = agree inpos (snd best) /\ 0 < snd best <= inpos /\ snd best <= LZ_MAX_OFFSET).

Lemma foldl_found inpos os : forall best,
  (forall o, o ∈ os -> 0 < o <= inpos /\ o <= LZ_MAX_OFFSET) -> found inpos best ->
  found inpos (foldl (consider inpos) best os).
Proof.
  induction os as [|o os IH]; intros best Hos Hb; [done|]. simpl. apply IH; [intros; apply Hos; by right|].
  unfold consider, better. destruct (Nat.ltb_spec (fst best) (agree inpos o)) as [Hlt|]; [|done].
  right. destruct (Hos o ltac:(left)) as [Ho1 Ho2]. simpl. split; [|done].
  destruct Hb as [->|(? & _)]; simpl in *; lia.
Qed.

Lemma search_found inpos : found inpos (search inp beyond inpos).
Proof. rewrite search_eq. apply foldl_found; [|by left]. intros o Ho%elem_of_seq. lia. Qed.

(** The result is the longest of the matches. *)
Lemma foldl_longest inpos os : forall best,
  fst best <= fst (foldl (consider inpos) best os) /\
  forall o, o ∈ os -> agree inpos o <= fst (foldl (consider inpos) best os).
Proof.
  induction os as [|o os IH]; intros best; simpl; [split; [done|by intros ? ?%elem_of_nil]|].
  destruct (IH (consider inpos best o)) as [H1 H2]. pose proof (consider_grows inpos best o). split; [lia|].
  intros o' [->|Ho']%elem_of_cons; [|by apply H2].
  enough (agree inpos o <= fst (consider inpos best o)) by lia.
  unfold consider, better. destruct (Nat.ltb_spec (fst best) (agree inpos o)); simpl; lia.
Qed.

End Search.

(** The bytes behind the input do not matter. *)
Lemma compare_loop_beyond inp b1 b2 p1 p2 : forall n len,
  p1 + len + n <= length inp -> p2 <= p1 ->
  compare_loop inp b1 n p1 p2 len = compare_loop inp b2 n p1 p2 len.
Proof.
  induction n as [|n IH]; intros len Hn Hp; [done|]. cbn [compare_loop]. unfold at_.
  destruct (lookup_lt_is_Some_2 inp (p1 + len)) as [x ->]; [lia|].
  destruct (lookup_lt_is_Some_2 inp (p2 + len)) as [y ->]; [lia|]. simpl.
  destruct (Z.eqb x y); [|done]. apply IH; lia.
Qed.

Lemma search_beyond inp b1 b2 inpos : inpos <= length inp -> search inp b1 inpos = search inp b2 inpos.
Proof.
  intros Hi. rewrite !search_eq. generalize (3, 0). induction (seq 3 _) as [|o os IH]; intros best; [done|]. simpl.
  rewrite IH. f_equal. unfold consider, agree, _LZ_StringCompare. f_equal. apply compare_loop_beyond; unfold insize; lia.
Qed.

(** ** The output *)

Definition count (m : Z) (xs : list Z) : nat := length (filter (fun b => b = m) xs).

Lemma count_cons m x xs : count m (x :: xs) = (if decide (x = m) then 1 else 0) + count m xs.
Proof. unfold count. rewrite filter_cons. by destruct (decide (x = m)). Qed.

Lemma count_app m xs ys : count m (xs ++ ys) = count m xs + count m ys.
Proof. unfold count. by rewrite filter_app, length_app. Qed.

Lemma coded_emit m h b cs xs : coded m (h ++ [b]) cs xs -> coded m h (emit_byte m b ++ cs) (b :: xs).
Proof.
  intros H. unfold emit_byte. destruct (Z.eqb_spec b m) as [->|Hne]; [by apply coded_marker|by apply coded_byte].
Qed.

Lemma emit_length m b : length (emit_byte m b) = S (count m [b]).
Proof.
  unfold emit_byte. rewrite count_cons. change (count m []) with 0. destruct (Z.eqb_spec b m), (decide (b = m)); done.
Qed.

Lemma dump_coded m xs : forall h, coded m h (concat (emit_byte m <$> xs)) xs.
Proof. induction xs as [|x xs IH]; intros h; simpl; [constructor|]. apply coded_emit, IH. Qed.

Lemma dump_length m xs : length (concat (emit_byte m <$> xs)) = length xs + count m xs.
Proof.
  induction xs as [|x xs IH]; [done|].
  change (concat (emit_byte m <$> x :: xs)) with (emit_byte m x ++ concat (emit_byte m <$> xs)).
  rewrite length_app, emit_length, IH, (count_cons m x xs), count_cons. change (count m []) with 0. simpl. lia.
Qed.

Section Compress.
Context (inp : list Z) (beyond : nat -> Z) (find : nat -> nat * nat).
Hypothesis Hsize : (Z.of_nat (length inp) < 2 ^ 32)%Z.
Hypothesis Hfind : forall p, p < length inp -> found inp beyond p (find p).

(** A match that is worth it: at least four bytes, and the code is not longer than the match. *)
Lemma good_match_cost m best p :
  found inp beyond p best -> good_match best = true -> p < length inp ->
  3 < fst best /\ 0 < snd best <= p /\ fst best <= snd best /\ fst best <= length inp - p /\
  length (emit_match m best) <= fst best /\
  forall k, k < fst best -> at_ inp beyond (p + k) = at_ inp beyond (p - snd best + k).
Proof.
  intros [->|(Hl & El & Ho & Hmax)] Hgood Hp; [done|]. destruct best as [l o]. cbn [fst snd] in *.
  destruct (agree_spec inp beyond p o) as (Hs & Hlo & Heq). unfold insize in Hs. rewrite <- El in *.
  split_and!; try lia; [|done]. unfold emit_match. cbn [length fst snd]. rewrite length_app, !write_size by lia.
  assert (Z.of_nat o <= 100000)%Z as Ho5 by (unfold LZ_MAX_OFFSET in Hmax; lia).
  assert (var_size (Z.of_nat o) <= 3).
  { unfold var_size. destruct (_ <? _)%Z; [lia|]. destruct (_ <? _)%Z; [lia|].
    destruct (Z.ltb_spec (Z.of_nat o) (2 ^ 21)); lia. }
  assert (var_size (Z.of_nat l) <= 5 /\ (l < 128 -> var_size (Z.of_nat l) = 1)) as [H5 H1].
  { unfold var_size. destruct (Z.ltb_spec (Z.of_nat l) (2 ^ 7)); [lia|]. split; [repeat destruct (_ <? _)%Z; lia|lia]. }
  unfold good_match in Hgood. rewrite !orb_true_iff, !andb_true_iff, !Nat.eqb_eq, !Z.leb_le, Nat.leb_le in Hgood.
  destruct Hgood as [[[[H8|[-> Hg]]|[-> Hg]]|[-> Hg]]|[-> Hg]]; try (rewrite H1 by lia).
  - destruct (decide (l < 128)) as [Hlt|]; [rewrite H1 by done; lia|lia].
  - assert (var_size (Z.of_nat o) = 1) as ->; [|lia]. unfold var_size. by rewrite (proj2 (Z.ltb_lt _ _)) by lia.
  - assert (var_size (Z.of_nat o) <= 2); [|lia]. unfold var_size. destruct (_ <? _)%Z; [lia|].
    by rewrite (proj2 (Z.ltb_lt _ (2 ^ 14))) by lia.
  - lia.
  - lia.
Qed.

(** The match is a piece of the history. *)
Lemma match_piece p l o :
  p + l <= length inp -> 0 < o <= p -> l <= o ->
  (forall k, k < l -> at_ inp beyond (p + k) = at_ inp beyond (p - o + k)) ->
  take l (drop p inp) = take l (drop (length (take p inp) - o) (take p inp)).
Proof.
  intros Hpl Ho Hlo Heq. rewrite length_take_le by lia. apply list_eq. intros k.
  destruct (decide (k < l)) as [Hk|Hk].
  - rewrite !lookup_take_lt, !lookup_drop, lookup_take_lt by lia. specialize (Heq k Hk). unfold at_ in Heq.
    destruct (lookup_lt_is_Some_2 inp (p + k)) as [x Ex]; [lia|].
    destruct (lookup_lt_is_Some_2 inp (p - o + k)) as [y Ey]; [lia|]. rewrite Ex, Ey in *. by simpl in Heq; subst.
  - rewrite !lookup_take_ge by lia. done.
Qed.

Lemma compress_loop_spec m : forall fuel p out,
  p < length inp -> length inp - p <= fuel ->
  exists cs, compress_loop inp beyond find fuel m p out = Some (out ++ cs) /\
    coded m (take p inp) cs (drop p inp) /\ length cs <= length inp - p + count m (drop p inp).
Proof.
  induction fuel as [|fuel IH]; intros p out Hp Hf; [lia|]. cbn [compress_loop].
  assert (forall p' e x out', p < p' <= length inp -> drop p inp = x ++ drop p' inp -> take p' inp = take p inp ++ x ->
      (forall cs, coded m (take p inp ++ x) cs (drop p' inp) -> coded m (take p inp) (e ++ cs) (drop p inp)) ->
      length e <= p' - p + count m x -> out' = out ++ e ->
      exists cs, (if 3 <? insize inp - p' then compress_loop inp beyond find fuel m p' out'
                  else Some (out' ++ dump inp m p')) = Some (out ++ cs) /\
        coded m (take p inp) cs (drop p inp) /\ length cs <= length inp - p + count m (drop p inp)) as Hstep.
  { intros p' e x out' Hp' Hd Ht Hc He ->. unfold insize. rewrite Hd, count_app. rewrite <- Hd.
    destruct (Nat.ltb_spec 3 (length inp - p')).
    - destruct (IH p' (out ++ e)) as (cs & -> & Hcs & Hlen); [lia|lia|]. exists (e ++ cs). rewrite app_assoc.
      split_and!; [done|apply Hc; by rewrite <- Ht|rewrite length_app; lia].
    - exists (e ++ dump inp m p'). rewrite app_assoc. split_and!; [done|apply Hc, dump_coded|].
      rewrite length_app. unfold dump. rewrite dump_length, length_drop. lia. }
  destruct (good_match (find p)) eqn:Hgood.
  - destruct (good_match_cost m (find p) p (Hfind p Hp) Hgood Hp) as (H3 & Ho & Hlo & Hs & Hcost & Heq).
    destruct (find p) as [l o]. cbn [fst snd] in *.
    pose proof (match_piece p l o ltac:(lia) Ho Hlo Heq) as Hpiece.
    apply (Hstep (p + l) (emit_match m (l, o)) (take l (drop p inp))); try done; [lia| | | |lia].
    + by rewrite <- drop_drop, take_drop.
    + by rewrite take_take_drop.
    + intros cs Hcs. unfold emit_match. cbn [fst snd]. rewrite <- app_comm_cons, <- app_assoc.
      rewrite <- (take_drop l (drop p inp)), drop_drop. apply coded_copy with (l := l) (o := o); try done; try lia.
      rewrite length_take_le by lia. done.
  - destruct (lookup_lt_is_Some_2 inp p Hp) as [b Hb]. assert (at_ inp beyond p = b) as -> by (unfold at_; by rewrite Hb).
    assert (drop p inp = b :: drop (p + 1) inp) as Hd by (rewrite Nat.add_1_r; by apply drop_S).
    apply (Hstep (p + 1) (emit_byte m b) [b]); try done; [lia|by rewrite Nat.add_1_r; apply take_S_r| |rewrite emit_length; lia].
    intros cs Hcs. rewrite Hd. by apply coded_emit.
Qed.

(** The marker and a code for the whole input. *)
Lemma compress_with_spec :
  inp <> [] -> exists cs, compress_with inp beyond find = Some (marker_of inp :: cs) /\
    coded (marker_of inp) [] cs inp /\ length cs <= length inp + count (marker_of inp) inp.
Proof.
  intros Hne. assert (0 < length inp) as Hpos by (destruct inp; simpl; [done|lia]). unfold compress_with.
  rewrite (proj2 (Nat.ltb_ge _ _)) by (unfold insize; lia).
  destruct (compress_loop_spec (marker_of inp) (insize inp) 0 [marker_of inp]) as (cs & -> & Hc & Hl); [done|unfold insize; lia|].
  exists cs. rewrite drop_0 in *. rewrite Nat.sub_0_r in Hl. done.
Qed.

(** The decoder restores the input. *)
Lemma compress_with_roundtrip :
  exists out, compress_with inp beyond find = Some out /\ LZ_Uncompress out = Some inp.
Proof.
  destruct (decide (inp = [])) as [Hnil|Hne].
  - exists []. unfold compress_with, insize. rewrite Hnil. done.
  - destruct (compress_with_spec Hne) as (cs & -> & Hc & _). eexists. split; [reflexivity|].
    unfold LZ_Uncompress. rewrite (proj2 (Nat.ltb_ge _ _)) by (simpl; lia).
    apply (uncompress_coded (marker_of inp) [] cs inp Hc); [|done|simpl; lia].
    intros ->. inversion Hc. congruence.
Qed.

End Compress.

(** ** The fast search *)

Section Fast.
Context (inp : list Z) (beyond : nat -> Z).
Hypothesis Hbytes : Forall (fun b => 0 <= b < 256)%Z inp.

Local Abbreviation size := (length inp).
Local Abbreviation at' := (at_ inp beyond).

(** The pair of bytes at a position as a number. *)
Definition symbols (p : nat) : Z := Z.lor (Z.shiftl (at' p) 8) (at' (p + 1)).

Lemma at_byte p : p < size -> (0 <= at' p < 256)%Z.
Proof.
  intros Hp. unfold at_. destruct (lookup_lt_is_Some_2 inp p Hp) as [b Hb]. rewrite Hb. simpl.
  exact (Forall_lookup_1 _ _ _ _ Hbytes Hb).
Qed.

Lemma symbols_inj p q :
  p + 1 < size -> q + 1 < size -> symbols p = symbols q -> at' p = at' q /\ at' (p + 1) = at' (q + 1).
Proof.
  intros Hp Hq. unfold symbols.
  assert (forall a b, 0 <= a < 256 -> 0 <= b < 256 -> Z.lor (Z.shiftl a 8) b = a * 256 + b)%Z as Hlor.
  { intros x y Hx Hy. change 256%Z with (2 ^ 8)%Z. rewrite <- Z.shiftl_mul_pow2 by done.
    rewrite <- Z.lxor_lor; [symmetry; apply Z.add_nocarry_lxor|];
      (apply Z.bits_inj'; intros k Hk; rewrite Z.land_spec, Z.bits_0; destruct (Z.ltb_spec k 8);
       [by rewrite Z.shiftl_spec_low by lia
       |rewrite <- (Z.mod_small y (2 ^ 8)) by lia; rewrite Z.mod_pow2_bits_high by lia; apply andb_false_r]). }
  pose proof (at_byte p ltac:(lia)). pose proof (at_byte (p + 1) ltac:(lia)).
  pose proof (at_byte q ltac:(lia)). pose proof (at_byte (q + 1) ltac:(lia)). rewrite !Hlor by done. lia.
Qed.

(** The last position before [i] with the pair [s]. *)
Definition last_before (i : nat) (s : Z) (o : option nat) : Prop :=
  match o with
  | Some j => j < i /\ symbols j = s /\ forall k, j < k < i -> symbols k <> s
  | None => forall k, k < i -> symbols k <> s
  end.

Lemma jump_steps m :
  let st := foldl (jump_step inp beyond) (∅, []) (seq 0 m) in
  (forall s, last_before m s (fst st !! s)) /\ length (snd st) = m /\
  forall i, i < m -> exists o, snd st !! i = Some o /\ last_before i (symbols i) o.
Proof.
  induction m as [|m IH]; [cbn [seq foldl fst snd]; split_and!; [intros s; rewrite lookup_empty; intros k Hk; lia|done|intros i Hi; lia]|].
  cbv zeta in *. rewrite seq_S, foldl_app. cbn [foldl]. set (st := foldl _ _ (seq 0 m)) in *.
  destruct st as [lt tb] eqn:Est. cbn [jump_step fst snd Nat.add] in *. fold (symbols m).
  destruct IH as (H1 & H2 & H3). split_and!.
  - intros s. destruct (decide (s = symbols m)) as [->|Hne].
    + rewrite lookup_insert_eq. split_and!; [lia|done|intros k Hk; lia].
    + rewrite lookup_insert_ne by done. specialize (H1 s). destruct (lt !! s) as [j|]; simpl in *.
      * destruct H1 as (Hj & Es & Hk). split_and!; [lia|done|]. intros k Hk'. destruct (decide (k = m)) as [->|]; [congruence|].
        apply Hk. lia.
      * intros k Hk. destruct (decide (k = m)) as [->|]; [congruence|]. apply H1. lia.
  - rewrite length_app, H2. simpl. lia.
  - intros i Hi. destruct (decide (i = m)) as [->|Hne].
    + exists (lt !! symbols m). split; [by rewrite lookup_app_r, H2, Nat.sub_diag by lia|apply H1].
    + rewrite lookup_app_l by lia. apply H3. lia.
Qed.

Lemma jump_last i : i + 1 < size -> last_before i (symbols i) (jump inp beyond i).
Proof.
  intros Hi. unfold jump, jumptable. destruct (jump_steps (insize inp - 1)) as (_ & Hl & H).
  destruct (H i) as (o & Ho & Hp); [unfold insize; lia|]. rewrite lookup_app_l by (unfold insize in *; lia). by rewrite Ho.
Qed.

Lemma jump_end : 0 < size -> jump inp beyond (size - 1) = None.
Proof.
  intros Hi. unfold jump, jumptable. destruct (jump_steps (insize inp - 1)) as (_ & Hl & _).
  rewrite lookup_app_r by (unfold insize in *; lia). rewrite Hl. unfold insize. by rewrite Nat.sub_diag.
Qed.

(** Another pair, no match. *)
Lemma other_pair p o : p + 1 < size -> 0 < o <= p -> symbols (p - o) <> symbols p -> agree inp beyond p o <= 1.
Proof.
  intros Hp Ho Hne. destruct (agree_spec inp beyond p o) as (_ & _ & Heq).
  destruct (decide (agree inp beyond p o <= 1)) as [|Hgt]; [done|]. exfalso. apply Hne. unfold symbols.
  pose proof (Heq 0 ltac:(lia)) as E0. pose proof (Heq 1 ltac:(lia)) as E1. rewrite !Nat.add_0_r in E0. by rewrite E0, E1.
Qed.

(** The comparison that skips the pair makes the same difference. *)
Lemma skip_pair p j best :
  p + 1 < size -> j < p -> symbols j = symbols p -> 3 <= fst best ->
  (if (at' (j + fst best) =? at' (p + fst best))%Z
   then better best (_LZ_StringCompare inp beyond p j 2 (min (size - p) (p - j))) (p - j) else best)
  = consider inp beyond p best (p - j).
Proof.
  intros Hp Hj Hs Hb. apply symbols_inj in Hs as [E0 E1]; [|lia|lia].
  pose proof (agree_spec inp beyond p (p - j)) as (Ha1 & Ha2 & Heq). replace (p - (p - j)) with j in Heq by lia.
  destruct (Z.eqb_spec (at' (j + fst best)) (at' (p + fst best))) as [_|Hne].
  2: { symmetry. apply consider_short. destruct (decide (fst best < agree inp beyond p (p - j))); [|lia].
       exfalso. apply Hne. symmetry. by apply Heq. }
  unfold consider. destruct (decide (2 <= min (size - p) (p - j))) as [H2|H2].
  - f_equal. unfold agree, _LZ_StringCompare, insize. replace (p - (p - j)) with j by lia.
    destruct (min (size - p) (p - j)) as [|[|n]]; [lia|lia|]. cbn [Nat.sub compare_loop].
    rewrite !Nat.add_0_r, E0, Z.eqb_refl, E1, Z.eqb_refl. by rewrite ?Nat.sub_0_r.
  - assert (_LZ_StringCompare inp beyond p j 2 (min (size - p) (p - j)) = 2) as ->.
    { unfold _LZ_StringCompare. by replace (_ - 2) with 0 by lia. }
    unfold insize in Ha1. unfold better. by rewrite !(proj2 (Nat.ltb_ge _ _)) by lia.
Qed.

(** The table leads to all positions with the same pair. *)
Lemma fast_loop_eq p : p + 1 < size -> forall n q best,
  q <= p -> symbols q = symbols p -> q <= n -> 3 <= fst best ->
  fast_loop inp beyond n p (jump inp beyond q) best =
    foldl (consider inp beyond p) best (seq (p - q + 1) (min p (LZ_MAX_OFFSET - 1) - (p - q))).
Proof.
  intros Hp. induction n as [|n IH]; intros q best Hq Hs Hn Hb.
  { assert (q = 0) as -> by lia. rewrite Nat.sub_0_r. by replace (min p _ - p) with 0 by lia. }
  pose proof (jump_last q ltac:(lia)) as Hj. rewrite Hs in Hj.
  assert (forall a k, p - q < a -> (forall x, p < x + (a + k) -> x < q -> symbols x <> symbols p) -> a + k <= p + 1 ->
    foldl (consider inp beyond p) best (seq a k) = best) as Hnone.
  { intros a k Ha Hx Hak. apply foldl_consider_short. intros o Ho%elem_of_seq.
    pose proof (other_pair p o Hp ltac:(lia)) as H1. enough (agree inp beyond p o <= 1) by lia. apply H1, Hx; lia. }
  cbn [fast_loop]. destruct (jump inp beyond q) as [j|] eqn:Ej; simpl in Hj.
  - destruct Hj as (Hjq & Hjs & Hjk). unfold insize. rewrite min_if.
    destruct (Nat.ltb_spec (p - j) LZ_MAX_OFFSET) as [Hlt|Hge].
    + rewrite (skip_pair p j best Hp ltac:(lia) Hjs Hb).
      assert (3 <= fst (consider inp beyond p best (p - j))) as Hb'.
      { pose proof (consider_grows inp beyond p best (p - j)). lia. }
      rewrite (IH j _ ltac:(lia) Hjs ltac:(lia) Hb').
      replace (min p (LZ_MAX_OFFSET - 1) - (p - q)) with ((q - j - 1) + (1 + (min p (LZ_MAX_OFFSET - 1) - (p - j)))) by lia.
      rewrite !seq_app, !foldl_app. rewrite (Hnone (p - q + 1) (q - j - 1)).
      * cbn [seq foldl]. replace (p - q + 1 + (q - j - 1)) with (p - j) by lia. done.
      * lia.
      * intros x Hx1 Hx2. apply Hjk. lia.
      * lia.
    + symmetry. apply Hnone; [lia|intros x Hx1 Hx2; apply Hjk; lia|lia].
  - symmetry. apply Hnone; [lia|intros x Hx1 Hx2; apply Hj; lia|lia].
Qed.

Lemma fast_search_eq p : p + 1 < size ->
  fast_search inp beyond p = foldl (consider inp beyond p) (3, 0) (seq 1 (min p (LZ_MAX_OFFSET - 1))).
Proof.
  intros Hp. unfold fast_search. rewrite (fast_loop_eq p Hp p p (3, 0)) by (simpl; lia || done).
  by rewrite Nat.sub_diag, Nat.sub_0_r.
Qed.

Lemma fast_search_end : 0 < size -> fast_search inp beyond (size - 1) = (3, 0).
Proof. intros Hs. unfold fast_search. rewrite jump_end by done. by destruct (size - 1). Qed.

Lemma fast_search_found p : p < size -> found inp beyond p (fast_search inp beyond p).
Proof.
  intros Hp. destruct (decide (p + 1 < size)) as [Hp1|Hp1].
  - rewrite fast_search_eq by done. apply foldl_found; [|by left]. intros o Ho%elem_of_seq. lia.
  - assert (p = size - 1) as -> by lia. rewrite fast_search_end by lia. by left.
Qed.

(** Up to the size of the window both searches find the same match. *)
Lemma fast_search_agrees p :
  size <= LZ_MAX_OFFSET -> p < size -> fast_search inp beyond p = search inp beyond p.
Proof.
  intros Hmax Hp. rewrite search_eq. replace (min p LZ_MAX_OFFSET) with p by lia.
  destruct (decide (p + 1 < size)) as [Hp1|Hp1].
  - rewrite fast_search_eq by done. replace (min p (LZ_MAX_OFFSET - 1)) with p by lia.
    assert (forall os, (forall o, o ∈ os -> o <= 2) -> foldl (consider inp beyond p) (3, 0) os = (3, 0)) as Hsmall.
    { intros os Hos. apply foldl_consider_short. intros o Ho. specialize (Hos o Ho).
      pose proof (agree_spec inp beyond p o). simpl. lia. }
    destruct (decide (p <= 2)) as [Hle|Hgt].
    + replace (p - 2) with 0 by lia. apply Hsmall. intros o Ho%elem_of_seq. lia.
    + replace p with (2 + (p - 2)) at 2 by lia. rewrite seq_app, foldl_app, Hsmall; [done|]. intros o Ho%elem_of_seq. lia.
  - assert (p = size - 1) as -> by lia. rewrite fast_search_end by lia. symmetry. apply foldl_consider_short.
    intros o _. pose proof (agree_spec inp beyond (size - 1) o) as (H & _). unfold insize in H. simpl. lia.
Qed.

End Fast.

(** ** The marker *)

Section Marker.
Context (inp : list Z).
Hypothesis Hbytes : Forall (fun b => 0 <= b < 256)%Z inp.
Hypothesis Hsize : (Z.of_nat (length inp) < 2 ^ 32)%Z.

(** The histogram counts. *)
Lemma histogram_counts i : i < 256 -> histogram inp !!! i = Z.of_nat (count (Z.of_nat i) inp).
Proof.
  intros Hi. unfold histogram.
  enough (forall h, length h = 256 -> (forall x, x ∈ inp -> 0 <= x < 256)%Z ->
    (h !!! i + Z.of_nat (count (Z.of_nat i) inp) < 2 ^ 32)%Z -> (0 <= h !!! i)%Z ->
    foldl (fun h b => alter (fun c => u32 (c + 1)) (Z.to_nat b) h) h inp !!! i =
      (h !!! i + Z.of_nat (count (Z.of_nat i) inp))%Z) as H.
  { assert (replicate 256 0%Z !!! i = 0%Z) as E by (by rewrite lookup_total_replicate_2).
    rewrite H, E; [done|done|by apply Forall_forall| |by rewrite E].
    rewrite E. assert (count (Z.of_nat i) inp <= length inp) by apply length_filter. lia. }
  clear Hbytes Hsize. induction inp as [|b l IH]; intros h Hh Hb Hlt Hpos; simpl; [change (count _ []) with 0; lia|].
  specialize (Hb b ltac:(left)) as Hb0.
  destruct (lookup_lt_is_Some_2 h (Z.to_nat b)) as [c Hc]; [lia|].
  assert (alter (fun c => u32 (c + 1)) (Z.to_nat b) h !!! i =
    (h !!! i + (if decide (b = Z.of_nat i) then 1 else 0))%Z) as Ea.
  { destruct (decide (b = Z.of_nat i)) as [->|Hne].
    - rewrite Nat2Z.id in Hc |- *. rewrite (list_lookup_total_correct _ _ (u32 (c + 1))) by (by rewrite list_lookup_alter_eq, Hc).
      apply list_lookup_total_correct in Hc. rewrite Hc in *. rewrite count_cons, decide_True in Hlt by done.
      apply u32_id. unfold in_u32. lia.
    - rewrite list_lookup_total_alter_ne by lia. lia. }
  rewrite IH; [|by rewrite length_alter|intros x Hx; apply Hb; by right| |].
  - rewrite Ea, count_cons. destruct (decide (b = Z.of_nat i)); lia.
  - rewrite Ea. rewrite count_cons in Hlt. destruct (decide (b = Z.of_nat i)); lia.
  - rewrite Ea. destruct (decide (b = Z.of_nat i)); lia.
Qed.

Lemma find_marker_least (hist : list Z) : forall (ks : list nat) (m : nat),
  let r := foldl (fun m i => if (hist !!! i <? hist !!! m)%Z then i else m) m ks in
  (r = m \/ r ∈ ks) /\ forall i, i = m \/ i ∈ ks -> (hist !!! r <= hist !!! i)%Z.
Proof.
  induction ks as [|x ks IH]; intros m; simpl; [split; [by left|intros i [->|Hi]; [done|by apply elem_of_nil in Hi]]|].
  destruct (IH (if (hist !!! x <? hist !!! m)%Z then x else m)) as [H1 H2].
  set (r := foldl _ _ ks) in *. assert (hist !!! r <= hist !!! x /\ hist !!! r <= hist !!! m)%Z as [Hx Hm].
  { pose proof (H2 _ ltac:(by left)) as H. destruct (Z.ltb_spec (hist !!! x) (hist !!! m)); lia. }
  split.
  - destruct H1 as [->|H1]; [|right; by right]. destruct (_ <? _)%Z; [right; left|by left].
  - intros i [->|[->|Hi]%elem_of_cons]; [done|done|]. apply H2. by right.
Qed.

(** No byte is counted twice. *)
Definition total_count (l : list Z) (ks : list nat) : nat := foldr (fun i n => count (Z.of_nat i) l + n) 0 ks.

Lemma total_count_absent b ks : (forall i, i ∈ ks -> b <> Z.of_nat i) -> forall l, total_count (b :: l) ks = total_count l ks.
Proof.
  intros H l. induction ks as [|i ks IH]; [done|]. cbn [total_count foldr]. fold (total_count (b :: l) ks) (total_count l ks).
  rewrite count_cons, decide_False by (apply H; left). rewrite IH; [done|]. intros j Hj. apply H. by right.
Qed.

Lemma total_count_le ks : NoDup ks -> forall l, total_count l ks <= length l.
Proof.
  intros Hnd. induction l as [|b l IH].
  - clear Hnd. induction ks as [|i ks IH]; [done|]. exact IH.
  - enough (total_count (b :: l) ks <= S (total_count l ks)) by (simpl; lia). clear IH.
    induction Hnd as [|i ks Hi Hnd IH]; [simpl; lia|]. cbn [total_count foldr].
    fold (total_count (b :: l) ks) (total_count l ks). rewrite count_cons.
    destruct (decide (b = Z.of_nat i)) as [E|E]; [|lia]. rewrite total_count_absent; [lia|].
    intros j Hj E'. assert (i = j) as -> by lia. done.
Qed.

Lemma total_count_ge c l ks : (forall i, i ∈ ks -> c <= count (Z.of_nat i) l) -> length ks * c <= total_count l ks.
Proof.
  induction ks as [|i ks IH]; intros H; [simpl; lia|]. cbn [total_count foldr length]. fold (total_count l ks).
  pose proof (H i ltac:(left)). enough (length ks * c <= total_count l ks) by lia. apply IH. intros j Hj. apply H. by right.
Qed.

(** The marker is rare. *)
Lemma marker_rare : 256 * count (marker_of inp) inp <= length inp.
Proof.
  unfold marker_of, find_marker. destruct (find_marker_least (histogram inp) (seq 1 255) 0) as [Hin Hle].
  set (m := foldl _ 0 _) in *. assert (m < 256) as Hm by (destruct Hin as [->|Hin%elem_of_seq]; lia).
  pose proof (total_count_le (seq 0 256) (NoDup_seq 0 256) inp) as Htot.
  pose proof (total_count_ge (count (Z.of_nat m) inp) inp (seq 0 256)) as Hge. rewrite length_seq in Hge.
  enough (256 * count (Z.of_nat m) inp <= total_count inp (seq 0 256)) by lia. apply Hge. intros i Hi%elem_of_seq.
  specialize (Hle i). rewrite !histogram_counts in Hle by lia.
  enough (Z.of_nat (count (Z.of_nat m) inp) <= Z.of_nat (count (Z.of_nat i) inp))%Z by lia. apply Hle.
  destruct (decide (i = 0)) as [->|]; [by left|right; apply elem_of_seq; lia].
Qed.

End Marker.

(** ** Theorems *)

(** A buffer: bytes, fewer than 2^32. *)
Definition buffer (inp : list Z) : Prop :=
  Forall (fun b => 0 <= b < 256)%Z inp /\ (Z.of_nat (length inp) < 2 ^ 32)%Z.

(** C38: The compression is lossless: for every buffer both coders finish, and the decoder restores
    the buffer from what either of them has written, without reading or writing outside of its
    buffers. *)
Theorem lz_roundtrip inp beyond :
  buffer inp ->
  (exists out, LZ_Compress inp beyond = Some out /\ LZ_Uncompress out = Some inp) /\
  (exists out, LZ_CompressFast inp beyond = Some out /\ LZ_Uncompress out = Some inp).
Proof.
  intros [Hb Hs]. split; apply compress_with_roundtrip; try done.
  - intros p _. apply search_found.
  - intros p Hp. by apply fast_search_found.
Qed.

(** The output fits the buffer that the comment asks for: it is at most one 256th larger than
    the input, plus one byte. *)
Theorem lz_output_bound inp beyond out :
  buffer inp -> LZ_Compress inp beyond = Some out \/ LZ_CompressFast inp beyond = Some out ->
  256 * length out <= 257 * length inp + 256.
Proof.
  intros [Hb Hs] Hout. pose proof (marker_rare inp Hb Hs) as Hm.
  assert (forall find, (forall p, p < length inp -> found inp beyond p (find p)) ->
    compress_with inp beyond find = Some out -> 256 * length out <= 257 * length inp + 256) as H.
  { intros find Hf E. destruct (decide (inp = [])) as [Hnil|Hne].
    - unfold compress_with, insize in E. rewrite Hnil in E. injection E as <-. simpl. lia.
    - destruct (compress_with_spec inp beyond find Hs Hf Hne) as (cs & E' & _ & Hl). rewrite E in E'. injection E' as ->.
      simpl. lia. }
  destruct Hout as [E|E]; (eapply H; [|exact E]).
  - intros p _. apply search_found.
  - intros p Hp. by apply fast_search_found.
Qed.

Lemma compress_loop_ext inp b1 b2 f g m : (forall p, p < length inp -> f p = g p) -> forall fuel p out,
  p < length inp -> compress_loop inp b1 f fuel m p out = compress_loop inp b2 g fuel m p out.
Proof.
  intros Hfg. induction fuel as [|fuel IH]; intros p out Hp; [done|]. cbn [compress_loop]. rewrite Hfg by done.
  assert (at_ inp b1 p = at_ inp b2 p) as -> by (unfold at_; destruct (lookup_lt_is_Some_2 inp p Hp) as [x ->]; done).
  unfold insize. destruct (good_match (g p)).
  - destruct (Nat.ltb_spec 3 (length inp - (p + fst (g p)))); [|done]. apply IH. lia.
  - destruct (Nat.ltb_spec 3 (length inp - (p + 1))); [|done]. apply IH. lia.
Qed.

(** C39: The fast coder is an optimisation: up to the size of the window it writes exactly what the
    search through all offsets writes, and neither depends on the bytes behind the input, of
    which one may be read. *)
Theorem lz_fast_equal inp b1 b2 :
  buffer inp -> length inp <= LZ_MAX_OFFSET ->
  LZ_CompressFast inp b1 = LZ_Compress inp b1 /\ LZ_Compress inp b1 = LZ_Compress inp b2.
Proof.
  intros [Hb Hs] Hmax. unfold LZ_CompressFast, LZ_Compress, compress_with, insize.
  destruct (Nat.ltb_spec (length inp) 1) as [|Hpos]; [done|]. split; apply compress_loop_ext; try lia.
  - intros p Hp. by apply fast_search_agrees.
  - intros p Hp. apply search_beyond. lia.
Qed.

(** The search finds a longest match: no offset in the window has a longer common string with
    the position, within the input and without overlap, than the one that is chosen; and what is
    chosen is such a string. *)
Theorem search_longest inp beyond p o l :
  3 <= o <= p -> o <= LZ_MAX_OFFSET -> l <= o -> l <= length inp - p ->
  (forall k, k < l -> at_ inp beyond (p + k) = at_ inp beyond (p - o + k)) ->
  l <= fst (search inp beyond p) /\
  (search inp beyond p = (3, 0) \/
   forall k, k < fst (search inp beyond p) -> at_ inp beyond (p + k) = at_ inp beyond (p - snd (search inp beyond p) + k)).
Proof.
  intros Ho Hmax Hlo Hl Heq. split.
  - rewrite search_eq. etransitivity; [apply (agree_max inp beyond p o l); done|].
    apply foldl_longest, elem_of_seq. lia.
  - destruct (search_found inp beyond p) as [->|(_ & E & _)]; [by left|right]. rewrite E. apply agree_spec.
Qed.

(** *** Witnesses *)

Definition sample : list Z := [1; 2; 3; 4; 5; 1; 2; 3; 4; 5; 1; 2; 3; 4; 5; 0; 7]%Z.

Lemma sample_buffer : buffer sample.
Proof. split; [|reflexivity]. unfold sample. repeat constructor; discriminate || reflexivity. Qed.

Lemma lz_roundtrip_witness : exists out, LZ_Compress sample (fun _ => 0%Z) = Some out /\ LZ_Uncompress out = Some sample.
Proof. apply (lz_roundtrip sample (fun _ => 0%Z) sample_buffer). Defined.

Lemma lz_output_bound_witness : 256 * 14 <= 257 * 17 + 256.
Proof.
  apply (lz_output_bound sample (fun _ => 0%Z) [6; 1; 2; 3; 4; 5; 6; 5; 5; 6; 5; 5; 0; 7]%Z sample_buffer).
  left. vm_compute. reflexivity.
Defined.

Lemma lz_fast_equal_witness : LZ_CompressFast sample (fun _ => 0%Z) = LZ_Compress sample (fun _ => 0%Z).
Proof. apply (lz_fast_equal sample (fun _ => 0%Z) (fun _ => 0%Z) sample_buffer). apply Nat.leb_le. reflexivity. Defined.

Lemma search_longest_witness : 4 <= fst (search sample (fun _ => 0%Z) 5).
Proof.
  apply (search_longest sample (fun _ => 0%Z) 5 5 4).
  - split; apply Nat.leb_le; reflexivity.
  - apply Nat.leb_le; reflexivity.
  - apply Nat.leb_le; reflexivity.
  - apply Nat.leb_le; reflexivity.
  - intros [|[|[|[|k]]]] Hk; [reflexivity|reflexivity|reflexivity|reflexivity|lia].
Defined.

End LzProofs.
