(* ===== verification/Cache.v ===== *)
(** * The caches

    [cache.c] of the Cortex-M7 port: switching the caches, the operations on all lines by set and
    way, and those on a range of addresses.  The operations of the hardware are writes to
    registers; the model keeps their sequence and the configuration register [CCR].  The
    geometry of the cache is what [CCSIDR] reads, an argument. *)

From S2P Require Import Prelude.
From stdpp Require Import base numbers list.
From Stdlib Require Import ZArith Lia.
Local Open Scope Z_scope.

Module Cache.

(** Writes to the registers of the caches, and the barriers. *)
Inductive op : Set :=
| DSB | ISB
| ICIALLU (v : Z)
| CSSELR (v : Z)
| DCISW (v : Z) | DCCSW (v : Z) | DCCISW (v : Z)
| DCIMVAC (a : Z) | DCCMVAC (a : Z) | DCCIMVAC (a : Z)
| CCR (v : Z).

Definition SCB_CCSIDR_NUMSETS_BIT : Z := 13.
Definition SCB_CCSIDR_NUMSETS : Z := Z.shiftl 0x7FFF SCB_CCSIDR_NUMSETS_BIT.
Definition SCB_CCSIDR_ASSOCIATIVITY_BIT : Z := 3.
Definition SCB_CCSIDR_ASSOCIATIVITY : Z := Z.shiftl 0x3FF SCB_CCSIDR_ASSOCIATIVITY_BIT.
Definition SCB_SW_WAY_BIT : Z := 30.
Definition SCB_SW_WAY : Z := Z.shiftl 3 SCB_SW_WAY_BIT.
Definition SCB_SW_SET_BIT : Z := 5.
Definition SCB_SW_SET : Z := Z.shiftl 0x1FF SCB_SW_SET_BIT.

(** The header compares where it means to shift: [(1U<16U)] and [(1U<17U)]. *)
Definition SCB_CCR_DCACHE : Z := if 1 <? 16 then 1 else 0.
Definition SCB_CCR_ICACHE : Z := if 1 <? 17 then 1 else 0.

Definition CCSIDR_WAYS (x : Z) : Z := Z.shiftr (Z.land x SCB_CCSIDR_ASSOCIATIVITY) SCB_CCSIDR_ASSOCIATIVITY_BIT.
Definition CCSIDR_SETS (x : Z) : Z := Z.shiftr (Z.land x SCB_CCSIDR_NUMSETS) SCB_CCSIDR_NUMSETS_BIT.

(** The configuration register and the operations so far. *)
Record cache : Type := CacheHw { c_ccr : Z; c_ops : list op }.

Definition emit (o : op) (c : cache) : cache := CacheHw (c_ccr c) (c_ops c ++ [o]).
Definition set_ccr (v : Z) (c : cache) : cache := CacheHw v (c_ops c ++ [CCR v]).

(** ** By set and way *)

Definition set_way (sets ways : Z) : Z :=
  Z.lor (Z.land (u32 (Z.shiftl sets SCB_SW_SET_BIT)) SCB_SW_SET) (Z.land (u32 (Z.shiftl ways SCB_SW_WAY_BIT)) SCB_SW_WAY).

(** [do { ... } while( ways-- )]: the counter goes down to zero, [ways + 1] rounds. *)
Fixpoint ways_loop (f : Z -> op) (sets : Z) (ways : nat) (c : cache) : cache :=
  let c := emit (f (set_way sets (Z.of_nat ways))) c in
  match ways with O => c | S ways => ways_loop f sets ways c end.

Fixpoint sets_loop (f : Z -> op) (ways : nat) (sets : nat) (c : cache) : cache :=
  let c := ways_loop f (Z.of_nat sets) ways c in
  match sets with O => c | S sets => sets_loop f ways sets c end.

Definition all_lines (ccsidr : Z) (f : Z -> op) (c : cache) : cache :=
  sets_loop f (Z.to_nat (CCSIDR_WAYS ccsidr)) (Z.to_nat (CCSIDR_SETS ccsidr)) c.

Section Operations.
Context (ccsidr : Z).

Definition isix_icache_enable (yes : bool) (c : cache) : cache :=
  let c := emit (ICIALLU 0) (emit ISB (emit DSB c)) in
  let c := if yes then set_ccr (Z.lor (c_ccr c) SCB_CCR_ICACHE) c
           else set_ccr (Z.land (c_ccr c) (Z.lnot SCB_CCR_ICACHE)) c in
  emit ISB (emit DSB c).

Definition isix_inval_icache (c : cache) : cache :=
  emit ISB (emit DSB (emit (ICIALLU 0) (emit ISB (emit DSB c)))).

Definition dcache_enable (c : cache) : cache :=
  let c := emit DSB (emit (CSSELR 0) c) in
  let c := emit DSB (all_lines ccsidr DCISW c) in
  let c := set_ccr (Z.lor (c_ccr c) SCB_CCR_DCACHE) c in
  emit ISB (emit DSB c).

Definition dcache_disable (c : cache) : cache :=
  let c := emit DSB (emit (CSSELR 0) c) in
  let c := set_ccr (Z.land (c_ccr c) (Z.lxor 0xffffffff SCB_CCR_DCACHE)) c in
  emit ISB (emit DSB (all_lines ccsidr DCCISW c)).

Definition isix_dcache_enable (yes : bool) (c : cache) : cache :=
  if yes then dcache_enable c else dcache_disable c.

Definition isix_inval_dcache (c : cache) : cache :=
  emit ISB (emit DSB (all_lines ccsidr DCISW (emit DSB (emit (CSSELR 0) c)))).

Definition isix_clean_dcache (c : cache) : cache :=
  emit ISB (emit DSB (all_lines ccsidr DCCSW (emit DSB (emit (CSSELR 0) c)))).

Definition isix_clean_inval_dcache (c : cache) : cache :=
  emit ISB (emit DSB (all_lines ccsidr DCCISW (emit DSB (emit (CSSELR 0) c)))).

End Operations.

(** ** By address *)

Definition linesize : Z := 32.

(** [op_size] is a signed number. *)
Fixpoint addr_loop (fuel : nat) (f : Z -> op) (op_addr op_size : Z) (c : cache) : option cache :=
  if 0 <? op_size then
    match fuel with
    | O => None
    | S fuel => addr_loop fuel f (u32 (op_addr + linesize)) (op_size - linesize) (emit (f op_addr) c)
    end
  else Some c.

(** At most 2^26 lines of 32 bytes have a positive signed size. *)
Definition by_addr (f : Z -> op) (addr dsize : Z) (c : cache) : option cache :=
  let op_size := i32 dsize in
  addr_loop (Z.to_nat (op_size / linesize + 1)) f addr op_size (emit DSB c).

Definition isix_inval_dcache_by_addr (addr dsize : Z) (c : cache) : option cache :=
  c ← by_addr DCIMVAC addr dsize c; Some (emit ISB (emit DSB c)).

Definition isix_clean_dcache_by_addr (addr dsize : Z) (c : cache) : option cache :=
  c ← by_addr DCCMVAC addr dsize c; Some (emit ISB (emit DSB c)).

Definition isix_clean_inval_dcache_by_addr (addr dsize : Z) (c : cache) : option cache :=
  c ← by_addr DCCIMVAC addr dsize c; Some (emit DSB (emit DSB c)).

(** ** Properties *)

(** *** All lines *)

Lemma ways_loop_ops f sets ways c : forall o,
  o ∈ c_ops (ways_loop f sets ways c) <-> o ∈ c_ops c \/ exists w, (w <= ways)%nat /\ o = f (set_way sets (Z.of_nat w)).
Proof.
  revert c. induction ways as [|ways IH]; intros c o; cbn [ways_loop].
  - simpl. rewrite elem_of_app, list_elem_of_singleton. split.
    + intros [H|H]; [by left|right]. exists 0%nat. by split.
    + intros [H|(w & Hw & ->)]; [by left|right]. by replace w with 0%nat by lia.
  - rewrite IH. simpl. rewrite elem_of_app, list_elem_of_singleton. split.
    + intros [[H|H]|(w & Hw & ->)]; [by left|right; by exists (S ways)|right; exists w; split; [lia|done]].
    + intros [H|(w & Hw & ->)]; [by left; left|]. destruct (decide (w = S ways)) as [->|]; [by left; right|right].
      exists w. split; [lia|done].
Qed.

Lemma sets_loop_ops f ways sets c : forall o,
  o ∈ c_ops (sets_loop f ways sets c) <-> o ∈ c_ops c \/
    exists s w, (s <= sets)%nat /\ (w <= ways)%nat /\ o = f (set_way (Z.of_nat s) (Z.of_nat w)).
Proof.
  revert c. induction sets as [|sets IH]; intros c o; cbn [sets_loop].
  - rewrite ways_loop_ops. split.
    + intros [H|(w & Hw & ->)]; [by left|right]. by exists 0%nat, w.
    + intros [H|(s & w & Hs & Hw & ->)]; [by left|right]. exists w. by replace s with 0%nat by lia.
  - rewrite IH, ways_loop_ops. split.
    + intros [[H|(w & Hw & ->)]|(s & w & Hs & Hw & ->)]; [by left|right; by exists (S sets), w|right].
      exists s, w. split; [lia|done].
    + intros [H|(s & w & Hs & Hw & ->)]; [by left; left|].
      destruct (decide (s = S sets)) as [->|]; [left; right; by exists w|right]. exists s, w. split; [lia|done].
Qed.

(** The fields of the word are the set and the way, when they fit. *)
Lemma set_way_fields s w : 0 <= s < 512 -> 0 <= w < 4 -> set_way s w = s * 32 + w * 2 ^ 30.
Proof.
  intros Hs Hw. unfold set_way. change SCB_SW_SET_BIT with 5. change SCB_SW_WAY_BIT with 30.
  rewrite !Z.shiftl_mul_pow2 by done. rewrite !u32_id by (unfold in_u32; lia).
  assert (Z.land (s * 2 ^ 5) SCB_SW_SET = s * 2 ^ 5) as ->.
  { unfold SCB_SW_SET, SCB_SW_SET_BIT. change 0x1FF with (Z.ones 9).
    by rewrite <- Z.shiftl_mul_pow2, <- Z.shiftl_land, Z.land_ones, Z.mod_small by lia. }
  assert (Z.land (w * 2 ^ 30) SCB_SW_WAY = w * 2 ^ 30) as ->.
  { unfold SCB_SW_WAY, SCB_SW_WAY_BIT. change 3 with (Z.ones 2).
    by rewrite <- Z.shiftl_mul_pow2, <- Z.shiftl_land, Z.land_ones, Z.mod_small by lia. }
  assert (Z.land (s * 2 ^ 5) (w * 2 ^ 30) = 0) as Hz.
  { apply Z.bits_inj'. intros i Hi. rewrite Z.land_spec, Z.bits_0, <- !Z.shiftl_mul_pow2 by done.
    destruct (Z.ltb_spec i 30).
    - rewrite (Z.shiftl_spec_low _ 30) by lia. apply andb_false_r.
    - rewrite Z.shiftl_mul_pow2 by done. rewrite <- (Z.mod_small (s * 2 ^ 5) (2 ^ 30)) by lia.
      by rewrite Z.mod_pow2_bits_high by lia. }
  rewrite <- Z.lxor_lor by done. rewrite <- Z.add_nocarry_lxor by done. lia.
Qed.

(** *** A range of addresses *)

Lemma addr_loop_spec f : forall fuel a n c,
  0 <= a -> n <= 32 * Z.of_nat fuel -> a + n + 32 <= 2 ^ 32 ->
  exists c', addr_loop fuel f a n c = Some c' /\ forall o, o ∈ c_ops c' <->
    o ∈ c_ops c \/ exists i, 0 <= i /\ 32 * i < n /\ o = f (a + 32 * i).
Proof.
  induction fuel as [|fuel IH]; intros a n c Ha Hn He; cbn [addr_loop]; destruct (Z.ltb_spec 0 n) as [Hpos|Hneg]; try lia.
  - exists c. split; [done|]. intros o. split; [by left|intros [H|(i & ? & ? & _)]; [done|lia]].
  - rewrite u32_id by (unfold in_u32, linesize; lia). unfold linesize.
    destruct (IH (a + 32) (n - 32) (emit (f a) c)) as (c' & -> & Hc'); [lia|lia|lia|]. exists c'. split; [done|].
    intros o. rewrite Hc'. simpl. rewrite elem_of_app, list_elem_of_singleton. split.
    + intros [[H|H]|(i & Hi & Hin & ->)]; [by left|right; exists 0; split_and!; [lia|lia|by replace (a + 32 * 0) with a by lia]|].
      right. exists (i + 1). split_and!; [lia|lia|f_equal; lia].
    + intros [H|(i & Hi & Hin & ->)]; [by left; left|]. destruct (decide (i = 0)) as [->|].
      * left. right. by replace (a + 32 * 0) with a by lia.
      * right. exists (i - 1). split_and!; [lia|lia|f_equal; lia].
  - exists c. split; [done|]. intros o. split; [by left|intros [H|(i & ? & ? & _)]; [done|lia]].
Qed.

Lemma by_addr_spec f a n c :
  0 <= a -> 0 <= n < 2 ^ 31 -> a + n + 32 <= 2 ^ 32 ->
  exists c', by_addr f a n c = Some c' /\ forall o, o ∈ c_ops c' <->
    o ∈ c_ops c \/ o = DSB \/ exists i, 0 <= i /\ 32 * i < n /\ o = f (a + 32 * i).
Proof.
  intros Ha Hn He. unfold by_addr. rewrite i32_id by (unfold in_i32; lia). cbv zeta. unfold linesize.
  pose proof (Z.div_mod n 32). pose proof (Z.mod_pos_bound n 32). pose proof (Z.div_pos n 32).
  destruct (addr_loop_spec f (Z.to_nat (n / 32 + 1)) a n (emit DSB c)) as (c' & -> & Hc'); [done|lia|lia|].
  exists c'. split; [done|]. intros o. rewrite Hc'. simpl. rewrite elem_of_app, list_elem_of_singleton. tauto.
Qed.

(** A range that starts at the beginning of a line is cleaned completely: the operation ends,
    every byte of the range lies in a line that was written back and invalidated, and no other
    line was. *)
Theorem clean_range_exact a n c :
  0 <= a -> a mod 32 = 0 -> 0 <= n < 2 ^ 31 -> a + n + 32 <= 2 ^ 32 ->
  exists c', isix_clean_inval_dcache_by_addr a n c = Some c' /\
    (forall x, a <= x < a + n -> DCCIMVAC (x - x mod 32) ∈ c_ops c') /\
    (forall l, DCCIMVAC l ∈ c_ops c' -> DCCIMVAC l ∈ c_ops c \/ exists x, a <= x < a + n /\ l = x - x mod 32).
Proof.
  intros Ha Hal Hn He. unfold isix_clean_inval_dcache_by_addr.
  destruct (by_addr_spec DCCIMVAC a n c Ha Hn He) as (c' & -> & Hops). eexists. split; [reflexivity|].
  assert (forall l, DCCIMVAC l ∈ c_ops (emit DSB (emit DSB c')) <-> DCCIMVAC l ∈ c_ops c') as Hl.
  { intros l. simpl. rewrite !elem_of_app, !list_elem_of_singleton. split; [intros [[H|H]|H]|by left; left]; done. }
  pose proof (Z.div_mod a 32) as Hd. split.
  - intros x Hx. apply Hl, Hops. right. right. exists ((x - a) / 32).
    pose proof (Z.div_mod (x - a) 32). pose proof (Z.mod_pos_bound (x - a) 32). pose proof (Z.div_pos (x - a) 32).
    split_and!; [lia|lia|]. f_equal.
    assert (x mod 32 = (x - a) mod 32) as ->; [|lia]. rewrite Zminus_mod, Hal, Z.sub_0_r, Zmod_mod. done.
  - intros l [H|[H|(i & Hi & Hin & [= ->])]]%Hl%Hops; [by left|done|]. right. exists (a + 32 * i). split; [lia|].
    assert ((a + 32 * i) mod 32 = 0) as ->; [|lia]. rewrite Z.mul_comm, Z.mod_add by lia. done.
Qed.

Lemma clean_range_exact_witness :
  exists c', isix_clean_inval_dcache_by_addr 0x20000000 40 (CacheHw 0 []) = Some c' /\ DCCIMVAC 0x20000020 ∈ c_ops c'.
Proof.
  destruct (clean_range_exact 0x20000000 40 (CacheHw 0 [])) as (c' & E & H & _); [lia|reflexivity|lia|lia|].
  exists c'. split; [exact E|]. exact (H 0x20000027 ltac:(lia)).
Defined.

(** Without the alignment the last line can be left out. *)
Lemma clean_range_misses_line :
  isix_clean_inval_dcache_by_addr 0x2000001c 32 (CacheHw 0 []) = Some (CacheHw 0 [DSB; DCCIMVAC 0x2000001c; DSB; DSB]).
Proof. reflexivity. Qed.

(** An operation on the whole data cache reaches every line: for each set and way that the
    geometry names the word with these two in their fields is written. *)
Theorem clean_reaches_all_lines ccsidr c s w :
  0 <= s <= CCSIDR_SETS ccsidr -> 0 <= w <= CCSIDR_WAYS ccsidr ->
  CCSIDR_SETS ccsidr < 512 -> CCSIDR_WAYS ccsidr < 4 ->
  DCCISW (s * 32 + w * 2 ^ 30) ∈ c_ops (isix_clean_inval_dcache ccsidr c) /\
  DCISW (s * 32 + w * 2 ^ 30) ∈ c_ops (isix_inval_dcache ccsidr c) /\
  DCCSW (s * 32 + w * 2 ^ 30) ∈ c_ops (isix_clean_dcache ccsidr c).
Proof.
  intros Hs Hw Hs5 Hw4. rewrite <- set_way_fields by lia.
  unfold isix_clean_inval_dcache, isix_inval_dcache, isix_clean_dcache, all_lines.
  assert (forall f, f (set_way s w) ∈ c_ops (sets_loop f (Z.to_nat (CCSIDR_WAYS ccsidr)) (Z.to_nat (CCSIDR_SETS ccsidr))
    (emit DSB (emit (CSSELR 0) c)))) as H.
  { intros f. apply sets_loop_ops. right. exists (Z.to_nat s), (Z.to_nat w). rewrite !Z2Nat.id by lia. split_and!; [lia|lia|done]. }
  split_and!; simpl; rewrite !elem_of_app; left; left; apply H.
Qed.

Lemma clean_reaches_all_lines_witness :
  DCCSW (127 * 32 + 3 * 2 ^ 30) ∈ c_ops (isix_clean_dcache 0xf00fe019 (CacheHw 0 [])).
Proof. apply (clean_reaches_all_lines 0xf00fe019 (CacheHw 0 []) 127 3); vm_compute; (split; congruence) || congruence. Defined.

(** Enabling a cache does not: the two flags of the header are both the bit 0, so the bits 16 and
    17 that switch the caches stay as they are. *)
Theorem caches_stay_off ccsidr c :
  let c1 := isix_icache_enable true c in let c2 := isix_dcache_enable ccsidr true c1 in
  Z.testbit (c_ccr c2) 16 = Z.testbit (c_ccr c) 16 /\ Z.testbit (c_ccr c2) 17 = Z.testbit (c_ccr c) 17.
Proof.
  assert (forall f ways sets c, c_ccr (sets_loop f ways sets c) = c_ccr c) as Hccr.
  { intros f ways. assert (forall s w c, c_ccr (ways_loop f s w c) = c_ccr c) as Hw.
    { intros s w. induction w as [|w IH]; intros c0; cbn [ways_loop]; [done|]. by rewrite IH. }
    induction sets as [|sets IH]; intros c0; cbn [sets_loop]; rewrite ?IH, Hw; done. }
  cbv zeta. unfold isix_dcache_enable, dcache_enable, isix_icache_enable, all_lines.
  cbn [c_ccr emit set_ccr]. rewrite Hccr. cbn [c_ccr emit set_ccr].
  rewrite !Z.lor_spec. split; by rewrite !orb_false_r.
Qed.

End Cache.
