(* ===== verification/Port.v ===== *)
(** * The configuration of the hardware

    [hwarch.c] of the Cortex-M port: when the kernel is initialised the caches are enabled, the
    interrupts of the kernel get the lowest priority and the system timer is started; and the
    mask of [scheduler.c] of the port, with which critical sections begin and end; the global
    interrupt mask of [irq_global.c]. *)

From S2P Require Import Prelude.
From S2P Require Import Systimer.
From S2P Require Import OsStats.
From S2P Require Import Irq.
From S2P Require Import Cache.
From stdpp Require Import base option numbers list.
From Stdlib Require Import ZArith Lia.
Local Open Scope Z_scope.

Module Port.
Import Irq Cache.

Definition isix_cortexm_irq_svc_call : Z := -5.
Definition isix_cortexm_irq_pend_svc : Z := -2.
Definition isix_cortexm_irq_systick : Z := -1.

Section Board.
Context {hw : Type} {IH : IrqHw hw} {IL : IrqLaws hw}.
(** What the cache size register reads. *)
Context (ccsidr : Z).

Record board : Type := Board {
  g_isix_core_freq : Z;
  b_cache : cache;
  b_irq : hw;
  b_timer : systimer
}.
Implicit Types b : board.

Definition _isix_port_get_core_freq b : Z := g_isix_core_freq b.

(** [None] is a panic: the frequency is too low, or the timer cannot be set. *)
Definition _isix_port_conf_hardware (core_freq : Z) b : option board :=
  let c := isix_icache_enable true (b_cache b) in
  let c := isix_dcache_enable ccsidr true c in
  if core_freq <? 1000000 then None else
  let h := isix_set_raw_irq_priority isix_cortexm_irq_systick 0xff (b_irq b) in
  let h := isix_set_raw_irq_priority isix_cortexm_irq_svc_call 0xff h in
  let h := isix_set_raw_irq_priority isix_cortexm_irq_pend_svc 0xff h in
  t ← _isix_port_systimer_init CONFIG_ISIX_HZ core_freq (b_timer b);
  Some (Board core_freq c h t).

Definition _isix_port_set_interrupt_mask (h : hw) : hw := wr_basepri ISIX_MAX_SYSCALL_INTERRUPT_PRIORITY h.
Definition _isix_port_clear_interrupt_mask (h : hw) : hw := wr_basepri 0 h.

(** The interrupts through which the kernel runs. *)
Definition kernel_irq (n : Z) : Prop :=
  n = isix_cortexm_irq_systick \/ n = isix_cortexm_irq_svc_call \/ n = isix_cortexm_irq_pend_svc.

Lemma kernel_irq_programmable n : kernel_irq n -> programmable (hw := hw) n.
Proof. by intros [->|[->| ->]]; right. Qed.

(** A tick fits the counter of the timer for every frequency of a 32-bit word. *)
Lemma systimer_init_works core_freq t :
  1000000 <= core_freq < 2 ^ 32 -> exists t', _isix_port_systimer_init CONFIG_ISIX_HZ core_freq t = Some t' /\
    g_tick_cycles t' = core_freq / CONFIG_ISIX_HZ /\ stk_rvr t' = core_freq / CONFIG_ISIX_HZ - 1 /\
    stk_ahb t' = true /\ stk_tickint t' = true /\ stk_enable t' = true.
Proof.
  unfold CONFIG_ISIX_HZ. intros Hf. unfold _isix_port_systimer_init, systick_set_frequency, STK_RVR_RELOAD.
  assert (1000 <= core_freq / 1000 < 2 ^ 23) as Hr by (Z.to_euclidean_division_equations; lia). set (r := core_freq / 1000) in *.
  rewrite (proj2 (Z.leb_gt _ _)), (proj2 (Z.leb_gt _ _)) by lia. unfold systick_set_reload, STK_RVR_RELOAD.
  rewrite (u32_id (r - 1)) by (unfold in_u32; lia). change 0x00FFFFFF with (Z.ones 24).
  rewrite Z.land_ones, Z.mod_small by lia. eexists. split; [done|].
  simpl. rewrite Z.sub_add. rewrite u32_id by (unfold in_u32; lia). by split_and!.
Qed.

(** After the configuration the timer ticks at the rate of the kernel, its interrupts have the
    lowest priority of the controller, so that they wait while a critical section or another
    interrupt runs, and no other priority has changed. *)
Theorem conf_hardware_lowest core_freq b :
  1000000 <= core_freq < 2 ^ 32 ->
  exists b', _isix_port_conf_hardware core_freq b = Some b' /\ _isix_port_get_core_freq b' = core_freq /\
    (forall n, kernel_irq n -> isix_get_raw_irq_priority n (b_irq b') = 0xF0 /\
       isix_irq_raw_priority_is_kernel_masked (isix_get_raw_irq_priority n (b_irq b')) (b_irq b') = true) /\
    (forall n, programmable n -> ~ kernel_irq n ->
       isix_get_raw_irq_priority n (b_irq b') = isix_get_raw_irq_priority n (b_irq b)) /\
    g_tick_cycles (b_timer b') = core_freq / CONFIG_ISIX_HZ /\ stk_tickint (b_timer b') = true /\ stk_enable (b_timer b') = true.
Proof.
  intros Hf. destruct (systimer_init_works core_freq (b_timer b) Hf) as (t' & Et & Etc & _ & _ & Hti & Hen).
  unfold _isix_port_conf_hardware. rewrite (proj2 (Z.ltb_ge _ _)) by lia. rewrite Et. eexists. split; [done|]. split; [done|].
  simpl b_irq. simpl b_timer. unfold isix_get_raw_irq_priority, isix_set_raw_irq_priority.
  set (h' := wr8 _ _ (wr8 _ _ (wr8 _ _ _))).
  assert (Hrd : forall n, programmable (hw := hw) n -> rd8 (irq_prio_addr n) h' =
    if decide (kernel_irq n) then 0xF0 else rd8 (irq_prio_addr n) (b_irq b)).
  { intros n Hn. unfold h'. rewrite !law_pr_rd by (done || by right). unfold kernel_irq.
    change (Z.land 255 240) with 240. repeat case_decide; try done; exfalso; tauto. }
  split_and!; try done.
  - intros n Hn. pose proof (kernel_irq_programmable n Hn) as Hp. rewrite Hrd by done. rewrite decide_True by done.
    split; [done|]. rewrite kernel_masked_level by lia. destruct (law_aircr_rd h') as [Hg _]. unfold preempt_level.
    rewrite (proj2 (Z.ltb_ge _ _)); [done|]. apply Z.div_le_mono; [apply Z.pow_pos_nonneg; lia|]. by vm_compute.
  - intros n Hp Hn. rewrite Hrd by done. by rewrite decide_False.
Qed.

(** A slower core is refused. *)
Lemma conf_hardware_too_slow core_freq b : core_freq < 1000000 -> _isix_port_conf_hardware core_freq b = None.
Proof. intros H. unfold _isix_port_conf_hardware. by rewrite (proj2 (Z.ltb_lt _ _)). Qed.

End Board.
Arguments board : clear implicits.

Lemma conf_hardware_lowest_witness :
  exists b', _isix_port_conf_hardware 0xf00fe019 168000000 (Board 0 (CacheHw 0 []) nvic_reset timer16) = Some b' /\
    isix_get_raw_irq_priority (-1) (b_irq b') = 0xF0.
Proof.
  destruct (conf_hardware_lowest 0xf00fe019 168000000 (Board 0 (CacheHw 0 []) nvic_reset timer16)) as (b' & E & _ & H & _); [lia|].
  exists b'. split; [exact E|]. destruct (H (-1)) as [H1 _]; [by left|exact H1].
Defined.

End Port.

(** ** The global mask

    [irq_global.c] of the Cortex-M cores: the processor ignores all interrupts while bit 0 of
    PRIMASK is set; IPSR is the number of the exception that is served. *)
Module IrqGlobal.

Record core : Type := Core { primask : Z; ipsr : Z }.
Implicit Types c : core.

Definition isix_irq_enable c : core := Core 0 (ipsr c).
Definition isix_irq_disable c : core := Core 1 (ipsr c).
Definition isix_irq_save c : Z * core := (primask c, Core 1 (ipsr c)).
Definition isix_irq_restore (flags : Z) c : core := Core (Z.land flags 1) (ipsr c).
Definition isix_irq_in_isr c : bool := negb (ipsr c =? 0).

(** A section between save and restore that may contain others, enabled or not. *)
Inductive section : Type :=
  | Enable
  | Disable
  | Protected (body : list section).

Fixpoint run_section (a : section) c : core :=
  match a with
  | Enable => isix_irq_enable c
  | Disable => isix_irq_disable c
  | Protected body => let '(flags, c1) := isix_irq_save c in isix_irq_restore flags (foldl (fun c a => run_section a c) c1 body)
  end.

Definition core_ok c : Prop := primask c = 0 \/ primask c = 1.

Lemma run_section_ok a : forall c, core_ok c -> core_ok (run_section a c) /\ ipsr (run_section a c) = ipsr c.
Proof.
  revert a. fix IH 1. intros [| |body] c Hc; [split; [by left|done]|split; [by right|done]|].
  assert (forall c1, core_ok c1 -> core_ok (foldl (fun c a => run_section a c) c1 body) /\
    ipsr (foldl (fun c a => run_section a c) c1 body) = ipsr c1) as Hbody.
  { clear Hc c. induction body as [|a body IHb]; intros c1 H1; [done|]. simpl. destruct (IH a c1 H1) as [H2 E2].
    destruct (IHb _ H2) as [H3 E3]. split; [done|congruence]. }
  destruct (Hbody (Core 1 (ipsr c))) as [_ E]; [by right|]. simpl. split; [|by rewrite E].
  unfold core_ok. simpl. by destruct Hc as [-> | ->]; [left|right].
Qed.

(** Protected sections nest: whatever is done inside, at the end the mask is as it was. *)
Theorem protected_sections_nest body c : core_ok c -> run_section (Protected body) c = c.
Proof.
  intros Hc. pose proof (run_section_ok (Protected body) c Hc) as [_ E]. simpl in *. destruct c as [p i]. simpl in *. unfold isix_irq_restore in *.
  simpl in E. rewrite E. f_equal. by destruct Hc as [H|H]; simpl in H; rewrite H.
Qed.

End IrqGlobal.
