(* ===== verification/Crt.v ===== *)
(** * The start of the program

    [crt0.c]: the handler of the reset copies the initial values of the data to the RAM, clears the
    rest and the heap, runs the constructors, [main] and the destructors; [__cxa_atexit] registers a
    destructor and [__cxa_finalize] runs the registered ones.

    The memory is its words by address.  What the handler calls (constructors, [main], the
    destructors) is not part of the file: functions on the state, arguments of the model. *)

From S2P Require Import Prelude.
From stdpp Require Import base numbers gmap list.
From Stdlib Require Import ZArith Lia.
Local Open Scope Z_scope.

Module Crt.

Definition CONFIG_ISIX_MAX_CXA_ATEXIT_OBJECTS : Z := 16.

(** [struct cxa_object]. *)
Record cxa_object : Set := CxaObject { func : Z; arg : Z }.

(** The memory, the registers [CPACR] and [CCR], and the table of destructors with [iObject]. *)
Record crt : Type := CrtState {
  mem : gmap Z Z;
  cpacr : Z;
  ccr : Z;
  object : list cxa_object;
  iObject : Z
}.

Definition upd_mem (f : gmap Z Z -> gmap Z Z) (s : crt) : crt := CrtState (f (mem s)) (cpacr s) (ccr s) (object s) (iObject s).

(** ** Destructors *)

Definition __cxa_atexit (f a : Z) (s : crt) : Z * crt :=
  if CONFIG_ISIX_MAX_CXA_ATEXIT_OBJECTS <=? iObject s then (-1, s) else
  (0, CrtState (mem s) (cpacr s) (ccr s) (<[Z.to_nat (iObject s) := CxaObject f a]> (object s)) (u16 (iObject s + 1))).

Section Calls.
(** A call of the function at an address with an argument. *)
Context (call : Z -> Z -> crt -> crt).

(** [i] rounds; the count goes down in each, and the table may have changed in between. *)
Fixpoint finalize_loop (i : nat) (s : crt) : option crt :=
  match i with
  | O => Some s
  | S i =>
      let s := CrtState (mem s) (cpacr s) (ccr s) (object s) (u16 (iObject s - 1)) in
      o ← object s !! Z.to_nat (iObject s);
      finalize_loop i (call (func o) (arg o) s)
  end.

Definition __cxa_finalize (s : crt) : option crt := finalize_loop (Z.to_nat (iObject s)) s.

(** The destructors run in the reverse order of their registration, each one once, when none of
    them registers another one. *)
Theorem finalize_reverse_order s os :
  (forall f a s, object (call f a s) = object s /\ iObject (call f a s) = iObject s) ->
  iObject s = Z.of_nat (length os) -> (length os <= 16)%nat -> take (length os) (object s) = os ->
  exists s', __cxa_finalize s = Some s' /\ iObject s' = 0 /\
    s' = foldr (fun o st => call (func o) (arg o)
      (CrtState (mem st) (cpacr st) (ccr st) (object st) (iObject st - 1))) s os.
Proof.
  intros Hcall. unfold __cxa_finalize. revert s. induction os as [|o os IH] using rev_ind; intros s Hi Hlen Hos.
  - exists s. rewrite Hi. done.
  - rewrite length_app in *. cbn [length] in *. rewrite Hi, Nat2Z.id, Nat.add_1_r in *. cbn [finalize_loop].
    assert (object s !! length os = Some o) as Ho.
    { rewrite <- (lookup_take_lt _ (S (length os))) by lia. rewrite Hos. by apply list_lookup_middle. }
    assert (u16 (iObject s - 1) = Z.of_nat (length os)) as Ei.
    { rewrite Hi. unfold u16. rewrite Z.mod_small by lia. lia. }
    cbn [object iObject]. rewrite Ei, Nat2Z.id, Ho. simpl.
    set (s1 := CrtState (mem s) (cpacr s) (ccr s) (object s) (Z.of_nat (length os))).
    destruct (Hcall (func o) (arg o) s1) as [Hco Hci].
    destruct (IH (call (func o) (arg o) s1)) as (s' & E & Hz & Hf).
    + by rewrite Hci.
    + lia.
    + rewrite Hco. simpl. replace (length os) with (min (length os) (S (length os))) at 1 by lia.
      rewrite <- take_take, Hos. by rewrite take_app_length.
    + rewrite Hci in E. simpl in E. rewrite Nat2Z.id in E. exists s'. split_and!; [done|done|].
      rewrite Hf, foldr_app. simpl. unfold s1. do 3 f_equal. rewrite Hi. lia.
Qed.

End Calls.

(** ** The reset *)

(** Full access to the coprocessors 10 and 11; trap of a division by zero, alignment of the stack.
    The state is that of a processor with a floating point unit. *)
Definition early_cpu_setup (s : crt) : crt :=
  CrtState (mem s) (Z.lor (cpacr s) (Z.lor (Z.shiftl 3 20) (Z.shiftl 3 22)))
    (Z.lor (ccr s) (Z.lor (Z.shiftl 1 4) (Z.shiftl 1 9))) (object s) (iObject s).

Section Reset.
(** Addresses of the linker script. *)
Context (_sidata _sdata _edata _sbss _ebss __heap_start __heap_end : Z).

Fixpoint copy_data (fuel : nat) (pul_src pul_dest : Z) (m : gmap Z Z) : option (gmap Z Z) :=
  if pul_dest <? _edata then
    match fuel with
    | O => None
    | S fuel => w ← m !! pul_src; copy_data fuel (pul_src + 4) (pul_dest + 4) (<[pul_dest := w]> m)
    end
  else Some m.

(** The loops that clear the memory up to [e]. *)
Fixpoint clear (fuel : nat) (e pul_dest : Z) (m : gmap Z Z) : option (gmap Z Z) :=
  if pul_dest <? e then
    match fuel with
    | O => None
    | S fuel => clear fuel e (pul_dest + 4) (<[pul_dest := 0]> m)
    end
  else Some m.

(** As many words as the range has. *)
Definition words (a e : Z) : nat := Z.to_nat ((e - a + 3) / 4).

Definition init_memory (m : gmap Z Z) : option (gmap Z Z) :=
  m ← copy_data (words _sdata _edata) _sidata _sdata m;
  m ← clear (words _sbss _ebss) _ebss _sbss m;
  clear (words __heap_start __heap_end) __heap_end __heap_start m.

(** ** Properties *)

(** The words of a range. *)
Definition word_in (a e x : Z) : Prop := exists i, 0 <= i /\ x = a + 4 * i /\ x < e.

Lemma word_in_step a e x : a < e -> word_in a e x <-> x = a \/ word_in (a + 4) e x.
Proof.
  intros Hae. split.
  - intros (i & Hi & -> & Hlt). destruct (decide (i = 0)) as [->|]; [left; lia|right]. exists (i - 1). lia.
  - intros [->|(i & Hi & -> & Hlt)]; [exists 0; lia|exists (i + 1); lia].
Qed.

Lemma words_step a e : a < e -> exists n, words a e = S n /\ words (a + 4) e = n.
Proof.
  intros H. unfold words. replace (e - (a + 4) + 3) with (e - a + 3 + -1 * 4) by lia. rewrite Z.div_add by lia.
  assert (1 <= (e - a + 3) / 4) by (apply Z.div_le_lower_bound; lia).
  exists (Z.to_nat ((e - a + 3) / 4 + -1)). lia.
Qed.

Lemma clear_spec e : forall n a m, words a e = n ->
  exists m', clear n e a m = Some m' /\ forall x,
    (word_in a e x -> m' !! x = Some 0) /\ (~ word_in a e x -> m' !! x = m !! x).
Proof.
  induction n as [|n IH]; intros a m Hn.
  - assert (e <= a) as Hle by (destruct (decide (a < e)) as [H|]; [destruct (words_step a e H) as (? & E & _); rewrite E in Hn; discriminate|lia]).
    exists m. cbn [clear]. rewrite (proj2 (Z.ltb_ge _ _)) by done. split; [done|]. intros x. split; [|done].
    intros (i & ? & ? & ?). lia.
  - assert (a < e) as Hlt.
    { destruct (decide (a < e)); [done|]. unfold words in Hn. assert ((e - a + 3) / 4 < 1); [apply Z.div_lt_upper_bound; lia|lia]. }
    destruct (words_step a e Hlt) as (n' & E & E'). rewrite E in Hn. injection Hn as ->.
    destruct (IH (a + 4) (<[a := 0]> m) E') as (m' & Em & H). exists m'. cbn [clear].
    rewrite (proj2 (Z.ltb_lt _ _)) by done. split; [done|]. intros x. destruct (H x) as [H1 H2]. rewrite word_in_step by done.
    assert (~ word_in (a + 4) e a) as Hna by (intros (i & ? & ? & ?); lia). split.
    + intros [->|Hw]; [|by apply H1]. rewrite (proj2 (H a) Hna). apply lookup_insert_eq.
    + intros Hw. rewrite H2 by tauto. apply lookup_insert_ne. intros ->. tauto.
Qed.

Lemma copy_data_spec (m0 : gmap Z Z) : forall n src a (m : gmap Z Z), words a _edata = n ->
  (forall i, 0 <= i -> a + 4 * i < _edata -> exists w, m0 !! (src + 4 * i) = Some w) ->
  (forall i, 0 <= i -> a + 4 * i < _edata -> m !! (src + 4 * i) = m0 !! (src + 4 * i)) ->
  (forall i, 0 <= i -> a + 4 * i < _edata -> ~ word_in a _edata (src + 4 * i)) ->
  exists m', copy_data n src a m = Some m' /\
    (forall i, 0 <= i -> a + 4 * i < _edata -> m' !! (a + 4 * i) = m0 !! (src + 4 * i)) /\
    (forall x, ~ word_in a _edata x -> m' !! x = m !! x).
Proof.
  induction n as [|n IH]; intros src a m Hn Hsrc Hm Hd.
  - assert (_edata <= a) as Hle
      by (destruct (decide (a < _edata)) as [H|]; [destruct (words_step a _edata H) as (? & E & _); rewrite E in Hn; discriminate|lia]).
    exists m. cbn [copy_data]. rewrite (proj2 (Z.ltb_ge _ _)) by done. split_and!; [done|intros i ? ?; lia|done].
  - assert (a < _edata) as Hlt.
    { destruct (decide (a < _edata)); [done|]. unfold words in Hn.
      assert ((_edata - a + 3) / 4 < 1); [apply Z.div_lt_upper_bound; lia|lia]. }
    destruct (words_step a _edata Hlt) as (n' & E & E'). rewrite E in Hn. injection Hn as ->.
    destruct (Hsrc 0) as [w Hw]; [lia|lia|]. replace (src + 4 * 0) with src in Hw by lia.
    assert (forall i, a + 4 + 4 * i = a + 4 * (i + 1) /\ src + 4 + 4 * i = src + 4 * (i + 1)) as Hshift by lia.
    destruct (IH (src + 4) (a + 4) (<[a := w]> m) E') as (m' & Em & H1 & H2).
    + intros i Hi Hx. rewrite (proj1 (Hshift i)) in Hx. rewrite (proj2 (Hshift i)). apply Hsrc; lia.
    + intros i Hi Hx. rewrite (proj1 (Hshift i)) in Hx. rewrite (proj2 (Hshift i)). rewrite lookup_insert_ne; [apply Hm; lia|].
      intros Ea. apply (Hd (i + 1)); [lia|lia|]. rewrite <- Ea. exists 0. lia.
    + intros i Hi Hx. rewrite (proj1 (Hshift i)) in Hx. rewrite (proj2 (Hshift i)). intros Hin. apply (Hd (i + 1)); [lia|lia|].
      apply word_in_step; [done|by right].
    + exists m'. cbn [copy_data]. rewrite (proj2 (Z.ltb_lt _ _)) by done.
      assert (m !! src = Some w) as -> by (rewrite <- Hw; specialize (Hm 0 ltac:(lia) ltac:(lia)); by replace (src + 4 * 0) with src in Hm by lia).
      simpl. rewrite Em. split_and!; [done| |].
      * intros i Hi Hx. destruct (decide (i = 0)) as [->|].
        -- replace (a + 4 * 0) with a by lia. replace (src + 4 * 0) with src by lia. rewrite Hw.
           rewrite H2 by (intros (j & ? & ? & ?); lia). apply lookup_insert_eq.
        -- specialize (H1 (i - 1) ltac:(lia)). replace (a + 4 + 4 * (i - 1)) with (a + 4 * i) in H1 by lia.
           replace (src + 4 + 4 * (i - 1)) with (src + 4 * i) in H1 by lia. by apply H1.
      * intros x Hx. rewrite word_in_step in Hx by done. rewrite H2 by tauto. apply lookup_insert_ne. intros ->. tauto.
Qed.

(** The linker keeps the sections apart, and the initial values are in the memory. *)
Record layout (m : gmap Z Z) : Prop := {
  lay_data : forall i, 0 <= i -> _sdata + 4 * i < _edata -> exists w, m !! (_sidata + 4 * i) = Some w;
  lay_flash : forall i, 0 <= i -> _sdata + 4 * i < _edata -> ~ word_in _sdata _edata (_sidata + 4 * i);
  lay_bss : forall x, word_in _sdata _edata x -> ~ word_in _sbss _ebss x;
  lay_heap : forall x, word_in _sdata _edata x -> ~ word_in __heap_start __heap_end x
}.

(** The memory that the constructors and [main] start with: the loops of the handler end, every
    word of the data has its initial value, the rest and the heap are zero, and nothing else is
    written. *)
Theorem reset_initialises_memory m :
  layout m -> exists m', init_memory m = Some m' /\
    (forall i, 0 <= i -> _sdata + 4 * i < _edata -> m' !! (_sdata + 4 * i) = m !! (_sidata + 4 * i)) /\
    (forall x, word_in _sbss _ebss x \/ word_in __heap_start __heap_end x -> m' !! x = Some 0) /\
    (forall x, ~ word_in _sdata _edata x -> ~ word_in _sbss _ebss x -> ~ word_in __heap_start __heap_end x -> m' !! x = m !! x).
Proof.
  intros [Hd Hf Hb Hh]. unfold init_memory.
  destruct (copy_data_spec m (words _sdata _edata) _sidata _sdata m eq_refl Hd ltac:(done) Hf) as (m1 & -> & H1 & H1').
  simpl. destruct (clear_spec _ebss (words _sbss _ebss) _sbss m1 eq_refl) as (m2 & -> & H2). simpl.
  destruct (clear_spec __heap_end (words __heap_start __heap_end) __heap_start m2 eq_refl) as (m3 & -> & H3).
  exists m3. split_and!; [done| | |].
  - intros i Hi Hlt. assert (word_in _sdata _edata (_sdata + 4 * i)) as Hw by (exists i; lia).
    by rewrite (proj2 (H3 _)), (proj2 (H2 _)), H1 by auto.
  - intros x Hx. assert (word_in __heap_start __heap_end x \/ ~ word_in __heap_start __heap_end x) as [Hw|Hw].
    { destruct (decide (__heap_start <= x /\ x < __heap_end /\ (x - __heap_start) mod 4 = 0)) as [(Hs & He & Hz)|Hn].
      - left. exists ((x - __heap_start) / 4). pose proof (Z.div_mod (x - __heap_start) 4). pose proof (Z.div_pos (x - __heap_start) 4). lia.
      - right. intros (i & Hi & -> & Hlt). apply Hn. split_and!; [lia|lia|].
        replace (__heap_start + 4 * i - __heap_start) with (i * 4) by lia. apply Z.mod_mul. lia. }
    + by apply H3.
    + destruct Hx as [Hx|]; [|done]. rewrite (proj2 (H3 x)) by done. by apply H2.
  - intros x N1 N2 N3. by rewrite (proj2 (H3 _)), (proj2 (H2 _)), H1' by done.
Qed.

(** ** The handler *)

(** A call of the function at an address, and the functions of the program. *)
Context (call : Z -> Z -> crt -> crt).
Context (_external_startup __libc_init_array main __libc_fini_array _isixp_finalize _external_exit : crt -> crt).

(** The state in which the handler stays for ever. *)
Definition _mcu_reset_handler_ (s : crt) : option crt :=
  let s := early_cpu_setup s in
  m ← init_memory (mem s);
  let s := upd_mem (fun _ => m) s in
  let s := __libc_fini_array (main (__libc_init_array (_external_startup s))) in
  s ← __cxa_finalize call s;
  Some (_external_exit (_isixp_finalize s)).

End Reset.

(** A destructor that only remembers its argument, in a word of the memory. *)
Definition note (f a : Z) (s : crt) : crt := upd_mem (fun m => <[f := a]> m) s.

Lemma finalize_reverse_order_witness :
  exists s', __cxa_finalize note (snd (__cxa_atexit 100 7 (snd (__cxa_atexit 100 5
    (CrtState ∅ 0 0 (replicate 16 (CxaObject 0 0)) 0))))) = Some s' /\ iObject s' = 0 /\ mem s' !! 100 = Some 5.
Proof.
  destruct (finalize_reverse_order note (snd (__cxa_atexit 100 7 (snd (__cxa_atexit 100 5
    (CrtState ∅ 0 0 (replicate 16 (CxaObject 0 0)) 0))))) [CxaObject 100 5; CxaObject 100 7]) as (s' & E & Hz & Hf).
  - done.
  - reflexivity.
  - simpl. lia.
  - reflexivity.
  - exists s'. split; [exact E|split; [exact Hz|]]. rewrite Hf. reflexivity.
Defined.

Lemma reset_initialises_memory_witness :
  exists m', init_memory 0x100 0x2000 0x2008 0x2008 0x2010 0x2010 0x2018 {[0x100 := 17; 0x104 := 18]} = Some m' /\
    m' !! 0x2004 = Some 18.
Proof.
  destruct (reset_initialises_memory 0x100 0x2000 0x2008 0x2008 0x2010 0x2010 0x2018 {[0x100 := 17; 0x104 := 18]})
    as (m' & E & H1 & _).
  - split.
    + intros i Hi Hlt. assert (i = 0 \/ i = 1) as [-> | ->] by lia; eexists; reflexivity.
    + intros i Hi Hlt (j & ? & ? & ?). lia.
    + intros x (i & ? & ? & ?) (j & ? & ? & ?). lia.
    + intros x (i & ? & ? & ?) (j & ? & ? & ?). lia.
  - exists m'. split; [exact E|]. exact (H1 1 ltac:(lia) ltac:(lia)).
Defined.

(** A destructor that registers another one takes the place of the one registered first, which is
    never run. *)
Lemma finalize_skips_first :
  let call f a s := if f =? 1 then snd (__cxa_atexit 2 0 s) else note f a s in
  exists s', __cxa_finalize call (CrtState ∅ 0 0 [CxaObject 100 5; CxaObject 1 0] 2) = Some s' /\
    mem s' !! 2 = Some 0 /\ mem s' !! 100 = None /\ iObject s' = 1.
Proof. eexists. split; [reflexivity|]. repeat split. Qed.

End Crt.
