(* ===== verification/Examples.v ===== *)
(** * A concrete kernel run

    A system is booted step by step with the operations of the model: [isix_init],
    two tasks of one priority, a semaphore, the start of the scheduler and the first
    context switch.  The states of the run satisfy the invariant, so every theorem
    about the kernel applies to them; the witnesses of the theorems are collected
    here. *)

From S2P Require Import Prelude.
From S2P Require Import DList.
From S2P Require Import Systimer.
From S2P Require Import OsStats.
From S2P Require Import Kernel.
From S2P Require Import Seqfit.
From S2P Require Import Scheduler.
From S2P Require Import Events.
From S2P Require Import Semaphore.
From S2P Require Import Mutex.
From S2P Require Import Task.
From S2P Require Import Fifo.
From S2P Require Import OsTime.
From S2P Require Import SchedInv.
From S2P Require Import SchedCore.
From S2P Require Import SchedTime.
From S2P Require Import SchedSleep.
From S2P Require Import SchedWake.
From S2P Require Import SemProofs.
From S2P Require Import TaskLife.
From S2P Require Import KernelInv.
From S2P Require Import KernelTasks.
From S2P Require Import KernelRun.
From S2P Require Import SuspendProofs.
From S2P Require Import UnlockAll.
From S2P Require Import TaskProofs.
From S2P Require Import KillProofs.
From S2P Require Import WakeAll.
From S2P Require Import Condvar.
From S2P Require Import CondvarProofs.
From S2P Require Import Alloc.
From S2P Require Import FifoProofs.
From S2P Require Import EventProofs.
From S2P Require Import MutexProofs.
From S2P Require Import MutexOwner.
From S2P Require Import Mempool.
From S2P Require Import Checker.
From S2P Require Import Locking.
From S2P Require Import SysArch.
From stdpp Require Import base numbers gmap list sorting.
From Stdlib Require Import ZArith Lia.
Local Open Scope Z_scope.

(** The kernel on a first fit heap of 4 KiB. *)
Definition example_head : Z := 0x20000010.

#[export] Instance example_heap : Allocator seqfit := seqfit_allocator example_head.

(** The machine after reset, with the heap initialised. *)
Definition reset_state : kstate seqfit :=
  KState (match seqfit_alloc_init example_head 0x20001000 0x20002000 (SeqFit ∅ 0 ∅) with
          | Ok _ h => h | _ => SeqFit ∅ 0 ∅ end)
    ∅ ∅ ∅ ∅ ∅ ∅ ∅ ∅ ∅ ∅ ∅ ∅ 0 0 false 0 0 0 false NULL false false false false
    (SysTimer 168000 false st_off 0 167999 0 false true true true false false)
    (CpuStats 0 0 0 0 0 false) 0 (VTimers ∅ false NULL NULL ∅).

(** Two tasks of priority 3 and a semaphore. *)
Definition boot : K seqfit unit :=
  isix_init 0x08000100 0 0x08000200;;;
  _ <- isix_task_create 0x08000100 0 0x08000300 0 160 3 0;;
  _ <- isix_task_create 0x08000100 0 0x08000400 0 160 3 0;;
  _ <- isix_sem_create NULL 0;;
  isix_start_scheduler;;;
  _isixp_schedule.

(** The state a run ends in; the starting state when it does not return. *)
Definition final {A} (m : K seqfit A) (s : kstate seqfit) : kstate seqfit :=
  match m s with Ok _ s' => s' | _ => s end.

(** The second task runs, the first one is ready.  The contents of the task stacks are
    left out of the example. *)
Definition st_running : kstate seqfit :=
  Eval vm_compute in upd_mem (fun _ => ∅) (final boot reset_state).

Definition taskA : Z := 0x20001258.
Definition taskB : Z := 0x20001348.
Definition semS : Z := 0x20001438.

(** The second task waits 10 ticks for the semaphore and the first one runs. *)
Definition st_waiting : kstate seqfit :=
  Eval vm_compute in final (isix_sem_wait semS 10;;; _isixp_schedule) st_running.

(** The same state with the scheduler locked by the first task. *)
Definition st_locked : kstate seqfit := Eval vm_compute in final _isixp_lock_scheduler st_waiting.

(** A token in the semaphore. *)
Definition st_token : kstate seqfit := Eval vm_compute in final (isix_sem_signal semS) st_running.

(** A fifo for two items of two bytes, empty and with one item. *)
Definition st_fifo : kstate seqfit := Eval vm_compute in final (isix_fifo_create_ex 2 2 0) st_running.
Definition fifoF : Z := 0x20001460.
Definition st_fifo1 : kstate seqfit := Eval vm_compute in final (isix_fifo_write_isr fifoF [7; 9]) st_fifo.

(** The second task waits for bit 0 of an event. *)
Definition st_event : kstate seqfit :=
  Eval vm_compute in final (e <- isix_event_create;; _ <- isix_event_wait e 1 true false ISIX_TIME_INFINITE;; _isixp_schedule) st_running.
Definition evtE : Z := 0x20001460.

(** The second task owns a mutex, the first one runs. *)
Definition st_mutex : kstate seqfit :=
  Eval vm_compute in final (m <- isix_mutex_create NULL;; _ <- isix_mutex_lock m;; _isixp_schedule) st_running.
Definition mtxM : Z := 0x20001460.

Lemma st_running_ok : switchable st_running.
Proof. apply switch_checkb_sound. reflexivity. Qed.

Lemma st_waiting_ok : sched_inv st_waiting.
Proof. apply sched_checkb_sound. reflexivity. Qed.

Lemma st_locked_ok : sched_inv st_locked.
Proof. apply sched_checkb_sound. reflexivity. Qed.

Definition idleI : Z := 0x20001168.

Lemma st_running_kernel_ok : kernel_ok idleI st_running.
Proof. apply kernel_checkb_sound. reflexivity. Qed.

(** ** Scheduling *)

(** The second task locks a mutex and sleeps, the first one is switched to and waits for the
    mutex, the idle task runs until the second task is woken by the clock, which then unlocks
    the mutex: it belongs to the first task. *)
Definition st_m0 : kstate seqfit := Eval vm_compute in final (isix_mutex_create NULL) st_running.
Definition st_m1 : kstate seqfit := Eval vm_compute in final (isix_mutex_lock mtxM) st_m0.
Definition st_m2 : kstate seqfit := Eval vm_compute in final (isix_wait 5) st_m1.
Definition st_m3 : kstate seqfit := Eval vm_compute in final _isixp_schedule st_m2.
Definition st_m4 : kstate seqfit := Eval vm_compute in final (isix_mutex_lock mtxM) st_m3.
Definition st_m5 : kstate seqfit := Eval vm_compute in final _isixp_schedule st_m4.
Definition st_m6 : kstate seqfit := Eval vm_compute in final (_isixp_systimer_announce 5) st_m5.
Definition st_m7 : kstate seqfit := Eval vm_compute in final _isixp_schedule st_m6.
Definition st_m8 : kstate seqfit := Eval vm_compute in final (isix_mutex_unlock mtxM) st_m7.

Lemma st_m0_ok : kernel_ok idleI st_m0.
Proof. apply kernel_checkb_sound. reflexivity. Qed.

Lemma st_m7_ok : kernel_ok idleI st_m7.
Proof. apply kernel_checkb_sound. reflexivity. Qed.

Ltac task_runs := split; [discriminate|eexists; split; reflexivity].

Lemma schedule_dispatches_highest_witness :
  switchable st_running /\
  wp _isixp_schedule (fun _ s' => dispatched (k_currp s') s' /\ rq s' 3 = [taskA; taskB]) st_running.
Proof.
  split; [exact st_running_ok|].
  eapply wp_mono; [exact (schedule_dispatches_highest st_running st_running_ok)|].
  intros [] s' (_ & Hd & Hr & _). split; [exact Hd|]. rewrite Hr. reflexivity.
Defined.

Lemma schedule_locked_witness :
  _isixp_schedule st_locked = Ok tt (upd_yield_pending (fun _ => true) st_locked).
Proof. apply (schedule_locked st_locked); [apply Z.leb_le; reflexivity|discriminate]. Defined.

Lemma round_robin_fair_witness :
  wp (schedule_times 1) (fun _ s' => k_currp s' = taskA) st_running.
Proof.
  eapply wp_mono; [apply (round_robin_fair st_running 3 [taskB; taskA] 1)|].
  - split; [exact st_running_ok|]. split; [reflexivity|]. split; [reflexivity|].
    split; [apply dispatch_checkb_sound; reflexivity|reflexivity].
  - simpl. lia.
  - intros [] s' [= H]. exact H.
Defined.

(** ** Time *)

Lemma advance_jiffies_wakes_exactly_due_witness :
  wp (advance_jiffies 10) (fun _ s' => k_jiffies s' = 10 /\ remaining s' taskB = None) st_waiting.
Proof.
  eapply wp_mono; [apply (advance_jiffies_wakes_exactly_due 10 st_waiting st_waiting_ok); [reflexivity|lia]|].
  intros [] s' Ha. split; [exact (ad_now _ _ _ Ha)|]. rewrite (ad_rest _ _ _ Ha). reflexivity.
Defined.

Lemma advance_jiffies_batch_witness :
  wp (advance_jiffies (3 + 4)) (fun _ s1 =>
    wp (advance_jiffies 3;;; advance_jiffies 4) (fun _ s2 => k_jiffies s1 = k_jiffies s2)
      st_waiting) st_waiting.
Proof.
  eapply wp_mono; [apply (advance_jiffies_batch 3 4 st_waiting st_waiting_ok); [reflexivity|lia..]|].
  intros [] s1 H. eapply wp_mono; [exact H|]. intros [] s2 H2. exact (proj1 H2).
Defined.

Lemma isix_wait_wakes_on_time_witness :
  wp (isix_wait 5) (fun r s' => wp (advance_jiffies 5) (fun _ s'' =>
    exists o, k_tasks s'' !! taskA = Some o /\ t_state o = OSTHR_STATE_READY) s') st_waiting.
Proof.
  eapply wp_mono;
    [eapply (isix_wait_wakes_on_time 5 _ st_waiting st_waiting_ok); try reflexivity; lia|].
  intros r s' (_ & _ & _ & _ & _ & _ & H). exact (H 5 ltac:(lia)).
Defined.

Lemma next_timeout_not_late_witness :
  wp calculate_next_timeout (fun r _ => 1 <= r <= 10) st_waiting.
Proof.
  eapply wp_mono; [apply (next_timeout_not_late st_waiting); [exact (proj2 (proj2 st_waiting_ok))|]|].
  - intros H. contradiction H. reflexivity.
  - intros r s' (_ & Hr & Hrest & _). specialize (Hrest taskB 10 eq_refl). lia.
Defined.

Lemma locked_ticks_not_lost_witness :
  wp (for_each [3; 4] _isixp_systimer_announce;;; _isixp_unlock_scheduler)
    (fun _ s' => k_jiffies s' = 7 /\ remaining s' taskB = Some 3) st_locked.
Proof.
  eapply wp_mono;
    [apply (locked_ticks_not_lost [3; 4] st_locked st_locked_ok); try reflexivity; try (vm_compute; congruence)|].
  - repeat constructor; lia.
  - intros [] s' (_ & _ & _ & Hj & Hr & _). split; [exact Hj|]. rewrite Hr. reflexivity.
Defined.

(** ** Semaphores *)

Lemma sem_signal_wakes_highest_witness :
  wp (isix_sem_signal semS) (fun r s' => r = ISIX_EOK /\ sem_view s' semS = Some (0, [])) st_waiting.
Proof.
  eapply wp_mono; [eapply (sem_signal_wakes_highest _ semS taskB [] st_waiting)|].
  - split; [exact st_waiting_ok|reflexivity|apply Z.leb_le; reflexivity|reflexivity|reflexivity].
  - discriminate.
  - reflexivity.
  - intros r s' (Hr & _ & Hv & _). by split.
Defined.

Lemma sem_wait_takes_token_witness :
  wp (isix_sem_wait semS 10) (fun r s' => fst r = Done ISIX_EOK /\ sem_view s' semS = Some (0, [])) st_token.
Proof.
  eapply wp_mono; [apply (sem_wait_takes_token semS 10 1 st_token)|].
  - apply sched_checkb_sound. reflexivity.
  - apply Z.leb_le. reflexivity.
  - discriminate.
  - reflexivity.
  - reflexivity.
  - intros r s' (Hr & _ & Hv & _). by split.
Defined.

Lemma sem_signal_stores_token_witness :
  wp (isix_sem_signal semS) (fun r s' => r = ISIX_EOK /\ sem_view s' semS = Some (1, [])) st_running.
Proof.
  eapply wp_mono; [eapply (sem_signal_stores_token semS 0 _ st_running)|].
  - apply sched_checkb_sound. reflexivity.
  - apply Z.leb_le. reflexivity.
  - discriminate.
  - reflexivity.
  - reflexivity.
  - reflexivity.
  - simpl. lia.
  - intros r s' (Hr & _ & Hv & _). by split.
Defined.

Lemma sem_wait_blocks_witness :
  wp (isix_sem_wait semS 10) (fun r s' => fst r = Blocked /\ sem_view s' semS = Some (0, [taskB]))
    st_running.
Proof.
  eapply wp_mono; [eapply (sem_wait_blocks semS 10 [] _ st_running)|].
  - split; [apply sched_checkb_sound; reflexivity|reflexivity|apply Z.leb_le; reflexivity|reflexivity|reflexivity].
  - discriminate.
  - reflexivity.
  - split; [apply Z.leb_le|apply Z.ltb_lt]; reflexivity.
  - reflexivity.
  - intros r s' (-> & _ & Hv & _). by split.
Defined.

(** ** Queues *)

Lemma st_fifo_ok : fifo_ok fifoF 2 2 [] st_fifo.
Proof.
  split; [|reflexivity| | |apply Z.leb_le; reflexivity].
  - eexists _, 0. split; [reflexivity|]. split; [split; simpl; try reflexivity; lia || done|by split].
  - eexists. split; [reflexivity|]. repeat split.
  - eexists. split; [reflexivity|]. repeat split.
Qed.

Lemma st_fifo1_ok : fifo_ok fifoF 2 2 [[7; 9]] st_fifo1.
Proof.
  split; [|reflexivity| | |apply Z.leb_le; reflexivity].
  - eexists _, 0. split; [reflexivity|]. split; [|by split]. split; simpl; try reflexivity; try lia.
    intros [|i] x Hi; [injection Hi as <-; reflexivity|done].
  - eexists. split; [reflexivity|]. repeat split.
  - eexists. split; [reflexivity|]. repeat split.
Qed.

Lemma fifo_write_isr_enqueues_witness :
  wp (isix_fifo_write_isr fifoF [7; 9]) (fun r s' => r = ISIX_EOK /\ fifo_ok fifoF 2 2 [[7; 9]] s') st_fifo.
Proof.
  eapply wp_mono; [eapply (fifo_write_isr_enqueues fifoF 2 2 [] [7; 9] st_fifo _ st_fifo_ok)|].
  - reflexivity.
  - intros r s' H. exact H.
  Unshelve. reflexivity.
Defined.

Lemma fifo_read_isr_dequeues_witness :
  wp (isix_fifo_read_isr fifoF) (fun r s' => r = (ISIX_EOK, Some [7; 9]) /\ fifo_ok fifoF 2 2 [] s') st_fifo1.
Proof. apply (fifo_read_isr_dequeues fifoF 2 2 [[7; 9]] st_fifo1 ltac:(reflexivity) st_fifo1_ok). Defined.

(** ** Events *)

Lemma event_set_wakes_matching_witness :
  wp (event_set evtE 3) (fun w s' => k_q s' !! QEvt evtE = Some [] /\ k_evs s' !! evtE = Some 2) st_event.
Proof.
  eapply wp_mono; [apply (event_set_wakes_matching evtE 0 3 [taskB] st_event)|].
  - apply sched_checkb_sound. reflexivity.
  - reflexivity.
  - reflexivity.
  - eexists. reflexivity.
  - intros w s' (_ & Hq & _ & _ & Hb & _). split; [exact Hq|exact Hb].
Defined.

Lemma event_wait_blocks_witness :
  wp (isix_event_wait evtE 1 true true 7) (fun r s' => fst r = Blocked /\
    k_q s' !! QEvt evtE = Some [taskB; taskA]) st_event.
Proof.
  eapply wp_mono; [eapply (event_wait_blocks evtE 0 1 true true 7 [taskB] _ st_event)|].
  - apply sched_checkb_sound. reflexivity.
  - reflexivity.
  - apply Z.leb_le. reflexivity.
  - reflexivity.
  - reflexivity.
  - discriminate.
  - reflexivity.
  - reflexivity.
  - discriminate.
  - split; [apply Z.leb_le|apply Z.ltb_lt]; reflexivity.
  - reflexivity.
  - reflexivity.
  - split; [apply Z.leb_le|apply Z.ltb_lt]; reflexivity.
  - intros r s' (-> & _ & Hq & _). split; [reflexivity|exact Hq].
Defined.

Lemma notify_control_bits_lost_witness :
  wp (isix_sem_event_connect semS evtE 31) (fun r s' => r = ISIX_EOK) st_event.
Proof.
  eapply wp_mono; [eapply (notify_control_bits_lost semS evtE 31 _ st_event)|].
  - split; apply Z.leb_le; reflexivity.
  - discriminate.
  - discriminate.
  - reflexivity.
  - reflexivity.
  - intros r s' [Hr _]. exact Hr.
Defined.

(** ** Mutexes *)

Lemma st_mutex_sched : sched_inv st_mutex.
Proof. apply (sched_checkb_sound st_mutex). reflexivity. Qed.

Lemma st_mutex_ok : ready_inv None st_mutex.
Proof. exact (proj1 st_mutex_sched). Qed.

Lemma reallocate_priority_requeues_witness :
  wp (_isixp_reallocate_priority taskB 1) (fun _ s' => rq s' 1 = [taskB] /\ rq s' 3 = [taskA]) st_mutex.
Proof.
  eapply wp_mono; [eapply (reallocate_priority_requeues taskB _ 1 st_mutex st_mutex_ok)|].
  - reflexivity.
  - split; apply Z.leb_le; reflexivity.
  - intros [] s' H. rewrite !(rp_rq _ _ _ _ _ H). split; reflexivity.
Defined.

Lemma inherited_priority_is_highest_witness :
  wp (calc_inherited_priority taskB) (fun p s' => p <= 3) st_mutex.
Proof.
  eapply wp_mono; [eapply (inherited_priority_is_highest taskB _ [mtxM] st_mutex st_mutex_ok)|].
  - reflexivity.
  - reflexivity.
  - intros m ->%list_elem_of_singleton. eexists. reflexivity.
  - intros p s' (_ & Hp & _). exact Hp.
Defined.

Lemma mutex_lock_inherits_witness :
  wp (isix_mutex_lock mtxM) (fun r s' => r = Blocked /\ k_q s' !! QMtx mtxM = Some [taskA]) st_mutex.
Proof.
  eapply wp_mono; [eapply (mutex_lock_inherits mtxM taskB _ _ _ [] st_mutex st_mutex_sched);
    first [reflexivity|discriminate|apply Z.leb_le; reflexivity|apply not_elem_of_nil]|].
  intros r s' (Hr & _ & Hq & _). split; [exact Hr|exact Hq].
Defined.

Lemma mutex_unlock_hands_over_witness :
  wp (isix_mutex_unlock mtxM) (fun r s' => r = ISIX_EOK /\ k_mtxs s' = {[mtxM := Mtx 1 taskA false]}) st_m7.
Proof.
  eapply wp_mono; [eapply (mutex_unlock_hands_over mtxM _ _ _ taskA [] st_m7 (ko_inv _ st_m7_ok) (ko_mtx _ st_m7_ok));
    first [reflexivity|discriminate|apply Z.leb_le; reflexivity]|].
  intros r s' [Hr Hh]. split; [exact Hr|]. rewrite (ho_mtxs _ _ _ _ _ _ _ _ Hh). reflexivity.
Defined.

(** The first task is stopped while it waits for the mutex, and made ready again. *)
Lemma task_suspend_stops_witness :
  wp (isix_task_suspend taskA) (fun _ s' => unlinked taskA (k_q s') /\ k_q s' !! QMtx mtxM = Some []) st_m7.
Proof.
  eapply wp_mono; [eapply (task_suspend_stops taskA _ st_m7 (ko_inv _ st_m7_ok) (ko_mtx _ st_m7_ok));
    first [reflexivity|discriminate|apply Z.leb_le; reflexivity]|].
  intros r s' (S & Hu & _). split; [exact Hu|]. pose proof (sp_lists _ _ _ _ _ _ S (QMtx mtxM) eq_refl) as Hp.
  change (k_q st_m7 !! QMtx mtxM) with (Some [taskA]) in Hp. inversion Hp as [? l' HP E1 E2|].
  change (remove_node taskA [taskA]) with (@nil Z) in HP. apply Permutation_nil_r in HP. by subst.
Defined.

Lemma task_suspend_resume_witness :
  wp (isix_task_suspend taskA;;; isix_task_resume taskA) (fun r s' => r = ISIX_EOK /\ last (rq s' 3) = Some taskA) st_m7.
Proof.
  eapply wp_mono; [eapply (task_suspend_resume taskA _ _ st_m7 (ko_inv _ st_m7_ok) (ko_mtx _ st_m7_ok));
    first [reflexivity|discriminate|apply Z.leb_le; reflexivity]|].
  intros r s' (Hr & _ & _ & _ & Hl & _). split; [exact Hr|exact Hl].
Defined.

Lemma task_change_prio_rebases_witness :
  wp (isix_task_change_prio taskA 2) (fun r s' => r = 3 /\ (exists o, k_tasks s' !! taskA = Some o /\ t_prio o = 2)) st_m7.
Proof.
  eapply wp_mono; [eapply (task_change_prio_rebases taskA 2 _ st_m7 (ko_inv _ st_m7_ok) (ko_mtx _ st_m7_ok));
    first [reflexivity|discriminate|split; apply Z.leb_le; reflexivity|apply Z.leb_le; reflexivity]|].
  intros r s' (Hr & R). split; [exact Hr|]. destruct (rb_task _ _ _ _ _ R) as (o' & Ets & _ & Hp & _).
  exists o'. rewrite Ets. split; [apply lookup_insert_eq|exact Hp].
Defined.

(** The owner of the mutex releases what it owns, or ends itself: the waiter owns it. *)
Lemma unlock_all_releases_witness :
  wp (_isixp_mutex_unlock_all_in_task taskB) (fun _ s' => k_mtxs s' !! mtxM = Some (Mtx 1 taskA false)) st_m7.
Proof.
  eapply wp_mono; [eapply (unlock_all_releases taskB [mtxM] _ _ st_m7 (ko_inv _ st_m7_ok) (ko_mtx _ st_m7_ok));
    first [reflexivity|discriminate|apply Z.leb_le; reflexivity|intros _; reflexivity]|].
  intros r s' [A _]. exact (proj1 (ua_mtxs _ _ _ _ _ A mtxM _ [taskA] (list_elem_of_here _ _) eq_refl eq_refl)).
Defined.

Lemma task_kill_buries_witness :
  wp (isix_task_kill NULL) (fun _ s' => k_mtxs s' !! mtxM = Some (Mtx 1 taskA false) /\ k_pendsv s' = true) st_m7.
Proof.
  eapply wp_mono; [eapply (task_kill_buries NULL _ _ [mtxM] [] [] st_m7 (ko_inv _ st_m7_ok) (ko_mtx _ st_m7_ok));
    first [reflexivity|discriminate|apply Z.leb_le; reflexivity]|].
  intros r s' [K Hy]. split; [|exact (Hy eq_refl)].
  exact (kl_mtxs _ _ _ _ _ _ _ K mtxM _ [taskA] (list_elem_of_here _ _) eq_refl eq_refl).
Defined.

(** ** Condition variables *)

(** The second task owns the mutex and waits; the first one broadcasts. *)
Definition condC : Z := 0x20001488.
Definition st_c1 : kstate seqfit := Eval vm_compute in final isix_condvar_create st_m1.
Definition st_c2 : kstate seqfit := Eval vm_compute in final (isix_condvar_wait condC 5) st_c1.
Definition st_c3 : kstate seqfit := Eval vm_compute in final _isixp_schedule st_c2.

Lemma st_c1_ok : kernel_ok idleI st_c1.
Proof. apply kernel_checkb_sound. reflexivity. Qed.

Lemma st_c3_ok : kernel_ok idleI st_c3.
Proof. apply kernel_checkb_sound. reflexivity. Qed.

Ltac runs_in H := split; [apply H|reflexivity|apply Z.leb_le; reflexivity|reflexivity|reflexivity].

Lemma condvar_wait_releases_witness :
  wp (isix_condvar_wait condC 5) (fun r s' => r = (Blocked, mtxM) /\ k_mtxs s' !! mtxM = Some (Mtx 0 NULL false)) st_c1.
Proof.
  eapply wp_mono; [eapply (condvar_wait_releases condC 5 mtxM _ _ [] [] [] st_c1)|].
  - runs_in st_c1_ok.
  - apply st_c1_ok.
  - discriminate.
  - split; [apply Z.leb_le|]; reflexivity.
  - reflexivity.
  - reflexivity.
  - discriminate.
  - reflexivity.
  - reflexivity.
  - intros r s' [Hr W]. split; [exact Hr|]. rewrite (cw_mutex _ _ _ _ _ _ _ _ _ W). apply lookup_insert_eq.
Defined.

Lemma condvar_broadcast_wakes_all_witness :
  wp (_isixp_condvar_broadcast condC false) (fun r s' => r = ISIX_EOK /\ k_q s' !! QCond condC = Some []) st_c3.
Proof.
  eapply wp_mono; [eapply (condvar_broadcast_wakes_all condC [taskB] _ st_c3)|].
  - runs_in st_c3_ok.
  - apply st_c3_ok.
  - discriminate.
  - reflexivity.
  - intros r s' (Hr & _ & W & _). split; [exact Hr|]. exact (ew_list _ _ _ _ _ _ W).
Defined.

(** ** Pools *)

Lemma mempool_alloc_exclusive_witness :
  wp (isix_mempool_alloc (Some (1, pool3))) (fun r _ => fst r ∉ [0x20001010]) st_running.
Proof.
  eapply wp_mono; [apply (mempool_alloc_exclusive 3 1 pool3 [0x20001010] st_running pool3_ok)|].
  - apply Z.leb_le. reflexivity.
  - intros r s' (mp' & _ & H). exact (proj1 H).
Defined.

Lemma mempool_free_checks_witness :
  isix_mempool_free (Some (1, pool3)) 0x20001008 st_running = Ok (ISIX_EINVADDR, Some (1, pool3)) st_running.
Proof.
  apply (mempool_free_checks 3 1 pool3 [] 0x20001010 [] 0x20001008 st_running pool3_ok).
  - apply Z.leb_le. reflexivity.
  - discriminate.
  - apply (bool_decide_eq_false_1 (_ ∈ _)). reflexivity.
Defined.

(** ** The port of the TCP/IP stack *)

(** A mailbox for two messages, with one in it. *)
Definition st_box : kstate seqfit :=
  Eval vm_compute in final (r <- SysArch.sys_mbox_new 2;; SysArch.sys_mbox_trypost (snd r) 0x20003000) st_running.

Lemma st_box_ok : SysArch.mailbox fifoF 2 [0x20003000] st_box.
Proof.
  split; [reflexivity|]. split; [constructor; [split; [discriminate|reflexivity]|constructor]|].
  split; [|reflexivity| | |apply Z.leb_le; reflexivity].
  - eexists _, 0. split; [reflexivity|]. split; [|by split]. split; simpl; try reflexivity; try lia.
    intros [|i] x Hi; [injection Hi as <-; reflexivity|done].
  - eexists. split; [reflexivity|]. repeat split.
  - eexists. split; [reflexivity|]. repeat split.
Qed.

Lemma mailbox_bounded_queue_witness :
  wp (SysArch.sys_arch_mbox_tryfetch fifoF) (fun r _ => r = (0, Some 0x20003000)) st_box.
Proof.
  destruct (SysArch.mailbox_bounded_queue fifoF 2 [0x20003000] 0 st_box st_box_ok) as [_ H]; [split; [discriminate|reflexivity]|].
  eapply wp_mono; [exact H|]. intros r s' [Hr _]. exact Hr.
Defined.

Lemma may_allocate_running : may_allocate st_running.
Proof. split_and!; try reflexivity; try discriminate. intros _. split; reflexivity. Qed.

Lemma mailbox_new_empty_witness :
  wp (SysArch.sys_mbox_new 2) (fun r s' => (r = (SysArch.ERR_MEM, NULL) /\ same_store st_running s') \/
    (exists mbox, r = (SysArch.ERR_OK, mbox) /\ SysArch.mailbox mbox 2 [] s')) st_running.
Proof.
  apply (SysArch.mailbox_new_empty 2 st_running may_allocate_running); [split; reflexivity|].
  apply Z.leb_le. vm_compute. reflexivity.
Defined.

Lemma sys_sem_wait_sleeps_witness :
  wp (SysArch.sys_arch_sem_wait semS 10) (fun r s' => fst (snd r) = Blocked /\ remaining s' taskB = Some 10) st_running.
Proof.
  eapply wp_mono; [refine (proj1 (SysArch.sys_sem_wait_sleeps semS 10 [] _ st_running _ _ _ _ _))|].
  - split; [apply sched_checkb_sound; reflexivity|reflexivity|apply Z.leb_le; reflexivity|reflexivity|reflexivity].
  - discriminate.
  - reflexivity.
  - split; apply Z.leb_le; reflexivity.
  - reflexivity.
  - intros r s' (-> & _ & _ & Hrem). split; [reflexivity|]. rewrite Hrem. reflexivity.
Defined.

(** The first task has the mutex of [st_m1]. *)
Lemma st_m1_owns : exists o, Locking.owns st_m1 mtxM o /\ m_count o < 2 ^ 31 - 1.
Proof.
  eexists. split; [split; [split; [discriminate|reflexivity]|split; [reflexivity|discriminate]| |apply Z.leb_le; reflexivity]|].
  - split; [apply Z.leb_le|apply Z.ltb_lt]; reflexivity.
  - reflexivity.
Qed.

Lemma protect_nests_witness :
  wp (SysArch.sys_arch_protect mtxM) (fun r s1 => r = Done ISIX_EOK /\ k_mtxs s1 !! mtxM <> None) st_m1.
Proof.
  destruct st_m1_owns as (o & Ho & Hmax).
  eapply wp_mono; [apply (SysArch.protect_nests mtxM o st_m1 Ho Hmax)|].
  intros r s' (-> & _ & Hm & _). split; [reflexivity|]. rewrite Hm, lookup_insert_eq. discriminate.
Defined.

(** A lock of the library in front of the mutex. *)
Definition st_lock : kstate seqfit := Eval vm_compute in upd_mem (mem_write 0x20003000 (word_bytes mtxM)) st_m1.

Lemma retarget_lock_recursive_witness :
  wp (r <- Locking.__retarget_lock_acquire_recursive 0x20003000;; Locking.__retarget_lock_release_recursive 0x20003000;;; ret r)
    (fun r s' => r = Done ISIX_EOK /\ k_mtxs s' = k_mtxs st_lock) st_lock.
Proof.
  eapply wp_mono; [eapply (Locking.retarget_lock_recursive 0x20003000 mtxM)|].
  - split; [discriminate|]. split; [split; [discriminate|reflexivity]|reflexivity].
  - split; [split; [discriminate|reflexivity]|split; [reflexivity|discriminate]| |apply Z.leb_le; reflexivity].
    split; [apply Z.leb_le|apply Z.ltb_lt]; reflexivity.
  - reflexivity.
  - intros r s' (Hr & Hm & _). split; [exact Hr|exact Hm].
Defined.
