(* ===== verification/RunExamples.v ===== *)
(** * A run of the kernel on a concrete machine

    Two tasks of Examples.v pass a mutex on; a third one is created, killed and waited for until
    nothing of it is left. *)

From S2P Require Import Prelude.
From S2P Require Import DList.
From S2P Require Import Systimer.
From S2P Require Import OsStats.
From S2P Require Import Kernel.
From S2P Require Import Scheduler.
From S2P Require Import Events.
From S2P Require Import Semaphore.
From S2P Require Import Mutex.
From S2P Require Import Task.
From S2P Require Import OsTime.
From S2P Require Import SchedInv.
From S2P Require Import SchedCore.
From S2P Require Import TaskLife.
From S2P Require Import KernelInv.
From S2P Require Import KernelTasks.
From S2P Require Import KernelRun.
From S2P Require Import Idle.
From S2P Require Import Checker.
From S2P Require Import Seqfit.
From S2P Require Import Examples.
From stdpp Require Import base numbers gmap list sorting.
From Stdlib Require Import ZArith Lia.
Local Open Scope Z_scope.
Local Open Scope isix_scope.

(** The start of a new task and the data of the C library are those of [boot]. *)
Definition terminatorT : Z := 0x08000100.

Local Notation run := (rtc (kstep idleI terminatorT 0)).

Lemma kernel_step e s s' s'' : enabled idleI 0 e s -> exec terminatorT 0 e s = Ok tt s' -> run s' s'' -> run s s''.
Proof. intros He Hex. apply rtc_l. by eapply kstep_exec. Qed.

(** The conditions of a step, evaluated. *)
Definition user_runsb (s : kstate seqfit) : bool :=
  negb (k_currp s =? idleI) && match k_tasks s !! k_currp s with Some o => active (t_state o) | None => false end.

Lemma user_runsb_sound s : user_runsb s = true -> user_runs idleI s.
Proof.
  unfold user_runsb. intros [Hne%negb_true_iff%Z.eqb_neq Ha]%andb_prop. split; [done|].
  destruct (k_tasks s !! k_currp s) as [o|]; [by exists o|done].
Qed.

Definition foundb {A} (o : option A) : bool := match o with Some _ => true | None => false end.

Lemma foundb_sound {A} (o : option A) : foundb o = true -> is_Some o.
Proof. by destruct o. Qed.

Ltac runs_now := apply user_runsb_sound; vm_compute; reflexivity.
Ltac found_now := apply foundb_sound; vm_compute; reflexivity.
Ltac step_now := lazymatch goal with |- ?l = ?r => exact (@eq_refl _ r <: l = r) end.

Lemma lock_run : run st_m0 st_m8.
Proof.
  eapply (kernel_step (EvLock mtxM) _ st_m1); [|step_now|].
  { split; [task_runs|split; [discriminate|eexists; split; [reflexivity|apply Z.ltb_lt; reflexivity]]]. }
  eapply (kernel_step (EvWait 5) _ st_m2); [split; [task_runs|lia]|step_now|].
  eapply (kernel_step EvSwitch _ st_m3); [exact I|step_now|].
  eapply (kernel_step (EvLock mtxM) _ st_m4); [|step_now|].
  { split; [task_runs|split; [discriminate|eexists; split; [reflexivity|apply Z.ltb_lt; reflexivity]]]. }
  eapply (kernel_step EvSwitch _ st_m5); [exact I|step_now|].
  eapply (kernel_step (EvTicks 5) _ st_m6); [simpl; lia|step_now|].
  eapply (kernel_step EvSwitch _ st_m7); [exact I|step_now|].
  eapply (kernel_step (EvUnlock mtxM) _ st_m8); [|step_now|apply rtc_refl].
  split; [task_runs|split; [discriminate|eexists; reflexivity]].
Qed.

(** The second task creates a third one, to which it has a reference, kills it and sleeps; so
    does the first task.  The idle task cleans up; when the tasks have woken up, one gives the
    reference back, and nothing of the third task is left. *)
Definition taskC : Z := 0x20001488.
Definition st_l1 : kstate seqfit := Eval vm_compute in final (isix_task_create terminatorT 0 0x08000500 0 160 4 isix_task_flag_ref) st_m8.
Definition st_l2 : kstate seqfit := Eval vm_compute in final (isix_task_kill taskC) st_l1.
Definition st_l3 : kstate seqfit := Eval vm_compute in final (isix_wait 5) st_l2.
Definition st_l4 : kstate seqfit := Eval vm_compute in final _isixp_schedule st_l3.
Definition st_l5 : kstate seqfit := Eval vm_compute in final (isix_wait 5) st_l4.
Definition st_l6 : kstate seqfit := Eval vm_compute in final _isixp_schedule st_l5.
Definition st_l7 : kstate seqfit := Eval vm_compute in final cleanup_tasks st_l6.
Definition st_l8 : kstate seqfit := Eval vm_compute in final (_isixp_systimer_announce 5) st_l7.
Definition st_l9 : kstate seqfit := Eval vm_compute in final _isixp_schedule st_l8.
Definition st_l10 : kstate seqfit := Eval vm_compute in final (isix_task_unref taskC) st_l9.

Definition heap1 : seqfit := snd (heap_alloc 64 (k_heap st_m8)).
Definition stackC : Z := fst (heap_alloc 160 heap1).

Lemma blocks_of_C : created_blocks 0 160 isix_task_flag_ref (k_heap st_m8) taskC stackC NULL (k_heap st_l1).
Proof. exists heap1, (k_heap st_l1). split; [step_now|]. split; [step_now|]. split; [reflexivity|step_now]. Qed.

Lemma stackC_not_null : stackC <> NULL.
Proof. apply Z.eqb_neq. vm_compute. reflexivity. Qed.

Lemma vacant_C : vacant st_m8 taskC.
Proof. split; [discriminate|]. split; vm_compute; reflexivity. Qed.

Lemma st_m8_ok : kernel_ok idleI st_m8.
Proof. apply kernel_checkb_sound. vm_compute. reflexivity. Qed.

Lemma st_l6_ok : kernel_ok idleI st_l6.
Proof. apply kernel_checkb_sound. vm_compute. reflexivity. Qed.

Lemma life_run : run st_m8 st_l10.
Proof.
  eapply (kernel_step (EvCreate 0x08000500 0 160 4 isix_task_flag_ref) _ st_l1); [|step_now|].
  { split; [runs_now|]. split; [discriminate|]. split; [vm_compute; reflexivity|]. right. right.
    exists taskC, stackC, NULL, (k_heap st_l1). split; [exact blocks_of_C|]. split; [exact vacant_C|exact stackC_not_null]. }
  eapply (kernel_step (EvKill taskC) _ st_l2); [split; [runs_now|split; [found_now|discriminate]]|step_now|].
  eapply (kernel_step (EvWait 5) _ st_l3); [split; [runs_now|lia]|step_now|].
  eapply (kernel_step EvSwitch _ st_l4); [exact I|step_now|].
  eapply (kernel_step (EvWait 5) _ st_l5); [split; [runs_now|lia]|step_now|].
  eapply (kernel_step EvSwitch _ st_l6); [exact I|step_now|].
  eapply (kernel_step EvCleanup _ st_l7); [vm_compute; reflexivity|step_now|].
  eapply (kernel_step (EvTicks 5) _ st_l8); [simpl; lia|step_now|].
  eapply (kernel_step EvSwitch _ st_l9); [exact I|step_now|].
  eapply (kernel_step (EvUnref taskC) _ st_l10); [split; [runs_now|found_now]|step_now|apply rtc_refl].
Qed.

Lemma kernel_run_well_formed_witness :
  k_mtxs st_m8 = {[mtxM := Mtx 1 taskA false]} /\ t_state <$> k_tasks st_l6 !! taskC = Some OSTHR_STATE_ZOMBIE /\
  k_tasks st_l10 !! taskC = None /\ kernel_ok idleI st_l10 /\
  forall e, enabled idleI 0 e st_l10 -> exists s'', exec terminatorT 0 e st_l10 = Ok tt s''.
Proof.
  do 3 (split; [vm_compute; reflexivity|]). apply (kernel_run_well_formed idleI terminatorT 0 st_m0 st_l10 st_m0_ok).
  etransitivity; [exact lock_run|exact life_run].
Defined.




(** The idle task runs while the others sleep for five ticks: the timer is armed for all of them,
    its interrupt comes when the first one begins and after the last one. *)
Definition sleeps : list (K seqfit unit) := [systick_isr_vector; systick_isr_vector].

Definition after_sleep (wakes : list (K seqfit unit)) : option (bool * Z * option osthr_state) :=
  match idle_round wakes st_l6 with Ok awake s => Some (awake, k_jiffies s, t_state <$> k_tasks s !! taskA) | _ => None end.

Lemma st_l6_clocks : clocks_ok idleI st_l6.
Proof.
  split; [exact st_l6_ok| |].
  - split_and!; vm_compute; congruence.
  - intros H. by destruct H.
Qed.

Lemma idle_round_keeps_time_witness :
  wp (idle_round sleeps) (fun awake s' => if awake then clocks_ok idleI s' else inside (napping idleI) s') st_l6 /\
  k_jiffies st_l6 = 5 /\ after_sleep [systick_isr_vector] = Some (false, 6, Some OSTHR_STATE_SLEEPING) /\
  after_sleep sleeps = Some (true, 10, Some OSTHR_STATE_READY).
Proof.
  split; [|split_and!; vm_compute; reflexivity].
  apply (idle_round_keeps_time idleI sleeps st_l6 st_l6_clocks); [vm_compute; reflexivity|].
  repeat constructor.
Defined.
