(* ===== verification/SwitchExamples.v ===== *)
(** * A context switch on a concrete machine

    The kernel of Examples.v with the stacks of its tasks: a task is interrupted, another one
    starts. *)

From S2P Require Import Prelude.
From S2P Require Import DList.
From S2P Require Import Systimer.
From S2P Require Import OsStats.
From S2P Require Import Kernel.
From S2P Require Import Memory.
From S2P Require Import Scheduler.
From S2P Require Import Events.
From S2P Require Import Semaphore.
From S2P Require Import Task.
From S2P Require Import SchedInv.
From S2P Require Import SchedCore.
From S2P Require Import KernelInv.
From S2P Require Import KernelTasks.
From S2P Require Import TaskLife.
From S2P Require Import Checker.
From S2P Require Import Seqfit.
From S2P Require Import Switch.
From S2P Require Import Examples.
From S2P Require Import RunExamples.
From stdpp Require Import base numbers gmap list sorting.
From Stdlib Require Import ZArith Lia.
Local Open Scope Z_scope.
Local Open Scope isix_scope.

(** ** The context switch *)

(** The state after [boot] with the contents of the stacks: the second task runs with some
    numbers in its registers, the first one and the idle task have not run yet. *)
Definition st_stacks : kstate seqfit := Eval vm_compute in final boot reset_state.

Definition base_of (t : Z) : Z :=
  match k_tasks st_stacks !! t with Some o => t_init_stack o + 160 | None => 0 end.

Definition baseA : Z := Eval vm_compute in base_of taskA.
Definition baseB : Z := Eval vm_compute in base_of taskB.
Definition baseI : Z := Eval vm_compute in base_of idleI.

Definition cpuB : cpu := Cpu [4; 5; 6; 7; 8; 9; 10; 11] 0xfffffffd (replicate 16 0) (baseB - 32).

Definition contexts : gmap Z cpu :=
  {[taskB := cpuB; taskA := first_context cpuB baseA; idleI := first_context cpuB baseI]}.

Definition cpuA : cpu := Eval vm_compute in match pend_svc_m3 cpuB st_stacks with Ok c _ => c | _ => cpuB end.
Definition st_switched : kstate seqfit := Eval vm_compute in match pend_svc_m3 cpuB st_stacks with Ok _ s => s | _ => st_stacks end.

Lemma contexts_inv (P : Z -> cpu -> Prop) t x :
  contexts !! t = Some x -> P taskB cpuB -> P taskA (first_context cpuB baseA) ->
  P idleI (first_context cpuB baseI) -> P t x.
Proof.
  unfold contexts. intros [[<- <-]|[_ H]]%lookup_insert_Some HB HA HI; [done|]. apply lookup_insert_Some in H as [[<- <-]|[_ H]]; [done|].
  by apply lookup_singleton_Some in H as [<- <-].
Qed.

Lemma contexts_saved : contexts_ok m3 contexts cpuB st_stacks.
Proof.
  intros t x Hx. refine (contexts_inv (fun t x => exists o, k_tasks st_stacks !! t = Some o /\
    if decide (t = k_currp st_stacks) then same m3 x cpuB else saved m3 (k_mem st_stacks) (t_top_stack o) x) t x Hx _ _ _);
    (eexists; split; [vm_compute; reflexivity|vm_compute; split; reflexivity]).
Qed.

Lemma contexts_apart : stacks_ok m3 contexts st_stacks.
Proof.
  assert (c_psp cpuB = 536876048) as EB by (vm_compute; reflexivity).
  assert (c_psp (first_context cpuB baseA) = 536875808) as EA by (vm_compute; reflexivity).
  assert (c_psp (first_context cpuB baseI) = 536875568) as EI by (vm_compute; reflexivity).
  split.
  - intros t x Hx. refine (contexts_inv (fun _ x => cpu_ok x) t x Hx _ _ _); split; try reflexivity;
      refine (bool_decide_eq_true_1 _ _); vm_compute; reflexivity.
  - intros t1 t2 x1 x2 H1 H2. simpl. refine (contexts_inv (fun t1 x1 => t1 <> t2 -> c_psp x1 <= c_psp x2 - 32 \/ c_psp x2 <= c_psp x1 - 32) t1 x1 H1 _ _ _).
    + refine (contexts_inv (fun t2 x2 => taskB <> t2 -> c_psp cpuB <= c_psp x2 - 32 \/ c_psp x2 <= c_psp cpuB - 32) t2 x2 H2 _ _ _); lia.
    + refine (contexts_inv (fun t2 x2 => taskA <> t2 -> c_psp (first_context cpuB baseA) <= c_psp x2 - 32 \/ c_psp x2 <= c_psp (first_context cpuB baseA) - 32) t2 x2 H2 _ _ _); lia.
    + refine (contexts_inv (fun t2 x2 => idleI <> t2 -> c_psp (first_context cpuB baseI) <= c_psp x2 - 32 \/ c_psp x2 <= c_psp (first_context cpuB baseI) - 32) t2 x2 H2 _ _ _); lia.
  - assert (bool_decide (map_Forall (fun t o => active (t_state o) = true -> is_Some (contexts !! t)) (k_tasks st_stacks)) = true) as Ha by (vm_compute; reflexivity).
    exact (bool_decide_eq_true_1 _ Ha).
  - apply foundb_sound. vm_compute. reflexivity.
Qed.

Lemma context_switch_keeps_contexts_witness :
  pend_svc_m3 cpuB st_stacks = Ok cpuA st_switched /\ k_currp st_stacks = taskB /\ k_currp st_switched = taskA /\
  c_regs cpuA = replicate 8 fill_word /\ contexts_kept m3 contexts cpuB st_stacks cpuA st_switched.
Proof.
  assert (pend_svc_m3 cpuB st_stacks = Ok cpuA st_switched) as Hrun by step_now.
  split; [exact Hrun|]. do 3 (split; [vm_compute; reflexivity|]).
  refine (wp_elim _ _ _ _ _ Hrun (context_switch_keeps_contexts m3 pend_svc_m3 contexts cpuB cpuB st_stacks _ _ contexts_saved contexts_apart _)).
  - left. split; reflexivity.
  - apply switch_checkb_sound. vm_compute. reflexivity.
  - vm_compute. reflexivity.
Defined.

(** The second task creates a third one. *)
Definition blockB : task := Eval vm_compute in match k_tasks st_m8 !! k_currp st_m8 with Some o => o | None => Task 0 0 0 0 0 OSTHR_STATE_CREATED false 0 0 0 0 end.

Lemma task_create_starts_witness :
  wp (isix_task_create terminatorT 0 0x08000500 42 160 4 isix_task_flag_ref) (fun r s' => r = taskC /\ kernel_ok idleI s' /\
    created terminatorT taskC stackC 160 NULL 0x08000500 42 4 isix_task_flag_ref (k_heap st_l1) blockB st_m8 s' /\
    exists o, k_tasks s' !! taskC = Some o /\ saved m3 (k_mem s') (t_top_stack o) (first_context cpuB (stackC + 160)) /\
      load_words (stackC + 160 - 32) 8 (k_mem s') =
        Some [42; fill_word; fill_word; fill_word; fill_word; terminatorT; 0x08000500; INITIAL_XPSR]) st_m8.
Proof.
  refine (task_create_starts terminatorT 0 idleI 0x08000500 42 160 4 isix_task_flag_ref taskC stackC NULL (k_heap st_l1) blockB cpuB st_m8
    st_m8_ok _ _ _ _ blocks_of_C vacant_C _ _ _ _).
  - vm_compute. reflexivity.
  - reflexivity.
  - split; discriminate.
  - split; [discriminate|reflexivity].
  - exact stackC_not_null.
  - split; [discriminate|reflexivity].
  - split; [discriminate|reflexivity].
  - split; [discriminate|reflexivity].
Defined.
